(* ===== verification/_CoqProject ===== *)
-Q . S2P
Prelude.v
Effects.v
GoString.v
GoTime.v
GoNum.v
Records.v
Store.v
Samples.v
Quota.v
Ledger.v
Plan.v
Subscription.v
Hoare.v
SubInv.v
SubProps.v
OrderProps.v
Billing.v
BillingProps.v
SessionProps.v
TopUp.v
TopUpProps.v
SystemTask.v
TaskSafety.v
CleanupProps.v
MediaTask.v
MediaSafety.v
MediaProps.v
TextQuota.v
TextProps.v
RateLimit.v
RateProps.v
StatusCodes.v
RateModel.v
Channel.v
ChannelCache.v
ChannelKeys.v
AbilityProps.v
SelectProps.v
KeyProps.v
RelayRetry.v
Pricing.v
PricingProps.v
StreamScanner.v
ScannerProps.v
Json.v
TokenEstimator.v
ClaudeStream.v
OaiStream.v
ClaudeClient.v
StreamProps.v
ClaudeStreamProps.v
ClaudeUpstream.v
ClaudeUpstreamProps.v
Authz.v
AuthzProps.v
Accounts.v
TwoFactor.v
UserApi.v
Login.v
AccountProps.v
RootProps.v
TwoFactorProps.v
LoginProps.v
Override.v
OverrideHeaders.v
OverrideProps.v
OverrideExact.v
HybridCache.v
HybridProps.v
Affinity.v
Distributor.v
AffinityProps.v
Witnesses.v
ChannelWitnesses.v
MediaWitnesses.v
TextWitnesses.v
StreamWitnesses.v
AccountWitnesses.v
OverrideWitnesses.v
AffinityWitnesses.v
