(* ===== verification/Prelude.v ===== *)
(** * New API gateway: verification library

    The program is a gateway in front of AI providers.  Its own core logic is
    what it does with money, with shared state and with its upstreams: it meters
    requests in quota units, charges wallets, tokens and subscriptions, takes
    payments, runs background tasks on several nodes over one database, limits
    its clients, chooses an upstream channel for each request, tries again when
    one fails and turns the answer's stream into the format the client reads;
    and it decides who may do all that: accounts, log-in, permissions.  This
    library models that core and proves it correct; HTTP routing, the requests
    to the providers and the like are outside.

    ** Shared ground

    - [Prelude] (this file): 64-bit arithmetic, bounded loops, Go strings.
    - [Effects]: errors, the state-and-error monad [M], weakest preconditions,
      database statements, transactions.  Whether a statement reaches the server
      is decided by a list of faults in the state; unless a theorem asks for
      [no_faults] it holds for every pattern of failing statements and commits.
      Code whose statements interleave with those of other nodes is a tree of
      atomic statements, run alone or under a schedule.
    - [GoTime], [GoString]: civil calendar, [time.Date], [AddDate],
      [Duration], printing and parsing of times, package [strings]; the time zone
      is a parameter.
    - [GoNum]: float64 (IEEE 754 of the Standard Library) and the decimal package
      as an interface with its documented laws.
    - [Records]: one record per Go struct, the tables, the shared [World].
    - [Store]: configuration, statements on the tables, clocks, goroutines
      (started work is a [Job] in the world, run later).
    - [Hoare]: preserving an invariant through every statement and error path.
    - [Samples], [Witnesses], [ChannelWitnesses], [MediaWitnesses],
      [TextWitnesses], [StreamWitnesses], [AccountWitnesses],
      [OverrideWitnesses], [AffinityWitnesses]: concrete deployments, every
      theorem with hypotheses applied to them, and runs that show defects.

    ** Money

    - [Quota]: [model/utils.go] (batch updater), the balance operations of
      [model/user.go], [model/token.go], [model/channel.go], the Redis caches of
      [model/user_cache.go] and [model/token_cache.go].
      [Ledger] gives the abstract specification, a ledger that an operation
      changes at once, and proves the refinement: row plus pending amount is the
      ledger, with batching on or off; after a flush the rows are.  It also
      proves what a validated token is.
    - [Plan]: durations and reset times of [model/subscription.go]: the next
      reset is the first due instant, the catch-up loop ends; two overflows are
      shown where a bound is missing.
    - [Subscription]: the stateful functions of [model/subscription.go].
      [SubInv]: no reachable state overspends a subscription.  [SubProps]:
      pre-consumption is atomic, idempotent, takes the subscription that ends
      first; refunds restore; settlement is exact; a refund can happen twice when
      a save fails.  [OrderProps]: orders complete once and all or nothing,
      purchase limits hold, a purchase with the balance charges the price or
      nothing.
    - [Billing]: [service/billing_session.go], [service/funding_source.go],
      [service/billing.go], [service/pre_consume_quota.go] and the token and
      notification part of [service/quota.go].  [BillingProps]: a request costs
      exactly its actual quota when it is settled, nothing when it is refunded.
      [SessionProps]: preferences that exclude the wallet are respected whatever
      fails, a session is refunded at most once.
    - [TextQuota]: the price of a text request ([service/text_quota.go], the
      price functions of [service/quota.go], [service/tiered_settle.go],
      [pkg/billingexpr/settle.go], [setting/operation_setting/tools.go]).
      [TextProps]: the price of a model priced by ratio equals a reference with its
      own account of tokens and tools, the weighted token categories rounded once;
      it grows with the answer and is never 0 for a priced model.
    - [Pricing]: the price lookups of [setting/ratio_setting], the price of a
      request ([relay/helper/price.go]), the audio and realtime settlements of
      [service/quota.go], [service/tool_billing.go], [service/violation_fee.go].
      [PricingProps]: pricing, pre-consumption and settlement together charge
      exactly the price of the report, and count it when the report has tokens.
    - [TopUp]: [model/topup.go], the Epay notification of [controller/topup.go],
      [model/redemption.go], [model/checkin.go] and the invitation functions of
      [model/user.go].  [TopUpProps]: the completing functions of [model/topup.go]
      are all or nothing (the Epay notification is not, [epay_order_lost]), an order
      is paid at most once over any sequence of operations, amounts are exact;
      codes and check-ins work once.

    ** Background work

    - [SystemTask]: [model/system_task.go], [service/system_task.go] and the
      batched deletion of [model/log.go], as interleaving programs.
      [TaskSafety]: rely-guarantee reasoning; at most one active task per type,
      tasks only move forward, only the lease holder writes.  [CleanupProps]: the
      log cleanup ends and does its work; with MySQL's row counts it gives up.
    - [MediaTask]: [model/task.go], [service/task_billing.go],
      [service/task_polling.go] and [tryRealtimeFetch] of [relay/relay_task.go].
      [MediaSafety]: under every interleaving of video pollers, sweeps and requests
      a task is billed at most once, by a logic of tickets (Suno polling does not
      keep this).  [MediaProps]: a failed
      task gives its quota back, a finished one costs what the adaptor reports.
      [MediaWitnesses]: runs in which a task ends unbilled or is billed twice,
      outside the hypotheses of these theorems.

    ** Requests

    - [RateLimit]: [common/rate-limit.go], [middleware/rate-limit.go],
      [middleware/model-rate-limit.go], [common/limiter] with its Lua script.
      [RateProps]: the Redis and the in-memory limiter refine one sliding window,
      which bounds every window and lets a waiting client through; where both
      apply they agree.  [RateModel]: the token bucket, where the limits on
      model requests part ways, and concrete traffic.
    - [StatusCodes]: the status code rules of
      [setting/operation_setting/status_code_ranges.go]: parsed rules are in
      normal form, match what was written and survive printing.
    - [Channel], [ChannelCache], [ChannelKeys]: [model/channel.go],
      [model/ability.go], [model/channel_cache.go], [model/channel_satisfy.go],
      [service/channel.go].  [AbilityProps]: the ability table mirrors the
      channels through the operations that mean to keep it.  [SelectProps]: the in-memory index is
      the enabled abilities; the chosen channel is eligible, of the priority the
      retry asks for, and drawn in proportion to its weight.  [KeyProps]: polling
      is fair over the enabled keys; a channel loses service with its last key.
      [ChannelWitnesses]: runs in which the tables, the index and the documented
      flow of retries differ.
    - [RelayRetry]: [service/channel_select.go], [service/group.go], the retry
      loop of [controller/relay.go]: a relayed request ends within a bound.
    - [HybridCache]: [pkg/cachex], a cache in Redis or, without it, in memory;
      [SCAN] and the [hot] library are the interfaces [RedisScan] and [HotCache].
      A pipeline of deletions can break off half-way.  [HybridProps]: the laws of
      the libraries, and that the cache implements a table with expiry times,
      whichever commands fail; a failed deletion has deleted some of its keys.
    - [Affinity]: [service/channel_affinity.go] with its settings and handlers.
      [Distributor]: [middleware/distributor.go] with
      [relay/constant/relay_mode.go] and the model names of
      [service/midjourney.go]: the model a request asks for, the choice of a
      channel and what of it the handlers see.  [AffinityProps]: a client comes
      back to its channel, clearing a rule forgets it, a template's rules run
      before the channel's own, a retry starts from a fresh context, and whatever
      the cache holds a request is given only a channel it may use.

    ** Streams

    - [StreamScanner]: the goroutines of [relay/helper/stream_scanner.go] with
      [stream_result.go] and [relay/common/stream_status.go], as a step relation on
      their shared state.  [ScannerProps]: under every schedule the handler is
      given the lines in order and once; a stream noted as complete was handed on
      completely.
    - [Json]: JSON values and the interface to the decoders.  [TokenEstimator]:
      [service/token_estimator.go], [service/usage_helpr.go].
    - [ClaudeStream], [OaiStream]: the conversion of an OpenAI
      stream to Claude and Gemini events ([service/convert.go]) and the handler
      with its usage ([relay/channel/openai/relay-openai.go], [helper.go],
      [usage.go]).  [ClaudeClient] is the specification: a client of the Claude
      API reading events.  [ClaudeStreamProps]: that client reads the upstream's
      answer, whatever the schedule.  [StreamProps]: what a stream is billed, and
      that the client's format has no part in it.
    - [ClaudeUpstream]: streams of Claude upstreams
      ([relay/channel/claude/relay-claude.go]).  [ClaudeUpstreamProps]: the chunks
      made of them say what the events said, the bill is what they reported.

    ** Identity

    - [Authz]: the package [service/authz] over its rules table; casbin is the
      interface [Casbin] with [CasbinLaws].  [AuthzProps]: decisions are those of
      the table; what is set is what is decided; a start restores the baseline.
    - [Accounts]: the users table ([model/user.go], [model/user_cache.go]): soft
      deletion, unique columns, defaults, caches.  [UserApi]: the handlers of
      [controller/user.go] and [controller/misc.go] that change accounts, with
      [common/verification.go] and the audit.  [AccountProps]: frames, and that
      rank is respected.  [RootProps]: balances are left alone, and root is not
      lost over sequences of the modelled requests, their first statement answered.
    - [TwoFactor]: [common/totp.go], [model/twofa.go], [controller/twofa.go].
      [TwoFactorProps]: codes are spent once, wrong codes lock, issued codes work.
    - [Login]: sessions ([Login], [Verify2FALogin], [Logout]) and
      [middleware/auth.go].  [LoginProps]: what a session made by a password
      proves; a disabled user is locked out at once and stays it under token traffic.

    ** Parameter overrides

    - [Override]: the rules of a channel on the body of a request
      ([relay/common/override.go]): parsing, conditions, negative indices,
      wildcards, the operations on values, pruning, audit lines.
      [OverrideHeaders]: the header operations, [pass_headers], [sync_fields], the
      loop over the rules, the context they see and
      [ApplyParamOverrideWithRelayInfo].  [gjson], [sjson] and [encoding/json] are
      the interface [JsonText], [regexp], float formatting, Unicode case and the
      order of maps are [Formatting].
    - [OverrideProps]: paths on trees, the laws of the libraries for plain paths,
      and that the rules on texts implement a reference on trees.
      [OverrideExact]: the exact effect of the old form, of wildcards and of
      pruning by type, and what a restricted header list lets through.

    The components meet as in the program: [Billing] calls [Quota] and
    [Subscription] through [FundingSource]; [TextQuota] settles through
    [Billing]; [MediaTask] bills through [Quota] and [Subscription]; [TopUp] and
    [Subscription] share the top-up table and the logs; all of them run on the one
    [World].  [Accounts] shares the users table and the caches with [Quota], and
    [Login] validates tokens through it; [UserApi] writes permissions through
    [Authz].  The stream handlers run as the data handler of [StreamScanner] and
    hand their usage to [TextQuota].  The [Distributor] asks
    [HybridCache] for a client's channel and [ChannelCache] whether it serves, and
    its templates end in the rules of [Override].  Background tasks, channels and limits use
    tables of their own and have their own state.

    ** Bounds and assumptions

    - Amounts: [ledger_refines] asks that the amounts of the operations add up to
      less than 2^63, so that no pending sum wraps; the billing theorems ask for
      amounts up to 2^50 and at most 500 reservations, which implies that.  The
      price theorems ask that the rounded price fits 64 bits.
    - The reset loop runs under a binary bound of the seconds between the last
      reset and now, which is proved to be enough.
    - The loops of the log cleanup carry fuel; the number of old rows plus two is
      proved to be enough.  The retry loop carries the number of its rounds; one
      more than the proved bound on attempts is enough.
    - Time zone theorems are for zones with a fixed offset.
    - Limits: Redis and the nodes show one clock, Redis commands do what their
      documentation says.
    - Media tasks: billing a task is one step of the interleaving; the tasks a
      poller starts in goroutines are one after the other in
      [DispatchPlatformUpdate] and interleave freely in [task_billed_at_most_once].
    - Channels: the columns that selection, keys and status need; random choice
      is a function given the bound, and theorems hold for each of its values.
    - Overrides: values are those [encoding/json] decodes; a Go map is the list of
      its entries in the order of the keys.  The laws of the libraries speak of
      plain paths (letters, digits, dashes and underscores, indices in their usual
      spelling), of literal keys and of valid UTF-8.  [pass_headers] carries fuel,
      the size of its value, which is proved to be enough.
    - Hybrid cache: [HotLaws] let the in-memory cache drop entries at any call,
      never invent one; [ScanLaws] have [SCAN] answer every key that matches, and
      patterns made of a literal text and a star match the texts it starts.  The
      calls of one process are one after the other.  Affinity theorems speak of
      tidy keys, that neither start nor end in a space nor start with a colon, and the
      one on coming back of Redis, whose commands for the two requests do not fail.
    - Streams: writing to the client succeeds; the Unicode tables, the JSON
      decoder and [gjson] are interfaces; pings are signals only.
    - Accounts: gorm does what its documentation says ([First] takes the smallest
      id, [Updates] skips zero fields of a struct); bcrypt, one-time passwords,
      the JSON of settings, addresses and the tables of groups are interfaces;
      the clock has whole seconds.  The administrator theorems ask that the
      first statement of the request, the read of the target, does not fail;
      the findings show what happens when it does.

    ** Not modelled

    Concurrency between the handlers that share [World] (each runs to its end;
    goroutines run later, in any order the caller chooses), row locks, network
    and provider code (requests to the upstreams, adaptors other than the
    OpenAI and Claude streams, answers that are not streamed), OAuth, passkeys,
    settings storage, lists and searches.  Parameters stand for the database
    driver, Redis, the decimal package, the expression engine of tiered prices,
    casbin, what upstreams answer, random numbers, the time zone and the
    configuration.  Next in line, in this order: submission of media tasks
    ([relay/relay_task.go]), Midjourney tasks ([relay/mjproxy_handler.go]), the
    channel handlers ([controller/channel.go]). *)

From stdpp Require Export base gmap strings list pretty.
From Stdlib Require Export ZArith Lia.

#[global] Open Scope Z_scope.

(** ** Go integers

    [int] and [int64] are 64-bit two's complement on every platform the
    gateway is built for; arithmetic wraps around silently. *)

Definition wrap64 (z : Z) : Z := (z + 2 ^ 63) mod 2 ^ 64 - 2 ^ 63.

Definition int64_range (z : Z) : Prop := - 2 ^ 63 <= z < 2 ^ 63.

Lemma wrap64_id z : int64_range z -> wrap64 z = z.
Proof.
  unfold wrap64, int64_range. intros H.
  rewrite Z.mod_small; lia.
Qed.

Lemma wrap64_range z : int64_range (wrap64 z).
Proof.
  unfold wrap64, int64_range.
  pose proof (Z.mod_pos_bound (z + 2 ^ 63) (2 ^ 64)). lia.
Qed.

(** Half of the [int64] range: sums and differences of two such amounts do not
    wrap. *)
Definition small (z : Z) : Prop := - 2 ^ 62 <= z <= 2 ^ 62 - 1.

Lemma wrap64_add x y : small x -> small y -> wrap64 (x + y) = x + y.
Proof. unfold small. intros. apply wrap64_id. unfold int64_range. lia. Qed.

Lemma wrap64_sub x y : small x -> small y -> wrap64 (x - y) = x - y.
Proof. unfold small. intros. apply wrap64_id. unfold int64_range. lia. Qed.

Lemma wrap64_opp x : small x -> wrap64 (- x) = - x.
Proof. unfold small. intros. apply wrap64_id. unfold int64_range. lia. Qed.

Create HintDb gint.
Create Rewrite HintDb gint.
#[export] Hint Resolve wrap64_range : gint.
#[export] Hint Rewrite wrap64_add wrap64_sub wrap64_opp using assumption : gint.

(** ** Loops

    [iter_until p step s] repeats [step] at most [p] times, until it answers
    [inr].  The bound is a binary number, so that a generous one costs nothing
    when the loop ends early. *)

Fixpoint iter_until {S R : Type} (p : positive) (step : S -> S + R) (s : S) : S + R :=
  let again (q : positive) (s : S) :=
    match iter_until q step s with
    | inl s' => iter_until q step s'
    | inr r => inr r
    end in
  match p with
  | xH => step s
  | xO q => again q s
  | xI q => match step s with inl s' => again q s' | inr r => inr r end
  end.

(** An invariant of the rounds holds for whatever the loop ends with. *)
Lemma iter_until_inv {S R} (step : S -> S + R) (I : S -> Prop) (J : R -> Prop) p s :
  (∀ s, I s -> match step s with inl s' => I s' | inr r => J r end) ->
  I s -> match iter_until p step s with inl s' => I s' | inr r => J r end.
Proof.
  intros Hstep. revert s. induction p as [q IH|q IH|]; intros s Hs; simpl.
  - specialize (Hstep s Hs). destruct (step s) as [s1|r]; [|done].
    specialize (IH s1 Hstep) as H1. destruct (iter_until q step s1) as [s2|r]; [|done].
    by apply IH.
  - specialize (IH s Hs) as H1. destruct (iter_until q step s) as [s1|r]; [|done].
    by apply IH.
  - by apply Hstep.
Qed.

(** A measure that every continuing round lowers, and that is positive when a
    round continues, bounds the number of rounds. *)
Lemma iter_until_rounds {S R} (step : S -> S + R) (I : S -> Prop) (m : S -> Z) p s s' :
  (∀ s s', I s -> step s = inl s' -> I s' ∧ 0 < m s ∧ m s' < m s) ->
  I s -> iter_until p step s = inl s' -> I s' ∧ Z.pos p <= m s ∧ m s' <= m s - Z.pos p.
Proof.
  intros Hstep. revert s s'. induction p as [q IH|q IH|]; intros s s' Hs E; simpl in E.
  - destruct (step s) as [s1|] eqn:E1; [|done]. destruct (Hstep s s1) as (H1 & ? & ?); [done..|].
    destruct (iter_until q step s1) as [s2|] eqn:E2; [|done].
    apply IH in E2 as (? & ? & ?); [|done]. apply IH in E as (? & ? & ?); [|done].
    split; [done|lia].
  - destruct (iter_until q step s) as [s2|] eqn:E2; [|done].
    apply IH in E2 as (? & ? & ?); [|done]. apply IH in E as (? & ? & ?); [|done].
    split; [done|lia].
  - destruct (Hstep s s') as (? & ? & ?); [done..|]. split; [done|lia].
Qed.

(** Enough fuel: more than the measure. *)
Lemma iter_until_ends {S R} (step : S -> S + R) (I : S -> Prop) (m : S -> Z) p s :
  (∀ s s', I s -> step s = inl s' -> I s' ∧ 0 < m s ∧ m s' < m s) ->
  I s -> m s < Z.pos p -> ∃ r, iter_until p step s = inr r.
Proof.
  intros Hstep Hs Hm. destruct (iter_until p step s) as [s'|r] eqn:E; [|eauto].
  apply (iter_until_rounds step I m) in E as (_ & ? & _); [lia|done..].
Qed.

(** ** Maps *)

(** Updating each of several distinct keys once. *)
Lemma lookup_foldl_alter {A} (g : Z -> A -> A) (l : list Z) (m : gmap Z A) i :
  NoDup l ->
  foldl (λ m k, alter (g k) k m) m l !! i =
    if decide (i ∈ l) then g i <$> m !! i else m !! i.
Proof.
  revert m. induction l as [|k l IH]; intros m Hnd; [done|].
  apply NoDup_cons in Hnd as [Hk Hnd]. simpl. rewrite IH by done.
  destruct (decide (i = k)) as [->|Hi].
  - rewrite decide_False by done. rewrite decide_True by apply list_elem_of_here.
    by rewrite lookup_alter_eq.
  - rewrite lookup_alter_ne by done.
    destruct (decide (i ∈ l)) as [Hl|Hl].
    + by rewrite decide_True by (apply list_elem_of_further; done).
    + by rewrite decide_False by (rewrite elem_of_cons; tauto).
Qed.

(** ** Filters *)

Lemma filter_none {A} (P : A -> Prop) `{∀ x, Decision (P x)} (l : list A) :
  (∀ x, x ∈ l -> ~ P x) -> filter P l = [].
Proof.
  induction l as [|x l IH]; intros Hl; [done|].
  rewrite filter_cons_False by (apply Hl; left). apply IH. intros y Hy. apply Hl. by right.
Qed.

Lemma list_filter_all {A} (P : A -> Prop) `{∀ x, Decision (P x)} (l : list A) :
  Forall P l -> filter P l = l.
Proof. induction 1 as [|x l Hx Hl IH]; [done|]. by rewrite filter_cons_True, IH. Qed.

Lemma list_filter_iff' {A} (P Q : A -> Prop) `{∀ x, Decision (P x), ∀ x, Decision (Q x)} (l : list A) :
  (∀ x, x ∈ l -> P x <-> Q x) -> filter P l = filter Q l.
Proof.
  induction l as [|x l IH]; intros Hl; [done|]. pose proof (Hl x ltac:(left)) as Hx.
  assert (filter P l = filter Q l) as E by (apply IH; intros y Hy; apply Hl; by right).
  destruct (decide (P x)).
  - by rewrite !filter_cons_True, E by tauto.
  - by rewrite !filter_cons_False, E by tauto.
Qed.

(** ** Go strings (UTF-8 bytes) *)

(** [strings.HasPrefix] and [strings.Contains]. *)
Definition HasPrefix (s p : string) : bool := String.prefix p s.

Fixpoint Contains (s sub : string) : bool :=
  HasPrefix s sub ||
  match s with
  | EmptyString => false
  | String _ s' => Contains s' sub
  end.

Lemma prefix_app p s : String.prefix p (p +:+ s) = true.
Proof.
  induction p as [|a p IH]; [by destruct s|].
  change (String.prefix (String a p) (String a p +:+ s))
    with (if Ascii.ascii_dec a a then String.prefix p (p +:+ s) else false).
  destruct (Ascii.ascii_dec a a); [exact IH|congruence].
Qed.

Lemma Contains_prefix p s : Contains (p +:+ s) p = true.
Proof.
  pose proof (prefix_app p s) as H.
  destruct (p +:+ s) as [|a t];
    [change (Contains "" p) with (String.prefix p "" || false)
    |change (Contains (String a t) p)
       with (String.prefix p (String a t) || Contains t p)]; by rewrite H.
Qed.

(** The UTF-8 encodings of the code points with the Unicode property
    White_Space, which is what [strings.TrimSpace] removes. *)
Definition space_seqs : list (list Z) :=
  [[9]; [10]; [11]; [12]; [13]; [32]; [194; 133]; [194; 160]; [225; 154; 128];
   [226; 128; 128]; [226; 128; 129]; [226; 128; 130]; [226; 128; 131];
   [226; 128; 132]; [226; 128; 133]; [226; 128; 134]; [226; 128; 135];
   [226; 128; 136]; [226; 128; 137]; [226; 128; 138]; [226; 128; 168];
   [226; 128; 169]; [226; 128; 175]; [226; 129; 159]; [227; 128; 128]].

Definition bytes_of (s : string) : list Z :=
  (λ a, Z.of_N (Ascii.N_of_ascii a)) <$> String.list_ascii_of_string s.

Definition string_of_bytes (l : list Z) : string :=
  String.string_of_list_ascii ((λ z, Ascii.ascii_of_N (Z.to_N z)) <$> l).

(** Drop one leading sequence of [seqs], if there is one. *)
Fixpoint strip_one (seqs : list (list Z)) (l : list Z) : option (list Z) :=
  match seqs with
  | [] => None
  | q :: qs =>
      if decide (take (length q) l = q) then Some (drop (length q) l)
      else strip_one qs l
  end.

Fixpoint strip_all (fuel : nat) (seqs : list (list Z)) (l : list Z) : list Z :=
  match fuel with
  | O => l
  | S fuel =>
      match strip_one seqs l with
      | Some l' => strip_all fuel seqs l'
      | None => l
      end
  end.

(** [strings.TrimSpace]: every stripped sequence is non-empty, so the length of
    the text is enough fuel. *)
Definition TrimSpace (s : string) : string :=
  let l := bytes_of s in
  let l1 := strip_all (length l) space_seqs l in
  let l2 := strip_all (length l1) (map (@rev Z) space_seqs) (rev l1) in
  string_of_bytes (rev l2).

Example TrimSpace_ex : TrimSpace " 	vip
" = "vip".
Proof. reflexivity. Qed.
