(* ===== verification/Effects.v ===== *)
(** * Effects: errors, the state-and-error monad, statements, interleaving

    Go functions of the gateway return [(value, error)] and work on shared
    state.  They are modelled in the monad [M S A]: a state transformer whose
    outcome is [Ok] or [Err].  A failing call keeps the effects it already had;
    only a database transaction takes effects back.

    Database and Redis access goes through a driver that is not part of the
    repository.  Whether a statement reaches the server is a parameter: the
    state carries a list of faults, one entry per statement to come, and an
    entry [Some msg] makes that statement fail with the driver's error [msg] and
    no effect.  An exhausted list means no further fault.  Every theorem that
    does not mention the fault list holds for each list.

    A function that reaches a shared store by several statements outside a
    transaction is a [prog], at the end of the file: a tree of atomic statements
    on the store and readings of the clock.  [run] executes one program alone;
    [sched] executes several together, a list of thread numbers saying whose
    statement comes next. *)

From S2P Require Import Prelude.

(** ** Errors *)

(** [EText]: [errors.New] and [fmt.Errorf]; [EDriver]: an error value of the
    database or Redis driver; [ERecordNotFound]: [gorm.ErrRecordNotFound];
    [EWrap]: [fmt.Errorf] around another error's text; [EApi]: a
    [types.NewAPIError] with its code, HTTP status, [skipRetry] and
    [recordErrorLog] (true unless the option turned it off). *)
Inductive error : Type :=
| EText (msg : string)
| EDriver (msg : string)
| ERecordNotFound
| EWrap (prefix : string) (inner : error)
| EApi (inner : error) (code : string) (status : Z)
       (skipRetry : bool) (recordErrorLog : bool).

(** [err.Error()] *)
Fixpoint Error (e : error) : string :=
  match e with
  | EText m | EDriver m => m
  | ERecordNotFound => "record not found"
  | EWrap p e => p +:+ Error e
  | EApi e _ _ _ _ => Error e
  end.

(** [NewAPIError.GetErrorCode] *)
Definition GetErrorCode (e : error) : string :=
  match e with EApi _ c _ _ _ => c | _ => "" end.

(** [types.NewError] with [ErrOptionWithSkipRetry]: an error that already is a
    [NewAPIError] is kept and only the option is applied. *)
Definition NewError_skipRetry (e : error) (code : string) : error :=
  match e with
  | EApi i c st _ r => EApi i c st true r
  | _ => EApi e code 500 true true
  end.

(** [types.NewErrorWithStatusCode] with [ErrOptionWithSkipRetry] and
    [ErrOptionWithNoRecordErrorLog]. *)
Definition NewErrorWithStatusCode_quiet (e : error) (code : string) (status : Z) : error :=
  EApi e code status true false.

Definition ErrorCodeInvalidRequest : string := "invalid_request".
Definition ErrorCodeQueryDataError : string := "query_data_error".
Definition ErrorCodeUpdateDataError : string := "update_data_error".
Definition ErrorCodeInsufficientUserQuota : string := "insufficient_user_quota".
Definition ErrorCodePreConsumeTokenQuotaFailed : string := "pre_consume_token_quota_failed".
Definition StatusForbidden : Z := 403.

(** ** The monad *)

Inductive result (A : Type) : Type := Ok (a : A) | Err (e : error).
Arguments Ok {A} a.
Arguments Err {A} e.

Definition is_ok {A} (r : result A) : bool := match r with Ok _ => true | Err _ => false end.

Definition M (S A : Type) : Type := S -> result A * S.

Section monad.
Context {S : Type}.

Definition ret {A} (a : A) : M S A := λ s, (Ok a, s).
Definition fail {A} (e : error) : M S A := λ s, (Err e, s).

Definition bind {A B} (m : M S A) (k : A -> M S B) : M S B := λ s,
  match m s with
  | (Ok a, s') => k a s'
  | (Err e, s') => (Err e, s')
  end.

(** Run [m] and hand its outcome, error included, to the continuation. *)
Definition attempt {A} (m : M S A) : M S (result A) := λ s,
  let '(r, s') := m s in (Ok r, s').

Definition gets {A} (f : S -> A) : M S A := λ s, (Ok (f s), s).
Definition modify (f : S -> S) : M S unit := λ s, (Ok tt, f s).

(** [if b { return err }] *)
Definition fail_if (b : bool) (e : error) : M S unit :=
  if b then fail e else ret tt.

Definition lift_option {A} (o : option A) (e : error) : M S A :=
  match o with Some a => ret a | None => fail e end.

Definition lift_result {A} (r : result A) : M S A :=
  match r with Ok a => ret a | Err e => fail e end.

(** [return fmt.Errorf("...%w", err)] and its likes around a failing call. *)
Definition map_err {A} (f : error -> error) (m : M S A) : M S A := λ s,
  match m s with
  | (Ok a, s') => (Ok a, s')
  | (Err e, s') => (Err (f e), s')
  end.

Fixpoint for_each {A} (f : A -> M S unit) (l : list A) : M S unit :=
  match l with
  | [] => ret tt
  | x :: l => bind (f x) (λ _, for_each f l)
  end.
End monad.

Declare Scope go_scope.
Delimit Scope go_scope with go.
Notation "'let!' x := m 'in' k" := (bind m (λ x, k))
  (at level 10, x pattern, m at level 100, k at level 200) : go_scope.
Notation "'do!' m 'in' k" := (bind m (λ _, k))
  (at level 10, m at level 100, k at level 200) : go_scope.
#[global] Open Scope go_scope.

(** ** Weakest preconditions

    [wp m Q s]: running [m] from [s] ends in an outcome and a state that satisfy
    [Q].  The proofs about the components walk through the program with the
    rules below. *)

Definition wp {S A} (m : M S A) (Q : result A -> S -> Prop) (s : S) : Prop :=
  Q (m s).1 (m s).2.

Section wp.
Context {S : Type}.

Lemma wp_ret {A} (a : A) Q (s : S) : Q (Ok a) s -> wp (ret a) Q s.
Proof. done. Qed.

Lemma wp_fail {A} e (Q : result A -> S -> Prop) s : Q (Err e) s -> wp (fail e) Q s.
Proof. done. Qed.

Lemma wp_bind {A B} (m : M S A) (k : A -> M S B) Q s :
  wp m (λ r s', match r with Ok a => wp (k a) Q s' | Err e => Q (Err e) s' end) s ->
  wp (bind m k) Q s.
Proof. unfold wp, bind. destruct (m s) as [[a|e] s']; done. Qed.

Lemma wp_attempt {A} (m : M S A) Q s :
  wp m (λ r s', Q (Ok r) s') s -> wp (attempt m) Q s.
Proof. unfold wp, attempt. by destruct (m s). Qed.

Lemma wp_map_err {A} f (m : M S A) Q s :
  wp m (λ r s', match r with Ok a => Q (Ok a) s' | Err e => Q (Err (f e)) s' end) s ->
  wp (map_err f m) Q s.
Proof. unfold wp, map_err. destruct (m s) as [[a|e] s']; done. Qed.

Lemma wp_gets {A} (f : S -> A) Q s : Q (Ok (f s)) s -> wp (gets f) Q s.
Proof. done. Qed.

Lemma wp_modify f Q (s : S) : Q (Ok tt) (f s) -> wp (modify f) Q s.
Proof. done. Qed.

Lemma wp_fail_if (b : bool) e Q (s : S) :
  (b = true -> Q (Err e) s) -> (b = false -> Q (Ok tt) s) -> wp (fail_if b e) Q s.
Proof. destruct b; intros H1 H2; [by apply H1|by apply H2]. Qed.

Lemma wp_mono {A} (m : M S A) (Q R : result A -> S -> Prop) s :
  wp m Q s -> (∀ r s', Q r s' -> R r s') -> wp m R s.
Proof. unfold wp. eauto. Qed.

(** An invariant kept by each round is kept by the loop. *)
Lemma wp_for_each {A} (I : S -> Prop) (f : A -> M S unit) l s :
  (∀ x s, x ∈ l -> I s -> wp (f x) (λ _ s', I s') s) ->
  I s -> wp (for_each f l) (λ _ s', I s') s.
Proof.
  revert s. induction l as [|x l IH]; intros s Hf Hs; simpl; [done|].
  apply wp_bind. eapply wp_mono; [apply Hf; [set_solver|done]|].
  intros [[]|e] s' H'; [|done]. apply IH; [|done]. intros. apply Hf; set_solver.
Qed.
End wp.

Lemma for_each_app {S A} (f : A -> M S unit) l1 l2 s :
  for_each f (l1 ++ l2) s = bind (for_each f l1) (λ _, for_each f l2) s.
Proof.
  revert s. induction l1 as [|x l1 IH]; intros s; simpl; [done|].
  unfold bind in *. destruct (f x s) as [[[]|e] s']; [apply IH|done].
Qed.

(** A result and final state that [m] produces, read off as a [wp]. *)
Lemma wp_run {S A} (m : M S A) Q s r s' : m s = (r, s') -> wp m Q s -> Q r s'.
Proof. unfold wp. intros ->. done. Qed.

Lemma run_ok {S A} (m : M S A) s a : (m s).1 = Ok a -> m s = (Ok a, (m s).2).
Proof. destruct (m s). simpl. by intros ->. Qed.

(** ** Database statements and transactions *)

(** What the components need of the state that holds the database: the faults
    to come, and what rolling back to an earlier state restores. *)
Class Store (S : Type) := {
  st_faults : S -> list (option string);
  st_set_faults : list (option string) -> S -> S;
  st_rollback : S -> S -> S;
}.

Class StoreLaws (S : Type) `{Store S} := {
  st_set_get : ∀ s, st_set_faults (st_faults s) s = s;
}.

Section statements.
Context {S : Type} `{Store S}.

(** One statement: it fails in the driver without effect, or [f] happens
    atomically. *)
Definition exec {A} (f : S -> result A * S) : M S A := λ s,
  match st_faults s with
  | Some msg :: fs => (Err (EDriver msg), st_set_faults fs s)
  | None :: fs => f (st_set_faults fs s)
  | [] => f s
  end.

(** [UPDATE]/[DELETE]/[INSERT] without constraints to check. *)
Definition update (f : S -> S) : M S unit := exec (λ s, (Ok tt, f s)).

(** [SELECT] into a slice, or a scalar. *)
Definition select {A} (f : S -> A) : M S A := exec (λ s, (Ok (f s), s)).

(** [First]: the row, or [gorm.ErrRecordNotFound]. *)
Definition first {A} (f : S -> option A) : M S A := exec (λ s,
  match f s with Some a => (Ok a, s) | None => (Err ERecordNotFound, s) end).

(** [DB.Transaction(body)]: begin, run the body, commit; an error of the body
    or of the commit restores what [undo before after] says.  With the default
    [st_rollback] that is the database of the start of the transaction. *)
Definition transaction_with {A} (undo : S -> S -> S) (body : M S A) : M S A :=
  do! update id in
  λ s,
    match body s with
    | (Ok a, s1) =>
        match update id s1 with
        | (Ok _, s2) => (Ok a, s2)
        | (Err e, s2) => (Err e, undo s s2)
        end
    | (Err e, s1) => (Err e, undo s s1)
    end.

Definition transaction {A} (body : M S A) : M S A := transaction_with st_rollback body.

Context `{!StoreLaws S}.

Lemma wp_exec {A} (f : S -> result A * S) Q s :
  (∀ msg fs, Q (Err (EDriver msg)) (st_set_faults fs s)) ->
  (∀ fs, wp f Q (st_set_faults fs s)) -> wp (exec f) Q s.
Proof.
  intros Hf Hs. unfold wp, exec.
  destruct (st_faults s) as [|[msg|] fs] eqn:E; simpl.
  - specialize (Hs (st_faults s)). by rewrite st_set_get in Hs.
  - apply Hf.
  - apply Hs.
Qed.

Lemma wp_update f Q s :
  (∀ msg fs, Q (Err (EDriver msg)) (st_set_faults fs s)) ->
  (∀ fs, Q (Ok tt) (f (st_set_faults fs s))) -> wp (update f) Q s.
Proof. intros. by apply wp_exec. Qed.

Lemma wp_select {A} (f : S -> A) Q s :
  (∀ msg fs, Q (Err (EDriver msg)) (st_set_faults fs s)) ->
  (∀ fs, Q (Ok (f (st_set_faults fs s))) (st_set_faults fs s)) -> wp (select f) Q s.
Proof. intros. by apply wp_exec. Qed.

Lemma wp_first {A} (f : S -> option A) Q s :
  (∀ msg fs, Q (Err (EDriver msg)) (st_set_faults fs s)) ->
  (∀ fs, f (st_set_faults fs s) = None -> Q (Err ERecordNotFound) (st_set_faults fs s)) ->
  (∀ a fs, f (st_set_faults fs s) = Some a -> Q (Ok a) (st_set_faults fs s)) ->
  wp (first f) Q s.
Proof.
  intros He Hn Hs. apply wp_exec; [done|]. intros fs. unfold wp.
  destruct (f (st_set_faults fs s)) eqn:E; eauto.
Qed.

(** A transaction either commits the body's state or, with an error, ends in
    the undone state. *)
Lemma wp_transaction_with {A} undo (body : M S A) Q s :
  (∀ msg fs, Q (Err (EDriver msg)) (st_set_faults fs s)) ->
  (∀ fs0, let s0 := st_set_faults fs0 s in
    wp body (λ r s1,
      match r with
      | Ok a => (∀ fs, Q (Ok a) (st_set_faults fs s1)) ∧
                (∀ msg fs, Q (Err (EDriver msg)) (undo s0 (st_set_faults fs s1)))
      | Err e => Q (Err e) (undo s0 s1)
      end) s0) ->
  wp (transaction_with undo body) Q s.
Proof.
  intros He Hb. apply wp_bind, wp_update; [done|]. intros fs0.
  specialize (Hb fs0). revert Hb. unfold wp.
  change (id (st_set_faults fs0 s)) with (st_set_faults fs0 s).
  destruct (body (st_set_faults fs0 s)) as [[a|e] s1]; simpl; [|done].
  intros [Hok Herr]. unfold update, exec.
  destruct (st_faults s1) as [|[msg|] fs] eqn:E; simpl.
  - specialize (Hok (st_faults s1)). by rewrite st_set_get in Hok.
  - apply Herr.
  - apply Hok.
Qed.

Lemma wp_transaction {A} (body : M S A) Q s :
  (∀ msg fs, Q (Err (EDriver msg)) (st_set_faults fs s)) ->
  (∀ fs0, let s0 := st_set_faults fs0 s in
    wp body (λ r s1,
      match r with
      | Ok a => (∀ fs, Q (Ok a) (st_set_faults fs s1)) ∧
                (∀ msg fs, Q (Err (EDriver msg)) (st_rollback s0 (st_set_faults fs s1)))
      | Err e => Q (Err e) (st_rollback s0 s1)
      end) s0) ->
  wp (transaction body) Q s.
Proof. apply wp_transaction_with. Qed.

(** Without faults a statement just happens. *)
Lemma exec_no_faults {A} (f : S -> result A * S) s :
  st_faults s = [] -> exec f s = f s.
Proof. unfold exec. by intros ->. Qed.
End statements.

(** One step of a [wp] proof; what it cannot decide is left to the caller. *)
Ltac wp_step :=
  lazymatch goal with
  | |- wp (bind _ _) _ _ => apply wp_bind
  | |- wp (ret _) _ _ => apply wp_ret
  | |- wp (fail _) _ _ => apply wp_fail
  | |- wp (gets _) _ _ => apply wp_gets
  | |- wp (modify _) _ _ => apply wp_modify
  | |- wp (attempt _) _ _ => apply wp_attempt
  | |- wp (map_err _ _) _ _ => apply wp_map_err
  | |- wp (fail_if _ _) _ _ => apply wp_fail_if; intros
  | |- wp (update _) _ _ => apply wp_update; intros
  | |- wp (select _) _ _ => apply wp_select; intros
  | |- wp (first _) _ _ => apply wp_first; intros
  | |- wp (transaction _) _ _ => apply wp_transaction; intros
  | |- wp (if ?b then _ else _) _ _ => destruct b eqn:?
  end.

Ltac wp_steps := repeat (wp_step; simpl).

(** ** Programs whose statements interleave *)

Inductive prog (DB A : Type) : Type :=
| Return (r : result A)
| Now (k : Z -> prog DB A)
| Stmt {X : Type} (f : DB -> result X * DB) (k : result X -> prog DB A).
Arguments Return {DB A} r.
Arguments Now {DB A} k.
Arguments Stmt {DB A X} f k.

Section programs.
Context {DB : Type}.

Fixpoint pbind {A B} (m : prog DB A) (k : A -> prog DB B) : prog DB B :=
  match m with
  | Return (Ok a) => k a
  | Return (Err e) => Return (Err e)
  | Now k' => Now (λ t, pbind (k' t) k)
  | Stmt f k' => Stmt f (λ x, pbind (k' x) k)
  end.

(** Hand the outcome, error included, to the continuation. *)
Fixpoint pattempt {A} (m : prog DB A) : prog DB (result A) :=
  match m with
  | Return r => Return (Ok r)
  | Now k => Now (λ t, pattempt (k t))
  | Stmt f k => Stmt f (λ x, pattempt (k x))
  end.

Definition pret {A} (a : A) : prog DB A := Return (Ok a).
Definition pfail {A} (e : error) : prog DB A := Return (Err e).
Definition stmt {X} (f : DB -> result X * DB) : prog DB X := Stmt f Return.
Definition now_ : prog DB Z := Now pret.

(** The program alone, no statement failing, the clock standing at [now]. *)
Fixpoint run {A} (now : Z) (p : prog DB A) (db : DB) : result A * DB :=
  match p with
  | Return r => (r, db)
  | Now k => run now (k now) db
  | Stmt f k => let '(x, db') := f db in run now (k x) db'
  end.
End programs.

Declare Scope prog_scope.
Delimit Scope prog_scope with prog.
Notation "'let*' x := m 'in' k" := (pbind m (λ x, k))
  (at level 10, x pattern, m at level 100, k at level 200) : prog_scope.
Notation "'do*' m 'in' k" := (pbind m (λ _, k))
  (at level 10, m at level 100, k at level 200) : prog_scope.
#[global] Open Scope prog_scope.

(** ** Interleaving *)

Section interleaving.
Context {DB A : Type}.

(** The next statement of a program, the clock standing at [now]. *)
Fixpoint next_stmt (now : Z) (p : prog DB A) (db : DB) : prog DB A * DB :=
  match p with
  | Return r => (Return r, db)
  | Now k => next_stmt now (k now) db
  | Stmt f k => let '(x, db') := f db in (k x, db')
  end.

(** Threads take turns as the list of pairs (thread, clock) says. *)
Fixpoint sched (turns : list (nat * Z)) (ths : list (prog DB A)) (db : DB)
    : list (prog DB A) * DB :=
  match turns with
  | [] => (ths, db)
  | (i, now) :: turns =>
      match ths !! i with
      | Some p => let '(p', db') := next_stmt now p db in sched turns (<[i := p']> ths) db'
      | None => sched turns ths db
      end
  end.
End interleaving.

(** ** Running programs *)

Section running.
Context {DB : Type} (now : Z).

Lemma run_bind {A B} (m : prog DB A) (k : A -> prog DB B) db :
  run now (pbind m k) db =
    match run now m db with
    | (Ok a, db') => run now (k a) db'
    | (Err e, db') => (Err e, db')
    end.
Proof.
  revert db. induction m as [[a|e]|k' IH|X f k' IH]; intros db; simpl; [done|done|apply IH|].
  destruct (f db) as [x db']. apply IH.
Qed.

Lemma run_attempt {A} (m : prog DB A) db :
  run now (pattempt m) db = let '(x, db') := run now m db in (Ok x, db').
Proof.
  revert db. induction m as [x|k' IH|X f k' IH]; intros db; simpl; [done|apply IH|].
  destruct (f db) as [x db']. apply IH.
Qed.

Lemma run_now (db : DB) : run now now_ db = (Ok now, db).
Proof. done. Qed.

Lemma run_stmt {X} (f : DB -> result X * DB) db : run now (stmt f) db = f db.
Proof. simpl. by destruct (f db). Qed.

Lemma run_return {A} (x : result A) (db : DB) : run now (Return x) db = (x, db).
Proof. done. Qed.
End running.

(** ** What a program may change

    [steps R p]: every statement of [p], from any store and after any answers,
    changes the store only as [R] allows. *)

Section steps.
Context {DB : Type} (R : DB -> DB -> Prop).

Fixpoint steps {A} (p : prog DB A) : Prop :=
  match p with
  | Return _ => True
  | Now k => ∀ t, steps (k t)
  | Stmt f k => (∀ db, R db (f db).2) ∧ ∀ x, steps (k x)
  end.

Lemma steps_bind {A B} (m : prog DB A) (k : A -> prog DB B) :
  steps m -> (∀ a, steps (k a)) -> steps (pbind m k).
Proof.
  intros Hm Hk. induction m as [[a|e]|k' IH|X f k' IH]; simpl in *; [done|done|auto|].
  destruct Hm. auto.
Qed.

Lemma steps_attempt {A} (m : prog DB A) : steps m -> steps (pattempt m).
Proof. induction m as [x|k' IH|X f k' IH]; simpl; [done|auto|]. intros []. auto. Qed.

Lemma steps_stmt {X} (f : DB -> result X * DB) : (∀ db, R db (f db).2) -> steps (stmt f).
Proof. done. Qed.

Lemma steps_pret {A} (a : A) : steps (pret a).
Proof. done. Qed.

Lemma steps_pfail {A} e : steps (pfail (A := A) e).
Proof. done. Qed.

Lemma steps_now : steps now_.
Proof. done. Qed.

Lemma steps_run {A} `{!PreOrder R} now (p : prog DB A) db : steps p -> R db (run now p db).2.
Proof.
  revert db. induction p as [x|k' IH|X f k' IH]; intros db; simpl; [done|auto|].
  intros [Hf Hk]. specialize (Hf db). destruct (f db) as [x db']. simpl in Hf. etrans; eauto.
Qed.
End steps.

Create HintDb steps.
#[export] Hint Resolve steps_bind steps_attempt steps_pret steps_pfail steps_now : steps.
