(* ===== verification/GoString.v ===== *)
(** * GoString: package [strings] and [strconv.Atoi]

    The functions on strings the channel, cache and settings code uses, on byte
    strings.  Separators are not empty. *)

From Stdlib Require Import Ascii.
From S2P Require Import Prelude.

(** [s[n:]] *)
Fixpoint str_drop (n : nat) (s : string) : string :=
  match n, s with
  | O, _ => s
  | S n, String _ s => str_drop n s
  | S _, EmptyString => EmptyString
  end.

(** [strings.Cut]: the text before and after the first [sep]. *)
Fixpoint Cut (s sep : string) : option (string * string) :=
  if HasPrefix s sep then Some ("", str_drop (String.length sep) s)
  else match s with
       | EmptyString => None
       | String c s' => '(a, b) ← Cut s' sep; Some (String c a, b)
       end.

(** Every cut shortens the text, so its length is enough fuel. *)
Fixpoint split_loop (fuel : nat) (s sep : string) : list string :=
  match fuel with
  | O => [s]
  | S fuel =>
      match Cut s sep with
      | Some (a, b) => a :: split_loop fuel b sep
      | None => [s]
      end
  end.

(** [strings.Split] *)
Definition Split (s sep : string) : list string := split_loop (String.length s) s sep.

(** [strings.Join] *)
Fixpoint Join (l : list string) (sep : string) : string :=
  match l with
  | [] => ""
  | [s] => s
  | s :: l => s +:+ sep +:+ Join l sep
  end.

(** [strings.Replace(s, old, new, 1)] and [strings.ReplaceAll]. *)
Definition ReplaceFirst (s old new : string) : string :=
  match Cut s old with Some (a, b) => a +:+ new +:+ b | None => s end.
Definition ReplaceAll (s old new : string) : string := Join (Split s old) new.

(** [strings.HasSuffix], [strings.TrimPrefix], [strings.TrimSuffix]. *)
Definition HasSuffix (s p : string) : bool :=
  (String.length p <=? String.length s)%nat &&
  String.eqb (str_drop (String.length s - String.length p) s) p.

Definition TrimPrefix (s p : string) : string :=
  if HasPrefix s p then str_drop (String.length p) s else s.

Fixpoint str_take (n : nat) (s : string) : string :=
  match n, s with
  | S n, String c s => String c (str_take n s)
  | _, _ => EmptyString
  end.

Definition TrimSuffix (s p : string) : string :=
  if HasSuffix s p then str_take (String.length s - String.length p) s else s.

(** [strings.TrimLeft], [TrimRight] and [Trim] with a cutset of one byte. *)
Fixpoint TrimLeft (s : string) (c : ascii) : string :=
  match s with
  | String c' s' => if Ascii.eqb c' c then TrimLeft s' c else s
  | EmptyString => EmptyString
  end.

Fixpoint TrimRight (s : string) (c : ascii) : string :=
  match s with
  | EmptyString => EmptyString
  | String c' s' =>
      match TrimRight s' c with
      | EmptyString => if Ascii.eqb c' c then EmptyString else String c' EmptyString
      | r => String c' r
      end
  end.

Definition Trim (s : string) (c : ascii) : string := TrimRight (TrimLeft s c) c.

(** [strconv.Atoi]: an optional sign and decimal digits that fit 64 bits. *)
Definition ascii_digit (c : ascii) : option Z :=
  let d := Z.of_nat (nat_of_ascii c) - 48 in
  if (0 <=? d) && (d <=? 9) then Some d else None.

Fixpoint decimal (acc : Z) (s : string) : option Z :=
  match s with
  | EmptyString => Some acc
  | String c s => d ← ascii_digit c; decimal (10 * acc + d) s
  end.

Definition Atoi (s : string) : option Z :=
  n ← match s with
      | EmptyString => None
      | String "-" (String _ _ as s) => Z.opp <$> decimal 0 s
      | String "+" (String _ _ as s) => decimal 0 s
      | s => decimal 0 s
      end;
  if (- 2 ^ 63 <=? n) && (n <? 2 ^ 63) then Some n else None.

Example Split_ex : Split "gpt-4,,o3" "," = ["gpt-4"; ""; "o3"].
Proof. reflexivity. Qed.
Example Atoi_ex : (Atoi "-404", Atoi "+7", Atoi "", Atoi "-", Atoi "4a") = (Some (-404), Some 7, None, None, None).
Proof. reflexivity. Qed.
Example Trim_ex : (Trim "::a:b::" ":", TrimSuffix "a/b" "/b", ReplaceAll "a b c" " " "") = ("a:b", "a", "abc").
Proof. reflexivity. Qed.

(** ** Laws *)

Lemma string_cons_app c (s r : string) : String c s +:+ r = String c (s +:+ r).
Proof. done. Qed.

Lemma string_nil_app (r : string) : EmptyString +:+ r = r.
Proof. done. Qed.

Lemma append_nil_r (s : string) : s +:+ EmptyString = s.
Proof. induction s as [|a s IH]; [done|]. by rewrite string_cons_app, IH. Qed.

Lemma append_assoc (a b c : string) : (a +:+ b) +:+ c = a +:+ (b +:+ c).
Proof. induction a as [|x a IH]; [done|]. by rewrite !string_cons_app, IH. Qed.

(** [c] does not occur in [s]. *)
Fixpoint lacks (c : ascii) (s : string) : bool :=
  match s with
  | EmptyString => true
  | String c' s => negb (Ascii.eqb c' c) && lacks c s
  end.

Lemma lacks_app c a b : lacks c (a +:+ b) = lacks c a && lacks c b.
Proof. induction a as [|x a IH]; [done|]. rewrite string_cons_app. simpl. by rewrite IH, andb_assoc. Qed.

Lemma HasPrefix_head c s' x s : HasPrefix (String x s) (String c s') = Ascii.eqb x c && HasPrefix s s'.
Proof.
  unfold HasPrefix. simpl. destruct (Ascii.ascii_dec c x) as [->|Hne].
  - by rewrite Ascii.eqb_refl.
  - destruct (Ascii.eqb_spec x c); [congruence|done].
Qed.

Lemma Cut_none c sep s : lacks c s = true -> Cut s (String c sep) = None.
Proof.
  induction s as [|x s IH]; [done|]. simpl lacks. intros [Hx Hs]%andb_prop.
  unfold Cut; fold Cut. rewrite HasPrefix_head. apply negb_true_iff in Hx. rewrite Hx. simpl.
  by rewrite IH.
Qed.

Lemma Cut_app c a b : lacks c a = true -> Cut (a +:+ String c b) (String c "") = Some (a, b).
Proof.
  induction a as [|x a IH].
  - intros _. rewrite string_nil_app. unfold Cut; fold Cut. rewrite HasPrefix_head, Ascii.eqb_refl.
    by destruct b.
  - simpl lacks. intros [Hx Ha]%andb_prop. rewrite string_cons_app. unfold Cut; fold Cut.
    rewrite HasPrefix_head. apply negb_true_iff in Hx. rewrite Hx. simpl. by rewrite IH.
Qed.

Lemma Split_none c sep s : lacks c s = true -> Split s (String c sep) = [s].
Proof.
  intros Hs. unfold Split. destruct (String.length s); [done|]. simpl. by rewrite Cut_none.
Qed.

Lemma ReplaceAll_none c sep new s : lacks c s = true -> ReplaceAll s (String c sep) new = s.
Proof. intros Hs. unfold ReplaceAll. by rewrite Split_none. Qed.

Lemma length_append (a b : string) : String.length (a +:+ b) = (String.length a + String.length b)%nat.
Proof. induction a as [|x a IH]; [done|]. rewrite string_cons_app. simpl. by rewrite IH. Qed.

(** [Split] undoes [Join]. *)
Lemma Split_Join c l :
  l ≠ [] -> Forall (λ s, lacks c s = true) l -> Split (Join l (String c "")) (String c "") = l.
Proof.
  intros Hl Hf. unfold Split.
  assert (∀ fuel, (String.length (Join l (String c "")) <= fuel)%nat ->
    split_loop fuel (Join l (String c "")) (String c "") = l) as H; [|by apply H].
  induction Hf as [|s l Hs Hf IH]; [done|]. destruct l as [|s' l].
  - intros [|fuel] _; [done|]. simpl. by rewrite Cut_none.
  - intros fuel. change (Join (s :: s' :: l) (String c ""))
      with (s +:+ String c "" +:+ Join (s' :: l) (String c "")).
    specialize (IH ltac:(done)). revert IH. generalize (Join (s' :: l) (String c "")). intros J IH.
    rewrite string_cons_app, string_nil_app, length_append. simpl String.length. intros Hlen.
    destruct fuel as [|fuel]; [lia|]. simpl split_loop. rewrite Cut_app by done. f_equal.
    apply IH. lia.
Qed.

(** [TrimSpace] keeps a text whose first and last bytes are not those of a space. *)
Definition no_edge_space (l : list Z) : bool :=
  match l with
  | [] => true
  | z :: _ => bool_decide (33 <= z < 128)
  end.

Lemma strip_one_ascii seqs z l :
  33 <= z < 128 -> Forall (λ q, ∃ x r, q = x :: r ∧ (x < 33 ∨ 128 <= x)) seqs ->
  strip_one seqs (z :: l) = None.
Proof.
  intros Hz Hf. induction Hf as [|q seqs (x & r & -> & Hx) Hf IH]; [done|]. simpl.
  rewrite decide_False; [done|]. intros [=]. lia.
Qed.

Lemma bytes_of_string l : string_of_bytes (bytes_of l) = l.
Proof.
  unfold string_of_bytes, bytes_of. rewrite <- list_fmap_compose.
  rewrite (list_fmap_ext _ id).
  - by rewrite list_fmap_id, String.string_of_list_ascii_of_string.
  - intros _ a _. simpl. rewrite N2Z.id. apply Ascii.ascii_N_embedding.
Qed.

Lemma TrimSpace_id s :
  no_edge_space (bytes_of s) = true -> no_edge_space (rev (bytes_of s)) = true -> TrimSpace s = s.
Proof.
  intros H1 H2. unfold TrimSpace.
  assert (∀ l seqs, no_edge_space l = true -> Forall (λ q, ∃ x r, q = x :: r ∧ (x < 33 ∨ 128 <= x)) seqs ->
    strip_all (length l) seqs l = l) as Hs.
  { clear. intros [|z l] seqs H Hf; [done|]. simpl. apply bool_decide_eq_true in H.
    by rewrite strip_one_ascii. }
  rewrite (Hs (bytes_of s) space_seqs) by
    (done || (unfold space_seqs; repeat (apply Forall_cons; split; [eexists _, _; split; [done|lia]|]); apply Forall_nil; done)).
  rewrite <- (length_rev (bytes_of s)), (Hs (rev (bytes_of s))) by
    (done || (unfold space_seqs; simpl map; repeat (apply Forall_cons; split; [eexists _, _; split; [done|lia]|]); apply Forall_nil; done)).
  by rewrite rev_involutive, bytes_of_string.
Qed.

Lemma bytes_app a b : bytes_of (a +:+ b) = bytes_of a ++ bytes_of b.
Proof.
  induction a as [|x a IH]; [done|]. rewrite string_cons_app.
  change (Z.of_N (N_of_ascii x) :: bytes_of (a +:+ b) = Z.of_N (N_of_ascii x) :: (bytes_of a ++ bytes_of b)). by rewrite IH.
Qed.

Lemma bytes_string_small l : Forall (λ z, 0 <= z < 256) l -> bytes_of (string_of_bytes l) = l.
Proof.
  induction 1 as [|z l Hz _ IH]; [done|]. unfold bytes_of, string_of_bytes in *. simpl. f_equal; [|exact IH].
  rewrite N_ascii_embedding by lia. lia.
Qed.


Lemma strip_all_forall (P : Z -> Prop) fuel seqs l : Forall P l -> Forall P (strip_all fuel seqs l).
Proof.
  revert l. induction fuel as [|fuel IH]; intros l Hl; simpl; [done|]. destruct (strip_one seqs l) as [l'|] eqn:E; [|done].
  apply IH. clear IH. induction seqs as [|q qs IHq]; simpl in E; [done|]. case_decide; [|auto]. simplify_eq. by apply Forall_drop.
Qed.


Lemma bytes_small s : Forall (λ z, 0 <= z < 256) (bytes_of s).
Proof.
  unfold bytes_of. apply Forall_fmap, Forall_forall. intros c _. simpl. pose proof (N_ascii_bounded c). lia.
Qed.

(** *** Texts without space at their ends *)

Definition trimmed (l : list Z) : Prop :=
  strip_one space_seqs l = None ∧ strip_one (map (@rev Z) space_seqs) (rev l) = None.

Lemma strip_one_none seqs l : strip_one seqs l = None <-> Forall (λ q, take (length q) l ≠ q) seqs.
Proof.
  induction seqs as [|q seqs IH]; simpl; [by split|]. rewrite Forall_cons, <- IH.
  case_decide; [split; [done|tauto]|tauto].
Qed.

Lemma strip_one_some seqs l l' :
  Forall (λ q, q ≠ []) seqs -> strip_one seqs l = Some l' -> (length l' < length l)%nat ∧ ∃ q, l = q ++ l'.
Proof.
  induction seqs as [|q seqs IH]; [done|]. intros [Hq Hf]%Forall_cons. simpl. case_decide as Ht; [|auto].
  intros [= <-]. split; [|exists q; rewrite <- Ht at 1; by rewrite take_drop].
  rewrite length_drop. destruct q as [|z q]; [done|]. destruct l; [done|]. simpl. lia.
Qed.

Lemma strip_all_end fuel seqs l :
  Forall (λ q, q ≠ []) seqs -> (length l <= fuel)%nat ->
  strip_one seqs (strip_all fuel seqs l) = None ∧ ∃ q, l = q ++ strip_all fuel seqs l.
Proof.
  intros Hf. revert l. induction fuel as [|fuel IH]; intros l Hl.
  - destruct l; [|simpl in Hl; lia]. simpl. split; [|by exists []]. apply strip_one_none.
    eapply Forall_impl; [exact Hf|]. intros q Hq. by rewrite take_nil.
  - simpl. destruct (strip_one seqs l) as [l'|] eqn:E; [|split; [done|by exists []]].
    destruct (strip_one_some _ _ _ Hf E) as [Hlt [q ->]]. destruct (IH l') as [H1 [q' H2]]; [simpl in Hl; lia|].
    split; [done|]. exists (q ++ q'). by rewrite <- app_assoc, <- H2.
Qed.

Lemma space_seqs_nonempty : Forall (λ q, q ≠ []) space_seqs ∧ Forall (λ q, q ≠ []) (map (@rev Z) space_seqs).
Proof. split; by repeat constructor. Qed.

Lemma strip_one_prefix seqs a b : strip_one seqs (a ++ b) = None -> strip_one seqs a = None.
Proof.
  rewrite !strip_one_none. intros H. eapply Forall_impl; [exact H|]. intros q Hq Ha. apply Hq.
  rewrite take_app_le; [done|]. rewrite <- Ha at 1. rewrite length_take. lia.
Qed.

Lemma TrimSpace_trimmed s : trimmed (bytes_of (TrimSpace s)).
Proof.
  unfold TrimSpace. set (l := bytes_of s). set (l1 := strip_all _ _ l). set (l2 := strip_all _ _ (rev l1)).
  destruct space_seqs_nonempty as [N1 N2].
  assert (Forall (λ z, 0 <= z < 256) l1) as Hb by apply strip_all_forall, bytes_small.
  rewrite bytes_string_small by (by apply Forall_rev, strip_all_forall, Forall_rev).
  destruct (strip_all_end (length l) space_seqs l N1 ltac:(lia)) as [H1 _].
  destruct (strip_all_end (length l1) (map (@rev Z) space_seqs) (rev l1) N2) as [H2 [q Hq]]; [rewrite length_rev; lia|].
  split; [|by rewrite rev_involutive].
  assert (l1 = rev l2 ++ rev q) as E by (rewrite <- (rev_involutive l1), Hq; apply rev_app_distr).
  apply (strip_one_prefix _ _ (rev q)). by rewrite <- E.
Qed.

Lemma trimmed_TrimSpace s : trimmed (bytes_of s) -> TrimSpace s = s.
Proof.
  intros [H1 H2]. unfold TrimSpace.
  assert (∀ l seqs, strip_one seqs l = None -> strip_all (length l) seqs l = l) as Hs.
  { intros [|z l] seqs H; [done|]. cbn [length strip_all]. by rewrite H. }
  rewrite (Hs _ _ H1). rewrite <- (length_rev (bytes_of s)), (Hs _ _ H2), rev_involutive. apply bytes_of_string.
Qed.

Lemma TrimSpace_idem s : TrimSpace (TrimSpace s) = TrimSpace s.
Proof. apply trimmed_TrimSpace, TrimSpace_trimmed. Qed.

(** ** Case ([strings.ToLower])

    The letters that have an ASCII lower case: [A] to [Z], the Kelvin sign (a [k]) and
    the capital I with a dot (an [i]).  Other letters are left as they are, so the
    function agrees with Go's wherever its result is compared with an ASCII string. *)
Fixpoint ToLower (s : string) : string :=
  match s with
  | EmptyString => EmptyString
  | String "226" (String "132" (String "170" r)) => String "k" (ToLower r)
  | String "196" (String "176" r) => String "i" (ToLower r)
  | String c r =>
      let n := nat_of_ascii c in
      String (if (65 <=? n)%nat && (n <=? 90)%nat then ascii_of_nat (n + 32) else c) (ToLower r)
  end.

(** [strings.ToUpper], in the same way: [a] to [z], the dotless i and the long s. *)
Fixpoint ToUpper (s : string) : string :=
  match s with
  | EmptyString => EmptyString
  | String "196" (String "177" r) => String "I" (ToUpper r)
  | String "197" (String "191" r) => String "S" (ToUpper r)
  | String c r =>
      let n := nat_of_ascii c in
      String (if (97 <=? n)%nat && (n <=? 122)%nat then ascii_of_nat (n - 32) else c) (ToUpper r)
  end.
