(* ===== verification/GoTime.v ===== *)
(** * Go's time package, as far as the gateway uses it

    Instants are Unix seconds.  The process's local time zone is a parameter,
    given by Go's zone lookup: the offset in force at an instant and the
    interval in which it is in force.  [Date], [AddDate], [Add] and [Weekday]
    follow the package's definitions; [Duration] arithmetic is 64-bit and wraps
    around.  The second half prints and reads times: [Time.Format] and
    [time.Parse] with the layout [timeFormat = "2006-01-02T15:04:05.000Z"] of
    [middleware/rate-limit.go].  The trailing [Z] of the layout is literal text:
    [Format] prints the local wall clock and [Parse] reads it back as UTC; times
    there are in milliseconds. *)

From Stdlib Require Import Ascii.
From S2P Require Import GoString.
From S2P Require Import Prelude.

(** Linear arithmetic with division and remainder by constants. *)
Ltac divlia := Z.to_euclidean_division_equations; lia.

(** ** Civil calendar

    Months are counted from March of year 0, so that the leap day ends a year.
    [fom q] is the day number (1970-01-01 = 0) of the first day of month [q]. *)

Definition fom (q : Z) : Z :=
  let y := q / 12 in
  let mp := q mod 12 in
  365 * y + y / 4 - y / 100 + y / 400 + (153 * mp + 2) / 5 - 719468.

(** The month and the day of the month of a day number. *)
Definition month_day (z : Z) : Z * Z :=
  let e := (z + 719468) / 146097 in
  let doe := (z + 719468) mod 146097 in
  let yoe := (doe - doe / 1460 + doe / 36524 - doe / 146096) / 365 in
  let doy := doe - (365 * yoe + yoe / 4 - yoe / 100) in
  let mp := (5 * doy + 2) / 153 in
  (12 * (400 * e + yoe) + mp, doy - (153 * mp + 2) / 5 + 1).

Lemma fom_year y mp :
  0 <= mp < 12 ->
  fom (12 * y + mp) = 365 * y + y / 4 - y / 100 + y / 400 + (153 * mp + 2) / 5 - 719468.
Proof.
  intros H. unfold fom.
  replace ((12 * y + mp) / 12) with y by divlia.
  by replace ((12 * y + mp) mod 12) with mp by divlia.
Qed.

(** Every fourth year is a leap year, every hundredth not, every 400th is. *)
Lemma leap_step y :
  let l x := x / 4 - x / 100 + x / 400 in l y <= l (y + 1) <= l y + 1.
Proof.
  simpl. pose proof (Z.div_mod y 400 ltac:(lia)) as E.
  pose proof (Z.mod_pos_bound y 400 ltac:(lia)) as Hr.
  set (c := y / 400) in *. set (u := y mod 400) in *. clearbody c u. subst y.
  replace ((400 * c + u) / 4) with (100 * c + u / 4) by divlia.
  replace ((400 * c + u) / 100) with (4 * c + u / 100) by divlia.
  replace ((400 * c + u + 1) / 4) with (100 * c + (u + 1) / 4) by divlia.
  replace ((400 * c + u + 1) / 100) with (4 * c + (u + 1) / 100) by divlia.
  replace ((400 * c + u + 1) / 400) with (c + (u + 1) / 400) by divlia.
  clear -Hr. divlia.
Qed.

(** A month has at least 28 and at most 31 days. *)
Lemma fom_succ q : fom q + 28 <= fom (q + 1) <= fom q + 31.
Proof.
  pose proof (Z.div_mod q 12 ltac:(lia)) as Hq.
  pose proof (Z.mod_pos_bound q 12 ltac:(lia)) as Hr.
  set (y := q / 12) in *. set (mp := q mod 12) in *.
  replace (fom q) with (fom (12 * y + mp)) by (f_equal; lia).
  destruct (decide (mp = 11)) as [E|E].
  - replace (q + 1) with (12 * (y + 1) + 0) by lia.
    rewrite !fom_year by lia. clearbody y mp. subst mp.
    pose proof (leap_step y) as Hl. simpl in Hl.
    change ((153 * 11 + 2) / 5) with 337. change ((153 * 0 + 2) / 5) with 0. lia.
  - replace (q + 1) with (12 * y + (mp + 1)) by lia.
    rewrite !fom_year by lia.
    assert ((153 * mp + 2) / 5 + 28 <= (153 * (mp + 1) + 2) / 5 <= (153 * mp + 2) / 5 + 31)
      by (clear -Hr E; divlia). lia.
Qed.

Lemma fom_mono q n : 0 <= n -> fom q + 28 * n <= fom (q + n).
Proof.
  intros Hn. pattern n. apply natlike_ind; [replace (q + 0) with q by lia; lia| |done].
  intros x Hx IH. pose proof (fom_succ (q + x)).
  replace (q + Z.succ x) with (q + x + 1) by lia. lia.
Qed.

Lemma fom_upper q n : 0 <= n -> fom (q + n) <= fom q + 31 * n.
Proof.
  intros Hn. pattern n. apply natlike_ind; [replace (q + 0) with q by lia; lia| |done].
  intros x Hx IH. pose proof (fom_succ (q + x)).
  replace (q + Z.succ x) with (q + x + 1) by lia. lia.
Qed.

(** The calendar computation is right: the day lies in the month it is given,
    at the given position. *)
Lemma month_day_spec z :
  let '(q, d) := month_day z in
  1 <= d ∧ fom q + d - 1 = z ∧ z < fom (q + 1).
Proof.
  unfold month_day.
  set (e := (z + 719468) / 146097). set (doe := (z + 719468) mod 146097).
  pose proof (Z.div_mod (z + 719468) 146097 ltac:(lia)) as Hz. fold e doe in Hz.
  pose proof (Z.mod_pos_bound (z + 719468) 146097 ltac:(lia)) as Hd. fold doe in Hd.
  clearbody e doe.
  set (yoe := (doe - doe / 1460 + doe / 36524 - doe / 146096) / 365).
  assert (0 <= yoe < 400 ∧ 365 * yoe + yoe / 4 - yoe / 100 <= doe ∧
    doe < 365 * (yoe + 1) + (yoe + 1) / 4 - (yoe + 1) / 100 + (yoe + 1) / 400)
    as (Hy & Hlo & Hhi) by (subst yoe; clear -Hd; divlia).
  clearbody yoe.
  set (doy := doe - (365 * yoe + yoe / 4 - yoe / 100)).
  assert (0 <= doy <= 365) as Hdoy by (subst doy; clear -Hy Hlo Hhi; divlia).
  set (mp := (5 * doy + 2) / 153).
  assert (0 <= mp < 12 ∧ (153 * mp + 2) / 5 <= doy ∧
    (mp < 11 -> doy < (153 * (mp + 1) + 2) / 5)) as (Hmp & Hm1 & Hm2)
    by (subst mp; clear -Hdoy; divlia).
  clearbody mp.
  assert ((400 * e + yoe) / 4 = 100 * e + yoe / 4 ∧
    (400 * e + yoe) / 100 = 4 * e + yoe / 100 ∧
    (400 * e + yoe) / 400 = e) as (E4 & E100 & E400) by (clear -Hy; divlia).
  rewrite fom_year, E4, E100, E400 by lia.
  split_and!; [lia|subst doy; lia|].
  destruct (decide (mp = 11)) as [->|].
  - replace (12 * (400 * e + yoe) + 11 + 1) with (12 * (400 * e + (yoe + 1)) + 0) by lia.
    rewrite fom_year by lia. clear -Hhi Hz Hy. divlia.
  - replace (12 * (400 * e + yoe) + mp + 1) with (12 * (400 * e + yoe) + (mp + 1)) by lia.
    rewrite fom_year, E4, E100, E400 by lia. subst doy. lia.
Qed.

Lemma fom_lt q q' : fom q < fom q' -> q < q'.
Proof.
  intros H. destruct (decide (q < q')); [done|].
  pose proof (fom_mono q' (q - q') ltac:(lia)) as Hm.
  replace (q' + (q - q')) with q in Hm by lia. lia.
Qed.

(** A day lies in one month only. *)
Lemma month_day_unique q d z :
  1 <= d -> fom q + d - 1 = z -> z < fom (q + 1) -> month_day z = (q, d).
Proof.
  intros Hd Hz Hlt. pose proof (month_day_spec z) as Hs.
  destruct (month_day z) as [q' d']. destruct Hs as (Hd' & Hz' & Hlt').
  pose proof (fom_lt q (q' + 1)). pose proof (fom_lt q' (q + 1)).
  assert (q' = q) by lia. subst q'. f_equal. lia.
Qed.

(** ** Time zones *)

(** [Location.lookup]: the offset from UTC in seconds at an instant, and the
    first and last instants of the interval in which it applies. *)
Class Location := lookup_zone : Z -> Z * Z * Z.

(** A zone with one offset, such as UTC or Asia/Shanghai since 1991. *)
Definition fixed_zone (offset : Z) : Location := λ _, (offset, - 2 ^ 63, 2 ^ 63 - 1).

Section time.
Context `{loc : Location}.

Definition zone_offset (t : Z) : Z := (lookup_zone t).1.1.

(** Seconds of the local wall clock. *)
Definition local_seconds (t : Z) : Z := t + zone_offset t.
Definition local_day (t : Z) : Z := local_seconds t / 86400.
Definition clock (t : Z) : Z := local_seconds t mod 86400.

(** [t.Date()] as (year, month, day) with months from 1. *)
Definition civil (t : Z) : Z * Z * Z :=
  let '(q, d) := month_day (local_day t) in
  let mp := q mod 12 in
  if mp <? 10 then (q / 12, mp + 3, d) else (q / 12 + 1, mp - 9, d).

Definition Year (t : Z) : Z := (civil t).1.1.
Definition Month (t : Z) : Z := (civil t).1.2.
Definition Day (t : Z) : Z := (civil t).2.

(** Sunday = 0; 1970-01-01 was a Thursday. *)
Definition Weekday (t : Z) : Z := (local_day t + 4) mod 7.

(** [time.Date(y, m, d, 0, 0, secs, 0, loc).Unix()]: months and days outside
    their range are normalised; the offset is looked up as Go does it. *)
Definition Date (y m d secs : Z) : Z :=
  let unix := (fom (12 * y + (m - 1) - 2) + d - 1) * 86400 + secs in
  let '(offset, start, stop) := lookup_zone unix in
  if offset =? 0 then unix
  else
    let utc := unix - offset in
    if (utc <? start) || (stop <=? utc) then unix - zone_offset utc else utc.

(** [t.AddDate(years, months, days).Unix()] *)
Definition AddDate (t years months days : Z) : Z :=
  Date (Year t + years) (Month t + months) (Day t + days) (clock t).

(** [t.Add(d).Unix()] for [d] nanoseconds and [t] a whole second. *)
Definition Add (t d : Z) : Z := t + d / 1000000000.
End time.

Definition Second : Z := 1000000000.
Definition Hour : Z := 3600 * 1000000000.

(** Product of two [time.Duration] values. *)
Definition dmul (x y : Z) : Z := wrap64 (x * y).

(** The fields of a date are its month counted from year 0 and its day. *)
Lemma civil_index `{loc : Location} t :
  12 * Year t + (Month t - 1) - 2 = (month_day (local_day t)).1 ∧
  Day t = (month_day (local_day t)).2.
Proof.
  unfold Year, Month, Day, civil. destruct (month_day (local_day t)) as [q d]; simpl.
  destruct (q mod 12 <? 10) eqn:E; simpl; (split; [clear; divlia|done]).
Qed.

(** ** Laws in a zone with a fixed offset *)

Section fixed.
Context (off : Z).
#[local] Instance zone : Location := fixed_zone off.

(** The offset lookup settles on the offset, as long as the instant is far
    from the ends of the 64-bit range. *)
Lemma Date_fixed y m d secs :
  let wall := (fom (12 * y + (m - 1) - 2) + d - 1) * 86400 + secs in
  - 2 ^ 63 <= wall - off < 2 ^ 63 - 1 -> Date y m d secs = wall - off.
Proof.
  simpl. intros H. unfold Date, zone_offset, lookup_zone, zone, fixed_zone; simpl.
  destruct (off =? 0) eqn:E; [apply Z.eqb_eq in E; lia|].
  destruct (_ || _) eqn:E2; [|done]. apply orb_true_iff in E2 as [?|?]; lia.
Qed.

Lemma local_seconds_fixed t : local_seconds t = t + off.
Proof. done. Qed.

Lemma local_split t : t + off = local_day t * 86400 + clock t ∧ 0 <= clock t < 86400.
Proof.
  unfold local_day, clock. rewrite local_seconds_fixed.
  pose proof (Z.div_mod (t + off) 86400). pose proof (Z.mod_pos_bound (t + off) 86400). lia.
Qed.

(** Midnight of the [k]-th day after [t]'s. *)
Lemma Date_days t k :
  - 2 ^ 63 <= (local_day t + k) * 86400 - off < 2 ^ 63 - 1 ->
  Date (Year t) (Month t) (Day t + k) 0 = (local_day t + k) * 86400 - off.
Proof.
  intros H. destruct (civil_index t) as [Hq Hd].
  pose proof (month_day_spec (local_day t)) as Hs.
  destruct (month_day (local_day t)) as [q d]; simpl in *.
  assert (fom (12 * Year t + (Month t - 1) - 2) + (Day t + k) - 1 = local_day t + k)
    as Hk by (rewrite Hq, Hd; lia).
  rewrite Date_fixed; rewrite Hk; lia.
Qed.

(** Moving [n > 0] months ahead moves the day number ahead. *)
Lemma month_ahead t n :
  0 < n ->
  local_day t < fom (12 * Year t + (Month t + n - 1) - 2) + Day t - 1.
Proof.
  intros Hn. destruct (civil_index t) as [Hq Hd].
  pose proof (month_day_spec (local_day t)) as Hs.
  destruct (month_day (local_day t)) as [q d]; simpl in *.
  replace (12 * Year t + (Month t + n - 1) - 2) with (q + n) by lia.
  pose proof (fom_mono q n). rewrite Hd. lia.
Qed.

(** The first day of the next month is after [t]'s day, by at most 31 days. *)
Lemma next_month_first t :
  local_day t < fom (12 * Year t + (Month t + 1 - 1) - 2) <= local_day t + 31.
Proof.
  destruct (civil_index t) as [Hq Hd].
  pose proof (month_day_spec (local_day t)) as Hs.
  destruct (month_day (local_day t)) as [q d]; simpl in *.
  replace (12 * Year t + (Month t + 1 - 1) - 2) with (q + 1) by lia.
  pose proof (fom_succ q). lia.
Qed.
End fixed.

Example civil_2024_leap :
  let _ := fixed_zone 0 in civil 1709164800 = (2024, 2, 29).
Proof. reflexivity. Qed.

Example date_shanghai :
  let _ := fixed_zone 28800 in Date 2025 13 1 0 = 1767196800.
Proof. reflexivity. Qed.

(** * Printing and reading times *)

(** ** Decimal fields of a fixed width *)

Fixpoint digits (w : nat) (z : Z) : list Z :=
  match w with
  | O => []
  | S w => digits w (z / 10) ++ [z mod 10]
  end.

Definition digit_char (d : Z) : ascii := ascii_of_nat (Z.to_nat (48 + d)).

Fixpoint text (l : list ascii) : string :=
  match l with [] => EmptyString | c :: l => String c (text l) end.

(** [appendInt(b, x, width)] for [x >= 0]: zero-padded, wider when it must be. *)
Definition appendInt (x : Z) (w : nat) : string :=
  if x <? 10 ^ Z.of_nat w then text (digit_char <$> digits w x) else pretty x.

Definition char_digit (c : ascii) : option Z :=
  let d := Z.of_nat (nat_of_ascii c) - 48 in
  if (0 <=? d) && (d <=? 9) then Some d else None.

(** Read exactly [w] digits. *)
Fixpoint getnum (w : nat) (acc : Z) (s : string) : option (Z * string) :=
  match w with
  | O => Some (acc, s)
  | S w =>
      match s with
      | String c s => d ← char_digit c; getnum w (10 * acc + d) s
      | EmptyString => None
      end
  end.

(** Read the literal character [c]. *)
Definition literal (c : ascii) (s : string) : option string :=
  match s with
  | String c' s => if decide (c = c') then Some s else None
  | EmptyString => None
  end.

Definition guard_range (lo x hi : Z) : option unit :=
  if (lo <=? x) && (x <=? hi) then Some tt else None.

(** Days from 1970-01-01 to the first of a month, and the length of the month. *)
Definition first_of (y m : Z) : Z := fom (12 * y + (m - 1) - 2).
Definition daysIn (y m : Z) : Z := first_of y (m + 1) - first_of y m.

(** [time.Parse(timeFormat, s)] as milliseconds since the epoch; [None]: the
    error. *)
Definition Parse (s : string) : option Z :=
  '(y, s) ← getnum 4 0 s; s ← literal "-" s;
  '(mo, s) ← getnum 2 0 s; _ ← guard_range 1 mo 12; s ← literal "-" s;
  '(d, s) ← getnum 2 0 s; s ← literal "T" s;
  '(h, s) ← getnum 2 0 s; _ ← guard_range 0 h 23; s ← literal ":" s;
  '(mi, s) ← getnum 2 0 s; _ ← guard_range 0 mi 59; s ← literal ":" s;
  '(sec, s) ← getnum 2 0 s; _ ← guard_range 0 sec 59; s ← literal "." s;
  '(ms, s) ← getnum 3 0 s; s ← literal "Z" s;
  _ ← guard_range 1 d (daysIn y mo);
  match s with
  | EmptyString =>
      Some ((((first_of y mo + d - 1) * 86400) + h * 3600 + mi * 60 + sec) * 1000 + ms)
  | _ => None
  end.

Section format.
Context `{loc : Location}.

(** [t.Format(timeFormat)] *)
Definition Format (t : Z) : string :=
  let s := t / 1000 in
  appendInt (Year s) 4 +:+ "-" +:+ appendInt (Month s) 2 +:+ "-" +:+ appendInt (Day s) 2
  +:+ "T" +:+ appendInt (clock s / 3600) 2 +:+ ":" +:+ appendInt (clock s / 60 mod 60) 2
  +:+ ":" +:+ appendInt (clock s mod 60) 2 +:+ "." +:+ appendInt (t mod 1000) 3 +:+ "Z".

(** The wall clock of time [t], as if it were UTC. *)
Definition wall (t : Z) : Z := local_seconds (t / 1000) * 1000 + t mod 1000.
End format.

(** ** Round trip *)

Lemma char_digit_char d : 0 <= d < 10 -> char_digit (digit_char d) = Some d.
Proof.
  intros H. assert (d ∈ [0;1;2;3;4;5;6;7;8;9]) as Hin by (rewrite !elem_of_cons; lia).
  rewrite !elem_of_cons in Hin. destruct_or! Hin; subst; try done. by apply elem_of_nil in Hin.
Qed.

Lemma length_digits w z : length (digits w z) = w.
Proof. revert z. induction w as [|w IH]; intros z; [done|]. simpl. rewrite length_app, IH. simpl. lia. Qed.

Lemma getnum_digits w z acc rest :
  0 <= z ->
  getnum w acc (text (digit_char <$> digits w z) +:+ rest)
    = Some (acc * 10 ^ Z.of_nat w + z mod 10 ^ Z.of_nat w, rest).
Proof.
  intros Hz.
  assert (∀ l acc rest, Forall (λ d, 0 <= d < 10) l ->
    getnum (length l) acc (text (digit_char <$> l) +:+ rest)
      = Some (foldl (λ a d, 10 * a + d) acc l, rest)) as Hgen.
  { clear. intros l. induction l as [|d l IH]; intros acc rest Hl; [done|].
    inversion_clear Hl. rewrite fmap_cons. cbn [length text]. rewrite string_cons_app. cbn [getnum].
    rewrite char_digit_char by done. cbn. by apply IH. }
  assert (∀ w z, 0 <= z -> Forall (λ d, 0 <= d < 10) (digits w z)) as Hd.
  { clear. induction w as [|w IH]; intros z Hz; [constructor|]. simpl. apply Forall_app. split.
    - apply IH. apply Z.div_pos; lia.
    - constructor; [apply Z.mod_pos_bound; lia|constructor]. }
  assert (∀ w z acc, 0 <= z -> foldl (λ a d, 10 * a + d) acc (digits w z)
     = acc * 10 ^ Z.of_nat w + z mod 10 ^ Z.of_nat w) as Hv.
  { clear. induction w as [|w IH]; intros z acc Hz.
    - simpl. rewrite Z.mod_1_r. lia.
    - cbn [digits]. rewrite foldl_app, IH by (apply Z.div_pos; lia). simpl foldl.
      replace (Z.of_nat (S w)) with (Z.of_nat w + 1) by lia.
      rewrite Z.pow_add_r, Z.pow_1_r by lia.
      rewrite (Z.mul_comm (10 ^ Z.of_nat w) 10), Z.rem_mul_r by lia. lia. }
  pose proof (Hgen (digits w z) acc rest (Hd w z Hz)) as H.
  rewrite length_digits, Hv in H by done. done.
Qed.

Lemma getnum_appendInt w x rest :
  0 <= x < 10 ^ Z.of_nat w -> getnum w 0 (appendInt x w +:+ rest) = Some (x, rest).
Proof.
  intros Hx. unfold appendInt. destruct (Z.ltb_spec x (10 ^ Z.of_nat w)); [|lia].
  rewrite getnum_digits, Z.mod_small by lia. done.
Qed.

Lemma guard_range_ok lo x hi : lo <= x <= hi -> guard_range lo x hi = Some tt.
Proof. intros H. unfold guard_range. by rewrite (proj2 (Z.leb_le _ _)), (proj2 (Z.leb_le _ _)) by lia. Qed.

Lemma literal_eq c s : literal c (String c s) = Some s.
Proof. simpl. by rewrite decide_True. Qed.

(** The years a four-digit field holds. *)
Definition printable `{loc : Location} (t : Z) : Prop := 0 <= Year (t / 1000) < 10000.

Lemma civil_fields `{loc : Location} t :
  1 <= Month t <= 12 ∧ 1 <= Day t <= daysIn (Year t) (Month t) ∧
  first_of (Year t) (Month t) + Day t - 1 = local_day t.
Proof.
  unfold daysIn, first_of. pose proof (civil_index t) as [Hq Hd].
  pose proof (month_day_spec (local_day t)) as Hs.
  destruct (month_day (local_day t)) as [q d] eqn:E. simpl in Hq, Hd. subst d.
  replace (12 * Year t + (Month t + 1 - 1) - 2) with (q + 1) by lia. rewrite Hq.
  split; [|lia].
  unfold Month, civil. rewrite E. pose proof (Z.mod_pos_bound q 12).
  destruct (Z.ltb_spec (q mod 12) 10); simpl; lia.
Qed.

(** One field of the layout: its digits, its range check, the separator. *)
Ltac read_field :=
  rewrite ?append_assoc, getnum_appendInt by (simpl Z.of_nat; lia); cbn [mbind option_bind];
  rewrite ?guard_range_ok by lia; cbn [mbind option_bind];
  rewrite ?string_cons_app, ?string_nil_app, literal_eq; cbn [mbind option_bind].

(** What [Format] prints, [Parse] reads back as the wall clock. *)
Lemma Parse_Format `{loc : Location} t : printable t -> Parse (Format t) = Some (wall t).
Proof.
  intros Hy. unfold Format, Parse, wall, printable in *. cbv zeta.
  set (s := t / 1000) in *. set (ms := t mod 1000).
  assert (0 <= ms < 1000) as Hms by (apply Z.mod_pos_bound; lia).
  assert (local_seconds s = local_day s * 86400 + clock s ∧ 0 <= clock s < 86400) as [Hl Hc].
  { unfold local_day, clock. pose proof (Z.div_mod (local_seconds s) 86400).
    pose proof (Z.mod_pos_bound (local_seconds s) 86400). lia. }
  pose proof (civil_fields s) as (Hmo & Hd & Hday).
  assert (daysIn (Year s) (Month s) <= 31) as Hd31.
  { unfold daysIn, first_of. pose proof (fom_succ (12 * Year s + (Month s - 1) - 2)).
    replace (12 * Year s + (Month s + 1 - 1) - 2) with (12 * Year s + (Month s - 1) - 2 + 1) by lia. lia. }
  rewrite Hl, <- Hday. clearbody s ms. clear Hday Hl.
  generalize dependent (clock s). intros c Hc.
  assert (0 <= c / 3600 <= 23) as Hh by (split; [apply Z.div_pos|apply Z.lt_succ_r, Z.div_lt_upper_bound]; lia).
  pose proof (Z.mod_pos_bound (c / 60) 60 ltac:(lia)) as Hmi.
  pose proof (Z.mod_pos_bound c 60 ltac:(lia)) as Hsec.
  assert (c / 3600 * 3600 + c / 60 mod 60 * 60 + c mod 60 = c) as Hsum.
  { pose proof (Z.div_mod c 60 ltac:(lia)). pose proof (Z.div_mod (c / 60) 60 ltac:(lia)).
    rewrite Z.div_div in * by lia. change (60 * 60) with 3600 in *. lia. }
  do 7 read_field. cbn. f_equal. lia.
Qed.
