(* ===== verification/GoNum.v ===== *)
(** * Floating point and decimal arithmetic

    [float64] is IEEE 754 binary64, taken from the Standard Library's executable
    specification.  The decimal package the billing code uses is not part of the
    repository: it is an interface, a class of operations with the documented
    laws (exact products and sums, integer conversions), and the components are
    proved against the interface.  [decimal_exact] shows that the laws can hold. *)

From S2P Require Import Prelude.
From Stdlib Require Import SpecFloat QArith Qround.

#[global] Open Scope Z_scope.

(** ** float64 *)

Abbreviation float64 := spec_float.

Definition fmul : float64 -> float64 -> float64 := SFmul 53 1024.
Definition fadd : float64 -> float64 -> float64 := SFadd 53 1024.
Definition fsub : float64 -> float64 -> float64 := SFsub 53 1024.
Definition fdiv : float64 -> float64 -> float64 := SFdiv 53 1024.
Definition fltb : float64 -> float64 -> bool := SFltb.
Definition fleb : float64 -> float64 -> bool := SFleb.
Definition feqb : float64 -> float64 -> bool := SFeqb.
Definition fzero : float64 := S754_zero false.

(** [float64(n)]: the nearest double. *)
Definition float_of_int (n : Z) : float64 := binary_normalize 53 1024 n 0 false.

(** [int(f)]: truncation toward zero; outside the [int64] range the conversion
    gives the smallest [int64], as the amd64 instruction does. *)
Definition int_of_float (f : float64) : Z :=
  match f with
  | S754_zero _ => 0
  | S754_finite s m e =>
      let a := if 0 <=? e then Z.pos m * 2 ^ e else Z.pos m / 2 ^ (- e) in
      let z := if s then - a else a in
      if (- 2 ^ 63 <=? z) && (z <? 2 ^ 63) then z else - 2 ^ 63
  | _ => - 2 ^ 63
  end.

Example float_of_int_ex : int_of_float (fmul (float_of_int 3) (float_of_int 500000)) = 1500000.
Proof. reflexivity. Qed.

(** The rational a finite double stands for. *)
Definition Q_of_float (f : float64) : Q :=
  match f with
  | S754_finite s m e =>
      let z := if s then Z.neg m else Z.pos m in
      if 0 <=? e then inject_Z (z * 2 ^ e) else (z # Z.to_pos (2 ^ (- e)))
  | _ => 0%Q
  end.

Definition is_finite (f : float64) : bool :=
  match f with S754_zero _ | S754_finite _ _ _ => true | _ => false end.

(** The double [f] is the whole number [n], of at most 53 bits. *)
Definition float_is_int (f : float64) (n : Z) : Prop :=
  is_finite f = true ∧ (Q_of_float f == inject_Z n)%Q ∧ Z.abs n <= 2 ^ 53.

(** ** Decimals *)

(** Rounding to the nearest whole number, halves away from zero. *)
Definition Qround_away (q : Q) : Z :=
  if Qle_bool 0 q then Qfloor (q + (1 # 2)) else - Qfloor (- q + (1 # 2)).

Class Decimal := {
  decimal : Type;
  NewFromFloat : float64 -> decimal;
  NewFromInt : Z -> decimal;
  dMul : decimal -> decimal -> decimal;
  dAdd : decimal -> decimal -> decimal;
  dSub : decimal -> decimal -> decimal;
  dDiv : decimal -> decimal -> decimal;
  dCeil : decimal -> decimal;
  dRound : decimal -> decimal;
  dIsZero : decimal -> bool;
  dLessThanOrEqual : decimal -> decimal -> bool;
  dIntPart : decimal -> Z;
}.

(** The documented behaviour the gateway relies on: the value of a decimal is a
    rational; products, sums and differences are exact; a quotient is rounded to
    16 places, halves away from zero; [Ceil] rounds up and [Round(0)] to the nearest
    whole number, halves away from zero; comparisons compare values; [IntPart] drops
    the fraction when the result fits 64 bits; converting a double keeps its sign,
    and is exact for a whole number of at most 53 bits. *)
Class DecimalLaws (D : Decimal) := {
  dvalue : decimal -> Q;
  dvalue_int : ∀ n, (dvalue (NewFromInt n) == inject_Z n)%Q;
  dvalue_mul : ∀ a b, (dvalue (dMul a b) == dvalue a * dvalue b)%Q;
  dvalue_add : ∀ a b, (dvalue (dAdd a b) == dvalue a + dvalue b)%Q;
  dvalue_sub : ∀ a b, (dvalue (dSub a b) == dvalue a - dvalue b)%Q;
  dvalue_div : ∀ a b, ~ (dvalue b == 0)%Q ->
    (dvalue (dDiv a b) == inject_Z (Qround_away (dvalue a / dvalue b * inject_Z (10 ^ 16)))
                          / inject_Z (10 ^ 16))%Q;
  dvalue_ceil : ∀ a, (dvalue (dCeil a) == inject_Z (Qceiling (dvalue a)))%Q;
  dvalue_round : ∀ a, (dvalue (dRound a) == inject_Z (Qround_away (dvalue a)))%Q;
  dIsZero_spec : ∀ a, dIsZero a = true <-> (dvalue a == 0)%Q;
  dLessThanOrEqual_spec : ∀ a b, dLessThanOrEqual a b = true <-> (dvalue a <= dvalue b)%Q;
  dvalue_float_int : ∀ f n, float_is_int f n -> (dvalue (NewFromFloat f) == inject_Z n)%Q;
  dvalue_float_sign : ∀ f, is_finite f = true ->
    ((0 <= dvalue (NewFromFloat f))%Q <-> (0 <= Q_of_float f)%Q);
  dIntPart_int : ∀ a n, (dvalue a == inject_Z n)%Q -> int64_range n -> dIntPart a = n;
}.

(** The quota of [n] units at [k] quota per unit. *)
Lemma decimal_product `{L : DecimalLaws} n f k :
  float_is_int f k -> int64_range (n * k) ->
  dIntPart (dMul (NewFromInt n) (NewFromFloat f)) = n * k.
Proof.
  intros Hk Hr. apply dIntPart_int; [|done].
  rewrite dvalue_mul, dvalue_int, (dvalue_float_int f k) by done.
  by rewrite inject_Z_mult.
Qed.

(** Truncation of a rational toward zero. *)
Definition Qtrunc (q : Q) : Z := Z.quot (Qnum q) (Z.pos (Qden q)).

Lemma Qtrunc_int q n : (q == inject_Z n)%Q -> Qtrunc q = n.
Proof.
  destruct q as [a d]. unfold Qeq, inject_Z, Qtrunc; simpl. intros E.
  rewrite Z.mul_1_r in E. subst a. apply Z.quot_mul. lia.
Qed.

#[export] Instance decimal_exact : Decimal := {|
  decimal := Q;
  NewFromFloat := Q_of_float;
  NewFromInt := inject_Z;
  dMul := Qmult;
  dAdd := Qplus;
  dSub := Qminus;
  dDiv a b := (inject_Z (Qround_away (a / b * inject_Z (10 ^ 16))) / inject_Z (10 ^ 16))%Q;
  dCeil q := inject_Z (Qceiling q);
  dRound q := inject_Z (Qround_away q);
  dIsZero q := Qeq_bool q 0;
  dLessThanOrEqual := Qle_bool;
  dIntPart := Qtrunc;
|}.

#[export] Instance decimal_exact_laws : DecimalLaws decimal_exact.
Proof.
  unshelve econstructor; [exact (λ q, q)|..]; simpl; try reflexivity.
  - intros a. apply Qeq_bool_iff.
  - intros a b. apply Qle_bool_iff.
  - by intros f n (_ & H & _).
  - intros q n E _. by apply Qtrunc_int.
Defined.
