(* ===== verification/Records.v ===== *)
(** * Records: the data of the billing core

    One record per Go struct, with the source's field names behind the struct's
    name ([User_Quota] is [User.Quota]), and a setter [set_User_Quota] per field
    that some function assigns.  Fields no modelled function reads or writes are
    left out.  [Tables] is the database, [World] everything the handlers share. *)

From S2P Require Import Prelude GoNum.

(** [model.User]: the columns but the creation time; the id is the row's key and the
    deletion mark is the table the row is in. *)
Record User : Type := mkUser {
  User_Username : string;
  User_Quota : Z;
  User_UsedQuota : Z;
  User_RequestCount : Z;
  User_Group : string;
  User_Email : string;
  User_StripeCustomer : string;
  User_AffCount : Z;
  User_AffQuota : Z;
  User_AffHistoryQuota : Z;
  User_Password : string;
  User_DisplayName : string;
  User_Role : Z;
  User_Status : Z;
  User_GitHubId : string;
  User_DiscordId : string;
  User_OidcId : string;
  User_WeChatId : string;
  User_TelegramId : string;
  User_LinuxDOId : string;
  User_AccessToken : option string;
  User_AffCode : string;
  User_InviterId : Z;
  User_Setting : string;
  User_Remark : string;
  User_LastLoginAt : Z;
}.
Definition set_User_Username (v : string) (r : User) : User :=
  {| r with User_Username := v |}.
Definition set_User_Quota (v : Z) (r : User) : User :=
  {| r with User_Quota := v |}.
Definition set_User_UsedQuota (v : Z) (r : User) : User :=
  {| r with User_UsedQuota := v |}.
Definition set_User_RequestCount (v : Z) (r : User) : User :=
  {| r with User_RequestCount := v |}.
Definition set_User_Group (v : string) (r : User) : User :=
  {| r with User_Group := v |}.
Definition set_User_Email (v : string) (r : User) : User :=
  {| r with User_Email := v |}.
Definition set_User_StripeCustomer (v : string) (r : User) : User :=
  {| r with User_StripeCustomer := v |}.
Definition set_User_AffCount (v : Z) (r : User) : User :=
  {| r with User_AffCount := v |}.
Definition set_User_AffQuota (v : Z) (r : User) : User :=
  {| r with User_AffQuota := v |}.
Definition set_User_AffHistoryQuota (v : Z) (r : User) : User :=
  {| r with User_AffHistoryQuota := v |}.

(** [model.UserBase], the cached fields; the id is the key. *)
Record UserBase : Type := mkUserBase {
  UserBase_Username : string;
  UserBase_Quota : Z;
  UserBase_Group : string;
  UserBase_Email : string;
  UserBase_Status : Z;
  UserBase_Setting : string;
}.
Definition set_UserBase_Username (v : string) (r : UserBase) : UserBase :=
  {| r with UserBase_Username := v |}.
Definition set_UserBase_Quota (v : Z) (r : UserBase) : UserBase :=
  {| r with UserBase_Quota := v |}.
Definition set_UserBase_Group (v : string) (r : UserBase) : UserBase :=
  {| r with UserBase_Group := v |}.
Definition set_UserBase_Email (v : string) (r : UserBase) : UserBase :=
  {| r with UserBase_Email := v |}.
Definition set_UserBase_Status (v : Z) (r : UserBase) : UserBase :=
  {| r with UserBase_Status := v |}.
Definition set_UserBase_Setting (v : string) (r : UserBase) : UserBase :=
  {| r with UserBase_Setting := v |}.

(** [model.Token]; the deletion mark is the table the row is in. *)
Record Token : Type := mkToken {
  Token_Id : Z;
  Token_UserId : Z;
  Token_Key : string;
  Token_Status : Z;
  Token_AccessedTime : Z;
  Token_ExpiredTime : Z;
  Token_RemainQuota : Z;
  Token_UnlimitedQuota : bool;
  Token_UsedQuota : Z;
  Token_Name : string;
  Token_CreatedTime : Z;
  Token_ModelLimitsEnabled : bool;
  Token_ModelLimits : string;
  Token_AllowIps : option string;
  Token_Group : string;
  Token_CrossGroupRetry : bool;
}.
Definition set_Token_Key (v : string) (r : Token) : Token :=
  {| r with Token_Key := v |}.
Definition set_Token_Status (v : Z) (r : Token) : Token :=
  {| r with Token_Status := v |}.
Definition set_Token_AccessedTime (v : Z) (r : Token) : Token :=
  {| r with Token_AccessedTime := v |}.
Definition set_Token_RemainQuota (v : Z) (r : Token) : Token :=
  {| r with Token_RemainQuota := v |}.
Definition set_Token_UsedQuota (v : Z) (r : Token) : Token :=
  {| r with Token_UsedQuota := v |}.

(** [model.SubscriptionPlan]; the two nullable booleans are options. *)
Record SubscriptionPlan : Type := mkSubscriptionPlan {
  SubscriptionPlan_Id : Z;
  SubscriptionPlan_Title : string;
  SubscriptionPlan_PriceAmount : float64;
  SubscriptionPlan_DurationUnit : string;
  SubscriptionPlan_DurationValue : Z;
  SubscriptionPlan_CustomSeconds : Z;
  SubscriptionPlan_Enabled : bool;
  SubscriptionPlan_AllowBalancePay : option bool;
  SubscriptionPlan_AllowWalletOverflow : option bool;
  SubscriptionPlan_MaxPurchasePerUser : Z;
  SubscriptionPlan_UpgradeGroup : string;
  SubscriptionPlan_DowngradeGroup : string;
  SubscriptionPlan_TotalAmount : Z;
  SubscriptionPlan_QuotaResetPeriod : string;
  SubscriptionPlan_QuotaResetCustomSeconds : Z;
}.
Definition set_SubscriptionPlan_AllowBalancePay (v : option bool) (r : SubscriptionPlan) : SubscriptionPlan :=
  mkSubscriptionPlan (SubscriptionPlan_Id r) (SubscriptionPlan_Title r)
    (SubscriptionPlan_PriceAmount r) (SubscriptionPlan_DurationUnit r)
    (SubscriptionPlan_DurationValue r) (SubscriptionPlan_CustomSeconds r)
    (SubscriptionPlan_Enabled r) v (SubscriptionPlan_AllowWalletOverflow r)
    (SubscriptionPlan_MaxPurchasePerUser r) (SubscriptionPlan_UpgradeGroup r)
    (SubscriptionPlan_DowngradeGroup r) (SubscriptionPlan_TotalAmount r)
    (SubscriptionPlan_QuotaResetPeriod r)
    (SubscriptionPlan_QuotaResetCustomSeconds r).
Definition set_SubscriptionPlan_AllowWalletOverflow (v : option bool) (r : SubscriptionPlan) : SubscriptionPlan :=
  mkSubscriptionPlan (SubscriptionPlan_Id r) (SubscriptionPlan_Title r)
    (SubscriptionPlan_PriceAmount r) (SubscriptionPlan_DurationUnit r)
    (SubscriptionPlan_DurationValue r) (SubscriptionPlan_CustomSeconds r)
    (SubscriptionPlan_Enabled r) (SubscriptionPlan_AllowBalancePay r) v
    (SubscriptionPlan_MaxPurchasePerUser r) (SubscriptionPlan_UpgradeGroup r)
    (SubscriptionPlan_DowngradeGroup r) (SubscriptionPlan_TotalAmount r)
    (SubscriptionPlan_QuotaResetPeriod r)
    (SubscriptionPlan_QuotaResetCustomSeconds r).

(** [model.UserSubscription] *)
Record UserSubscription : Type := mkUserSubscription {
  UserSubscription_Id : Z;
  UserSubscription_UserId : Z;
  UserSubscription_PlanId : Z;
  UserSubscription_AmountTotal : Z;
  UserSubscription_AmountUsed : Z;
  UserSubscription_StartTime : Z;
  UserSubscription_EndTime : Z;
  UserSubscription_Status : string;
  UserSubscription_Source : string;
  UserSubscription_LastResetTime : Z;
  UserSubscription_NextResetTime : Z;
  UserSubscription_UpgradeGroup : string;
  UserSubscription_PrevUserGroup : string;
  UserSubscription_DowngradeGroup : string;
  UserSubscription_AllowWalletOverflow : bool;
  UserSubscription_CreatedAt : Z;
  UserSubscription_UpdatedAt : Z;
}.
Definition set_UserSubscription_Id (v : Z) (r : UserSubscription) : UserSubscription :=
  mkUserSubscription v (UserSubscription_UserId r) (UserSubscription_PlanId r)
    (UserSubscription_AmountTotal r) (UserSubscription_AmountUsed r)
    (UserSubscription_StartTime r) (UserSubscription_EndTime r)
    (UserSubscription_Status r) (UserSubscription_Source r)
    (UserSubscription_LastResetTime r) (UserSubscription_NextResetTime r)
    (UserSubscription_UpgradeGroup r) (UserSubscription_PrevUserGroup r)
    (UserSubscription_DowngradeGroup r) (UserSubscription_AllowWalletOverflow r)
    (UserSubscription_CreatedAt r) (UserSubscription_UpdatedAt r).
Definition set_UserSubscription_AmountUsed (v : Z) (r : UserSubscription) : UserSubscription :=
  mkUserSubscription (UserSubscription_Id r) (UserSubscription_UserId r)
    (UserSubscription_PlanId r) (UserSubscription_AmountTotal r) v
    (UserSubscription_StartTime r) (UserSubscription_EndTime r)
    (UserSubscription_Status r) (UserSubscription_Source r)
    (UserSubscription_LastResetTime r) (UserSubscription_NextResetTime r)
    (UserSubscription_UpgradeGroup r) (UserSubscription_PrevUserGroup r)
    (UserSubscription_DowngradeGroup r) (UserSubscription_AllowWalletOverflow r)
    (UserSubscription_CreatedAt r) (UserSubscription_UpdatedAt r).
Definition set_UserSubscription_EndTime (v : Z) (r : UserSubscription) : UserSubscription :=
  mkUserSubscription (UserSubscription_Id r) (UserSubscription_UserId r)
    (UserSubscription_PlanId r) (UserSubscription_AmountTotal r)
    (UserSubscription_AmountUsed r) (UserSubscription_StartTime r) v
    (UserSubscription_Status r) (UserSubscription_Source r)
    (UserSubscription_LastResetTime r) (UserSubscription_NextResetTime r)
    (UserSubscription_UpgradeGroup r) (UserSubscription_PrevUserGroup r)
    (UserSubscription_DowngradeGroup r) (UserSubscription_AllowWalletOverflow r)
    (UserSubscription_CreatedAt r) (UserSubscription_UpdatedAt r).
Definition set_UserSubscription_Status (v : string) (r : UserSubscription) : UserSubscription :=
  mkUserSubscription (UserSubscription_Id r) (UserSubscription_UserId r)
    (UserSubscription_PlanId r) (UserSubscription_AmountTotal r)
    (UserSubscription_AmountUsed r) (UserSubscription_StartTime r)
    (UserSubscription_EndTime r) v (UserSubscription_Source r)
    (UserSubscription_LastResetTime r) (UserSubscription_NextResetTime r)
    (UserSubscription_UpgradeGroup r) (UserSubscription_PrevUserGroup r)
    (UserSubscription_DowngradeGroup r) (UserSubscription_AllowWalletOverflow r)
    (UserSubscription_CreatedAt r) (UserSubscription_UpdatedAt r).
Definition set_UserSubscription_LastResetTime (v : Z) (r : UserSubscription) : UserSubscription :=
  mkUserSubscription (UserSubscription_Id r) (UserSubscription_UserId r)
    (UserSubscription_PlanId r) (UserSubscription_AmountTotal r)
    (UserSubscription_AmountUsed r) (UserSubscription_StartTime r)
    (UserSubscription_EndTime r) (UserSubscription_Status r)
    (UserSubscription_Source r) v (UserSubscription_NextResetTime r)
    (UserSubscription_UpgradeGroup r) (UserSubscription_PrevUserGroup r)
    (UserSubscription_DowngradeGroup r) (UserSubscription_AllowWalletOverflow r)
    (UserSubscription_CreatedAt r) (UserSubscription_UpdatedAt r).
Definition set_UserSubscription_NextResetTime (v : Z) (r : UserSubscription) : UserSubscription :=
  mkUserSubscription (UserSubscription_Id r) (UserSubscription_UserId r)
    (UserSubscription_PlanId r) (UserSubscription_AmountTotal r)
    (UserSubscription_AmountUsed r) (UserSubscription_StartTime r)
    (UserSubscription_EndTime r) (UserSubscription_Status r)
    (UserSubscription_Source r) (UserSubscription_LastResetTime r) v
    (UserSubscription_UpgradeGroup r) (UserSubscription_PrevUserGroup r)
    (UserSubscription_DowngradeGroup r) (UserSubscription_AllowWalletOverflow r)
    (UserSubscription_CreatedAt r) (UserSubscription_UpdatedAt r).
Definition set_UserSubscription_UpdatedAt (v : Z) (r : UserSubscription) : UserSubscription :=
  mkUserSubscription (UserSubscription_Id r) (UserSubscription_UserId r)
    (UserSubscription_PlanId r) (UserSubscription_AmountTotal r)
    (UserSubscription_AmountUsed r) (UserSubscription_StartTime r)
    (UserSubscription_EndTime r) (UserSubscription_Status r)
    (UserSubscription_Source r) (UserSubscription_LastResetTime r)
    (UserSubscription_NextResetTime r) (UserSubscription_UpgradeGroup r)
    (UserSubscription_PrevUserGroup r) (UserSubscription_DowngradeGroup r)
    (UserSubscription_AllowWalletOverflow r) (UserSubscription_CreatedAt r) v.

(** [model.SubscriptionPreConsumeRecord] *)
Record SubscriptionPreConsumeRecord : Type := mkSubscriptionPreConsumeRecord {
  SubscriptionPreConsumeRecord_RequestId : string;
  SubscriptionPreConsumeRecord_UserId : Z;
  SubscriptionPreConsumeRecord_UserSubscriptionId : Z;
  SubscriptionPreConsumeRecord_PreConsumed : Z;
  SubscriptionPreConsumeRecord_Status : string;
  SubscriptionPreConsumeRecord_CreatedAt : Z;
  SubscriptionPreConsumeRecord_UpdatedAt : Z;
}.
Definition set_SubscriptionPreConsumeRecord_Status (v : string) (r : SubscriptionPreConsumeRecord) : SubscriptionPreConsumeRecord :=
  mkSubscriptionPreConsumeRecord (SubscriptionPreConsumeRecord_RequestId r)
    (SubscriptionPreConsumeRecord_UserId r)
    (SubscriptionPreConsumeRecord_UserSubscriptionId r)
    (SubscriptionPreConsumeRecord_PreConsumed r) v
    (SubscriptionPreConsumeRecord_CreatedAt r)
    (SubscriptionPreConsumeRecord_UpdatedAt r).
Definition set_SubscriptionPreConsumeRecord_UpdatedAt (v : Z) (r : SubscriptionPreConsumeRecord) : SubscriptionPreConsumeRecord :=
  mkSubscriptionPreConsumeRecord (SubscriptionPreConsumeRecord_RequestId r)
    (SubscriptionPreConsumeRecord_UserId r)
    (SubscriptionPreConsumeRecord_UserSubscriptionId r)
    (SubscriptionPreConsumeRecord_PreConsumed r)
    (SubscriptionPreConsumeRecord_Status r)
    (SubscriptionPreConsumeRecord_CreatedAt r) v.

(** [model.SubscriptionOrder] *)
Record SubscriptionOrder : Type := mkSubscriptionOrder {
  SubscriptionOrder_UserId : Z;
  SubscriptionOrder_PlanId : Z;
  SubscriptionOrder_Money : float64;
  SubscriptionOrder_TradeNo : string;
  SubscriptionOrder_PaymentMethod : string;
  SubscriptionOrder_PaymentProvider : string;
  SubscriptionOrder_Status : string;
  SubscriptionOrder_CreateTime : Z;
  SubscriptionOrder_CompleteTime : Z;
  SubscriptionOrder_ProviderPayload : string;
}.
Definition set_SubscriptionOrder_PaymentMethod (v : string) (r : SubscriptionOrder) : SubscriptionOrder :=
  mkSubscriptionOrder (SubscriptionOrder_UserId r) (SubscriptionOrder_PlanId r)
    (SubscriptionOrder_Money r) (SubscriptionOrder_TradeNo r) v
    (SubscriptionOrder_PaymentProvider r) (SubscriptionOrder_Status r)
    (SubscriptionOrder_CreateTime r) (SubscriptionOrder_CompleteTime r)
    (SubscriptionOrder_ProviderPayload r).
Definition set_SubscriptionOrder_Status (v : string) (r : SubscriptionOrder) : SubscriptionOrder :=
  mkSubscriptionOrder (SubscriptionOrder_UserId r) (SubscriptionOrder_PlanId r)
    (SubscriptionOrder_Money r) (SubscriptionOrder_TradeNo r)
    (SubscriptionOrder_PaymentMethod r) (SubscriptionOrder_PaymentProvider r) v
    (SubscriptionOrder_CreateTime r) (SubscriptionOrder_CompleteTime r)
    (SubscriptionOrder_ProviderPayload r).
Definition set_SubscriptionOrder_CompleteTime (v : Z) (r : SubscriptionOrder) : SubscriptionOrder :=
  mkSubscriptionOrder (SubscriptionOrder_UserId r) (SubscriptionOrder_PlanId r)
    (SubscriptionOrder_Money r) (SubscriptionOrder_TradeNo r)
    (SubscriptionOrder_PaymentMethod r) (SubscriptionOrder_PaymentProvider r)
    (SubscriptionOrder_Status r) (SubscriptionOrder_CreateTime r) v
    (SubscriptionOrder_ProviderPayload r).
Definition set_SubscriptionOrder_ProviderPayload (v : string) (r : SubscriptionOrder) : SubscriptionOrder :=
  mkSubscriptionOrder (SubscriptionOrder_UserId r) (SubscriptionOrder_PlanId r)
    (SubscriptionOrder_Money r) (SubscriptionOrder_TradeNo r)
    (SubscriptionOrder_PaymentMethod r) (SubscriptionOrder_PaymentProvider r)
    (SubscriptionOrder_Status r) (SubscriptionOrder_CreateTime r)
    (SubscriptionOrder_CompleteTime r) v.

(** [model.TopUp] *)
Record TopUp : Type := mkTopUp {
  TopUp_UserId : Z;
  TopUp_Amount : Z;
  TopUp_Money : float64;
  TopUp_TradeNo : string;
  TopUp_PaymentMethod : string;
  TopUp_PaymentProvider : string;
  TopUp_CreateTime : Z;
  TopUp_CompleteTime : Z;
  TopUp_Status : string;
}.
Definition set_TopUp_Money (v : float64) (r : TopUp) : TopUp :=
  mkTopUp (TopUp_UserId r) (TopUp_Amount r) v (TopUp_TradeNo r)
    (TopUp_PaymentMethod r) (TopUp_PaymentProvider r) (TopUp_CreateTime r)
    (TopUp_CompleteTime r) (TopUp_Status r).
Definition set_TopUp_PaymentMethod (v : string) (r : TopUp) : TopUp :=
  mkTopUp (TopUp_UserId r) (TopUp_Amount r) (TopUp_Money r) (TopUp_TradeNo r) v
    (TopUp_PaymentProvider r) (TopUp_CreateTime r) (TopUp_CompleteTime r)
    (TopUp_Status r).
Definition set_TopUp_CreateTime (v : Z) (r : TopUp) : TopUp :=
  mkTopUp (TopUp_UserId r) (TopUp_Amount r) (TopUp_Money r) (TopUp_TradeNo r)
    (TopUp_PaymentMethod r) (TopUp_PaymentProvider r) v (TopUp_CompleteTime r)
    (TopUp_Status r).
Definition set_TopUp_CompleteTime (v : Z) (r : TopUp) : TopUp :=
  mkTopUp (TopUp_UserId r) (TopUp_Amount r) (TopUp_Money r) (TopUp_TradeNo r)
    (TopUp_PaymentMethod r) (TopUp_PaymentProvider r) (TopUp_CreateTime r) v
    (TopUp_Status r).
Definition set_TopUp_Status (v : string) (r : TopUp) : TopUp :=
  mkTopUp (TopUp_UserId r) (TopUp_Amount r) (TopUp_Money r) (TopUp_TradeNo r)
    (TopUp_PaymentMethod r) (TopUp_PaymentProvider r) (TopUp_CreateTime r)
    (TopUp_CompleteTime r) v.

(** [model.Redemption] *)
Record Redemption : Type := mkRedemption {
  Redemption_Id : Z;
  Redemption_Key : string;
  Redemption_Status : Z;
  Redemption_Quota : Z;
  Redemption_RedeemedTime : Z;
  Redemption_UsedUserId : Z;
  Redemption_ExpiredTime : Z;
}.
Definition set_Redemption_Status (v : Z) (r : Redemption) : Redemption :=
  mkRedemption (Redemption_Id r) (Redemption_Key r) v (Redemption_Quota r)
    (Redemption_RedeemedTime r) (Redemption_UsedUserId r)
    (Redemption_ExpiredTime r).
Definition set_Redemption_RedeemedTime (v : Z) (r : Redemption) : Redemption :=
  mkRedemption (Redemption_Id r) (Redemption_Key r) (Redemption_Status r)
    (Redemption_Quota r) v (Redemption_UsedUserId r) (Redemption_ExpiredTime r).
Definition set_Redemption_UsedUserId (v : Z) (r : Redemption) : Redemption :=
  mkRedemption (Redemption_Id r) (Redemption_Key r) (Redemption_Status r)
    (Redemption_Quota r) (Redemption_RedeemedTime r) v
    (Redemption_ExpiredTime r).

(** [model.Checkin] *)
Record Checkin : Type := mkCheckin {
  Checkin_UserId : Z;
  Checkin_CheckinDate : string;
  Checkin_QuotaAwarded : Z;
  Checkin_CreatedAt : Z;
}.

(** A log row; [fmt.Sprintf] contents are kept as format and arguments. *)
Inductive Arg : Type :=
| AStr (s : string)
| AInt (z : Z)
| AFloat (f : float64)
| AQuota (quota : Z). (* [logger.FormatQuota] or [logger.LogQuota] of a quota *)

(** [model.Log]: the columns the modelled functions fill in.  [Log_Other] is the
    object stored as JSON, flattened to its string fields; the random request id
    is left out. *)
Record Log : Type := mkLog {
  Log_UserId : Z;
  Log_Username : string;
  Log_CreatedAt : Z;
  Log_Type : Z;
  Log_Format : string;
  Log_Args : list Arg;
  Log_Ip : string;
  Log_Other : list (string * string);
}.

(** [relaycommon.RelayInfo]: the billing fields; [BillingPreference] and
    [QuotaWarningThreshold] are the fields of its [UserSetting]. *)
Record RelayInfo : Type := mkRelayInfo {
  RelayInfo_UserId : Z;
  RelayInfo_TokenId : Z;
  RelayInfo_TokenKey : string;
  RelayInfo_TokenUnlimited : bool;
  RelayInfo_IsPlayground : bool;
  RelayInfo_ForcePreConsume : bool;
  RelayInfo_RequestId : string;
  RelayInfo_OriginModelName : string;
  RelayInfo_BillingPreference : string;
  RelayInfo_QuotaWarningThreshold : float64;
  RelayInfo_UserQuota : Z;
  RelayInfo_FinalPreConsumedQuota : Z;
  RelayInfo_BillingSource : string;
  RelayInfo_SubscriptionId : Z;
  RelayInfo_SubscriptionPreConsumed : Z;
  RelayInfo_SubscriptionPostDelta : Z;
  RelayInfo_SubscriptionAmountTotal : Z;
  RelayInfo_SubscriptionAmountUsedAfterPreConsume : Z;
  RelayInfo_SubscriptionPlanId : Z;
  RelayInfo_SubscriptionPlanTitle : string;
}.
Definition set_RelayInfo_UserQuota (v : Z) (r : RelayInfo) : RelayInfo :=
  mkRelayInfo (RelayInfo_UserId r) (RelayInfo_TokenId r) (RelayInfo_TokenKey r)
    (RelayInfo_TokenUnlimited r) (RelayInfo_IsPlayground r)
    (RelayInfo_ForcePreConsume r) (RelayInfo_RequestId r)
    (RelayInfo_OriginModelName r) (RelayInfo_BillingPreference r)
    (RelayInfo_QuotaWarningThreshold r) v (RelayInfo_FinalPreConsumedQuota r)
    (RelayInfo_BillingSource r) (RelayInfo_SubscriptionId r)
    (RelayInfo_SubscriptionPreConsumed r) (RelayInfo_SubscriptionPostDelta r)
    (RelayInfo_SubscriptionAmountTotal r)
    (RelayInfo_SubscriptionAmountUsedAfterPreConsume r)
    (RelayInfo_SubscriptionPlanId r) (RelayInfo_SubscriptionPlanTitle r).
Definition set_RelayInfo_FinalPreConsumedQuota (v : Z) (r : RelayInfo) : RelayInfo :=
  mkRelayInfo (RelayInfo_UserId r) (RelayInfo_TokenId r) (RelayInfo_TokenKey r)
    (RelayInfo_TokenUnlimited r) (RelayInfo_IsPlayground r)
    (RelayInfo_ForcePreConsume r) (RelayInfo_RequestId r)
    (RelayInfo_OriginModelName r) (RelayInfo_BillingPreference r)
    (RelayInfo_QuotaWarningThreshold r) (RelayInfo_UserQuota r) v
    (RelayInfo_BillingSource r) (RelayInfo_SubscriptionId r)
    (RelayInfo_SubscriptionPreConsumed r) (RelayInfo_SubscriptionPostDelta r)
    (RelayInfo_SubscriptionAmountTotal r)
    (RelayInfo_SubscriptionAmountUsedAfterPreConsume r)
    (RelayInfo_SubscriptionPlanId r) (RelayInfo_SubscriptionPlanTitle r).
Definition set_RelayInfo_BillingSource (v : string) (r : RelayInfo) : RelayInfo :=
  mkRelayInfo (RelayInfo_UserId r) (RelayInfo_TokenId r) (RelayInfo_TokenKey r)
    (RelayInfo_TokenUnlimited r) (RelayInfo_IsPlayground r)
    (RelayInfo_ForcePreConsume r) (RelayInfo_RequestId r)
    (RelayInfo_OriginModelName r) (RelayInfo_BillingPreference r)
    (RelayInfo_QuotaWarningThreshold r) (RelayInfo_UserQuota r)
    (RelayInfo_FinalPreConsumedQuota r) v (RelayInfo_SubscriptionId r)
    (RelayInfo_SubscriptionPreConsumed r) (RelayInfo_SubscriptionPostDelta r)
    (RelayInfo_SubscriptionAmountTotal r)
    (RelayInfo_SubscriptionAmountUsedAfterPreConsume r)
    (RelayInfo_SubscriptionPlanId r) (RelayInfo_SubscriptionPlanTitle r).
Definition set_RelayInfo_SubscriptionId (v : Z) (r : RelayInfo) : RelayInfo :=
  mkRelayInfo (RelayInfo_UserId r) (RelayInfo_TokenId r) (RelayInfo_TokenKey r)
    (RelayInfo_TokenUnlimited r) (RelayInfo_IsPlayground r)
    (RelayInfo_ForcePreConsume r) (RelayInfo_RequestId r)
    (RelayInfo_OriginModelName r) (RelayInfo_BillingPreference r)
    (RelayInfo_QuotaWarningThreshold r) (RelayInfo_UserQuota r)
    (RelayInfo_FinalPreConsumedQuota r) (RelayInfo_BillingSource r) v
    (RelayInfo_SubscriptionPreConsumed r) (RelayInfo_SubscriptionPostDelta r)
    (RelayInfo_SubscriptionAmountTotal r)
    (RelayInfo_SubscriptionAmountUsedAfterPreConsume r)
    (RelayInfo_SubscriptionPlanId r) (RelayInfo_SubscriptionPlanTitle r).
Definition set_RelayInfo_SubscriptionPreConsumed (v : Z) (r : RelayInfo) : RelayInfo :=
  mkRelayInfo (RelayInfo_UserId r) (RelayInfo_TokenId r) (RelayInfo_TokenKey r)
    (RelayInfo_TokenUnlimited r) (RelayInfo_IsPlayground r)
    (RelayInfo_ForcePreConsume r) (RelayInfo_RequestId r)
    (RelayInfo_OriginModelName r) (RelayInfo_BillingPreference r)
    (RelayInfo_QuotaWarningThreshold r) (RelayInfo_UserQuota r)
    (RelayInfo_FinalPreConsumedQuota r) (RelayInfo_BillingSource r)
    (RelayInfo_SubscriptionId r) v (RelayInfo_SubscriptionPostDelta r)
    (RelayInfo_SubscriptionAmountTotal r)
    (RelayInfo_SubscriptionAmountUsedAfterPreConsume r)
    (RelayInfo_SubscriptionPlanId r) (RelayInfo_SubscriptionPlanTitle r).
Definition set_RelayInfo_SubscriptionPostDelta (v : Z) (r : RelayInfo) : RelayInfo :=
  mkRelayInfo (RelayInfo_UserId r) (RelayInfo_TokenId r) (RelayInfo_TokenKey r)
    (RelayInfo_TokenUnlimited r) (RelayInfo_IsPlayground r)
    (RelayInfo_ForcePreConsume r) (RelayInfo_RequestId r)
    (RelayInfo_OriginModelName r) (RelayInfo_BillingPreference r)
    (RelayInfo_QuotaWarningThreshold r) (RelayInfo_UserQuota r)
    (RelayInfo_FinalPreConsumedQuota r) (RelayInfo_BillingSource r)
    (RelayInfo_SubscriptionId r) (RelayInfo_SubscriptionPreConsumed r) v
    (RelayInfo_SubscriptionAmountTotal r)
    (RelayInfo_SubscriptionAmountUsedAfterPreConsume r)
    (RelayInfo_SubscriptionPlanId r) (RelayInfo_SubscriptionPlanTitle r).
Definition set_RelayInfo_SubscriptionAmountTotal (v : Z) (r : RelayInfo) : RelayInfo :=
  mkRelayInfo (RelayInfo_UserId r) (RelayInfo_TokenId r) (RelayInfo_TokenKey r)
    (RelayInfo_TokenUnlimited r) (RelayInfo_IsPlayground r)
    (RelayInfo_ForcePreConsume r) (RelayInfo_RequestId r)
    (RelayInfo_OriginModelName r) (RelayInfo_BillingPreference r)
    (RelayInfo_QuotaWarningThreshold r) (RelayInfo_UserQuota r)
    (RelayInfo_FinalPreConsumedQuota r) (RelayInfo_BillingSource r)
    (RelayInfo_SubscriptionId r) (RelayInfo_SubscriptionPreConsumed r)
    (RelayInfo_SubscriptionPostDelta r) v
    (RelayInfo_SubscriptionAmountUsedAfterPreConsume r)
    (RelayInfo_SubscriptionPlanId r) (RelayInfo_SubscriptionPlanTitle r).
Definition set_RelayInfo_SubscriptionAmountUsedAfterPreConsume (v : Z) (r : RelayInfo) : RelayInfo :=
  mkRelayInfo (RelayInfo_UserId r) (RelayInfo_TokenId r) (RelayInfo_TokenKey r)
    (RelayInfo_TokenUnlimited r) (RelayInfo_IsPlayground r)
    (RelayInfo_ForcePreConsume r) (RelayInfo_RequestId r)
    (RelayInfo_OriginModelName r) (RelayInfo_BillingPreference r)
    (RelayInfo_QuotaWarningThreshold r) (RelayInfo_UserQuota r)
    (RelayInfo_FinalPreConsumedQuota r) (RelayInfo_BillingSource r)
    (RelayInfo_SubscriptionId r) (RelayInfo_SubscriptionPreConsumed r)
    (RelayInfo_SubscriptionPostDelta r) (RelayInfo_SubscriptionAmountTotal r) v
    (RelayInfo_SubscriptionPlanId r) (RelayInfo_SubscriptionPlanTitle r).
Definition set_RelayInfo_SubscriptionPlanId (v : Z) (r : RelayInfo) : RelayInfo :=
  mkRelayInfo (RelayInfo_UserId r) (RelayInfo_TokenId r) (RelayInfo_TokenKey r)
    (RelayInfo_TokenUnlimited r) (RelayInfo_IsPlayground r)
    (RelayInfo_ForcePreConsume r) (RelayInfo_RequestId r)
    (RelayInfo_OriginModelName r) (RelayInfo_BillingPreference r)
    (RelayInfo_QuotaWarningThreshold r) (RelayInfo_UserQuota r)
    (RelayInfo_FinalPreConsumedQuota r) (RelayInfo_BillingSource r)
    (RelayInfo_SubscriptionId r) (RelayInfo_SubscriptionPreConsumed r)
    (RelayInfo_SubscriptionPostDelta r) (RelayInfo_SubscriptionAmountTotal r)
    (RelayInfo_SubscriptionAmountUsedAfterPreConsume r) v
    (RelayInfo_SubscriptionPlanTitle r).
Definition set_RelayInfo_SubscriptionPlanTitle (v : string) (r : RelayInfo) : RelayInfo :=
  mkRelayInfo (RelayInfo_UserId r) (RelayInfo_TokenId r) (RelayInfo_TokenKey r)
    (RelayInfo_TokenUnlimited r) (RelayInfo_IsPlayground r)
    (RelayInfo_ForcePreConsume r) (RelayInfo_RequestId r)
    (RelayInfo_OriginModelName r) (RelayInfo_BillingPreference r)
    (RelayInfo_QuotaWarningThreshold r) (RelayInfo_UserQuota r)
    (RelayInfo_FinalPreConsumedQuota r) (RelayInfo_BillingSource r)
    (RelayInfo_SubscriptionId r) (RelayInfo_SubscriptionPreConsumed r)
    (RelayInfo_SubscriptionPostDelta r) (RelayInfo_SubscriptionAmountTotal r)
    (RelayInfo_SubscriptionAmountUsedAfterPreConsume r)
    (RelayInfo_SubscriptionPlanId r) v.

(** [service.WalletFunding] *)
Record WalletFunding : Type := mkWalletFunding {
  WalletFunding_userId : Z;
  WalletFunding_consumed : Z;
}.
Definition set_WalletFunding_consumed (v : Z) (r : WalletFunding) : WalletFunding :=
  mkWalletFunding (WalletFunding_userId r) v.

(** [service.SubscriptionFunding] *)
Record SubscriptionFunding : Type := mkSubscriptionFunding {
  SubscriptionFunding_requestId : string;
  SubscriptionFunding_userId : Z;
  SubscriptionFunding_modelName : string;
  SubscriptionFunding_amount : Z;
  SubscriptionFunding_subscriptionId : Z;
  SubscriptionFunding_preConsumed : Z;
  SubscriptionFunding_AmountTotal : Z;
  SubscriptionFunding_AmountUsedAfter : Z;
  SubscriptionFunding_PlanId : Z;
  SubscriptionFunding_PlanTitle : string;
}.
Definition set_SubscriptionFunding_subscriptionId (v : Z) (r : SubscriptionFunding) : SubscriptionFunding :=
  mkSubscriptionFunding (SubscriptionFunding_requestId r) (SubscriptionFunding_userId r)
    (SubscriptionFunding_modelName r) (SubscriptionFunding_amount r) v
    (SubscriptionFunding_preConsumed r) (SubscriptionFunding_AmountTotal r)
    (SubscriptionFunding_AmountUsedAfter r) (SubscriptionFunding_PlanId r)
    (SubscriptionFunding_PlanTitle r).
Definition set_SubscriptionFunding_preConsumed (v : Z) (r : SubscriptionFunding) : SubscriptionFunding :=
  mkSubscriptionFunding (SubscriptionFunding_requestId r) (SubscriptionFunding_userId r)
    (SubscriptionFunding_modelName r) (SubscriptionFunding_amount r)
    (SubscriptionFunding_subscriptionId r) v (SubscriptionFunding_AmountTotal r)
    (SubscriptionFunding_AmountUsedAfter r) (SubscriptionFunding_PlanId r)
    (SubscriptionFunding_PlanTitle r).
Definition set_SubscriptionFunding_AmountTotal (v : Z) (r : SubscriptionFunding) : SubscriptionFunding :=
  mkSubscriptionFunding (SubscriptionFunding_requestId r) (SubscriptionFunding_userId r)
    (SubscriptionFunding_modelName r) (SubscriptionFunding_amount r)
    (SubscriptionFunding_subscriptionId r) (SubscriptionFunding_preConsumed r) v
    (SubscriptionFunding_AmountUsedAfter r) (SubscriptionFunding_PlanId r)
    (SubscriptionFunding_PlanTitle r).
Definition set_SubscriptionFunding_AmountUsedAfter (v : Z) (r : SubscriptionFunding) : SubscriptionFunding :=
  mkSubscriptionFunding (SubscriptionFunding_requestId r) (SubscriptionFunding_userId r)
    (SubscriptionFunding_modelName r) (SubscriptionFunding_amount r)
    (SubscriptionFunding_subscriptionId r) (SubscriptionFunding_preConsumed r)
    (SubscriptionFunding_AmountTotal r) v (SubscriptionFunding_PlanId r)
    (SubscriptionFunding_PlanTitle r).
Definition set_SubscriptionFunding_PlanId (v : Z) (r : SubscriptionFunding) : SubscriptionFunding :=
  mkSubscriptionFunding (SubscriptionFunding_requestId r) (SubscriptionFunding_userId r)
    (SubscriptionFunding_modelName r) (SubscriptionFunding_amount r)
    (SubscriptionFunding_subscriptionId r) (SubscriptionFunding_preConsumed r)
    (SubscriptionFunding_AmountTotal r) (SubscriptionFunding_AmountUsedAfter r)
    v (SubscriptionFunding_PlanTitle r).
Definition set_SubscriptionFunding_PlanTitle (v : string) (r : SubscriptionFunding) : SubscriptionFunding :=
  mkSubscriptionFunding (SubscriptionFunding_requestId r) (SubscriptionFunding_userId r)
    (SubscriptionFunding_modelName r) (SubscriptionFunding_amount r)
    (SubscriptionFunding_subscriptionId r) (SubscriptionFunding_preConsumed r)
    (SubscriptionFunding_AmountTotal r) (SubscriptionFunding_AmountUsedAfter r)
    (SubscriptionFunding_PlanId r) v.

(** The two implementations of [service.FundingSource]. *)
Inductive FundingSource : Type :=
| Wallet (w : WalletFunding)
| Subscription (s : SubscriptionFunding).

(** The values captured by the goroutine of [BillingSession.Refund]. *)
Record RefundJob : Type := mkRefundJob {
  RefundJob_tokenId : Z;
  RefundJob_tokenKey : string;
  RefundJob_isPlayground : bool;
  RefundJob_tokenConsumed : Z;
  RefundJob_extraReserved : Z;
  RefundJob_subscriptionId : Z;
  RefundJob_funding : FundingSource;
}.

(** Work handed to [gopool.Go]: it runs later, in any order, once each. *)
Inductive Job : Type :=
| JIncrUserQuota (userId delta : Z)
| JUpdateUserQuotaCache (userId quota : Z)
| JUpdateUserNameCache (userId : Z) (username : string)
| JPopulateUserCache (userId : Z) (u : User)
| JIncrTokenQuota (key : string) (delta : Z)
| JSetToken (t : Token)
| JRefund (r : RefundJob)
| JReturnQuota (info : RelayInfo)
| JQuotaNotify (info : RelayInfo) (quota preConsumedQuota : Z)
| JSubscriptionQuotaNotify (info : RelayInfo).

(** [model.TwoFA]; times are seconds of the process's clock. *)
Record TwoFA : Type := mkTwoFA {
  TwoFA_Id : Z;
  TwoFA_UserId : Z;
  TwoFA_Secret : string;
  TwoFA_IsEnabled : bool;
  TwoFA_FailedAttempts : Z;
  TwoFA_LockedUntil : option Z;
  TwoFA_LastUsedAt : option Z;
}.

(** [model.TwoFABackupCode]; the id is the key, [Deleted] the deletion mark. *)
Record TwoFABackupCode : Type := mkTwoFABackupCode {
  TwoFABackupCode_UserId : Z;
  TwoFABackupCode_CodeHash : string;
  TwoFABackupCode_IsUsed : bool;
  TwoFABackupCode_UsedAt : option Z;
  TwoFABackupCode_Deleted : bool;
}.

(** [model.UserOAuthBinding] *)
Record UserOAuthBinding : Type := mkUserOAuthBinding {
  UserOAuthBinding_UserId : Z;
  UserOAuthBinding_ProviderId : Z;
  UserOAuthBinding_ProviderUserId : string;
}.

(** [model.CasbinRule]; the table is kept in the order of its ids. *)
Record CasbinRule : Type := mkCasbinRule {
  CasbinRule_Ptype : string;
  CasbinRule_V0 : string;
  CasbinRule_V1 : string;
  CasbinRule_V2 : string;
  CasbinRule_V3 : string;
  CasbinRule_V4 : string;
  CasbinRule_V5 : string;
}.
#[export] Instance CasbinRule_eq_dec : EqDecision CasbinRule.
Proof. solve_decision. Defined.

(** [model.AuthzRole], keyed by its unique key. *)
Record AuthzRole : Type := mkAuthzRole {
  AuthzRole_Name : string;
  AuthzRole_Description : string;
  AuthzRole_BuiltIn : bool;
  AuthzRole_Enabled : bool;
  AuthzRole_Sort : Z;
}.

(** The database.  A table is a map from its unique key: users, tokens, plans
    and subscriptions by id, pre-consume records by request id, orders and
    top-ups by trade number, redemption codes by key, check-ins by user and day,
    second factors by user.  [users] holds the rows that are not deleted, which
    the ordinary queries see; [deleted_users] those a soft delete marked. *)
Record Tables : Type := mkTables {
  Tables_users : gmap Z User;
  Tables_tokens : gmap Z Token;
  Tables_channel_used : gmap Z Z;
  Tables_plans : gmap Z SubscriptionPlan;
  Tables_subs : gmap Z UserSubscription;
  Tables_next_sub : Z;
  Tables_records : gmap string SubscriptionPreConsumeRecord;
  Tables_orders : gmap string SubscriptionOrder;
  Tables_topups : gmap string TopUp;
  Tables_redemptions : gmap string Redemption;
  Tables_checkins : gmap (Z * string) Checkin;
  Tables_logs : list Log;
  Tables_deleted_users : gmap Z User;
  Tables_next_user : Z;
  Tables_twofas : gmap Z TwoFA;
  Tables_next_twofa : Z;
  Tables_backup_codes : gmap Z TwoFABackupCode;
  Tables_next_backup_code : Z;
  Tables_oauth_bindings : list UserOAuthBinding;
  Tables_rules : list CasbinRule;
  Tables_roles : gmap string AuthzRole;
  Tables_deleted_tokens : gmap Z Token;
  Tables_next_token : Z;
}.
Definition set_Tables_users (v : gmap Z User) (r : Tables) : Tables :=
  {| r with Tables_users := v |}.
Definition set_Tables_tokens (v : gmap Z Token) (r : Tables) : Tables :=
  {| r with Tables_tokens := v |}.
Definition set_Tables_channel_used (v : gmap Z Z) (r : Tables) : Tables :=
  {| r with Tables_channel_used := v |}.
Definition set_Tables_plans (v : gmap Z SubscriptionPlan) (r : Tables) : Tables :=
  {| r with Tables_plans := v |}.
Definition set_Tables_subs (v : gmap Z UserSubscription) (r : Tables) : Tables :=
  {| r with Tables_subs := v |}.
Definition set_Tables_next_sub (v : Z) (r : Tables) : Tables :=
  {| r with Tables_next_sub := v |}.
Definition set_Tables_records (v : gmap string SubscriptionPreConsumeRecord) (r : Tables) : Tables :=
  {| r with Tables_records := v |}.
Definition set_Tables_orders (v : gmap string SubscriptionOrder) (r : Tables) : Tables :=
  {| r with Tables_orders := v |}.
Definition set_Tables_topups (v : gmap string TopUp) (r : Tables) : Tables :=
  {| r with Tables_topups := v |}.
Definition set_Tables_redemptions (v : gmap string Redemption) (r : Tables) : Tables :=
  {| r with Tables_redemptions := v |}.
Definition set_Tables_checkins (v : gmap (Z * string) Checkin) (r : Tables) : Tables :=
  {| r with Tables_checkins := v |}.
Definition set_Tables_logs (v : list Log) (r : Tables) : Tables :=
  {| r with Tables_logs := v |}.
Definition set_Tables_deleted_users (v : gmap Z User) (r : Tables) : Tables :=
  {| r with Tables_deleted_users := v |}.
Definition set_Tables_next_user (v : Z) (r : Tables) : Tables :=
  {| r with Tables_next_user := v |}.
Definition set_Tables_twofas (v : gmap Z TwoFA) (r : Tables) : Tables :=
  {| r with Tables_twofas := v |}.
Definition set_Tables_next_twofa (v : Z) (r : Tables) : Tables :=
  {| r with Tables_next_twofa := v |}.
Definition set_Tables_backup_codes (v : gmap Z TwoFABackupCode) (r : Tables) : Tables :=
  {| r with Tables_backup_codes := v |}.
Definition set_Tables_next_backup_code (v : Z) (r : Tables) : Tables :=
  {| r with Tables_next_backup_code := v |}.
Definition set_Tables_oauth_bindings (v : list UserOAuthBinding) (r : Tables) : Tables :=
  {| r with Tables_oauth_bindings := v |}.
Definition set_Tables_rules (v : list CasbinRule) (r : Tables) : Tables :=
  {| r with Tables_rules := v |}.
Definition set_Tables_roles (v : gmap string AuthzRole) (r : Tables) : Tables :=
  {| r with Tables_roles := v |}.
Definition set_Tables_deleted_tokens (v : gmap Z Token) (r : Tables) : Tables :=
  {| r with Tables_deleted_tokens := v |}.
Definition set_Tables_next_token (v : Z) (r : Tables) : Tables :=
  {| r with Tables_next_token := v |}.

(** The state the handlers share: the database, the in-memory batch stores, the
    caches, the goroutines still to run, the faults to come, the clocks of the
    process and of the database server, the policies the authorization enforcer
    has loaded (none before it is initialised) and the verification codes. *)
Record World : Type := mkWorld {
  World_db : Tables;
  World_batch : list (gmap Z Z);
  World_redis_users : gmap Z UserBase;
  World_redis_tokens : gmap string Token;
  World_plan_cache : gmap Z SubscriptionPlan;
  World_plan_info_cache : gmap Z (Z * string);
  World_jobs : list Job;
  World_faults : list (option string);
  World_now : Z;
  World_db_now : Z;
  World_enforcer : option (list (list string));
  World_codes : gmap string (string * Z);
}.
Definition set_World_db (v : Tables) (r : World) : World :=
  {| r with World_db := v |}.
Definition set_World_batch (v : list (gmap Z Z)) (r : World) : World :=
  {| r with World_batch := v |}.
Definition set_World_redis_users (v : gmap Z UserBase) (r : World) : World :=
  {| r with World_redis_users := v |}.
Definition set_World_redis_tokens (v : gmap string Token) (r : World) : World :=
  {| r with World_redis_tokens := v |}.
Definition set_World_plan_cache (v : gmap Z SubscriptionPlan) (r : World) : World :=
  {| r with World_plan_cache := v |}.
Definition set_World_plan_info_cache (v : gmap Z (Z * string)) (r : World) : World :=
  {| r with World_plan_info_cache := v |}.
Definition set_World_jobs (v : list Job) (r : World) : World :=
  {| r with World_jobs := v |}.
Definition set_World_faults (v : list (option string)) (r : World) : World :=
  {| r with World_faults := v |}.
Definition set_World_now (v : Z) (r : World) : World :=
  {| r with World_now := v |}.
Definition set_World_db_now (v : Z) (r : World) : World :=
  {| r with World_db_now := v |}.
Definition set_World_enforcer (v : option (list (list string))) (r : World) : World :=
  {| r with World_enforcer := v |}.
Definition set_World_codes (v : gmap string (string * Z)) (r : World) : World :=
  {| r with World_codes := v |}.
