(* ===== verification/Store.v ===== *)
(** * Store: the shared state behind the handlers

    [World] is the state the monad of [Effects] runs on: a statement of the
    database or of Redis takes one entry of the fault list, a transaction that
    fails puts the database back and nothing else (the in-memory stores, the
    caches and the goroutines already started stay).  The rows of a table are
    addressed by its unique column.  Arithmetic inside SQL expressions is exact;
    Go's own arithmetic wraps around. *)

From stdpp Require Export sorting.
From S2P Require Export Prelude Effects GoNum Records.

(** ** Configuration *)

(** The process-wide settings the billing core reads.  [map_order] is the order
    in which a [range] loop visits the keys of a Go map, which the language
    leaves open. *)
Class Config := {
  RedisEnabled : bool;
  BatchUpdateEnabled : bool;
  LogConsumeEnabled : bool;
  QuotaPerUnit : float64;
  QuotaRemindThreshold : Z;
  map_order : gset Z -> list Z;
}.

Class ConfigLaws (C : Config) := {
  map_order_perm : ∀ X, map_order X ≡ₚ elements X;
}.

(** ** The world as a store *)

#[export] Instance world_store : Store World := {|
  st_faults := World_faults;
  st_set_faults := set_World_faults;
  st_rollback before after := set_World_db (World_db before) after;
|}.

#[export] Instance world_store_laws : StoreLaws World.
Proof. split. by intros []. Qed.

Abbreviation GM := (M World).

(** Apply a table update to the database. *)
Definition on_db (f : Tables -> Tables) (w : World) : World :=
  set_World_db (f (World_db w)) w.

(** [UPDATE users SET ... WHERE id = ?] and its likes: no effect when the row is
    missing. *)
Definition upd_user (id : Z) (f : User -> User) (t : Tables) : Tables :=
  set_Tables_users (alter f id (Tables_users t)) t.
Definition upd_token (id : Z) (f : Token -> Token) (t : Tables) : Tables :=
  set_Tables_tokens (alter f id (Tables_tokens t)) t.
Definition upd_channel (id : Z) (f : Z -> Z) (t : Tables) : Tables :=
  set_Tables_channel_used (alter f id (Tables_channel_used t)) t.

(** [Save] and [Create] of a row under its key. *)
Definition put_sub (s : UserSubscription) (t : Tables) : Tables :=
  set_Tables_subs (<[UserSubscription_Id s := s]> (Tables_subs t)) t.
Definition put_record (r : SubscriptionPreConsumeRecord) (t : Tables) : Tables :=
  set_Tables_records (<[SubscriptionPreConsumeRecord_RequestId r := r]> (Tables_records t)) t.
Definition put_order (o : SubscriptionOrder) (t : Tables) : Tables :=
  set_Tables_orders (<[SubscriptionOrder_TradeNo o := o]> (Tables_orders t)) t.
Definition put_topup (o : TopUp) (t : Tables) : Tables :=
  set_Tables_topups (<[TopUp_TradeNo o := o]> (Tables_topups t)) t.
Definition put_redemption (r : Redemption) (t : Tables) : Tables :=
  set_Tables_redemptions (<[Redemption_Key r := r]> (Tables_redemptions t)) t.
Definition put_checkin (c : Checkin) (t : Tables) : Tables :=
  set_Tables_checkins
    (<[(Checkin_UserId c, Checkin_CheckinDate c) := c]> (Tables_checkins t)) t.

(** A row of [users], [tokens], ... *)
Definition user_row (id : Z) (w : World) : option User := Tables_users (World_db w) !! id.
Definition token_row (id : Z) (w : World) : option Token := Tables_tokens (World_db w) !! id.
Definition sub_row (id : Z) (w : World) : option UserSubscription :=
  Tables_subs (World_db w) !! id.
Definition record_row (k : string) (w : World) : option SubscriptionPreConsumeRecord :=
  Tables_records (World_db w) !! k.
Definition order_row (k : string) (w : World) : option SubscriptionOrder :=
  Tables_orders (World_db w) !! k.
Definition topup_row (k : string) (w : World) : option TopUp :=
  Tables_topups (World_db w) !! k.

(** A transaction whose closure also assigns a variable of the function around
    it: the assignment stays when the transaction fails. *)
Definition transaction_var {A V} (v : V) (body : GM (result A * V)) : GM (result A * V) := λ w,
  match update id w with
  | (Err e, w0) => (Ok (Err e, v), w0)
  | (Ok _, w0) =>
      match body w0 with
      | (Ok (Ok a, v'), w1) =>
          match update id w1 with
          | (Ok _, w2) => (Ok (Ok a, v'), w2)
          | (Err e, w2) => (Ok (Err e, v'), st_rollback w0 w2)
          end
      | (Ok (Err e, v'), w1) => (Ok (Err e, v'), st_rollback w0 w1)
      | (Err e, w1) => (Ok (Err e, v), st_rollback w0 w1)
      end
  end.

(** [INSERT] under a unique key: the driver reports a taken key as an error. *)
Definition create {A} (taken : World -> bool) (f : World -> A * World) : GM A :=
  exec (λ w, if taken w then (Err (EDriver "UNIQUE constraint failed"), w)
             else let '(a, w') := f w in (Ok a, w')).

(** [SELECT ... WHERE p ORDER BY le]: the rows of a table in the order of [le]. *)
Definition rows_where {A} (p : A -> bool) (le : A -> A -> bool) (m : gmap Z A) : list A :=
  merge_sort (λ x y, Is_true (le x y)) (List.filter p (map_to_list m).*2).

(** ** Clocks, goroutines *)

Definition GetTimestamp : GM Z := gets World_now.

(** [GetDBTimestamp]: the database's clock; the process's when the query fails
    or answers nothing positive. *)
Definition GetDBTimestamp : GM Z :=
  let! r := attempt (select World_db_now) in
  match r with
  | Ok ts => if ts <=? 0 then GetTimestamp else ret ts
  | Err _ => GetTimestamp
  end.

(** [gopool.Go]: the work is done later. *)
Definition go (j : Job) : GM unit := modify (λ w, set_World_jobs (World_jobs w ++ [j]) w).

(** Run [m] and drop its error ([_ = f()], or an error that is only logged). *)
Definition ignore {A} (m : GM A) : GM unit := do! attempt m in ret tt.

(** ** Lemmas *)

Lemma wp_create {A} taken (f : World -> A * World) Q w :
  (∀ msg fs, Q (Err (EDriver msg)) (set_World_faults fs w)) ->
  (∀ fs, taken (set_World_faults fs w) = false ->
     Q (Ok (f (set_World_faults fs w)).1) (f (set_World_faults fs w)).2) ->
  wp (create taken f) Q w.
Proof.
  intros He Hs. apply wp_exec; [exact He|]. intros fs. unfold wp; simpl.
  destruct (taken _) eqn:E; simpl; [apply He|].
  specialize (Hs _ E). by destruct (f _).
Qed.

Lemma wp_transaction_var {A V} (v : V) (body : GM (result A * V)) Q w :
  (∀ msg fs, Q (Ok (Err (EDriver msg), v)) (set_World_faults fs w)) ->
  (∀ fs0, let w0 := set_World_faults fs0 w in
    wp body (λ r w1,
      match r with
      | Ok (Ok a, v') =>
          (∀ fs, Q (Ok (Ok a, v')) (set_World_faults fs w1)) ∧
          (∀ msg fs, Q (Ok (Err (EDriver msg), v'))
             (set_World_db (World_db w) (set_World_faults fs w1)))
      | Ok (Err e, v') => Q (Ok (Err e, v')) (set_World_db (World_db w) w1)
      | Err e => Q (Ok (Err e, v)) (set_World_db (World_db w) w1)
      end) w0) ->
  wp (transaction_var v body) Q w.
Proof.
  intros He Hb. unfold wp, transaction_var, update, exec in *; simpl in *.
  assert (∀ fs0, Q (match body (set_World_faults fs0 w) with
      | (Ok (Ok a, v'), w1) =>
          match update id w1 with
          | (Ok _, w2) => (Ok (Ok a, v'), w2)
          | (Err e, w2) => (Ok (Err e, v'), set_World_db (World_db w) w2)
          end
      | (Ok (Err e, v'), w1) => (Ok (Err e, v'), set_World_db (World_db w) w1)
      | (Err e, w1) => (Ok (Err e, v), set_World_db (World_db w) w1)
      end).1 (match body (set_World_faults fs0 w) with
      | (Ok (Ok a, v'), w1) =>
          match update id w1 with
          | (Ok _, w2) => (Ok (Ok a, v'), w2)
          | (Err e, w2) => (Ok (Err e, v'), set_World_db (World_db w) w2)
          end
      | (Ok (Err e, v'), w1) => (Ok (Err e, v'), set_World_db (World_db w) w1)
      | (Err e, w1) => (Ok (Err e, v), set_World_db (World_db w) w1)
      end).2) as Hbody.
  { intros fs0. specialize (Hb fs0).
    destruct (body _) as [[[[a|e] v']|e] w1]; simpl in *; try done.
    destruct Hb as [Hok Herr]. unfold update, exec; simpl.
    destruct (World_faults w1) as [|[msg|] fs] eqn:E; simpl; [|apply Herr|apply Hok].
    specialize (Hok []). rewrite <- E in Hok. by destruct w1. }
  destruct (World_faults w) as [|[msg|] fs] eqn:E; simpl.
  - specialize (Hbody []). rewrite <- E in Hbody. by destruct w.
  - apply He.
  - apply Hbody.
Qed.

Lemma wp_ignore {A} (m : GM A) Q w :
  wp m (λ _ w', Q (Ok tt) w') w -> wp (ignore m) Q w.
Proof. intros H. apply wp_bind, wp_attempt. exact H. Qed.

Lemma wp_go j Q w :
  Q (Ok tt) (set_World_jobs (World_jobs w ++ [j]) w) -> wp (go j) Q w.
Proof. done. Qed.

(** The clock query takes at most one fault and changes nothing else. *)
Lemma wp_GetDBTimestamp Q w :
  (∀ ts fs, ts = World_now w ∨ ts = World_db_now w ∧ 0 < ts -> Q (Ok ts) (set_World_faults fs w)) ->
  wp GetDBTimestamp Q w.
Proof.
  intros HQ. apply wp_bind, wp_attempt, wp_select; intros; simpl.
  - apply wp_gets; simpl. by apply HQ; left.
  - destruct (World_db_now w <=? 0) eqn:E.
    + apply wp_gets; simpl. by apply HQ; left.
    + apply wp_ret, HQ. right. split; [done|lia].
Qed.

#[export] Instance rows_le_dec {A} (le : A -> A -> bool) x y : Decision (Is_true (le x y)).
Proof. apply _. Defined.

Lemma elem_of_rows_where {A} p le (m : gmap Z A) x :
  x ∈ rows_where p le m <-> p x = true ∧ ∃ k, m !! k = Some x.
Proof.
  unfold rows_where. rewrite merge_sort_Permutation, !list_elem_of_In, filter_In.
  rewrite <- list_elem_of_In, list_elem_of_fmap.
  split.
  - intros [([k y] & -> & Hk) Hp]. apply elem_of_map_to_list in Hk. eauto.
  - intros [Hp [k Hk]]. split; [|done]. exists (k, x). split; [done|].
    by apply elem_of_map_to_list.
Qed.

(** The rows come sorted when the order is total and transitive. *)
Lemma rows_where_sorted {A} p le (m : gmap Z A) :
  (∀ x y, le x y = true ∨ le y x = true) ->
  (∀ x y z, le x y = true -> le y z = true -> le x z = true) ->
  StronglySorted (λ x y, le x y = true) (rows_where p le m).
Proof.
  intros Htot Htr.
  assert (Transitive (λ x y, Is_true (le x y))).
  { intros x y z Hx Hy. apply Is_true_true in Hx, Hy. apply Is_true_true. eauto. }
  assert (Total (λ x y, Is_true (le x y))).
  { intros x y. destruct (Htot x y); [left|right]; by apply Is_true_true. }
  assert (∀ l, StronglySorted (λ x y, Is_true (le x y)) l ->
    StronglySorted (λ x y, le x y = true) l) as Hl.
  { intros l. induction 1 as [|x l ? IH Hx]; constructor; [done|].
    eapply Forall_impl; [exact Hx|]. intros y. apply Is_true_true. }
  apply Hl, StronglySorted_merge_sort; apply _.
Qed.

(** ** Without faults

    The rules for a world in which no statement fails. *)

Definition no_faults (w : World) : Prop := World_faults w = [].

Lemma wp_exec_nf {A} (f : World -> result A * World) Q w :
  no_faults w -> wp f Q w -> wp (exec f) Q w.
Proof. intros Hn H. unfold wp. by rewrite exec_no_faults. Qed.

Lemma wp_update_nf f Q w : no_faults w -> Q (Ok tt) (f w) -> wp (update f) Q w.
Proof. intros. by apply wp_exec_nf. Qed.

Lemma wp_select_nf {A} (f : World -> A) Q w :
  no_faults w -> Q (Ok (f w)) w -> wp (select f) Q w.
Proof. intros. by apply wp_exec_nf. Qed.

Lemma wp_first_nf {A} (f : World -> option A) Q w :
  no_faults w ->
  match f w with Some a => Q (Ok a) w | None => Q (Err ERecordNotFound) w end ->
  wp (first f) Q w.
Proof. intros ? H. apply wp_exec_nf; [done|]. unfold wp. by destruct (f w). Qed.

Lemma wp_create_nf {A} taken (f : World -> A * World) Q w :
  no_faults w ->
  (taken w = true -> Q (Err (EDriver "UNIQUE constraint failed")) w) ->
  (taken w = false -> Q (Ok (f w).1) (f w).2) -> wp (create taken f) Q w.
Proof.
  intros ? Ht Hf. apply wp_exec_nf; [done|]. unfold wp; simpl.
  destruct (taken w); [by apply Ht|]. specialize (Hf eq_refl). by destruct (f w).
Qed.

Lemma wp_transaction_with_nf {A} undo (body : GM A) Q w :
  no_faults w ->
  wp body (λ r w1, match r with
                   | Ok a => no_faults w1 ∧ Q (Ok a) w1
                   | Err e => Q (Err e) (undo w w1)
                   end) w ->
  wp (transaction_with undo body) Q w.
Proof.
  intros Hn H. apply wp_bind, wp_update_nf; [done|]. unfold wp in *.
  change (id w) with w. destruct (body w) as [[a|e] w1]; simpl in *; [|done].
  destruct H as [Hn1 HQ]. unfold update, exec, no_faults in *; simpl. by rewrite Hn1.
Qed.

Lemma wp_transaction_nf {A} (body : GM A) Q w :
  no_faults w ->
  wp body (λ r w1, match r with
                   | Ok a => no_faults w1 ∧ Q (Ok a) w1
                   | Err e => Q (Err e) (set_World_db (World_db w) w1)
                   end) w ->
  wp (transaction body) Q w.
Proof. exact (wp_transaction_with_nf st_rollback body Q w). Qed.

Lemma wp_GetDBTimestamp_nf Q w :
  no_faults w ->
  Q (Ok (if World_db_now w <=? 0 then World_now w else World_db_now w)) w ->
  wp GetDBTimestamp Q w.
Proof.
  intros ? H. apply wp_bind, wp_attempt, wp_select_nf; [done|].
  by destruct (World_db_now w <=? 0).
Qed.

(** A loop whose rounds are total functions is a fold. *)
Lemma for_each_fold {A} (f : A -> GM unit) (g : A -> World -> World) l w :
  (∀ x w, no_faults w -> f x w = (Ok tt, g x w)) ->
  (∀ x w, no_faults w -> no_faults (g x w)) ->
  no_faults w -> for_each f l w = (Ok tt, foldl (λ w x, g x w) w l).
Proof.
  intros Hf Hg. revert w. induction l as [|x l IH]; intros w Hn; [done|].
  simpl. unfold bind. rewrite Hf by done. by apply IH, Hg.
Qed.

Ltac nf_side := solve [assumption | done | unfold no_faults in *; simpl in *; assumption].

(** [nfwp]: walk through a program in a world without faults. *)
Ltac nfwp_step :=
  lazymatch goal with
  | |- wp (ignore _) _ _ => apply wp_ignore
  | |- wp (go _) _ _ => apply wp_go
  | |- wp GetDBTimestamp _ _ => apply wp_GetDBTimestamp_nf; [nf_side|]
  | |- wp GetTimestamp _ _ => apply wp_gets
  | |- wp (update _) _ _ => apply wp_update_nf; [nf_side|]
  | |- wp (select _) _ _ => apply wp_select_nf; [nf_side|]
  | |- wp (first _) _ _ => apply wp_first_nf; [nf_side|]
  | |- wp (create _ _) _ _ => apply wp_create_nf; [nf_side|intros|intros]
  | |- wp (transaction _) _ _ => apply wp_transaction_nf; [nf_side|]
  | _ => wp_step
  end.
Ltac nfwp := repeat (nfwp_step; simpl).

(** The steps the components use on top of those of [Effects]. *)
Ltac gwp_step :=
  lazymatch goal with
  | |- wp (ignore _) _ _ => apply wp_ignore
  | |- wp (go _) _ _ => apply wp_go
  | |- wp GetDBTimestamp _ _ => apply wp_GetDBTimestamp; intros
  | |- wp GetTimestamp _ _ => apply wp_gets
  | |- wp (create _ _) _ _ => apply wp_create; intros
  | |- wp (transaction_var _ _) _ _ => apply wp_transaction_var; intros
  | _ => wp_step
  end.
Ltac gwp := repeat (gwp_step; simpl).
