(* ===== verification/Samples.v ===== *)
(** * Samples: a concrete deployment and state

    A configuration and a small world on which the definitions are evaluated:
    two users, a token, a plan, two subscriptions, an order, a top-up. *)

From S2P Require Export Store.

Definition sample_config (redis batch : bool) : Config := {|
  RedisEnabled := redis;
  BatchUpdateEnabled := batch;
  LogConsumeEnabled := true;
  QuotaPerUnit := float_of_int 500000;
  QuotaRemindThreshold := 1000;
  map_order := elements;
|}.

Lemma sample_config_laws redis batch : ConfigLaws (sample_config redis batch).
Proof. split. intros X. reflexivity. Qed.

Definition sample_user (quota : Z) : User := 
  mkUser "alice" quota 0 0 "default" "" "" 0 0 0 "" "alice" 1 1 "" "" "" "" "" "" None "" 0 "" "" 0.

Definition sample_token : Token := 
  mkToken 5 1 "key" 1 0 (-1) 1000 false 0 "mine" 0 false "" None "" false.

Definition monthly_plan : SubscriptionPlan :=
  mkSubscriptionPlan 7 "Pro" (float_of_int 10) "month" 1 0 true None None 1 "vip" "" 1000
    "never" 0.

Definition sample_sub (id used endTime : Z) : UserSubscription :=
  mkUserSubscription id 1 7 1000 used 1700000000 endTime "active" "order" 0 0 "" "" "" true
    1700000000 1700000000.

Definition sample_record (amount : Z) : SubscriptionPreConsumeRecord :=
  mkSubscriptionPreConsumeRecord "req" 1 1 amount "consumed" 1700000000 1700000000.

Definition sample_order (status : string) : SubscriptionOrder :=
  mkSubscriptionOrder 2 7 (float_of_int 10) "T1" "stripe" "stripe" status 1700000000 0 "".

Definition sample_topup (status : string) : TopUp :=
  mkTopUp 1 20 (float_of_int 20) "T2" "stripe" "stripe" 1700000000 0 status.

Definition sample_tables : Tables := mkTables
  {[1 := sample_user 6000000; 2 := sample_user 10]} {[5 := sample_token]} {[9 := 0]}
  {[7 := monthly_plan]}
  {[1 := sample_sub 1 400 1710000000; 2 := sample_sub 2 950 1705000000]} 3
  {["req" := sample_record 100]} {["T1" := sample_order "pending"]}
  {["T2" := sample_topup "pending"]} ∅ ∅ [] ∅ 3 ∅ 1 ∅ 1 [] [] ∅ ∅ 6.

Definition sample_world : World := mkWorld sample_tables
  (replicate 5 ∅) ∅ ∅ ∅ ∅ [] [] 1701000000 1701000000 None ∅.
