(* ===== verification/Quota.v ===== *)
(** * Quota: balances of users, tokens and channels

    Models [model/utils.go] (the batch updater), the quota operations of
    [model/user.go], [model/token.go] and [model/channel.go], and the Redis
    caches of [model/user_cache.go] and [model/token_cache.go].

    A balance can be changed in two ways: directly in the database, or, when
    [BatchUpdateEnabled] is set, by adding the amount to an in-memory store that
    [batchUpdate] writes to the database later.  The abstract specification is a
    ledger of balances to which an operation adds an amount at once; the
    refinement theorem says that the effective balance, the database row plus
    what is pending, is that ledger in either mode. *)

From S2P Require Export Store.

Section quota.
Context {CFG : Config}.

(** ** Batch stores ([model/utils.go]) *)

Definition BatchUpdateTypeUserQuota : nat := 0.
Definition BatchUpdateTypeTokenQuota : nat := 1.
Definition BatchUpdateTypeUsedQuota : nat := 2.
Definition BatchUpdateTypeChannelUsedQuota : nat := 3.
Definition BatchUpdateTypeRequestCount : nat := 4.
Definition BatchUpdateTypeCount : nat := 5.

(** The stores [init] makes. *)
Definition empty_stores : list (gmap Z Z) := replicate BatchUpdateTypeCount ∅.

Definition addNewRecord (type_ : nat) (id value : Z) : GM unit :=
  modify (λ w, set_World_batch
    (alter (λ store, match store !! id with
                     | None => <[id := value]> store
                     | Some old => <[id := wrap64 (old + value)]> store
                     end) type_ (World_batch w)) w).

Definition shouldUpdateRedis {A} (fromDB : bool) (r : result A) : bool :=
  RedisEnabled && fromDB && is_ok r.

(** ** Redis caches

    A hash that exists in Redis is an entry of [redis_users] (key "user:id") or
    [redis_tokens] (key "token:hmac").  [RedisHIncrBy] and [RedisHSetField] ask
    for the key's time to live first and do nothing when the key is gone. *)

Definition ttl_failed : error -> error := EWrap "failed to get TTL: ".

Definition on_user_hash (userId : Z) (f : UserBase -> UserBase) : GM unit :=
  let! ttl := map_err ttl_failed (select (λ w, World_redis_users w !! userId)) in
  match ttl with
  | None => ret tt
  | Some _ => update (λ w, set_World_redis_users (alter f userId (World_redis_users w)) w)
  end.

Definition on_token_hash (key : string) (f : Token -> Token) : GM unit :=
  let! ttl := map_err ttl_failed (select (λ w, World_redis_tokens w !! key)) in
  match ttl with
  | None => ret tt
  | Some _ => update (λ w, set_World_redis_tokens (alter f key (World_redis_tokens w)) w)
  end.

Definition invalidateUserCache (userId : Z) : GM unit :=
  if RedisEnabled
  then update (λ w, set_World_redis_users (delete userId (World_redis_users w)) w)
  else ret tt.

Definition ToBaseUser (u : User) : UserBase :=
  mkUserBase (User_Username u) (User_Quota u) (User_Group u) (User_Email u) (User_Status u)
    (User_Setting u).

Definition populateUserCache (userId : Z) (u : User) : GM unit :=
  if RedisEnabled
  then update (λ w, set_World_redis_users
                      (<[userId := ToBaseUser u]> (World_redis_users w)) w)
  else ret tt.

Definition cacheGetUserBase (userId : Z) : GM UserBase :=
  if RedisEnabled
  then let! r := map_err (EWrap "failed to load hash from Redis: ")
                   (select (λ w, World_redis_users w !! userId)) in
       lift_option r (EText "key not found in Redis")
  else fail (EText "redis is not enabled").

Definition cacheIncrUserQuota (userId delta : Z) : GM unit :=
  if RedisEnabled
  then on_user_hash userId (λ u, set_UserBase_Quota (UserBase_Quota u + delta) u)
  else ret tt.

Definition cacheDecrUserQuota (userId delta : Z) : GM unit :=
  cacheIncrUserQuota userId (wrap64 (- delta)).

Definition updateUserQuotaCache (userId quota : Z) : GM unit :=
  if RedisEnabled then on_user_hash userId (set_UserBase_Quota quota) else ret tt.

Definition updateUserGroupCache (userId : Z) (group : string) : GM unit :=
  if RedisEnabled then on_user_hash userId (set_UserBase_Group group) else ret tt.

Definition updateUserNameCache (userId : Z) (name : string) : GM unit :=
  if RedisEnabled then on_user_hash userId (set_UserBase_Username name) else ret tt.

(** [Omit("password", "access_token")] *)
Definition omit_secrets (u : User) : User :=
  {| u with User_Password := ""; User_AccessToken := None |}.

Definition GetUserById (id : Z) (selectAll : bool) : GM User :=
  do! fail_if (id =? 0) (EText "id 为空！") in
  first (λ w, (if selectAll then user_row id w else omit_secrets <$> user_row id w)).

Definition GetUserCache (userId : Z) : GM UserBase :=
  let! r := attempt (cacheGetUserBase userId) in
  match r with
  | Ok u => ret u
  | Err _ =>
      let! u := GetUserById userId false in
      do! (if RedisEnabled then go (JPopulateUserCache userId u) else ret tt) in
      ret (ToBaseUser u)
  end.

Definition getUserQuotaCache (userId : Z) : GM Z :=
  let! c := GetUserCache userId in ret (UserBase_Quota c).
Definition getUserNameCache (userId : Z) : GM string :=
  let! c := GetUserCache userId in ret (UserBase_Username c).

(** The cached token has its key removed ([Token.Clean]). *)
Definition cacheSetToken (t : Token) : GM unit :=
  update (λ w, set_World_redis_tokens
    (<[Token_Key t := set_Token_Key "" t]> (World_redis_tokens w)) w).

Definition cacheDeleteToken (key : string) : GM unit :=
  update (λ w, set_World_redis_tokens (delete key (World_redis_tokens w)) w).

Definition cacheIncrTokenQuota (key : string) (increment : Z) : GM unit :=
  on_token_hash key (λ t, set_Token_RemainQuota (Token_RemainQuota t + increment) t).

Definition cacheDecrTokenQuota (key : string) (decrement : Z) : GM unit :=
  cacheIncrTokenQuota key (wrap64 (- decrement)).

Definition cacheGetTokenByKey (key : string) : GM Token :=
  if RedisEnabled
  then let! r := map_err (EWrap "failed to load hash from Redis: ")
                   (select (λ w, World_redis_tokens w !! key)) in
       let! t := lift_option r (EText "key not found in Redis") in
       ret (set_Token_Key key t)
  else fail (EText "redis is not enabled").

(** ** Users ([model/user.go]) *)

(** [GetUserQuota]: the cached quota, else the database's ([Find] of a scalar
    leaves zero when no row matches), which is then written to the cache. *)
Definition GetUserQuota (id : Z) (fromDB : bool) : GM Z :=
  let from_db :=
    let! quota := select (λ w, from_option User_Quota 0 (user_row id w)) in
    do! (if RedisEnabled then go (JUpdateUserQuotaCache id quota) else ret tt) in
    ret quota in
  if negb fromDB && RedisEnabled
  then let! r := attempt (getUserQuotaCache id) in
       match r with Ok quota => ret quota | Err _ => from_db end
  else from_db.

Definition GetUsernameById (id : Z) (fromDB : bool) : GM string :=
  let from_db :=
    let! name := select (λ w, from_option User_Username "" (user_row id w)) in
    do! (if RedisEnabled then go (JUpdateUserNameCache id name) else ret tt) in
    ret name in
  if negb fromDB && RedisEnabled
  then let! r := attempt (getUserNameCache id) in
       match r with Ok name => ret name | Err _ => from_db end
  else from_db.

Definition err_negative_quota : error := EText "quota 不能为负数！".

Definition increaseUserQuota (id quota : Z) : GM unit :=
  update (on_db (upd_user id (λ u, set_User_Quota (User_Quota u + quota) u))).

Definition decreaseUserQuota (id quota : Z) : GM unit :=
  update (on_db (upd_user id (λ u, set_User_Quota (User_Quota u - quota) u))).

Definition IncreaseUserQuota (id quota : Z) (db : bool) : GM unit :=
  do! fail_if (quota <? 0) err_negative_quota in
  do! go (JIncrUserQuota id quota) in
  if negb db && BatchUpdateEnabled
  then addNewRecord BatchUpdateTypeUserQuota id quota
  else increaseUserQuota id quota.

Definition DecreaseUserQuota (id quota : Z) (db : bool) : GM unit :=
  do! fail_if (quota <? 0) err_negative_quota in
  do! go (JIncrUserQuota id (wrap64 (- quota))) in
  if negb db && BatchUpdateEnabled
  then addNewRecord BatchUpdateTypeUserQuota id (wrap64 (- quota))
  else decreaseUserQuota id quota.

Definition DeltaUpdateUserQuota (id delta : Z) : GM unit :=
  if delta =? 0 then ret tt
  else if 0 <? delta then IncreaseUserQuota id delta false
  else DecreaseUserQuota id (wrap64 (- delta)) false.

Definition updateUserUsedQuotaAndRequestCount (id quota count : Z) : GM unit :=
  ignore (update (on_db (upd_user id (λ u,
    set_User_RequestCount (User_RequestCount u + count)
      (set_User_UsedQuota (User_UsedQuota u + quota) u))))).

Definition UpdateUserUsedQuotaAndRequestCount (id quota : Z) : GM unit :=
  if BatchUpdateEnabled
  then do! addNewRecord BatchUpdateTypeUsedQuota id quota in
       addNewRecord BatchUpdateTypeRequestCount id 1
  else updateUserUsedQuotaAndRequestCount id quota 1.

(** What one batch entry does to a user row. *)
Definition add_to_user (quota usedQuota requestCount : Z) (u : User) : User :=
  set_User_RequestCount (User_RequestCount u + requestCount)
    (set_User_UsedQuota (User_UsedQuota u + usedQuota)
      (set_User_Quota (User_Quota u + quota) u)).

Definition updateUserQuotaUsedQuotaAndRequestCount (id quota usedQuota requestCount : Z) : GM unit :=
  if (quota =? 0) && (usedQuota =? 0) && (requestCount =? 0) then ret tt
  else ignore (update (on_db (upd_user id (add_to_user quota usedQuota requestCount)))).

Definition updateUserUsedQuota (id quota : Z) : GM unit :=
  ignore (update (on_db (upd_user id
    (λ u, set_User_UsedQuota (User_UsedQuota u + quota) u)))).

Definition updateUserRequestCount (id count : Z) : GM unit :=
  ignore (update (on_db (upd_user id
    (λ u, set_User_RequestCount (User_RequestCount u + count) u)))).

(** ** Tokens ([model/token.go]) *)

Definition TokenStatusEnabled : Z := 1.
Definition TokenStatusExpired : Z := 3.
Definition TokenStatusExhausted : Z := 4.

Definition token_by_key (key : string) (w : World) : option Token :=
  List.find (λ t, bool_decide (Token_Key t = key)) (map_to_list (Tables_tokens (World_db w))).*2.

Definition GetTokenById (id : Z) : GM Token :=
  do! fail_if (id =? 0) (EText "id 为空！") in
  let! t := first (token_row id) in
  do! (if RedisEnabled then go (JSetToken t) else ret tt) in
  ret t.

Definition GetTokenByKey (key : string) (fromDB : bool) : GM Token :=
  let from_db :=
    let! t := first (token_by_key key) in
    do! (if RedisEnabled then go (JSetToken t) else ret tt) in
    ret t in
  if negb fromDB && RedisEnabled
  then let! r := attempt (cacheGetTokenByKey key) in
       match r with Ok t => ret t | Err _ => from_db end
  else from_db.

(** [Token.SelectUpdate]: writes the two columns of the row with the token's id. *)
Definition SelectUpdate (t : Token) : GM unit :=
  do! update (on_db (upd_token (Token_Id t) (λ row,
        set_Token_Status (Token_Status t)
          (set_Token_AccessedTime (Token_AccessedTime t) row)))) in
  if RedisEnabled then go (JSetToken t) else ret tt.

Definition ErrTokenNotProvided : error := EText "token not provided".
Definition ErrTokenInvalid : error := EText "token invalid".
Definition ErrDatabase : error := EText "database error".

(** [ValidateUserToken]: the token, when there is one, and the error. *)
Definition ValidateUserToken (key : string) : GM (option Token * option error) :=
  if bool_decide (key = "") then ret (None, Some ErrTokenNotProvided)
  else
    let! r := attempt (GetTokenByKey key false) in
    match r with
    | Ok t =>
        let! now := GetTimestamp in
        if (Token_Status t =? TokenStatusExhausted) || (Token_Status t =? TokenStatusExpired)
           || negb (Token_Status t =? TokenStatusEnabled)
        then ret (Some t, Some ErrTokenInvalid)
        else if negb (Token_ExpiredTime t =? -1) && (Token_ExpiredTime t <? now)
        then
          if RedisEnabled then ret (Some t, Some ErrTokenInvalid)
          else let t := set_Token_Status TokenStatusExpired t in
               do! ignore (SelectUpdate t) in ret (Some t, Some ErrTokenInvalid)
        else if negb (Token_UnlimitedQuota t) && (Token_RemainQuota t <=? 0)
        then
          if RedisEnabled then ret (Some t, Some ErrTokenInvalid)
          else let t := set_Token_Status TokenStatusExhausted t in
               do! ignore (SelectUpdate t) in ret (Some t, Some ErrTokenInvalid)
        else ret (Some t, None)
    | Err ERecordNotFound => ret (None, Some ErrTokenInvalid)
    | Err e => ret (None, Some (EWrap "database error: " e))
    end.

(** [remain_quota + q, used_quota - q, accessed_time = now] *)
Definition move_token (now q : Z) (t : Token) : Token :=
  set_Token_AccessedTime now
    (set_Token_UsedQuota (Token_UsedQuota t - q)
      (set_Token_RemainQuota (Token_RemainQuota t + q) t)).

Definition increaseTokenQuota (id quota : Z) : GM unit :=
  let! now := GetTimestamp in
  update (on_db (upd_token id (move_token now quota))).

Definition decreaseTokenQuota (id quota : Z) : GM unit :=
  let! now := GetTimestamp in
  update (on_db (upd_token id (λ t,
    set_Token_AccessedTime now
      (set_Token_UsedQuota (Token_UsedQuota t + quota)
        (set_Token_RemainQuota (Token_RemainQuota t - quota) t))))).

Definition IncreaseTokenQuota (tokenId : Z) (key : string) (quota : Z) : GM unit :=
  do! fail_if (quota <? 0) err_negative_quota in
  do! (if RedisEnabled then go (JIncrTokenQuota key quota) else ret tt) in
  if BatchUpdateEnabled then addNewRecord BatchUpdateTypeTokenQuota tokenId quota
  else increaseTokenQuota tokenId quota.

Definition DecreaseTokenQuota (id : Z) (key : string) (quota : Z) : GM unit :=
  do! fail_if (quota <? 0) err_negative_quota in
  do! (if RedisEnabled then go (JIncrTokenQuota key (wrap64 (- quota))) else ret tt) in
  if BatchUpdateEnabled then addNewRecord BatchUpdateTypeTokenQuota id (wrap64 (- quota))
  else decreaseTokenQuota id quota.

(** ** Channels ([model/channel.go]) *)

Definition updateChannelUsedQuota (id quota : Z) : GM unit :=
  ignore (update (on_db (upd_channel id (λ used, used + quota)))).

Definition UpdateChannelUsedQuota (id quota : Z) : GM unit :=
  if BatchUpdateEnabled then addNewRecord BatchUpdateTypeChannelUsedQuota id quota
  else updateChannelUsedQuota id quota.

(** ** The batch updater ([batchUpdate]) *)

(** [store[key]], zero when absent. *)
Definition at_key (store : gmap Z Z) (key : Z) : Z := default 0 (store !! key).
Definition store_of (i : nat) (stores : list (gmap Z Z)) : gmap Z Z := default ∅ (stores !! i).

Definition batchUpdate : GM unit :=
  let! stores := gets World_batch in
  if forallb (λ store : gmap Z Z, bool_decide (store = ∅)) stores then ret tt
  else
    do! modify (set_World_batch empty_stores) in
    let tokenStore := store_of BatchUpdateTypeTokenQuota stores in
    let channelStore := store_of BatchUpdateTypeChannelUsedQuota stores in
    let userQuotaStore := store_of BatchUpdateTypeUserQuota stores in
    let usedQuotaStore := store_of BatchUpdateTypeUsedQuota stores in
    let requestCountStore := store_of BatchUpdateTypeRequestCount stores in
    do! for_each (λ key, ignore (increaseTokenQuota key (at_key tokenStore key)))
          (map_order (dom tokenStore)) in
    do! for_each (λ key, updateChannelUsedQuota key (at_key channelStore key))
          (map_order (dom channelStore)) in
    for_each (λ key, updateUserQuotaUsedQuotaAndRequestCount key
                (at_key userQuotaStore key) (at_key usedQuotaStore key)
                (at_key requestCountStore key))
      (map_order (dom userQuotaStore ∪ dom usedQuotaStore ∪ dom requestCountStore)).

(** ** Logs ([model/log.go]) *)

Definition LogTypeTopup : Z := 1.
Definition LogTypeConsume : Z := 2.
Definition LogTypeManage : Z := 3.
Definition LogTypeSystem : Z := 4.

Definition createLog (l : Log) : GM unit :=
  update (on_db (λ t, set_Tables_logs (Tables_logs t ++ [l]) t)).

Definition RecordLog (userId logType : Z) (format : string) (args : list Arg) : GM unit :=
  if (logType =? LogTypeConsume) && negb LogConsumeEnabled then ret tt
  else
    let! name := attempt (GetUsernameById userId false) in
    let username := match name with Ok n => n | Err _ => "" end in
    let! now := GetTimestamp in
    ignore (createLog (mkLog userId username now logType format args "" [])).

(** ** The goroutines of this component *)

Definition run_cache_job (j : Job) : GM unit :=
  match j with
  | JIncrUserQuota userId delta => ignore (cacheIncrUserQuota userId delta)
  | JUpdateUserQuotaCache userId quota => ignore (updateUserQuotaCache userId quota)
  | JUpdateUserNameCache userId name => ignore (updateUserNameCache userId name)
  | JPopulateUserCache userId u => ignore (populateUserCache userId u)
  | JIncrTokenQuota key delta => ignore (cacheIncrTokenQuota key delta)
  | JSetToken t => ignore (cacheSetToken t)
  | _ => ret tt
  end.
End quota.
