(* ===== verification/Ledger.v ===== *)
(** * Ledger: the balances the quota operations implement

    The abstract specification of [Quota]: a ledger with one balance per user,
    token and channel, to which an operation adds an amount at once.  The
    effective balance of the running system is the database row plus what the
    batch stores hold for it.  [ledger_refines] proves that every sequence of
    quota operations and flushes, with batching on or off, moves the effective
    balances exactly as the ledger. *)

From S2P Require Export Quota.

(** ** The abstract ledger *)

(** (quota, used quota, request count) of a user; (remaining, used) of a token;
    used quota of a channel. *)
Record Ledger : Type := mkLedger {
  Ledger_users : gmap Z (Z * Z * Z);
  Ledger_tokens : gmap Z (Z * Z);
  Ledger_channels : gmap Z Z;
}.

Inductive Op : Type :=
| OUser (id delta : Z)
| OUserDirect (id quota : Z)
| OUsed (id quota : Z)
| OTokenIncrease (id : Z) (key : string) (quota : Z)
| OTokenDecrease (id : Z) (key : string) (quota : Z)
| OChannel (id quota : Z)
| OFlush.

Definition ledger_step (o : Op) (l : Ledger) : Ledger :=
  match o with
  | OUser id d | OUserDirect id d =>
      mkLedger (alter (λ '(q, u, c), (q + d, u, c)) id (Ledger_users l))
        (Ledger_tokens l) (Ledger_channels l)
  | OUsed id d =>
      mkLedger (alter (λ '(q, u, c), (q, u + d, c + 1)) id (Ledger_users l))
        (Ledger_tokens l) (Ledger_channels l)
  | OTokenIncrease id _ d =>
      mkLedger (Ledger_users l) (alter (λ '(r, u), (r + d, u - d)) id (Ledger_tokens l))
        (Ledger_channels l)
  | OTokenDecrease id _ d =>
      mkLedger (Ledger_users l) (alter (λ '(r, u), (r - d, u + d)) id (Ledger_tokens l))
        (Ledger_channels l)
  | OChannel id d =>
      mkLedger (Ledger_users l) (Ledger_tokens l) (alter (λ u, u + d) id (Ledger_channels l))
  | OFlush => l
  end.

(** ** The effective balances of a world *)

Definition pend (i : nat) (id : Z) (w : World) : Z :=
  at_key (store_of i (World_batch w)) id.

Definition effective (w : World) : Ledger := mkLedger
  (map_imap (λ id u, Some (User_Quota u + pend BatchUpdateTypeUserQuota id w,
                           User_UsedQuota u + pend BatchUpdateTypeUsedQuota id w,
                           User_RequestCount u + pend BatchUpdateTypeRequestCount id w))
     (Tables_users (World_db w)))
  (map_imap (λ id t, Some (Token_RemainQuota t + pend BatchUpdateTypeTokenQuota id w,
                           Token_UsedQuota t - pend BatchUpdateTypeTokenQuota id w))
     (Tables_tokens (World_db w)))
  (map_imap (λ id u, Some (u + pend BatchUpdateTypeChannelUsedQuota id w))
     (Tables_channel_used (World_db w))).

#[global] Arguments effective : simpl never.
#[global] Arguments pend : simpl never.

(** The program an operation stands for. *)
Definition run_op `{Config} (o : Op) : GM unit :=
  match o with
  | OUser id d => DeltaUpdateUserQuota id d
  | OUserDirect id q => IncreaseUserQuota id q true
  | OUsed id q => UpdateUserUsedQuotaAndRequestCount id q
  | OTokenIncrease id key q => IncreaseTokenQuota id key q
  | OTokenDecrease id key q => DecreaseTokenQuota id key q
  | OChannel id q => UpdateChannelUsedQuota id q
  | OFlush => batchUpdate
  end.

(** Amounts a caller passes: the wallet and token operations take amounts that
    are not negative; [weight] bounds what an operation adds to a batch entry. *)
Definition op_ok (o : Op) : Prop :=
  match o with
  | OUserDirect _ q | OTokenIncrease _ _ q | OTokenDecrease _ _ q => 0 <= q
  | _ => True
  end.

Definition weight (o : Op) : Z :=
  match o with
  | OUser _ d | OUserDirect _ d | OTokenIncrease _ _ d | OTokenDecrease _ _ d
  | OChannel _ d => Z.abs d
  | OUsed _ d => Z.abs d + 1
  | OFlush => 0
  end.

(** A world between operations: no statement will fail, the five stores exist,
    and no pending amount exceeds [n]. *)
Record good (n : Z) (w : World) : Prop := {
  good_faults : no_faults w;
  good_stores : length (World_batch w) = BatchUpdateTypeCount;
  good_pend : ∀ i id, Z.abs (pend i id w) <= n;
}.

(** Equal entries, component by component. *)
Ltac entries :=
  repeat match goal with
  | |- Some _ = Some _ => f_equal
  | |- (_, _) = (_, _) => apply (f_equal2 pair)
  end; lia.

(** ** One operation *)

Section ledger.
Context {CFG : Config} {LAWS : ConfigLaws CFG}.

Lemma pend_ext i id w w' : World_batch w = World_batch w' -> pend i id w = pend i id w'.
Proof. unfold pend. by intros ->. Qed.

(** The world after an entry was added to store [i]. *)
Definition added (i : nat) (id v : Z) (w : World) : World := (addNewRecord i id v w).2.
#[local] Arguments added : simpl never.

Lemma added_pend i id v w j k :
  length (World_batch w) = BatchUpdateTypeCount -> (i < 5)%nat ->
  int64_range (pend i id w + v) ->
  pend j k (added i id v w) =
    if bool_decide (j = i ∧ k = id) then pend i id w + v else pend j k w.
Proof.
  intros Hl Hi Hr. unfold pend, store_of, added; simpl.
  destruct (decide (j = i)) as [->|Hj].
  - rewrite list_lookup_alter_eq. destruct (World_batch w !! i) as [st|] eqn:E; simpl.
    2:{ apply lookup_ge_None in E. unfold BatchUpdateTypeCount in *. lia. }
    unfold pend, store_of, at_key in *. rewrite E in *. simpl in *.
    destruct (st !! id) as [old|] eqn:Eo; simpl in *;
      (destruct (decide (k = id)) as [->|Hk];
       [rewrite lookup_insert_eq, bool_decide_true by done; simpl
       |rewrite lookup_insert_ne, bool_decide_false by naive_solver; done]).
    + by apply wrap64_id.
    + lia.
  - rewrite list_lookup_alter_ne by done. by rewrite bool_decide_false by naive_solver.
Qed.

Lemma eff_users w k :
  Ledger_users (effective w) !! k =
  (λ u, (User_Quota u + pend BatchUpdateTypeUserQuota k w,
         User_UsedQuota u + pend BatchUpdateTypeUsedQuota k w,
         User_RequestCount u + pend BatchUpdateTypeRequestCount k w)) <$>
  Tables_users (World_db w) !! k.
Proof. unfold effective; simpl. rewrite map_lookup_imap. by destruct (_ !! k). Qed.

Lemma eff_tokens w k :
  Ledger_tokens (effective w) !! k =
  (λ t, (Token_RemainQuota t + pend BatchUpdateTypeTokenQuota k w,
         Token_UsedQuota t - pend BatchUpdateTypeTokenQuota k w)) <$>
  Tables_tokens (World_db w) !! k.
Proof. unfold effective; simpl. rewrite map_lookup_imap. by destruct (_ !! k). Qed.

Lemma eff_channels w k :
  Ledger_channels (effective w) !! k =
  (λ u, u + pend BatchUpdateTypeChannelUsedQuota k w) <$>
  Tables_channel_used (World_db w) !! k.
Proof. unfold effective; simpl. rewrite map_lookup_imap. by destruct (_ !! k). Qed.

Lemma Ledger_eq l l' :
  (∀ k, Ledger_users l !! k = Ledger_users l' !! k) ->
  (∀ k, Ledger_tokens l !! k = Ledger_tokens l' !! k) ->
  (∀ k, Ledger_channels l !! k = Ledger_channels l' !! k) -> l = l'.
Proof.
  destruct l, l'; simpl. intros Hu Ht Hc. f_equal; by apply map_eq.
Qed.

Lemma effective_ext w w' :
  World_db w = World_db w' -> World_batch w = World_batch w' -> effective w = effective w'.
Proof. unfold effective, pend. by intros -> ->. Qed.

#[local] Opaque effective.

(** Compare two ledgers entry by entry, the entry of [id] apart. *)
Ltac ledger_cases id :=
  apply Ledger_eq; intros k; simpl; try (destruct (decide (k = id)) as [->|]);
  rewrite ?lookup_alter_eq, ?lookup_alter_ne by done;
  rewrite ?eff_users, ?eff_tokens, ?eff_channels; simpl;
  rewrite ?lookup_alter_eq, ?lookup_alter_ne by done; simpl.

Ltac unfold_kinds :=
  unfold BatchUpdateTypeUserQuota, BatchUpdateTypeTokenQuota, BatchUpdateTypeUsedQuota,
    BatchUpdateTypeChannelUsedQuota, BatchUpdateTypeRequestCount in *.

(** A batched amount counts at once. *)
Lemma added_good n i id v w :
  good n w -> (i < 5)%nat -> n + Z.abs v < 2 ^ 63 -> good (n + Z.abs v) (added i id v w).
Proof.
  intros [Hf Hl Hp] Hi Hr. pose proof (Hp i id). split; [done| |].
  - unfold added; simpl. by rewrite length_alter.
  - intros j k. rewrite added_pend; [|done..|unfold int64_range; lia].
    case_bool_decide; [lia|]. pose proof (Hp j k). lia.
Qed.

Lemma added_pend' n i id v w j k :
  good n w -> (i < 5)%nat -> n + Z.abs v < 2 ^ 63 ->
  pend j k (added i id v w) =
    if bool_decide (j = i ∧ k = id) then pend i id w + v else pend j k w.
Proof.
  intros [Hf Hl Hp] Hi Hr. pose proof (Hp i id).
  apply added_pend; [done..|]. unfold int64_range; lia.
Qed.

(** The ledger step a batch entry of kind [i] stands for. *)
Definition batch_step (i : nat) (id v : Z) (l : Ledger) : Ledger :=
  match i with
  | 0%nat => mkLedger (alter (λ '(q, u, c), (q + v, u, c)) id (Ledger_users l))
               (Ledger_tokens l) (Ledger_channels l)
  | 1%nat => mkLedger (Ledger_users l)
               (alter (λ '(r, u), (r + v, u - v)) id (Ledger_tokens l)) (Ledger_channels l)
  | 2%nat => mkLedger (alter (λ '(q, u, c), (q, u + v, c)) id (Ledger_users l))
               (Ledger_tokens l) (Ledger_channels l)
  | 3%nat => mkLedger (Ledger_users l) (Ledger_tokens l)
               (alter (λ u, u + v) id (Ledger_channels l))
  | _ => mkLedger (alter (λ '(q, u, c), (q, u, c + v)) id (Ledger_users l))
               (Ledger_tokens l) (Ledger_channels l)
  end.

Lemma added_effective n i id v w :
  good n w -> (i < 5)%nat -> n + Z.abs v < 2 ^ 63 ->
  effective (added i id v w) = batch_step i id v (effective w).
Proof.
  intros Hg Hi Hr.
  assert (World_db (added i id v w) = World_db w) as Hdb by done.
  do 5 (destruct i as [|i]; [ledger_cases id; rewrite ?Hdb;
    rewrite ?(added_pend' n) by (done || lia); simpl;
    unfold_kinds; repeat case_bool_decide; try naive_solver;
    (destruct (_ !! _); simpl; [entries|done])|]).
  lia.
Qed.

(** An amount written to the row counts once. *)
Lemma pend_db i k f w : pend i k (on_db f w) = pend i k w.
Proof. done. Qed.

Lemma direct_user id f dq du dc w :
  (∀ u, User_Quota (f u) = User_Quota u + dq) ->
  (∀ u, User_UsedQuota (f u) = User_UsedQuota u + du) ->
  (∀ u, User_RequestCount (f u) = User_RequestCount u + dc) ->
  effective (on_db (upd_user id f) w) =
  mkLedger (alter (λ '(q, u, c), (q + dq, u + du, c + dc)) id (Ledger_users (effective w)))
    (Ledger_tokens (effective w)) (Ledger_channels (effective w)).
Proof.
  intros H1 H2 H3. ledger_cases id; rewrite ?pend_db; try done.
  destruct (_ !! _) as [u|]; simpl; [|done]. rewrite H1, H2, H3. entries.
Qed.

Lemma direct_token id f d w :
  (∀ t, Token_RemainQuota (f t) = Token_RemainQuota t + d) ->
  (∀ t, Token_UsedQuota (f t) = Token_UsedQuota t - d) ->
  effective (on_db (upd_token id f) w) = batch_step BatchUpdateTypeTokenQuota id d (effective w).
Proof.
  intros H1 H2. ledger_cases id; rewrite ?pend_db; try done.
  destruct (_ !! _) as [u|]; simpl; [|done]. rewrite H1, H2. entries.
Qed.

Lemma direct_channel id d w :
  effective (on_db (upd_channel id (λ used, used + d)) w) =
  batch_step BatchUpdateTypeChannelUsedQuota id d (effective w).
Proof.
  ledger_cases id; rewrite ?pend_db; try done.
  destruct (_ !! _) as [u|]; simpl; [|done]. entries.
Qed.

Lemma good_ext n w w' :
  good n w -> World_faults w' = World_faults w -> World_batch w' = World_batch w -> good n w'.
Proof.
  intros [Hf Hl Hp] Ef Eb. split.
  - unfold no_faults in *. by rewrite Ef.
  - by rewrite Eb.
  - intros i id. rewrite (pend_ext i id w' w) by done. apply Hp.
Qed.

Lemma good_nonneg n w : good n w -> 0 <= n.
Proof. intros [_ _ Hp]. pose proof (Hp 0%nat 0). lia. Qed.

Lemma good_mono n m w : good n w -> n <= m -> good m w.
Proof. intros [Hf Hl Hp] ?. split; [done..|]. intros i id. pose proof (Hp i id). lia. Qed.

(** ** The flush *)

(** What the three loops of [batchUpdate] do to the tables. *)
Definition flush_tokens (now : Z) (st : gmap Z Z) (m : gmap Z Token) : gmap Z Token :=
  foldl (λ m k, alter (move_token now (at_key st k)) k m) m (map_order (dom st)).
Definition flush_channels (st : gmap Z Z) (m : gmap Z Z) : gmap Z Z :=
  foldl (λ m k, alter (λ used, used + at_key st k) k m) m (map_order (dom st)).
Definition flush_users (q u c : gmap Z Z) (m : gmap Z User) : gmap Z User :=
  foldl (λ m k, alter (add_to_user (at_key q k) (at_key u k) (at_key c k)) k m) m
    (map_order (dom q ∪ dom u ∪ dom c)).

Lemma at_key_notin (st : gmap Z Z) k : k ∉ dom st -> at_key st k = 0.
Proof. unfold at_key. rewrite not_elem_of_dom. by intros ->. Qed.

Lemma elem_of_map_order k X : k ∈ map_order X <-> k ∈ X.
Proof. by rewrite map_order_perm, elem_of_elements. Qed.

Lemma NoDup_map_order X : NoDup (map_order X).
Proof. rewrite map_order_perm. apply NoDup_elements. Qed.

Lemma for_each_tokens now st l w :
  no_faults w -> World_now w = now ->
  for_each (λ key, ignore (increaseTokenQuota key (at_key st key))) l w =
  (Ok tt, on_db (λ t, set_Tables_tokens
     (foldl (λ m k, alter (move_token now (at_key st k)) k m) (Tables_tokens t) l) t) w).
Proof.
  revert w. induction l as [|k l IH]; intros w Hn Hw.
  - simpl. by destruct w as [[]].
  - cbn [for_each]. unfold bind at 1. unfold ignore, attempt, bind, increaseTokenQuota, bind,
      GetTimestamp, gets, update. rewrite exec_no_faults by done. simpl.
    rewrite IH; [by rewrite Hw|done..].
Qed.

Lemma for_each_channels st l w :
  no_faults w ->
  for_each (λ key, updateChannelUsedQuota key (at_key st key)) l w =
  (Ok tt, on_db (λ t, set_Tables_channel_used
     (foldl (λ m k, alter (λ used, used + at_key st k) k m) (Tables_channel_used t) l) t) w).
Proof.
  revert w. induction l as [|k l IH]; intros w Hn.
  - simpl. by destruct w as [[]].
  - cbn [for_each]. unfold bind at 1. unfold updateChannelUsedQuota, ignore, attempt, bind,
      update. rewrite exec_no_faults by done. simpl. by rewrite IH.
Qed.

Lemma add_to_user_zero u : add_to_user 0 0 0 u = u.
Proof. destruct u. unfold add_to_user; simpl. by rewrite !Z.add_0_r. Qed.

Lemma alter_zero k (m : gmap Z User) : alter (add_to_user 0 0 0) k m = m.
Proof.
  apply map_eq. intros i.
  destruct (decide (i = k)) as [->|]; [rewrite lookup_alter_eq|by rewrite lookup_alter_ne].
  destruct (_ !! k); simpl; [by rewrite add_to_user_zero|done].
Qed.

Lemma for_each_users q u c l w :
  no_faults w ->
  for_each (λ key, updateUserQuotaUsedQuotaAndRequestCount key
              (at_key q key) (at_key u key) (at_key c key)) l w =
  (Ok tt, on_db (λ t, set_Tables_users
     (foldl (λ m k, alter (add_to_user (at_key q k) (at_key u k) (at_key c k)) k m)
        (Tables_users t) l) t) w).
Proof.
  revert w. induction l as [|k l IH]; intros w Hn.
  - simpl. by destruct w as [[]].
  - cbn [for_each]. unfold bind at 1. unfold updateUserQuotaUsedQuotaAndRequestCount.
    destruct (_ && _) eqn:E.
    + apply andb_true_iff in E as [[E1 E2]%andb_true_iff E3].
      apply Z.eqb_eq in E1, E2, E3. simpl. rewrite IH by done.
      unfold on_db; simpl. by rewrite E1, E2, E3, alter_zero.
    + unfold ignore, attempt, bind, update. rewrite exec_no_faults by done. simpl. by rewrite IH.
Qed.
(** The whole flush, in a world without faults. *)
Definition flushed (w : World) : World :=
  let b := World_batch w in
  set_World_batch empty_stores (on_db (λ t,
    set_Tables_users (flush_users (store_of BatchUpdateTypeUserQuota b)
      (store_of BatchUpdateTypeUsedQuota b) (store_of BatchUpdateTypeRequestCount b)
      (Tables_users t))
    (set_Tables_channel_used (flush_channels (store_of BatchUpdateTypeChannelUsedQuota b)
      (Tables_channel_used t))
    (set_Tables_tokens (flush_tokens (World_now w) (store_of BatchUpdateTypeTokenQuota b)
      (Tables_tokens t)) t))) w).

Lemma batchUpdate_run w :
  no_faults w ->
  batchUpdate w =
  (Ok tt, if forallb (λ store : gmap Z Z, bool_decide (store = ∅)) (World_batch w)
          then w else flushed w).
Proof.
  intros Hn. unfold batchUpdate. unfold bind at 1, gets. cbn beta iota zeta.
  destruct (forallb _ _); [done|].
  unfold bind at 1, modify. cbn beta iota zeta.
  unfold bind at 1. rewrite (for_each_tokens (World_now w)) by done. cbn beta iota zeta.
  unfold bind at 1. rewrite for_each_channels by done. cbn beta iota zeta.
  rewrite for_each_users by done. done.
Qed.

Lemma flushed_pend i k w : pend i k (flushed w) = 0.
Proof.
  unfold pend, store_of, flushed; simpl.
  do 5 (destruct i as [|i]; [done|]). done.
Qed.

(** A flush moves what is pending into the rows. *)
Lemma flushed_effective w : effective (flushed w) = effective w.
Proof.
  apply Ledger_eq; intros k; rewrite ?eff_users, ?eff_tokens, ?eff_channels, ?flushed_pend;
    unfold pend; simpl; unfold flush_users, flush_tokens, flush_channels;
    rewrite lookup_foldl_alter by apply NoDup_map_order;
    (case_decide as Hk; rewrite elem_of_map_order in Hk;
     [|rewrite ?elem_of_union in Hk; rewrite !at_key_notin by tauto]);
    destruct (_ !! k); simpl; try done; entries.
Qed.

Lemma all_empty_pend w i k :
  forallb (λ store : gmap Z Z, bool_decide (store = ∅)) (World_batch w) = true ->
  pend i k w = 0.
Proof.
  rewrite forallb_forall. intros H. unfold pend, store_of.
  destruct (World_batch w !! i) as [st|] eqn:E; [|done].
  assert (In st (World_batch w)) as Hin
    by (apply list_elem_of_In; eapply list_elem_of_lookup_2; eauto).
  apply H, bool_decide_eq_true_1 in Hin. by rewrite Hin.
Qed.

(** ** Every operation *)

(** [o] runs to completion from [w], keeps the world good and moves the
    effective balances as the ledger does. *)
Definition implements (n : Z) (o : Op) (w : World) : Prop :=
  ∃ w', run_op o w = (Ok tt, w') ∧ good (n + weight o) w' ∧
        effective w' = ledger_step o (effective w).

Lemma batched_implements n o i id v w w1 :
  good n w -> World_db w1 = World_db w -> World_faults w1 = World_faults w ->
  World_batch w1 = World_batch w -> (i < 5)%nat -> Z.abs v <= weight o ->
  n + Z.abs v < 2 ^ 63 ->
  (∀ l, batch_step i id v l = ledger_step o l) ->
  run_op o w = (Ok tt, added i id v w1) -> implements n o w.
Proof.
  intros Hg Ed Ef Eb Hi Hw Hr Hl Hrun. exists (added i id v w1).
  assert (good n w1) as Hg1 by (eapply good_ext; eauto).
  split_and!; [done| |].
  - eapply good_mono; [by apply added_good|lia].
  - rewrite (added_effective n) by done. rewrite Hl. f_equal. by apply effective_ext.
Qed.

Lemma direct_implements n o w f w1 :
  good n w -> World_db w1 = World_db w -> World_faults w1 = World_faults w ->
  World_batch w1 = World_batch w -> 0 <= weight o ->
  effective (on_db f w1) = ledger_step o (effective w1) ->
  run_op o w = (Ok tt, on_db f w1) -> implements n o w.
Proof.
  intros Hg Ed Ef Eb Hw He Hrun. exists (on_db f w1). split_and!; [done| |].
  - eapply good_mono; [eapply good_ext; eauto|lia].
  - rewrite He. f_equal. by apply effective_ext.
Qed.
(** Run the statements of a quota operation in a world without faults. *)
Ltac run_quota Hn :=
  unfold ignore, attempt, update, GetTimestamp, gets, fail_if, go, modify, bind;
  rewrite ?exec_no_faults by exact Hn; simpl;
  rewrite ?exec_no_faults by exact Hn; reflexivity.

Lemma wallet_implements n id d w :
  good n w -> n + Z.abs d < 2 ^ 63 -> implements n (OUser id d) w.
Proof.
  intros Hg Hr. pose proof (good_faults _ _ Hg) as Hn.
  pose proof (good_nonneg _ _ Hg) as Hn0.
  destruct (Z.eqb_spec d 0) as [->|Hd].
  { exists w. split_and!; [done|by eapply good_mono; simpl; eauto; lia|].
    ledger_cases id; try done. destruct (_ !! _); simpl; [entries|done]. }
  set (w1 := set_World_jobs (World_jobs w ++ [JIncrUserQuota id d]) w).
  assert (wrap64 (- (wrap64 (- d))) = d ∧ wrap64 (- d) = - d) as [E1 E2].
  { rewrite (wrap64_id (- d)) by (unfold int64_range; lia).
    rewrite Z.opp_involutive. split; [apply wrap64_id; unfold int64_range; lia|done]. }
  assert (run_op (OUser id d) w =
    if BatchUpdateEnabled then (Ok tt, added BatchUpdateTypeUserQuota id d w1)
    else (Ok tt, on_db (upd_user id (if 0 <? d then λ u, set_User_Quota (User_Quota u + d) u
           else λ u, set_User_Quota (User_Quota u - wrap64 (- d)) u)) w1)) as Hrun.
  { simpl. unfold DeltaUpdateUserQuota, IncreaseUserQuota, DecreaseUserQuota,
      increaseUserQuota, decreaseUserQuota.
    destruct (d =? 0) eqn:E0; [lia|].
    destruct (0 <? d) eqn:Ep.
    - destruct (d <? 0) eqn:En; [lia|]. destruct BatchUpdateEnabled; run_quota Hn.
    - destruct (wrap64 (- d) <? 0) eqn:En; [lia|].
      rewrite E1. destruct BatchUpdateEnabled; run_quota Hn. }
  destruct BatchUpdateEnabled eqn:EB.
  - apply (batched_implements n _ BatchUpdateTypeUserQuota id d w w1); try done;
      unfold_kinds; simpl; lia.
  - eapply direct_implements with (w1 := w1); eauto; [simpl; lia|].
    rewrite (direct_user _ _ d 0 0);
      [|intros u; destruct (0 <? d); simpl; lia|intros u; destruct (0 <? d); simpl; lia..].
    ledger_cases id; try done. destruct (_ !! _); simpl; [entries|done].
Qed.

Lemma token_implements n (up : bool) id key q w :
  good n w -> 0 <= q -> n + q < 2 ^ 63 ->
  implements n (if up then OTokenIncrease id key q else OTokenDecrease id key q) w.
Proof.
  intros Hg Hq Hr. pose proof (good_faults _ _ Hg) as Hn.
  pose proof (good_nonneg _ _ Hg) as Hn0.
  assert (wrap64 (- q) = - q) as E by (apply wrap64_id; unfold int64_range; lia).
  set (d := if up then q else - q).
  set (w1 := if RedisEnabled
             then set_World_jobs (World_jobs w ++ [JIncrTokenQuota key d]) w else w).
  assert (World_db w1 = World_db w ∧ World_faults w1 = World_faults w ∧
    World_batch w1 = World_batch w ∧ World_now w1 = World_now w) as (Ed & Ef & Eb & Et)
    by (unfold w1; by destruct RedisEnabled).
  set (o := if up then OTokenIncrease id key q else OTokenDecrease id key q).
  assert (run_op o w = if BatchUpdateEnabled
    then (Ok tt, added BatchUpdateTypeTokenQuota id d w1)
    else (Ok tt, on_db (upd_token id (if up then move_token (World_now w) q
           else λ t, set_Token_AccessedTime (World_now w)
                  (set_Token_UsedQuota (Token_UsedQuota t + q)
                    (set_Token_RemainQuota (Token_RemainQuota t - q) t)))) w1)) as Hrun.
  { unfold o, w1, d. destruct up; simpl; unfold IncreaseTokenQuota, DecreaseTokenQuota,
      increaseTokenQuota, decreaseTokenQuota; destruct (q <? 0) eqn:En; try lia;
      rewrite ?E; destruct RedisEnabled, BatchUpdateEnabled; run_quota Hn. }
  assert (weight o = q) as Hw by (unfold o; destruct up; simpl; lia).
  destruct BatchUpdateEnabled eqn:EB.
  - apply (batched_implements n _ BatchUpdateTypeTokenQuota id d w w1); try done;
      unfold_kinds; try rewrite Hw; try (unfold d; destruct up; lia).
    intros l. unfold o, d. destruct up; simpl; [done|]. f_equal.
    apply map_eq. intros k. rewrite !lookup_alter. case_decide; [|done].
    destruct (_ !! _) as [[]|]; simpl; [entries|done].
  - eapply direct_implements with (w1 := w1); eauto; [lia|].
    unfold o. destruct up.
    + by apply direct_token.
    + rewrite (direct_token _ _ (- q)); [|intros; simpl; lia..].
      ledger_cases id; try done. destruct (_ !! _); simpl; [entries|done].
Qed.
Lemma direct_wallet_implements n id q w :
  good n w -> 0 <= q -> implements n (OUserDirect id q) w.
Proof.
  intros Hg Hq. pose proof (good_faults _ _ Hg) as Hn.
  apply (direct_implements n _ w (upd_user id (λ u, set_User_Quota (User_Quota u + q) u))
    (set_World_jobs (World_jobs w ++ [JIncrUserQuota id q]) w)); try done; [simpl; lia| |].
  - rewrite (direct_user _ _ q 0 0); [|intros; simpl; lia..].
    ledger_cases id; try done. destruct (_ !! _); simpl; [entries|done].
  - simpl. unfold IncreaseUserQuota, increaseUserQuota.
    destruct (q <? 0) eqn:E; [lia|]. run_quota Hn.
Qed.

Lemma used_implements n id q w :
  good n w -> n + (Z.abs q + 1) < 2 ^ 63 -> implements n (OUsed id q) w.
Proof.
  intros Hg Hr. pose proof (good_faults _ _ Hg) as Hn.
  destruct BatchUpdateEnabled eqn:EB.
  - exists (added BatchUpdateTypeRequestCount id 1 (added BatchUpdateTypeUsedQuota id q w)).
    assert (good (n + Z.abs q) (added BatchUpdateTypeUsedQuota id q w)) as Hg1
      by (apply added_good; unfold_kinds; done || lia).
    split_and!.
    + simpl. unfold UpdateUserUsedQuotaAndRequestCount. by rewrite EB.
    + eapply good_mono; [apply added_good; [exact Hg1|unfold_kinds; lia|lia]|simpl; lia].
    + rewrite (added_effective (n + Z.abs q)) by (done || unfold_kinds; lia).
      rewrite (added_effective n) by (done || unfold_kinds; lia). simpl. f_equal.
      apply map_eq. intros k. rewrite !lookup_alter. repeat case_decide; try done.
      by destruct (_ !! _) as [[[]]|].
  - apply (direct_implements n _ w (upd_user id (λ u,
      set_User_RequestCount (User_RequestCount u + 1)
        (set_User_UsedQuota (User_UsedQuota u + q) u))) w); try done; [simpl; lia| |].
    + rewrite (direct_user _ _ 0 q 1); [|intros; simpl; lia..].
      ledger_cases id; try done. destruct (_ !! _); simpl; [entries|done].
    + simpl. unfold UpdateUserUsedQuotaAndRequestCount, updateUserUsedQuotaAndRequestCount.
      rewrite EB. run_quota Hn.
Qed.

Lemma channel_implements n id q w :
  good n w -> n + Z.abs q < 2 ^ 63 -> implements n (OChannel id q) w.
Proof.
  intros Hg Hr. pose proof (good_faults _ _ Hg) as Hn.
  destruct BatchUpdateEnabled eqn:EB.
  - apply (batched_implements n _ BatchUpdateTypeChannelUsedQuota id q w w); try done;
      unfold_kinds; try (simpl; lia).
    simpl. unfold UpdateChannelUsedQuota. by rewrite EB.
  - apply (direct_implements n _ w (upd_channel id (λ used, used + q)) w); try done;
      [simpl; lia|apply direct_channel|].
    simpl. unfold UpdateChannelUsedQuota, updateChannelUsedQuota. rewrite EB. run_quota Hn.
Qed.

Lemma flush_implements n w : good n w -> implements n OFlush w.
Proof.
  intros Hg. pose proof (good_faults _ _ Hg) as Hn. pose proof (good_stores _ _ Hg) as Hl.
  pose proof (good_nonneg _ _ Hg) as Hn0.
  eexists. split; [apply batchUpdate_run, Hn|].
  destruct (forallb _ _) eqn:E.
  - split; [|done]. eapply good_mono; [done|simpl; lia].
  - split; [|apply flushed_effective]. split; [done|done|].
    intros i k. rewrite flushed_pend. simpl. lia.
Qed.

Lemma op_implements n o w :
  good n w -> op_ok o -> n + weight o < 2 ^ 63 -> implements n o w.
Proof.
  intros Hg Hok Hr. destruct o; simpl in *.
  - by apply wallet_implements.
  - by apply direct_wallet_implements.
  - apply used_implements; [done|lia].
  - apply (token_implements n true); [done|done|lia].
  - apply (token_implements n false); [done|done|lia].
  - by apply channel_implements.
  - by apply flush_implements.
Qed.

(** ** Sequences of operations *)

Definition run_ops (ops : list Op) : GM unit := for_each run_op ops.
Definition ledger_run (ops : list Op) (l : Ledger) : Ledger := foldl (λ l o, ledger_step o l) l ops.
Definition total_weight (ops : list Op) : Z := foldr (λ o n, weight o + n) 0 ops.

Lemma weight_nonneg o : 0 <= weight o.
Proof. destruct o; simpl; lia. Qed.

Lemma total_weight_nonneg ops : 0 <= total_weight ops.
Proof. induction ops as [|o ops IH]; simpl; [lia|]. pose proof (weight_nonneg o). lia. Qed.

Lemma run_ops_refines n ops w :
  good n w -> Forall op_ok ops -> n + total_weight ops < 2 ^ 63 ->
  ∃ w', run_ops ops w = (Ok tt, w') ∧ good (n + total_weight ops) w' ∧
        effective w' = ledger_run ops (effective w).
Proof.
  revert n w. induction ops as [|o ops IH]; intros n w Hg Hok Hr; simpl in *.
  { exists w. split_and!; [done|eapply good_mono; [done|lia]|done]. }
  apply Forall_cons in Hok as [Ho Hok]. pose proof (total_weight_nonneg ops).
  destruct (op_implements n o w) as (w1 & Hr1 & Hg1 & He1); [done|done|lia|].
  destruct (IH (n + weight o) w1) as (w2 & Hr2 & Hg2 & He2); [done|done|lia|].
  exists w2. unfold run_ops in *; simpl. unfold bind. rewrite Hr1. split_and!; [done| |].
  - eapply good_mono; [done|lia].
  - by rewrite He2, He1.
Qed.

Lemma good_start w : no_faults w -> World_batch w = empty_stores -> good 0 w.
Proof.
  intros Hf Hb. split; [done|by rewrite Hb|]. intros i k. unfold pend. rewrite Hb.
  unfold store_of, empty_stores, BatchUpdateTypeCount.
  do 5 (destruct i as [|i]; [done|]). done.
Qed.

(** C2. Refinement of the ledger.  Starting with empty batch stores and no
    failing statement, every sequence of wallet, token, usage and channel
    operations and of flushes succeeds and moves the effective balances (row
    plus pending amount) exactly as the abstract ledger, whether batching is on
    or off, as long as the amounts add up to less than [2 ^ 63]. *)
Theorem ledger_refines ops w :
  no_faults w -> World_batch w = empty_stores -> Forall op_ok ops ->
  total_weight ops < 2 ^ 63 ->
  ∃ w', run_ops ops w = (Ok tt, w') ∧ effective w' = ledger_run ops (effective w).
Proof.
  intros Hf Hb Hok Hr. destruct (run_ops_refines 0 ops w) as (w' & H1 & _ & H2);
    [by apply good_start|done|lia|eauto].
Qed.

(** The rows themselves, as a ledger. *)
Definition db_ledger (t : Tables) : Ledger := mkLedger
  ((λ u, (User_Quota u, User_UsedQuota u, User_RequestCount u)) <$> Tables_users t)
  ((λ k, (Token_RemainQuota k, Token_UsedQuota k)) <$> Tables_tokens t)
  (Tables_channel_used t).

Lemma effective_settled w :
  (∀ i k, pend i k w = 0) -> effective w = db_ledger (World_db w).
Proof.
  intros Hp. apply Ledger_eq; intros k; rewrite ?eff_users, ?eff_tokens, ?eff_channels, !Hp;
    simpl; rewrite ?lookup_fmap; destruct (_ !! k); simpl; try done; entries.
Qed.

(** After a flush nothing is pending: the rows of the database are the
    ledger, so a deployment with batching ends with the balances one without
    would have. *)
Theorem flushed_database_is_ledger ops w :
  no_faults w -> World_batch w = empty_stores -> Forall op_ok ops ->
  total_weight ops < 2 ^ 63 ->
  ∃ w', run_ops (ops ++ [OFlush]) w = (Ok tt, w') ∧
        db_ledger (World_db w') = ledger_run ops (db_ledger (World_db w)).
Proof.
  intros Hf Hb Hok Hr.
  destruct (run_ops_refines 0 ops w) as (w1 & H1 & Hg & H2); [by apply good_start|done|lia|].
  pose proof (good_faults _ _ Hg) as Hn.
  eexists. split.
  - unfold run_ops in *. rewrite for_each_app. unfold bind. rewrite H1. simpl.
    unfold bind. rewrite batchUpdate_run by done. done.
  - rewrite <- (effective_settled w) by (intros; by apply good_start in Hb; auto;
      destruct Hb as [_ _ Hp]; pose proof (Hp i k); lia).
    rewrite <- H2. destruct (forallb _ _) eqn:E.
    + symmetry. apply effective_settled. intros. by apply all_empty_pend.
    + rewrite <- flushed_effective. symmetry. apply effective_settled.
      intros. apply flushed_pend.
Qed.
End ledger.

(** ** Token validation *)

Section tokens.
Context {CFG : Config}.

(** Where a token can come from. *)
Definition token_source (key : string) (t : Token) (w : World) : Prop :=
  token_by_key key w = Some t ∨
  ∃ c, RedisEnabled = true ∧ World_redis_tokens w !! key = Some c ∧ t = set_Token_Key key c.

Lemma wp_GetTokenByKey key fromDB Q w :
  (∀ e w', World_db w' = World_db w -> World_now w' = World_now w -> Q (Err e) w') ->
  (∀ t w', World_db w' = World_db w -> World_now w' = World_now w ->
     token_source key t w -> Q (Ok t) w') ->
  wp (GetTokenByKey key fromDB) Q w.
Proof.
  intros He Hok.
  assert (∀ w1, World_db w1 = World_db w -> World_now w1 = World_now w ->
    wp (let! t := first (token_by_key key) in
        do! (if RedisEnabled then go (JSetToken t) else ret tt) in ret t) Q w1) as Hdb.
  { intros w1 Hd Hn. gwp; try (apply He; simpl; congruence).
    all: apply Hok; simpl; try congruence; left; unfold token_by_key in *; simpl in *;
      congruence. }
  unfold GetTokenByKey. destruct (negb fromDB && RedisEnabled) eqn:E; [|by apply Hdb].
  apply andb_true_iff in E as [_ ER]. apply wp_bind, wp_attempt. unfold cacheGetTokenByKey.
  rewrite ER in Hdb |- *. apply wp_bind, wp_map_err, wp_select; intros; [by apply Hdb|]. simpl.
  apply wp_bind. destruct (World_redis_tokens w !! key) as [c|] eqn:Ec; simpl; [|by apply Hdb].
  gwp. apply Hok; [done..|]. right. eauto.
Qed.

(** A token that passes [ValidateUserToken] comes from the database or the
    cache under the presented key, is enabled, not past its expiry time and has
    quota left or is unlimited; a successful check writes nothing to the
    database.  Whatever the driver does, the check itself returns. *)
Theorem ValidateUserToken_sound key w :
  wp (ValidateUserToken key) (λ r w',
    match r with
    | Ok (Some t, None) =>
        key ≠ "" ∧ token_source key t w ∧ Token_Status t = TokenStatusEnabled ∧
        (Token_ExpiredTime t = -1 ∨ World_now w <= Token_ExpiredTime t) ∧
        (Token_UnlimitedQuota t = true ∨ 0 < Token_RemainQuota t) ∧
        World_db w' = World_db w
    | Ok (None, None) => False
    | Ok (_, Some _) => True
    | Err _ => False
    end) w.
Proof.
  unfold ValidateUserToken. case_bool_decide as Hk; [by apply wp_ret|].
  apply wp_bind, wp_attempt, wp_GetTokenByKey; [intros [] w' _ _; by apply wp_ret|].
  intros t w' Hdb Hnow Hsrc. gwp; try done.
  split_and!; try done.
  - apply orb_false_iff in Heqb as [_ H%negb_false_iff]. by apply Z.eqb_eq.
  - rewrite <- Hnow. apply andb_false_iff in Heqb0 as [H%negb_false_iff|H]; [left; lia|right; lia].
  - apply andb_false_iff in Heqb1 as [H%negb_false_iff|H]; [by left|right; lia].
Qed.
End tokens.
