(* ===== verification/Plan.v ===== *)
(** * Plan: periods of subscription plans

    Models the pure part of [model/subscription.go]: how long a plan runs
    ([calcPlanEndTime]), when its quota is reset ([NormalizeResetPeriod],
    [calcNextResetTime]) and the loop that catches up with missed resets.  The
    laws are stated for a process in a zone with a fixed offset; the functions
    are defined for every zone. *)

From S2P Require Export Store GoTime.

Definition SubscriptionDurationYear : string := "year".
Definition SubscriptionDurationMonth : string := "month".
Definition SubscriptionDurationDay : string := "day".
Definition SubscriptionDurationHour : string := "hour".
Definition SubscriptionDurationCustom : string := "custom".

Definition SubscriptionResetNever : string := "never".
Definition SubscriptionResetDaily : string := "daily".
Definition SubscriptionResetWeekly : string := "weekly".
Definition SubscriptionResetMonthly : string := "monthly".
Definition SubscriptionResetCustom : string := "custom".

(** [SubscriptionPlan.NormalizeDefaults] *)
Definition NormalizeDefaults (p : SubscriptionPlan) : SubscriptionPlan :=
  let p := match SubscriptionPlan_AllowBalancePay p with
           | None => set_SubscriptionPlan_AllowBalancePay (Some true) p
           | Some _ => p
           end in
  match SubscriptionPlan_AllowWalletOverflow p with
  | None => set_SubscriptionPlan_AllowWalletOverflow (Some true) p
  | Some _ => p
  end.

Section plan.
Context {LOC : Location}.

Definition calcPlanEndTime (start : Z) (plan : SubscriptionPlan) : result Z :=
  let unit := SubscriptionPlan_DurationUnit plan in
  let value := SubscriptionPlan_DurationValue plan in
  if (value <=? 0) && negb (bool_decide (unit = SubscriptionDurationCustom))
  then Err (EText "duration_value must be > 0")
  else if bool_decide (unit = SubscriptionDurationYear) then Ok (AddDate start value 0 0)
  else if bool_decide (unit = SubscriptionDurationMonth) then Ok (AddDate start 0 value 0)
  else if bool_decide (unit = SubscriptionDurationDay)
  then Ok (Add start (dmul (dmul value 24) Hour))
  else if bool_decide (unit = SubscriptionDurationHour) then Ok (Add start (dmul value Hour))
  else if bool_decide (unit = SubscriptionDurationCustom)
  then if SubscriptionPlan_CustomSeconds plan <=? 0
       then Err (EText "custom_seconds must be > 0")
       else Ok (Add start (dmul (SubscriptionPlan_CustomSeconds plan) Second))
  else Err (EText ("invalid duration_unit: " +:+ unit)).

Definition NormalizeResetPeriod (period : string) : string :=
  let p := TrimSpace period in
  if bool_decide (p = SubscriptionResetDaily) || bool_decide (p = SubscriptionResetWeekly)
     || bool_decide (p = SubscriptionResetMonthly) || bool_decide (p = SubscriptionResetCustom)
  then p else SubscriptionResetNever.

(** The instant of the next reset, before it is compared with the end. *)
Definition next_reset (base : Z) (plan : SubscriptionPlan) : option Z :=
  let period := NormalizeResetPeriod (SubscriptionPlan_QuotaResetPeriod plan) in
  if bool_decide (period = SubscriptionResetNever) then None
  else if bool_decide (period = SubscriptionResetDaily)
  then Some (AddDate (Date (Year base) (Month base) (Day base) 0) 0 0 1)
  else if bool_decide (period = SubscriptionResetWeekly)
  then let weekday := if Weekday base =? 0 then 7 else Weekday base in
       Some (AddDate (Date (Year base) (Month base) (Day base) 0) 0 0 (8 - weekday))
  else if bool_decide (period = SubscriptionResetMonthly)
  then Some (AddDate (Date (Year base) (Month base) 1 0) 0 1 0)
  else if bool_decide (period = SubscriptionResetCustom)
  then if SubscriptionPlan_QuotaResetCustomSeconds plan <=? 0 then None
       else Some (Add base (dmul (SubscriptionPlan_QuotaResetCustomSeconds plan) Second))
  else None.

Definition calcNextResetTime (base : Z) (plan : SubscriptionPlan) (endUnix : Z) : Z :=
  match next_reset base plan with
  | None => 0
  | Some next => if (0 <? endUnix) && (endUnix <? next) then 0 else next
  end.

(** One test of the loop [for next > 0 && next <= now]: go on with (base, next),
    or leave with (base, next). *)
Definition reset_round (plan : SubscriptionPlan) (endUnix now : Z) (s : Z * Z * bool) :
    (Z * Z * bool) + (Z * Z * bool) :=
  let '(base, next, advanced) := s in
  if (0 <? next) && (next <=? now)
  then inl (next, calcNextResetTime next plan endUnix, true)
  else inr s.

(** The loop from [base]; each round moves [base] forward by a second at least,
    so the seconds from [base] to [now] are enough rounds. *)
Definition advance_resets (plan : SubscriptionPlan) (endUnix now base : Z) :
    (Z * Z * bool) + (Z * Z * bool) :=
  iter_until (Z.to_pos (now - base + 2)) (reset_round plan endUnix now)
    (base, calcNextResetTime base plan endUnix, false).
End plan.

(** ** Laws in a zone with a fixed offset *)

Section fixed.
Context (off : Z) (Hoff : Z.abs off <= 86400).
#[local] Opaque month_day fom.
#[local] Hint Extern 0 Location => exact (zone off) : typeclass_instances.

(** Instants within some thirty billion years of 1970. *)
Definition timely (t : Z) : Prop := Z.abs t <= 2 ^ 60.

Lemma midnight_of base :
  timely base ->
  Date (Year base) (Month base) (Day base) 0 = local_day base * 86400 - off.
Proof.
  intros Ht. pose proof (Date_days off base 0) as H. rewrite !Z.add_0_r in H. apply H.
  pose proof (local_split off base). unfold timely in *. lia.
Qed.

Lemma local_midnight d : local_day (d * 86400 - off) = d ∧ clock (d * 86400 - off) = 0.
Proof.
  unfold local_day, clock. change (local_seconds ?t) with (t + off).
  replace (d * 86400 - off + off) with (d * 86400) by lia.
  split; [apply Z.div_mul; lia|apply Z.mod_mul; lia].
Qed.

Lemma days_after base k :
  timely base -> 0 <= k <= 31 ->
  AddDate (Date (Year base) (Month base) (Day base) 0) 0 0 k = (local_day base + k) * 86400 - off.
Proof.
  intros Ht Hk. rewrite midnight_of by done. unfold AddDate.
  destruct (local_midnight (local_day base)) as [Hd Hc].
  rewrite Hc, !Z.add_0_r. rewrite (Date_days off).
  - by rewrite Hd.
  - rewrite Hd. pose proof (local_split off base). unfold timely in *. lia.
Qed.

Lemma first_of_month base :
  timely base ->
  let q := (month_day (local_day base)).1 in
  Date (Year base) (Month base) 1 0 = fom q * 86400 - off ∧
  AddDate (fom q * 86400 - off) 0 1 0 = fom (q + 1) * 86400 - off.
Proof.
  intros Ht q0. subst q0. destruct (civil_index base) as [Hq Hd].
  pose proof (month_day_spec (local_day base)) as Hs.
  destruct (month_day (local_day base)) as [q d] eqn:Emd; simpl in *.
  pose proof (fom_succ q) as Hfs. pose proof (local_split off base) as Hl.
  unfold timely in *.
  split.
  - rewrite (Date_fixed off); rewrite Hq; lia.
  - unfold AddDate. destruct (local_midnight (fom q)) as [Hd' Hc].
    destruct (civil_index (fom q * 86400 - off)) as [Hq2 Hd2].
    rewrite Hd' in Hq2, Hd2. rewrite (month_day_unique q 1) in Hq2, Hd2 by lia. simpl in *.
    rewrite Hc, Hd2, !Z.add_0_r. rewrite (Date_fixed off).
    + replace (12 * _ + _ - 2) with (q + 1) by lia. lia.
    + replace (12 * _ + _ - 2) with (q + 1) by lia. lia.
Qed.

(** The instants at which a plan's quota is reset. *)
Definition reset_instant (period : string) (t : Z) : Prop :=
  clock t = 0 ∧
  (period = SubscriptionResetWeekly -> Weekday t = 1) ∧
  (period = SubscriptionResetMonthly -> Day t = 1).

(** [next] is the first reset instant after [base]. *)
Definition first_reset (period : string) (base next : Z) : Prop :=
  base < next ∧ reset_instant period next ∧
  ∀ t, base < t < next -> ~ reset_instant period t.

Lemma midnight_after base t :
  base < t -> clock t = 0 -> local_day base < local_day t.
Proof.
  intros Hb Hc. pose proof (local_split off base). pose proof (local_split off t). lia.
Qed.

Lemma before_midnight d t : t < d * 86400 - off -> local_day t < d.
Proof. intros Hb. pose proof (local_split off t). lia. Qed.

Lemma daily_first base :
  first_reset SubscriptionResetDaily base ((local_day base + 1) * 86400 - off).
Proof.
  destruct (local_midnight (local_day base + 1)) as [Hd Hc].
  pose proof (local_split off base). split_and!; [lia|by split_and!|].
  intros t [Hb Ht] [Hct _]. apply midnight_after in Hb; [|done].
  apply before_midnight in Ht. lia.
Qed.

Lemma weekly_first base :
  first_reset SubscriptionResetWeekly base
    ((local_day base + (8 - (if Weekday base =? 0 then 7 else Weekday base))) * 86400 - off).
Proof.
  set (k := 8 - _). destruct (local_midnight (local_day base + k)) as [Hd Hc].
  pose proof (local_split off base).
  assert (1 <= k <= 7 ∧ (local_day base + k + 4) mod 7 = 1 ∧
    ∀ j, 0 < j < k -> (local_day base + j + 4) mod 7 ≠ 1) as (Hk & Hm & Hj).
  { subst k. unfold Weekday. destruct (Z.eqb_spec ((local_day base + 4) mod 7) 0);
      split_and!; try (clear Hd Hc; divlia); intros j ?; clear Hd Hc; divlia. }
  split_and!; [lia| |].
  - split_and!; [done|intros _; unfold Weekday; by rewrite Hd|done].
  - intros t [Hb Ht] (Hct & Hw & _). apply midnight_after in Hb; [|done].
    apply before_midnight in Ht. apply (Hj (local_day t - local_day base)); [lia|].
    specialize (Hw eq_refl). unfold Weekday in Hw.
    by replace (local_day base + (local_day t - local_day base)) with (local_day t) by lia.
Qed.

Lemma monthly_first base :
  first_reset SubscriptionResetMonthly base
    (fom ((month_day (local_day base)).1 + 1) * 86400 - off).
Proof.
  pose proof (month_day_spec (local_day base)) as Hs.
  destruct (month_day (local_day base)) as [q d] eqn:Emd; simpl.
  destruct Hs as (Hd1 & Hz & Hlt). pose proof (fom_succ (q + 1)) as Hfs.
  destruct (local_midnight (fom (q + 1))) as [Hd Hc]. pose proof (local_split off base).
  split_and!; [lia| |].
  - split_and!; [done|done|]. intros _. rewrite (proj2 (civil_index _)), Hd.
    by rewrite (month_day_unique (q + 1) 1) by lia.
  - intros t [Hb Ht] (Hct & _ & Hday). apply midnight_after in Hb; [|done].
    apply before_midnight in Ht. specialize (Hday eq_refl).
    rewrite (proj2 (civil_index t)) in Hday.
    pose proof (month_day_spec (local_day t)) as Hs.
    destruct (month_day (local_day t)) as [q' d']; simpl in *. subst d'.
    pose proof (fom_lt q q'). pose proof (fom_lt q' (q + 1)). lia.
Qed.

Lemma dmul_seconds n : 0 < n <= 9223372036 -> dmul n Second = n * 1000000000.
Proof.
  intros H. unfold dmul, Second. apply wrap64_id. unfold int64_range. lia.
Qed.

(** Periods that fit a [time.Duration]. *)
Definition sane_custom (plan : SubscriptionPlan) : Prop :=
  SubscriptionPlan_QuotaResetCustomSeconds plan <= 9223372036.

Lemma next_reset_spec base plan next :
  timely base -> sane_custom plan -> next_reset base plan = Some next ->
  let period := NormalizeResetPeriod (SubscriptionPlan_QuotaResetPeriod plan) in
  (period = SubscriptionResetCustom ∧
     next = base + SubscriptionPlan_QuotaResetCustomSeconds plan ∧ base < next) ∨
  (period ≠ SubscriptionResetCustom ∧ first_reset period base next).
Proof.
  intros Ht Hc. unfold next_reset. set (p := NormalizeResetPeriod _). simpl.
  repeat case_bool_decide; try done.
  - intros [= <-]. right. split; [by rewrite H0|]. rewrite H0, days_after by (done || lia).
    apply daily_first.
  - intros [= <-]. right. split; [by rewrite H1|]. rewrite H1, days_after.
    + apply weekly_first.
    + done.
    + unfold Weekday. destruct (_ =? 0) eqn:E; [lia|].
      pose proof (Z.mod_pos_bound (local_day base + 4) 7). lia.
  - intros [= <-]. right. split; [by rewrite H2|].
    destruct (first_of_month base Ht) as [-> ->]. rewrite H2. apply monthly_first.
  - destruct (_ <=? 0) eqn:E; [done|]. intros [= <-]. left.
    unfold sane_custom in Hc. rewrite dmul_seconds by lia. unfold Add.
    rewrite Z.div_mul by lia. split_and!; [done|done|lia].
Qed.

(** Quota resets happen when they should (in a time zone with a fixed
    offset): the daily, weekly and monthly reset
    after [base] is the first local midnight, the first Monday midnight, the
    first midnight of a month after [base] (no such instant is skipped), and a
    custom reset comes its period after [base]. *)
Theorem next_reset_is_first base plan next :
  timely base -> sane_custom plan -> next_reset base plan = Some next ->
  let period := NormalizeResetPeriod (SubscriptionPlan_QuotaResetPeriod plan) in
  (period = SubscriptionResetCustom ∧
     next = base + SubscriptionPlan_QuotaResetCustomSeconds plan ∧ base < next) ∨
  (period ≠ SubscriptionResetCustom ∧ first_reset period base next).
Proof. apply next_reset_spec. Qed.

Lemma next_reset_gt base plan next :
  timely base -> sane_custom plan -> next_reset base plan = Some next -> base < next.
Proof.
  intros Ht Hc Hn. destruct (next_reset_spec base plan next Ht Hc Hn) as [(_ & _ & ?)|[_ [? _]]]; lia.
Qed.

Lemma calcNextResetTime_cases base plan endUnix :
  timely base -> sane_custom plan ->
  calcNextResetTime base plan endUnix = 0 ∨
  next_reset base plan = Some (calcNextResetTime base plan endUnix) ∧
    base < calcNextResetTime base plan endUnix ∧
    (0 < endUnix -> calcNextResetTime base plan endUnix <= endUnix).
Proof.
  intros Ht Hc. unfold calcNextResetTime. destruct (next_reset base plan) as [next|] eqn:E; [|by left].
  pose proof (next_reset_gt _ _ _ Ht Hc E).
  destruct (_ && _) eqn:E2; [by left|]. right. split_and!; [done|done|]. intros.
  apply andb_false_iff in E2 as [?|?]; lia.
Qed.

(** ** The catch-up loop *)

(** What holds at every test of the loop that started at [base0]. *)
Definition loop_inv (plan : SubscriptionPlan) (endUnix now base0 : Z) (s : Z * Z * bool) : Prop :=
  let '(base, next, advanced) := s in
  next = calcNextResetTime base plan endUnix ∧ base0 <= base ∧ timely base ∧
  (advanced = false -> base = base0) ∧
  (advanced = true -> base0 < base <= now).

Lemma reset_round_inv plan endUnix now base0 s s' :
  timely now -> timely base0 -> sane_custom plan -> loop_inv plan endUnix now base0 s ->
  reset_round plan endUnix now s = inl s' ->
  loop_inv plan endUnix now base0 s' ∧
  0 < now - s.1.1 + 1 ∧ now - s'.1.1 + 1 < now - s.1.1 + 1.
Proof.
  destruct s as [[base next] adv]. intros Hn Hb0 Hc (-> & Hle & Ht & Hf & Ha). simpl.
  destruct (_ && _) eqn:E; [|done]. intros [= <-]. simpl.
  apply andb_true_iff in E as [E1 E2].
  destruct (calcNextResetTime_cases base plan endUnix Ht Hc) as [E0|(_ & Hgt & _)]; [lia|].
  unfold timely in *. split_and!; try done; lia.
Qed.

Lemma loop_start plan endUnix now base :
  timely base -> loop_inv plan endUnix now base (base, calcNextResetTime base plan endUnix, false).
Proof. intros. simpl. split_and!; done || lia. Qed.

Lemma advance_resets_spec plan endUnix now base :
  timely now -> timely base -> sane_custom plan ->
  ∃ base' next advanced,
    advance_resets plan endUnix now base = inr (base', next, advanced) ∧
    loop_inv plan endUnix now base (base', next, advanced) ∧
    (next <= 0 ∨ now < next).
Proof.
  intros Hn Hb Hc. unfold advance_resets. set (s0 := (base, _, false)).
  destruct (iter_until_ends (reset_round plan endUnix now)
    (loop_inv plan endUnix now base) (λ s, now - s.1.1 + 1) (Z.to_pos (now - base + 2)) s0)
    as [[[base' next] adv] Hr].
  - intros s s'. by apply reset_round_inv.
  - by apply loop_start.
  - unfold s0; simpl. lia.
  - exists base', next, adv. split; [done|].
    pose proof (iter_until_inv (reset_round plan endUnix now)
      (loop_inv plan endUnix now base)
      (λ s, loop_inv plan endUnix now base s ∧ (s.1.2 <= 0 ∨ now < s.1.2))
      (Z.to_pos (now - base + 2)) s0) as HI.
    rewrite Hr in HI. apply HI; [|by apply loop_start].
    intros s Hs. destruct (reset_round plan endUnix now s) as [s'|r] eqn:E.
    + eapply reset_round_inv in E as (? & _); done.
    + destruct s as [[b n] a]. simpl in E. destruct (_ && _) eqn:E2; [done|].
      injection E as <-. split; [done|]. simpl.
      apply andb_false_iff in E2 as [?|?]; lia.
Qed.

(** In a zone with a fixed offset the loop that catches up with missed resets
    terminates (the seconds from
    the last reset to now are rounds enough) and leaves no due reset behind: it
    ends at the last reset instant not after [now], and the reset it schedules is
    after [now] (or there is none before the subscription ends). *)
Theorem advance_resets_terminates plan endUnix now base :
  timely now -> timely base -> sane_custom plan ->
  ∃ base' next advanced,
    advance_resets plan endUnix now base = inr (base', next, advanced) ∧
    next = calcNextResetTime base' plan endUnix ∧ (next <= 0 ∨ now < next) ∧
    (if advanced then base < base' <= now else base' = base).
Proof.
  intros Hn Hb Hc. destruct (advance_resets_spec plan endUnix now base Hn Hb Hc)
    as (b & n & a & Hr & (Hnx & _ & _ & Hf & Ha) & Hd).
  exists b, n, a. split_and!; try done. destruct a; auto.
Qed.

(** ** The end of a plan *)

(** Durations that fit a [time.Duration] (106751 days), and calendar periods of
    at most [2 ^ 31] years or months, the width of the column. *)
Definition sane_duration (plan : SubscriptionPlan) : Prop :=
  (SubscriptionPlan_DurationUnit plan = SubscriptionDurationDay ->
     SubscriptionPlan_DurationValue plan <= 106751) ∧
  (SubscriptionPlan_DurationUnit plan = SubscriptionDurationHour ->
     SubscriptionPlan_DurationValue plan <= 2562047) ∧
  SubscriptionPlan_DurationValue plan < 2 ^ 31 ∧
  SubscriptionPlan_CustomSeconds plan <= 9223372036.

(** Moving [n] months ahead, the clock kept. *)
Lemma months_later t y m n :
  timely t -> 0 < n < 2 ^ 36 -> 12 * y + m = n -> t < AddDate t y m 0.
Proof.
  intros Ht Hn E. unfold AddDate. pose proof (local_split off t) as [Hl Hc].
  pose proof (month_ahead off t n) as Hm. destruct (civil_index t) as [Hq Hd].
  pose proof (month_day_spec (local_day t)) as Hs.
  destruct (month_day (local_day t)) as [q d]; simpl in *.
  pose proof (fom_upper q n ltac:(lia)) as Hu. pose proof (fom_succ q) as Hfs.
  assert (12 * (Year t + y) + (Month t + m - 1) - 2 = q + n) as E1 by lia.
  replace (12 * Year t + (Month t + n - 1) - 2) with (q + n) in Hm by lia.
  unfold timely in Ht. rewrite (Date_fixed off); rewrite E1; lia.
Qed.

(** A purchased plan ends after it starts (in a zone with a fixed offset): whenever [calcPlanEndTime] accepts
    a plan, the end is later than the start, by exactly the configured seconds
    for plans in days, hours and custom seconds. *)
Theorem plan_ends_after_start start plan e :
  timely start -> sane_duration plan -> calcPlanEndTime start plan = Ok e ->
  start < e ∧
  (SubscriptionPlan_DurationUnit plan = SubscriptionDurationDay ->
     e = start + SubscriptionPlan_DurationValue plan * 86400) ∧
  (SubscriptionPlan_DurationUnit plan = SubscriptionDurationHour ->
     e = start + SubscriptionPlan_DurationValue plan * 3600) ∧
  (SubscriptionPlan_DurationUnit plan = SubscriptionDurationCustom ->
     e = start + SubscriptionPlan_CustomSeconds plan).
Proof.
  intros Ht (Hday & Hhour & Hv & Hcu). unfold calcPlanEndTime.
  destruct (_ && _) eqn:E0; [done|].
  assert (SubscriptionPlan_DurationUnit plan ≠ SubscriptionDurationCustom ->
    0 < SubscriptionPlan_DurationValue plan) as E.
  { intros Hu. rewrite bool_decide_false in E0 by done. rewrite andb_true_r in E0. lia. }
  clear E0. repeat (case_bool_decide as Hu;
    [clear -Ht Hoff Hday Hhour Hv Hcu E Hu; rewrite Hu in *; intros He|clear Hu]); try done.
  - injection He as <-. specialize (E ltac:(done)).
    split; [apply (months_later _ _ _ (12 * SubscriptionPlan_DurationValue plan)); (done || lia)|done].
  - injection He as <-. specialize (E ltac:(done)).
    split; [apply (months_later _ _ _ (SubscriptionPlan_DurationValue plan)); (done || lia)|done].
  - injection He as <-. specialize (E ltac:(done)). specialize (Hday eq_refl).
    assert (dmul (dmul (SubscriptionPlan_DurationValue plan) 24) Hour =
      SubscriptionPlan_DurationValue plan * 86400 * 1000000000) as ->.
    { unfold dmul, Hour. rewrite !wrap64_id; unfold int64_range; [lia|lia|].
      rewrite wrap64_id; unfold int64_range; lia. }
    unfold Add. rewrite Z.div_mul by lia. split_and!; (done || lia).
  - injection He as <-. specialize (E ltac:(done)). specialize (Hhour eq_refl).
    assert (dmul (SubscriptionPlan_DurationValue plan) Hour =
      SubscriptionPlan_DurationValue plan * 3600 * 1000000000) as ->.
    { unfold dmul, Hour. rewrite wrap64_id; unfold int64_range; lia. }
    unfold Add. rewrite Z.div_mul by lia. split_and!; (done || lia).
  - destruct (_ <=? 0) eqn:E2; [done|]. injection He as <-.
    rewrite dmul_seconds by lia. unfold Add. rewrite Z.div_mul by lia.
    split_and!; (done || lia).
Qed.
End fixed.

Definition sample_plan : SubscriptionPlan :=
  mkSubscriptionPlan 7 "Pro" (float_of_int 10) "month" 1 0 true None None 0 "vip" "" 1000
    " weekly " 0.

(** 2024-02-29 12:00 UTC plus a month is 2024-03-29; the next Monday is March 4. *)
Example plan_ex :
  let _ := fixed_zone 0 in
  calcPlanEndTime 1709208000 sample_plan = Ok 1711713600 ∧
  calcNextResetTime 1709208000 sample_plan 1711713600 = 1709510400.
Proof. vm_compute. done. Qed.

(** A plan in days, and one with a custom reset period. *)
Definition days_plan (days : Z) : SubscriptionPlan :=
  mkSubscriptionPlan 7 "Pro" (float_of_int 10) "day" days 0 true None None 0 "" "" 1000 "never" 0.
Definition custom_plan (seconds : Z) : SubscriptionPlan :=
  mkSubscriptionPlan 7 "Pro" (float_of_int 10) "month" 1 0 true None None 0 "" "" 1000
    "custom" seconds.

(** Overflow: the product of days and nanoseconds wraps around, so a plan of
    106752 days or more (292 years) that is bought in 2023 ends before it
    starts. *)
Theorem plan_duration_overflows :
  let _ := fixed_zone 0 in
  ∃ e, calcPlanEndTime 1700000000 (days_plan 106752) = Ok e ∧ e < 1700000000.
Proof. eexists. split; [vm_compute; reflexivity|done]. Qed.

Lemma stuck_rounds {A R} (step : A -> A + R) s0 s :
  step s0 = inl s -> step s = inl s -> ∀ p, iter_until p step s0 = inl s.
Proof.
  intros H0 H p. revert s0 H0. induction p as [q IH|q IH|]; intros s0 H0; simpl.
  - by rewrite H0, !(IH s).
  - by rewrite (IH s0), (IH s).
  - done.
Qed.

(** Non-termination: with a custom reset period of [2 ^ 55] seconds the
    duration wraps around to zero, the next reset is the last one again, and the
    catch-up loop makes any number of rounds without reaching an end. *)
Theorem reset_loop_diverges (loc : Location) now base endUnix p :
  0 < base <= now -> (endUnix <= 0 ∨ base <= endUnix) ->
  ∃ s, iter_until p (reset_round (custom_plan (2 ^ 55)) endUnix now)
         (base, calcNextResetTime base (custom_plan (2 ^ 55)) endUnix, false) = inl s.
Proof.
  intros Hb He.
  assert (calcNextResetTime base (custom_plan (2 ^ 55)) endUnix = base) as En.
  { unfold calcNextResetTime. change (next_reset base (custom_plan (2 ^ 55)))
      with (Some (Add base (dmul (2 ^ 55) Second))).
    change (dmul (2 ^ 55) Second) with 0. unfold Add. rewrite Z.div_0_l, Z.add_0_r by lia.
    destruct (_ && _) eqn:E; [|done]. apply andb_true_iff in E as [? ?]; lia. }
  rewrite En. exists (base, base, true).
  assert (∀ a, reset_round (custom_plan (2 ^ 55)) endUnix now (base, base, a) =
    inl (base, base, true)) as Hs.
  { intros a. simpl. destruct (_ && _) eqn:E; [by rewrite En|].
    apply andb_false_iff in E as [?|?]; lia. }
  by apply stuck_rounds.
Qed.
