(* ===== verification/Subscription.v ===== *)
(** * Subscription: orders, instances and pre-consumption

    Models the stateful part of [model/subscription.go]: the plan cache, creating
    a subscription from a plan, completing and expiring orders, buying with the
    wallet balance, the administrator's operations, the periodic expiry and
    reset jobs, and pre-consuming, refunding and settling a request's quota
    against a subscription.  Every function is translated whole; a closure run
    by [DB.Transaction] is the body of [transaction]. *)

From S2P Require Export Quota Plan.

Definition TopUpStatusPending : string := "pending".
Definition TopUpStatusSuccess : string := "success".
Definition TopUpStatusFailed : string := "failed".
Definition TopUpStatusExpired : string := "expired".
Definition PaymentMethodBalance : string := "balance".
Definition PaymentProviderBalance : string := "balance".

Definition ErrSubscriptionOrderNotFound : error := EText "subscription order not found".
Definition ErrSubscriptionOrderStatusInvalid : error := EText "subscription order status invalid".
Definition ErrPaymentMethodMismatch : error := EText "payment method mismatch".

(** [SubscriptionPreConsumeResult] *)
Record PreConsumeResult : Type := mkPreConsumeResult {
  Res_UserSubscriptionId : Z;
  Res_PreConsumed : Z;
  Res_AmountTotal : Z;
  Res_AmountUsedBefore : Z;
  Res_AmountUsedAfter : Z;
}.

Section subscription.
Context {CFG : Config} {LOC : Location} {DEC : Decimal}.

(** ** Plans and their caches *)

(** [HybridCache.Get] and [SetWithTTL]: Redis when it is on, else memory, which
    does not fail. *)
Definition cache_get {A} (f : World -> option A) : GM (option A) :=
  if RedisEnabled then select f else gets f.
Definition cache_put (f : World -> World) : GM unit :=
  if RedisEnabled then update f else modify f.

Definition InvalidateSubscriptionPlanCache (planId : Z) : GM unit :=
  if planId <=? 0 then ret tt
  else
    do! ignore (cache_put (λ w, set_World_plan_cache (delete planId (World_plan_cache w)) w)) in
    ignore (cache_put (set_World_plan_info_cache ∅)).

Definition getSubscriptionPlanByIdTx (id : Z) : GM SubscriptionPlan :=
  do! fail_if (id <=? 0) (EText "invalid plan id") in
  let! cached := attempt (cache_get (λ w, World_plan_cache w !! id)) in
  match cached with
  | Ok (Some p) => ret (NormalizeDefaults p)
  | _ =>
      let! p := first (λ w, Tables_plans (World_db w) !! id) in
      let p := NormalizeDefaults p in
      do! ignore (cache_put (λ w, set_World_plan_cache (<[id := p]> (World_plan_cache w)) w)) in
      ret p
  end.

Definition GetSubscriptionPlanById (id : Z) : GM SubscriptionPlan := getSubscriptionPlanByIdTx id.

(** ** Queries over the subscriptions *)

Definition subs_where (p : UserSubscription -> bool) (w : World) : list UserSubscription :=
  List.filter p (map_to_list (Tables_subs (World_db w))).*2.

Definition count_subs (p : UserSubscription -> bool) (w : World) : Z :=
  Z.of_nat (length (subs_where p w)).

Definition of_plan (userId planId : Z) (s : UserSubscription) : bool :=
  (UserSubscription_UserId s =? userId) && (UserSubscription_PlanId s =? planId).

(** [user_id = ? AND status = 'active' AND end_time > ?] *)
Definition is_active (userId now : Z) (s : UserSubscription) : bool :=
  (UserSubscription_UserId s =? userId) && bool_decide (UserSubscription_Status s = "active")
  && (now <? UserSubscription_EndTime s).

(** [ORDER BY end_time asc, id asc] and [end_time desc, id desc] *)
Definition ends_first (x y : UserSubscription) : bool :=
  (UserSubscription_EndTime x <? UserSubscription_EndTime y) ||
  (UserSubscription_EndTime x =? UserSubscription_EndTime y) &&
  (UserSubscription_Id x <=? UserSubscription_Id y).
Definition ends_last (x y : UserSubscription) : bool := ends_first y x.

Definition sorted_subs (p : UserSubscription -> bool) le (w : World) : list UserSubscription :=
  rows_where p le (Tables_subs (World_db w)).

Definition CountUserSubscriptionsByPlan (userId planId : Z) : GM Z :=
  do! fail_if ((userId <=? 0) || (planId <=? 0)) (EText "invalid userId or planId") in
  select (count_subs (of_plan userId planId)).

Definition HasActiveUserSubscription (userId : Z) : GM bool :=
  do! fail_if (userId <=? 0) (EText "invalid userId") in
  let! now := GetTimestamp in
  let! count := select (count_subs (is_active userId now)) in
  ret (0 <? count).

Definition UserActiveSubscriptionsAllowWalletOverflow (userId : Z) : GM bool :=
  do! fail_if (userId <=? 0) (EText "invalid userId") in
  let! now := GetTimestamp in
  let! strictCount := select (count_subs (λ s, is_active userId now s &&
                        negb (UserSubscription_AllowWalletOverflow s))) in
  ret (strictCount =? 0).

(** [buildSubscriptionSummaries] copies each row into a summary. *)
Definition buildSubscriptionSummaries (subs : list UserSubscription) : list UserSubscription :=
  subs.

Definition GetAllActiveUserSubscriptions (userId : Z) : GM (list UserSubscription) :=
  do! fail_if (userId <=? 0) (EText "invalid userId") in
  let! now := GetTimestamp in
  let! subs := select (sorted_subs (is_active userId now) ends_last) in
  ret (buildSubscriptionSummaries subs).

Definition GetAllUserSubscriptions (userId : Z) : GM (list UserSubscription) :=
  do! fail_if (userId <=? 0) (EText "invalid userId") in
  let! subs := select (sorted_subs (λ s, UserSubscription_UserId s =? userId) ends_last) in
  ret (buildSubscriptionSummaries subs).

(** ** User groups *)

Definition getUserGroupByIdTx (userId : Z) : GM string :=
  do! fail_if (userId <=? 0) (EText "invalid userId") in
  select (λ w, from_option User_Group "" (user_row userId w)).

Definition set_user_group (userId : Z) (group : string) : GM unit :=
  update (on_db (upd_user userId (set_User_Group group))).

Definition has_upgrade (s : UserSubscription) : bool :=
  negb (bool_decide (UserSubscription_UpgradeGroup s = "")).

(** [downgradeUserGroupForSubscriptionTx]: the group the user falls back to, ""
    when nothing changes.  A failing look-up of other subscriptions counts as
    "none". *)
Definition downgradeUserGroupForSubscriptionTx (sub : UserSubscription) (now : Z) : GM string :=
  let downgradeGroup := TrimSpace (UserSubscription_DowngradeGroup sub) in
  let upgradeGroup := TrimSpace (UserSubscription_UpgradeGroup sub) in
  if bool_decide (downgradeGroup = "") && bool_decide (upgradeGroup = "") then ret ""
  else
    let userId := UserSubscription_UserId sub in
    let! currentGroup := getUserGroupByIdTx userId in
    let! active := attempt (select (subs_where (λ s, is_active userId now s &&
                     negb (UserSubscription_Id s =? UserSubscription_Id sub) && has_upgrade s))) in
    if (match active with Ok (_ :: _) => true | _ => false end) then ret ""
    else if bool_decide (downgradeGroup = "") && negb (bool_decide (currentGroup = upgradeGroup))
    then ret ""
    else
      let target := if bool_decide (downgradeGroup = "")
                    then TrimSpace (UserSubscription_PrevUserGroup sub) else downgradeGroup in
      if bool_decide (target = "") || bool_decide (target = currentGroup) then ret ""
      else do! set_user_group userId target in ret target.

(** ** Creating a subscription *)

(** [tx.Create(sub)]: the next id; the hook stamps the row. *)
Definition create_sub (s : UserSubscription) : GM UserSubscription :=
  create (λ _, false) (λ w,
    let s := set_UserSubscription_Id (Tables_next_sub (World_db w)) s in
    (s, on_db (λ t, set_Tables_next_sub (Tables_next_sub t + 1) (put_sub s t)) w)).

(** [tx.Save(sub)]: the hook stamps [UpdatedAt]. *)
Definition save_sub (s : UserSubscription) : GM unit :=
  let! now := GetTimestamp in
  update (on_db (put_sub (set_UserSubscription_UpdatedAt now s))).

Definition CreateUserSubscriptionFromPlanTx (userId : Z) (plan : SubscriptionPlan)
    (source : string) : GM UserSubscription :=
  do! fail_if (SubscriptionPlan_Id plan =? 0) (EText "invalid plan") in
  do! fail_if (userId <=? 0) (EText "invalid user id") in
  do! (if 0 <? SubscriptionPlan_MaxPurchasePerUser plan
       then let! count := select (count_subs (of_plan userId (SubscriptionPlan_Id plan))) in
            fail_if (SubscriptionPlan_MaxPurchasePerUser plan <=? count)
              (EText "已达到该套餐购买上限")
       else ret tt) in
  let! nowUnix := GetDBTimestamp in
  let! endUnix := lift_result (calcPlanEndTime nowUnix plan) in
  let nextReset := calcNextResetTime nowUnix plan endUnix in
  let lastReset := if 0 <? nextReset then nowUnix else 0 in
  let upgradeGroup := TrimSpace (SubscriptionPlan_UpgradeGroup plan) in
  let! prevGroup :=
    (if bool_decide (upgradeGroup = "") then ret ""
     else let! currentGroup := getUserGroupByIdTx userId in
          if bool_decide (currentGroup = upgradeGroup) then ret ""
          else do! set_user_group userId upgradeGroup in ret currentGroup) in
  let! stamp := GetTimestamp in
  create_sub (mkUserSubscription 0 userId (SubscriptionPlan_Id plan)
    (SubscriptionPlan_TotalAmount plan) 0 nowUnix endUnix "active" source lastReset nextReset
    upgradeGroup prevGroup (TrimSpace (SubscriptionPlan_DowngradeGroup plan))
    (default true (SubscriptionPlan_AllowWalletOverflow plan)) stamp stamp).

(** ** Orders *)

Definition save_order (o : SubscriptionOrder) : GM unit := update (on_db (put_order o)).
Definition save_topup (t : TopUp) : GM unit := update (on_db (put_topup t)).
Definition create_topup (t : TopUp) : GM unit :=
  create (λ w, bool_decide (is_Some (topup_row (TopUp_TradeNo t) w)))
    (λ w, (tt, on_db (put_topup t) w)).

(** [SubscriptionOrder.Insert] *)
Definition Insert_order (o : SubscriptionOrder) : GM unit :=
  let! now := GetTimestamp in
  let o := if SubscriptionOrder_CreateTime o =? 0
           then mkSubscriptionOrder (SubscriptionOrder_UserId o) (SubscriptionOrder_PlanId o)
                  (SubscriptionOrder_Money o) (SubscriptionOrder_TradeNo o)
                  (SubscriptionOrder_PaymentMethod o) (SubscriptionOrder_PaymentProvider o)
                  (SubscriptionOrder_Status o) now (SubscriptionOrder_CompleteTime o)
                  (SubscriptionOrder_ProviderPayload o)
           else o in
  create (λ w, bool_decide (is_Some (order_row (SubscriptionOrder_TradeNo o) w)))
    (λ w, (tt, on_db (put_order o) w)).

Definition upsertSubscriptionTopUpTx (order : SubscriptionOrder) : GM unit :=
  let! now := GetTimestamp in
  let! found := attempt (first (topup_row (SubscriptionOrder_TradeNo order))) in
  match found with
  | Err ERecordNotFound =>
      create_topup (mkTopUp (SubscriptionOrder_UserId order) 0 (SubscriptionOrder_Money order)
        (SubscriptionOrder_TradeNo order) (SubscriptionOrder_PaymentMethod order) ""
        (SubscriptionOrder_CreateTime order) now TopUpStatusSuccess)
  | Err e => fail e
  | Ok topup =>
      let topup := set_TopUp_Money (SubscriptionOrder_Money order) topup in
      let method := TopUp_PaymentMethod topup in
      do! fail_if (negb (bool_decide (method = "")) &&
                   negb (bool_decide (method = SubscriptionOrder_PaymentMethod order)))
            ErrPaymentMethodMismatch in
      let topup := set_TopUp_PaymentMethod (SubscriptionOrder_PaymentMethod order) topup in
      let topup := if TopUp_CreateTime topup =? 0
                   then set_TopUp_CreateTime (SubscriptionOrder_CreateTime order) topup
                   else topup in
      save_topup (set_TopUp_Status TopUpStatusSuccess (set_TopUp_CompleteTime now topup))
  end.

(** What the transaction hands to the log: user, plan title, amount, method,
    upgrade group.  User 0 stands for an order that was complete already. *)
Definition order_log : Type := Z * string * float64 * string * string.

Definition CompleteSubscriptionOrder (tradeNo providerPayload expectedPaymentProvider
    actualPaymentMethod : string) : GM unit :=
  do! fail_if (bool_decide (tradeNo = "")) (EText "tradeNo is empty") in
  let! log := transaction (
    let! order := map_err (λ _, ErrSubscriptionOrderNotFound) (first (order_row tradeNo)) in
    do! fail_if (negb (bool_decide (expectedPaymentProvider = "")) &&
                 negb (bool_decide (SubscriptionOrder_PaymentProvider order = expectedPaymentProvider)))
          ErrPaymentMethodMismatch in
    if bool_decide (SubscriptionOrder_Status order = TopUpStatusSuccess)
    then ret ((0, "", fzero, "", "") : order_log)
    else
      do! fail_if (negb (bool_decide (SubscriptionOrder_Status order = TopUpStatusPending)))
            ErrSubscriptionOrderStatusInvalid in
      let! plan := GetSubscriptionPlanById (SubscriptionOrder_PlanId order) in
      let upgradeGroup := TrimSpace (SubscriptionPlan_UpgradeGroup plan) in
      do! CreateUserSubscriptionFromPlanTx (SubscriptionOrder_UserId order) plan "order" in
      do! upsertSubscriptionTopUpTx order in
      let! now := GetTimestamp in
      let order := set_SubscriptionOrder_CompleteTime now
                     (set_SubscriptionOrder_Status TopUpStatusSuccess order) in
      let order := if bool_decide (providerPayload = "") then order
                   else set_SubscriptionOrder_ProviderPayload providerPayload order in
      let order := if negb (bool_decide (actualPaymentMethod = "")) &&
                      negb (bool_decide (SubscriptionOrder_PaymentMethod order = actualPaymentMethod))
                   then set_SubscriptionOrder_PaymentMethod actualPaymentMethod order
                   else order in
      do! save_order order in
      ret (SubscriptionOrder_UserId order, SubscriptionPlan_Title plan,
           SubscriptionOrder_Money order, SubscriptionOrder_PaymentMethod order, upgradeGroup)) in
  let '(logUserId, logPlanTitle, logMoney, logPaymentMethod, upgradeGroup) := log in
  do! (if negb (bool_decide (upgradeGroup = "")) && (0 <? logUserId)
       then ignore (updateUserGroupCache logUserId upgradeGroup) else ret tt) in
  if 0 <? logUserId
  then RecordLog logUserId LogTypeTopup "订阅购买成功，套餐: %s，支付金额: %.2f，支付方式: %s"
         [AStr logPlanTitle; AFloat logMoney; AStr logPaymentMethod]
  else ret tt.

Definition ExpireSubscriptionOrder (tradeNo expectedPaymentProvider : string) : GM unit :=
  do! fail_if (bool_decide (tradeNo = "")) (EText "tradeNo is empty") in
  transaction (
    let! order := map_err (λ _, ErrSubscriptionOrderNotFound) (first (order_row tradeNo)) in
    do! fail_if (negb (bool_decide (expectedPaymentProvider = "")) &&
                 negb (bool_decide (SubscriptionOrder_PaymentProvider order = expectedPaymentProvider)))
          ErrPaymentMethodMismatch in
    if negb (bool_decide (SubscriptionOrder_Status order = TopUpStatusPending)) then ret tt
    else
      let! now := GetTimestamp in
      save_order (set_SubscriptionOrder_CompleteTime now
                    (set_SubscriptionOrder_Status TopUpStatusExpired order))).

(** ** Administrator *)

Definition AdminBindSubscription (userId planId : Z) : GM string :=
  do! fail_if ((userId <=? 0) || (planId <=? 0)) (EText "invalid userId or planId") in
  let! plan := GetSubscriptionPlanById planId in
  do! transaction (CreateUserSubscriptionFromPlanTx userId plan "admin") in
  if bool_decide (TrimSpace (SubscriptionPlan_UpgradeGroup plan) = "") then ret ""
  else
    do! ignore (updateUserGroupCache userId (SubscriptionPlan_UpgradeGroup plan)) in
    ret ("用户分组将升级到 " +:+ SubscriptionPlan_UpgradeGroup plan).

Definition fallback_message (group : string) : string :=
  if bool_decide (group = "") then "" else "用户分组将回退到 " +:+ group.

Definition AdminInvalidateUserSubscription (userSubscriptionId : Z) : GM string :=
  do! fail_if (userSubscriptionId <=? 0) (EText "invalid userSubscriptionId") in
  let! now := GetTimestamp in
  let! (userId, target) := transaction (
    let! sub := first (sub_row userSubscriptionId) in
    let sub := set_UserSubscription_UpdatedAt now (set_UserSubscription_EndTime now
                 (set_UserSubscription_Status "cancelled" sub)) in
    do! update (on_db (put_sub sub)) in
    let! target := downgradeUserGroupForSubscriptionTx sub now in
    ret (UserSubscription_UserId sub, target)) in
  do! (if negb (bool_decide (target = "")) && (0 <? userId)
       then ignore (updateUserGroupCache userId target) else ret tt) in
  ret (fallback_message target).

Definition delete_sub (id : Z) (t : Tables) : Tables :=
  set_Tables_subs (delete id (Tables_subs t)) t.

Definition AdminDeleteUserSubscription (userSubscriptionId : Z) : GM string :=
  do! fail_if (userSubscriptionId <=? 0) (EText "invalid userSubscriptionId") in
  let! now := GetTimestamp in
  let! (userId, target) := transaction (
    let! sub := first (sub_row userSubscriptionId) in
    let! target := downgradeUserGroupForSubscriptionTx sub now in
    do! update (on_db (delete_sub userSubscriptionId)) in
    ret (UserSubscription_UserId sub, target)) in
  do! (if negb (bool_decide (target = "")) && (0 <? userId)
       then ignore (updateUserGroupCache userId target) else ret tt) in
  ret (fallback_message target).

(** ** Buying with the balance *)

Definition calcSubscriptionBalanceQuota (priceAmount : float64) : result Z :=
  if fleb priceAmount fzero then Ok 0
  else if fleb QuotaPerUnit fzero then Err (EText "额度单位配置错误")
  else Ok (dIntPart (dCeil (dMul (NewFromFloat priceAmount) (NewFromFloat QuotaPerUnit)))).

(** [nonce]: the random string and the clock reading that make the trade number
    unique. *)
Definition PurchaseSubscriptionWithBalance (userId planId : Z) (nonce : string) : GM unit :=
  do! fail_if ((userId <=? 0) || (planId <=? 0)) (EText "invalid userId or planId") in
  let! (logPlanTitle, logMoney, chargedQuota, upgradeGroup) := transaction (
    let! plan := getSubscriptionPlanByIdTx planId in
    do! fail_if (negb (SubscriptionPlan_Enabled plan)) (EText "套餐未启用") in
    do! fail_if (fltb (SubscriptionPlan_PriceAmount plan) fzero) (EText "套餐价格不能为负数") in
    do! fail_if (match SubscriptionPlan_AllowBalancePay plan with
                 | Some false => true | _ => false end) (EText "该套餐不允许使用余额兑换") in
    let! requiredQuota := lift_result
      (calcSubscriptionBalanceQuota (SubscriptionPlan_PriceAmount plan)) in
    let! user := first (user_row userId) in
    do! fail_if ((0 <? requiredQuota) && (User_Quota user <? requiredQuota)) (EText "余额不足") in
    do! (if 0 <? requiredQuota then decreaseUserQuota userId requiredQuota else ret tt) in
    do! CreateUserSubscriptionFromPlanTx userId plan PaymentMethodBalance in
    let! now := GetTimestamp in
    let order := mkSubscriptionOrder userId (SubscriptionPlan_Id plan)
      (SubscriptionPlan_PriceAmount plan) ("SUBBALUSR" +:+ pretty userId +:+ "NO" +:+ nonce)
      PaymentMethodBalance PaymentProviderBalance TopUpStatusSuccess now now
      ("charged_quota=" +:+ pretty requiredQuota) in
    do! create (λ w, bool_decide (is_Some (order_row (SubscriptionOrder_TradeNo order) w)))
          (λ w, (tt, on_db (put_order order) w)) in
    ret (SubscriptionPlan_Title plan, SubscriptionPlan_PriceAmount plan, requiredQuota,
         TrimSpace (SubscriptionPlan_UpgradeGroup plan))) in
  do! (if 0 <? chargedQuota then ignore (cacheDecrUserQuota userId chargedQuota) else ret tt) in
  do! (if bool_decide (upgradeGroup = "") then ret tt
       else ignore (updateUserGroupCache userId upgradeGroup)) in
  RecordLog userId LogTypeTopup "使用余额购买订阅成功，套餐: %s，支付金额: %.2f，扣除额度: %d"
    [AStr logPlanTitle; AFloat logMoney; AInt chargedQuota].

(** ** Expiry *)

(** [status = 'active' AND end_time > 0 AND end_time <= ?] *)
Definition is_due (now : Z) (s : UserSubscription) : bool :=
  bool_decide (UserSubscription_Status s = "active") && (0 <? UserSubscription_EndTime s)
  && (UserSubscription_EndTime s <=? now).

Definition defines_group (s : UserSubscription) : bool :=
  negb (bool_decide (UserSubscription_DowngradeGroup s = "")) || has_upgrade s.

(** Mark the user's due subscriptions; the number of rows. *)
Definition expire_user_rows (userId now : Z) : GM Z :=
  let due s := (UserSubscription_UserId s =? userId) && is_due now s in
  let! stamp := GetTimestamp in
  exec (λ w, (Ok (count_subs due w), on_db (λ t, set_Tables_subs
    ((λ s, if due s then set_UserSubscription_UpdatedAt stamp
                           (set_UserSubscription_Status "expired" s) else s)
       <$> Tables_subs t) t) w)).

(** The group an expired subscription leaves the user in; "" for no change. *)
Definition expiry_target (lastExpired : UserSubscription) (currentGroup : string) : string :=
  let explicit := TrimSpace (UserSubscription_DowngradeGroup lastExpired) in
  let upgradeGroup := TrimSpace (UserSubscription_UpgradeGroup lastExpired) in
  let prevGroup := TrimSpace (UserSubscription_PrevUserGroup lastExpired) in
  let target :=
    if negb (bool_decide (explicit = "")) then explicit
    else if bool_decide (upgradeGroup = "") || bool_decide (prevGroup = "") then ""
    else if negb (bool_decide (currentGroup = upgradeGroup)) then ""
    else prevGroup in
  if bool_decide (target = currentGroup) then "" else target.

(** The rest of the transaction: the group to put into the cache. *)
Definition expire_user_group (userId now : Z) : GM string :=
  let! active := attempt (select (subs_where (λ s, is_active userId now s && has_upgrade s))) in
  if (match active with Ok (_ :: _) => true | _ => false end) then ret ""
  else
    let! expired := attempt (select (sorted_subs (λ s,
      (UserSubscription_UserId s =? userId) && bool_decide (UserSubscription_Status s = "expired")
      && defines_group s) ends_last)) in
    match expired with
    | Ok (lastExpired :: _) =>
        let! currentGroup := getUserGroupByIdTx userId in
        let target := expiry_target lastExpired currentGroup in
        if bool_decide (target = "") then ret ""
        else do! set_user_group userId target in ret target
    | _ => ret ""
    end.

(** The loop over the users.  The count keeps the rows of a transaction that
    fails after marking them. *)
Fixpoint expire_users (userIds : list Z) (now expiredCount : Z) : GM (Z * option error) :=
  match userIds with
  | [] => ret (expiredCount, None)
  | userId :: rest =>
      let! (r, expiredCount) := transaction_var expiredCount (
        let! n := attempt (expire_user_rows userId now) in
        match n with
        | Err e => ret (Err e, expiredCount)
        | Ok n =>
            let! r := attempt (expire_user_group userId now) in
            ret (r, expiredCount + n)
        end) in
      match r with
      | Err e => ret (expiredCount, Some e)
      | Ok cacheGroup =>
          do! (if bool_decide (cacheGroup = "") then ret tt
               else ignore (updateUserGroupCache userId cacheGroup)) in
          expire_users rest now expiredCount
      end
  end.

Definition ExpireDueSubscriptions (limit : Z) : GM (Z * option error) :=
  let limit := if limit <=? 0 then 200 else limit in
  let! now := GetDBTimestamp in
  let! subs := attempt (select (sorted_subs (is_due now) ends_first)) in
  match subs with
  | Err e => ret (0, Some e)
  | Ok subs =>
      let subs := take (Z.to_nat limit) subs in
      let userIds := list_to_set
        (List.filter (λ u, 0 <? u) (UserSubscription_UserId <$> subs)) in
      expire_users (map_order userIds) now 0
  end.

(** ** Resets *)

Definition maybeResetUserSubscriptionWithPlanTx (sub : UserSubscription)
    (plan : SubscriptionPlan) (now : Z) : GM UserSubscription :=
  let next0 := UserSubscription_NextResetTime sub in
  if (0 <? next0) && (now <? next0) then ret sub
  else if bool_decide (NormalizeResetPeriod (SubscriptionPlan_QuotaResetPeriod plan)
                       = SubscriptionResetNever) then ret sub
  else
    let baseUnix := if UserSubscription_LastResetTime sub <=? 0
                    then UserSubscription_StartTime sub
                    else UserSubscription_LastResetTime sub in
    match advance_resets plan (UserSubscription_EndTime sub) now baseUnix with
    | inl _ => fail (EText "reset loop: out of rounds")
    | inr (base, next, advanced) =>
        if negb advanced then
          if (next0 =? 0) && (0 <? next)
          then let sub := set_UserSubscription_LastResetTime base
                            (set_UserSubscription_NextResetTime next sub) in
               do! save_sub sub in ret sub
          else ret sub
        else
          let sub := set_UserSubscription_NextResetTime next
                       (set_UserSubscription_LastResetTime base
                          (set_UserSubscription_AmountUsed 0 sub)) in
          do! save_sub sub in ret sub
    end.

(** [next_reset_time > 0 AND next_reset_time <= ?] *)
Definition reset_due (now : Z) (s : UserSubscription) : bool :=
  (0 <? UserSubscription_NextResetTime s) && (UserSubscription_NextResetTime s <=? now).

Definition resets_first (x y : UserSubscription) : bool :=
  UserSubscription_NextResetTime x <=? UserSubscription_NextResetTime y.

Fixpoint reset_subs (subs : list UserSubscription) (now resetCount : Z) : GM (Z * option error) :=
  match subs with
  | [] => ret (resetCount, None)
  | sub :: rest =>
      let! plan := attempt (getSubscriptionPlanByIdTx (UserSubscription_PlanId sub)) in
      match plan with
      | Err _ => reset_subs rest now resetCount
      | Ok plan =>
          let! (r, resetCount) := transaction_var resetCount (
            let! locked := attempt (first (λ w,
              match sub_row (UserSubscription_Id sub) w with
              | Some s => if reset_due now s then Some s else None
              | None => None
              end)) in
            match locked with
            | Err _ => ret (Ok tt, resetCount)
            | Ok locked =>
                let! r := attempt (maybeResetUserSubscriptionWithPlanTx locked plan now) in
                match r with
                | Err e => ret (Err e, resetCount)
                | Ok _ => ret (Ok tt, resetCount + 1)
                end
            end) in
          match r with
          | Err e => ret (resetCount, Some e)
          | Ok _ => reset_subs rest now resetCount
          end
      end
  end.

Definition ResetDueSubscriptions (limit : Z) : GM (Z * option error) :=
  let limit := if limit <=? 0 then 200 else limit in
  let! now := GetDBTimestamp in
  let! subs := attempt (select (sorted_subs (λ s, reset_due now s &&
                 bool_decide (UserSubscription_Status s = "active")) resets_first)) in
  match subs with
  | Err e => ret (0, Some e)
  | Ok subs => reset_subs (take (Z.to_nat limit) subs) now 0
  end.

(** ** Consuming *)

Definition refunded : error := EText "subscription pre-consume already refunded".

(** [tx.Create(record)]: the hook stamps the row. *)
Definition create_record (r : SubscriptionPreConsumeRecord) : GM unit :=
  create (λ w, bool_decide (is_Some (record_row (SubscriptionPreConsumeRecord_RequestId r) w)))
    (λ w, (tt, on_db (put_record r) w)).

Definition save_record (r : SubscriptionPreConsumeRecord) : GM unit :=
  let! now := GetTimestamp in
  update (on_db (put_record (set_SubscriptionPreConsumeRecord_UpdatedAt now r))).

(** The loop over the candidates. *)
Fixpoint pre_consume_from (subs : list UserSubscription) (requestId : string)
    (userId amount now : Z) : GM PreConsumeResult :=
  match subs with
  | [] => fail (EText ("subscription quota insufficient, need=" +:+ pretty amount))
  | sub :: rest =>
      let! plan := getSubscriptionPlanByIdTx (UserSubscription_PlanId sub) in
      let! sub := maybeResetUserSubscriptionWithPlanTx sub plan now in
      let usedBefore := UserSubscription_AmountUsed sub in
      if (0 <? UserSubscription_AmountTotal sub) &&
         (wrap64 (UserSubscription_AmountTotal sub - usedBefore) <? amount)
      then pre_consume_from rest requestId userId amount now
      else
        let! stamp := GetTimestamp in
        let! created := attempt (create_record (mkSubscriptionPreConsumeRecord requestId userId
                          (UserSubscription_Id sub) amount "consumed" stamp stamp)) in
        match created with
        | Err e =>
            let! dup := attempt (first (record_row requestId)) in
            match dup with
            | Ok dup =>
                do! fail_if (bool_decide (SubscriptionPreConsumeRecord_Status dup = "refunded"))
                      refunded in
                ret (mkPreConsumeResult (UserSubscription_Id sub)
                       (SubscriptionPreConsumeRecord_PreConsumed dup)
                       (UserSubscription_AmountTotal sub) (UserSubscription_AmountUsed sub)
                       (UserSubscription_AmountUsed sub))
            | Err _ => fail e
            end
        | Ok _ =>
            let sub := set_UserSubscription_AmountUsed (wrap64 (usedBefore + amount)) sub in
            do! save_sub sub in
            ret (mkPreConsumeResult (UserSubscription_Id sub) amount
                   (UserSubscription_AmountTotal sub) usedBefore (UserSubscription_AmountUsed sub))
        end
  end.

(** The transaction of [PreConsumeUserSubscription]. *)
Definition pre_consume_tx (requestId : string) (userId amount now : Z) : GM PreConsumeResult :=
  let! existing := select (record_row requestId) in
  match existing with
  | Some existing =>
      do! fail_if (bool_decide (SubscriptionPreConsumeRecord_Status existing = "refunded"))
            refunded in
      let! sub := first (sub_row (SubscriptionPreConsumeRecord_UserSubscriptionId existing)) in
      ret (mkPreConsumeResult (UserSubscription_Id sub)
             (SubscriptionPreConsumeRecord_PreConsumed existing)
             (UserSubscription_AmountTotal sub) (UserSubscription_AmountUsed sub)
             (UserSubscription_AmountUsed sub))
  | None =>
      let! subs := map_err (λ _, EText "no active subscription")
        (select (sorted_subs (is_active userId now) ends_first)) in
      do! fail_if (bool_decide (subs = [])) (EText "no active subscription") in
      pre_consume_from subs requestId userId amount now
  end.

Definition PreConsumeUserSubscription (requestId : string) (userId amount : Z) :
    GM PreConsumeResult :=
  do! fail_if (userId <=? 0) (EText "invalid userId") in
  do! fail_if (bool_decide (TrimSpace requestId = "")) (EText "requestId is empty") in
  do! fail_if (amount <=? 0) (EText "amount must be > 0") in
  let! now := GetDBTimestamp in
  transaction (pre_consume_tx requestId userId amount now).

Definition PostConsumeUserSubscriptionDelta (userSubscriptionId delta : Z) : GM unit :=
  do! fail_if (userSubscriptionId <=? 0) (EText "invalid userSubscriptionId") in
  if delta =? 0 then ret tt
  else transaction (
    let! sub := first (sub_row userSubscriptionId) in
    let newUsed := wrap64 (UserSubscription_AmountUsed sub + delta) in
    let newUsed := if newUsed <? 0 then 0 else newUsed in
    do! fail_if ((0 <? UserSubscription_AmountTotal sub) &&
                 (UserSubscription_AmountTotal sub <? newUsed))
          (EText ("subscription used exceeds total, used=" +:+ pretty newUsed +:+
                  " total=" +:+ pretty (UserSubscription_AmountTotal sub))) in
    save_sub (set_UserSubscription_AmountUsed newUsed sub)).

(** The refund runs in a transaction of its own inside this one: it is another
    connection's, so undoing the outer transaction undoes only what the outer
    connection wrote, the record. *)
Definition undo_records (before after : World) : World :=
  on_db (set_Tables_records (Tables_records (World_db before))) after.

Definition RefundSubscriptionPreConsume (requestId : string) : GM unit :=
  do! fail_if (bool_decide (TrimSpace requestId = "")) (EText "requestId is empty") in
  transaction_with undo_records (
    let! record := first (record_row requestId) in
    if bool_decide (SubscriptionPreConsumeRecord_Status record = "refunded") then ret tt
    else if SubscriptionPreConsumeRecord_PreConsumed record <=? 0
    then save_record (set_SubscriptionPreConsumeRecord_Status "refunded" record)
    else
      do! PostConsumeUserSubscriptionDelta
            (SubscriptionPreConsumeRecord_UserSubscriptionId record)
            (wrap64 (- SubscriptionPreConsumeRecord_PreConsumed record)) in
      save_record (set_SubscriptionPreConsumeRecord_Status "refunded" record)).

Definition CleanupSubscriptionPreConsumeRecords (olderThanSeconds : Z) : GM Z :=
  let older := if olderThanSeconds <=? 0 then 7 * 24 * 3600 else olderThanSeconds in
  let! now := GetDBTimestamp in
  let cutoff := wrap64 (now - older) in
  let old (r : SubscriptionPreConsumeRecord) :=
    SubscriptionPreConsumeRecord_UpdatedAt r <? cutoff in
  exec (λ w,
    let kept := filter (λ '(_, r), old r = false) (Tables_records (World_db w)) in
    (Ok (Z.of_nat (size (Tables_records (World_db w))) - Z.of_nat (size kept)),
     on_db (set_Tables_records kept) w)).

Definition GetSubscriptionPlanInfoByUserSubscriptionId (userSubscriptionId : Z) : GM (Z * string) :=
  do! fail_if (userSubscriptionId <=? 0) (EText "invalid userSubscriptionId") in
  let! cached := attempt (cache_get (λ w, World_plan_info_cache w !! userSubscriptionId)) in
  match cached with
  | Ok (Some info) => ret info
  | _ =>
      let! sub := first (sub_row userSubscriptionId) in
      let! plan := getSubscriptionPlanByIdTx (UserSubscription_PlanId sub) in
      let info := (UserSubscription_PlanId sub, SubscriptionPlan_Title plan) in
      do! ignore (cache_put (λ w, set_World_plan_info_cache
            (<[userSubscriptionId := info]> (World_plan_info_cache w)) w)) in
      ret info
  end.
End subscription.
