(* ===== verification/Hoare.v ===== *)
(** * Hoare: preserving an invariant, whatever the driver does

    [keeps I m P]: from every world that satisfies [I], running [m] ends in a
    world that satisfies [I], and a value it returns satisfies [P].  The rules
    need of [I] only that it does not speak of the faults to come and survives a
    rollback; with them a component's invariant is checked statement by
    statement, error paths and failed transactions included. *)

From S2P Require Export Store.

Class Stable (I : World -> Prop) := {
  stable_faults : ∀ fs w, I w -> I (set_World_faults fs w);
  stable_rollback : ∀ w w1, I w -> I w1 -> I (set_World_db (World_db w) w1);
}.

Definition keeps (I : World -> Prop) {A} (m : GM A) (P : A -> Prop) : Prop :=
  ∀ w, I w -> wp m (λ r w', I w' ∧ match r with Ok a => P a | Err _ => True end) w.

Definition anything {A} : A -> Prop := λ _, True.

Create HintDb keeps.

Section keeps.
Context (I : World -> Prop) {ST : Stable I}.

Lemma keeps_mono {A} (m : GM A) (P Q : A -> Prop) :
  keeps I m P -> (∀ a, P a -> Q a) -> keeps I m Q.
Proof.
  intros Hm HPQ w Hw. eapply wp_mono; [by apply Hm|]. intros [a|e] w' [? ?]; split; auto.
Qed.

Lemma keeps_any {A} (m : GM A) P : keeps I m P -> keeps I m anything.
Proof. intros H. by eapply keeps_mono. Qed.

Lemma keeps_ret {A} (a : A) (P : A -> Prop) : P a -> keeps I (ret a) P.
Proof. intros H w Hw. by apply wp_ret. Qed.

Lemma keeps_fail {A} e (P : A -> Prop) : keeps I (fail e) P.
Proof. intros w Hw. by apply wp_fail. Qed.

Lemma keeps_bind {A B} (m : GM A) (k : A -> GM B) P Q :
  keeps I m P -> (∀ a, P a -> keeps I (k a) Q) -> keeps I (bind m k) Q.
Proof.
  intros Hm Hk w Hw. apply wp_bind. eapply wp_mono; [by apply Hm|].
  intros [a|e] w' [Hw' HP]; [by apply Hk|done].
Qed.

Lemma keeps_fail_if b e : keeps I (fail_if b e) (λ _, b = false).
Proof. intros w Hw. apply wp_fail_if; intros; done. Qed.

Lemma keeps_lift_result {A} (r : result A) : keeps I (lift_result r) (λ a, r = Ok a).
Proof. destruct r; [by apply keeps_ret|apply keeps_fail]. Qed.

Lemma keeps_lift_option {A} (o : option A) e : keeps I (lift_option o e) (λ a, o = Some a).
Proof. destruct o; [by apply keeps_ret|apply keeps_fail]. Qed.

Lemma keeps_attempt {A} (m : GM A) P :
  keeps I m P -> keeps I (attempt m) (λ r, match r with Ok a => P a | Err _ => True end).
Proof. intros Hm w Hw. apply wp_attempt. by apply Hm. Qed.

Lemma keeps_ignore {A} (m : GM A) P : keeps I m P -> keeps I (ignore m) anything.
Proof.
  intros Hm. eapply keeps_bind; [by apply keeps_attempt|]. intros. by apply keeps_ret.
Qed.

Lemma keeps_map_err {A} f (m : GM A) P : keeps I m P -> keeps I (map_err f m) P.
Proof.
  intros Hm w Hw. apply wp_map_err. eapply wp_mono; [by apply Hm|]. by intros [].
Qed.

Lemma keeps_gets {A} (f : World -> A) (P : A -> Prop) :
  (∀ w, I w -> P (f w)) -> keeps I (gets f) P.
Proof. intros H w Hw. apply wp_gets. auto. Qed.

Lemma keeps_modify f : (∀ w, I w -> I (f w)) -> keeps I (modify f) anything.
Proof. intros H w Hw. apply wp_modify. split; [auto|done]. Qed.

Lemma keeps_go j :
  (∀ js w, I w -> I (set_World_jobs js w)) -> keeps I (go j) anything.
Proof. intros H. apply keeps_modify. auto. Qed.

Lemma keeps_exec {A} (f : World -> result A * World) (P : A -> Prop) :
  (∀ w, I w -> I (f w).2 ∧ match (f w).1 with Ok a => P a | Err _ => True end) ->
  keeps I (exec f) P.
Proof.
  intros H w Hw. apply wp_exec.
  - intros. split; [|done]. by apply stable_faults.
  - intros fs. apply H. by apply stable_faults.
Qed.

Lemma keeps_update f : (∀ w, I w -> I (f w)) -> keeps I (update f) anything.
Proof. intros H. apply keeps_exec. intros w Hw. split; [by apply H|done]. Qed.

Lemma keeps_select {A} (f : World -> A) (P : A -> Prop) :
  (∀ w, I w -> P (f w)) -> keeps I (select f) P.
Proof. intros H. apply keeps_exec. intros w Hw. split; [done|by apply H]. Qed.

Lemma keeps_first {A} (f : World -> option A) (P : A -> Prop) :
  (∀ w a, I w -> f w = Some a -> P a) -> keeps I (first f) P.
Proof.
  intros H. apply keeps_exec. intros w Hw. destruct (f w) eqn:E; simpl; eauto.
Qed.

Lemma keeps_create {A} taken (f : World -> A * World) (P : A -> Prop) :
  (∀ w, I w -> taken w = false -> I (f w).2 ∧ P (f w).1) -> keeps I (create taken f) P.
Proof.
  intros H. apply keeps_exec. intros w Hw. destruct (taken w) eqn:E; simpl; [done|].
  specialize (H w Hw E). by destruct (f w).
Qed.

Lemma keeps_GetTimestamp : keeps I GetTimestamp anything.
Proof. by apply keeps_gets. Qed.

Lemma keeps_GetDBTimestamp : keeps I GetDBTimestamp anything.
Proof.
  intros w Hw. apply wp_GetDBTimestamp. intros. split; [|done]. by apply stable_faults.
Qed.

(** A failed transaction leaves the database of its start. *)
Lemma keeps_transaction {A} (body : GM A) P : keeps I body P -> keeps I (transaction body) P.
Proof.
  intros Hb w Hw. apply wp_transaction.
  - intros. split; [|done]. by apply stable_faults.
  - intros fs0. eapply wp_mono; [apply Hb; by apply stable_faults|].
    intros [a|e] w1 [Hw1 HP].
    + split; intros; (split; [|done]); [by apply stable_faults|].
      apply stable_rollback; by apply stable_faults.
    + split; [|done]. apply stable_rollback; [by apply stable_faults|done].
Qed.

Lemma keeps_transaction_with {A} undo (body : GM A) P :
  (∀ w w1, I w -> I w1 -> I (undo w w1)) ->
  keeps I body P -> keeps I (transaction_with undo body) P.
Proof.
  intros Hu Hb w Hw. apply wp_transaction_with.
  - intros. split; [|done]. by apply stable_faults.
  - intros fs0. eapply wp_mono; [apply Hb; by apply stable_faults|].
    intros [a|e] w1 [Hw1 HP].
    + split; intros; (split; [|done]); [by apply stable_faults|].
      apply Hu; by apply stable_faults.
    + split; [|done]. apply Hu; [by apply stable_faults|done].
Qed.

Lemma keeps_transaction_var {A V} (v : V) (body : GM (result A * V)) P :
  keeps I body P -> keeps I (transaction_var v body) anything.
Proof.
  intros Hb w Hw. apply wp_transaction_var.
  - intros. split; [|done]. by apply stable_faults.
  - intros fs0. eapply wp_mono; [apply Hb; by apply stable_faults|].
    intros [[[a|e] v']|e] w1 [Hw1 HP].
    + split; intros; (split; [|done]); [by apply stable_faults|].
      apply stable_rollback; [done|by apply stable_faults].
    + split; [|done]. by apply stable_rollback.
    + split; [|done]. by apply stable_rollback.
Qed.

Lemma keeps_for_each {A} (f : A -> GM unit) l :
  (∀ x, keeps I (f x) anything) -> keeps I (for_each f l) anything.
Proof.
  intros Hf. induction l as [|x l IH]; simpl; [by apply keeps_ret|].
  eapply keeps_bind; [apply Hf|]. intros. apply IH.
Qed.

(** What [keeps] says about a run. *)
Lemma keeps_run {A} (m : GM A) P w : keeps I m P -> I w -> I (m w).2.
Proof. intros Hm Hw. by apply Hm. Qed.
End keeps.

#[export] Hint Resolve keeps_ret keeps_fail keeps_GetTimestamp keeps_GetDBTimestamp : keeps.

Ltac stable := try lazymatch goal with |- Stable _ => apply _ end.
Tactic Notation "kapply" uconstr(lem) := apply lem; stable.
Tactic Notation "ekapply" uconstr(lem) := eapply lem; stable.

(** Walk through a program; the obligations on single statements remain. *)
Ltac keeps_step :=
  lazymatch goal with
  | |- keeps _ (bind _ _) _ => eapply keeps_bind; [|intros]
  | |- keeps _ (ret _) ?P =>
      first [is_evar P; apply (keeps_ret _ _ anything); exact I | kapply keeps_ret]
  | |- keeps _ (fail _) _ => kapply keeps_fail
  | |- keeps _ (fail_if _ _) _ => first [kapply keeps_fail_if | eapply keeps_any; kapply keeps_fail_if]
  | |- keeps _ (lift_result _) _ => first [kapply keeps_lift_result | eapply keeps_any; kapply keeps_lift_result]
  | |- keeps _ (lift_option _ _) _ => first [kapply keeps_lift_option | eapply keeps_any; kapply keeps_lift_option]
  | |- keeps _ (attempt _) _ => kapply keeps_attempt
  | |- keeps _ (ignore _) _ => ekapply keeps_ignore
  | |- keeps _ (map_err _ _) _ => kapply keeps_map_err
  | |- keeps _ GetTimestamp _ => kapply keeps_GetTimestamp
  | |- keeps _ GetDBTimestamp _ => kapply keeps_GetDBTimestamp
  | |- keeps _ (transaction _) _ => kapply keeps_transaction
  | |- keeps _ (transaction_var _ _) _ => ekapply keeps_transaction_var
  | |- keeps _ (if ?b then _ else _) _ => destruct b eqn:?
  end.
