(* ===== verification/SubInv.v ===== *)
(** * SubInv: a metered subscription is never over-consumed

    The invariant of the subscription tables: a subscription with a positive
    total has used between zero and that total.  Every operation of
    [Subscription] preserves it under every pattern of driver failures, from
    every state, so it holds in every state reachable by any interleaving of the
    operations with clock ticks, failures, cache evictions and plan edits. *)

From S2P Require Export Hoare Subscription.

Definition sub_ok (s : UserSubscription) : Prop :=
  UserSubscription_AmountTotal s < 2 ^ 63 ∧
  (0 < UserSubscription_AmountTotal s ->
   0 <= UserSubscription_AmountUsed s <= UserSubscription_AmountTotal s).

Definition plan_ok (p : SubscriptionPlan) : Prop := SubscriptionPlan_TotalAmount p < 2 ^ 63.

Definition metered (w : World) : Prop :=
  map_Forall (λ _, sub_ok) (Tables_subs (World_db w)) ∧
  map_Forall (λ _, plan_ok) (Tables_plans (World_db w)) ∧
  map_Forall (λ _, plan_ok) (World_plan_cache w).

#[export] Instance metered_stable : Stable metered.
Proof.
  split; [done|]. intros w w1 (H1 & H2 & _) (_ & _ & H3). done.
Qed.

(** An update that leaves the three tables alone. *)
Lemma metered_ext w w' :
  Tables_subs (World_db w') = Tables_subs (World_db w) ->
  Tables_plans (World_db w') = Tables_plans (World_db w) ->
  World_plan_cache w' = World_plan_cache w -> metered w -> metered w'.
Proof. unfold metered. by intros -> -> ->. Qed.

Lemma metered_put_sub s w : sub_ok s -> metered w -> metered (on_db (put_sub s) w).
Proof. intros Hs (H1 & H2 & H3). split_and!; [|done..]. by apply map_Forall_insert_2. Qed.

Lemma metered_sub_row id w s : metered w -> sub_row id w = Some s -> sub_ok s.
Proof. intros (H1 & _) Hs. exact (H1 _ _ Hs). Qed.

Lemma metered_rows p le w :
  metered w -> Forall sub_ok (sorted_subs p le w).
Proof.
  intros (H1 & _). apply Forall_forall. intros s Hs.
  apply elem_of_rows_where in Hs as (_ & k & Hk). exact (H1 _ _ Hk).
Qed.

Section subinv.
Context {CFG : Config} {LOC : Location} {DEC : Decimal}.

(** One statement that leaves the tables of the invariant alone. *)
Ltac untouched :=
  lazymatch goal with
  | |- keeps _ (select _) ?P => first [kapply (keeps_select _ _ anything) | kapply keeps_select]; done
  | |- keeps _ (gets _) _ => kapply (keeps_gets _ _ anything); done
  | |- keeps _ (first _) _ => kapply (keeps_first _ _ anything); done
  | |- keeps _ (update _) _ => kapply keeps_update; intros ? ?; (eapply metered_ext; [..|eassumption]; done)
  | |- keeps _ (modify _) _ => kapply keeps_modify; intros ? ?; (eapply metered_ext; [..|eassumption]; done)
  | |- keeps _ (go _) _ => kapply keeps_go; intros ? ? ?; (eapply metered_ext; [..|eassumption]; done)
  | |- keeps _ (create _ _) _ =>
      kapply (keeps_create _ _ _ anything); intros ? ? _; split; [eapply metered_ext; [..|eassumption]; done|done]
  | |- anything _ => exact I
  end.

Ltac kp := repeat first
  [ keeps_step | solve [eauto with keeps] | untouched
  | match goal with
    | |- keeps _ (match ?x with _ => _ end) _ => destruct x
    | |- keeps _ (let '_ := ?x in _) _ => destruct x
    end ].

Lemma keeps_on_user_hash id f : keeps metered (on_user_hash id f) anything.
Proof. unfold on_user_hash. kp. Qed.
#[local] Hint Resolve keeps_on_user_hash : keeps.

Lemma keeps_updateUserGroupCache id g : keeps metered (updateUserGroupCache id g) anything.
Proof. unfold updateUserGroupCache. kp. Qed.
#[local] Hint Resolve keeps_updateUserGroupCache : keeps.

Lemma keeps_cacheDecrUserQuota id q : keeps metered (cacheDecrUserQuota id q) anything.
Proof. unfold cacheDecrUserQuota, cacheIncrUserQuota. kp. Qed.
#[local] Hint Resolve keeps_cacheDecrUserQuota : keeps.

Lemma keeps_GetUserCache id : keeps metered (GetUserCache id) anything.
Proof. unfold GetUserCache, cacheGetUserBase, GetUserById. kp. Qed.
#[local] Hint Resolve keeps_GetUserCache : keeps.

Lemma keeps_GetUsernameById id b : keeps metered (GetUsernameById id b) anything.
Proof. unfold GetUsernameById, getUserNameCache. kp. Qed.
#[local] Hint Resolve keeps_GetUsernameById : keeps.

Lemma keeps_RecordLog id ty f args : keeps metered (RecordLog id ty f args) anything.
Proof. unfold RecordLog, createLog. kp. Qed.
#[local] Hint Resolve keeps_RecordLog : keeps.

(** ** Reading *)

Lemma plan_ok_defaults p : plan_ok p -> plan_ok (NormalizeDefaults p).
Proof.
  unfold plan_ok, NormalizeDefaults. destruct p; simpl.
  by repeat case_match; simplify_eq/=.
Qed.

Lemma metered_cache_put id p w :
  plan_ok p -> metered w -> metered (set_World_plan_cache (<[id := p]> (World_plan_cache w)) w).
Proof. intros Hp (H1 & H2 & H3). split_and!; [done..|]. by apply map_Forall_insert_2. Qed.

Lemma keeps_getSubscriptionPlanByIdTx id : keeps metered (getSubscriptionPlanByIdTx id) plan_ok.
Proof.
  unfold getSubscriptionPlanByIdTx, cache_get, cache_put.
  eapply keeps_bind; [kp|intros _ _].
  eapply keeps_bind with (P := λ r, match r with Ok (Some p) => plan_ok p | _ => True end).
  { eapply keeps_mono.
    - kapply (keeps_attempt _ _ (λ o, match o with Some p => plan_ok p | None => True end)).
      destruct RedisEnabled; [kapply keeps_select|kapply keeps_gets];
        intros w (_ & _ & H); destruct (_ !! id) eqn:E; by eauto.
    - by intros [[]|]. }
  intros r Hr.
  assert (keeps metered (let! p := first (λ w, Tables_plans (World_db w) !! id) in
      do! ignore (if RedisEnabled
                  then update (λ w, set_World_plan_cache
                         (<[id := NormalizeDefaults p]> (World_plan_cache w)) w)
                  else modify (λ w, set_World_plan_cache
                         (<[id := NormalizeDefaults p]> (World_plan_cache w)) w)) in
      ret (NormalizeDefaults p)) plan_ok) as Hdb.
  { eapply keeps_bind with (P := plan_ok).
    - kapply keeps_first. intros w a (_ & H & _) Ha. exact (H _ _ Ha).
    - intros p Hp%plan_ok_defaults. eapply keeps_bind; [|intros; by apply keeps_ret].
      eapply keeps_ignore. destruct RedisEnabled; [kapply keeps_update|kapply keeps_modify];
        intros; by apply metered_cache_put. }
  destruct r as [[p|]|e]; [|exact Hdb..]. apply keeps_ret, plan_ok_defaults, Hr.
Qed.
#[local] Hint Resolve keeps_getSubscriptionPlanByIdTx : keeps.

Lemma keeps_group id : keeps metered (getUserGroupByIdTx id) anything.
Proof. unfold getUserGroupByIdTx. kp. Qed.
Lemma keeps_set_group id g : keeps metered (set_user_group id g) anything.
Proof. unfold set_user_group. kp. Qed.
#[local] Hint Resolve keeps_group keeps_set_group : keeps.

Lemma keeps_downgrade sub now : keeps metered (downgradeUserGroupForSubscriptionTx sub now) anything.
Proof. unfold downgradeUserGroupForSubscriptionTx. kp. Qed.
#[local] Hint Resolve keeps_downgrade : keeps.

Lemma keeps_sub_row id : keeps metered (first (sub_row id)) sub_ok.
Proof. kapply keeps_first. intros w a. apply metered_sub_row. Qed.
#[local] Hint Resolve keeps_sub_row : keeps.

Lemma keeps_sorted_subs p le : keeps metered (select (sorted_subs p le)) (Forall sub_ok).
Proof. kapply keeps_select. intros w. apply metered_rows. Qed.

(** ** Writing *)

Lemma keeps_save_sub s : sub_ok s -> keeps metered (save_sub s) anything.
Proof.
  intros Hs. unfold save_sub. eapply keeps_bind; [kp|]. intros now _.
  kapply keeps_update. intros w Hw. by apply metered_put_sub.
Qed.
#[local] Hint Resolve keeps_save_sub : keeps.

Lemma keeps_create_sub s : sub_ok s -> keeps metered (create_sub s) anything.
Proof.
  intros Hs. kapply (keeps_create _ _ _ anything). intros w Hw _. split; [|done].
  set (s' := set_UserSubscription_Id (Tables_next_sub (World_db w)) s).
  assert (sub_ok s') as Hs' by done.
  apply (metered_ext (on_db (put_sub s') w)); try done. by apply metered_put_sub.
Qed.

Lemma keeps_CreateUserSubscription u plan src :
  plan_ok plan -> keeps metered (CreateUserSubscriptionFromPlanTx u plan src) anything.
Proof.
  intros Hp. unfold CreateUserSubscriptionFromPlanTx. kp; try done.
  apply keeps_create_sub. split; simpl; [done|lia].
Qed.
#[local] Hint Resolve keeps_CreateUserSubscription : keeps.

Lemma sub_ok_reset s last next :
  sub_ok s -> sub_ok (set_UserSubscription_NextResetTime next
                (set_UserSubscription_LastResetTime last (set_UserSubscription_AmountUsed 0 s))).
Proof. intros [H1 H2]. split; simpl; [done|lia]. Qed.

Lemma keeps_maybeReset sub plan now :
  sub_ok sub -> keeps metered (maybeResetUserSubscriptionWithPlanTx sub plan now) sub_ok.
Proof.
  intros Hs. unfold maybeResetUserSubscriptionWithPlanTx. kp; try done.
  - kapply keeps_save_sub. by apply sub_ok_reset.
  - by apply sub_ok_reset.
Qed.
#[local] Hint Resolve keeps_maybeReset : keeps.

(** ** The operations *)

Lemma keeps_upsert o : keeps metered (upsertSubscriptionTopUpTx o) anything.
Proof. unfold upsertSubscriptionTopUpTx, create_topup, save_topup. kp. Qed.
Lemma keeps_save_order o : keeps metered (save_order o) anything.
Proof. unfold save_order. kp. Qed.
#[local] Hint Resolve keeps_upsert keeps_save_order : keeps.

Lemma keeps_CompleteSubscriptionOrder t p e a :
  keeps metered (CompleteSubscriptionOrder t p e a) anything.
Proof. unfold CompleteSubscriptionOrder, GetSubscriptionPlanById. kp. Qed.

Lemma keeps_ExpireSubscriptionOrder t e : keeps metered (ExpireSubscriptionOrder t e) anything.
Proof. unfold ExpireSubscriptionOrder. kp. Qed.

Lemma keeps_Insert_order o : keeps metered (Insert_order o) anything.
Proof. unfold Insert_order. kp. Qed.

Lemma keeps_AdminBind u p : keeps metered (AdminBindSubscription u p) anything.
Proof. unfold AdminBindSubscription, GetSubscriptionPlanById. kp. Qed.

Lemma keeps_AdminInvalidate id : keeps metered (AdminInvalidateUserSubscription id) anything.
Proof.
  unfold AdminInvalidateUserSubscription. kp.
  kapply keeps_update. intros w Hw. by apply metered_put_sub.
Qed.

Lemma keeps_AdminDelete id : keeps metered (AdminDeleteUserSubscription id) anything.
Proof.
  unfold AdminDeleteUserSubscription. kp.
  kapply keeps_update. intros w (Hs & Hp & Hc). split_and!; [|done..].
  by apply map_Forall_delete.
Qed.

Lemma keeps_Purchase u p n : keeps metered (PurchaseSubscriptionWithBalance u p n) anything.
Proof. unfold PurchaseSubscriptionWithBalance, decreaseUserQuota. kp. Qed.

Lemma keeps_expire_rows u now : keeps metered (expire_user_rows u now) anything.
Proof.
  unfold expire_user_rows. eapply keeps_bind; [kp|]. intros stamp _.
  kapply keeps_exec. intros w (H1 & H2 & H3). split; [|done].
  split_and!; [|done..]. simpl. intros k s. rewrite lookup_fmap.
  destruct (_ !! k) as [s0|] eqn:E; simpl; [|done]. intros [= <-].
  specialize (H1 _ _ E). by destruct (_ && _).
Qed.

Lemma keeps_expire_group u now : keeps metered (expire_user_group u now) anything.
Proof. unfold expire_user_group. kp. Qed.
#[local] Hint Resolve keeps_expire_rows keeps_expire_group : keeps.

Lemma keeps_expire_users us now c : keeps metered (expire_users us now c) anything.
Proof. revert c. induction us as [|u us IH]; intros c; simpl; kp. Qed.
#[local] Hint Resolve keeps_expire_users : keeps.

Lemma keeps_ExpireDue limit : keeps metered (ExpireDueSubscriptions limit) anything.
Proof. unfold ExpireDueSubscriptions. kp. Qed.

Lemma keeps_locked_row id now :
  keeps metered (first (λ w, match sub_row id w with
    | Some s => if reset_due now s then Some s else None | None => None end)) sub_ok.
Proof.
  kapply keeps_first. intros w a Hw. destruct (sub_row id w) as [s|] eqn:E; [|done].
  destruct (reset_due now s); [|done]. intros [= <-]. by eapply metered_sub_row.
Qed.

Lemma keeps_reset_subs subs now c : keeps metered (reset_subs subs now c) anything.
Proof.
  revert c. induction subs as [|s subs IH]; intros c; simpl; [kp|].
  eapply keeps_bind; [kp|]. intros [plan|e] _; [|by apply IH].
  eapply keeps_bind with (P := anything); [|intros; kp].
  kapply (keeps_transaction_var _ _ _ anything).
  eapply keeps_bind; [kapply keeps_attempt; apply keeps_locked_row|].
  intros [locked|e] Hl; simpl in Hl; kp.
Qed.
#[local] Hint Resolve keeps_reset_subs : keeps.

Lemma keeps_ResetDue limit : keeps metered (ResetDueSubscriptions limit) anything.
Proof. unfold ResetDueSubscriptions. kp. Qed.

Lemma keeps_create_record r : keeps metered (create_record r) anything.
Proof. unfold create_record. kp. Qed.
Lemma keeps_save_record r : keeps metered (save_record r) anything.
Proof. unfold save_record. kp. Qed.
#[local] Hint Resolve keeps_create_record keeps_save_record : keeps.

(** The capacity test leaves room for the amount, and the sum does not wrap. *)
Lemma sub_ok_consume s amount :
  sub_ok s -> 0 < amount ->
  (0 <? UserSubscription_AmountTotal s) &&
    (wrap64 (UserSubscription_AmountTotal s - UserSubscription_AmountUsed s) <? amount) = false ->
  sub_ok (set_UserSubscription_AmountUsed (wrap64 (UserSubscription_AmountUsed s + amount)) s).
Proof.
  intros [H1 H2] Ha E. split; simpl; [done|]. intros Ht. specialize (H2 Ht).
  apply andb_false_iff in E as [E|E]; [lia|].
  rewrite wrap64_id in E by (unfold int64_range; lia).
  rewrite wrap64_id by (unfold int64_range; lia). lia.
Qed.

Lemma keeps_pre_consume_from subs req u amount now :
  Forall sub_ok subs -> 0 < amount ->
  keeps metered (pre_consume_from subs req u amount now) anything.
Proof.
  intros Hs Ha. induction Hs as [|s subs Hs _ IH]; simpl; [kp|].
  eapply keeps_bind; [kp|]. intros plan _.
  eapply keeps_bind; [by apply keeps_maybeReset|]. clear s Hs. intros s Hs.
  destruct (_ && _) eqn:E; [exact IH|].
  eapply keeps_bind; [kp|]. intros stamp _.
  eapply keeps_bind; [kp|]. intros [[]|e] _; [|kp].
  eapply keeps_bind; [|kp]. apply keeps_save_sub. by apply sub_ok_consume.
Qed.

Lemma keeps_PreConsume req u amount :
  keeps metered (PreConsumeUserSubscription req u amount) anything.
Proof.
  unfold PreConsumeUserSubscription, pre_consume_tx.
  eapply keeps_bind; [kp|intros _ _]. eapply keeps_bind; [kp|intros _ _].
  eapply keeps_bind; [kapply keeps_fail_if|intros ? Ha].
  eapply keeps_bind; [kp|]. intros now _. kapply keeps_transaction.
  eapply keeps_bind; [kp|]. intros [ex|] _; [kp|].
  eapply keeps_bind; [kapply keeps_map_err; apply keeps_sorted_subs|]. intros subs Hs.
  eapply keeps_bind; [kp|intros _ _]. apply keeps_pre_consume_from; [done|simpl in Ha; lia].
Qed.

Lemma keeps_PostConsume id delta : keeps metered (PostConsumeUserSubscriptionDelta id delta) anything.
Proof.
  unfold PostConsumeUserSubscriptionDelta.
  eapply keeps_bind; [kp|intros _ _]. destruct (delta =? 0); [kp|]. kapply keeps_transaction.
  eapply keeps_bind; [apply keeps_sub_row|]. intros s Hs. cbv zeta.
  eapply keeps_bind; [kapply keeps_fail_if|]. intros ? E; simpl in E. apply keeps_save_sub.
  destruct Hs as [H1 H2]. split; simpl; [done|]. intros Ht. specialize (H2 Ht).
  apply andb_false_iff in E as [E|E]; [lia|]. destruct (_ <? 0) eqn:E2; lia.
Qed.
#[local] Hint Resolve keeps_PostConsume : keeps.

Lemma keeps_Refund req : keeps metered (RefundSubscriptionPreConsume req) anything.
Proof.
  unfold RefundSubscriptionPreConsume. eapply keeps_bind; [kp|intros _ _].
  kapply keeps_transaction_with.
  - intros w w1 _ Hw1. eapply metered_ext; [..|exact Hw1]; done.
  - kp.
Qed.

Lemma keeps_Cleanup n : keeps metered (CleanupSubscriptionPreConsumeRecords n) anything.
Proof.
  unfold CleanupSubscriptionPreConsumeRecords. eapply keeps_bind; [kp|]. intros now _.
  kapply keeps_exec. intros w Hw. split; [|done]. eapply metered_ext; [..|exact Hw]; done.
Qed.

Lemma keeps_PlanInfo id : keeps metered (GetSubscriptionPlanInfoByUserSubscriptionId id) anything.
Proof.
  unfold GetSubscriptionPlanInfoByUserSubscriptionId, cache_get, cache_put. kp.
Qed.

Lemma keeps_Invalidate id : keeps metered (InvalidateSubscriptionPlanCache id) anything.
Proof.
  unfold InvalidateSubscriptionPlanCache, cache_put. kp;
    [kapply keeps_update|kapply keeps_modify];
    intros w (H1 & H2 & H3); split_and!; try done; by apply map_Forall_delete.
Qed.

(** ** Reachable states *)

(** The operations of the component with their arguments. *)
Inductive SubOp : Type :=
| SInsertOrder (o : SubscriptionOrder)
| SComplete (tradeNo payload provider method : string)
| SExpireOrder (tradeNo provider : string)
| SBind (userId planId : Z)
| SPurchase (userId planId : Z) (nonce : string)
| SInvalidateSub (id : Z)
| SDeleteSub (id : Z)
| SExpireDue (limit : Z)
| SResetDue (limit : Z)
| SPreConsume (requestId : string) (userId amount : Z)
| SRefund (requestId : string)
| SPostConsume (id delta : Z)
| SCleanup (olderThanSeconds : Z)
| SPlanInfo (id : Z)
| SInvalidatePlan (id : Z).

Definition run_sub (o : SubOp) : GM unit :=
  match o with
  | SInsertOrder o => Insert_order o
  | SComplete t p e a => CompleteSubscriptionOrder t p e a
  | SExpireOrder t e => ExpireSubscriptionOrder t e
  | SBind u p => ignore (AdminBindSubscription u p)
  | SPurchase u p n => PurchaseSubscriptionWithBalance u p n
  | SInvalidateSub id => ignore (AdminInvalidateUserSubscription id)
  | SDeleteSub id => ignore (AdminDeleteUserSubscription id)
  | SExpireDue l => ignore (ExpireDueSubscriptions l)
  | SResetDue l => ignore (ResetDueSubscriptions l)
  | SPreConsume r u a => ignore (PreConsumeUserSubscription r u a)
  | SRefund r => RefundSubscriptionPreConsume r
  | SPostConsume id d => PostConsumeUserSubscriptionDelta id d
  | SCleanup n => ignore (CleanupSubscriptionPreConsumeRecords n)
  | SPlanInfo id => ignore (GetSubscriptionPlanInfoByUserSubscriptionId id)
  | SInvalidatePlan id => InvalidateSubscriptionPlanCache id
  end.

(** What happens to the shared state: an operation runs, with whatever outcome;
    the driver's next failures are drawn; the clocks move; an administrator
    edits a plan; a cache entry expires; anything outside the subscription
    tables changes. *)
Inductive sub_step : World -> World -> Prop :=
| sub_op o w : sub_step w (run_sub o w).2
| sub_faults fs w : sub_step w (set_World_faults fs w)
| sub_clock t t' w : sub_step w (set_World_now t (set_World_db_now t' w))
| sub_plan id p w : plan_ok p ->
    sub_step w (on_db (λ t, set_Tables_plans (<[id := p]> (Tables_plans t)) t) w)
| sub_evict id w : sub_step w (set_World_plan_cache (delete id (World_plan_cache w)) w)
| sub_other w w' :
    Tables_subs (World_db w') = Tables_subs (World_db w) ->
    Tables_plans (World_db w') = Tables_plans (World_db w) ->
    World_plan_cache w' = World_plan_cache w -> sub_step w w'.

Lemma keeps_run_sub o : keeps metered (run_sub o) anything.
Proof.
  destruct o; simpl; try eapply keeps_ignore.
  - apply keeps_Insert_order.
  - apply keeps_CompleteSubscriptionOrder.
  - apply keeps_ExpireSubscriptionOrder.
  - apply keeps_AdminBind.
  - apply keeps_Purchase.
  - apply keeps_AdminInvalidate.
  - apply keeps_AdminDelete.
  - apply keeps_ExpireDue.
  - apply keeps_ResetDue.
  - apply keeps_PreConsume.
  - apply keeps_Refund.
  - apply keeps_PostConsume.
  - apply keeps_Cleanup.
  - apply keeps_PlanInfo.
  - apply keeps_Invalidate.
Qed.

Lemma sub_step_metered w w' : sub_step w w' -> metered w -> metered w'.
Proof.
  intros Hs Hw. destruct Hs as [o w|fs w|t t' w|id p w Hp|id w|w w' H1 H2 H3].
  - exact (keeps_run metered _ _ _ (keeps_run_sub o) Hw).
  - done.
  - done.
  - destruct Hw as (? & ? & ?). split_and!; [done| |done]. by apply map_Forall_insert_2.
  - destruct Hw as (? & ? & ?). split_and!; [done..|]. by apply map_Forall_delete.
  - by eapply metered_ext.
Qed.

(** C3. In every reachable state a metered subscription (positive total) has used
    at least zero and at most its total, whatever operations ran, in whatever
    order, and whichever statements, commits or cache accesses failed. *)
Theorem subscriptions_never_overspent w w' :
  metered w -> rtc sub_step w w' ->
  ∀ id s, sub_row id w' = Some s -> 0 < UserSubscription_AmountTotal s ->
  0 <= UserSubscription_AmountUsed s <= UserSubscription_AmountTotal s.
Proof.
  intros Hw Hr. assert (metered w') as Hw'.
  { induction Hr; [done|]. apply IHHr. by eapply sub_step_metered. }
  intros id s Hs. by apply (metered_sub_row id w').
Qed.
End subinv.
