(* ===== verification/SubProps.v ===== *)
(** * SubProps: what the subscription operations do

    Functional specifications of [Subscription], for every pattern of driver
    failures unless a theorem says otherwise: pre-consumption is atomic, replays
    its result for a request seen before and charges the subscription that ends
    first among those with room; refunds; orders are completed once; purchase
    limits hold; a purchase with the balance charges its price or nothing. *)

From S2P Require Export SubInv Samples.

(** The database and the process clock are as before. *)
Definition same_db (w w' : World) : Prop :=
  World_db w' = World_db w ∧ World_now w' = World_now w.

Lemma same_db_refl w : same_db w w.
Proof. done. Qed.

Section props.
Context {CFG : Config} {LOC : Location} {DEC : Decimal}.

Lemma wp_getPlan id Q w :
  (∀ e w', same_db w w' -> Q (Err e) w') ->
  (∀ p w', same_db w w' -> Q (Ok p) w') ->
  wp (getSubscriptionPlanByIdTx id) Q w.
Proof.
  intros He Hok. unfold getSubscriptionPlanByIdTx, cache_get, cache_put.
  apply wp_bind, wp_fail_if; intros; [by apply He|].
  assert (∀ w1, same_db w w1 -> wp (let! p := first (λ w, Tables_plans (World_db w) !! id) in
      do! ignore (if RedisEnabled
                  then update (λ w, set_World_plan_cache
                         (<[id := NormalizeDefaults p]> (World_plan_cache w)) w)
                  else modify (λ w, set_World_plan_cache
                         (<[id := NormalizeDefaults p]> (World_plan_cache w)) w)) in
      ret (NormalizeDefaults p)) Q w1) as Hdb.
  { intros w1 [Hd Hn]. gwp; first [apply He | apply Hok]; done. }
  apply wp_bind, wp_attempt. destruct RedisEnabled.
  - apply wp_select; intros; [by apply Hdb|].
    destruct (World_plan_cache _ !! id); [|by apply Hdb]. apply wp_ret. by apply Hok.
  - apply wp_gets. destruct (World_plan_cache _ !! id); [|by apply Hdb].
    apply wp_ret. by apply Hok.
Qed.

(** ** Pre-consumption *)

(** What the reset does to a subscription: the new row and whether it is saved. *)
Definition reset_outcome (sub : UserSubscription) (plan : SubscriptionPlan) (now : Z) :
    option (UserSubscription * bool) :=
  let next0 := UserSubscription_NextResetTime sub in
  if (0 <? next0) && (now <? next0) then Some (sub, false)
  else if bool_decide (NormalizeResetPeriod (SubscriptionPlan_QuotaResetPeriod plan)
                       = SubscriptionResetNever) then Some (sub, false)
  else
    let baseUnix := if UserSubscription_LastResetTime sub <=? 0
                    then UserSubscription_StartTime sub
                    else UserSubscription_LastResetTime sub in
    match advance_resets plan (UserSubscription_EndTime sub) now baseUnix with
    | inl _ => None
    | inr (base, next, false) =>
        if (next0 =? 0) && (0 <? next)
        then Some (set_UserSubscription_LastResetTime base
                     (set_UserSubscription_NextResetTime next sub), true)
        else Some (sub, false)
    | inr (base, next, true) =>
        Some (set_UserSubscription_NextResetTime next
                (set_UserSubscription_LastResetTime base
                   (set_UserSubscription_AmountUsed 0 sub)), true)
    end.

Lemma maybeReset_eq sub plan now :
  maybeResetUserSubscriptionWithPlanTx sub plan now =
  match reset_outcome sub plan now with
  | None => fail (EText "reset loop: out of rounds")
  | Some (s, true) => do! save_sub s in ret s
  | Some (s, false) => ret s
  end.
Proof.
  unfold maybeResetUserSubscriptionWithPlanTx, reset_outcome.
  destruct (_ && _); [done|]. case_bool_decide; [done|].
  destruct (advance_resets _ _ _ _) as [?|[[base next] []]]; [done|done|]. simpl.
  by destruct (_ && _).
Qed.

(** A reset keeps identity and total; it leaves the used amount or zeroes it. *)
Lemma reset_outcome_spec sub plan now s b :
  reset_outcome sub plan now = Some (s, b) ->
  UserSubscription_Id s = UserSubscription_Id sub ∧
  UserSubscription_AmountTotal s = UserSubscription_AmountTotal sub ∧
  (UserSubscription_AmountUsed s = UserSubscription_AmountUsed sub ∨
   UserSubscription_AmountUsed s = 0).
Proof.
  unfold reset_outcome. intros H.
  repeat case_match; simplify_eq/=; split_and!; auto.
Qed.

Lemma wp_maybeReset sub plan now Q w :
  (∀ e w', same_db w w' -> Q (Err e) w') ->
  (∀ s b w', reset_outcome sub plan now = Some (s, b) ->
     World_now w' = World_now w ->
     World_db w' = (if b then put_sub (set_UserSubscription_UpdatedAt (World_now w) s) (World_db w)
                    else World_db w) -> Q (Ok s) w') ->
  wp (maybeResetUserSubscriptionWithPlanTx sub plan now) Q w.
Proof.
  intros He Hok. rewrite maybeReset_eq.
  destruct (reset_outcome sub plan now) as [[s []]|]; [| |by apply wp_fail, He].
  - unfold save_sub. gwp; [by apply He|]. by apply (Hok s true).
  - apply wp_ret. by apply (Hok s false).
Qed.

(** The subscription has too little left, after its reset if one is due. *)
Definition exhausted (amount now : Z) (s : UserSubscription) : Prop :=
  ∃ plan s' b, reset_outcome s plan now = Some (s', b) ∧
    0 < UserSubscription_AmountTotal s' ∧
    wrap64 (UserSubscription_AmountTotal s' - UserSubscription_AmountUsed s') < amount.

(** [amount] was charged to the candidate [s0]: the record is there, the row's
    used amount (after a reset if one was due) is larger by [amount], the result
    says so, and nothing else but subscriptions changed. *)
Definition charged (req : string) (u amount now : Z) (s0 : UserSubscription)
    (res : PreConsumeResult) (w w' : World) : Prop :=
  ∃ plan s b s', reset_outcome s0 plan now = Some (s, b) ∧
    (0 < UserSubscription_AmountTotal s ->
     amount <= wrap64 (UserSubscription_AmountTotal s - UserSubscription_AmountUsed s)) ∧
    res = mkPreConsumeResult (UserSubscription_Id s0) amount (UserSubscription_AmountTotal s0)
            (UserSubscription_AmountUsed s) (wrap64 (UserSubscription_AmountUsed s + amount)) ∧
    sub_row (UserSubscription_Id s0) w' = Some s' ∧
    s' = set_UserSubscription_UpdatedAt (World_now w)
           (set_UserSubscription_AmountUsed (wrap64 (UserSubscription_AmountUsed s + amount)) s) ∧
    Tables_records (World_db w') =
      <[req := mkSubscriptionPreConsumeRecord req u (UserSubscription_Id s0) amount "consumed"
                 (World_now w) (World_now w)]> (Tables_records (World_db w)) ∧
    Tables_users (World_db w') = Tables_users (World_db w).

Lemma put_sub_records b s t : Tables_records (if b : bool then put_sub s t else t) = Tables_records t.
Proof. by destruct b. Qed.
Lemma put_sub_users b s t : Tables_users (if b : bool then put_sub s t else t) = Tables_users t.
Proof. by destruct b. Qed.

Lemma wp_pre_consume_from subs req u amount now w :
  record_row req w = None ->
  wp (pre_consume_from subs req u amount now) (λ r w',
    match r with
    | Err _ => True
    | Ok res => ∃ pre s0 post, subs = pre ++ s0 :: post ∧
        Forall (exhausted amount now) pre ∧ charged req u amount now s0 res w w'
    end) w.
Proof.
  revert w. induction subs as [|s0 subs IH]; intros w Hrec; simpl; [done|].
  apply wp_bind, wp_getPlan; [done|]. intros plan w1 [Hd1 Hn1].
  apply wp_bind, wp_maybeReset; [done|]. intros s b w2 Hs Hn2 Hd2.
  destruct (reset_outcome_spec _ _ _ _ _ Hs) as (Hid & Htot & _).
  rewrite Hd1, Hn1 in Hd2.
  assert (Tables_records (World_db w2) = Tables_records (World_db w)) as Hr2
    by (rewrite Hd2; apply put_sub_records).
  assert (Tables_users (World_db w2) = Tables_users (World_db w)) as Hu2
    by (rewrite Hd2; apply put_sub_users).
  assert (record_row req w2 = None) as Hrec2 by (unfold record_row in *; by rewrite Hr2).
  destruct (_ && _) eqn:E.
  - apply andb_true_iff in E as [E1 E2].
    eapply wp_mono; [by apply IH|]. intros [res|e] w'; [|done].
    intros (pre & s1 & post & -> & Hpre & Hch). exists (s0 :: pre), s1, post.
    split_and!; [done|constructor; [|done]; exists plan, s, b; split_and!; [done|lia..]|].
    destruct Hch as (p' & s' & b' & s'' & H1 & H2 & H3 & H4 & H5 & H6 & H7).
    exists p', s', b', s''. rewrite Hn2, Hn1 in H5, H6. rewrite H6, H7, Hr2, Hu2. done.
  - apply wp_bind, wp_gets. simpl. apply wp_bind, wp_attempt. unfold create_record.
    apply wp_create; intros.
    { gwp; try done. unfold record_row in *; simpl in *. congruence. }
    unfold save_sub. gwp; [done|]. exists [], s0, subs. split_and!; [done|constructor|].
    eexists plan, s, b, _. split_and!; [done| |by rewrite <- Hid, <- Htot|..]; simpl.
    + intros. apply andb_false_iff in E as [E|E]; lia.
    + unfold sub_row; simpl. rewrite Hid. by rewrite lookup_insert_eq, Hn2, Hn1.
    + done.
    + by rewrite Hr2, Hid, Hn2, Hn1.
    + done.
Qed.

(** The answer for a request that was charged before. *)
Definition replayed (req : string) (res : PreConsumeResult) (w : World) : Prop :=
  ∃ rec s, record_row req w = Some rec ∧
    SubscriptionPreConsumeRecord_Status rec ≠ "refunded" ∧
    sub_row (SubscriptionPreConsumeRecord_UserSubscriptionId rec) w = Some s ∧
    res = mkPreConsumeResult (UserSubscription_Id s)
            (SubscriptionPreConsumeRecord_PreConsumed rec) (UserSubscription_AmountTotal s)
            (UserSubscription_AmountUsed s) (UserSubscription_AmountUsed s).

Lemma PreConsume_outcome req u amount w :
  wp (PreConsumeUserSubscription req u amount) (λ r w',
    match r with
    | Err _ => World_db w' = World_db w
    | Ok res =>
        0 < amount ∧ TrimSpace req ≠ "" ∧
        ((replayed req res w ∧ World_db w' = World_db w) ∨
         (record_row req w = None ∧ ∃ now pre s0 post,
            sorted_subs (is_active u now) ends_first w = pre ++ s0 :: post ∧
            Forall (exhausted amount now) pre ∧ charged req u amount now s0 res w w'))
    end) w.
Proof.
  unfold PreConsumeUserSubscription. gwp; try done.
  - apply wp_bind, wp_select; intros; [done|]. simpl.
    destruct (record_row req w) as [rec|] eqn:Hrec.
    + unfold record_row in *; simpl in *; rewrite Hrec. gwp; try done.
      assert (SubscriptionPreConsumeRecord_Status rec ≠ "refunded") as Hne
        by (by eapply bool_decide_eq_false_1).
      split; intros; [|done]. split; [lia|]. split; [by eapply bool_decide_eq_false_1|]. left. split; [|done].
      exists rec. eexists. split_and!; done.
    + unfold record_row in *; simpl in *; rewrite Hrec.
      apply wp_bind, wp_map_err, wp_select; intros; [done|]. simpl.
      apply wp_bind, wp_fail_if; intros; [done|].
      eapply wp_mono; [by apply wp_pre_consume_from|]. intros [res|e] w'; [|done].
      intros (pre & sc & post & Hsub & Hpre & Hch). split; intros; [|done].
      split; [lia|]. split; [by eapply bool_decide_eq_false_1|]. right. split; [done|]. exists ts, pre, sc, post. done.
Qed.

(** C8. Pre-consumption is atomic.  Whatever statement or commit fails, an error
    leaves the database as it was; a success either replays the answer recorded
    for the request and changes nothing, or charges exactly the amount to one
    active subscription of the user and records it under the request id. *)
Theorem PreConsume_atomic req u amount w :
  wp (PreConsumeUserSubscription req u amount) (λ r w',
    match r with
    | Err _ => World_db w' = World_db w
    | Ok res =>
        0 < amount ∧ TrimSpace req ≠ "" ∧
        ((replayed req res w ∧ World_db w' = World_db w) ∨
         (record_row req w = None ∧ ∃ now pre s0 post,
            sorted_subs (is_active u now) ends_first w = pre ++ s0 :: post ∧
            Forall (exhausted amount now) pre ∧ charged req u amount now s0 res w w'))
    end) w.
Proof. apply PreConsume_outcome. Qed.

Lemma PreConsume_replay req u amount w rec :
  record_row req w = Some rec ->
  wp (PreConsumeUserSubscription req u amount) (λ r w', World_db w' = World_db w ∧
    match r with
    | Ok res => Res_PreConsumed res = SubscriptionPreConsumeRecord_PreConsumed rec ∧
                SubscriptionPreConsumeRecord_Status rec ≠ "refunded"
    | Err _ => True
    end) w.
Proof.
  intros Hrec. eapply wp_mono; [apply PreConsume_outcome|]. intros [res|e] w'; [|done].
  intros (_ & _ & [((rec' & s & Hr & Hne & _ & ->) & Hdb)|(Hn & _)]); [|congruence].
  simplify_eq. done.
Qed.

(** A request is charged once.  After a pre-consumption succeeded, repeating
    it with the same request id (in any later state with the same database,
    whatever fails then) never changes the database, and an answer reports the
    amount that was charged the first time. *)
Theorem PreConsume_idempotent req u amount w res w1 u' amount' w2 :
  PreConsumeUserSubscription req u amount w = (Ok res, w1) ->
  World_db w2 = World_db w1 ->
  wp (PreConsumeUserSubscription req u' amount') (λ r w3, World_db w3 = World_db w2 ∧
    match r with Ok res' => Res_PreConsumed res' = Res_PreConsumed res | Err _ => True end) w2.
Proof.
  intros Hrun Hdb. pose proof (wp_run _ _ _ _ _ Hrun (PreConsume_outcome req u amount w)) as Ho.
  simpl in Ho. destruct Ho as (_ & _ & [((rec & s & Hr & Hne & _ & ->) & Hw1)|(_ & Hc)]).
  - assert (record_row req w2 = Some rec) as Hr2
      by (unfold record_row in *; by rewrite Hdb, Hw1).
    eapply wp_mono; [by apply PreConsume_replay|]. by intros [res'|e] w3; naive_solver.
  - destruct Hc as (now & pre & s0 & post & _ & _ & plan & s & b & s' & _ & _ & -> & _ & _ & Hrec & _).
    eapply wp_mono; [apply PreConsume_replay; unfold record_row; rewrite Hdb, Hrec; apply lookup_insert_eq|].
    by intros [res'|e] w3; naive_solver.
Qed.

Lemma ends_first_total x y : ends_first x y = true ∨ ends_first y x = true.
Proof. unfold ends_first. lia. Qed.

Lemma ends_first_trans x y z :
  ends_first x y = true -> ends_first y z = true -> ends_first x z = true.
Proof. unfold ends_first. lia. Qed.

Lemma ends_first_antisym x y :
  ends_first x y = true -> ends_first y x = true -> UserSubscription_Id x = UserSubscription_Id y.
Proof. unfold ends_first. lia. Qed.

(** The subscription that ends first is used first: every other active
    subscription of the user that ends before the charged one (or with it, under
    a smaller id) had too little quota left for the request. *)
Theorem PreConsume_earliest_ending req u amount w res w' :
  PreConsumeUserSubscription req u amount w = (Ok res, w') -> record_row req w = None ->
  ∃ now s0, is_active u now s0 = true ∧ (∃ k, sub_row k w = Some s0) ∧
    Res_UserSubscriptionId res = UserSubscription_Id s0 ∧
    ∀ k s1, sub_row k w = Some s1 -> is_active u now s1 = true ->
      UserSubscription_Id s1 ≠ UserSubscription_Id s0 -> ends_first s1 s0 = true ->
      exhausted amount now s1.
Proof.
  intros Hrun Hn. pose proof (wp_run _ _ _ _ _ Hrun (PreConsume_outcome req u amount w)) as Ho.
  destruct Ho as (_ & _ & [((rec & s & Hr & _) & _)|(_ & Hc)]); [congruence|].
  destruct Hc as (now & pre & s0 & post & Hl & Hpre & plan & s & b & s' & _ & _ & -> & _).
  assert (s0 ∈ sorted_subs (is_active u now) ends_first w) as Hin by (rewrite Hl; set_solver).
  apply elem_of_rows_where in Hin as [Ha Hk].
  exists now, s0. split_and!; [done|done|done|]. intros k s1 Hs1 Ha1 Hne Hle.
  assert (s1 ∈ sorted_subs (is_active u now) ends_first w) as Hin1
    by (apply elem_of_rows_where; eauto).
  pose proof (rows_where_sorted (is_active u now) ends_first (Tables_subs (World_db w))
    ends_first_total ends_first_trans) as Hsort.
  fold (sorted_subs (is_active u now) ends_first w) in Hsort. rewrite Hl in Hin1, Hsort.
  apply elem_of_app in Hin1 as [Hp|[->|Hp]%elem_of_cons]; [|done|].
  - rewrite Forall_forall in Hpre. auto.
  - apply StronglySorted_app_1_r in Hsort. apply StronglySorted_inv in Hsort as [_ Hf].
    rewrite Forall_forall in Hf. specialize (Hf _ Hp).
    destruct Hne. by apply ends_first_antisym.
Qed.

(** ** Settling and refunding *)

(** The used amount after a settlement of [delta]. *)
Definition settled (s : UserSubscription) (delta : Z) : Z :=
  Z.max 0 (wrap64 (UserSubscription_AmountUsed s + delta)).

Lemma PostConsume_run id delta w s :
  no_faults w -> 0 < id -> delta ≠ 0 -> sub_row id w = Some s ->
  (UserSubscription_AmountTotal s <= 0 ∨ settled s delta <= UserSubscription_AmountTotal s) ->
  PostConsumeUserSubscriptionDelta id delta w =
  (Ok tt, on_db (put_sub (set_UserSubscription_UpdatedAt (World_now w)
            (set_UserSubscription_AmountUsed (settled s delta) s))) w).
Proof.
  intros Hn Hid Hd Hs Ht.
  assert (wp (PostConsumeUserSubscriptionDelta id delta) (λ r w', r = Ok tt ∧
    w' = on_db (put_sub (set_UserSubscription_UpdatedAt (World_now w)
            (set_UserSubscription_AmountUsed (settled s delta) s))) w) w) as H.
  { unfold PostConsumeUserSubscriptionDelta, save_sub. nfwp; try lia. rewrite Hs. nfwp.
    - exfalso. destruct (_ <? 0) eqn:?; unfold settled in *; lia.
    - split_and!; [done..|]. unfold settled.
      destruct (_ <? 0) eqn:?; [rewrite Z.max_l by lia|rewrite Z.max_r by lia]; done. }
  unfold wp in H. destruct (PostConsumeUserSubscriptionDelta id delta w); simpl in *.
  by destruct H as [-> ->].
Qed.

(** A settlement is exact, clamped or refused: for every pattern of failures
    the used amount becomes [max 0 (used + delta)] and that is within the total,
    or there is an error and the database is as before. *)
Theorem PostConsume_settles id delta w :
  wp (PostConsumeUserSubscriptionDelta id delta) (λ r w',
    match r with
    | Err _ => World_db w' = World_db w
    | Ok _ =>
        0 < id ∧
        (delta = 0 ∧ World_db w' = World_db w ∨
         ∃ s, sub_row id w = Some s ∧
           (0 < UserSubscription_AmountTotal s -> settled s delta <= UserSubscription_AmountTotal s) ∧
           World_db w' = put_sub (set_UserSubscription_UpdatedAt (World_now w)
             (set_UserSubscription_AmountUsed (settled s delta) s)) (World_db w))
    end) w.
Proof.
  unfold PostConsumeUserSubscriptionDelta, save_sub. gwp; try done.
  - split; [lia|left]. split; [lia|done].
  - split; intros; [|done]. split; [lia|right].
    assert (∀ s, (if wrap64 (UserSubscription_AmountUsed s + delta) <? 0 then 0
      else wrap64 (UserSubscription_AmountUsed s + delta)) = settled s delta) as Es.
    { intros s. unfold settled. set (x := wrap64 _). clearbody x.
      destruct (Z.ltb_spec x 0); lia. }
    rewrite Es in *. eexists. split_and!; [done| |done].
    intros Ht. match goal with H : _ && _ = false |- _ => apply andb_false_iff in H as [?|?] end; lia.
Qed.

(** A consumed record whose subscription is there. *)
Definition refundable (req : string) (rec : SubscriptionPreConsumeRecord) (s : UserSubscription)
    (w : World) : Prop :=
  TrimSpace req ≠ "" ∧ record_row req w = Some rec ∧
  SubscriptionPreConsumeRecord_RequestId rec = req ∧
  SubscriptionPreConsumeRecord_Status rec ≠ "refunded" ∧
  0 < SubscriptionPreConsumeRecord_PreConsumed rec < 2 ^ 62 ∧
  0 < SubscriptionPreConsumeRecord_UserSubscriptionId rec ∧
  sub_row (SubscriptionPreConsumeRecord_UserSubscriptionId rec) w = Some s ∧
  UserSubscription_Id s = SubscriptionPreConsumeRecord_UserSubscriptionId rec ∧
  0 <= UserSubscription_AmountUsed s < 2 ^ 62 ∧
  (0 < UserSubscription_AmountTotal s ->
   UserSubscription_AmountUsed s <= UserSubscription_AmountTotal s).

Lemma Refund_run req rec s w :
  no_faults w -> refundable req rec s w ->
  RefundSubscriptionPreConsume req w =
  (Ok tt, on_db (put_record (set_SubscriptionPreConsumeRecord_UpdatedAt (World_now w)
                   (set_SubscriptionPreConsumeRecord_Status "refunded" rec)))
          (on_db (put_sub (set_UserSubscription_UpdatedAt (World_now w)
             (set_UserSubscription_AmountUsed
                (Z.max 0 (UserSubscription_AmountUsed s -
                          SubscriptionPreConsumeRecord_PreConsumed rec)) s))) w)).
Proof.
  intros Hn (Hreq & Hrec & Hkey & Hst & Hp & Hid & Hs & Hsid & Hu & Ht).
  set (p := SubscriptionPreConsumeRecord_PreConsumed rec) in *.
  assert (settled s (wrap64 (- p)) = Z.max 0 (UserSubscription_AmountUsed s - p)) as Es.
  { unfold settled. rewrite (wrap64_opp p) by (unfold small; lia).
    rewrite wrap64_id; [f_equal; lia|unfold int64_range; lia]. }
  pose proof (PostConsume_run _ (wrap64 (- p)) w s Hn Hid) as Hpost.
  rewrite Es in Hpost. specialize (Hpost ltac:(rewrite wrap64_opp by (unfold small; lia); lia) Hs ltac:(lia)).
  assert (wp (RefundSubscriptionPreConsume req) (λ r w', (r, w') =
    (Ok tt, on_db (put_record (set_SubscriptionPreConsumeRecord_UpdatedAt (World_now w)
                   (set_SubscriptionPreConsumeRecord_Status "refunded" rec)))
          (on_db (put_sub (set_UserSubscription_UpdatedAt (World_now w)
             (set_UserSubscription_AmountUsed
                (Z.max 0 (UserSubscription_AmountUsed s - p)) s))) w))) w) as H.
  { unfold RefundSubscriptionPreConsume.
    apply wp_bind. rewrite bool_decide_false by done. apply wp_ret.
    apply wp_transaction_with_nf; [done|]. apply wp_bind, wp_first_nf; [done|]. rewrite Hrec.
    rewrite bool_decide_false by done. fold p. destruct (p <=? 0) eqn:?; [lia|].
    apply wp_bind. unfold wp at 1. rewrite Hpost. simpl. unfold save_record. nfwp.
    done. }
  unfold wp in H. by destruct (RefundSubscriptionPreConsume req w).
Qed.

(** Without failures a refund gives back exactly what was taken (never below
    zero), marks the record, and a second refund of the same request changes
    nothing. *)
Theorem Refund_restores_once req rec s w :
  no_faults w -> refundable req rec s w ->
  ∃ w1, RefundSubscriptionPreConsume req w = (Ok tt, w1) ∧
    (∃ s1, sub_row (SubscriptionPreConsumeRecord_UserSubscriptionId rec) w1 = Some s1 ∧
       UserSubscription_AmountUsed s1 =
         Z.max 0 (UserSubscription_AmountUsed s - SubscriptionPreConsumeRecord_PreConsumed rec)) ∧
    ∃ w2, RefundSubscriptionPreConsume req w1 = (Ok tt, w2) ∧ World_db w2 = World_db w1.
Proof.
  intros Hn Hr. eexists. split; [by apply Refund_run|].
  destruct Hr as (Hreq & Hrec & Hkey & Hst & Hp & Hid & Hs & Hsid & Hu & Ht). split.
  - eexists. unfold sub_row; simpl. rewrite Hsid, lookup_insert_eq. done.
  - set (w1 := on_db _ _).
    assert (wp (RefundSubscriptionPreConsume req) (λ r w', (r, w') = (Ok tt, w1)) w1) as H.
    { unfold RefundSubscriptionPreConsume. apply wp_bind. rewrite bool_decide_false by done.
      apply wp_ret. apply wp_transaction_with_nf; [done|]. apply wp_bind, wp_first_nf; [done|].
      unfold record_row, w1; simpl. rewrite Hkey, lookup_insert_eq. by apply wp_ret. }
    unfold wp in H. destruct (RefundSubscriptionPreConsume req w1) as [r w2]; simpl in *.
    injection H as -> ->. eauto.
Qed.

Lemma reset_outcome_ok sub plan now s b :
  sub_ok sub -> reset_outcome sub plan now = Some (s, b) -> sub_ok s.
Proof.
  intros [H1 H2] Hr. destruct (reset_outcome_spec _ _ _ _ _ Hr) as (_ & Ht & Hu).
  split; rewrite Ht; [done|]. intros Hp. specialize (H2 Hp). destruct Hu as [->| ->]; lia.
Qed.

(** Round trip: refunding a request right after it was charged brings the
    used amount of the charged subscription back to what it was before (amounts
    below [2 ^ 62], so that an unlimited subscription does not wrap). *)
Theorem PreConsume_Refund_roundtrip req u amount w res w1 :
  metered w -> record_row req w = None ->
  PreConsumeUserSubscription req u amount w = (Ok res, w1) -> no_faults w1 ->
  0 < Res_UserSubscriptionId res -> amount < 2 ^ 62 ->
  0 <= Res_AmountUsedBefore res -> Res_AmountUsedBefore res + amount < 2 ^ 62 ->
  ∃ w2 s2, RefundSubscriptionPreConsume req w1 = (Ok tt, w2) ∧
    sub_row (Res_UserSubscriptionId res) w2 = Some s2 ∧
    UserSubscription_AmountUsed s2 = Res_AmountUsedBefore res.
Proof.
  intros Hm Hn Hrun Hnf Hid Ha Hb Hs62.
  pose proof (wp_run _ _ _ _ _ Hrun (PreConsume_outcome req u amount w)) as Ho.
  destruct Ho as (Hpos & Hreq & [((rec & s & Hr & _) & _)|(_ & Hc)]); [congruence|].
  destruct Hc as (now & pre & s0 & post & Hl & _ & plan & s & b & s' & Hs & Hcap & -> & Hrow & Hs' & Hrec & _).
  simpl in *. destruct (reset_outcome_spec _ _ _ _ _ Hs) as (Hsid & Htot & _).
  assert (sub_ok s) as [Hok1 Hok2].
  { eapply reset_outcome_ok; [|done]. pose proof (metered_rows (is_active u now) ends_first w Hm) as Hf.
    rewrite Hl in Hf. apply Forall_app in Hf as [_ Hf]. by apply Forall_cons in Hf as [? _]. }
  set (rec := mkSubscriptionPreConsumeRecord _ _ _ _ _ _ _) in Hrec.
  assert (wrap64 (UserSubscription_AmountUsed s + amount) = UserSubscription_AmountUsed s + amount) as Ew
    by (apply wrap64_id; unfold int64_range; lia).
  assert (refundable req rec s' w1) as Href.
  { subst s' rec. unfold refundable, record_row. rewrite Hrec, lookup_insert_eq. simpl.
    rewrite Ew in Hrow |- *. split_and!; try done; try lia.
    intros Ht. specialize (Hcap Ht). specialize (Hok2 Ht).
    rewrite wrap64_id in Hcap by (unfold int64_range; lia). lia. }
  eexists _, _. split; [by apply (Refund_run req rec s')|]. unfold sub_row; simpl.
  subst s'. simpl. rewrite <- Hsid, lookup_insert_eq. split; [done|]. simpl.
  rewrite Ew. lia.
Qed.
End props.

(** ** A refund that is given twice *)

Section double_refund.
#[local] Instance dr_config : Config := sample_config false false.

(** The seventh statement of the first call, the save of the record in the outer
    transaction, fails. *)
Definition outer_save_fails : list (option string) :=
  [None; None; None; None; None; None; Some "connection lost"].

(** Defect: the record and the refund are written by two transactions.  When
    the second write of the outer one fails, the call reports an error although
    the quota was given back, and the retry gives it back again: 100 of 400 used
    become 200. *)
Theorem Refund_twice_after_failed_save :
  let w0 := set_World_faults outer_save_fails sample_world in
  let first_call := RefundSubscriptionPreConsume "req" w0 in
  let second_call := RefundSubscriptionPreConsume "req" first_call.2 in
  SubscriptionPreConsumeRecord_PreConsumed <$> record_row "req" w0 = Some 100 ∧
  UserSubscription_AmountUsed <$> sub_row 1 w0 = Some 400 ∧
  first_call.1 = Err (EDriver "connection lost") ∧
  second_call.1 = Ok tt ∧
  UserSubscription_AmountUsed <$> sub_row 1 second_call.2 = Some 200.
Proof. vm_compute. done. Qed.
End double_refund.
