(* ===== verification/OrderProps.v ===== *)
(** * OrderProps: orders and purchases

    A subscription order is completed once, by its own payment provider, and
    gives one subscription; a purchase limit holds at every creation; buying
    with the balance takes the price and gives a subscription, or does neither.
    All for every pattern of driver failures. *)

From S2P Require Export SubProps.

(** Equal up to the log table. *)
Definition but_logs (t t' : Tables) : Prop := set_Tables_logs [] t' = set_Tables_logs [] t.

Lemma but_logs_proj {A} (f : Tables -> A) t t' :
  (∀ t, f (set_Tables_logs [] t) = f t) -> but_logs t t' -> f t' = f t.
Proof. intros Hf H. rewrite <- (Hf t'), <- (Hf t). by rewrite H. Qed.

Section orders.
Context {CFG : Config} {LOC : Location} {DEC : Decimal}.

Lemma wp_on_user_hash id f Q w :
  (∀ r w', same_db w w' -> Q r w') -> wp (on_user_hash id f) Q w.
Proof.
  intros HQ. unfold on_user_hash. gwp; by apply HQ.
Qed.

Lemma wp_updateUserGroupCache id g Q w :
  (∀ r w', same_db w w' -> Q r w') -> wp (updateUserGroupCache id g) Q w.
Proof.
  intros HQ. unfold updateUserGroupCache. destruct RedisEnabled; [by apply wp_on_user_hash|].
  by apply wp_ret, HQ.
Qed.

Lemma wp_cacheDecrUserQuota id q Q w :
  (∀ r w', same_db w w' -> Q r w') -> wp (cacheDecrUserQuota id q) Q w.
Proof.
  intros HQ. unfold cacheDecrUserQuota, cacheIncrUserQuota.
  destruct RedisEnabled; [by apply wp_on_user_hash|]. by apply wp_ret, HQ.
Qed.

Lemma wp_GetUserCache id Q w :
  (∀ r w', same_db w w' -> Q r w') -> wp (GetUserCache id) Q w.
Proof.
  intros HQ. unfold GetUserCache, cacheGetUserBase, GetUserById. apply wp_bind, wp_attempt.
  assert (∀ w1, same_db w w1 ->
    wp (let! u := (do! fail_if (id =? 0) (EText "id 为空！") in
          first (λ w, omit_secrets <$> user_row id w)) in
        do! (if RedisEnabled then go (JPopulateUserCache id u) else ret tt) in
        ret (ToBaseUser u)) Q w1) as Hdb.
  { intros w1 [Hd Hn]. gwp; apply HQ; done. }
  destruct RedisEnabled; [|by apply wp_fail, Hdb].
  apply wp_bind, wp_map_err, wp_select; intros; [by apply Hdb|]. simpl.
  destruct (World_redis_users w !! id); simpl; [|by apply wp_fail, Hdb].
  by apply wp_ret, wp_ret, HQ.
Qed.

Lemma wp_GetUsernameById id b Q w :
  (∀ r w', same_db w w' -> Q r w') -> wp (GetUsernameById id b) Q w.
Proof.
  intros HQ. unfold GetUsernameById, getUserNameCache.
  assert (∀ w1, same_db w w1 ->
    wp (let! name := select (λ w, from_option User_Username "" (user_row id w)) in
        do! (if RedisEnabled then go (JUpdateUserNameCache id name) else ret tt) in
        ret name) Q w1) as Hdb.
  { intros w1 [Hd Hn]. gwp; apply HQ; done. }
  destruct (_ && _) eqn:E; [|by apply Hdb]. apply wp_bind, wp_attempt, wp_bind, wp_GetUserCache.
  intros [u|e] w1 H1; [|by apply Hdb]. apply wp_ret, wp_ret. by apply HQ.
Qed.

Lemma wp_RecordLog id ty f args Q w :
  (∀ w', but_logs (World_db w) (World_db w') -> World_now w' = World_now w -> Q (Ok tt) w') ->
  wp (RecordLog id ty f args) Q w.
Proof.
  intros HQ. unfold RecordLog, createLog. destruct (_ && _); [by apply wp_ret, HQ|].
  apply wp_bind, wp_attempt, wp_GetUsernameById. intros r w1 [Hd Hn].
  gwp; apply HQ; unfold but_logs; simpl; by rewrite ?Hd.
Qed.

(** ** Creating a subscription *)

(** [s] was added under the next id for user [u] and plan [plan]; the balances
    and the tables of orders, top-ups and records are as before; the purchase
    limit had not been reached. *)
Record created (u : Z) (plan : SubscriptionPlan) (s : UserSubscription) (w w' : World) : Prop := {
  created_row : Tables_subs (World_db w') =
    <[Tables_next_sub (World_db w) := s]> (Tables_subs (World_db w));
  created_user : UserSubscription_UserId s = u;
  created_plan : UserSubscription_PlanId s = SubscriptionPlan_Id plan;
  created_total : UserSubscription_AmountTotal s = SubscriptionPlan_TotalAmount plan;
  created_used : UserSubscription_AmountUsed s = 0;
  created_status : UserSubscription_Status s = "active";
  created_end : calcPlanEndTime (UserSubscription_StartTime s) plan = Ok (UserSubscription_EndTime s);
  created_limit : 0 < SubscriptionPlan_MaxPurchasePerUser plan ->
    count_subs (of_plan u (SubscriptionPlan_Id plan)) w < SubscriptionPlan_MaxPurchasePerUser plan;
  created_quota : ∀ id, User_Quota <$> user_row id w' = User_Quota <$> user_row id w;
  created_orders : Tables_orders (World_db w') = Tables_orders (World_db w);
  created_topups : Tables_topups (World_db w') = Tables_topups (World_db w);
  created_now : World_now w' = World_now w;
}.

Lemma set_group_quota (u : Z) g t id :
  User_Quota <$> Tables_users (upd_user u (set_User_Group g) t) !! id =
  User_Quota <$> Tables_users t !! id.
Proof.
  simpl. destruct (decide (id = u)) as [->|]; [rewrite lookup_alter_eq|by rewrite lookup_alter_ne].
  by destruct (_ !! u).
Qed.

Lemma count_subs_ext p w w' :
  Tables_subs (World_db w') = Tables_subs (World_db w) -> count_subs p w' = count_subs p w.
Proof. unfold count_subs, subs_where. by intros ->. Qed.

(** The purchase limit check. *)
Lemma wp_limit_check u plan Q w :
  (∀ e w', World_now w' = World_now w -> Q (Err e) w') ->
  (∀ w', same_db w w' ->
    (0 < SubscriptionPlan_MaxPurchasePerUser plan ->
     count_subs (of_plan u (SubscriptionPlan_Id plan)) w < SubscriptionPlan_MaxPurchasePerUser plan) ->
    Q (Ok tt) w') ->
  wp (if 0 <? SubscriptionPlan_MaxPurchasePerUser plan
      then let! count := select (count_subs (of_plan u (SubscriptionPlan_Id plan))) in
           fail_if (SubscriptionPlan_MaxPurchasePerUser plan <=? count) (EText "已达到该套餐购买上限")
      else ret tt) Q w.
Proof.
  intros He Hok. destruct (0 <? _) eqn:E.
  - apply wp_bind, wp_select; intros; [by apply He|]. simpl. apply wp_fail_if; intros Hc.
    + by apply He.
    + apply Hok; [done|]. intros _. rewrite (count_subs_ext _ w) in Hc by done. lia.
  - apply wp_ret, Hok; [done|lia].
Qed.

(** Moving the user to the plan's group touches no balance. *)
Lemma wp_upgrade u g Q w :
  (∀ e w', World_now w' = World_now w -> Q (Err e) w') ->
  (∀ prev w', World_now w' = World_now w ->
     (∃ us, World_db w' = set_Tables_users us (World_db w) ∧
        ∀ id, User_Quota <$> us !! id = User_Quota <$> user_row id w) -> Q (Ok prev) w') ->
  wp (if bool_decide (g = "") then ret ""
      else let! currentGroup := getUserGroupByIdTx u in
           if bool_decide (currentGroup = g) then ret ""
           else do! set_user_group u g in ret currentGroup) Q w.
Proof.
  intros He Hok.
  assert (∀ prev w', same_db w w' -> Q (Ok prev) w') as Hsame.
  { intros prev w' [Hd Hn]. apply Hok; [done|]. exists (Tables_users (World_db w)).
    split; [|done]. rewrite Hd. by destruct (World_db w). }
  unfold getUserGroupByIdTx, set_user_group.
  destruct (bool_decide (g = "")); [by apply wp_ret, Hsame|].
  apply wp_bind, wp_bind, wp_fail_if; intros; [by apply He|].
  apply wp_select; intros; [by apply He|].
  destruct (bool_decide _); [by apply wp_ret, Hsame|].
  gwp; [by apply He|]. apply Hok; [done|]. simpl. eexists. split; [done|].
  intros id. apply (set_group_quota u g (World_db w)).
Qed.

Lemma wp_CreateUserSubscription u plan src Q w :
  (∀ e w', World_now w' = World_now w -> Q (Err e) w') ->
  (∀ s w', created u plan s w w' -> Q (Ok s) w') ->
  wp (CreateUserSubscriptionFromPlanTx u plan src) Q w.
Proof.
  intros He Hok. unfold CreateUserSubscriptionFromPlanTx.
  apply wp_bind, wp_fail_if; intros; [by apply He|].
  apply wp_bind, wp_fail_if; intros; [by apply He|].
  apply wp_bind, wp_limit_check; [done|]. intros w1 [Hd1 Hn1] Hlim.
  apply wp_bind, wp_GetDBTimestamp. intros ts fs _.
  apply wp_bind. destruct (calcPlanEndTime ts plan) as [e|err] eqn:Ee; simpl;
    [|by apply wp_fail, He]. apply wp_ret.
  apply wp_bind, wp_upgrade; [intros e' w2 Hn2; apply He; by rewrite Hn2|].
  intros prev w2 Hn2 (us & Hd2 & Hq). simpl in Hn2, Hd2, Hq. rewrite Hd1 in Hd2.
  apply wp_bind, wp_gets. unfold create_sub. apply wp_create; intros.
  { apply He. simpl. by rewrite Hn2. }
  apply Hok. simpl. split; simpl; try done.
  - by rewrite Hd2.
  - intros id. unfold user_row in *. simpl in *. rewrite Hd2. simpl. rewrite Hq. by rewrite Hd1.
  - by rewrite Hd2.
  - by rewrite Hd2.
  - by rewrite Hn2.
Qed.

(** ** Completing an order *)

(** The top-up row of a completed order; nothing else changes. *)
Lemma wp_upsert o Q w :
  (∀ e w', World_now w' = World_now w -> Q (Err e) w') ->
  (∀ t w', TopUp_Status t = TopUpStatusSuccess ->
     World_db w' = set_Tables_topups (<[TopUp_TradeNo t := t]> (Tables_topups (World_db w))) (World_db w) ->
     World_now w' = World_now w -> Q (Ok tt) w') ->
  wp (upsertSubscriptionTopUpTx o) Q w.
Proof.
  intros He Hok. unfold upsertSubscriptionTopUpTx, create_topup, save_topup.
  apply wp_bind, wp_gets. apply wp_bind, wp_attempt, wp_first; intros; simpl.
  - by apply wp_fail, He.
  - apply wp_create; intros; [by apply He|]. simpl.
    match goal with |- Q _ (on_db (put_topup ?t) _) => by apply (Hok t) end.
  - gwp; first [by apply He
      | match goal with |- Q _ (on_db (put_topup ?t) _) => by apply (Hok t) end].
Qed.

(** A pending order became a successful one with a subscription of its own. *)
Definition completed (t : string) (o : SubscriptionOrder) (w w' : World) : Prop :=
  ∃ o' plan s, Tables_orders (World_db w') =
      <[SubscriptionOrder_TradeNo o := o']> (Tables_orders (World_db w)) ∧
    SubscriptionOrder_Status o' = TopUpStatusSuccess ∧
    SubscriptionOrder_UserId o' = SubscriptionOrder_UserId o ∧
    Tables_subs (World_db w') = <[Tables_next_sub (World_db w) := s]> (Tables_subs (World_db w)) ∧
    UserSubscription_UserId s = SubscriptionOrder_UserId o ∧
    UserSubscription_PlanId s = SubscriptionPlan_Id plan ∧
    UserSubscription_AmountUsed s = 0 ∧ UserSubscription_Status s = "active" ∧
    (∀ id, User_Quota <$> user_row id w' = User_Quota <$> user_row id w).

Lemma wp_complete_tail (log : order_log) Q w :
  (log.1.1.1.1 ≠ 0 -> ∀ w', but_logs (World_db w) (World_db w') -> Q (Ok tt) w') ->
  (log.1.1.1.1 = 0 -> ∀ w', World_db w' = World_db w -> Q (Ok tt) w') ->
  wp (let '(logUserId, logPlanTitle, logMoney, logPaymentMethod, upgradeGroup) := log in
      do! (if negb (bool_decide (upgradeGroup = "")) && (0 <? logUserId)
           then ignore (updateUserGroupCache logUserId upgradeGroup) else ret tt) in
      if 0 <? logUserId
      then RecordLog logUserId LogTypeTopup "订阅购买成功，套餐: %s，支付金额: %.2f，支付方式: %s"
             [AStr logPlanTitle; AFloat logMoney; AStr logPaymentMethod]
      else ret tt) Q w.
Proof.
  destruct log as [[[[u title] money] method] g]. simpl. intros HQ H0.
  assert (∀ w1, same_db w w1 -> wp (if 0 <? u
    then RecordLog u LogTypeTopup "订阅购买成功，套餐: %s，支付金额: %.2f，支付方式: %s"
           [AStr title; AFloat money; AStr method] else ret tt) Q w1) as Hlog.
  { intros w1 [Hd Hn]. destruct (0 <? u) eqn:E.
    - apply wp_RecordLog. intros w2 Hb _. apply HQ; [lia|]. by rewrite Hd in Hb.
    - apply wp_ret. destruct (decide (u = 0)); [by apply H0|].
      apply HQ; [done|]. by rewrite Hd. }
  apply wp_bind. destruct (_ && _).
  - apply wp_ignore, wp_updateUserGroupCache. intros r w1 H1. by apply Hlog.
  - by apply wp_ret, Hlog.
Qed.
Lemma but_logs_completed t o w w1 w2 :
  completed t o w w1 -> but_logs (World_db w1) (World_db w2) -> completed t o w w2.
Proof.
  intros (o' & plan & s & H1 & H2 & H3 & H4 & H5 & H6 & H7 & H8 & H9) Hb.
  exists o', plan, s. unfold user_row in *.
  rewrite (but_logs_proj Tables_orders _ _ (λ _, eq_refl) Hb).
  rewrite (but_logs_proj Tables_subs _ _ (λ _, eq_refl) Hb).
  rewrite (but_logs_proj Tables_users _ _ (λ _, eq_refl) Hb). done.
Qed.

Lemma Complete_outcome t payload provider method w :
  wp (CompleteSubscriptionOrder t payload provider method) (λ r w',
    match r with
    | Err _ => World_db w' = World_db w
    | Ok _ => ∃ o, order_row t w = Some o ∧
        (provider = "" ∨ SubscriptionOrder_PaymentProvider o = provider) ∧
        (SubscriptionOrder_Status o = TopUpStatusSuccess ∧ World_db w' = World_db w ∨
         SubscriptionOrder_Status o = TopUpStatusPending ∧ completed t o w w')
    end) w.
Proof.
  unfold CompleteSubscriptionOrder. apply wp_bind, wp_fail_if; intros _; [done|].
  apply wp_bind, wp_transaction; [done|]. intros fs0; simpl.
  apply wp_bind, wp_map_err, wp_first; intros; [done|done|]. rename a into o. simpl.
  apply wp_bind, wp_fail_if; intros Hp; [done|].
  assert (provider = "" ∨ SubscriptionOrder_PaymentProvider o = provider) as Hprov.
  { apply andb_false_iff in Hp as [Hp|Hp]; apply negb_false_iff, bool_decide_eq_true_1 in Hp; auto. }
  destruct (bool_decide (SubscriptionOrder_Status o = TopUpStatusSuccess)) eqn:Es.
  - apply bool_decide_eq_true_1 in Es. apply wp_ret. split; intros; [|done].
    apply (wp_complete_tail (0, "", fzero, "", "")); [done|]. intros _ w' Hw'. exists o. split_and!; auto.
  - apply wp_bind, wp_fail_if; intros Hst; [done|].
    apply negb_false_iff, bool_decide_eq_true_1 in Hst. unfold GetSubscriptionPlanById.
    apply wp_bind, wp_getPlan; [done|]. intros plan w1 [Hd1 Hn1]. simpl in Hd1.
    apply wp_bind, wp_CreateUserSubscription; [done|]. intros s w2 Hc.
    apply wp_bind, wp_upsert; [done|]. intros tp w3 _ Hd3 Hn3.
    apply wp_bind, wp_gets. set (o' := if _ && _ then _ else _).
    assert (SubscriptionOrder_Status o' = TopUpStatusSuccess ∧
      SubscriptionOrder_UserId o' = SubscriptionOrder_UserId o ∧
      SubscriptionOrder_TradeNo o' = SubscriptionOrder_TradeNo o) as (Ho1 & Ho2 & Ho3)
      by (unfold o'; by repeat case_match).
    unfold save_order. apply wp_bind, wp_update; [done|]. intros fs4. apply wp_ret.
    split; intros; [|done].
    assert (completed t o w (on_db (put_order o') (st_set_faults fs4 w3))) as Hcomp.
    { exists o', plan, s. destruct Hc. unfold user_row in *. simpl. rewrite Hd3. simpl.
      rewrite Ho3, created_orders0, created_row0, !Hd1 in *. split_and!; done. }
    apply (wp_complete_tail (SubscriptionOrder_UserId o', SubscriptionPlan_Title plan,
      SubscriptionOrder_Money o', SubscriptionOrder_PaymentMethod o',
      TrimSpace (SubscriptionPlan_UpgradeGroup plan))).
    + intros _ w' Hb. exists o. split_and!; [done..|]. right. split; [done|].
      by eapply but_logs_completed.
    + intros _ w' Hw'. exists o. split_and!; [done..|]. right. split; [done|].
      eapply but_logs_completed; [exact Hcomp|]. by rewrite Hw'.
Qed.
(** C10. Completing an order is all or nothing: an error leaves the database as
    it was; success means the order exists and belongs to the calling payment
    provider, and either it was complete already and nothing changed, or it was
    pending and is now successful with exactly one new, unused, active
    subscription for its user, no balance touched. *)
Theorem CompleteSubscriptionOrder_outcome t payload provider method w :
  wp (CompleteSubscriptionOrder t payload provider method) (λ r w',
    match r with
    | Err _ => World_db w' = World_db w
    | Ok _ => ∃ o, order_row t w = Some o ∧
        (provider = "" ∨ SubscriptionOrder_PaymentProvider o = provider) ∧
        (SubscriptionOrder_Status o = TopUpStatusSuccess ∧ World_db w' = World_db w ∨
         SubscriptionOrder_Status o = TopUpStatusPending ∧ completed t o w w')
    end) w.
Proof. apply Complete_outcome. Qed.

(** A webhook delivered again changes nothing: once the order was completed,
    every further completion, with whatever arguments and failures, leaves the
    database (subscriptions, balances, orders, logs) as it is.  The hypothesis says that
    the order is stored under its trade number. *)
Theorem CompleteSubscriptionOrder_once t p1 v1 m1 p2 v2 m2 w w1 :
  (∀ o, order_row t w = Some o -> SubscriptionOrder_TradeNo o = t) ->
  CompleteSubscriptionOrder t p1 v1 m1 w = (Ok tt, w1) ->
  wp (CompleteSubscriptionOrder t p2 v2 m2) (λ _ w2, World_db w2 = World_db w1) w1.
Proof.
  intros Hk Hrun. pose proof (wp_run _ _ _ _ _ Hrun (Complete_outcome t p1 v1 m1 w)) as Ho.
  destruct Ho as (o & Ho & _ & Hcase).
  assert (∃ o1, order_row t w1 = Some o1 ∧ SubscriptionOrder_Status o1 = TopUpStatusSuccess)
    as (o1 & Ho1 & Hs1).
  { destruct Hcase as [[Hs Hw]|[_ (o' & plan & s & Hrow & Hs & _)]].
    - exists o. unfold order_row in *. by rewrite Hw.
    - exists o'. unfold order_row. rewrite Hrow, (Hk o Ho), lookup_insert_eq. done. }
  eapply wp_mono; [apply Complete_outcome|]. intros [[]|e] w2; [|done].
  intros (o2 & Ho2 & _ & [[_ ?]|[Hp _]]); [done|]. simplify_eq. rewrite Hs1 in Hp. done.
Qed.

(** ** The purchase limit *)

Lemma created_count u plan s w w' :
  created u plan s w w' -> Tables_subs (World_db w) !! Tables_next_sub (World_db w) = None ->
  count_subs (of_plan u (SubscriptionPlan_Id plan)) w' =
  count_subs (of_plan u (SubscriptionPlan_Id plan)) w + 1.
Proof.
  intros Hc Hf. unfold count_subs, subs_where. rewrite (created_row _ _ _ _ _ Hc).
  set (m := Tables_subs (World_db w)) in *. set (k := Tables_next_sub (World_db w)) in *.
  assert (∀ (p : UserSubscription -> bool) (l l' : list UserSubscription), l ≡ₚ l' ->
    length (List.filter p l) = length (List.filter p l')) as Hperm.
  { intros p l l' H. induction H; simpl; repeat case_match; simpl; congruence. }
  rewrite (Hperm _ _ (s :: (map_to_list m).*2))
    by (rewrite map_to_list_insert by done; done).
  cbn [List.filter].
  assert (of_plan u (SubscriptionPlan_Id plan) s = true) as ->.
  { unfold of_plan. rewrite (created_user _ _ _ _ _ Hc), (created_plan _ _ _ _ _ Hc).
    by rewrite !Z.eqb_refl. }
  cbn [length]. lia.
Qed.

(** The purchase limit holds: creating a subscription from a plan with a
    limit succeeds only when the user owns fewer than the limit, so that
    afterwards the user owns at most the limit (the next id is unused). *)
Theorem purchase_limit_respected u plan src w s w' :
  Tables_subs (World_db w) !! Tables_next_sub (World_db w) = None ->
  CreateUserSubscriptionFromPlanTx u plan src w = (Ok s, w') ->
  0 < SubscriptionPlan_MaxPurchasePerUser plan ->
  count_subs (of_plan u (SubscriptionPlan_Id plan)) w' =
    count_subs (of_plan u (SubscriptionPlan_Id plan)) w + 1 ∧
  count_subs (of_plan u (SubscriptionPlan_Id plan)) w' <= SubscriptionPlan_MaxPurchasePerUser plan.
Proof.
  intros Hf Hrun Hmax.
  assert (created u plan s w w') as Hc.
  { eapply (wp_run _ (λ r w', match r with Ok s => created u plan s w w' | Err _ => True end) _ _ _ Hrun).
    by apply wp_CreateUserSubscription. }
  pose proof (created_limit _ _ _ _ _ Hc Hmax). pose proof (created_count _ _ _ _ _ Hc Hf). lia.
Qed.
(** ** Buying with the balance *)

(** User [u] paid [q] for a subscription [s] of [plan]. *)
Definition purchased (u q : Z) (plan : SubscriptionPlan) (s : UserSubscription) (w w' : World) : Prop :=
  SubscriptionPlan_Enabled plan = true ∧
  calcSubscriptionBalanceQuota (SubscriptionPlan_PriceAmount plan) = Ok q ∧
  (∃ user, user_row u w = Some user ∧ (0 < q -> q <= User_Quota user) ∧
     User_Quota <$> user_row u w' = Some (User_Quota user - Z.max 0 q)) ∧
  (∀ id, id ≠ u -> User_Quota <$> user_row id w' = User_Quota <$> user_row id w) ∧
  Tables_subs (World_db w') = <[Tables_next_sub (World_db w) := s]> (Tables_subs (World_db w)) ∧
  UserSubscription_UserId s = u ∧ UserSubscription_AmountUsed s = 0 ∧
  (0 < SubscriptionPlan_MaxPurchasePerUser plan ->
   count_subs (of_plan u (SubscriptionPlan_Id plan)) w < SubscriptionPlan_MaxPurchasePerUser plan).

Lemma but_logs_purchased u q plan s w w1 w2 :
  purchased u q plan s w w1 -> but_logs (World_db w1) (World_db w2) -> purchased u q plan s w w2.
Proof.
  intros (H1 & H2 & H3 & H4 & H5 & H6) Hb. unfold purchased, user_row in *.
  rewrite (but_logs_proj Tables_subs _ _ (λ _, eq_refl) Hb).
  rewrite (but_logs_proj Tables_users _ _ (λ _, eq_refl) Hb). done.
Qed.

(** The deduction, if there is one. *)
Lemma wp_deduct u q user Q w :
  user_row u w = Some user ->
  (∀ e w', World_now w' = World_now w -> Q (Err e) w') ->
  (∀ w', (∃ us, World_db w' = set_Tables_users us (World_db w) ∧
            User_Quota <$> us !! u = Some (User_Quota user - Z.max 0 q) ∧
            ∀ id, id ≠ u -> User_Quota <$> us !! id = User_Quota <$> user_row id w) ->
     World_now w' = World_now w -> Q (Ok tt) w') ->
  wp (if 0 <? q then decreaseUserQuota u q else ret tt) Q w.
Proof.
  intros Hu He Hok. destruct (Z.ltb_spec 0 q).
  - apply wp_update; intros; [by apply He|]. apply Hok; [|done]. simpl. eexists.
    split; [done|]. unfold user_row in *. split.
    + rewrite lookup_alter_eq, Hu. simpl. f_equal. lia.
    + intros id Hid. by rewrite lookup_alter_ne.
  - apply wp_ret, Hok; [|done]. exists (Tables_users (World_db w)).
    unfold user_row in *. rewrite Hu. split_and!; [by destruct (World_db w)|simpl; f_equal; lia|done].
Qed.

Lemma wp_purchase_tail u charged g title money Q w :
  (∀ w', but_logs (World_db w) (World_db w') -> Q (Ok tt) w') ->
  wp (do! (if 0 <? charged then ignore (cacheDecrUserQuota u charged) else ret tt) in
      do! (if bool_decide (g = "") then ret tt else ignore (updateUserGroupCache u g)) in
      RecordLog u LogTypeTopup "使用余额购买订阅成功，套餐: %s，支付金额: %.2f，扣除额度: %d"
        [AStr title; AFloat money; AInt charged]) Q w.
Proof.
  intros HQ.
  assert (∀ w1, same_db w w1 ->
    wp (RecordLog u LogTypeTopup "使用余额购买订阅成功，套餐: %s，支付金额: %.2f，扣除额度: %d"
        [AStr title; AFloat money; AInt charged]) Q w1) as Hlog.
  { intros w1 [Hd Hn]. apply wp_RecordLog. intros w2 Hb _. apply HQ. by rewrite Hd in Hb. }
  assert (∀ w1, same_db w w1 ->
    wp (do! (if bool_decide (g = "") then ret tt else ignore (updateUserGroupCache u g)) in
      RecordLog u LogTypeTopup "使用余额购买订阅成功，套餐: %s，支付金额: %.2f，扣除额度: %d"
        [AStr title; AFloat money; AInt charged]) Q w1) as Hgroup.
  { intros w1 [Hd Hn]. apply wp_bind. destruct (bool_decide _); [by apply wp_ret, Hlog|].
    apply wp_ignore, wp_updateUserGroupCache. intros r w2 [Hd2 Hn2].
    apply Hlog. split; congruence. }
  apply wp_bind. destruct (0 <? charged); [|by apply wp_ret, Hgroup].
  apply wp_ignore, wp_cacheDecrUserQuota. intros r w1 H1. by apply Hgroup.
Qed.

(** Buying with the balance charges the price or nothing: an error leaves
    the database as it was; success means the plan is enabled, the user could
    pay, exactly the price in quota was taken from that user and from nobody
    else, and one new unused subscription was created within the limit. *)
Theorem PurchaseSubscriptionWithBalance_outcome u p nonce w :
  wp (PurchaseSubscriptionWithBalance u p nonce) (λ r w',
    match r with
    | Err _ => World_db w' = World_db w
    | Ok _ => ∃ q plan s, purchased u q plan s w w'
    end) w.
Proof.
  unfold PurchaseSubscriptionWithBalance. apply wp_bind, wp_fail_if; intros _; [done|].
  apply wp_bind, wp_transaction; [done|]. intros fs0; simpl.
  apply wp_bind, wp_getPlan; [done|]. intros plan w1 [Hd1 Hn1]. simpl in Hd1, Hn1.
  apply wp_bind, wp_fail_if; intros Hen; [done|].
  apply wp_bind, wp_fail_if; intros _; [done|]. apply wp_bind, wp_fail_if; intros _; [done|].
  apply wp_bind. destruct (calcSubscriptionBalanceQuota _) as [q|e] eqn:Eq; simpl; [|done].
  apply wp_ret. apply wp_bind, wp_first; intros; [done|done|]. rename a into user. simpl.
  apply wp_bind, wp_fail_if; intros Hq; [done|].
  apply wp_bind, (wp_deduct _ _ user); [done|done|]. simpl. intros w2 (us & Hd2 & Hus & Hother) Hn2.
  apply wp_bind, wp_CreateUserSubscription; [done|]. intros s w3 Hc.
  apply wp_bind, wp_gets. apply wp_bind, wp_create; [done|]. intros fs3 _. apply wp_ret.
  split; intros; [|done].
  match goal with |- wp _ _ ?ww => assert (purchased u q plan s w ww) as Hp end.
  { assert (user_row u w = Some user) as Hu
      by (unfold user_row in *; simpl in *; by rewrite <- Hd1).
    destruct Hc as [Hrow Hu1 _ _ Hused _ _ Hlim Hquota _ _ _].
    unfold purchased, user_row in *; simpl in *. rewrite Hd2 in *. simpl in *.
    rewrite Hd1 in *. split_and!; try done.
    - by apply negb_false_iff.
    - exists user. split_and!; [done| |by rewrite Hquota]. intros.
      apply andb_false_iff in Hq as [?|?]; lia.
    - intros id Hid. rewrite Hquota. by apply Hother.
    - intros Hm. specialize (Hlim Hm). rewrite (count_subs_ext _ w) in Hlim; [done|].
      by rewrite Hd2. }
  apply wp_purchase_tail. intros w' Hb. exists q, plan, s. by eapply but_logs_purchased.
Qed.
End orders.
