(* ===== verification/Billing.v ===== *)
(** * Billing: the life of a request's charge

    Models [service/funding_source.go], [service/billing_session.go],
    [service/billing.go], [service/pre_consume_quota.go] and the token and
    post-consume operations of [service/quota.go].

    A billing session lives in a [BState]: the shared world, the request's
    [RelayInfo] (a pointer in the source: what one attempt writes, the next one
    sees), the session itself, whether [relayInfo.Billing] is set, and the
    token quota the middleware left in the request context.  Amounts inside
    messages are kept as format verbs. *)

From S2P Require Export Subscription.

Definition BillingSourceWallet : string := "wallet".
Definition BillingSourceSubscription : string := "subscription".

(** [service.BillingSession] without its mutex: every method holds it from start
    to end, or takes it for the state change alone ([Refund]). *)
Record Session : Type := mkSession {
  s_funding : FundingSource;
  s_preConsumedQuota : Z;
  s_tokenConsumed : Z;
  s_extraReserved : Z;
  s_trusted : bool;
  s_fundingSettled : bool;
  s_settled : bool;
  s_refunded : bool;
}.

Definition new_session (f : FundingSource) : Session := mkSession f 0 0 0 false false false false.

Definition with_funding (f : FundingSource) (s : Session) : Session :=
  mkSession f (s_preConsumedQuota s) (s_tokenConsumed s) (s_extraReserved s) (s_trusted s)
    (s_fundingSettled s) (s_settled s) (s_refunded s).
Definition with_preConsumedQuota (q : Z) (s : Session) : Session :=
  mkSession (s_funding s) q (s_tokenConsumed s) (s_extraReserved s) (s_trusted s)
    (s_fundingSettled s) (s_settled s) (s_refunded s).
Definition with_tokenConsumed (q : Z) (s : Session) : Session :=
  mkSession (s_funding s) (s_preConsumedQuota s) q (s_extraReserved s) (s_trusted s)
    (s_fundingSettled s) (s_settled s) (s_refunded s).
Definition with_extraReserved (q : Z) (s : Session) : Session :=
  mkSession (s_funding s) (s_preConsumedQuota s) (s_tokenConsumed s) q (s_trusted s)
    (s_fundingSettled s) (s_settled s) (s_refunded s).
Definition with_trusted (b : bool) (s : Session) : Session :=
  mkSession (s_funding s) (s_preConsumedQuota s) (s_tokenConsumed s) (s_extraReserved s) b
    (s_fundingSettled s) (s_settled s) (s_refunded s).
Definition with_fundingSettled (b : bool) (s : Session) : Session :=
  mkSession (s_funding s) (s_preConsumedQuota s) (s_tokenConsumed s) (s_extraReserved s)
    (s_trusted s) b (s_settled s) (s_refunded s).
Definition with_settled (b : bool) (s : Session) : Session :=
  mkSession (s_funding s) (s_preConsumedQuota s) (s_tokenConsumed s) (s_extraReserved s)
    (s_trusted s) (s_fundingSettled s) b (s_refunded s).
Definition with_refunded (b : bool) (s : Session) : Session :=
  mkSession (s_funding s) (s_preConsumedQuota s) (s_tokenConsumed s) (s_extraReserved s)
    (s_trusted s) (s_fundingSettled s) (s_settled s) b.

Record BState : Type := mkBState {
  b_world : World;
  b_info : RelayInfo;
  b_session : Session;
  b_billing : bool;
  b_token_quota : Z;
}.

Abbreviation BM := (M BState).

(** A model-layer call from the service layer. *)
Definition lift {A} (m : GM A) : BM A := λ b,
  let '(r, w) := m (b_world b) in
  (r, mkBState w (b_info b) (b_session b) (b_billing b) (b_token_quota b)).

Definition on_info (f : RelayInfo -> RelayInfo) : BM unit := modify (λ b,
  mkBState (b_world b) (f (b_info b)) (b_session b) (b_billing b) (b_token_quota b)).
Definition on_session (f : Session -> Session) : BM unit := modify (λ b,
  mkBState (b_world b) (b_info b) (f (b_session b)) (b_billing b) (b_token_quota b)).
Definition set_billing : BM unit := modify (λ b,
  mkBState (b_world b) (b_info b) (b_session b) true (b_token_quota b)).

Definition bignore {A} (m : BM A) : BM unit := do! attempt m in ret tt.

Section billing.
Context {CFG : Config} {LOC : Location} {DEC : Decimal}.

(** [common.GetTrustQuota] and [common.NormalizeBillingPreference] *)
Definition GetTrustQuota : Z := int_of_float (fmul (float_of_int 10) QuotaPerUnit).

Definition NormalizeBillingPreference (pref : string) : string :=
  let p := TrimSpace pref in
  if bool_decide (p = "subscription_first") || bool_decide (p = "wallet_first")
     || bool_decide (p = "subscription_only") || bool_decide (p = "wallet_only")
  then p else "subscription_first".

(** ** Funding sources *)

Definition Source (f : FundingSource) : string :=
  match f with Wallet _ => BillingSourceWallet | Subscription _ => BillingSourceSubscription end.

(** [refundWithRetry]: at most three attempts; the last error. *)
Definition refundWithRetry (fn : GM unit) : GM unit :=
  let! r1 := attempt fn in
  match r1 with
  | Ok _ => ret tt
  | Err _ =>
      let! r2 := attempt fn in
      match r2 with
      | Ok _ => ret tt
      | Err _ => fn
      end
  end.

(** [WalletFunding]'s methods; [PreConsume] returns the source with what the call
    recorded in it. *)
Definition Wallet_PreConsume (wf : WalletFunding) (amount : Z) : GM WalletFunding :=
  if amount <=? 0 then ret wf
  else do! DecreaseUserQuota (WalletFunding_userId wf) amount false in
       ret (set_WalletFunding_consumed amount wf).

Definition Wallet_Settle (wf : WalletFunding) (delta : Z) : GM unit :=
  if delta =? 0 then ret tt
  else if 0 <? delta then DecreaseUserQuota (WalletFunding_userId wf) delta false
  else IncreaseUserQuota (WalletFunding_userId wf) (wrap64 (- delta)) false.

Definition Wallet_Refund (wf : WalletFunding) : GM unit :=
  if WalletFunding_consumed wf <=? 0 then ret tt
  else IncreaseUserQuota (WalletFunding_userId wf) (WalletFunding_consumed wf) false.

(** [SubscriptionFunding]'s methods *)
Definition Subscription_PreConsume (sf : SubscriptionFunding) (amount : Z)
    : GM SubscriptionFunding :=
  let! res := PreConsumeUserSubscription (SubscriptionFunding_requestId sf)
                (SubscriptionFunding_userId sf) (SubscriptionFunding_amount sf) in
  let sf := set_SubscriptionFunding_AmountUsedAfter (Res_AmountUsedAfter res)
              (set_SubscriptionFunding_AmountTotal (Res_AmountTotal res)
                (set_SubscriptionFunding_preConsumed (Res_PreConsumed res)
                  (set_SubscriptionFunding_subscriptionId (Res_UserSubscriptionId res) sf))) in
  let! info := attempt (GetSubscriptionPlanInfoByUserSubscriptionId (Res_UserSubscriptionId res)) in
  match info with
  | Ok (planId, planTitle) =>
      ret (set_SubscriptionFunding_PlanTitle planTitle (set_SubscriptionFunding_PlanId planId sf))
  | Err _ => ret sf
  end.

Definition Subscription_Settle (sf : SubscriptionFunding) (delta : Z) : GM unit :=
  if delta =? 0 then ret tt
  else PostConsumeUserSubscriptionDelta (SubscriptionFunding_subscriptionId sf) delta.

Definition Subscription_Refund (sf : SubscriptionFunding) : GM unit :=
  if SubscriptionFunding_preConsumed sf <=? 0 then ret tt
  else refundWithRetry (RefundSubscriptionPreConsume (SubscriptionFunding_requestId sf)).

(** The interface's methods, by dynamic dispatch. *)
Definition funding_PreConsume (f : FundingSource) (amount : Z) : GM FundingSource :=
  match f with
  | Wallet wf => let! wf := Wallet_PreConsume wf amount in ret (Wallet wf)
  | Subscription sf => let! sf := Subscription_PreConsume sf amount in ret (Subscription sf)
  end.

Definition funding_Settle (f : FundingSource) (delta : Z) : GM unit :=
  match f with Wallet wf => Wallet_Settle wf delta | Subscription sf => Subscription_Settle sf delta end.

Definition funding_Refund (f : FundingSource) : GM unit :=
  match f with Wallet wf => Wallet_Refund wf | Subscription sf => Subscription_Refund sf end.

(** ** Tokens and the old path ([service/quota.go]) *)

Definition PreConsumeTokenQuota (info : RelayInfo) (quota : Z) : GM unit :=
  do! fail_if (quota <? 0) err_negative_quota in
  if RelayInfo_IsPlayground info then ret tt
  else
    let! token := GetTokenByKey (RelayInfo_TokenKey info) false in
    do! fail_if (negb (RelayInfo_TokenUnlimited info) && (Token_RemainQuota token <? quota))
          (EText "token quota is not enough, token remain quota: %s, need quota: %s") in
    DecreaseTokenQuota (RelayInfo_TokenId info) (RelayInfo_TokenKey info) quota.

(** The threshold below which a user is warned, and the two tests. *)
Definition warning_threshold (info : RelayInfo) : Z :=
  if feqb (RelayInfo_QuotaWarningThreshold info) fzero then QuotaRemindThreshold
  else int_of_float (RelayInfo_QuotaWarningThreshold info).

Definition quota_too_low (info : RelayInfo) (quota preConsumedQuota : Z) : bool :=
  wrap64 (RelayInfo_UserQuota info - wrap64 (quota + preConsumedQuota)) <? warning_threshold info.

Definition subscription_too_low (info : RelayInfo) : bool :=
  negb ((RelayInfo_SubscriptionId info =? 0) || (RelayInfo_SubscriptionAmountTotal info <=? 0)) &&
  (wrap64 (RelayInfo_SubscriptionAmountTotal info -
     wrap64 (RelayInfo_SubscriptionAmountUsedAfterPreConsume info +
             RelayInfo_SubscriptionPostDelta info)) <? warning_threshold info).

Definition checkAndSendQuotaNotify (quota preConsumedQuota : Z) : BM unit :=
  let! info := gets b_info in lift (go (JQuotaNotify info quota preConsumedQuota)).

Definition checkAndSendSubscriptionQuotaNotify : BM unit :=
  let! info := gets b_info in lift (go (JSubscriptionQuotaNotify info)).

Definition PostConsumeQuota (quota preConsumedQuota : Z) (sendEmail : bool) : BM unit :=
  let! info := gets b_info in
  do! (if bool_decide (RelayInfo_BillingSource info = BillingSourceSubscription) then
         do! fail_if (RelayInfo_SubscriptionId info =? 0) (EText "subscription id is missing") in
         if quota =? 0 then ret tt
         else
           do! lift (PostConsumeUserSubscriptionDelta (RelayInfo_SubscriptionId info) quota) in
           on_info (λ i, set_RelayInfo_SubscriptionPostDelta
                           (wrap64 (RelayInfo_SubscriptionPostDelta i + quota)) i)
       else if 0 <? quota then lift (DecreaseUserQuota (RelayInfo_UserId info) quota false)
       else lift (IncreaseUserQuota (RelayInfo_UserId info) (wrap64 (- quota)) false)) in
  do! (if RelayInfo_IsPlayground info then ret tt
       else if 0 <? quota
       then lift (DecreaseTokenQuota (RelayInfo_TokenId info) (RelayInfo_TokenKey info) quota)
       else lift (IncreaseTokenQuota (RelayInfo_TokenId info) (RelayInfo_TokenKey info)
                    (wrap64 (- quota)))) in
  if sendEmail && negb (wrap64 (quota + preConsumedQuota) =? 0)
  then checkAndSendQuotaNotify quota preConsumedQuota
  else ret tt.

(** ** The session *)

Definition needsRefundLocked (s : Session) : bool :=
  if s_settled s || s_refunded s || s_fundingSettled s then false
  else (0 <? s_tokenConsumed s) ||
       match s_funding s with
       | Subscription sf => 0 <? SubscriptionFunding_preConsumed sf
       | Wallet _ => false
       end.

Definition NeedsRefund : BM bool := gets (λ b, needsRefundLocked (b_session b)).
Definition GetPreConsumedQuota : BM Z := gets (λ b, s_preConsumedQuota (b_session b)).

Definition Settle (actualQuota : Z) : BM unit :=
  let! s := gets b_session in
  if s_settled s then ret tt
  else
    let delta := wrap64 (actualQuota - s_preConsumedQuota s) in
    if delta =? 0 then on_session (with_settled true)
    else
      do! (if s_fundingSettled s then ret tt
           else do! lift (funding_Settle (s_funding s) delta) in
                on_session (with_fundingSettled true)) in
      let! info := gets b_info in
      let! tokenErr :=
        (if RelayInfo_IsPlayground info then ret (Ok tt)
         else attempt (lift (
           if 0 <? delta
           then DecreaseTokenQuota (RelayInfo_TokenId info) (RelayInfo_TokenKey info) delta
           else IncreaseTokenQuota (RelayInfo_TokenId info) (RelayInfo_TokenKey info)
                  (wrap64 (- delta))))) in
      do! (if bool_decide (Source (s_funding s) = BillingSourceSubscription)
           then on_info (λ i, set_RelayInfo_SubscriptionPostDelta
                                (wrap64 (RelayInfo_SubscriptionPostDelta i + delta)) i)
           else ret tt) in
      do! on_session (with_settled true) in
      lift_result tokenErr.

Definition Refund : BM unit :=
  let! s := gets b_session in
  if s_settled s || s_refunded s || negb (needsRefundLocked s) then ret tt
  else
    do! on_session (with_refunded true) in
    let! info := gets b_info in
    lift (go (JRefund (mkRefundJob (RelayInfo_TokenId info) (RelayInfo_TokenKey info)
      (RelayInfo_IsPlayground info) (s_tokenConsumed s) (s_extraReserved s)
      (RelayInfo_SubscriptionId info) (s_funding s)))).

(** The goroutine of [Refund]. *)
Definition run_refund (j : RefundJob) : GM unit :=
  do! ignore (funding_Refund (RefundJob_funding j)) in
  do! (if (0 <? RefundJob_extraReserved j) &&
          bool_decide (Source (RefundJob_funding j) = BillingSourceSubscription) &&
          (0 <? RefundJob_subscriptionId j)
       then ignore (PostConsumeUserSubscriptionDelta (RefundJob_subscriptionId j)
                      (wrap64 (- RefundJob_extraReserved j)))
       else ret tt) in
  if (0 <? RefundJob_tokenConsumed j) && negb (RefundJob_isPlayground j)
  then ignore (IncreaseTokenQuota (RefundJob_tokenId j) (RefundJob_tokenKey j)
                 (RefundJob_tokenConsumed j))
  else ret tt.

Definition syncRelayInfo : BM unit :=
  let! s := gets b_session in
  do! on_info (λ i, set_RelayInfo_BillingSource (Source (s_funding s))
                      (set_RelayInfo_FinalPreConsumedQuota (s_preConsumedQuota s) i)) in
  match s_funding s with
  | Subscription sf => on_info (λ i,
      set_RelayInfo_SubscriptionPlanTitle (SubscriptionFunding_PlanTitle sf)
      (set_RelayInfo_SubscriptionPlanId (SubscriptionFunding_PlanId sf)
      (set_RelayInfo_SubscriptionAmountUsedAfterPreConsume
         (wrap64 (SubscriptionFunding_AmountUsedAfter sf + s_extraReserved s))
      (set_RelayInfo_SubscriptionAmountTotal (SubscriptionFunding_AmountTotal sf)
      (set_RelayInfo_SubscriptionPostDelta 0
      (set_RelayInfo_SubscriptionPreConsumed
         (wrap64 (SubscriptionFunding_preConsumed sf + s_extraReserved s))
      (set_RelayInfo_SubscriptionId (SubscriptionFunding_subscriptionId sf) i)))))))
  | Wallet _ => on_info (λ i, set_RelayInfo_SubscriptionPreConsumed 0 (set_RelayInfo_SubscriptionId 0 i))
  end.

Definition forbidden (e : error) (code : string) : error :=
  NewErrorWithStatusCode_quiet e code StatusForbidden.

Definition reserveFunding (delta : Z) : BM unit :=
  let! s := gets b_session in
  match s_funding s with
  | Wallet wf =>
      do! map_err (λ e, NewError_skipRetry e ErrorCodeUpdateDataError)
            (lift (DecreaseUserQuota (WalletFunding_userId wf) delta false)) in
      on_session (with_funding (Wallet (set_WalletFunding_consumed
        (wrap64 (WalletFunding_consumed wf + delta)) wf)))
  | Subscription sf =>
      map_err (λ e, forbidden (EWrap "订阅额度不足或未配置订阅: " e) ErrorCodeInsufficientUserQuota)
        (lift (PostConsumeUserSubscriptionDelta (SubscriptionFunding_subscriptionId sf) delta))
  end.

Definition rollbackFundingReserve (delta : Z) : BM unit :=
  let! s := gets b_session in
  match s_funding s with
  | Wallet wf =>
      let! r := attempt (lift (IncreaseUserQuota (WalletFunding_userId wf) delta false)) in
      match r with
      | Err _ => ret tt
      | Ok _ => on_session (with_funding (Wallet (set_WalletFunding_consumed
                  (wrap64 (WalletFunding_consumed wf - delta)) wf)))
      end
  | Subscription sf =>
      bignore (lift (PostConsumeUserSubscriptionDelta (SubscriptionFunding_subscriptionId sf)
                       (wrap64 (- delta))))
  end.

Definition reserveToken (delta : Z) : BM unit :=
  let! info := gets b_info in
  if (delta <=? 0) || RelayInfo_IsPlayground info then ret tt
  else map_err (λ e, forbidden e ErrorCodePreConsumeTokenQuotaFailed)
         (lift (PreConsumeTokenQuota info delta)).

Definition Reserve (targetQuota : Z) : BM unit :=
  let! s := gets b_session in
  if s_settled s || s_refunded s || s_trusted s || (targetQuota <=? s_preConsumedQuota s)
  then ret tt
  else
    let delta := wrap64 (targetQuota - s_preConsumedQuota s) in
    if delta <=? 0 then ret tt
    else
      do! reserveFunding delta in
      let! r := attempt (reserveToken delta) in
      match r with
      | Err e => do! rollbackFundingReserve delta in fail e
      | Ok _ =>
          do! on_session (λ s, with_extraReserved (wrap64 (s_extraReserved s + delta))
                (with_tokenConsumed (wrap64 (s_tokenConsumed s + delta))
                  (with_preConsumedQuota (wrap64 (s_preConsumedQuota s + delta)) s))) in
          syncRelayInfo
      end.

Definition shouldTrust : BM bool :=
  let! b := gets (λ b, b) in
  let info := b_info b in
  ret (if RelayInfo_ForcePreConsume info then false
       else if GetTrustQuota <=? 0 then false
       else if negb (RelayInfo_TokenUnlimited info || (GetTrustQuota <? b_token_quota b)) then false
       else match s_funding (b_session b) with
            | Wallet _ => GetTrustQuota <? RelayInfo_UserQuota info
            | Subscription _ => false
            end).

Definition preConsume (quota : Z) : BM unit :=
  let! trust := shouldTrust in
  do! (if trust then on_session (with_trusted true) else ret tt) in
  let effectiveQuota := if trust then 0 else quota in
  let! info := gets b_info in
  do! (if 0 <? effectiveQuota then
         do! map_err (λ e, forbidden e ErrorCodePreConsumeTokenQuotaFailed)
               (lift (PreConsumeTokenQuota info effectiveQuota)) in
         on_session (with_tokenConsumed effectiveQuota)
       else ret tt) in
  let! s := gets b_session in
  let! funded := attempt (lift (funding_PreConsume (s_funding s) effectiveQuota)) in
  match funded with
  | Err e =>
      do! (if (0 <? s_tokenConsumed s) && negb (RelayInfo_IsPlayground info) then
             do! bignore (lift (IncreaseTokenQuota (RelayInfo_TokenId info)
                    (RelayInfo_TokenKey info) (s_tokenConsumed s))) in
             on_session (with_tokenConsumed 0)
           else ret tt) in
      if Contains (Error e) "no active subscription" ||
         Contains (Error e) "subscription quota insufficient"
      then fail (forbidden (EWrap "订阅额度不足或未配置订阅: " e) ErrorCodeInsufficientUserQuota)
      else fail (NewError_skipRetry e ErrorCodeUpdateDataError)
  | Ok f =>
      do! on_session (λ s, with_preConsumedQuota effectiveQuota (with_funding f s)) in
      syncRelayInfo
  end.

(** ** Opening a session *)

Definition tryWallet (preConsumedQuota : Z) : BM unit :=
  let! info := gets b_info in
  let! userQuota := map_err (λ e, NewError_skipRetry e ErrorCodeQueryDataError)
                      (lift (GetUserQuota (RelayInfo_UserId info) false)) in
  do! fail_if (userQuota <=? 0)
        (forbidden (EText "用户额度不足, 剩余额度: %s") ErrorCodeInsufficientUserQuota) in
  do! fail_if (wrap64 (userQuota - preConsumedQuota) <? 0)
        (forbidden (EText "预扣费额度失败, 用户剩余额度: %s, 需要预扣费额度: %s")
           ErrorCodeInsufficientUserQuota) in
  do! on_info (set_RelayInfo_UserQuota userQuota) in
  do! on_session (λ _, new_session (Wallet (mkWalletFunding (RelayInfo_UserId info) 0))) in
  preConsume preConsumedQuota.

Definition trySubscription (preConsumedQuota : Z) : BM unit :=
  let! info := gets b_info in
  let subConsume := if preConsumedQuota <=? 0 then 1 else preConsumedQuota in
  do! on_session (λ _, new_session (Subscription (mkSubscriptionFunding
        (RelayInfo_RequestId info) (RelayInfo_UserId info) (RelayInfo_OriginModelName info)
        subConsume 0 0 0 0 0 ""))) in
  preConsume subConsume.

Definition insufficient (e : error) : bool :=
  bool_decide (GetErrorCode e = ErrorCodeInsufficientUserQuota).

Definition NewBillingSession (preConsumedQuota : Z) : BM unit :=
  let! info := gets b_info in
  let pref := NormalizeBillingPreference (RelayInfo_BillingPreference info) in
  let query_error e := NewError_skipRetry e ErrorCodeQueryDataError in
  if bool_decide (pref = "subscription_only") then trySubscription preConsumedQuota
  else if bool_decide (pref = "wallet_only") then tryWallet preConsumedQuota
  else if bool_decide (pref = "wallet_first") then
    let! r := attempt (tryWallet preConsumedQuota) in
    match r with
    | Ok _ => ret tt
    | Err e => if insufficient e then trySubscription preConsumedQuota else fail e
    end
  else
    let! hasSub := map_err query_error (lift (HasActiveUserSubscription (RelayInfo_UserId info))) in
    if negb hasSub then tryWallet preConsumedQuota
    else
      let! r := attempt (trySubscription preConsumedQuota) in
      match r with
      | Ok _ => ret tt
      | Err e =>
          if insufficient e then
            let! allowOverflow := map_err query_error
              (lift (UserActiveSubscriptionsAllowWalletOverflow (RelayInfo_UserId info))) in
            if (allowOverflow : bool) then tryWallet preConsumedQuota else fail e
          else fail e
      end.

Definition PreConsumeBilling (preConsumedQuota : Z) : BM unit :=
  do! NewBillingSession preConsumedQuota in set_billing.

Definition SettleBilling (actualQuota : Z) : BM unit :=
  let! b := gets (λ b, b) in
  if b_billing b then
    let! preConsumed := GetPreConsumedQuota in
    do! Settle actualQuota in
    if actualQuota =? 0 then ret tt
    else
      let! info := gets b_info in
      if bool_decide (RelayInfo_BillingSource info = BillingSourceSubscription)
      then checkAndSendSubscriptionQuotaNotify
      else checkAndSendQuotaNotify (wrap64 (actualQuota - preConsumed)) preConsumed
  else
    let quotaDelta := wrap64 (actualQuota - RelayInfo_FinalPreConsumedQuota (b_info b)) in
    if quotaDelta =? 0 then ret tt
    else PostConsumeQuota quotaDelta (RelayInfo_FinalPreConsumedQuota (b_info b)) true.

(** ** Pre-consumption without a session ([service/pre_consume_quota.go]) *)

Definition ReturnPreConsumedQuota : BM unit :=
  let! info := gets b_info in
  if RelayInfo_FinalPreConsumedQuota info =? 0 then ret tt
  else lift (go (JReturnQuota info)).

(** The goroutine works on a copy of the [RelayInfo]. *)
Definition run_return (info : RelayInfo) : GM unit := λ w,
  let '(_, b) := PostConsumeQuota (wrap64 (- RelayInfo_FinalPreConsumedQuota info)) 0 false
    (mkBState w info (new_session (Wallet (mkWalletFunding 0 0))) false 0) in
  (Ok tt, b_world b).

Definition PreConsumeQuota (preConsumedQuota : Z) : BM unit :=
  let! b := gets (λ b, b) in
  let info := b_info b in
  let! userQuota := map_err (λ e, NewError_skipRetry e ErrorCodeQueryDataError)
                      (lift (GetUserQuota (RelayInfo_UserId info) false)) in
  do! fail_if (userQuota <=? 0)
        (forbidden (EText "用户额度不足, 剩余额度: %s") ErrorCodeInsufficientUserQuota) in
  do! fail_if (wrap64 (userQuota - preConsumedQuota) <? 0)
        (forbidden (EText "预扣费额度失败, 用户剩余额度: %s, 需要预扣费额度: %s")
           ErrorCodeInsufficientUserQuota) in
  do! on_info (set_RelayInfo_UserQuota userQuota) in
  let preConsumedQuota :=
    if (GetTrustQuota <? userQuota) &&
       (RelayInfo_TokenUnlimited info || (GetTrustQuota <? b_token_quota b))
    then 0 else preConsumedQuota in
  let! info := gets b_info in
  do! (if 0 <? preConsumedQuota then
         do! map_err (λ e, forbidden e ErrorCodePreConsumeTokenQuotaFailed)
               (lift (PreConsumeTokenQuota info preConsumedQuota)) in
         map_err (λ e, NewError_skipRetry e ErrorCodeUpdateDataError)
           (lift (DecreaseUserQuota (RelayInfo_UserId info) preConsumedQuota false))
       else ret tt) in
  on_info (set_RelayInfo_FinalPreConsumedQuota preConsumedQuota).

(** ** Every goroutine of the billing core *)

Definition run_job (j : Job) : GM unit :=
  match j with
  | JRefund r => run_refund r
  | JReturnQuota info => run_return info
  | JQuotaNotify _ _ _ | JSubscriptionQuotaNotify _ => ret tt
  | _ => run_cache_job j
  end.
End billing.
