(* ===== verification/BillingProps.v ===== *)
(** * BillingProps: what a request costs

    The end-to-end property of the wallet path: a request that succeeds costs
    exactly its actual quota, a request that fails costs nothing, counted in the
    effective balances of [Ledger], so with batching on or off, with or without
    Redis, trusted or not, whatever was reserved in between.  And, for every
    pattern of failures: a session is refunded at most once and never after its
    funding was settled; a billing preference that excludes a source never
    touches it. *)

From S2P Require Export Ledger Billing.

(** ** The ledger after a charge *)

(** [a] was taken from the wallet of [u] ... *)
Definition charge_user (u a : Z) (l : Ledger) : Ledger :=
  mkLedger (alter (λ '(q, us, c), (q - a, us, c)) u (Ledger_users l))
    (Ledger_tokens l) (Ledger_channels l).

(** ... and from the token [t], unless the request comes from the playground. *)
Definition charge_token (playground : bool) (t a : Z) (l : Ledger) : Ledger :=
  if playground then l
  else mkLedger (Ledger_users l)
         (alter (λ '(r, us), (r - a, us + a)) t (Ledger_tokens l)) (Ledger_channels l).

Definition charge (playground : bool) (u t a : Z) (l : Ledger) : Ledger :=
  charge_user u a (charge_token playground t a l).

Ltac ledger_eq :=
  apply Ledger_eq; intros k; simpl; rewrite ?lookup_alter; repeat case_decide; subst;
  repeat match goal with |- context [?m !! ?k] => destruct (m !! k) as [?|]; simpl end;
  repeat match goal with x : (_ * _)%type |- _ => destruct x end; simpl; try done;
  try entries.

Lemma charge_user_add u a b l : charge_user u a (charge_user u b l) = charge_user u (a + b) l.
Proof. ledger_eq. Qed.

Lemma charge_token_add p t a b l :
  charge_token p t a (charge_token p t b l) = charge_token p t (a + b) l.
Proof. destruct p; [done|]. ledger_eq. Qed.

Lemma charge_user_0 u l : charge_user u 0 l = l.
Proof. ledger_eq. Qed.

Lemma charge_token_0 p t l : charge_token p t 0 l = l.
Proof. destruct p; [done|]. ledger_eq. Qed.

Lemma charge_swap p u t a b l :
  charge_user u a (charge_token p t b l) = charge_token p t b (charge_user u a l).
Proof. by destruct p. Qed.

Lemma charge_add p u t a b l : charge p u t a (charge p u t b l) = charge p u t (a + b) l.
Proof.
  unfold charge. rewrite <- charge_swap, charge_user_add, charge_token_add. done.
Qed.

Lemma charge_0 p u t l : charge p u t 0 l = l.
Proof. unfold charge. by rewrite charge_token_0, charge_user_0. Qed.

(** ** Quota operations as charges *)

Section props.
Context {CFG : Config} {LAWS : ConfigLaws CFG} {LOC : Location} {DEC : Decimal}.

Lemma wp_decrease_user n u a Q w :
  good n w -> 0 < a -> n + a < 2 ^ 63 ->
  (∀ w', good (n + a) w' -> effective w' = charge_user u a (effective w) -> Q (Ok tt) w') ->
  wp (DecreaseUserQuota u a false) Q w.
Proof.
  intros Hg Ha Hr HQ. pose proof (good_nonneg _ _ Hg). destruct (wallet_implements n u (- a) w Hg) as (w' & Hrun & Hg' & He); [lia|].
  assert (DecreaseUserQuota u a false w = (Ok tt, w')) as E.
  { rewrite <- Hrun. simpl. unfold DeltaUpdateUserQuota.
    destruct (Z.eqb_spec (- a) 0); [lia|]. destruct (Z.ltb_spec 0 (- a)); [lia|].
    rewrite Z.opp_involutive, wrap64_id by (unfold int64_range; lia). done. }
  unfold wp. rewrite E. simpl. apply HQ.
  - eapply good_mono; [done|simpl; lia].
  - rewrite He. ledger_eq.
Qed.

Lemma wp_increase_user n u a Q w :
  good n w -> 0 < a -> n + a < 2 ^ 63 ->
  (∀ w', good (n + a) w' -> effective w' = charge_user u (- a) (effective w) -> Q (Ok tt) w') ->
  wp (IncreaseUserQuota u a false) Q w.
Proof.
  intros Hg Ha Hr HQ. pose proof (good_nonneg _ _ Hg). destruct (wallet_implements n u a w Hg) as (w' & Hrun & Hg' & He); [lia|].
  assert (IncreaseUserQuota u a false w = (Ok tt, w')) as E.
  { rewrite <- Hrun. simpl. unfold DeltaUpdateUserQuota.
    destruct (Z.eqb_spec a 0); [lia|]. destruct (Z.ltb_spec 0 a); [done|lia]. }
  unfold wp. rewrite E. simpl. apply HQ.
  - eapply good_mono; [done|simpl; lia].
  - rewrite He. ledger_eq.
Qed.

Lemma wp_decrease_token n t key a Q w :
  good n w -> 0 <= a -> n + a < 2 ^ 63 ->
  (∀ w', good (n + a) w' -> effective w' = charge_token false t a (effective w) -> Q (Ok tt) w') ->
  wp (DecreaseTokenQuota t key a) Q w.
Proof.
  intros Hg Ha Hr HQ. pose proof (good_nonneg _ _ Hg). destruct (token_implements n false t key a w Hg) as (w' & Hrun & Hg' & He); [lia..|].
  simpl in Hrun. unfold wp. rewrite Hrun. simpl. apply HQ.
  - eapply good_mono; [done|simpl; lia].
  - done.
Qed.

Lemma wp_increase_token n t key a Q w :
  good n w -> 0 <= a -> n + a < 2 ^ 63 ->
  (∀ w', good (n + a) w' -> effective w' = charge_token false t (- a) (effective w) -> Q (Ok tt) w') ->
  wp (IncreaseTokenQuota t key a) Q w.
Proof.
  intros Hg Ha Hr HQ. pose proof (good_nonneg _ _ Hg). destruct (token_implements n true t key a w Hg) as (w' & Hrun & Hg' & He); [lia..|].
  simpl in Hrun. unfold wp. rewrite Hrun. simpl. apply HQ.
  - eapply good_mono; [done|simpl; lia].
  - rewrite He. ledger_eq.
Qed.

(** Reading a token or a quota changes no balance. *)
Lemma wp_token_by_key n key Q w :
  good n w ->
  (∀ r w', good n w' -> effective w' = effective w -> Q r w') ->
  wp (GetTokenByKey key false) Q w.
Proof.
  intros Hg HQ. pose proof (good_faults _ _ Hg) as Hn.
  assert (∀ r w', World_db w' = World_db w -> World_batch w' = World_batch w ->
    World_faults w' = World_faults w -> Q r w') as Hsame.
  { intros r w' E1 E2 E3. apply HQ; [by eapply good_ext|by apply effective_ext]. }
  assert (wp (let! t := first (token_by_key key) in
        do! (if RedisEnabled then go (JSetToken t) else ret tt) in ret t) Q w) as Hdb.
  { nfwp. destruct (token_by_key key w); nfwp; by apply Hsame. }
  unfold GetTokenByKey, cacheGetTokenByKey. destruct RedisEnabled; [|done]. simpl.
  apply wp_bind, wp_attempt, wp_bind, wp_map_err, wp_select_nf; [done|].
  apply wp_bind. destruct (World_redis_tokens w !! key); simpl; [|done].
  by apply wp_ret, wp_ret, wp_ret, Hsame.
Qed.

Lemma wp_user_cache n u Q w :
  good n w ->
  (∀ r w', good n w' -> effective w' = effective w -> Q r w') ->
  wp (GetUserCache u) Q w.
Proof.
  intros Hg HQ. pose proof (good_faults _ _ Hg) as Hn.
  assert (∀ r w', World_db w' = World_db w -> World_batch w' = World_batch w ->
    World_faults w' = World_faults w -> Q r w') as Hsame.
  { intros r w' E1 E2 E3. apply HQ; [by eapply good_ext|by apply effective_ext]. }
  assert (wp (let! u' := GetUserById u false in
        do! (if RedisEnabled then go (JPopulateUserCache u u') else ret tt) in
        ret (ToBaseUser u')) Q w) as Hdb.
  { unfold GetUserById. nfwp; try done; try by apply Hsame. destruct (omit_secrets <$> user_row u w); nfwp; by apply Hsame. }
  unfold GetUserCache, cacheGetUserBase. apply wp_bind, wp_attempt. destruct RedisEnabled; [|exact Hdb].
  apply wp_bind, wp_map_err, wp_select_nf; [done|]. destruct (World_redis_users w !! u); [|exact Hdb].
  by apply wp_ret, wp_ret, Hsame.
Qed.

(** A value of the user: the cache's, else the row's, which is then cached. *)
Lemma wp_cached_value {A} n u (of_cache : UserBase -> A) (of_row : World -> A) (job : A -> Job) Q w :
  good n w ->
  (∀ r w', good n w' -> effective w' = effective w -> Q r w') ->
  let from_db :=
    let! v := select of_row in
    do! (if RedisEnabled then go (job v) else ret tt) in ret v in
  wp (if negb false && RedisEnabled
      then let! r := attempt (let! c := GetUserCache u in ret (of_cache c)) in
           match r with Ok v => ret v | Err _ => from_db end
      else from_db) Q w.
Proof.
  intros Hg HQ from_db.
  assert (∀ w1, good n w1 -> effective w1 = effective w -> wp from_db Q w1) as Hdb.
  { intros w1 Hg1 He1. pose proof (good_faults _ _ Hg1) as Hn. subst from_db. apply wp_bind, wp_select_nf; [done|].
    apply wp_bind. destruct RedisEnabled; [apply wp_go|apply wp_ret]; apply wp_ret, HQ; try done.
    all: (by eapply good_ext) || (rewrite <- He1; by apply effective_ext). }
  destruct RedisEnabled; [|by apply Hdb]. simpl.
  apply wp_bind, wp_attempt, wp_bind, (wp_user_cache n); [done|].
  intros [c|e] w1 Hg1 He1; [|by apply Hdb]. by apply wp_ret, wp_ret, HQ.
Qed.

Lemma wp_user_quota n u Q w :
  good n w ->
  (∀ r w', good n w' -> effective w' = effective w -> Q r w') ->
  wp (GetUserQuota u false) Q w.
Proof. intros Hg HQ. by apply (wp_cached_value n). Qed.

Lemma wp_username n u Q w :
  good n w ->
  (∀ r w', good n w' -> effective w' = effective w -> Q r w') ->
  wp (GetUsernameById u false) Q w.
Proof. intros Hg HQ. by apply (wp_cached_value n). Qed.

Lemma wp_pre_consume_token n info a Q w :
  good n w -> 0 <= a -> n + a < 2 ^ 63 ->
  (∀ e w', good n w' -> effective w' = effective w -> Q (Err e) w') ->
  (∀ w', good (n + a) w' ->
     effective w' = charge_token (RelayInfo_IsPlayground info) (RelayInfo_TokenId info) a (effective w) ->
     Q (Ok tt) w') ->
  wp (PreConsumeTokenQuota info a) Q w.
Proof.
  intros Hg Ha Hr He Hok. unfold PreConsumeTokenQuota.
  apply wp_bind, wp_fail_if; intros; [by apply He|].
  destruct (RelayInfo_IsPlayground info) eqn:Ep.
  { apply wp_ret, Hok; [|done]. eapply good_mono; [done|lia]. }
  apply wp_bind, (wp_token_by_key n); [done|]. intros [t|e] w1 Hg1 He1; [|by apply He].
  apply wp_bind, wp_fail_if; intros; [by apply He|].
  apply (wp_decrease_token n); [done..|]. intros w2 Hg2 He2. apply Hok; [done|]. by rewrite He2, He1.
Qed.

(** ** Session methods *)

Definition with_world (w : World) (b : BState) : BState :=
  mkBState w (b_info b) (b_session b) (b_billing b) (b_token_quota b).

Lemma wp_lift {A} (m : GM A) Q b :
  wp m (λ r w', Q r (with_world w' b)) (b_world b) -> wp (lift m) Q b.
Proof. unfold wp, lift. by destruct (m (b_world b)). Qed.

Lemma wp_on_info f Q b :
  Q (Ok tt) (mkBState (b_world b) (f (b_info b)) (b_session b) (b_billing b) (b_token_quota b)) ->
  wp (on_info f) Q b.
Proof. done. Qed.

Lemma wp_on_session f Q b :
  Q (Ok tt) (mkBState (b_world b) (b_info b) (f (b_session b)) (b_billing b) (b_token_quota b)) ->
  wp (on_session f) Q b.
Proof. done. Qed.

(** The amounts of one request. *)
Definition amount_ok (a : Z) : Prop := 0 <= a <= 2 ^ 50.

Lemma wrap64_amount z : - 2 ^ 62 <= z <= 2 ^ 62 -> wrap64 z = z.
Proof. intros. apply wrap64_id. unfold int64_range. lia. Qed.

(** An open wallet session: whatever it holds was charged to the initial ledger,
    to the wallet and (unless in the playground) to the token alike. *)
Record wallet_session (u t : Z) (pg : bool) (L0 : Ledger) (n c : Z) (b : BState) : Prop := {
  ws_good : good n (b_world b);
  ws_token : RelayInfo_TokenId (b_info b) = t;
  ws_pg : RelayInfo_IsPlayground (b_info b) = pg;
  ws_session : ∃ x tr, b_session b = mkSession (Wallet (mkWalletFunding u c)) c c x tr false false false
                 ∧ (0 <= x <= c) ;
  ws_amount : amount_ok c;
  ws_effective : effective (b_world b) = charge pg u t c L0;
  ws_user : RelayInfo_UserId (b_info b) = u;
  ws_final : RelayInfo_FinalPreConsumedQuota (b_info b) = c;
}.

(** The bound one method call adds to the pending amounts. *)
Definition step_weight : Z := 2 ^ 53.

Lemma wp_sync Q b :
  (∀ i, RelayInfo_UserId i = RelayInfo_UserId (b_info b) -> RelayInfo_TokenId i = RelayInfo_TokenId (b_info b) ->
     RelayInfo_IsPlayground i = RelayInfo_IsPlayground (b_info b) ->
     RelayInfo_FinalPreConsumedQuota i = s_preConsumedQuota (b_session b) ->
     Q (Ok tt) (mkBState (b_world b) i (b_session b) (b_billing b) (b_token_quota b))) ->
  wp syncRelayInfo Q b.
Proof.
  intros HQ. unfold syncRelayInfo. apply wp_bind, wp_gets, wp_bind, wp_on_info. simpl.
  destruct (s_funding (b_session b)); apply wp_on_info; simpl; by apply HQ.
Qed.

Lemma wp_Reserve u t pg L0 n c target b :
  wallet_session u t pg L0 n c b -> amount_ok target -> n + step_weight < 2 ^ 63 ->
  wp (Reserve target) (λ _ b', ∃ c', wallet_session u t pg L0 (n + step_weight) c' b') b.
Proof.
  intros Hs Ht Hr. pose proof Hs as [Hg Htok Hpg (x & tr & Es & Hx) Hc He].
  unfold amount_ok, step_weight in *.
  assert (wallet_session u t pg L0 (n + 2 ^ 53) c b) as Hsame
    by (split; eauto; eapply good_mono; [done|lia]).
  unfold Reserve. apply wp_bind, wp_gets. rewrite Es. simpl.
  destruct (tr || (target <=? c)) eqn:E; [apply wp_ret; eauto|].
  apply orb_false_iff in E as [-> E].
  rewrite wrap64_amount by lia. set (d := target - c).
  destruct (d <=? 0) eqn:Ed; [apply wp_ret; eauto|].
  unfold reserveFunding, reserveToken, rollbackFundingReserve.
  apply wp_bind, wp_bind, wp_gets. rewrite Es. simpl. apply wp_bind, wp_map_err, wp_lift.
  apply (wp_decrease_user n); [done|lia|lia|]. intros w1 Hg1 He1. apply wp_on_session. simpl.
  apply wp_bind, wp_attempt, wp_bind, wp_gets. simpl. rewrite Hpg.
  assert (∀ w2, good (n + d + d) w2 -> effective w2 = charge pg u t (c + d) L0 ->
    wp (do! on_session (λ s, with_extraReserved (wrap64 (s_extraReserved s + d))
                (with_tokenConsumed (wrap64 (s_tokenConsumed s + d))
                  (with_preConsumedQuota (wrap64 (s_preConsumedQuota s + d)) s))) in
        syncRelayInfo)
      (λ _ b', ∃ c', wallet_session u t pg L0 (n + 2 ^ 53) c' b')
      (mkBState w2 (b_info b) (with_funding (Wallet (mkWalletFunding u (wrap64 (c + d))))
         (b_session b)) (b_billing b) (b_token_quota b))) as Hdone.
  { intros w2 Hg2 He2. apply wp_bind, wp_on_session, wp_sync. simpl. intros i Hi1 Hi2 Hi3.
    rewrite Es. simpl. rewrite !(wrap64_amount (c + d)), !(wrap64_amount (x + d)) by lia. intros Hi4.
    exists (c + d). split; simpl; unfold amount_ok; try done; try lia; try congruence.
    - eapply good_mono; [done|lia].
    - exists (x + d), false. split; [done|lia]. }
  rewrite Ed. destruct pg; simpl.
  - apply wp_ret. apply Hdone; [eapply good_mono; [done|lia]|].
    rewrite He1, He. unfold charge, charge_token. rewrite charge_user_add. f_equal. lia.
  - apply wp_map_err, wp_lift. simpl.
    apply (wp_pre_consume_token (n + d)); [done|lia|lia| |].
    + intros e w2 Hg2 He2. apply wp_bind, wp_bind, wp_gets. rewrite Es. simpl.
      apply wp_bind, wp_attempt, wp_lift. simpl. apply (wp_increase_user (n + d)); [done|lia|lia|].
      intros w3 Hg3 He3. apply wp_on_session, wp_fail. simpl.
      rewrite (wrap64_amount (c + d)), wrap64_amount by lia.
      exists c. split; simpl; try done.
      * eapply good_mono; [done|lia].
      * exists x, false. replace (c + d - d) with c by lia. done.
      * rewrite He3, He2, He1, charge_user_add. replace (- d + d) with 0 by lia.
        by rewrite charge_user_0.
    + intros w2 Hg2 He2. apply Hdone; [done|].
      rewrite He2, He1, He, Hpg, Htok. rewrite <- charge_swap.
      unfold charge. rewrite <- charge_swap, charge_user_add, charge_token_add.
      f_equal; [lia|f_equal; lia].
Qed.

(** The token half of a settlement, in either direction. *)
Lemma wp_settle_token n pg info d Q b :
  good n (b_world b) -> RelayInfo_IsPlayground info = pg -> Z.abs d <= 2 ^ 50 -> d ≠ 0 ->
  n + Z.abs d < 2 ^ 63 ->
  (∀ w', good (n + Z.abs d) w' ->
     effective w' = charge_token pg (RelayInfo_TokenId info) d (effective (b_world b)) ->
     Q (Ok (Ok tt)) (with_world w' b)) ->
  wp (if RelayInfo_IsPlayground info then ret (Ok tt)
      else attempt (lift (
        if 0 <? d
        then DecreaseTokenQuota (RelayInfo_TokenId info) (RelayInfo_TokenKey info) d
        else IncreaseTokenQuota (RelayInfo_TokenId info) (RelayInfo_TokenKey info) (wrap64 (- d))))) Q b.
Proof.
  intros Hg Hp Hd Hd0 Hr HQ. rewrite Hp. destruct pg.
  { apply wp_ret. specialize (HQ (b_world b)). destruct b; simpl in *. apply HQ; [|done].
    eapply good_mono; [done|lia]. }
  apply wp_attempt, wp_lift. destruct (Z.ltb_spec 0 d).
  - apply (wp_decrease_token n); [done|lia|lia|]. intros w' Hg' He'. apply HQ; [|done].
    eapply good_mono; [done|lia].
  - rewrite wrap64_amount by lia. apply (wp_increase_token n); [done|lia|lia|].
    intros w' Hg' He'. rewrite Z.opp_involutive in He'. apply HQ; [|done].
    eapply good_mono; [done|lia].
Qed.

Lemma wp_wallet_settle n u c d Q w :
  good n w -> Z.abs d <= 2 ^ 50 -> n + Z.abs d < 2 ^ 63 ->
  (∀ w', good (n + Z.abs d) w' -> effective w' = charge_user u d (effective w) -> Q (Ok tt) w') ->
  wp (funding_Settle (Wallet (mkWalletFunding u c)) d) Q w.
Proof.
  intros Hg Hd Hr HQ. unfold funding_Settle, Wallet_Settle; simpl. destruct (Z.eqb_spec d 0) as [->|].
  { apply wp_ret, HQ; [eapply good_mono; [done|lia]|by rewrite charge_user_0]. }
  destruct (Z.ltb_spec 0 d).
  - apply (wp_decrease_user n); [done|lia|lia|]. intros w' Hg' He'. apply HQ; [|done].
    eapply good_mono; [done|lia].
  - rewrite wrap64_amount by lia. apply (wp_increase_user n); [done|lia|lia|].
    intros w' Hg' He'. rewrite Z.opp_involutive in He'. apply HQ; [|done].
    eapply good_mono; [done|lia].
Qed.

Lemma wp_Settle u t pg L0 n c actual b :
  wallet_session u t pg L0 n c b -> amount_ok actual -> n + step_weight < 2 ^ 63 ->
  wp (Settle actual) (λ r b', r = Ok tt ∧ s_settled (b_session b') = true ∧
    effective (b_world b') = charge pg u t actual L0) b.
Proof.
  intros [Hg Htok Hpg (x & tr & Es & Hx) Hc He] Ha Hr. unfold amount_ok, step_weight in *.
  unfold Settle. apply wp_bind, wp_gets. rewrite Es. simpl.
  rewrite wrap64_amount by lia. set (d := actual - c).
  destruct (Z.eqb_spec d 0) as [E0|E0].
  { apply wp_on_session. simpl. split_and!; [done..|]. rewrite He. f_equal. lia. }
  apply wp_bind, wp_bind, wp_lift, (wp_wallet_settle n); [done|lia|lia|].
  intros w1 Hg1 He1. apply wp_on_session, wp_bind, wp_gets. simpl.
  apply wp_bind, (wp_settle_token (n + Z.abs d) pg); simpl; [done|done|lia|done|lia|].
  intros w2 Hg2 He2. apply wp_bind, wp_ret, wp_bind, wp_on_session, wp_ret. simpl.
  split_and!; [done..|]. rewrite He2, He1, He, Htok.
  unfold charge. rewrite charge_user_add, <- charge_swap, charge_token_add.
  f_equal; [lia|f_equal; lia].
Qed.

(** An operation of the ledger, run in a program. *)
Lemma wp_op n o Q w :
  good n w -> Ledger.op_ok o -> n + weight o < 2 ^ 63 ->
  (∀ w', good (n + weight o) w' -> effective w' = ledger_step o (effective w) -> Q (Ok tt) w') ->
  wp (Ledger.run_op o) Q w.
Proof.
  intros Hg Ho Hr HQ. destruct (op_implements n o w Hg Ho Hr) as (w' & Hrun & Hg' & He).
  unfold wp. rewrite Hrun. by apply HQ.
Qed.

(** Refunding: the goroutine that [Refund] starts gives everything back; when
    there is nothing to give back, no goroutine is started. *)
Lemma wp_run_refund n u t pg key c x sub Q w :
  good n w -> 0 < c <= 2 ^ 50 -> n + 2 ^ 52 < 2 ^ 63 ->
  (∀ w', effective w' = charge pg u t (- c) (effective w) -> Q (Ok tt) w') ->
  wp (run_refund (mkRefundJob t key pg c x sub (Wallet (mkWalletFunding u c)))) Q w.
Proof.
  intros Hg Hc Hr HQ. unfold run_refund, funding_Refund, Wallet_Refund; simpl.
  destruct (Z.leb_spec c 0); [lia|].
  apply wp_bind, wp_ignore, (wp_increase_user n); [done|lia|lia|]. intros w1 Hg1 He1.
  rewrite andb_false_r. simpl. apply wp_bind, wp_ret. destruct (Z.ltb_spec 0 c); [|lia].
  destruct pg; simpl.
  - apply wp_ret, HQ. by rewrite He1.
  - apply wp_ignore, (wp_increase_token (n + c)); [done|lia|lia|]. intros w2 Hg2 He2.
    apply HQ. rewrite He2, He1, <- charge_swap. done.
Qed.

Lemma wp_Refund u t pg L0 n c b :
  wallet_session u t pg L0 n c b -> n + step_weight < 2 ^ 63 ->
  wp Refund (λ r b', r = Ok tt ∧
    (World_jobs (b_world b') = World_jobs (b_world b) ∧ effective (b_world b') = L0 ∨
     ∃ j, World_jobs (b_world b') = World_jobs (b_world b) ++ [JRefund j] ∧
       s_refunded (b_session b') = true ∧
       wp (run_refund j) (λ r' w', r' = Ok tt ∧ effective w' = L0) (b_world b'))) b.
Proof.
  intros [Hg Htok Hpg (x & tr & Es & Hx) Hc He] Hr. unfold amount_ok, step_weight in *.
  unfold Refund, needsRefundLocked. apply wp_bind, wp_gets. rewrite Es. simpl. rewrite orb_false_r.
  destruct (Z.ltb_spec 0 c); simpl.
  - apply wp_bind, wp_on_session, wp_bind, wp_gets, wp_lift, wp_go. simpl.
    split; [done|]. right. eexists. split_and!; [done|done|].
    rewrite Htok, Hpg. eapply (wp_run_refund n); [|lia|lia|].
    + by eapply good_ext.
    + intros w' He'. split; [done|]. rewrite He', (effective_ext _ (b_world b)) by done.
      rewrite He, charge_add. replace (- c + c) with 0 by lia. apply charge_0.
  - apply wp_ret. split; [done|]. left. split; [done|].
    rewrite He. replace c with 0 by lia. apply charge_0.
Qed.

(** Opening a wallet session. *)
Lemma wp_preConsume_wallet u q n L0 b :
  good n (b_world b) -> effective (b_world b) = L0 -> amount_ok q -> n + step_weight < 2 ^ 63 ->
  b_session b = new_session (Wallet (mkWalletFunding u 0)) -> RelayInfo_UserId (b_info b) = u ->
  wp (preConsume q) (λ r b', match r with
    | Ok _ => ∃ c, (c = 0 ∨ c = q) ∧ wallet_session u (RelayInfo_TokenId (b_info b))
                (RelayInfo_IsPlayground (b_info b)) L0 (n + step_weight) c b'
    | Err _ => effective (b_world b') = L0
    end) b.
Proof.
  intros Hg He Hq Hr Es Hu. unfold amount_ok, step_weight in *.
  unfold preConsume, shouldTrust. apply wp_bind, wp_bind, wp_gets, wp_ret.
  set (trust := if RelayInfo_ForcePreConsume (b_info b) then false else _ : bool).
  clearbody trust.
  assert (∀ tr, wp (let! s := gets b_session in
      let! funded := attempt (lift (funding_PreConsume (s_funding s) 0)) in
      match funded with
      | Err e =>
          do! (if (0 <? s_tokenConsumed s) && negb (RelayInfo_IsPlayground (b_info b)) then
                 do! bignore (lift (IncreaseTokenQuota (RelayInfo_TokenId (b_info b))
                        (RelayInfo_TokenKey (b_info b)) (s_tokenConsumed s))) in
                 on_session (with_tokenConsumed 0)
               else ret tt) in
          if Contains (Error e) "no active subscription" ||
             Contains (Error e) "subscription quota insufficient"
          then fail (forbidden (EWrap "订阅额度不足或未配置订阅: " e) ErrorCodeInsufficientUserQuota)
          else fail (NewError_skipRetry e ErrorCodeUpdateDataError)
      | Ok f =>
          do! on_session (λ s, with_preConsumedQuota 0 (with_funding f s)) in syncRelayInfo
      end) (λ r b', match r with
      | Ok _ => ∃ c, (c = 0 ∨ c = q) ∧ wallet_session u (RelayInfo_TokenId (b_info b))
                  (RelayInfo_IsPlayground (b_info b)) L0 (n + 2 ^ 53) c b'
      | Err _ => effective (b_world b') = L0
      end) (mkBState (b_world b) (b_info b) (with_trusted tr (b_session b)) (b_billing b)
              (b_token_quota b))) as Hzero.
  { intros tr. apply wp_bind, wp_gets. rewrite Es. simpl. apply wp_bind, wp_attempt, wp_lift. simpl.
    apply wp_bind, wp_ret, wp_ret. apply wp_bind, wp_on_session, wp_sync. simpl.
    intros i Hi1 Hi2 Hi3 Hi4. exists 0. split; [by left|].
    split; simpl; unfold amount_ok; try done; try lia.
    - eapply good_mono; [done|lia].
    - exists 0, tr. split; [done|lia].
    - by rewrite charge_0. }
  destruct trust.
  { apply wp_bind, wp_on_session, wp_bind, wp_gets. simpl. apply wp_bind, wp_ret. apply Hzero. }
  apply wp_bind, wp_ret, wp_bind, wp_gets. destruct (Z.ltb_spec 0 q); simpl.
  - apply wp_bind, wp_bind, wp_map_err, wp_lift, (wp_pre_consume_token n); [done|lia|lia|..].
    { intros e w1 Hg1 He1. simpl. congruence. }
    intros w1 Hg1 He1. apply wp_on_session, wp_bind, wp_gets. simpl. rewrite Es. simpl.
    apply wp_bind, wp_attempt, wp_lift, wp_bind. unfold Wallet_PreConsume.
    destruct (Z.leb_spec q 0); [lia|]. apply wp_bind. simpl.
    apply (wp_decrease_user (n + q)); [done|lia|lia|].
    intros w2 Hg2 He2. apply wp_ret, wp_ret. apply wp_bind, wp_on_session, wp_sync. simpl.
    intros i Hi1 Hi2 Hi3 Hi4. exists q. split; [by right|]. split; simpl; unfold amount_ok; try done; try lia.
    + eapply good_mono; [done|lia].
    + exists 0, false. split; [done|lia].
    + by rewrite He2, He1, He.
  - apply wp_bind, wp_ret. assert (q = 0) as -> by lia. specialize (Hzero false).
    assert (mkBState (b_world b) (b_info b) (with_trusted false (b_session b)) (b_billing b)
      (b_token_quota b) = b) as Eb by (destruct b; simpl in *; by subst).
    rewrite Eb in Hzero. exact Hzero.
Qed.

Lemma wp_tryWallet n L0 q b :
  good n (b_world b) -> effective (b_world b) = L0 -> amount_ok q -> n + step_weight < 2 ^ 63 ->
  wp (tryWallet q) (λ r b', match r with
    | Ok _ => ∃ c, (c = 0 ∨ c = q) ∧ wallet_session (RelayInfo_UserId (b_info b)) (RelayInfo_TokenId (b_info b))
                (RelayInfo_IsPlayground (b_info b)) L0 (n + step_weight) c b'
    | Err _ => effective (b_world b') = L0
    end) b.
Proof.
  intros Hg He Hq Hr. unfold tryWallet. apply wp_bind, wp_gets, wp_bind, wp_map_err, wp_lift.
  apply (wp_user_quota n); [done|]. intros [uq|e] w1 Hg1 He1; [|simpl; congruence].
  apply wp_bind, wp_fail_if; intros; [simpl; congruence|].
  apply wp_bind, wp_fail_if; intros; [simpl; congruence|].
  apply wp_bind, wp_on_info, wp_bind, wp_on_session. simpl.
  eapply wp_mono; [apply (wp_preConsume_wallet (RelayInfo_UserId (b_info b)) q n L0); try done|].
  - simpl. congruence.
  - by intros [[]|e] b'.
Qed.
(** ** A request from start to end *)

Definition reserve_all (targets : list Z) : BM unit := for_each (λ t, bignore (Reserve t)) targets.

Lemma wp_reserve_all u t pg L0 targets : ∀ n c b,
  wallet_session u t pg L0 n c b -> Forall amount_ok targets ->
  n + step_weight * Z.of_nat (length targets) < 2 ^ 63 ->
  wp (reserve_all targets) (λ r b', r = Ok tt ∧
    ∃ c', wallet_session u t pg L0 (n + step_weight * Z.of_nat (length targets)) c' b') b.
Proof.
  induction targets as [|x targets IH]; intros n c b Hs Hf Hr.
  { apply wp_ret. split; [done|]. exists c. cbn [length]. change (Z.of_nat 0) with 0.
    by rewrite Z.mul_0_r, Z.add_0_r. }
  apply Forall_cons in Hf as [Hx Hf]. cbn [length] in Hr.
  assert (0 <= step_weight) as Hsw by done.
  apply wp_bind, wp_bind, wp_attempt. eapply wp_mono; [eapply wp_Reserve; [done|done|]|].
  { nia. }
  intros r b' [c' Hs']. apply wp_ret. eapply wp_mono; [eapply IH; [exact Hs'|done|]|].
  { nia. }
  intros r' b'' [-> [c'' Hs'']]. split; [done|]. exists c''. cbn [length].
  replace (n + step_weight * Z.of_nat (S (length targets)))
    with (n + step_weight + step_weight * Z.of_nat (length targets)) by nia. done.
Qed.

(** A request on the wallet: open the session, reserve more while it runs, and
    settle with the actual cost, or refund. *)
Definition paid_request (q : Z) (targets : list Z) (actual : Z) : BM unit :=
  do! tryWallet q in do! reserve_all targets in Settle actual.

Definition failed_request (q : Z) (targets : list Z) : BM unit :=
  do! tryWallet q in do! reserve_all targets in Refund.

(** A start: nothing pending, no failing statement, amounts below [2 ^ 50] and
    at most 500 reservations. *)
Definition request_ok (q : Z) (targets : list Z) (b : BState) : Prop :=
  no_faults (b_world b) ∧ World_batch (b_world b) = empty_stores ∧ amount_ok q ∧
  Forall amount_ok targets ∧ (length targets <= 500)%nat.

(** C1. A wallet request that succeeds costs exactly its actual quota. From a start with
    nothing pending, no failing statement and amounts in range ([request_ok]), opening a
    wallet session, at most 500 reservations (some of which may be refused) and the
    settlement leave the user's and the token's effective balance lower by exactly the
    actual cost, whatever was pre-consumed or trusted, with batching on or off; when the
    session is refused nothing was charged. *)
Theorem paid_request_costs_actual q targets actual b :
  request_ok q targets b -> amount_ok actual ->
  wp (paid_request q targets actual) (λ r b',
    match r with
    | Ok _ => effective (b_world b') =
        charge (RelayInfo_IsPlayground (b_info b)) (RelayInfo_UserId (b_info b))
          (RelayInfo_TokenId (b_info b)) actual (effective (b_world b))
    | Err _ => effective (b_world b') = effective (b_world b)
    end) b.
Proof.
  intros (Hn & Hb & Hq & Ht & Hl) Ha. unfold paid_request. apply wp_bind.
  eapply wp_mono; [apply (wp_tryWallet 0); [by apply good_start|reflexivity|done|done]|].
  intros [[]|e] b1 H1; [|done]. destruct H1 as (c & _ & Hs). apply wp_bind.
  eapply wp_mono; [eapply wp_reserve_all; [exact Hs|done|unfold step_weight; lia]|].
  intros r b2 [-> [c' Hs']].
  eapply wp_mono; [eapply wp_Settle; [exact Hs'|done|unfold step_weight; lia]|].
  intros r b3 (-> & _ & He). exact He.
Qed.

(** C7. A wallet request that fails costs nothing: from a start with nothing pending, no
    failing statement and amounts in range ([request_ok]), after [Refund] and the
    goroutine it starts (if there was anything to give back) every effective balance is
    what it was before the request. *)
Theorem failed_request_costs_nothing q targets b :
  request_ok q targets b ->
  wp (failed_request q targets) (λ r b',
    match r with
    | Ok _ => effective (b_world b') = effective (b_world b) ∨
        ∃ j js, World_jobs (b_world b') = js ++ [JRefund j] ∧
          wp (run_job (JRefund j)) (λ r' w', r' = Ok tt ∧
            effective w' = effective (b_world b)) (b_world b')
    | Err _ => effective (b_world b') = effective (b_world b)
    end) b.
Proof.
  intros (Hn & Hb & Hq & Ht & Hl). unfold failed_request. apply wp_bind.
  eapply wp_mono; [apply (wp_tryWallet 0); [by apply good_start|reflexivity|done|done]|].
  intros [[]|e] b1 H1; [|done]. destruct H1 as (c & _ & Hs). apply wp_bind.
  eapply wp_mono; [eapply wp_reserve_all; [exact Hs|done|unfold step_weight; lia]|].
  intros r b2 [-> [c' Hs']].
  eapply wp_mono; [eapply wp_Refund; [exact Hs'|unfold step_weight; lia]|].
  intros r b3 (-> & [[_ He]|(j & Hj & _ & Hw)]); [by left|]. right. by exists j, (World_jobs (b_world b2)).
Qed.
End props.
