(* ===== verification/SessionProps.v ===== *)
(** * SessionProps: sessions under every pattern of failures

    Safety of billing sessions that does not need a working database: a session
    starts at most one refund, never one after its funding was settled; a
    preference for subscriptions only never touches the wallet, and neither does
    a user whose subscription forbids wallet overflow. *)

From S2P Require Export BillingProps SubInv OrderProps.

(** ** Invariants of the world across session methods *)

Definition bkeeps (I : World -> Prop) {A} (m : BM A) (P : A -> Prop) : Prop :=
  ∀ b, I (b_world b) ->
  wp m (λ r b', I (b_world b') ∧ match r with Ok a => P a | Err _ => True end) b.

Section bkeeps.
Context (I : World -> Prop).

Lemma bkeeps_ret {A} (a : A) (P : A -> Prop) : P a -> bkeeps I (ret a) P.
Proof. intros H b Hb. by apply wp_ret. Qed.
Lemma bkeeps_fail {A} e (P : A -> Prop) : bkeeps I (fail e) P.
Proof. intros b Hb. by apply wp_fail. Qed.
Lemma bkeeps_bind {A B} (m : BM A) (k : A -> BM B) P Q :
  bkeeps I m P -> (∀ a, P a -> bkeeps I (k a) Q) -> bkeeps I (bind m k) Q.
Proof.
  intros Hm Hk b Hb. apply wp_bind. eapply wp_mono; [by apply Hm|].
  intros [a|e] b' [Hb' HP]; [by apply Hk|done].
Qed.
Lemma bkeeps_lift {A} (m : GM A) P : keeps I m P -> bkeeps I (lift m) P.
Proof. intros Hm b Hb. apply wp_lift. by apply Hm. Qed.
Lemma bkeeps_attempt {A} (m : BM A) P :
  bkeeps I m P -> bkeeps I (attempt m) (λ r, match r with Ok a => P a | Err _ => True end).
Proof. intros Hm b Hb. apply wp_attempt. by apply Hm. Qed.
Lemma bkeeps_any {A} (m : BM A) P : bkeeps I m P -> bkeeps I m anything.
Proof. intros Hm b Hb. eapply wp_mono; [by apply Hm|]. intros [] b' [? _]; done. Qed.
Lemma bkeeps_map_err {A} f (m : BM A) P : bkeeps I m P -> bkeeps I (map_err f m) P.
Proof. intros Hm b Hb. apply wp_map_err. eapply wp_mono; [by apply Hm|]. by intros []. Qed.
Lemma bkeeps_fail_if c e : bkeeps I (fail_if c e) (λ _, c = false).
Proof. intros b Hb. apply wp_fail_if; intros; done. Qed.
Lemma bkeeps_gets {A} (f : BState -> A) : bkeeps I (gets f) anything.
Proof. intros b Hb. by apply wp_gets. Qed.
Lemma bkeeps_on_info f : bkeeps I (on_info f) anything.
Proof. intros b Hb. by apply wp_on_info. Qed.
Lemma bkeeps_on_session f : bkeeps I (on_session f) anything.
Proof. intros b Hb. by apply wp_on_session. Qed.
Lemma bkeeps_lift_result {A} (r : result A) : bkeeps I (lift_result r) anything.
Proof. destruct r; [by apply bkeeps_ret|apply bkeeps_fail]. Qed.
Lemma bkeeps_bignore {A} (m : BM A) P : bkeeps I m P -> bkeeps I (bignore m) anything.
Proof.
  intros Hm. eapply bkeeps_bind; [by apply bkeeps_attempt|]. intros. by apply bkeeps_ret.
Qed.
End bkeeps.

Ltac bkp_step :=
  lazymatch goal with
  | |- bkeeps _ (bind _ _) _ => eapply bkeeps_bind; [|intros]
  | |- bkeeps _ (ret _) ?P => first [is_evar P; apply (bkeeps_ret _ _ anything); exact Logic.I
                                    | apply bkeeps_ret]
  | |- bkeeps _ (fail _) _ => apply bkeeps_fail
  | |- bkeeps _ (lift _) _ => apply bkeeps_lift
  | |- bkeeps _ (attempt _) _ =>
      first [apply bkeeps_attempt | eapply bkeeps_any; apply bkeeps_attempt]
  | |- bkeeps _ (bignore _) _ => eapply bkeeps_bignore
  | |- bkeeps _ (map_err _ _) _ => apply bkeeps_map_err
  | |- bkeeps _ (fail_if _ _) _ => apply bkeeps_fail_if
  | |- bkeeps _ (gets _) _ => apply bkeeps_gets
  | |- bkeeps _ (on_info _) _ => apply bkeeps_on_info
  | |- bkeeps _ (on_session _) _ => apply bkeeps_on_session
  | |- bkeeps _ (lift_result _) _ => apply bkeeps_lift_result
  | |- bkeeps _ (if ?b then _ else _) _ => destruct b eqn:?
  | |- bkeeps _ (match ?x with _ => _ end) _ => destruct x
  | |- anything _ => exact Logic.I
  end.

(** ** The wallet is left alone *)

(** The users' rows and the pending wallet amounts are [U] and [B]; row [k] is a
    subscription of [u], active at [T], that forbids wallet overflow, or [k] is
    irrelevant ([strict = false]). *)
Record untouched_wallet (U : gmap Z User) (B : gmap Z Z) (T u k : Z) (strict : bool) (w : World) : Prop := {
  uw_users : Tables_users (World_db w) = U;
  uw_batch : store_of BatchUpdateTypeUserQuota (World_batch w) = B;
  uw_now : World_now w = T;
  uw_keyed : map_Forall (λ j s, UserSubscription_Id s = j) (Tables_subs (World_db w));
  uw_strict : strict = true -> ∃ s, sub_row k w = Some s ∧ is_active u T s = true ∧
    UserSubscription_AllowWalletOverflow s = false;
}.

(** What a subscription that is read, and written back, satisfies. *)
Definition strict_if (T u k : Z) (strict : bool) (s : UserSubscription) : Prop :=
  strict = true -> UserSubscription_Id s = k ->
  is_active u T s = true ∧ UserSubscription_AllowWalletOverflow s = false.

Section wallet.
Context {CFG : Config} {LOC : Location} {DEC : Decimal}.
Context (U : gmap Z User) (B : gmap Z Z) (T u k : Z) (strict : bool).
Abbreviation UW := (untouched_wallet U B T u k strict).
Abbreviation SI := (strict_if T u k strict).

#[local] Instance uw_stable : Stable UW.
Proof.
  split; [by intros fs w []|]. intros w w1 [] []. by split.
Qed.

Lemma uw_ext w w' :
  UW w -> Tables_users (World_db w') = Tables_users (World_db w) ->
  store_of BatchUpdateTypeUserQuota (World_batch w') =
    store_of BatchUpdateTypeUserQuota (World_batch w) ->
  World_now w' = World_now w -> Tables_subs (World_db w') = Tables_subs (World_db w) -> UW w'.
Proof.
  intros [H1 H2 H3 H4 H5] E1 E2 E3 E4. split; unfold sub_row in *; rewrite ?E1, ?E2, ?E3, ?E4; done.
Qed.

Lemma uw_row w j s : UW w -> Tables_subs (World_db w) !! j = Some s -> SI s.
Proof.
  intros [_ _ _ Hk Hs] Hj Hst Hid. specialize (Hk _ _ Hj). simpl in Hk.
  destruct (Hs Hst) as (s' & Hrow & ? & ?). unfold sub_row in Hrow.
  rewrite Hid in Hk. rewrite <- Hk, Hrow in Hj. by injection Hj as <-.
Qed.

Lemma uw_put s w : SI s -> UW w -> UW (on_db (put_sub s) w).
Proof.
  intros Hs [H1 H2 H3 H4 H5]. split; try done.
  - by apply map_Forall_insert_2.
  - intros Hst. unfold sub_row; simpl. destruct (decide (UserSubscription_Id s = k)) as [<-|Hne].
    + rewrite lookup_insert_eq. eexists. split; [done|]. by apply Hs.
    + rewrite lookup_insert_ne by done. by apply H5.
Qed.

Ltac untouched :=
  lazymatch goal with
  | |- keeps _ (select _) _ => kapply (keeps_select _ _ anything); done
  | |- keeps _ (gets _) _ => kapply (keeps_gets _ _ anything); done
  | |- keeps _ (first _) _ => kapply (keeps_first _ _ anything); done
  | |- keeps _ (update _) _ => kapply keeps_update; intros ? ?; (eapply uw_ext; [eassumption|done..])
  | |- keeps _ (modify _) _ => kapply keeps_modify; intros ? ?; (eapply uw_ext; [eassumption|done..])
  | |- keeps _ (go _) _ => kapply keeps_go; intros ? ? ?; (eapply uw_ext; [eassumption|done..])
  | |- keeps _ (create _ _) _ =>
      kapply (keeps_create _ _ _ anything); intros ? ? _; split; [eapply uw_ext; [eassumption|done..]|done]
  | |- anything _ => exact Logic.I
  end.

Ltac kp := repeat first
  [ keeps_step | solve [eauto with keeps] | untouched
  | match goal with
    | |- keeps _ (match ?x with _ => _ end) _ => destruct x
    end ].

Lemma uw_getPlan id : keeps UW (getSubscriptionPlanByIdTx id) anything.
Proof. unfold getSubscriptionPlanByIdTx, cache_get, cache_put. kp. Qed.
#[local] Hint Resolve uw_getPlan : keeps.

Lemma uw_save_sub s : SI s -> keeps UW (save_sub s) anything.
Proof.
  intros Hs. unfold save_sub. eapply keeps_bind; [kp|]. intros now _.
  kapply keeps_update. intros w Hw. by apply uw_put.
Qed.
#[local] Hint Resolve uw_save_sub : keeps.

Lemma uw_maybeReset s plan now : SI s -> keeps UW (maybeResetUserSubscriptionWithPlanTx s plan now) SI.
Proof.
  intros Hs. unfold maybeResetUserSubscriptionWithPlanTx. kp; done.
Qed.

Lemma uw_pre_consume_from subs req usr amount now :
  Forall SI subs -> keeps UW (pre_consume_from subs req usr amount now) anything.
Proof.
  intros Hs. induction Hs as [|s subs Hs _ IH]; simpl; [kp|].
  eapply keeps_bind; [kp|]. intros plan _.
  eapply keeps_bind; [by apply uw_maybeReset|]. clear s Hs. intros s Hs.
  destruct (_ && _) eqn:E; [exact IH|].
  eapply keeps_bind; [kp|]. intros stamp _. unfold create_record.
  eapply keeps_bind; [kp|]. intros [[]|e] _; [|kp].
  eapply keeps_bind; [|kp]. by apply uw_save_sub.
Qed.

Lemma uw_PreConsume req usr amount : keeps UW (PreConsumeUserSubscription req usr amount) anything.
Proof.
  unfold PreConsumeUserSubscription, pre_consume_tx.
  eapply keeps_bind; [kp|intros _ _]. eapply keeps_bind; [kp|intros _ _].
  eapply keeps_bind; [kp|intros _ _].
  eapply keeps_bind; [kp|]. intros now _. kapply keeps_transaction.
  eapply keeps_bind; [kp|]. intros [ex|] _; [kp|].
  eapply keeps_bind with (P := Forall SI).
  { kapply keeps_map_err. kapply keeps_select. intros w Hw. apply Forall_forall.
    intros s Hs. apply elem_of_rows_where in Hs as (_ & j & Hj). by eapply uw_row. }
  intros subs Hs. eapply keeps_bind; [kp|intros _ _]. by apply uw_pre_consume_from.
Qed.
#[local] Hint Resolve uw_PreConsume : keeps.

Lemma uw_PlanInfo id : keeps UW (GetSubscriptionPlanInfoByUserSubscriptionId id) anything.
Proof. unfold GetSubscriptionPlanInfoByUserSubscriptionId, cache_get, cache_put. kp. Qed.
#[local] Hint Resolve uw_PlanInfo : keeps.

Lemma uw_add_record i id v :
  i ≠ BatchUpdateTypeUserQuota -> keeps UW (addNewRecord i id v) anything.
Proof.
  intros Hi. kapply keeps_modify. intros w Hw. eapply uw_ext; [eassumption|done| |done|done].
  unfold store_of; simpl. by rewrite list_lookup_alter_ne.
Qed.

Lemma uw_token_ops id key q :
  keeps UW (DecreaseTokenQuota id key q) anything ∧ keeps UW (IncreaseTokenQuota id key q) anything.
Proof.
  unfold DecreaseTokenQuota, IncreaseTokenQuota, decreaseTokenQuota, increaseTokenQuota.
  split; kp; by apply uw_add_record.
Qed.

Lemma uw_GetTokenByKey key b : keeps UW (GetTokenByKey key b) anything.
Proof. unfold GetTokenByKey, cacheGetTokenByKey. kp. Qed.

Lemma uw_PreConsumeTokenQuota info q : keeps UW (PreConsumeTokenQuota info q) anything.
Proof.
  unfold PreConsumeTokenQuota. eapply keeps_bind; [kp|intros _ _].
  destruct (RelayInfo_IsPlayground info); [kp|].
  eapply keeps_bind; [apply uw_GetTokenByKey|]. intros t _.
  eapply keeps_bind; [kp|intros _ _]. apply uw_token_ops.
Qed.

Lemma uw_funding sf q : keeps UW (funding_PreConsume (Subscription sf) q) anything.
Proof. unfold funding_PreConsume, Subscription_PreConsume. kp. Qed.

(** Pre-consuming on a session whose funding is a subscription. *)
Lemma uw_preConsume_sub q b sf :
  UW (b_world b) -> s_funding (b_session b) = Subscription sf ->
  wp (preConsume q) (λ _ b', UW (b_world b')) b.
Proof.
  intros Hw Hf. unfold preConsume, shouldTrust. apply wp_bind, wp_bind, wp_gets, wp_ret.
  rewrite Hf.
  set (trust := if RelayInfo_ForcePreConsume (b_info b) then false else _ : bool).
  assert (trust = false) as -> by (unfold trust; by repeat case_match).
  apply wp_bind, wp_ret, wp_bind, wp_gets.
  apply wp_bind. eapply wp_mono with (Q := λ _ b', UW (b_world b') ∧
    s_funding (b_session b') = Subscription sf).
  { destruct (0 <? q); [|by apply wp_ret].
    apply wp_bind, wp_map_err, wp_lift. eapply wp_mono; [by apply uw_PreConsumeTokenQuota|].
    intros [[]|e] w' [Hw' _]; [|done]. by apply wp_on_session. }
  intros [[]|e] b1 [Hw1 Hf1]; [|done]. apply wp_bind, wp_gets. rewrite Hf1.
  apply wp_bind, wp_attempt, wp_lift. eapply wp_mono; [by apply uw_funding|].
  intros r w2 [Hw2 _].
  match goal with |- wp ?m _ _ => assert (bkeeps UW m anything) as Hb end.
  { destruct r as [f|e].
    - unfold syncRelayInfo. repeat bkp_step.
    - repeat bkp_step; apply uw_token_ops. }
  eapply wp_mono; [by apply Hb|]. by intros ?? [? _].
Qed.

Lemma uw_trySubscription q b :
  UW (b_world b) -> wp (trySubscription q) (λ _ b', UW (b_world b')) b.
Proof.
  intros Hw. unfold trySubscription. apply wp_bind, wp_gets, wp_bind, wp_on_session. simpl.
  by eapply uw_preConsume_sub.
Qed.
End wallet.

Section preferences.
Context {CFG : Config} {LOC : Location} {DEC : Decimal}.

(** The wallets of [b'] are those of [b]: the users' rows and what is pending. *)
Definition wallets_kept (b b' : BState) : Prop :=
  Tables_users (World_db (b_world b')) = Tables_users (World_db (b_world b)) ∧
  store_of BatchUpdateTypeUserQuota (World_batch (b_world b')) =
  store_of BatchUpdateTypeUserQuota (World_batch (b_world b)).

Definition keyed_subs (w : World) : Prop :=
  map_Forall (λ j s, UserSubscription_Id s = j) (Tables_subs (World_db w)).

(** A user who chose subscriptions only never pays from the wallet: opening
    a session leaves every wallet as it was, whether it succeeds or not and
    whatever fails. *)
Theorem subscription_only_keeps_wallet q b :
  keyed_subs (b_world b) ->
  NormalizeBillingPreference (RelayInfo_BillingPreference (b_info b)) = "subscription_only" ->
  wp (NewBillingSession q) (λ _ b', wallets_kept b b') b.
Proof.
  intros Hk Hp. unfold NewBillingSession. apply wp_bind, wp_gets. rewrite Hp.
  rewrite bool_decide_true by done.
  eapply wp_mono; [apply (uw_trySubscription (Tables_users (World_db (b_world b)))
    (store_of BatchUpdateTypeUserQuota (World_batch (b_world b))) (World_now (b_world b)) 0 0 false)|].
  - by split.
  - intros r b' []. done.
Qed.

Lemma count_positive p w k s :
  sub_row k w = Some s -> p s = true -> 0 < count_subs p w.
Proof.
  intros Hs Hp. unfold count_subs, subs_where.
  assert (In s (List.filter p (map_to_list (Tables_subs (World_db w))).*2)) as Hin.
  { apply filter_In. split; [|done]. apply list_elem_of_In, list_elem_of_fmap.
    exists (k, s). split; [done|]. by apply elem_of_map_to_list. }
  destruct (List.filter _ _); [done|]. simpl. lia.
Qed.

(** No wallet overflow against the plan's will: while the user has an active
    subscription that does not allow it, opening a session with the default
    preference (subscription first) leaves every wallet as it was; it is paid by
    a subscription or refused. *)
Theorem strict_subscription_keeps_wallet q b k s :
  keyed_subs (b_world b) ->
  NormalizeBillingPreference (RelayInfo_BillingPreference (b_info b)) = "subscription_first" ->
  sub_row k (b_world b) = Some s ->
  is_active (RelayInfo_UserId (b_info b)) (World_now (b_world b)) s = true ->
  UserSubscription_AllowWalletOverflow s = false ->
  wp (NewBillingSession q) (λ _ b', wallets_kept b b') b.
Proof.
  intros Hk Hp Hs Ha Hf. unfold NewBillingSession. apply wp_bind, wp_gets. rewrite Hp.
  rewrite !bool_decide_false by done.
  set (u := RelayInfo_UserId (b_info b)) in *.
  set (UW := untouched_wallet (Tables_users (World_db (b_world b)))
    (store_of BatchUpdateTypeUserQuota (World_batch (b_world b))) (World_now (b_world b)) u k true).
  assert (UW (b_world b)) as Hw by (split; eauto).
  assert (∀ b', UW (b_world b') -> wallets_kept b b') as Hkept by (by intros b' []).
  assert (∀ fs w', UW w' -> UW (st_set_faults fs w')) as Hfs by (by intros fs w' []).
  apply wp_bind, wp_map_err, wp_lift. unfold HasActiveUserSubscription.
  apply wp_bind, wp_fail_if; intros; [by apply Hkept|]. apply wp_bind, wp_gets.
  apply wp_bind, wp_select; intros; [by apply Hkept, Hfs|]. simpl. apply wp_ret.
  rewrite (count_subs_ext _ (b_world b)) by done.
  pose proof (count_positive _ _ _ _ Hs Ha) as Hcnt.
  destruct (Z.ltb_spec 0 (count_subs (is_active u (World_now (b_world b))) (b_world b))); [|lia].
  simpl. apply wp_bind, wp_attempt. eapply wp_mono; [eapply uw_trySubscription; exact (Hfs _ _ Hw)|].
  intros r b1 Hw1. fold UW in Hw1. destruct r as [[]|e]; [by apply wp_ret, Hkept|].
  destruct (insufficient e); [|by apply wp_fail, Hkept].
  apply wp_bind, wp_map_err, wp_lift. unfold UserActiveSubscriptionsAllowWalletOverflow.
  apply wp_bind, wp_fail_if; intros; [by apply Hkept|]. apply wp_bind, wp_gets.
  apply wp_bind, wp_select; intros; [by apply Hkept, Hfs|]. simpl. apply wp_ret.
  rewrite (count_subs_ext _ (b_world b1)) by done.
  destruct (uw_strict _ _ _ _ _ _ _ Hw1 eq_refl) as (s' & Hs' & Ha' & Hf').
  pose proof (count_positive (λ s, is_active u (World_now (b_world b1)) s &&
    negb (UserSubscription_AllowWalletOverflow s)) _ _ _ Hs') as Hc.
  simpl in Hc. rewrite (uw_now _ _ _ _ _ _ _ Hw1) in Hc |- *. rewrite Ha', Hf' in Hc.
  specialize (Hc eq_refl). destruct (Z.eqb_spec (count_subs (λ s, is_active u (World_now (b_world b)) s &&
    negb (UserSubscription_AllowWalletOverflow s)) (b_world b1)) 0); [lia|].
  by apply wp_fail, Hkept, Hfs.
Qed.
End preferences.

(** ** One refund at most *)

Definition is_refund (j : Job) : bool := match j with JRefund _ => true | _ => false end.

(** The refunds waiting to run. *)
Definition refunds (w : World) : nat := length (List.filter is_refund (World_jobs w)).

Section refunds.
Context {CFG : Config} {LOC : Location} {DEC : Decimal}.

Section fixed_count.
Context (r : nat).
Abbreviation RI := (λ w, refunds w = r).

#[local] Instance ri_stable : Stable RI.
Proof. by split. Qed.

Lemma ri_go j : is_refund j = false -> keeps RI (go j) anything.
Proof.
  intros Hj. kapply keeps_modify. intros w Hw. unfold refunds in *; simpl.
  rewrite List.filter_app. simpl. by rewrite Hj, app_nil_r.
Qed.

Ltac untouched :=
  lazymatch goal with
  | |- keeps _ (select _) _ => kapply (keeps_select _ _ anything); done
  | |- keeps _ (gets _) _ => kapply (keeps_gets _ _ anything); done
  | |- keeps _ (first _) _ => kapply (keeps_first _ _ anything); done
  | |- keeps _ (update _) _ => kapply keeps_update; done
  | |- keeps _ (modify _) _ => kapply keeps_modify; done
  | |- keeps _ (go _) _ => apply ri_go; done
  | |- anything _ => exact Logic.I
  end.
Ltac kp := repeat first
  [ keeps_step | solve [eauto with keeps] | untouched
  | match goal with |- keeps _ (match ?x with _ => _ end) _ => destruct x end ].

Lemma ri_users id q d :
  keeps RI (DecreaseUserQuota id q d) anything ∧ keeps RI (IncreaseUserQuota id q d) anything.
Proof.
  unfold DecreaseUserQuota, IncreaseUserQuota, decreaseUserQuota, increaseUserQuota, addNewRecord.
  split; kp.
Qed.

Lemma ri_tokens id key q :
  keeps RI (DecreaseTokenQuota id key q) anything ∧ keeps RI (IncreaseTokenQuota id key q) anything.
Proof.
  unfold DecreaseTokenQuota, IncreaseTokenQuota, decreaseTokenQuota, increaseTokenQuota, addNewRecord.
  split; kp.
Qed.

Lemma ri_PostConsume id d : keeps RI (PostConsumeUserSubscriptionDelta id d) anything.
Proof. unfold PostConsumeUserSubscriptionDelta, save_sub. kp. Qed.

Lemma ri_funding_Settle f d : keeps RI (funding_Settle f d) anything.
Proof.
  unfold funding_Settle, Wallet_Settle, Subscription_Settle.
  destruct f, (d =? 0); [kp|destruct (0 <? d); apply ri_users|kp|apply ri_PostConsume].
Qed.

Lemma ri_GetTokenByKey key b : keeps RI (GetTokenByKey key b) anything.
Proof. unfold GetTokenByKey, cacheGetTokenByKey. kp. Qed.

Lemma ri_PreConsumeTokenQuota info q : keeps RI (PreConsumeTokenQuota info q) anything.
Proof.
  unfold PreConsumeTokenQuota. eapply keeps_bind; [kp|intros _ _].
  destruct (RelayInfo_IsPlayground info); [kp|].
  eapply keeps_bind; [apply ri_GetTokenByKey|]. intros t _.
  eapply keeps_bind; [kp|intros _ _]. apply ri_tokens.
Qed.

Lemma ri_Reserve target : bkeeps RI (Reserve target) anything.
Proof.
  unfold Reserve, reserveFunding, reserveToken, rollbackFundingReserve, syncRelayInfo.
  repeat bkp_step;
    first [apply ri_users | apply ri_PostConsume | apply ri_PreConsumeTokenQuota].
Qed.

Lemma ri_Settle actual : bkeeps RI (Settle actual) anything.
Proof.
  unfold Settle. repeat bkp_step; first [apply ri_funding_Settle | keeps_step; apply ri_tokens].
Qed.
End fixed_count.

(** The session can no longer be refunded. *)
Definition closed (b : BState) : bool :=
  s_settled (b_session b) || s_refunded (b_session b) || s_fundingSettled (b_session b).

(** The methods of a session that a handler calls. *)
Inductive SessionOp : Type := MSettle (actual : Z) | MRefund | MReserve (target : Z).

Definition run_method (o : SessionOp) : BM unit :=
  match o with
  | MSettle a => Settle a
  | MRefund => Refund
  | MReserve t => Reserve t
  end.

(** The flags are only ever set. *)
Lemma Reserve_closed target b : wp (Reserve target) (λ _ b', closed b' = closed b) b.
Proof.
  assert (∀ b1 b2 : BState, closed b1 = closed b ->
    (s_settled (b_session b2), s_refunded (b_session b2), s_fundingSettled (b_session b2)) =
    (s_settled (b_session b1), s_refunded (b_session b1), s_fundingSettled (b_session b1)) ->
    closed b2 = closed b) as Hext.
  { intros b1 b2 H1 [= E1 E2 E3]. unfold closed in *. by rewrite E1, E2, E3. }
  unfold Reserve. apply wp_bind, wp_gets. destruct (_ || _); [by apply wp_ret|].
  set (d := wrap64 _). destruct (d <=? 0); [by apply wp_ret|].
  apply wp_bind. unfold reserveFunding. apply wp_bind, wp_gets.
  eapply wp_mono with (Q := λ _ b', closed b' = closed b).
  { destruct (s_funding (b_session b)).
    - apply wp_bind, wp_map_err, wp_lift. unfold wp. destruct (DecreaseUserQuota _ _ _ _) as [[[]|] ?]; simpl.
      + by eapply Hext.
      + by eapply Hext.
    - apply wp_map_err, wp_lift. unfold wp.
      destruct (PostConsumeUserSubscriptionDelta _ _ _) as [[[]|] ?]; simpl; by eapply Hext. }
  intros [[]|e] b1 H1; [|done].
  apply wp_bind, wp_attempt. unfold reserveToken. apply wp_bind, wp_gets.
  eapply wp_mono with (Q := λ _ b', closed b' = closed b).
  { destruct (_ || _); [by apply wp_ret|]. apply wp_map_err, wp_lift. unfold wp.
    destruct (PreConsumeTokenQuota _ _ _) as [[[]|] ?]; simpl; by eapply Hext. }
  intros [[]|e] b2 H2.
  - apply wp_bind, wp_on_session, wp_sync. intros. by eapply Hext.
  - apply wp_bind. unfold rollbackFundingReserve. apply wp_bind, wp_gets.
    destruct (s_funding (b_session b2)).
    + apply wp_bind, wp_attempt, wp_lift. unfold wp.
      destruct (IncreaseUserQuota _ _ _ _) as [[[]|] ?]; simpl; by eapply Hext.
    + apply wp_bind, wp_attempt, wp_lift. unfold wp.
      destruct (PostConsumeUserSubscriptionDelta _ _ _) as [[[]|] ?]; simpl; by eapply Hext.
Qed.

Lemma Settle_closed actual b :
  closed b = true -> wp (Settle actual) (λ _ b', closed b' = true) b.
Proof.
  intros Hc. unfold Settle. apply wp_bind, wp_gets. destruct (s_settled (b_session b)) eqn:Es; [by apply wp_ret|].
  destruct (_ =? 0); [by apply wp_on_session|].
  apply wp_bind. eapply wp_mono with (Q := λ r b', closed b' = true).
  { destruct (s_fundingSettled (b_session b)) eqn:Ef; [by apply wp_ret|].
    apply wp_bind, wp_lift. unfold wp. destruct (funding_Settle _ _ _) as [[[]|] ?]; simpl; [|done].
    unfold closed; simpl. by rewrite orb_true_r. }
  intros [[]|e] b1 H1; [|done]. apply wp_bind, wp_gets, wp_bind.
  eapply wp_mono with (Q := λ r b', ∃ x, r = Ok x).
  { destruct (RelayInfo_IsPlayground _); [apply wp_ret; eauto|]. apply wp_attempt, wp_lift.
    unfold wp. destruct (if _ : bool then _ else _) as [[[]|] ?]; simpl; eauto. }
  intros r b2 [x ->]. apply wp_bind.
  eapply wp_mono with (Q := λ r b', r = Ok tt).
  { destruct (bool_decide _); [by apply wp_on_info|by apply wp_ret]. }
  intros r b3 ->. apply wp_bind, wp_on_session. by destruct x as [[]|].
Qed.

(** What one method call does to the refunds and to the flags. *)
Lemma method_refunds o b :
  wp (run_method o) (λ _ b',
    (closed b = true -> closed b' = true) ∧
    (refunds (b_world b') = refunds (b_world b) ∨
     refunds (b_world b') = S (refunds (b_world b)) ∧ closed b = false ∧ closed b' = true)) b.
Proof.
  destruct o as [actual| |target]; simpl.
  - pose proof (ri_Settle (refunds (b_world b)) actual b eq_refl) as Hr.
    pose proof (Settle_closed actual b) as Hc. unfold wp in *. split; [done|]. left. apply Hr.
  - unfold Refund. apply wp_bind, wp_gets. destruct (_ || _) eqn:E; [apply wp_ret; auto|].
    apply wp_bind, wp_on_session, wp_bind, wp_gets, wp_lift, wp_go. simpl.
    assert (closed b = false) as Hcl.
    { apply orb_false_iff in E as [E Hn]. apply negb_false_iff in Hn.
      unfold needsRefundLocked, closed in *. by destruct (_ || _ || _). }
    split; [congruence|]. right. split_and!; [|done|unfold closed; simpl; by rewrite orb_true_r].
    unfold refunds; simpl. rewrite List.filter_app, length_app. simpl. lia.
  - pose proof (ri_Reserve (refunds (b_world b)) target b eq_refl) as Hr.
    pose proof (Reserve_closed target b) as Hc. unfold wp in *. split; [by rewrite Hc|]. left. apply Hr.
Qed.

(** The refunds a sequence of calls starts; before each call the world is
    whatever the other requests, the goroutines and the driver left. *)
Fixpoint refunds_started (calls : list (SessionOp * World)) (b : BState) : nat :=
  match calls with
  | [] => 0
  | (o, w) :: calls =>
      let b' := (run_method o (with_world w b)).2 in
      (refunds (b_world b') - refunds w + refunds_started calls b')%nat
  end.

Lemma refunds_bound calls b :
  (refunds_started calls b <= if closed b then 0 else 1)%nat.
Proof.
  revert b. induction calls as [|[o w] calls IH]; intros b; simpl; [lia|].
  pose proof (method_refunds o (with_world w b)) as H. unfold wp in H. simpl in H.
  change (closed (with_world w b)) with (closed b) in H.
  set (b' := (run_method o (with_world w b)).2) in *. specialize (IH b').
  destruct H as [Hc [E|(E & Hb & Hb')]].
  - rewrite E. destruct (closed b); [rewrite Hc in IH by done; lia|].
    destruct (closed b'); lia.
  - rewrite E, Hb. rewrite Hb' in IH. lia.
Qed.

(** A session starts at most one refund, whatever sequence of settle, refund
    and reserve calls is made on it, in whatever states of the world and with
    whatever failures; and none at all once its funding was settled or it was
    settled or refunded. *)
Theorem session_refunds_at_most_once calls b :
  (refunds_started calls b <= 1)%nat ∧
  (s_settled (b_session b) || s_refunded (b_session b) || s_fundingSettled (b_session b) = true ->
   refunds_started calls b = 0%nat).
Proof.
  pose proof (refunds_bound calls b) as H. unfold closed in H. split.
  - destruct (_ || _); lia.
  - intros E. rewrite E in H. lia.
Qed.
End refunds.
