(* ===== verification/TopUp.v ===== *)
(** * TopUp: paying in, redemption codes, check-ins, invitation quota

    Models [model/topup.go] (the payment callbacks of each provider and the
    administrator's completion of an order), the Epay notification of
    [controller/topup.go], failed payments of [controller/topup_stripe.go] and
    [controller/topup_waffo.go], [Redeem] and its likes of
    [model/redemption.go], [model/checkin.go], and the invitation functions of
    [model/user.go].  Each of them but the Epay
    notification credits a wallet inside a database transaction and writes a log
    afterwards. *)

From S2P Require Export Subscription.

(** Settings only these functions read. *)
Class Node := { GetIp : string; NodeName : string; Version : string }.

Record CheckinSetting : Type := mkCheckinSetting {
  CheckinSetting_Enabled : bool;
  CheckinSetting_MinQuota : Z;
  CheckinSetting_MaxQuota : Z;
}.

(** [quota + ?] with a double bound to the placeholder: what the integer column
    then holds is the database server's conversion. *)
Class SqlFloat := { sql_add_float : Z -> float64 -> Z }.

(** A double that is a whole number is added as that number. *)
Class SqlFloatLaws (F : SqlFloat) := {
  sql_add_float_int : ∀ q f n, float_is_int f n -> sql_add_float q f = q + n;
}.

Definition PaymentMethodStripe : string := "stripe".
Definition PaymentMethodCreem : string := "creem".
Definition PaymentMethodWaffo : string := "waffo".
Definition PaymentMethodWaffoPancake : string := "waffo_pancake".
Definition PaymentProviderEpay : string := "epay".
Definition PaymentProviderStripe : string := "stripe".
Definition PaymentProviderCreem : string := "creem".
Definition PaymentProviderWaffo : string := "waffo".
Definition PaymentProviderWaffoPancake : string := "waffo_pancake".

Definition ErrTopUpNotFound : error := EText "topup not found".
Definition ErrTopUpStatusInvalid : error := EText "topup status invalid".
Definition ErrRedeemFailed : error := EText "redeem.failed".

Definition RedemptionCodeStatusEnabled : Z := 1.
Definition RedemptionCodeStatusDisabled : Z := 2.
Definition RedemptionCodeStatusUsed : Z := 3.

Section topup.
Context {CFG : Config} {LOC : Location} {DEC : Decimal} {SQL : SqlFloat} {NODE : Node}.

(** [UPDATE users SET quota = quota + ? WHERE id = ?] *)
Definition credit_user (userId quota : Z) : GM unit :=
  update (on_db (upd_user userId (λ u, set_User_Quota (User_Quota u + quota) u))).

Definition RecordTopupLog (userId : Z) (format : string) (args : list Arg)
    (callerIp paymentMethod callbackPaymentMethod : string) : GM unit :=
  let! name := attempt (GetUsernameById userId false) in
  let username := match name with Ok n => n | Err _ => "" end in
  let! now := GetTimestamp in
  ignore (createLog (mkLog userId username now LogTypeTopup format args callerIp
    [("server_ip", GetIp); ("node_name", NodeName); ("caller_ip", callerIp);
     ("payment_method", paymentMethod); ("callback_payment_method", callbackPaymentMethod);
     ("version", Version)])).

(** ** Top-up orders *)

(** [TopUp.Insert], [TopUp.Update] *)
Definition Insert_topup (t : TopUp) : GM unit := create_topup t.
Definition Update_topup (t : TopUp) : GM unit := save_topup t.

Definition GetTopUpByTradeNo (tradeNo : string) : GM (option TopUp) :=
  let! r := attempt (first (topup_row tradeNo)) in
  ret (match r with Ok t => Some t | Err _ => None end).

Definition UpdatePendingTopUpStatus (tradeNo expectedPaymentProvider targetStatus : string)
    : GM unit :=
  do! fail_if (bool_decide (tradeNo = "")) (EText "未提供支付单号") in
  transaction (
    let! topUp := map_err (λ _, ErrTopUpNotFound) (first (topup_row tradeNo)) in
    do! fail_if (negb (bool_decide (expectedPaymentProvider = "")) &&
                 negb (bool_decide (TopUp_PaymentProvider topUp = expectedPaymentProvider)))
          ErrPaymentMethodMismatch in
    do! fail_if (negb (bool_decide (TopUp_Status topUp = TopUpStatusPending)))
          ErrTopUpStatusInvalid in
    save_topup (set_TopUp_Status targetStatus topUp)).

Definition err_no_order : error := EText "充值订单不存在".
Definition err_order_status : error := EText "充值订单状态错误".
Definition err_bad_quota : error := EText "无效的充值额度".
(** What the webhook handlers answer whatever went wrong inside. *)
Definition err_topup_failed : error := EText "充值失败，请稍后重试".

(** The order with its completion recorded. *)
Definition completed_topup (now : Z) (t : TopUp) : TopUp :=
  set_TopUp_Status TopUpStatusSuccess (set_TopUp_CompleteTime now t).

(** Quota of an amount or a price in units, through decimals. *)
Definition amount_quota (amount : Z) : Z :=
  dIntPart (dMul (NewFromInt amount) (NewFromFloat QuotaPerUnit)).
Definition money_quota (money : float64) : Z :=
  dIntPart (dMul (NewFromFloat money) (NewFromFloat QuotaPerUnit)).

Definition Recharge (referenceId customerId callerIp : string) : GM unit :=
  do! fail_if (bool_decide (referenceId = "")) (EText "未提供支付单号") in
  let! (topUp, quota) := map_err (λ _, err_topup_failed) (transaction (
    let! topUp := map_err (λ _, err_no_order) (first (topup_row referenceId)) in
    do! fail_if (negb (bool_decide (TopUp_PaymentProvider topUp = PaymentProviderStripe)))
          ErrPaymentMethodMismatch in
    do! fail_if (negb (bool_decide (TopUp_Status topUp = TopUpStatusPending)))
          err_order_status in
    let! now := GetTimestamp in
    let topUp := completed_topup now topUp in
    do! save_topup topUp in
    let quota := fmul (TopUp_Money topUp) QuotaPerUnit in
    do! update (on_db (upd_user (TopUp_UserId topUp) (λ u,
          set_User_Quota (sql_add_float (User_Quota u) quota)
            (set_User_StripeCustomer customerId u)))) in
    ret (topUp, quota))) in
  RecordTopupLog (TopUp_UserId topUp) "使用在线充值成功，充值金额: %v，支付金额：%d"
    [AQuota (int_of_float quota); AInt (TopUp_Amount topUp)]
    callerIp (TopUp_PaymentMethod topUp) PaymentMethodStripe.

(** The transaction also assigns [userId], [quotaToAdd], [payMoney] and
    [paymentMethod], which keep their zero values for an order that was complete
    already. *)
Definition ManualCompleteTopUp (tradeNo callerIp : string) : GM unit :=
  do! fail_if (bool_decide (tradeNo = "")) (EText "未提供订单号") in
  let! (userId, quotaToAdd, payMoney, paymentMethod) := transaction (
    let! topUp := map_err (λ _, err_no_order) (first (topup_row tradeNo)) in
    if bool_decide (TopUp_Status topUp = TopUpStatusSuccess)
    then ret (0, 0, fzero, "")
    else
      do! fail_if (negb (bool_decide (TopUp_Status topUp = TopUpStatusPending)))
            (EText "订单状态不是待支付，无法补单") in
      let quotaToAdd :=
        if bool_decide (TopUp_PaymentProvider topUp = PaymentProviderStripe)
        then money_quota (TopUp_Money topUp)
        else amount_quota (TopUp_Amount topUp) in
      do! fail_if (quotaToAdd <=? 0) err_bad_quota in
      let! now := GetTimestamp in
      let topUp := completed_topup now topUp in
      do! save_topup topUp in
      do! credit_user (TopUp_UserId topUp) quotaToAdd in
      ret (TopUp_UserId topUp, quotaToAdd, TopUp_Money topUp, TopUp_PaymentMethod topUp)) in
  RecordTopupLog userId "管理员补单成功，充值金额: %v，支付金额：%f"
    [AQuota quotaToAdd; AFloat payMoney] callerIp paymentMethod "admin".

Definition RechargeCreem (referenceId customerEmail customerName callerIp : string) : GM unit :=
  do! fail_if (bool_decide (referenceId = "")) (EText "未提供支付单号") in
  let! topUp := map_err (λ _, err_topup_failed) (transaction (
    let! topUp := map_err (λ _, err_no_order) (first (topup_row referenceId)) in
    do! fail_if (negb (bool_decide (TopUp_PaymentProvider topUp = PaymentProviderCreem)))
          ErrPaymentMethodMismatch in
    do! fail_if (negb (bool_decide (TopUp_Status topUp = TopUpStatusPending)))
          err_order_status in
    let! now := GetTimestamp in
    let topUp := completed_topup now topUp in
    do! save_topup topUp in
    let quota := TopUp_Amount topUp in
    let! set_email :=
      if bool_decide (customerEmail = "") then ret false
      else let! user := first (user_row (TopUp_UserId topUp)) in
           ret (bool_decide (User_Email user = "")) in
    do! update (on_db (upd_user (TopUp_UserId topUp) (λ u,
          let u := set_User_Quota (User_Quota u + quota) u in
          if set_email then set_User_Email customerEmail u else u))) in
    ret topUp)) in
  RecordTopupLog (TopUp_UserId topUp) "使用Creem充值成功，充值额度: %v，支付金额：%.2f"
    [AInt (TopUp_Amount topUp); AFloat (TopUp_Money topUp)]
    callerIp (TopUp_PaymentMethod topUp) PaymentMethodCreem.

Definition RechargeWaffo (tradeNo callerIp : string) : GM unit :=
  do! fail_if (bool_decide (tradeNo = "")) (EText "未提供支付单号") in
  let! (topUp, quotaToAdd) := map_err (λ _, err_topup_failed) (transaction (
    let! topUp := map_err (λ _, err_no_order) (first (topup_row tradeNo)) in
    do! fail_if (negb (bool_decide (TopUp_PaymentProvider topUp = PaymentProviderWaffo)))
          ErrPaymentMethodMismatch in
    if bool_decide (TopUp_Status topUp = TopUpStatusSuccess) then ret (topUp, 0)
    else
      do! fail_if (negb (bool_decide (TopUp_Status topUp = TopUpStatusPending)))
            err_order_status in
      let quotaToAdd := amount_quota (TopUp_Amount topUp) in
      do! fail_if (quotaToAdd <=? 0) err_bad_quota in
      let! now := GetTimestamp in
      let topUp := completed_topup now topUp in
      do! save_topup topUp in
      do! credit_user (TopUp_UserId topUp) quotaToAdd in
      ret (topUp, quotaToAdd))) in
  if 0 <? quotaToAdd
  then RecordTopupLog (TopUp_UserId topUp) "Waffo充值成功，充值额度: %v，支付金额: %.2f"
         [AQuota quotaToAdd; AFloat (TopUp_Money topUp)]
         callerIp (TopUp_PaymentMethod topUp) PaymentMethodWaffo
  else ret tt.

Definition RechargeWaffoPancake (tradeNo : string) : GM unit :=
  do! fail_if (bool_decide (tradeNo = "")) (EText "未提供支付单号") in
  let! (topUp, quotaToAdd) := map_err (λ _, err_topup_failed) (transaction (
    let! topUp := map_err (λ _, err_no_order) (first (topup_row tradeNo)) in
    do! fail_if (negb (bool_decide (TopUp_PaymentProvider topUp = PaymentProviderWaffoPancake)))
          ErrPaymentMethodMismatch in
    if bool_decide (TopUp_Status topUp = TopUpStatusSuccess) then ret (topUp, 0)
    else
      do! fail_if (negb (bool_decide (TopUp_Status topUp = TopUpStatusPending)))
            err_order_status in
      let quotaToAdd := amount_quota (TopUp_Amount topUp) in
      do! fail_if (quotaToAdd <=? 0) err_bad_quota in
      let! now := GetTimestamp in
      let topUp := completed_topup now topUp in
      do! save_topup topUp in
      do! credit_user (TopUp_UserId topUp) quotaToAdd in
      ret (topUp, quotaToAdd))) in
  if 0 <? quotaToAdd
  then RecordLog (TopUp_UserId topUp) LogTypeTopup
         "Waffo Pancake充值成功，充值额度: %v，支付金额: %.2f"
         [AQuota quotaToAdd; AFloat (TopUp_Money topUp)]
  else ret tt.

(** The notification of the Epay gateway, once the client library has checked
    its signature ([verified]) and told whether the payment went through
    ([tradeSuccess]); [serviceTradeNo] and [type] are the order and the payment
    method it names.  The handler answers before it does anything, so an error
    ends it without reaching anybody.  Order and credit are two statements
    outside a transaction. *)
Definition EpayNotify (verified tradeSuccess : bool) (serviceTradeNo type callerIp : string)
    : GM unit :=
  if negb verified || negb tradeSuccess then ret tt
  else
    let! order := GetTopUpByTradeNo serviceTradeNo in
    match order with
    | None => ret tt
    | Some topUp =>
        if negb (bool_decide (TopUp_PaymentProvider topUp = PaymentProviderEpay)) then ret tt
        else if negb (bool_decide (TopUp_Status topUp = TopUpStatusPending)) then ret tt
        else
          let topUp :=
            if negb (bool_decide (TopUp_PaymentMethod topUp = type))
            then set_TopUp_PaymentMethod type topUp else topUp in
          let topUp := set_TopUp_Status TopUpStatusSuccess topUp in
          let! saved := attempt (Update_topup topUp) in
          match saved with
          | Err _ => ret tt
          | Ok _ =>
              let quotaToAdd := amount_quota (TopUp_Amount topUp) in
              let! credited := attempt (IncreaseUserQuota (TopUp_UserId topUp) quotaToAdd true) in
              match credited with
              | Err _ => ret tt
              | Ok _ =>
                  RecordTopupLog (TopUp_UserId topUp)
                    "使用在线充值成功，充值金额: %v，支付金额：%f"
                    [AQuota quotaToAdd; AFloat (TopUp_Money topUp)]
                    callerIp (TopUp_PaymentMethod topUp) "epay"
              end
          end
    end.

(** Stripe tells that a payment it had accepted has failed. *)
Definition sessionAsyncPaymentFailed (referenceId : string) : GM unit :=
  if bool_decide (referenceId = "") then ret tt
  else
    let! order := GetTopUpByTradeNo referenceId in
    match order with
    | None => ret tt
    | Some topUp =>
        if negb (bool_decide (TopUp_PaymentProvider topUp = PaymentProviderStripe)) then ret tt
        else if negb (bool_decide (TopUp_Status topUp = TopUpStatusPending)) then ret tt
        else ignore (Update_topup (set_TopUp_Status TopUpStatusFailed topUp))
    end.

(** The order [topUp] whose payment could not be started at Waffo, as it was made:
    the page that had inserted it gives it up. *)
Definition abandon_topup (topUp : TopUp) : GM unit :=
  ignore (Update_topup (set_TopUp_Status TopUpStatusFailed topUp)).

(** ** Redemption codes ([model/redemption.go])

    The table holds the rows that are not soft-deleted. *)

Definition redemption_row (key : string) (w : World) : option Redemption :=
  Tables_redemptions (World_db w) !! key.

Definition Redeem (key : string) (userId : Z) : GM Z :=
  do! fail_if (bool_decide (key = "")) (EText "未提供兑换码") in
  do! fail_if (userId =? 0) (EText "无效的 user id") in
  let! redemption := map_err (λ _, ErrRedeemFailed) (transaction (
    let! redemption := map_err (λ _, EText "无效的兑换码") (first (redemption_row key)) in
    do! fail_if (negb (Redemption_Status redemption =? RedemptionCodeStatusEnabled))
          (EText "该兑换码已被使用") in
    let! now := GetTimestamp in
    do! fail_if (negb (Redemption_ExpiredTime redemption =? 0) &&
                 (Redemption_ExpiredTime redemption <? now)) (EText "该兑换码已过期") in
    do! credit_user userId (Redemption_Quota redemption) in
    let redemption := set_Redemption_UsedUserId userId
                        (set_Redemption_Status RedemptionCodeStatusUsed
                          (set_Redemption_RedeemedTime now redemption)) in
    do! update (on_db (put_redemption redemption)) in
    ret redemption)) in
  do! RecordLog userId LogTypeTopup "通过兑换码充值 %s，兑换码ID %d"
        [AQuota (Redemption_Quota redemption); AInt (Redemption_Id redemption)] in
  ret (Redemption_Quota redemption).

Definition Insert_redemption (r : Redemption) : GM unit :=
  create (λ w, bool_decide (is_Some (redemption_row (Redemption_Key r) w)))
    (λ w, (tt, on_db (put_redemption r) w)).

(** Codes that are used up, switched off or past their time. *)
Definition invalid_redemption (now : Z) (r : Redemption) : bool :=
  (Redemption_Status r =? RedemptionCodeStatusUsed)
  || (Redemption_Status r =? RedemptionCodeStatusDisabled)
  || ((Redemption_Status r =? RedemptionCodeStatusEnabled)
      && negb (Redemption_ExpiredTime r =? 0) && (Redemption_ExpiredTime r <? now)).

Definition DeleteInvalidRedemptions : GM Z :=
  let! now := GetTimestamp in
  exec (λ w,
    let rows := Tables_redemptions (World_db w) in
    let gone := filter (λ kr : string * Redemption, invalid_redemption now kr.2 = true) rows in
    (Ok (Z.of_nat (size gone)),
     on_db (set_Tables_redemptions (rows ∖ gone)) w)).

(** ** Check-ins ([model/checkin.go]) *)

(** A number in decimal, filled up with zeros to [n] digits. *)
Fixpoint pad_left (n : nat) (s : string) : string :=
  match n with
  | O => s
  | S n => if (String.length s <=? n)%nat then pad_left n ("0" +:+ s) else s
  end.

(** [time.Now().Format("2006-01-02")] *)
Definition format_date (now : Z) : string :=
  pad_left 4 (pretty (Year now)) +:+ "-" +:+ pad_left 2 (pretty (Month now)) +:+ "-" +:+
  pad_left 2 (pretty (Day now)).

Definition checkin_row (userId : Z) (date : string) (w : World) : option Checkin :=
  Tables_checkins (World_db w) !! (userId, date).

Definition HasCheckedInToday (userId : Z) : GM bool :=
  let! now := GetTimestamp in
  select (λ w, bool_decide (is_Some (checkin_row userId (format_date now) w))).

Definition create_checkin (c : Checkin) : GM unit :=
  create (λ w, bool_decide (is_Some (checkin_row (Checkin_UserId c) (Checkin_CheckinDate c) w)))
    (λ w, (tt, on_db (put_checkin c) w)).

Definition delete_checkin (c : Checkin) (t : Tables) : Tables :=
  set_Tables_checkins
    (delete (Checkin_UserId c, Checkin_CheckinDate c) (Tables_checkins t)) t.

Definition userCheckinWithTransaction (checkin : Checkin) (userId quotaAwarded : Z) : GM Checkin :=
  do! transaction (
    do! map_err (λ _, EText "签到失败，请稍后重试") (create_checkin checkin) in
    map_err (λ _, EText "签到失败：更新额度出错") (credit_user userId quotaAwarded)) in
  do! go (JIncrUserQuota userId quotaAwarded) in
  ret checkin.

Definition userCheckinWithoutTransaction (checkin : Checkin) (userId quotaAwarded : Z)
    : GM Checkin :=
  do! map_err (λ _, EText "签到失败，请稍后重试") (create_checkin checkin) in
  let! r := attempt (IncreaseUserQuota userId quotaAwarded true) in
  match r with
  | Ok _ => ret checkin
  | Err _ =>
      do! ignore (update (on_db (delete_checkin checkin))) in
      fail (EText "签到失败：更新额度出错")
  end.

(** [Intn] is [rand.Intn] for this call, [sqlite] whether SQLite is the main
    database. *)
Definition UserCheckin (setting : CheckinSetting) (sqlite : bool) (Intn : Z -> Z) (userId : Z)
    : GM Checkin :=
  do! fail_if (negb (CheckinSetting_Enabled setting)) (EText "签到功能未启用") in
  let! hasChecked := HasCheckedInToday userId in
  do! fail_if hasChecked (EText "今日已签到") in
  let min := CheckinSetting_MinQuota setting in
  let max := CheckinSetting_MaxQuota setting in
  let quotaAwarded :=
    if min <? max then wrap64 (min + Intn (wrap64 (max - min + 1))) else min in
  let! now := GetTimestamp in
  let checkin := mkCheckin userId (format_date now) quotaAwarded now in
  if sqlite then userCheckinWithoutTransaction checkin userId quotaAwarded
  else userCheckinWithTransaction checkin userId quotaAwarded.

(** ** Invitations ([model/user.go]) *)

(** [DB.Save(user)]: every column of the row is written. *)
Definition save_user (id : Z) (u : User) : GM unit :=
  update (on_db (upd_user id (λ _, u))).

(** [common.QuotaForInviter] is an argument. *)
Definition inviteUser (QuotaForInviter inviterId : Z) : GM unit :=
  let! user := GetUserById inviterId true in
  save_user inviterId
    (set_User_AffHistoryQuota (wrap64 (User_AffHistoryQuota user + QuotaForInviter))
      (set_User_AffQuota (wrap64 (User_AffQuota user + QuotaForInviter))
        (set_User_AffCount (wrap64 (User_AffCount user + 1)) user))).

Definition TransferAffQuotaToQuota (userId quota : Z) : GM unit :=
  do! fail_if (fltb (float_of_int quota) QuotaPerUnit) (EText "转移额度最小为%s！") in
  transaction (
    let! user := first (user_row userId) in
    do! fail_if (User_AffQuota user <? quota) (EText "邀请额度不足！") in
    save_user userId
      (set_User_Quota (wrap64 (User_Quota user + quota))
        (set_User_AffQuota (wrap64 (User_AffQuota user - quota)) user))).

End topup.

(** The conversion that drops the fraction satisfies the law. *)
#[export] Instance sql_truncates : SqlFloat :=
  {| sql_add_float q f := q + Qtrunc (Q_of_float f) |}.

#[export] Instance sql_truncates_laws : SqlFloatLaws sql_truncates.
Proof.
  split. intros q f n (_ & Hn & _). simpl. by rewrite (Qtrunc_int _ _ Hn).
Qed.

Example format_date_ex : @format_date (fixed_zone 0) 1700000000 = "2023-11-14".
Proof. reflexivity. Qed.
