(* ===== verification/TopUpProps.v ===== *)
(** * TopUpProps: a payment is credited once

    The payment callbacks and the administrator's completion either leave the
    database as it was or record the completion of a pending order together with
    its credit; over any sequence of them, with any driver failures, an order
    changes the wallets at most once.  Likewise for redemption codes and daily
    check-ins; moving invitation quota keeps the sum. *)

From S2P Require Export OrderProps TopUp.

#[export] Instance User_eq_dec : EqDecision User.
Proof. solve_decision. Defined.

Section payments.
Context {CFG : Config} {LOC : Location} {DEC : Decimal} {SQL : SqlFloat} {NODE : Node}.

Lemma wp_RecordTopupLog id f args ip m cb Q w :
  (∀ w', but_logs (World_db w) (World_db w') -> World_now w' = World_now w -> Q (Ok tt) w') ->
  wp (RecordTopupLog id f args ip m cb) Q w.
Proof.
  intros HQ. unfold RecordTopupLog, createLog.
  apply wp_bind, wp_attempt, wp_GetUsernameById. intros r w1 [Hd Hn].
  gwp; apply HQ; unfold but_logs; simpl; by rewrite ?Hd.
Qed.

(** ** Completing an order *)

(** The operations that credit an order. *)
Inductive Callback : Type :=
| CStripe (tradeNo customerId callerIp : string)
| CManual (tradeNo callerIp : string)
| CCreem (tradeNo email name callerIp : string)
| CWaffo (tradeNo callerIp : string)
| CPancake (tradeNo : string).

Definition callback (c : Callback) : GM unit :=
  match c with
  | CStripe t cust ip => Recharge t cust ip
  | CManual t ip => ManualCompleteTopUp t ip
  | CCreem t email name ip => RechargeCreem t email name ip
  | CWaffo t ip => RechargeWaffo t ip
  | CPancake t => RechargeWaffoPancake t
  end.

Definition callback_order (c : Callback) : string :=
  match c with
  | CStripe t _ _ | CManual t _ | CCreem t _ _ _ | CWaffo t _ | CPancake t => t
  end.

(** The order's provider must be the one calling back; the administrator may
    complete any order. *)
Definition authorised (c : Callback) (o : TopUp) : Prop :=
  match c with
  | CStripe _ _ _ => TopUp_PaymentProvider o = PaymentProviderStripe
  | CManual _ _ => True
  | CCreem _ _ _ _ => TopUp_PaymentProvider o = PaymentProviderCreem
  | CWaffo _ _ => TopUp_PaymentProvider o = PaymentProviderWaffo
  | CPancake _ => TopUp_PaymentProvider o = PaymentProviderWaffoPancake
  end.

(** Which operations report success for an order completed before. *)
Definition tolerant (c : Callback) : bool :=
  match c with CManual _ _ | CWaffo _ _ | CPancake _ => true | _ => false end.

Definition manual_quota (o : TopUp) : Z :=
  if bool_decide (TopUp_PaymentProvider o = PaymentProviderStripe)
  then money_quota (TopUp_Money o) else amount_quota (TopUp_Amount o).

(** The quota of user [u] after the credit. *)
Definition new_quota (c : Callback) (o : TopUp) (q : Z) : Z :=
  match c with
  | CStripe _ _ _ => sql_add_float q (fmul (TopUp_Money o) QuotaPerUnit)
  | CManual _ _ => q + manual_quota o
  | CCreem _ _ _ _ => q + TopUp_Amount o
  | CWaffo _ _ | CPancake _ => q + amount_quota (TopUp_Amount o)
  end.

(** The paying user's row after the credit. *)
Definition credited (c : Callback) (o : TopUp) (u : User) : User :=
  let u' := set_User_Quota (new_quota c o (User_Quota u)) u in
  match c with
  | CStripe _ cust _ => set_User_StripeCustomer cust u'
  | CCreem _ email _ _ =>
      if negb (bool_decide (email = "")) && bool_decide (User_Email u = "")
      then set_User_Email email u' else u'
  | _ => u'
  end.

(** The database after order [o] was completed by [c] at time [now]. *)
Definition paid (c : Callback) (o : TopUp) (now : Z) (t : Tables) : Tables :=
  upd_user (TopUp_UserId o) (credited c o) (put_topup (completed_topup now o) t).

Lemma upd_user_ext id f g t :
  (∀ u, Tables_users t !! id = Some u -> f u = g u) -> upd_user id f t = upd_user id g t.
Proof. intros H. unfold upd_user. f_equal. by apply alter_ext. Qed.

Definition callback_post (c : Callback) (w : World) (r : result unit) (w' : World) : Prop :=
  match r with
  | Err _ => World_db w' = World_db w
  | Ok _ => ∃ o, topup_row (callback_order c) w = Some o ∧ authorised c o ∧
      (TopUp_Status o = TopUpStatusSuccess ∧ tolerant c = true ∧
         but_logs (World_db w) (World_db w') ∨
       TopUp_Status o = TopUpStatusPending ∧
         but_logs (paid c o (World_now w) (World_db w)) (World_db w'))
  end.

Ltac str_facts :=
  repeat match goal with
  | H : negb (bool_decide _) = false |- _ => apply negb_false_iff, bool_decide_eq_true in H
  | H : bool_decide _ = true |- _ => apply bool_decide_eq_true in H
  end.

Ltac pay_log :=
  first [apply wp_RecordTopupLog | apply wp_RecordLog]; intros; simpl in *.

(** Walk to the end of the transaction; the log is written after it. *)
Ltac pay_walk :=
  gwp; try done; str_facts;
  try (split; [intros|intros; done]); gwp; try pay_log.

Lemma wp_Recharge t cust ip w :
  wp (Recharge t cust ip) (callback_post (CStripe t cust ip) w) w.
Proof.
  unfold Recharge, save_topup. pay_walk. exists a. split_and!; [done..|]. by right.
Qed.

Lemma wp_ManualCompleteTopUp t ip w :
  wp (ManualCompleteTopUp t ip) (callback_post (CManual t ip) w) w.
Proof.
  unfold ManualCompleteTopUp, save_topup, credit_user. pay_walk.
  - exists a. split_and!; [done..|]. by left.
  - exists a. split_and!; [done..|]. by right.
Qed.

Lemma wp_RechargeWaffo t ip w :
  wp (RechargeWaffo t ip) (callback_post (CWaffo t ip) w) w.
Proof.
  unfold RechargeWaffo, save_topup, credit_user. pay_walk.
  - exists a. split_and!; [done..|]. by left.
  - exists a. split_and!; [done..|]. by right.
  - lia.
Qed.

Lemma wp_RechargeWaffoPancake t w :
  wp (RechargeWaffoPancake t) (callback_post (CPancake t) w) w.
Proof.
  unfold RechargeWaffoPancake, save_topup, credit_user. pay_walk.
  - exists a. split_and!; [done..|]. by left.
  - exists a. split_and!; [done..|]. by right.
  - lia.
Qed.

Lemma wp_RechargeCreem t email name ip w :
  wp (RechargeCreem t email name ip) (callback_post (CCreem t email name ip) w) w.
Proof.
  unfold RechargeCreem, save_topup. pay_walk.
  - exists a. split_and!; [done..|]. right. split; [done|].
    unfold paid. erewrite (upd_user_ext _ (credited _ _)); [done|]. intros u _.
    unfold credited. by rewrite bool_decide_eq_true_2.
  - exists a. split_and!; [done..|]. right. split; [done|].
    unfold paid. erewrite (upd_user_ext _ (credited _ _)); [done|]. intros u Hu.
    unfold user_row in H3. simpl in Hu, H3. simplify_eq.
    unfold credited. by rewrite Heqb.
Qed.

Lemma wp_callback c w : wp (callback c) (callback_post c w) w.
Proof.
  destruct c; [apply wp_Recharge|apply wp_ManualCompleteTopUp|apply wp_RechargeCreem
    |apply wp_RechargeWaffo|apply wp_RechargeWaffoPancake].
Qed.

(** C4. The completing functions of [model/topup.go] (the callbacks of Stripe,
    Creem, Waffo and Waffo Pancake, and the administrator's completion) are all
    or nothing, whichever statements fail: an error leaves the database as it
    was; success means the order exists and, unless the administrator completes
    it, belongs to the calling provider, and either it had been completed before
    and nothing but the log changed, or it was pending and now its completion is
    recorded together with one credit to exactly its user, of the amount this
    function computes for the order ([new_quota]: the administrator's amount for
    a Creem order is not its callback's, see [creem_manual_overpays]).  The Epay
    notification, which has no transaction, is not one of them: see
    [epay_order_lost]. *)
Theorem callback_all_or_nothing c w :
  wp (callback c) (λ r w',
    match r with
    | Err _ => World_db w' = World_db w
    | Ok _ => ∃ o, topup_row (callback_order c) w = Some o ∧ authorised c o ∧
        (TopUp_Status o = TopUpStatusSuccess ∧ tolerant c = true ∧
           but_logs (World_db w) (World_db w') ∨
         TopUp_Status o = TopUpStatusPending ∧
           but_logs (paid c o (World_now w) (World_db w)) (World_db w'))
    end) w.
Proof. exact (wp_callback c w). Qed.

(** ** Sequences of operations *)

(** The operations on top-up orders: a callback, the Epay notification (whose
    order the code locks on its node), a status update by
    [UpdatePendingTopUpStatus], a new order, one whose payment has failed or could
    not be started; between them the clock moves.  The rows that
    [CompleteSubscriptionOrder] leaves in the same table are records of
    subscriptions and not among these. *)
Inductive PayOp : Type :=
| PCallback (c : Callback)
| PEpay (verified tradeSuccess : bool) (tradeNo type callerIp : string)
| PSetStatus (tradeNo provider status : string)
| PNew (o : TopUp)
| PFailed (tradeNo : string)
| PAbandon (o : TopUp)
| PClock (now : Z).

Definition pay_op (p : PayOp) : GM unit :=
  match p with
  | PCallback c => callback c
  | PEpay verified tradeSuccess t type ip => EpayNotify verified tradeSuccess t type ip
  | PSetStatus t provider status => UpdatePendingTopUpStatus t provider status
  | PNew o => Insert_topup o
  | PFailed t => sessionAsyncPaymentFailed t
  | PAbandon o => abandon_topup o
  | PClock now => modify (set_World_now now)
  end.

Definition pay_order (p : PayOp) : option string :=
  match p with
  | PCallback c => Some (callback_order c)
  | PEpay _ _ t _ _ => Some t
  | PSetStatus t _ _ => Some t
  | PFailed t => Some t
  | PNew o | PAbandon o => Some (TopUp_TradeNo o)
  | PClock _ => None
  end.

Definition users_of (w : World) : gmap Z User := Tables_users (World_db w).

(** How often an operation on order [t] changes the wallets. *)
Fixpoint times_paid (t : string) (ps : list PayOp) (w : World) : nat :=
  match ps with
  | [] => 0
  | p :: ps =>
      let w' := (pay_op p w).2 in
      (if bool_decide (pay_order p = Some t ∧ users_of w' ≠ users_of w) then 1 else 0)
      + times_paid t ps w'
  end.

(** Rows are stored under their trade number. *)
Definition keyed (w : World) : Prop :=
  map_Forall (λ k o, TopUp_TradeNo o = k) (Tables_topups (World_db w)).

(** The order exists and is no longer pending. *)
Definition closed (t : string) (w : World) : Prop :=
  ∃ o, topup_row t w = Some o ∧ TopUp_Status o ≠ TopUpStatusPending.

(** What one operation did to the orders and wallets. *)
Inductive pay_effect (p : PayOp) (w w' : World) : Prop :=
| Effect_none :
    Tables_topups (World_db w') = Tables_topups (World_db w) -> users_of w' = users_of w ->
    pay_effect p w w'
| Effect_paid o o' :
    pay_order p = Some (TopUp_TradeNo o) -> topup_row (TopUp_TradeNo o) w = Some o ->
    TopUp_Status o = TopUpStatusPending -> TopUp_Status o' = TopUpStatusSuccess ->
    TopUp_TradeNo o' = TopUp_TradeNo o ->
    Tables_topups (World_db w') = <[TopUp_TradeNo o := o']> (Tables_topups (World_db w)) ->
    pay_effect p w w'
| Effect_written o' :
    TopUp_Status o' ≠ TopUpStatusPending ∨
      (∀ o, topup_row (TopUp_TradeNo o') w = Some o -> TopUp_Status o = TopUpStatusPending) ->
    Tables_topups (World_db w') = <[TopUp_TradeNo o' := o']> (Tables_topups (World_db w)) ->
    users_of w' = users_of w -> pay_effect p w w'.

Lemma but_logs_topups t t' : but_logs t t' -> Tables_topups t' = Tables_topups t.
Proof. by apply but_logs_proj. Qed.
Lemma but_logs_users t t' : but_logs t t' -> Tables_users t' = Tables_users t.
Proof. by apply but_logs_proj. Qed.

Lemma callback_effect c w :
  keyed w -> wp (callback c) (λ _ w', pay_effect (PCallback c) w w') w.
Proof.
  intros Hk. eapply wp_mono; [apply wp_callback|]. intros [[]|e] w' H; simpl in H.
  - destruct H as (o & Ho & _ & [(_ & _ & Hb)|[Hp Hb]]).
    + apply Effect_none; [by apply but_logs_topups|by apply but_logs_users].
    + pose proof (Hk _ _ Ho) as Et. rewrite <- Et in Ho.
      eapply (Effect_paid _ _ _ o (completed_topup (World_now w) o)); try done.
      * simpl. by rewrite Et.
      * by rewrite (but_logs_topups _ _ Hb).
  - by apply Effect_none; unfold users_of; rewrite H.
Qed.

(** The Epay notification in one look: it leaves orders and wallets alone, or
    it completes a pending Epay order and credits its user, or it completes the
    order and the credit is lost. *)
Lemma wp_EpayNotify verified success t type ip w :
  wp (EpayNotify verified success t type ip) (λ _ w',
    (Tables_topups (World_db w') = Tables_topups (World_db w) ∧ users_of w' = users_of w) ∨
    ∃ o, topup_row t w = Some o ∧ TopUp_PaymentProvider o = PaymentProviderEpay ∧
      TopUp_Status o = TopUpStatusPending ∧
      (∃ o', TopUp_Status o' = TopUpStatusSuccess ∧ TopUp_TradeNo o' = TopUp_TradeNo o ∧
        Tables_topups (World_db w') = <[TopUp_TradeNo o := o']> (Tables_topups (World_db w))) ∧
      (users_of w' = users_of w ∨
       users_of w' = alter (λ u, set_User_Quota (User_Quota u + amount_quota (TopUp_Amount o)) u)
         (TopUp_UserId o) (users_of w))) w.
Proof.
  unfold EpayNotify, GetTopUpByTradeNo, Update_topup, save_topup, IncreaseUserQuota,
    increaseUserQuota.
  gwp; try (left; done); str_facts; 
    try (apply wp_RecordTopupLog; intros w' Hb _; unfold users_of;
         rewrite (but_logs_topups _ _ Hb), (but_logs_users _ _ Hb));
    right; exists a; destruct (bool_decide (TopUp_PaymentMethod a = type)); simpl in *;
    (split_and!; [done..|eexists; split_and!; [..|reflexivity]; done|auto]).
Qed.

Lemma Epay_effect verified success t type ip w :
  keyed w -> wp (EpayNotify verified success t type ip)
    (λ _ w', pay_effect (PEpay verified success t type ip) w w') w.
Proof.
  intros Hk. eapply wp_mono; [apply wp_EpayNotify|].
  intros r w' [[Ht Hu]|(o & Ho & _ & Hp & (o' & Hs & Hn & Ht) & _)]; [by apply Effect_none|].
  pose proof (Hk _ _ Ho) as Et. rewrite <- Et in Ho.
  apply (Effect_paid _ _ _ o o'); try done. simpl. by rewrite Et.
Qed.

Lemma SetStatus_effect t provider status w :
  keyed w -> wp (UpdatePendingTopUpStatus t provider status)
    (λ _ w', pay_effect (PSetStatus t provider status) w w') w.
Proof.
  intros Hk. unfold UpdatePendingTopUpStatus, save_topup.
  gwp; try (by apply Effect_none); str_facts. split; intros; [|by apply Effect_none].
  apply (Effect_written _ _ _ (set_TopUp_Status status a)); [right|done..]. simpl.
  intros o Ho. pose proof (Hk _ _ H0) as Et. unfold topup_row in *. simpl in *.
  rewrite Et in Ho. congruence.
Qed.

Lemma New_effect o w : wp (Insert_topup o) (λ _ w', pay_effect (PNew o) w w') w.
Proof.
  unfold Insert_topup, create_topup. gwp; [by apply Effect_none|].
  apply (Effect_written _ _ _ o); [right|done..]. apply bool_decide_eq_false in H.
  intros o' Ho. exfalso. apply H. by exists o'.
Qed.

Lemma Abandon_effect p o w : wp (abandon_topup o) (λ _ w', pay_effect p w w') w.
Proof.
  unfold abandon_topup, Update_topup, save_topup. gwp; try (by apply Effect_none).
  by apply (Effect_written _ _ _ (set_TopUp_Status TopUpStatusFailed o)); [left|..].
Qed.

Lemma Failed_effect t w : wp (sessionAsyncPaymentFailed t) (λ _ w', pay_effect (PFailed t) w w') w.
Proof.
  unfold sessionAsyncPaymentFailed, GetTopUpByTradeNo, Update_topup, save_topup.
  gwp; try (by apply Effect_none).
  by apply (Effect_written _ _ _ (set_TopUp_Status TopUpStatusFailed a)); [left|..].
Qed.

Lemma pay_op_effect p w : keyed w -> wp (pay_op p) (λ _ w', pay_effect p w w') w.
Proof.
  intros Hk. destruct p; simpl;
    [by apply callback_effect|by apply Epay_effect|by apply SetStatus_effect|apply New_effect|by apply Failed_effect|by apply Abandon_effect|].
  by apply wp_modify, Effect_none.
Qed.

Lemma keyed_step p w w' : keyed w -> pay_effect p w w' -> keyed w'.
Proof.
  unfold keyed. intros Hk [Ht _|o o' _ _ _ _ Hn Ht|o' _ Ht _]; rewrite Ht; [done|..];
    by apply map_Forall_insert_2.
Qed.

Lemma closed_step p t w w' : pay_effect p w w' -> closed t w -> closed t w'.
Proof.
  intros He (o & Ho & Hs). unfold closed, topup_row in *.
  destruct He as [Ht _|o1 o' _ Ho1 Hp Hs' Hn Ht|o' Hw Ht _]; rewrite Ht; [eauto|..].
  - destruct (decide (TopUp_TradeNo o1 = t)) as [<-|Hne]; [|rewrite lookup_insert_ne by done; eauto].
    rewrite lookup_insert_eq. exists o'. by rewrite Hs'.
  - destruct (decide (TopUp_TradeNo o' = t)) as [<-|Hne]; [|rewrite lookup_insert_ne by done; eauto].
    destruct Hw as [Hw|Hw]; [exists o'; by rewrite lookup_insert_eq|by apply Hw in Ho].
Qed.

Lemma paying_closes p t w w' :
  pay_effect p w w' -> pay_order p = Some t -> users_of w' ≠ users_of w ->
  ~ closed t w ∧ closed t w'.
Proof.
  intros [Ht Hu|o o' Ho Hr Hp Hs Hn Ht|o' _ _ Hu] Hpt Hne; [done| |done].
  rewrite Ho in Hpt. simplify_eq. split.
  - intros (o1 & Ho1 & Hs1). congruence.
  - exists o'. unfold topup_row. by rewrite Ht, lookup_insert_eq, Hs.
Qed.

Lemma times_paid_bound t ps w :
  keyed w -> (times_paid t ps w <= 1)%nat ∧ (closed t w -> times_paid t ps w = 0%nat).
Proof.
  revert w. induction ps as [|p ps IH]; intros w Hk; [simpl; lia|].
  pose proof (pay_op_effect p w Hk) as He. unfold wp in He. simpl.
  set (w' := (pay_op p w).2) in *. clearbody w'.
  destruct (IH w' (keyed_step _ _ _ Hk He)) as [Hle Hz].
  destruct (bool_decide _) eqn:E.
  - apply bool_decide_eq_true in E as [Hp Hu].
    destruct (paying_closes _ _ _ _ He Hp Hu) as [Hnc Hc]. rewrite Hz by done. split; [lia|done].
  - split; [lia|]. intros Hc. by rewrite Hz by (by eapply closed_step).
Qed.

(** C5. An order is paid at most once: over any sequence of callbacks (the Epay
    notification included), administrator completions, status updates, and new,
    failed and abandoned orders, one after the other and whichever statements
    fail, the operations on one trade number change the wallets at most once,
    and not at all when the order is already closed. *)
Theorem order_paid_at_most_once t ps w :
  keyed w -> (times_paid t ps w <= 1)%nat ∧ (closed t w -> times_paid t ps w = 0%nat).
Proof. exact (times_paid_bound t ps w). Qed.

(** ** Amounts *)

(** A pending order [o] of user [u], with the database answering. *)
Record payable (c : Callback) (o : TopUp) (u : User) (w : World) : Prop := {
  payable_nf : no_faults w;
  payable_named : callback_order c ≠ "";
  payable_row : topup_row (callback_order c) w = Some o;
  payable_auth : authorised c o;
  payable_pending : TopUp_Status o = TopUpStatusPending;
  payable_user : user_row (TopUp_UserId o) w = Some u;
  payable_positive : 0 < manual_quota o ∧ 0 < amount_quota (TopUp_Amount o);
}.

(** Quota of the order's user once [m] has run. *)
Definition quota_after (m : GM unit) (id : Z) (w : World) : option Z :=
  User_Quota <$> user_row id (m w).2.

Lemma quota_credited c o u w w' :
  user_row (TopUp_UserId o) w = Some u ->
  but_logs (paid c o (World_now w) (World_db w)) (World_db w') ->
  User_Quota <$> user_row (TopUp_UserId o) w' = Some (new_quota c o (User_Quota u)).
Proof.
  unfold user_row. intros Hu Hb. rewrite (but_logs_users _ _ Hb). simpl.
  rewrite lookup_alter_eq, Hu. simpl. f_equal. unfold credited.
  destruct c; try done. by destruct (_ && _).
Qed.

Lemma callback_succeeds c o u w :
  payable c o u w -> wp (callback c) (λ r _, is_ok r = true) w.
Proof.
  intros [Hn Hne Ho Ha Hp Hu [Hq Hq']]. unfold manual_quota in Hq.
  destruct c; simpl in *; unfold Recharge, ManualCompleteTopUp, RechargeCreem, RechargeWaffo,
    RechargeWaffoPancake, save_topup, credit_user;
    nfwp; try (str_facts; done); rewrite Ho; nfwp; try rewrite Hp in *; try rewrite Ha in *;
    str_facts; try done; try lia; try (split; [done|]); nfwp; try pay_log; try done.
  change (user_row _ (on_db _ w)) with (user_row (TopUp_UserId o) w).
  rewrite Hu. nfwp. split; [done|]. by pay_log.
Qed.

Lemma callback_pays c o u w :
  payable c o u w ->
  quota_after (callback c) (TopUp_UserId o) w = Some (new_quota c o (User_Quota u)).
Proof.
  intros Hpay. pose proof (callback_succeeds _ _ _ _ Hpay) as Hok.
  pose proof (wp_callback c w) as Hpost. unfold wp in *. unfold quota_after.
  destruct (callback c w) as [[[]|e] w']; [|done].
  destruct Hpay as [_ _ Ho _ Hp Hu _].
  destruct Hpost as (o' & Ho' & _ & Hpost); simpl in *. rewrite Ho in Ho'. simplify_eq.
  destruct Hpost as [(Hs & _)|[_ Hb]]; [by rewrite Hp in Hs|by eapply quota_credited].
Qed.

(** The administrator completing the order a callback is for. *)
Lemma payable_manual c o u w ip :
  payable c o u w -> payable (CManual (callback_order c) ip) o u w.
Proof. by intros []. Qed.

Section laws.
Context {DL : DecimalLaws DEC}.

Lemma amount_quota_exact amount k :
  float_is_int QuotaPerUnit k -> int64_range (amount * k) -> amount_quota amount = amount * k.
Proof. apply decimal_product. Qed.

(** A Waffo or Waffo Pancake order of [Amount] units is worth exactly
    [Amount * QuotaPerUnit], whether its provider's callback or the
    administrator completes it (for a whole-number [QuotaPerUnit] and no 64-bit
    overflow). *)
Theorem waffo_worth_its_amount c o u w k ip :
  match c with CWaffo _ _ | CPancake _ => True | _ => False end ->
  payable c o u w -> float_is_int QuotaPerUnit k -> int64_range (TopUp_Amount o * k) ->
  quota_after (callback c) (TopUp_UserId o) w
    = Some (User_Quota u + TopUp_Amount o * k) ∧
  quota_after (ManualCompleteTopUp (callback_order c) ip) (TopUp_UserId o) w
    = Some (User_Quota u + TopUp_Amount o * k).
Proof.
  intros Hc Hpay Hk Hr.
  pose proof (callback_pays _ _ _ _ (payable_manual _ _ _ _ ip Hpay)) as Hm. simpl in Hm.
  rewrite (callback_pays _ _ _ _ Hpay), Hm. unfold manual_quota.
  pose proof (payable_auth _ _ _ _ Hpay) as Ha.
  destruct c; try done; simpl in Ha; rewrite Ha; simpl; by rewrite (amount_quota_exact _ k).
Qed.

(** A Creem order's [Amount] is already a quota: its callback credits
    [Amount], but the administrator's completion of the same order credits
    [Amount * QuotaPerUnit]. *)
Theorem creem_manual_overpays t email name ip ip' o u w k :
  payable (CCreem t email name ip) o u w ->
  float_is_int QuotaPerUnit k -> int64_range (TopUp_Amount o * k) ->
  quota_after (RechargeCreem t email name ip) (TopUp_UserId o) w
    = Some (User_Quota u + TopUp_Amount o) ∧
  quota_after (ManualCompleteTopUp t ip') (TopUp_UserId o) w
    = Some (User_Quota u + TopUp_Amount o * k).
Proof.
  intros Hpay Hk Hr.
  pose proof (callback_pays _ _ _ _ (payable_manual _ _ _ _ ip' Hpay)) as Hm.
  pose proof (callback_pays _ _ _ _ Hpay) as Hc. simpl in Hm, Hc. rewrite Hm, Hc.
  pose proof (payable_auth _ _ _ _ Hpay) as Ha. simpl in Ha.
  unfold manual_quota. rewrite Ha. simpl. by rewrite (amount_quota_exact _ k).
Qed.
End laws.

(** ** Redemption codes *)

Definition redeemed (now userId : Z) (r : Redemption) : Redemption :=
  set_Redemption_UsedUserId userId
    (set_Redemption_Status RedemptionCodeStatusUsed (set_Redemption_RedeemedTime now r)).

Lemma wp_Redeem key userId w :
  wp (Redeem key userId) (λ r w',
    match r with
    | Err _ => World_db w' = World_db w
    | Ok q => ∃ c, redemption_row key w = Some c ∧
        Redemption_Status c = RedemptionCodeStatusEnabled ∧
        (Redemption_ExpiredTime c = 0 ∨ World_now w <= Redemption_ExpiredTime c) ∧
        q = Redemption_Quota c ∧
        but_logs (put_redemption (redeemed (World_now w) userId c)
          (upd_user userId (λ u, set_User_Quota (User_Quota u + Redemption_Quota c) u)
            (World_db w))) (World_db w')
    end) w.
Proof.
  unfold Redeem, credit_user. gwp; try done. split; [|done]. intros. apply wp_bind, wp_RecordLog.
  intros w' Hb Hn. apply wp_ret. exists a. split_and!; [done|lia|lia|done|done].
Qed.

(** A redemption code works once: an error leaves the database as it was;
    success means the code was enabled and not past its time, its quota was
    credited to exactly the redeeming user, and every later attempt on the same
    code, by whomever and whenever and with whatever failures, fails and changes
    nothing. *)
Theorem Redeem_once key userId w :
  (∀ c, redemption_row key w = Some c -> Redemption_Key c = key) ->
  wp (Redeem key userId) (λ r w',
    match r with
    | Err _ => World_db w' = World_db w
    | Ok q =>
        (∃ c, redemption_row key w = Some c ∧
          Redemption_Status c = RedemptionCodeStatusEnabled ∧
          (Redemption_ExpiredTime c = 0 ∨ World_now w <= Redemption_ExpiredTime c) ∧
          q = Redemption_Quota c ∧
          users_of w' = alter (λ u, set_User_Quota (User_Quota u + q) u) userId (users_of w)) ∧
        (∀ userId' w2, World_db w2 = World_db w' ->
          wp (Redeem key userId') (λ r2 w3, is_ok r2 = false ∧ World_db w3 = World_db w2) w2)
    end) w.
Proof.
  intros Hkey. eapply wp_mono; [apply wp_Redeem|]. intros [q|e] w' H; [|done].
  destruct H as (c & Hc & Hs & Hx & -> & Hb). pose proof (Hkey c Hc) as Ek. split.
  - exists c. split_and!; [done..|]. unfold users_of. by rewrite (but_logs_users _ _ Hb).
  - intros u2 w2 Hd. eapply wp_mono; [apply wp_Redeem|]. intros [q2|e2] w3 H; [|done].
    destruct H as (c2 & Hc2 & Hs2 & _). exfalso. revert Hc2. unfold redemption_row.
    rewrite Hd, (but_logs_proj Tables_redemptions _ _ (λ _, eq_refl) Hb).
    unfold put_redemption; simpl. rewrite Ek, lookup_insert_eq. intros ?; simplify_eq.
Qed.

(** ** Check-ins *)

(** Check-in [c] is recorded and its award credited. *)
Definition checked_in (c : Checkin) (t : Tables) : Tables :=
  upd_user (Checkin_UserId c)
    (λ u, set_User_Quota (User_Quota u + Checkin_QuotaAwarded c) u) (put_checkin c t).

Lemma delete_put_checkin c t :
  Tables_checkins t !! (Checkin_UserId c, Checkin_CheckinDate c) = None ->
  delete_checkin c (put_checkin c t) = t.
Proof.
  intros H. unfold delete_checkin, put_checkin. simpl. rewrite delete_insert_id by done.
  by destruct t.
Qed.

Definition checkin_post (sqlite : bool) (c : Checkin) (w : World) (r : result Checkin)
    (w' : World) : Prop :=
  match r with
  | Ok c' => c' = c ∧ checkin_row (Checkin_UserId c) (Checkin_CheckinDate c) w = None ∧
      World_db w' = checked_in c (World_db w)
  | Err _ => World_db w' = World_db w ∨
      sqlite = true ∧ World_db w' = put_checkin c (World_db w)
  end.

Lemma wp_checkin (sqlite : bool) userId date award now w :
  let c := mkCheckin userId date award now in
  wp (if sqlite then userCheckinWithoutTransaction c userId award
      else userCheckinWithTransaction c userId award) (checkin_post sqlite c w) w.
Proof.
  simpl. unfold userCheckinWithoutTransaction, userCheckinWithTransaction, create_checkin,
    IncreaseUserQuota, increaseUserQuota, credit_user.
  gwp; try (by left); try (by right); try (apply bool_decide_eq_false, eq_None_not_Some in H);
    try (left; by apply delete_put_checkin).
  - by split_and!.
  - split; intros; gwp; [by split_and!|by left].
Qed.

(** A user checks in at most once a day: success means there was no check-in
    of this user on this day and now there is one, and its award, which lies
    between the configured bounds, was credited to exactly this user.  After an
    error no wallet has changed; with SQLite, where the steps run without a
    transaction, a check-in without award can stay behind when taking it back
    fails, with the other databases nothing changed at all. *)
Theorem UserCheckin_once setting sqlite Intn userId w :
  let min := CheckinSetting_MinQuota setting in
  let max := CheckinSetting_MaxQuota setting in
  (∀ n, 0 < n -> 0 <= Intn n < n) -> 0 <= min <= max -> max < 2 ^ 62 ->
  wp (UserCheckin setting sqlite Intn userId) (λ r w',
    match r with
    | Ok c => checkin_row userId (format_date (World_now w)) w = None ∧
        checkin_row userId (format_date (World_now w)) w' = Some c ∧
        min <= Checkin_QuotaAwarded c <= max ∧
        users_of w' = alter (λ u, set_User_Quota (User_Quota u + Checkin_QuotaAwarded c) u)
          userId (users_of w)
    | Err _ => users_of w' = users_of w ∧ (sqlite = false -> World_db w' = World_db w)
    end) w.
Proof.
  intros min max HI Hmm Hmax. unfold UserCheckin, HasCheckedInToday.
  fold min max. cbv zeta.
  set (award := if min <? max then wrap64 (min + Intn (wrap64 (max - min + 1))) else min).
  assert (min <= award <= max) as Ha.
  { subst award. destruct (min <? max) eqn:E; [|lia]. specialize (HI (max - min + 1)).
    rewrite !wrap64_id by (rewrite ?wrap64_id by (unfold int64_range; lia);
      unfold int64_range in *; lia). lia. }
  clearbody award.
  repeat lazymatch goal with
  | |- wp (if _ then _ else _) _ _ => fail
  | |- _ => gwp_step; simpl; try done
  end.
  apply bool_decide_eq_false, eq_None_not_Some in H0.
  eapply wp_mono; [apply wp_checkin|].
  intros [c|e] w' Hp; simpl in Hp.
  - destruct Hp as (-> & _ & Hd). unfold users_of, checkin_row. rewrite Hd.
    split_and!; [done| |simpl; lia..|done]. simpl. by rewrite lookup_insert_eq.
  - unfold users_of. destruct Hp as [->|[-> ->]]; done.
Qed.

(** ** Invitation quota *)

(** Moving invitation quota to the wallet keeps the sum: an error leaves the
    database as it was; success means the user had that much invitation quota
    and their wallet has grown by what the invitation quota has shrunk (as long
    as the new wallet fits 64 bits); nobody else is touched. *)
Theorem TransferAff_conserves userId quota w :
  (∀ u, user_row userId w = Some u ->
     int64_range (User_Quota u + quota) ∧ int64_range (User_AffQuota u - quota)) ->
  wp (TransferAffQuotaToQuota userId quota) (λ r w',
    match r with
    | Err _ => World_db w' = World_db w
    | Ok _ => ∃ u u', user_row userId w = Some u ∧ users_of w' = <[userId := u']> (users_of w) ∧
        quota <= User_AffQuota u ∧
        User_Quota u' = User_Quota u + quota ∧ User_AffQuota u' = User_AffQuota u - quota ∧
        User_Quota u' + User_AffQuota u' = User_Quota u + User_AffQuota u
    end) w.
Proof.
  intros Hr. unfold TransferAffQuotaToQuota, save_user. gwp; try done. split; [|done]. intros.
  change (user_row userId w = Some a) in H0. destruct (Hr a H0) as [H2 H3].
  exists a, (set_User_Quota (wrap64 (User_Quota a + quota))
    (set_User_AffQuota (wrap64 (User_AffQuota a - quota)) a)).
  simpl. rewrite !wrap64_id by done. split_and!; [done| |lia..].
  unfold users_of; simpl. apply map_eq. intros k. unfold user_row in H0.
  destruct (decide (k = userId)) as [->|Hne].
  - by rewrite lookup_alter_eq, lookup_insert_eq, H0.
  - by rewrite lookup_alter_ne, lookup_insert_ne.
Qed.

End payments.
