(* ===== verification/SystemTask.v ===== *)
(** * SystemTask: background tasks shared by the nodes of a deployment

    Models [model/system_task.go] and [service/system_task.go].  Several nodes
    create, claim, run and expire tasks through one database; a per-type lock row
    with an expiry time is the lease under which a task runs.  Nothing here is
    wrapped in a transaction, so the statements of different nodes interleave.

    A function is therefore a [Prog]: a tree of atomic statements on the task
    tables and readings of the node's clock (file [Effects]).  TaskSafety adds
    the whole system, in which any node makes its next statement, a statement may
    fail in the driver, and clocks show whatever they show (they need not
    agree). *)

From S2P Require Export Store.
From S2P Require Export Effects.

(** ** Data *)

Inductive SystemTaskStatus : Type :=
| SystemTaskStatusPending
| SystemTaskStatusRunning
| SystemTaskStatusSucceeded
| SystemTaskStatusFailed.

Definition SystemTaskTypeLogCleanup : string := "log_cleanup".

(** A JSON column: empty, an object with number fields, or another document. *)
Inductive Json : Type :=
| JEmpty
| JObject (fields : list (string * Z))
| JText (doc : string).

Record SystemTask : Type := mkTask {
  task_ID : Z;
  task_TaskID : string;
  task_Type : string;
  task_Status : SystemTaskStatus;
  task_ActiveKey : option string;
  task_Payload : Json;
  task_State : Json;
  task_Result : Json;
  task_Error : string;
  task_LockedBy : string;
  task_CreatedAt : Z;
  task_UpdatedAt : Z;
}.

Record SystemTaskLock : Type := mkLock {
  lock_Type : string;
  lock_TaskID : string;
  lock_LockedBy : string;
  lock_LockedUntil : Z;
  lock_UpdatedAt : Z;
}.

#[export] Instance SystemTaskStatus_eq_dec : EqDecision SystemTaskStatus.
Proof. solve_decision. Defined.
#[export] Instance Json_eq_dec : EqDecision Json.
Proof. solve_decision. Defined.
#[export] Instance SystemTask_eq_dec : EqDecision SystemTask.
Proof. solve_decision. Defined.
#[export] Instance SystemTaskLock_eq_dec : EqDecision SystemTaskLock.
Proof. solve_decision. Defined.

(** The tables: tasks by id, locks by type, and the creation times of the rows
    of [logs], which the log cleanup deletes. *)
Record TDB : Type := mkTDB {
  tasks : gmap Z SystemTask;
  next_task : Z;
  locks : gmap string SystemTaskLock;
  log_times : list Z;
}.

Definition with_tasks (m : gmap Z SystemTask) (db : TDB) : TDB :=
  mkTDB m (next_task db) (locks db) (log_times db).
Definition with_locks (m : gmap string SystemTaskLock) (db : TDB) : TDB :=
  mkTDB (tasks db) (next_task db) m (log_times db).
Definition with_logs (l : list Z) (db : TDB) : TDB :=
  mkTDB (tasks db) (next_task db) (locks db) l.

(** [RowsAffected] of an [UPDATE]: PostgreSQL and SQLite count the rows that
    match, MySQL (without [clientFoundRows], which the gateway does not set) only
    those whose contents change. *)
Class RowCount := { counts_matched : bool }.

(** ** Programs on the task tables *)

Abbreviation Prog := (prog TDB).

(** ** Statements *)

(** The rows that satisfy [p], by increasing id. *)
Definition by_id (t u : SystemTask) : bool := task_ID t <=? task_ID u.
Definition task_rows (p : SystemTask -> bool) (db : TDB) : list SystemTask :=
  rows_where p by_id (tasks db).

(** [First] in increasing and in decreasing order of the id. *)
Definition first_task (p : SystemTask -> bool) (db : TDB) : result (option SystemTask) * TDB :=
  (Ok (head (task_rows p db)), db).
Definition last_task (p : SystemTask -> bool) (db : TDB) : result (option SystemTask) * TDB :=
  (Ok (list.last (task_rows p db)), db).

Section tasks.
Context {ROWS : RowCount}.

Definition affected {A} `{EqDecision A} (f : A -> A) (hit : list A) : Z :=
  if counts_matched then Z.of_nat (length hit)
  else Z.of_nat (length (List.filter (λ t, negb (bool_decide (f t = t))) hit)).

(** [UPDATE system_tasks SET f WHERE p]: the number of affected rows. *)
Definition update_tasks (p : TDB -> SystemTask -> bool) (f : SystemTask -> SystemTask) (db : TDB)
    : result Z * TDB :=
  (Ok (affected f (task_rows (p db) db)),
   with_tasks ((λ t, if p db t then f t else t) <$> tasks db) db).

Definition lock_rows (p : SystemTaskLock -> bool) (db : TDB) : list SystemTaskLock :=
  List.filter p (map_to_list (locks db)).*2.

Definition update_locks (p : SystemTaskLock -> bool) (f : SystemTaskLock -> SystemTaskLock)
    (db : TDB) : result Z * TDB :=
  (Ok (affected f (lock_rows p db)),
   with_locks ((λ l, if p l then f l else l) <$> locks db) db).

Definition delete_locks (p : SystemTaskLock -> bool) (db : TDB) : result unit * TDB :=
  (Ok tt, with_locks (filter (λ kl : string * SystemTaskLock, p kl.2 = false) (locks db)) db).

Definition is_status (s : SystemTaskStatus) (t : SystemTask) : bool :=
  bool_decide (task_Status t = s).
Definition is_type (ty : string) (t : SystemTask) : bool := bool_decide (task_Type t = ty).

(** [activeSystemTaskStatuses] *)
Definition is_active_task (t : SystemTask) : bool :=
  is_status SystemTaskStatusPending t || is_status SystemTaskStatusRunning t.

(** ** [model/system_task.go] *)

(** [INSERT INTO system_tasks]: the id is the next one; the task id and the
    active key are unique. *)
Definition insert_task (taskID taskType : string) (payload state : Json) (now : Z) (db : TDB)
    : result SystemTask * TDB :=
  let rows := (map_to_list (tasks db)).*2 in
  if existsb (λ t, bool_decide (task_TaskID t = taskID)) rows
     || existsb (λ t, bool_decide (task_ActiveKey t = Some taskType)) rows
  then (Err (EDriver "UNIQUE constraint failed"), db)
  else
    let t := mkTask (next_task db) taskID taskType SystemTaskStatusPending (Some taskType)
               payload state JEmpty "" "" now now in
    (Ok t, mkTDB (<[next_task db := t]> (tasks db)) (next_task db + 1) (locks db) (log_times db)).

(** The random task id and the two JSON texts arrive as results: generating or
    marshalling may fail. *)
Definition CreateSystemTask (taskID : result string) (taskType : string)
    (payload state : result Json) : Prog SystemTask :=
  let* taskID := Return taskID in
  let* payload := Return payload in
  let* state := Return state in
  let* now := now_ in
  stmt (insert_task taskID taskType payload state now).

Definition GetSystemTaskByTaskID (taskID : string) : Prog (option SystemTask) :=
  stmt (first_task (λ t, bool_decide (task_TaskID t = taskID))).

Definition GetActiveSystemTask (taskType : string) : Prog (option SystemTask) :=
  stmt (last_task (λ t, is_type taskType t && is_active_task t)).

Definition FindPendingSystemTasks (taskType : string) (limit : Z) : Prog (list SystemTask) :=
  let limit := if limit <=? 0 then 1 else limit in
  stmt (λ db, (Ok (take (Z.to_nat limit)
    (task_rows (λ t, is_type taskType t && is_status SystemTaskStatusPending t) db)), db)).

(** One row per type: the one with the smallest id among the pending ones, with
    the largest id among all. *)
Definition FindEarliestPendingSystemTasks (taskTypes : list string)
    : Prog (gmap string SystemTask) :=
  match taskTypes with
  | [] => pret ∅
  | _ => stmt (λ db, (Ok (list_to_map (omap (λ ty, t ← head (task_rows
           (λ t, is_type ty t && is_status SystemTaskStatusPending t) db); Some (ty, t))
           taskTypes)), db))
  end.

Definition GetLatestSystemTask (taskType : string) : Prog (option SystemTask) :=
  stmt (last_task (is_type taskType)).

Definition GetLatestSystemTasks (taskTypes : list string) : Prog (gmap string SystemTask) :=
  match taskTypes with
  | [] => pret ∅
  | _ => stmt (λ db, (Ok (list_to_map (omap (λ ty, t ← list.last (task_rows (is_type ty) db);
           Some (ty, t)) taskTypes)), db))
  end.

(** [INSERT INTO system_task_locks] *)
Definition insert_lock (l : SystemTaskLock) (db : TDB) : result unit * TDB :=
  match locks db !! lock_Type l with
  | Some _ => (Err (EDriver "UNIQUE constraint failed"), db)
  | None => (Ok tt, with_locks (<[lock_Type l := l]> (locks db)) db)
  end.

(** [(acquired, expiredTaskID)] *)
Definition acquireSystemTaskLock (taskType taskID lockedBy : string) (now lockUntil : Z)
    : Prog (bool * string) :=
  let* created := pattempt (stmt (insert_lock (mkLock taskType taskID lockedBy lockUntil now))) in
  match created with
  | Ok _ => pret (true, "")
  | Err _ =>
      let* existing := stmt (λ db, (Ok (locks db !! taskType), db)) in
      match existing with
      | None => pret (false, "")
      | Some l =>
          if now <=? lock_LockedUntil l then pret (false, "")
          else
            let* n := stmt (update_locks
              (λ l, bool_decide (lock_Type l = taskType) && (lock_LockedUntil l <? now))
              (λ l, mkLock (lock_Type l) taskID lockedBy lockUntil now)) in
            if n =? 0 then pret (false, "") else pret (true, lock_TaskID l)
      end
  end.

Definition MarkSystemTaskLeaseExpired (taskID : string) : Prog unit :=
  let* now := now_ in
  do* stmt (update_tasks
    (λ _ t, bool_decide (task_TaskID t = taskID) && is_status SystemTaskStatusRunning t)
    (λ t, mkTask (task_ID t) (task_TaskID t) (task_Type t) SystemTaskStatusFailed None
            (task_Payload t) (task_State t) (task_Result t) "task lease expired"
            (task_LockedBy t) (task_CreatedAt t) now)) in
  pret tt.

Definition ReleaseSystemTaskLock (taskID lockedBy : string) : Prog unit :=
  stmt (delete_locks (λ l, bool_decide (lock_TaskID l = taskID) &&
                           bool_decide (lock_LockedBy l = lockedBy))).

(** The claimed task, or [None] when another runner has it. *)
Definition ClaimSystemTask (id : Z) (taskType runnerID : string) (lockUntil : Z)
    : Prog (option SystemTask) :=
  let* now := now_ in
  let pending t := (task_ID t =? id) && is_type taskType t
                   && is_status SystemTaskStatusPending t in
  let* found := stmt (first_task pending) in
  match found with
  | None => pret None
  | Some task =>
      let* (acquired, expiredTaskID) :=
        acquireSystemTaskLock taskType (task_TaskID task) runnerID now lockUntil in
      if negb acquired then pret None
      else
        let* marked :=
          if negb (bool_decide (expiredTaskID = "")) &&
             negb (bool_decide (expiredTaskID = task_TaskID task))
          then pattempt (MarkSystemTaskLeaseExpired expiredTaskID)
          else pret (Ok tt) in
        match marked with
        | Err e =>
            do* pattempt (ReleaseSystemTaskLock (task_TaskID task) runnerID) in pfail e
        | Ok _ =>
            let* updated := pattempt (stmt (update_tasks (λ _, pending) (λ t,
              mkTask (task_ID t) (task_TaskID t) (task_Type t) SystemTaskStatusRunning
                (task_ActiveKey t) (task_Payload t) (task_State t) (task_Result t)
                (task_Error t) runnerID (task_CreatedAt t) now))) in
            match updated with
            | Err e =>
                do* pattempt (ReleaseSystemTaskLock (task_TaskID task) runnerID) in pfail e
            | Ok n =>
                if n =? 0
                then do* pattempt (ReleaseSystemTaskLock (task_TaskID task) runnerID) in pret None
                else
                  let* row := stmt (first_task (λ t, task_ID t =? id)) in
                  match row with
                  | Some t => pret (Some t)
                  | None => pfail ERecordNotFound
                  end
            end
        end
  end.

(** [task_id = ? AND status = running AND locked_by = ? AND EXISTS (a lock of
    this task held by the same runner, not expired)] *)
Definition holds_task (taskID lockedBy : string) (now : Z) (db : TDB) (t : SystemTask) : bool :=
  bool_decide (task_TaskID t = taskID) && is_status SystemTaskStatusRunning t
  && bool_decide (task_LockedBy t = lockedBy)
  && existsb (λ l, bool_decide (lock_TaskID l = task_TaskID t) &&
                   bool_decide (lock_LockedBy l = lockedBy) && (now <=? lock_LockedUntil l))
       (map_to_list (locks db)).*2.

Definition ErrSystemTaskLockLost : error := EText "system task lock lost".

Definition UpdateSystemTaskState (taskID lockedBy : string) (state : result Json) : Prog unit :=
  let* state := Return state in
  let* now := now_ in
  let* n := stmt (update_tasks (holds_task taskID lockedBy now) (λ t,
    mkTask (task_ID t) (task_TaskID t) (task_Type t) (task_Status t) (task_ActiveKey t)
      (task_Payload t) state (task_Result t) (task_Error t) (task_LockedBy t)
      (task_CreatedAt t) now)) in
  if n =? 0 then pfail ErrSystemTaskLockLost else pret tt.

Definition RenewSystemTaskLock (taskID lockedBy : string) (lockUntil : Z) : Prog unit :=
  let* now := now_ in
  let* n := stmt (update_locks
    (λ l, bool_decide (lock_TaskID l = taskID) && bool_decide (lock_LockedBy l = lockedBy)
          && (now <=? lock_LockedUntil l))
    (λ l, mkLock (lock_Type l) (lock_TaskID l) (lock_LockedBy l) lockUntil now)) in
  if n =? 0 then pfail ErrSystemTaskLockLost else pret tt.

Fixpoint expire_locks (now : Z) (stale : list SystemTaskLock) : Prog unit :=
  match stale with
  | [] => pret tt
  | lock :: stale =>
      do* MarkSystemTaskLeaseExpired (lock_TaskID lock) in
      do* stmt (delete_locks (λ l,
            bool_decide (lock_Type l = lock_Type lock) &&
            bool_decide (lock_TaskID l = lock_TaskID lock) &&
            bool_decide (lock_LockedBy l = lock_LockedBy lock) &&
            (lock_LockedUntil l <? now))) in
      expire_locks now stale
  end.

Definition ExpireStaleSystemTaskLocks (now : Z) : Prog unit :=
  let* stale := stmt (λ db, (Ok (lock_rows (λ l, lock_LockedUntil l <? now) db), db)) in
  expire_locks now stale.

Definition FinishSystemTask (taskID lockedBy : string) (status : SystemTaskStatus)
    (resultPayload : result Json) (errorMessage : string) : Prog unit :=
  let* res := Return resultPayload in
  let* now := now_ in
  let* n := stmt (update_tasks (holds_task taskID lockedBy now) (λ t,
    mkTask (task_ID t) (task_TaskID t) (task_Type t) status None (task_Payload t)
      (task_State t) res errorMessage (task_LockedBy t) (task_CreatedAt t) now)) in
  if n =? 0 then pfail ErrSystemTaskLockLost else ReleaseSystemTaskLock taskID lockedBy.

(** ** [service/system_task.go] *)

Definition systemTaskLockTTL : Z := 60.
Definition logCleanupBatchSize : Z := 100.

Definition systemTaskLockUntil : Prog Z :=
  let* now := now_ in pret (wrap64 (now + systemTaskLockTTL)).

(** A registered handler; a scheduled one has the answers of [Enabled],
    [Interval] (in seconds) and [NewPayload] (marshalled). *)
Record Schedule : Type := mkSchedule {
  sch_Enabled : bool;
  sch_Interval : Z;
  sch_NewPayload : result Json;
}.
Record Handler : Type := mkHandler {
  h_Type : string;
  h_Schedule : option Schedule;
}.

(** The task and whether it is new; waking the runner has no effect on the
    database. *)
Definition EnqueueSystemTask (taskID : result string) (taskType : string) (payload : result Json)
    : Prog (SystemTask * bool) :=
  let* activeTask := GetActiveSystemTask taskType in
  match activeTask with
  | Some t => pret (t, false)
  | None =>
      let* r := pattempt (CreateSystemTask taskID taskType payload (Ok JEmpty)) in
      match r with
      | Ok t => pret (t, true)
      | Err e =>
          let* active := pattempt (GetActiveSystemTask taskType) in
          match active with
          | Ok (Some t) => pret (t, false)
          | _ => pfail e
          end
      end
  end.

(** ** Log cleanup *)

Record LogCleanupState : Type := mkCleanup {
  cl_Total : Z;
  cl_Processed : Z;
  cl_Progress : Z;
  cl_Remaining : Z;
}.

Definition json_field (name : string) (fields : list (string * Z)) : Z :=
  match List.find (λ kv, bool_decide (kv.1 = name)) fields with Some kv => kv.2 | None => 0 end.

Definition err_unmarshal : error := EText "json: cannot unmarshal".

(** [decodeSystemTaskJSONString]: an empty column leaves the zero value. *)
Definition decode_fields (j : Json) : result (list (string * Z)) :=
  match j with
  | JEmpty => Ok []
  | JObject fields => Ok fields
  | JText _ => Err err_unmarshal
  end.

Definition payload_json (targetTimestamp batchSize : Z) : Json :=
  JObject [("target_timestamp", targetTimestamp); ("batch_size", batchSize)].
Definition state_json (s : LogCleanupState) : Json :=
  JObject [("total", cl_Total s); ("processed", cl_Processed s);
           ("progress", cl_Progress s); ("remaining", cl_Remaining s)].
Definition decode_state (fields : list (string * Z)) : LogCleanupState :=
  mkCleanup (json_field "total" fields) (json_field "processed" fields)
    (json_field "progress" fields) (json_field "remaining" fields).

Definition StartLogCleanupTask (taskID : result string) (targetTimestamp : Z) : Prog SystemTask :=
  if targetTimestamp <=? 0 then pfail (EText "target timestamp is required")
  else
    let* activeTask := GetActiveSystemTask SystemTaskTypeLogCleanup in
    match activeTask with
    | Some t => pret t
    | None =>
        let* r := pattempt (CreateSystemTask taskID SystemTaskTypeLogCleanup
          (Ok (payload_json targetTimestamp logCleanupBatchSize))
          (Ok (state_json (mkCleanup 0 0 0 0)))) in
        match r with
        | Ok t => pret t
        | Err e =>
            let* active := pattempt (GetActiveSystemTask SystemTaskTypeLogCleanup) in
            match active with
            | Ok (Some t) => pret t
            | _ => pfail e
            end
        end
    end.

(** [model.CountOldLog] and [model.DeleteOldLogBatch]; [clickhouse]: the log
    database is ClickHouse, which deletes everything at once. *)
Definition CountOldLog (target : Z) : Prog Z :=
  stmt (λ db, (Ok (Z.of_nat (length (List.filter (λ t, t <? target) (log_times db)))), db)).

Fixpoint drop_old (target : Z) (n : nat) (l : list Z) : list Z :=
  match n, l with
  | O, _ | _, [] => l
  | S n', t :: l => if t <? target then drop_old target n' l else t :: drop_old target n l
  end.

Definition DeleteOldLogBatch (clickhouse : bool) (target limit : Z) : Prog Z :=
  let limit := if limit <=? 0 then 100 else limit in
  if clickhouse then
    let* total := CountOldLog target in
    if total =? 0 then pret 0
    else do* stmt (λ db, (Ok tt, with_logs (List.filter (λ t, negb (t <? target))
               (log_times db)) db)) in
         pret total
  else stmt (λ db, let l := drop_old target (Z.to_nat limit) (log_times db) in
         (Ok (Z.of_nat (length (log_times db)) - Z.of_nat (length l)), with_logs l db)).

Definition logCleanupProgress (processed total : Z) : Z :=
  if total <=? 0 then 100
  else if processed <=? 0 then 0
  else if total <=? processed then 100
  else Z.quot (wrap64 (processed * 100)) total.

Definition syncLogCleanupStateFromRemaining (s : LogCleanupState) (remaining : Z)
    : LogCleanupState :=
  let '(total, processed) :=
    if cl_Total s <=? 0 then (remaining, 0)
    else let fromRemaining := wrap64 (cl_Total s - remaining) in
         (cl_Total s, if cl_Processed s <? fromRemaining then fromRemaining else cl_Processed s) in
  let processed := if processed <? 0 then 0 else processed in
  mkCleanup total processed (logCleanupProgress processed total) remaining.

Definition failSystemTask (task : SystemTask) (runnerID : string) (e : error) : Prog unit :=
  do* pattempt (FinishSystemTask (task_TaskID task) runnerID SystemTaskStatusFailed (Ok JEmpty)
        (Error e)) in
  pret tt.

(** The state after [rows] more rows were deleted. *)
Definition deleted_rows (rows : Z) (s : LogCleanupState) : LogCleanupState :=
  let processed := wrap64 (cl_Processed s + rows) in
  let total := if cl_Total s <? processed then processed else cl_Total s in
  let remaining := if rows <? cl_Remaining s then wrap64 (cl_Remaining s - rows) else 0 in
  mkCleanup total processed (logCleanupProgress processed total) remaining.

(** How the inner loop ends: the task is over (failed, or its lock lost), or the
    state and whether anything was deleted. *)
Definition loop_end : Type := option (LogCleanupState * bool).

Section cleanup.
Context (clickhouse : bool) (task : SystemTask) (runnerID : string) (target batch : Z).

(** [for state.Remaining > 0]; out of fuel is the error [err_fuel]. *)
Definition err_fuel : error := EText "out of fuel".

Fixpoint delete_batches (fuel : nat) (s : LogCleanupState) (progressed : bool) : Prog loop_end :=
  if cl_Remaining s <=? 0 then pret (Some (s, progressed))
  else
    match fuel with
    | O => pfail err_fuel
    | S fuel =>
        let* rows := pattempt (DeleteOldLogBatch clickhouse target batch) in
        match rows with
        | Err e => do* failSystemTask task runnerID e in pret None
        | Ok rows =>
            if rows =? 0 then pret (Some (s, progressed))
            else
              let s := deleted_rows rows s in
              let* saved := pattempt (UpdateSystemTaskState (task_TaskID task) runnerID
                                        (Ok (state_json s))) in
              match saved with
              | Err _ => pret None
              | Ok _ => delete_batches fuel s true
              end
        end
    end.

(** The outer [for]: the final state, or [None] when the task is over. *)
Fixpoint cleanup_passes (fuel : nat) (s : LogCleanupState) : Prog (option LogCleanupState) :=
  match fuel with
  | O => pfail err_fuel
  | S fuel' =>
      let* remaining := pattempt (CountOldLog target) in
      match remaining with
      | Err e => do* failSystemTask task runnerID e in pret None
      | Ok remaining =>
          let s := syncLogCleanupStateFromRemaining s remaining in
          let* saved := pattempt (UpdateSystemTaskState (task_TaskID task) runnerID
                                    (Ok (state_json s))) in
          match saved with
          | Err _ => pret None
          | Ok _ =>
              if cl_Remaining s =? 0 then pret (Some s)
              else
                let* r := delete_batches fuel s false in
                match r with
                | None => pret None
                | Some (s, false) =>
                    do* failSystemTask task runnerID (EText "no log rows were deleted") in
                    pret None
                | Some (s, true) => cleanup_passes fuel' s
                end
          end
      end
  end.
End cleanup.

Definition runLogCleanupTask (fuel : nat) (clickhouse : bool) (task : SystemTask)
    (runnerID : string) : Prog unit :=
  match decode_fields (task_Payload task) with
  | Err e => failSystemTask task runnerID e
  | Ok payload =>
      let target := json_field "target_timestamp" payload in
      let batch := json_field "batch_size" payload in
      if target <=? 0
      then failSystemTask task runnerID (EText "target timestamp is required")
      else
        let batch := if batch <=? 0 then logCleanupBatchSize else batch in
        match decode_fields (task_State task) with
        | Err e => failSystemTask task runnerID e
        | Ok fields =>
            let* r := cleanup_passes clickhouse task runnerID target batch fuel
                        (decode_state fields) in
            match r with
            | None => pret tt
            | Some s =>
                let total := if cl_Total s <? cl_Processed s then cl_Processed s
                             else cl_Total s in
                let s := mkCleanup total (cl_Processed s) 100 0 in
                let* saved := pattempt (UpdateSystemTaskState (task_TaskID task) runnerID
                                          (Ok (state_json s))) in
                match saved with
                | Err _ => pret tt
                | Ok _ =>
                    do* pattempt (FinishSystemTask (task_TaskID task) runnerID
                          SystemTaskStatusSucceeded
                          (Ok (JObject [("deleted_count", cl_Processed s)])) "") in
                    pret tt
                end
            end
        end
  end.

(** ** The passes of the runner *)

(** The handler's types, the pending task of each, then one claim per handler:
    the tasks to dispatch.  A claim that fails is logged and skipped. *)
Fixpoint claim_each (runnerID : string) (pending : gmap string SystemTask)
    (handlers : list Handler) : Prog (list SystemTask) :=
  match handlers with
  | [] => pret []
  | h :: handlers =>
      let* claimed :=
        match pending !! h_Type h with
        | None => pret []
        | Some task =>
            let* until := systemTaskLockUntil in
            let* r := pattempt (ClaimSystemTask (task_ID task) (h_Type h) runnerID until) in
            pret (match r with Ok (Some t) => [t] | _ => [] end)
        end in
      let* rest := claim_each runnerID pending handlers in
      pret (claimed ++ rest)
  end.

Definition runSystemTaskClaimPass (handlers : list Handler) (runnerID : string)
    : Prog (list SystemTask) :=
  let* pending := pattempt (FindEarliestPendingSystemTasks (h_Type <$> handlers)) in
  match pending with
  | Err _ => pret []
  | Ok pending => claim_each runnerID pending handlers
  end.

(** Create the task of a due handler; when that fails, look for an active one
    (only to decide what to log). *)
Definition create_scheduled (taskID : result string) (ty : string) (sch : Schedule) : Prog unit :=
  let* r := pattempt (CreateSystemTask taskID ty (sch_NewPayload sch) (Ok JEmpty)) in
  match r with
  | Ok _ => pret tt
  | Err _ => do* pattempt (GetActiveSystemTask ty) in pret tt
  end.

(** [gen]: the random task id drawn for a type in this pass. *)
Fixpoint schedule_each (gen : string -> result string) (now : Z)
    (latest : gmap string SystemTask) (due : list (string * Schedule)) : Prog unit :=
  match due with
  | [] => pret tt
  | (ty, sch) :: due =>
      let skip :=
        match latest !! ty with
        | Some t => is_active_task t || (wrap64 (now - task_UpdatedAt t) <? sch_Interval sch)
        | None => false
        end in
      do* (if skip then pret tt else create_scheduled (gen ty) ty sch) in
      schedule_each gen now latest due
  end.

Definition runSystemTaskScheduler (gen : string -> result string) (handlers : list Handler)
    : Prog unit :=
  let* now := now_ in
  let due := omap (λ h, sch ← h_Schedule h; if sch_Enabled sch then Some (h_Type h, sch) else None)
               handlers in
  let* latest := pattempt (GetLatestSystemTasks (due.*1)) in
  match latest with
  | Err _ => pret tt
  | Ok latest => schedule_each gen now latest due
  end.

(** One report of [NewSystemTaskProgressReporter]: the throttle's memory (the
    last progress, and when it was written) is threaded through. *)
Definition report_progress (taskID runnerID : string) (last : Z * option Z) (processed total : Z)
    : Prog (Z * option Z) :=
  let progress := if 0 <? total then Z.quot (wrap64 (processed * 100)) total else 100 in
  let progress := if progress <? 0 then 0 else if 100 <? progress then 100 else progress in
  let* now := now_ in
  let '(lastProgress, lastWriteAt) := last in
  let skip := (progress <? 100) &&
    ((progress =? lastProgress) ||
     match lastWriteAt with Some t => (now - t <? 2) | None => false end) in
  if skip then pret last
  else
    do* pattempt (UpdateSystemTaskState taskID runnerID (Ok (JObject
      [("total", total); ("processed", processed); ("progress", progress)]))) in
    pret (progress, Some now).
End tasks.
