(* ===== verification/TaskSafety.v ===== *)
(** * TaskSafety: the task tables under interleaving

    Rely-guarantee reasoning over [Prog]: a program of runner [r] is [safe] when
    each of its statements, from any database that satisfies the invariant,
    makes only the changes [guarantee r] allows, using facts that no other
    runner's statements can take away.  The system then keeps the invariant
    whatever the scheduling, the clocks and the failures. *)

From S2P Require Export SystemTask.

Section safety.
Context {ROWS : RowCount}.

(** ** The invariant *)

Record tasks_ok (db : TDB) : Prop := {
  ok_id : ∀ i t, tasks db !! i = Some t -> task_ID t = i ∧ i < next_task db;
  ok_name : ∀ i j t u, tasks db !! i = Some t -> tasks db !! j = Some u ->
    task_TaskID t = task_TaskID u -> i = j;
  ok_active : ∀ i t, tasks db !! i = Some t ->
    task_ActiveKey t = if is_active_task t then Some (task_Type t) else None;
  ok_unique : ∀ i j t u k, tasks db !! i = Some t -> tasks db !! j = Some u ->
    task_ActiveKey t = Some k -> task_ActiveKey u = Some k -> i = j;
  ok_lock : ∀ ty l, locks db !! ty = Some l -> lock_Type l = ty ∧
    ∃ i t, tasks db !! i = Some t ∧ task_TaskID t = lock_TaskID l ∧ task_Type t = ty;
}.

(** Runner [r] holds the lease of task [t]: it claimed the task, and the lock row
    of the task's type names the task and [r]. *)
Definition holds (r : string) (db : TDB) (t : SystemTask) : Prop :=
  task_Status t = SystemTaskStatusRunning ∧ task_LockedBy t = r ∧
  ∃ l, locks db !! task_Type t = Some l ∧ lock_TaskID l = task_TaskID t ∧ lock_LockedBy l = r.

Definition terminal (s : SystemTaskStatus) : bool :=
  match s with SystemTaskStatusSucceeded | SystemTaskStatusFailed => true | _ => false end.

(** What a statement of runner [r] may do to a task row. *)
Inductive row_step (r : string) (db : TDB) (t : SystemTask) : SystemTask -> Prop :=
| row_same : row_step r db t t
| row_claimed now :
    task_Status t = SystemTaskStatusPending ->
    row_step r db t (mkTask (task_ID t) (task_TaskID t) (task_Type t) SystemTaskStatusRunning
      (task_ActiveKey t) (task_Payload t) (task_State t) (task_Result t) (task_Error t) r
      (task_CreatedAt t) now)
| row_saved s now :
    holds r db t ->
    row_step r db t (mkTask (task_ID t) (task_TaskID t) (task_Type t) (task_Status t)
      (task_ActiveKey t) (task_Payload t) s (task_Result t) (task_Error t) (task_LockedBy t)
      (task_CreatedAt t) now)
| row_finished st res msg now :
    holds r db t -> terminal st = true ->
    row_step r db t (mkTask (task_ID t) (task_TaskID t) (task_Type t) st None (task_Payload t)
      (task_State t) res msg (task_LockedBy t) (task_CreatedAt t) now)
| row_expired now :
    task_Status t = SystemTaskStatusRunning ->
    row_step r db t (mkTask (task_ID t) (task_TaskID t) (task_Type t) SystemTaskStatusFailed None
      (task_Payload t) (task_State t) (task_Result t) "task lease expired" (task_LockedBy t)
      (task_CreatedAt t) now).

Definition guarantee (r : string) (db db' : TDB) : Prop :=
  tasks_ok db' ∧
  ∀ i t, tasks db !! i = Some t -> ∃ t', tasks db' !! i = Some t' ∧ row_step r db t t'.

Lemma row_step_identity r db t t' :
  row_step r db t t' ->
  task_ID t' = task_ID t ∧ task_TaskID t' = task_TaskID t ∧ task_Type t' = task_Type t.
Proof. by destruct 1. Qed.

Lemma active_running t : task_Status t = SystemTaskStatusRunning -> is_active_task t = true.
Proof. unfold is_active_task, is_status. intros ->. done. Qed.

Lemma active_terminal t : is_active_task t = negb (terminal (task_Status t)).
Proof. unfold is_active_task, is_status. by destruct (task_Status t). Qed.

Lemma row_step_active r db t t' :
  task_ActiveKey t = (if is_active_task t then Some (task_Type t) else None) ->
  row_step r db t t' ->
  task_ActiveKey t' = (if is_active_task t' then Some (task_Type t') else None) ∧
  (is_active_task t' = true -> is_active_task t = true).
Proof.
  rewrite !active_terminal. intros Ha [|now Hs|s now (Hs & _)|st res msg now (Hs & _) Ht|now Hs];
    simpl; rewrite ?Hs in *; try done.
  by rewrite Ht.
Qed.

(** Rows changed by allowed steps, nothing else touched. *)
Lemma tasks_ok_rows r db (f : SystemTask -> SystemTask) :
  tasks_ok db -> (∀ i t, tasks db !! i = Some t -> row_step r db t (f t)) ->
  guarantee r db (with_tasks (f <$> tasks db) db).
Proof.
  intros [Hid Hn Ha Hu Hl] Hf.
  assert (∀ i t', (f <$> tasks db) !! i = Some t' ->
    ∃ t, tasks db !! i = Some t ∧ t' = f t ∧ row_step r db t t') as Hinv.
  { intros i t'. rewrite lookup_fmap. destruct (tasks db !! i) as [t|] eqn:E; [|done].
    simpl. intros. simplify_eq. eauto. }
  split; [split; simpl|].
  - intros i t' (t & Ht & -> & Hs)%Hinv. destruct (row_step_identity _ _ _ _ Hs) as (-> & _).
    by apply Hid.
  - intros i j t' u' (t & Ht & -> & Hs)%Hinv (u & Hu' & -> & Hs')%Hinv.
    destruct (row_step_identity _ _ _ _ Hs) as (_ & -> & _).
    destruct (row_step_identity _ _ _ _ Hs') as (_ & -> & _). by apply Hn.
  - intros i t' (t & Ht & -> & Hs)%Hinv. by apply (row_step_active _ _ _ _ (Ha _ _ Ht) Hs).
  - intros i j t' u' k (t & Ht & -> & Hs)%Hinv (u & Hu' & -> & Hs')%Hinv.
    destruct (row_step_active _ _ _ _ (Ha _ _ Ht) Hs) as [-> H1].
    destruct (row_step_active _ _ _ _ (Ha _ _ Hu') Hs') as [-> H2].
    destruct (row_step_identity _ _ _ _ Hs) as (_ & _ & ->).
    destruct (row_step_identity _ _ _ _ Hs') as (_ & _ & ->).
    destruct (is_active_task (f t)), (is_active_task (f u)); try done. intros. simplify_eq.
    eapply (Hu i j t u); [done|done|by rewrite (Ha _ _ Ht), H1|rewrite (Ha _ _ Hu'), H2 by done; congruence].
  - intros ty l (? & i & t & Ht & E1 & E2)%Hl. split; [done|]. exists i, (f t).
    rewrite lookup_fmap, Ht. destruct (row_step_identity _ _ _ _ (Hf _ _ Ht)) as (_ & -> & ->).
    done.
  - simpl. intros i t Ht. exists (f t). rewrite lookup_fmap, Ht. eauto.
Qed.

(** Locks changed, task rows untouched. *)
Lemma guarantee_locks r db m :
  tasks_ok db ->
  (∀ ty l, m !! ty = Some l -> lock_Type l = ty ∧
     ∃ i t, tasks db !! i = Some t ∧ task_TaskID t = lock_TaskID l ∧ task_Type t = ty) ->
  guarantee r db (with_locks m db).
Proof.
  intros [Hid Hn Ha Hu Hl] Hm. split; [by split|].
  simpl. intros i t Ht. exists t. split; [done|constructor].
Qed.

Lemma guarantee_refl r db : tasks_ok db -> guarantee r db db.
Proof. intros H. split; [done|]. intros i t Ht. exists t. split; [done|constructor]. Qed.

Lemma guarantee_logs r db l : tasks_ok db -> guarantee r db (with_logs l db).
Proof.
  intros [Hid Hn Ha Hu Hl]. split; [by split|]. intros i t Ht. exists t. split; [done|constructor].
Qed.

(** A task with this name and type exists: no statement can undo that. *)
Definition has_task (taskID ty : string) (db : TDB) : Prop :=
  ∃ i t, tasks db !! i = Some t ∧ task_TaskID t = taskID ∧ task_Type t = ty.

Definition stable (F : TDB -> Prop) : Prop :=
  ∀ r db db', F db -> guarantee r db db' -> F db'.

Lemma has_task_stable taskID ty : stable (has_task taskID ty).
Proof.
  intros r db db' (i & t & Ht & E1 & E2) [_ Hg]. destruct (Hg i t Ht) as (t' & Ht' & Hs).
  exists i, t'. destruct (row_step_identity _ _ _ _ Hs) as (_ & -> & ->). done.
Qed.

Lemma stable_and F F' : stable F -> stable F' -> stable (λ db, F db ∧ F' db).
Proof. intros H1 H2 r db db' [? ?] Hg. split; eauto. Qed.

Lemma stable_true : stable (λ _, True).
Proof. done. Qed.

(** ** Safe programs *)

Fixpoint safe (r : string) {A} (p : Prog A) (Q : result A -> (TDB -> Prop) -> Prop)
    (F : TDB -> Prop) : Prop :=
  match p with
  | Return x => Q x F
  | Now k => ∀ t, safe r (k t) Q F
  | Stmt f k =>
      (∀ msg, safe r (k (Err (EDriver msg))) Q F) ∧
      ∀ db, tasks_ok db -> F db ->
        guarantee r db (f db).2 ∧
        ∃ F', stable F' ∧ F' (f db).2 ∧ safe r (k (f db).1) Q F'
  end.

Context (r : string).

Lemma safe_bind {A B} (m : Prog A) (k : A -> Prog B) Q F :
  safe r m (λ x F', match x with Ok a => safe r (k a) Q F' | Err e => Q (Err e) F' end) F ->
  safe r (pbind m k) Q F.
Proof.
  revert F. induction m as [[a|e]|k' IH|X f k' IH]; intros F; simpl; [done|done|auto|].
  intros [He Hs]. split; [auto|]. intros db Hdb HF.
  destruct (Hs db Hdb HF) as (Hg & F' & HF' & Hst & Hsafe). eauto 10.
Qed.

Lemma safe_attempt {A} (m : Prog A) Q F :
  safe r m (λ x F', Q (Ok x) F') F -> safe r (pattempt m) Q F.
Proof.
  revert F. induction m as [x|k' IH|X f k' IH]; intros F; simpl; [done|auto|].
  intros [He Hs]. split; [auto|]. intros db Hdb HF.
  destruct (Hs db Hdb HF) as (Hg & F' & HF' & Hst & Hsafe). eauto 10.
Qed.

(** A statement that needs and leaves the same facts. *)
Lemma safe_stmt {X} (f : TDB -> result X * TDB) Q F :
  stable F -> (∀ db, tasks_ok db -> F db -> guarantee r db (f db).2) -> (∀ x, Q x F) ->
  safe r (stmt f) Q F.
Proof.
  intros HF Hg HQ. split; [intros; apply HQ|]. intros db Hdb HFdb. split; [auto|].
  exists F. split; [done|]. split; [by eapply HF; auto|apply HQ].
Qed.

(** A query. *)
Lemma safe_query {X} (f : TDB -> result X) Q F :
  stable F -> (∀ x, Q x F) -> safe r (stmt (λ db, (f db, db))) Q F.
Proof. intros HF HQ. apply safe_stmt; [done| |done]. intros. by apply guarantee_refl. Qed.

(** Safe under any facts, and leaving some stable facts behind. *)
Definition good {A} (p : Prog A) : Prop :=
  ∀ Q F, stable F -> (∀ x F', stable F' -> Q x F') -> safe r p Q F.

Lemma good_return {A} (x : result A) : good (Return x).
Proof. intros Q F HF HQ. by apply HQ. Qed.

Lemma good_now : good now_.
Proof. intros Q F HF HQ t. by apply HQ. Qed.

Lemma good_bind {A B} (m : Prog A) (k : A -> Prog B) :
  good m -> (∀ a, good (k a)) -> good (pbind m k).
Proof.
  intros Hm Hk Q F HF HQ. apply safe_bind, Hm; [done|]. intros [a|e] F' HF'; [by apply Hk|by apply HQ].
Qed.

Lemma good_attempt {A} (m : Prog A) : good m -> good (pattempt m).
Proof. intros Hm Q F HF HQ. apply safe_attempt, Hm; [done|]. intros. by apply HQ. Qed.

Lemma good_stmt {X} (f : TDB -> result X * TDB) :
  (∀ db, tasks_ok db -> guarantee r db (f db).2) -> good (stmt f).
Proof. intros Hf Q F HF HQ. apply safe_stmt; [done|auto|]. intros. by apply HQ. Qed.

Lemma good_query {X} (f : TDB -> result X) : good (stmt (λ db, (f db, db))).
Proof. apply good_stmt. intros. by apply guarantee_refl. Qed.

(** ** Statements *)

Lemma update_tasks_guarantee p f db :
  tasks_ok db -> (∀ i t, tasks db !! i = Some t -> p db t = true -> row_step r db t (f t)) ->
  guarantee r db (update_tasks p f db).2.
Proof.
  intros Hdb Hf. apply tasks_ok_rows; [done|]. intros i t Ht.
  destruct (p db t) eqn:E; [by eapply Hf|constructor].
Qed.

Lemma delete_locks_guarantee p db : tasks_ok db -> guarantee r db (delete_locks p db).2.
Proof.
  intros Hdb. apply guarantee_locks; [done|]. intros ty l [Hl _]%map_lookup_filter_Some.
  by apply (ok_lock _ Hdb).
Qed.

Lemma insert_lock_guarantee l db :
  tasks_ok db -> has_task (lock_TaskID l) (lock_Type l) db -> guarantee r db (insert_lock l db).2.
Proof.
  intros Hdb (i & t & Ht & E1 & E2). unfold insert_lock.
  destruct (locks db !! lock_Type l) eqn:E; [by apply guarantee_refl|].
  apply guarantee_locks; [done|]. intros ty l' [[<- <-]|[_ Hl]]%lookup_insert_Some; [eauto 10|].
  by apply (ok_lock _ Hdb).
Qed.

Lemma update_locks_guarantee p f db :
  tasks_ok db -> (∀ l, p l = true -> lock_Type (f l) = lock_Type l ∧
    (has_task (lock_TaskID l) (lock_Type l) db -> has_task (lock_TaskID (f l)) (lock_Type l) db)) ->
  guarantee r db (update_locks p f db).2.
Proof.
  intros Hdb Hf. apply guarantee_locks; [done|]. intros ty l'. rewrite lookup_fmap.
  destruct (locks db !! ty) as [l|] eqn:E; [|done]. simpl. intros; simplify_eq.
  destruct (ok_lock _ Hdb _ _ E) as [<- Ht]. destruct (p l) eqn:Ep; [|done].
  destruct (Hf l Ep) as [-> Hh]. split; [done|]. by apply Hh.
Qed.

Lemma existsb_rows_false (p : SystemTask -> bool) db i t :
  existsb p (map_to_list (tasks db)).*2 = false -> tasks db !! i = Some t -> p t = false.
Proof.
  intros H Ht. destruct (p t) eqn:E; [|done].
  assert (existsb p (map_to_list (tasks db)).*2 = true); [|congruence].
  apply existsb_exists. exists t. split; [|done]. apply list_elem_of_In, list_elem_of_fmap.
  exists (i, t). split; [done|]. by apply elem_of_map_to_list.
Qed.

Lemma insert_task_guarantee taskID ty payload state now db :
  tasks_ok db -> guarantee r db (insert_task taskID ty payload state now db).2.
Proof.
  intros Hdb. unfold insert_task. destruct (_ || _) eqn:E; [by apply guarantee_refl|].
  apply orb_false_iff in E as [E1 E2]. destruct Hdb as [Hid Hn Ha Hu Hl].
  assert (tasks db !! next_task db = None) as Hfresh.
  { destruct (tasks db !! next_task db) eqn:E; [|done]. apply Hid in E. lia. }
  assert (∀ i t, tasks db !! i = Some t -> task_TaskID t ≠ taskID) as H1.
  { intros i t Ht. pose proof (existsb_rows_false _ _ _ _ E1 Ht) as H. by apply bool_decide_eq_false in H. }
  assert (∀ i t, tasks db !! i = Some t -> task_ActiveKey t ≠ Some ty) as H2.
  { intros i t Ht. pose proof (existsb_rows_false _ _ _ _ E2 Ht) as H. by apply bool_decide_eq_false in H. }
  split; [split; simpl|].
  - intros i t [[<- <-]|[_ Ht]]%lookup_insert_Some; simpl; [lia|]. apply Hid in Ht. lia.
  - intros i j t u [[<- <-]|[? Ht]]%lookup_insert_Some [[<- <-]|[? Hj]]%lookup_insert_Some;
      simpl; intros E; [done|by eapply H1 in Hj|by eapply H1 in Ht|by eauto].
  - intros i t [[<- <-]|[_ Ht]]%lookup_insert_Some; [done|]. by eapply Ha.
  - intros i j t u k [[<- <-]|[? Ht]]%lookup_insert_Some [[<- <-]|[? Hj]]%lookup_insert_Some;
      simpl; intros; simplify_eq; [done|by eapply H2 in Hj|by eapply H2 in Ht|by eauto].
  - intros k l (Hk & i & t & Ht & ? & ?)%Hl. split; [done|]. exists i, t. split; [|done].
    apply lookup_insert_Some. right. split; [congruence|done].
  - simpl. intros i t Ht. exists t. split; [|constructor].
    apply lookup_insert_Some. right. split; [congruence|done].
Qed.

(** The condition of [UPDATE ... WHERE EXISTS (lock)] finds the holder. *)
Lemma holds_task_holds taskID now db t i :
  tasks_ok db -> tasks db !! i = Some t -> holds_task taskID r now db t = true -> holds r db t.
Proof.
  intros Hdb Ht H. unfold holds_task, is_status in H.
  repeat (apply andb_true_iff in H as [H ?]).
  repeat match goal with H : bool_decide _ = true |- _ => apply bool_decide_eq_true in H end.
  split_and!; [done|done|].
  match goal with H : existsb _ _ = true |- _ => apply existsb_exists in H as (l & Hin & Hl) end.
  repeat (apply andb_true_iff in Hl as [Hl ?]).
  repeat match goal with H : bool_decide _ = true |- _ => apply bool_decide_eq_true in H end.
  apply list_elem_of_In, list_elem_of_fmap in Hin as ([ty l'] & -> & Hl').
  apply elem_of_map_to_list in Hl'. simpl in *.
  destruct (ok_lock _ Hdb _ _ Hl') as (_ & j & u & Hu & E1 & E2).
  assert (i = j) as <- by (eapply (ok_name _ Hdb); [done|done|congruence]).
  assert (u = t) as -> by congruence. exists l'. by rewrite E2.
Qed.

(** ** The operations *)

Create HintDb good.
#[local] Hint Resolve good_return good_now good_query : good.

Ltac good_step :=
  lazymatch goal with
  | |- good (pbind _ _) => apply good_bind; [|intros]
  | |- good (pattempt _) => apply good_attempt
  | |- good (pret _) => apply good_return
  | |- good (pfail _) => apply good_return
  | |- good (match ?x with _ => _ end) => destruct x
  | |- good _ => solve [eauto 2 with good]
  end.
Ltac go_good := repeat good_step.

Lemma good_CreateSystemTask taskID ty payload state :
  good (CreateSystemTask taskID ty payload state).
Proof.
  unfold CreateSystemTask. go_good. apply good_stmt. intros. by apply insert_task_guarantee.
Qed.
#[local] Hint Resolve good_CreateSystemTask : good.

Lemma good_GetActive ty : good (GetActiveSystemTask ty).
Proof. apply (good_query (λ db, Ok (list.last (task_rows _ db)))). Qed.
#[local] Hint Resolve good_GetActive : good.

Lemma good_Mark taskID : good (MarkSystemTaskLeaseExpired taskID).
Proof.
  unfold MarkSystemTaskLeaseExpired. go_good. apply good_stmt. intros db Hdb.
  apply update_tasks_guarantee; [done|]. intros i t Ht [_ E]%andb_true_iff.
  apply row_expired. by apply bool_decide_eq_true in E.
Qed.
#[local] Hint Resolve good_Mark : good.

Lemma good_delete_locks p : good (stmt (delete_locks p)).
Proof. apply good_stmt. intros. by apply delete_locks_guarantee. Qed.
#[local] Hint Resolve good_delete_locks : good.

Lemma good_Release taskID lockedBy : good (ReleaseSystemTaskLock taskID lockedBy).
Proof. apply good_delete_locks. Qed.
#[local] Hint Resolve good_Release : good.

Lemma good_UpdateState taskID state : good (UpdateSystemTaskState taskID r state).
Proof.
  unfold UpdateSystemTaskState. go_good. apply good_stmt. intros db Hdb.
  apply update_tasks_guarantee; [done|]. intros i t Ht E.
  apply row_saved. by eapply holds_task_holds.
Qed.
#[local] Hint Resolve good_UpdateState : good.

Lemma good_Finish taskID st res msg :
  terminal st = true -> good (FinishSystemTask taskID r st res msg).
Proof.
  intros Hst. unfold FinishSystemTask. go_good. apply good_stmt. intros db Hdb.
  apply update_tasks_guarantee; [done|]. intros i t Ht E.
  apply row_finished; [by eapply holds_task_holds|done].
Qed.
#[local] Hint Resolve good_Finish : good.

Lemma good_Renew taskID until : good (RenewSystemTaskLock taskID r until).
Proof.
  unfold RenewSystemTaskLock. go_good. apply good_stmt. intros db Hdb.
  by apply update_locks_guarantee.
Qed.
#[local] Hint Resolve good_Renew : good.

Lemma good_expire_locks now l : good (expire_locks now l).
Proof. induction l as [|x l IH]; cbn [expire_locks]; go_good. Qed.
#[local] Hint Resolve good_expire_locks : good.

Lemma good_ExpireStale now : good (ExpireStaleSystemTaskLocks now).
Proof. unfold ExpireStaleSystemTaskLocks. go_good. Qed.

(** Taking the lock needs the fact that the task exists, which the claim has read
    before. *)
Lemma safe_acquire ty taskID now until Q F :
  stable F -> (∀ db, F db -> has_task taskID ty db) -> (∀ x, Q x F) ->
  safe r (acquireSystemTaskLock ty taskID r now until) Q F.
Proof.
  intros HF Hh HQ. unfold acquireSystemTaskLock.
  apply safe_bind, safe_attempt, safe_stmt; [done| |].
  { intros db Hdb HFdb. apply insert_lock_guarantee; [done|]. by apply Hh. }
  intros [[]|e]; [apply HQ|].
  apply safe_bind, safe_query; [done|]. intros [[l|]|e']; [|apply HQ..].
  destruct (now <=? lock_LockedUntil l); [apply HQ|].
  apply safe_bind, safe_stmt; [done| |].
  { intros db Hdb HFdb. apply update_locks_guarantee; [done|].
    intros l' [E _]%andb_true_iff. apply bool_decide_eq_true in E. split; [done|].
    intros _. simpl. rewrite E. by apply Hh. }
  intros [n|e']; [|apply HQ]. destruct (n =? 0); apply HQ.
Qed.

Lemma head_task_rows p db t :
  head (task_rows p db) = Some t -> p t = true ∧ ∃ i, tasks db !! i = Some t.
Proof.
  intros H. apply (elem_of_rows_where p by_id (tasks db) t).
  unfold task_rows in H. destruct (rows_where p by_id (tasks db)); [done|].
  simpl in H. simplify_eq. set_solver.
Qed.

(** Reading a task tells that it exists. *)
Lemma safe_read_task p Q F :
  stable F -> (∀ e, Q (Err e) F) -> Q (Ok None) F ->
  (∀ t, p t = true ->
     Q (Ok (Some t)) (λ db, F db ∧ has_task (task_TaskID t) (task_Type t) db)) ->
  safe r (stmt (first_task p)) Q F.
Proof.
  intros HF He Hn Hs. split; [intros; apply He|]. intros db Hdb HFdb.
  split; [by apply guarantee_refl|]. unfold first_task; simpl.
  destruct (head (task_rows p db)) as [t|] eqn:E; [|by exists F].
  apply head_task_rows in E as [E (i & Hi)].
  exists (λ db, F db ∧ has_task (task_TaskID t) (task_Type t) db).
  split; [by apply stable_and, has_task_stable|]. split; [split; [done|by exists i, t]|by apply Hs].
Qed.

Lemma safe_now Q F : (∀ t, Q (Ok t) F) -> safe r now_ Q F.
Proof. done. Qed.

Lemma good_claim_update id ty now :
  good (stmt (update_tasks (λ _ t, (task_ID t =? id) && is_type ty t
      && is_status SystemTaskStatusPending t) (λ t,
    mkTask (task_ID t) (task_TaskID t) (task_Type t) SystemTaskStatusRunning (task_ActiveKey t)
      (task_Payload t) (task_State t) (task_Result t) (task_Error t) r (task_CreatedAt t) now))).
Proof.
  apply good_stmt. intros db Hdb. apply update_tasks_guarantee; [done|].
  intros i t Ht [_ E]%andb_true_iff. apply row_claimed. by apply bool_decide_eq_true in E.
Qed.
#[local] Hint Resolve good_claim_update : good.

Lemma good_Claim id ty until : good (ClaimSystemTask id ty r until).
Proof.
  intros Q F HF HQ. unfold ClaimSystemTask. apply safe_bind, safe_now. intros now.
  apply safe_bind, safe_read_task; [done|intros; by apply HQ|by apply HQ|]. intros task E.
  apply andb_true_iff in E as [[_ E]%andb_true_iff _]. apply bool_decide_eq_true in E. subst ty.
  set (F1 := λ db, F db ∧ has_task _ _ db).
  assert (stable F1) as HF1 by (by apply stable_and, has_task_stable).
  apply safe_bind, safe_acquire; [done|by intros ? []|].
  intros [[acquired expired]|e]; [|by apply HQ].
  refine ((_ : good _) Q F1 HF1 HQ). unfold first_task. go_good.
Qed.
#[local] Hint Resolve good_Claim : good.

Lemma good_fail task e : good (failSystemTask task r e).
Proof. unfold failSystemTask. go_good. Qed.
#[local] Hint Resolve good_fail : good.

Lemma good_CountOldLog target : good (CountOldLog target).
Proof. apply (good_query (λ db, Ok _)). Qed.
#[local] Hint Resolve good_CountOldLog : good.

Lemma good_DeleteOldLogBatch ch target limit : good (DeleteOldLogBatch ch target limit).
Proof.
  unfold DeleteOldLogBatch. go_good; apply good_stmt; intros; by apply guarantee_logs.
Qed.
#[local] Hint Resolve good_DeleteOldLogBatch : good.

Lemma good_delete_batches ch task target batch fuel s b :
  good (delete_batches ch task r target batch fuel s b).
Proof.
  revert s b. induction fuel as [|fuel IH]; intros s b; cbn [delete_batches]; go_good.
Qed.
#[local] Hint Resolve good_delete_batches : good.

Lemma good_cleanup_passes ch task target batch fuel s :
  good (cleanup_passes ch task r target batch fuel s).
Proof. revert s. induction fuel as [|fuel IH]; intros s; cbn [cleanup_passes]; go_good. Qed.
#[local] Hint Resolve good_cleanup_passes : good.

Lemma good_runLogCleanup fuel ch task : good (runLogCleanupTask fuel ch task r).
Proof. unfold runLogCleanupTask. go_good. Qed.

Lemma good_Enqueue taskID ty payload : good (EnqueueSystemTask taskID ty payload).
Proof. unfold EnqueueSystemTask. go_good. Qed.

Lemma good_StartLogCleanup taskID target : good (StartLogCleanupTask taskID target).
Proof. unfold StartLogCleanupTask. go_good. Qed.

Lemma good_claim_each pending handlers : good (claim_each r pending handlers).
Proof.
  induction handlers as [|h handlers IH]; cbn [claim_each]; unfold systemTaskLockUntil; go_good.
Qed.
#[local] Hint Resolve good_claim_each : good.

Lemma good_ClaimPass handlers : good (runSystemTaskClaimPass handlers r).
Proof. unfold runSystemTaskClaimPass, FindEarliestPendingSystemTasks. go_good. Qed.

Lemma good_schedule_each gen now latest due : good (schedule_each gen now latest due).
Proof.
  induction due as [|[ty sch] due IH]; cbn [schedule_each]; unfold create_scheduled; go_good.
Qed.
#[local] Hint Resolve good_schedule_each : good.

Lemma good_Scheduler gen handlers : good (runSystemTaskScheduler gen handlers).
Proof. unfold runSystemTaskScheduler, GetLatestSystemTasks. go_good. Qed.

Lemma good_report taskID last processed total :
  good (report_progress taskID r last processed total).
Proof. unfold report_progress. go_good. Qed.
End safety.

(** ** The system *)

Section system.
Context {ROWS : RowCount}.

(** What a node does: an administrator's request, a pass of the runner, the
    heartbeat, or a handler's body ([TFinish]: the other handlers end with
    [FinishSystemTask] in a terminal state). *)
Inductive TaskOp : Type :=
| TEnqueue (taskID : result string) (ty : string) (payload : result Json)
| TStartCleanup (taskID : result string) (target : Z)
| TSchedule (gen : string -> result string) (handlers : list Handler)
| TClaimPass (handlers : list Handler)
| TExpire (now : Z)
| TRenew (taskID : string) (until : Z)
| TCleanup (fuel : nat) (clickhouse : bool) (task : SystemTask)
| TReport (taskID : string) (last : Z * option Z) (processed total : Z)
| TFinish (taskID : string) (succeeded : bool) (res : result Json) (msg : string).

Definition drop_value {A} (p : Prog A) : Prog unit := do* p in pret tt.

Definition task_op (r : string) (o : TaskOp) : Prog unit :=
  match o with
  | TEnqueue i ty p => drop_value (EnqueueSystemTask i ty p)
  | TStartCleanup i t => drop_value (StartLogCleanupTask i t)
  | TSchedule gen hs => runSystemTaskScheduler gen hs
  | TClaimPass hs => drop_value (runSystemTaskClaimPass hs r)
  | TExpire now => ExpireStaleSystemTaskLocks now
  | TRenew i until => RenewSystemTaskLock i r until
  | TCleanup fuel ch task => runLogCleanupTask fuel ch task r
  | TReport i last p t => drop_value (report_progress i r last p t)
  | TFinish i ok res msg =>
      FinishSystemTask i r (if ok then SystemTaskStatusSucceeded else SystemTaskStatusFailed) res msg
  end.

Lemma good_task_op r o : good r (task_op r o).
Proof.
  assert (∀ A (p : Prog A), good r p -> good r (drop_value p)) as Hd.
  { intros A p Hp. apply good_bind; [done|]. intros. apply good_return. }
  destruct o; simpl; try apply Hd; auto using good_Enqueue, good_StartLogCleanup, good_Scheduler,
    good_ClaimPass, good_ExpireStale, good_Renew, good_runLogCleanup, good_report.
  apply good_Finish. by destruct succeeded.
Qed.

(** The database and the programs in progress, each with its runner's name. *)
Record Sys : Type := mkSys { sys_db : TDB; sys_threads : list (string * Prog unit) }.

Inductive step : Sys -> Sys -> Prop :=
| step_spawn r o db ths : step (mkSys db ths) (mkSys db (ths ++ [(r, task_op r o)]))
| step_now r k i t db ths :
    ths !! i = Some (r, Now k) -> step (mkSys db ths) (mkSys db (<[i := (r, k t)]> ths))
| step_stmt r X (f : TDB -> result X * TDB) k i db ths :
    ths !! i = Some (r, Stmt f k) ->
    step (mkSys db ths) (mkSys (f db).2 (<[i := (r, k (f db).1)]> ths))
| step_fault r X (f : TDB -> result X * TDB) k i msg db ths :
    ths !! i = Some (r, Stmt f k) ->
    step (mkSys db ths) (mkSys db (<[i := (r, k (Err (EDriver msg)))]> ths))
| step_logs l db ths : step (mkSys db ths) (mkSys (with_logs l db) ths).

(** Each program in progress is safe under facts that hold now. *)
Definition thread_ok (db : TDB) (th : string * Prog unit) : Prop :=
  ∃ F, stable F ∧ F db ∧ safe th.1 th.2 (λ _ _, True) F.

Definition sys_ok (s : Sys) : Prop :=
  tasks_ok (sys_db s) ∧ Forall (thread_ok (sys_db s)) (sys_threads s).

(** The step is the next statement of thread [i], a program of runner [r]. *)
Definition stepped_by (i : nat) (r : string) (s s' : Sys) : Prop :=
  ∃ X (f : TDB -> result X * TDB) k,
    sys_threads s !! i = Some (r, Stmt f k) ∧
    s' = mkSys (f (sys_db s)).2 (<[i := (r, k (f (sys_db s)).1)]> (sys_threads s)).

(** The step of the system, as a step of the runner that makes it on the tables. *)
Definition moved (s s' : Sys) : Prop :=
  (∃ i r, stepped_by i r s s' ∧ guarantee r (sys_db s) (sys_db s')) ∨
  (tasks (sys_db s') = tasks (sys_db s) ∧ tasks_ok (sys_db s')).

Lemma thread_ok_guarantee r db db' th :
  guarantee r db db' -> thread_ok db th -> thread_ok db' th.
Proof. intros Hg (F & HF & HFdb & Hs). exists F. split_and!; [done|by eapply HF|done]. Qed.

Lemma step_preserves s s' : sys_ok s -> step s s' -> sys_ok s' ∧ moved s s'.
Proof.
  intros [Hdb Hth] Hstep. destruct Hstep as [r o db ths|r k i t db ths Hi|r X f k i db ths Hi
    |r X f k i msg db ths Hi|l db ths]; simpl in *.
  - split; [split; [done|]|by right]. apply Forall_app. split; [done|].
    apply Forall_singleton. exists (λ _, True). split_and!; [apply stable_true|done|].
    by apply good_task_op; [apply stable_true|].
  - split; [split; [done|]|by right]. apply Forall_insert; [done|].
    destruct (Forall_lookup_1 _ _ _ _ Hth Hi) as (F & HF & HFdb & Hs).
    exists F. split_and!; [done|done|apply Hs].
  - destruct (Forall_lookup_1 _ _ _ _ Hth Hi) as (F & HF & HFdb & Hs).
    destruct Hs as [_ Hs]. destruct (Hs db Hdb HFdb) as (Hg & F' & HF' & HF'db & Hs').
    split; [split; [apply Hg|]|left; exists i, r; split; [by exists X, f, k|done]].
    apply Forall_insert; [|by exists F'].
    eapply Forall_impl; [exact Hth|]. intros th. by eapply thread_ok_guarantee.
  - split; [split; [done|]|by right]. apply Forall_insert; [done|].
    destruct (Forall_lookup_1 _ _ _ _ Hth Hi) as (F & HF & HFdb & Hs).
    exists F. split_and!; [done|done|apply Hs].
  - pose proof (guarantee_logs "" db l Hdb) as Hg.
    split; [split; [apply Hg|]|right; by split; [|apply Hg]].
    eapply Forall_impl; [exact Hth|]. intros th. by eapply thread_ok_guarantee.
Qed.

(** A system whose tables are in order and in which nothing runs yet. *)
Definition initial (s : Sys) : Prop := tasks_ok (sys_db s) ∧ sys_threads s = [].

Definition reachable (s : Sys) : Prop := ∃ s0, initial s0 ∧ rtc step s0 s.

Lemma reachable_ok s : reachable s -> sys_ok s.
Proof.
  intros (s0 & [Hdb Hth] & Hr).
  assert (sys_ok s0) as H0 by (split; [done|by rewrite Hth]).
  clear Hdb Hth. induction Hr as [|s0 s1 s Hs Hr IH]; [done|]. by apply IH, (step_preserves s0).
Qed.

(** C6. At most one active task per type: in every reachable state, however the
    statements of the nodes interleave, whatever their clocks show and whichever
    statements fail, two tasks of the same type that are pending or running are
    the same task. *)
Theorem at_most_one_active_task s i j t u :
  reachable s -> tasks (sys_db s) !! i = Some t -> tasks (sys_db s) !! j = Some u ->
  is_active_task t = true -> is_active_task u = true -> task_Type t = task_Type u -> i = j.
Proof.
  intros [Hok _]%reachable_ok Ht Hu Hat Hau E.
  apply (ok_unique _ Hok i j t u (task_Type t)); [done|done|..].
  - by rewrite (ok_active _ Hok i t Ht), Hat.
  - by rewrite (ok_active _ Hok j u Hu), Hau, E.
Qed.

(** ** The life of a task *)

Definition rank (s : SystemTaskStatus) : Z :=
  match s with
  | SystemTaskStatusPending => 0
  | SystemTaskStatusRunning => 1
  | _ => 2
  end.

(** [t'] is [t] at the same time or later. *)
Definition later (t t' : SystemTask) : Prop :=
  task_TaskID t' = task_TaskID t ∧ task_Type t' = task_Type t ∧
  task_Payload t' = task_Payload t ∧ task_CreatedAt t' = task_CreatedAt t ∧
  rank (task_Status t) <= rank (task_Status t') ∧
  (terminal (task_Status t) = true -> t' = t) ∧
  (task_Status t = SystemTaskStatusRunning -> task_Status t' ≠ SystemTaskStatusPending ∧
     task_LockedBy t' = task_LockedBy t).

Lemma row_step_later r db t t' : row_step r db t t' -> later t t'.
Proof.
  intros [|now Hs|s now (Hs & _)|st res msg now (Hs & _) Ht|now Hs]; unfold later; simpl;
    rewrite ?Hs; split_and!; try done; try (destruct (task_Status t); done); try lia.
  - by destruct st.
  - intros _. by destruct st.
Qed.

#[local] Instance later_preorder : PreOrder later.
Proof.
  split.
  - intros t. unfold later. split_and!; try done. intros E. by rewrite E.
  - intros t u v (H1 & H2 & H3 & H4 & H5 & H6 & H7) (K1 & K2 & K3 & K4 & K5 & K6 & K7).
    unfold later. split_and!; try congruence; [lia|..].
    + intros Ht. specialize (H6 Ht). subst u. auto.
    + intros Hr. destruct (H7 Hr) as [Hp Hl]. destruct (task_Status u) eqn:E; [done|..].
      * destruct (K7 eq_refl). split; [done|congruence].
      * rewrite (K6 eq_refl). split; [by rewrite E|done].
      * rewrite (K6 eq_refl). split; [by rewrite E|done].
Qed.

Lemma moved_later s s' i t :
  moved s s' -> tasks (sys_db s) !! i = Some t ->
  ∃ t', tasks (sys_db s') !! i = Some t' ∧ later t t'.
Proof.
  intros [(j & r & _ & _ & Hg)|[E _]] Ht.
  - destruct (Hg i t Ht) as (t' & Ht' & Hs). exists t'. split; [done|]. by eapply row_step_later.
  - exists t. rewrite E. by split; [|reflexivity].
Qed.

(** A task moves from pending to running to one final state and never back:
    from a reachable state on, its row stays, with its identity, its status only
    advances, the runner that claimed it stays, and the row of a finished task
    never changes again.  So a task is claimed at most once and finished at most
    once. *)
Theorem task_moves_forward s s' i t :
  reachable s -> rtc step s s' -> tasks (sys_db s) !! i = Some t ->
  ∃ t', tasks (sys_db s') !! i = Some t' ∧ later t t'.
Proof.
  intros Hok%reachable_ok Hr. revert t. induction Hr as [s|s s1 s' Hs Hr IH]; intros t Ht.
  - exists t. by split; [|reflexivity].
  - destruct (step_preserves _ _ Hok Hs) as [Hok1 Hm].
    destruct (moved_later _ _ _ _ Hm Ht) as (t1 & Ht1 & Hl).
    destruct (IH Hok1 t1 Ht1) as (t' & Ht' & Hl'). exists t'. split; [done|by etransitivity].
Qed.

(** C9. Only the lease holder writes results: when a step of the system, in a state it
    can get into, changes a task's state or result, or marks it succeeded, then the task
    was running, the lock row of the task's type names this task and a runner, and the
    step is a statement of a program of exactly that runner, the one that had claimed
    the task. *)
Theorem only_holder_writes s s' i t t' :
  reachable s -> step s s' ->
  tasks (sys_db s) !! i = Some t -> tasks (sys_db s') !! i = Some t' ->
  task_State t' ≠ task_State t ∨ task_Result t' ≠ task_Result t ∨
    (task_Status t' = SystemTaskStatusSucceeded ∧ task_Status t ≠ SystemTaskStatusSucceeded) ->
  ∃ j r, stepped_by j r s s' ∧ holds r (sys_db s) t.
Proof.
  intros Hok%reachable_ok Hs Ht Ht' Hch. destruct (step_preserves _ _ Hok Hs) as [_ Hm].
  destruct Hm as [(j & r & Hj & _ & Hg)|[E _]]; [|naive_solver congruence].
  destruct (Hg i t Ht) as (t1 & Ht1 & Hrow). rewrite Ht' in Ht1. simplify_eq.
  exists j, r. split; [done|].
  destruct Hrow as [|now Hst|st now Hh|st res msg now Hh _|now Hst]; try done; simpl in *; naive_solver.
Qed.
End system.
