(* ===== verification/CleanupProps.v ===== *)
(** * CleanupProps: the log cleanup task, run by its lease holder

    With [RowsAffected] counting matched rows, the two nested loops of
    [runLogCleanupTask] end, all old log rows are gone, the task has succeeded
    with their number and the lock is free.  With MySQL's count of changed rows
    the same run gives up although nothing went wrong. *)

From S2P Require Export TaskSafety.

Section cleanup.
Context {ROWS : RowCount} (now : Z).

(** ** The lease holder *)

Context (Hmatched : counts_matched = true) (r : string) (i : Z) (name : string).

(** Row [t] under id [i] is the running task [name] of [r], its lock valid now. *)
Record leased (t : SystemTask) (db : TDB) : Prop := {
  leased_ok : tasks_ok db;
  leased_row : tasks db !! i = Some t;
  leased_name : task_TaskID t = name;
  leased_holds : holds_task name r now db t = true;
}.

Lemma fmap_one (p : SystemTask -> bool) f t db :
  leased t db -> p t = true -> (∀ u, p u = true -> task_TaskID u = name) ->
  (λ u, if p u then f u else u) <$> tasks db = <[i := f t]> (tasks db).
Proof.
  intros [Hok Ht Hn _] Hp Hu. apply map_eq. intros j. rewrite lookup_fmap.
  destruct (decide (j = i)) as [->|Hne].
  - by rewrite lookup_insert_eq, Ht; simpl; rewrite Hp.
  - rewrite lookup_insert_ne by done. destruct (tasks db !! j) as [u|] eqn:E; [|done]. simpl.
    destruct (p u) eqn:Ep; [|done]. exfalso. apply Hne.
    apply (ok_name _ Hok j i u t); [done|done|]. by rewrite Hn, Hu.
Qed.

Lemma affected_pos (p : SystemTask -> bool) f t db :
  leased t db -> p t = true -> (affected f (task_rows p db) =? 0) = false.
Proof.
  intros [_ Ht _ _] Hp. unfold affected. rewrite Hmatched.
  assert (t ∈ task_rows p db) as Hin by (apply elem_of_rows_where; eauto).
  destruct (task_rows p db); [set_solver|]. simpl. lia.
Qed.

Lemma holds_task_name now' db u : holds_task name r now' db u = true -> task_TaskID u = name.
Proof.
  unfold holds_task. intros H. repeat (apply andb_true_iff in H as [H _]).
  by apply bool_decide_eq_true in H.
Qed.

(** The row after its state was saved, and after it was finished. *)
Definition with_state (s : Json) (t : SystemTask) : SystemTask :=
  mkTask (task_ID t) (task_TaskID t) (task_Type t) (task_Status t) (task_ActiveKey t)
    (task_Payload t) s (task_Result t) (task_Error t) (task_LockedBy t) (task_CreatedAt t) now.
Definition finished (res : Json) (t : SystemTask) : SystemTask :=
  mkTask (task_ID t) (task_TaskID t) (task_Type t) SystemTaskStatusSucceeded None
    (task_Payload t) (task_State t) res "" (task_LockedBy t) (task_CreatedAt t) now.

Definition put_task (t : SystemTask) (db : TDB) : TDB := with_tasks (<[i := t]> (tasks db)) db.

Lemma leased_put s t db : leased t db -> leased (with_state s t) (put_task (with_state s t) db).
Proof.
  intros Hl. pose proof Hl as [Hok Ht Hn Hh]. split; simpl; [|by rewrite lookup_insert_eq|done|].
  - assert (guarantee r db (update_tasks (holds_task name r now) (with_state s) db).2) as [Hg _].
    { apply update_tasks_guarantee; [done|]. intros j u Hu E. apply row_saved.
      by eapply holds_task_holds. }
    simpl in Hg. by rewrite (fmap_one (holds_task name r now db) _ t db) in Hg
      by eauto using holds_task_name.
  - exact Hh.
Qed.

Lemma run_UpdateState s t db :
  leased t db ->
  run now (UpdateSystemTaskState name r (Ok s)) db =
    (Ok tt, put_task (with_state s t) db).
Proof.
  intros Hl. unfold UpdateSystemTaskState. do 3 (rewrite run_bind, ?run_return, ?run_now; cbv beta iota). rewrite run_stmt.
  cbn -[task_rows affected holds_task].
  rewrite (affected_pos (holds_task name r now db) _ t) by (try done; apply Hl).
  rewrite (fmap_one (holds_task name r now db) _ t db) by (eauto using holds_task_name, leased_holds).
  done.
Qed.

Definition free_locks (db : TDB) : gmap string SystemTaskLock :=
  filter (λ kl : string * SystemTaskLock, (bool_decide (lock_TaskID kl.2 = name) &&
    bool_decide (lock_LockedBy kl.2 = r)) = false) (locks db).

Lemma run_Finish res t db :
  leased t db ->
  run now (FinishSystemTask name r SystemTaskStatusSucceeded (Ok res) "") db =
    (Ok tt, with_locks (free_locks db) (put_task (finished res t) db)).
Proof.
  intros Hl. unfold FinishSystemTask. do 3 (rewrite run_bind, ?run_return, ?run_now; cbv beta iota). rewrite run_stmt.
  cbn -[task_rows affected holds_task].
  rewrite (affected_pos (holds_task name r now db) _ t) by (try done; apply Hl).
  rewrite (fmap_one (holds_task name r now db) _ t db) by (eauto using holds_task_name, leased_holds).
  done.
Qed.

(** ** Log rows *)

Definition is_old (target t : Z) : bool := t <? target.
Definition count_old (target : Z) (l : list Z) : Z := Z.of_nat (length (List.filter (is_old target) l)).
Definition kept (target : Z) (l : list Z) : list Z := List.filter (λ t, negb (is_old target t)) l.

Lemma count_old_cons target x l :
  count_old target (x :: l) = (if is_old target x then 1 else 0) + count_old target l.
Proof. unfold count_old; simpl. destruct (is_old target x); simpl; lia. Qed.

Lemma kept_all target l : count_old target l = 0 -> kept target l = l.
Proof.
  induction l as [|x l IH]; [done|]. rewrite count_old_cons. unfold kept; simpl.
  destruct (is_old target x); simpl; intros H; [unfold count_old in H; lia|].
  f_equal. apply IH. lia.
Qed.

Lemma count_old_kept target l : count_old target (kept target l) = 0.
Proof.
  induction l as [|x l IH]; [done|]. unfold kept; simpl.
  destruct (is_old target x) eqn:E; simpl; [done|]. rewrite count_old_cons, E. done.
Qed.

Lemma drop_old_spec target n l :
  Z.of_nat (length l) - Z.of_nat (length (drop_old target n l)) = Z.min (Z.of_nat n) (count_old target l) ∧
  count_old target (drop_old target n l) = count_old target l - Z.min (Z.of_nat n) (count_old target l) ∧
  kept target (drop_old target n l) = kept target l.
Proof.
  revert n. induction l as [|x l IH]; intros [|n]; simpl drop_old.
  - done.
  - unfold count_old; simpl. split_and!; (done || lia).
  - unfold count_old. split_and!; (done || lia).
  - change (x <? target) with (is_old target x). destruct (is_old target x) eqn:E.
    + destruct (IH n) as (H1 & H2 & H3). rewrite !count_old_cons, E. cbn [length].
      split_and!; [lia|lia|]. rewrite H3. unfold kept; simpl. by rewrite E.
    + destruct (IH (S n)) as (H1 & H2 & H3). rewrite !count_old_cons, E. cbn [length].
      split_and!; [lia|lia|]. unfold kept in *; simpl. by rewrite E; simpl; rewrite H3.
Qed.

Lemma run_Count target db : run now (CountOldLog target) db = (Ok (count_old target (log_times db)), db).
Proof. done. Qed.

Lemma run_Delete ch target batch db :
  0 < batch -> 0 < count_old target (log_times db) ->
  ∃ d l, run now (DeleteOldLogBatch ch target batch) db = (Ok d, with_logs l db) ∧
    0 < d <= count_old target (log_times db) ∧
    count_old target l = count_old target (log_times db) - d ∧
    kept target l = kept target (log_times db).
Proof.
  intros Hb Ho. unfold DeleteOldLogBatch. destruct (batch <=? 0) eqn:E; [lia|]. destruct ch.
  - rewrite run_bind, run_Count. cbv beta iota.
    destruct (Z.eqb_spec (count_old target (log_times db)) 0) as [|_]; [lia|].
    exists (count_old target (log_times db)), (kept target (log_times db)).
    split; [done|]. split; [lia|]. rewrite count_old_kept, (kept_all _ (kept target _)) by apply count_old_kept.
    split; [lia|done].
  - destruct (drop_old_spec target (Z.to_nat batch) (log_times db)) as (H1 & H2 & H3).
    rewrite run_stmt. exists (Z.min (Z.of_nat (Z.to_nat batch)) (count_old target (log_times db))).
    exists (drop_old target (Z.to_nat batch) (log_times db)).
    split; [by rewrite H1|]. split; [lia|]. done.
Qed.

(** ** The loops *)

Context (ch : bool) (task : SystemTask) (target batch : Z)
  (Htask : task_TaskID task = name) (Hbatch : 0 < batch).

(** The database with the state saved and the given log rows left. *)
Definition after (s : LogCleanupState) (l : list Z) (t : SystemTask) (db : TDB) : TDB :=
  with_logs l (put_task (with_state (state_json s) t) db).

Lemma leased_logs l t db : leased t db -> leased t (with_logs l db).
Proof.
  intros [Hok Ht Hn Hh]. split; [|done..]. by destruct (guarantee_logs r db l Hok).
Qed.

Lemma leased_after s l t db :
  leased t db -> leased (with_state (state_json s) t) (after s l t db).
Proof. intros. by apply leased_logs, leased_put. Qed.

Lemma run_save s s' l l' t db :
  leased t db ->
  run now (UpdateSystemTaskState name r (Ok (state_json s'))) (with_logs l' (after s l t db)) =
    (Ok tt, after s' l' t db).
Proof.
  intros Hl. rewrite (run_UpdateState _ (with_state (state_json s) t))
    by (by apply leased_logs, leased_after).
  unfold after, put_task, with_logs, with_tasks; simpl. by rewrite insert_insert_eq.
Qed.

(** [m] of [n] rows are left. *)
Definition progress_of (n m : Z) : LogCleanupState :=
  mkCleanup n (n - m) (logCleanupProgress (n - m) n) m.

Lemma deleted_rows_progress n m d :
  0 <= m <= n -> n < 2 ^ 62 -> 0 < d <= m -> deleted_rows d (progress_of n m) = progress_of n (m - d).
Proof.
  intros Hm Hn Hd. unfold deleted_rows, progress_of; simpl.
  rewrite !wrap64_id by (unfold int64_range; lia).
  replace (n - m + d) with (n - (m - d)) by lia.
  destruct (Z.ltb_spec n (n - (m - d))); [lia|]. f_equal. destruct (Z.ltb_spec d m); lia.
Qed.

Lemma run_delete_batches n t db fuel : ∀ m l b,
  leased t db -> count_old target l = m -> 0 <= m <= n -> n < 2 ^ 62 -> (Z.to_nat m <= fuel)%nat ->
  run now (delete_batches ch task r target batch fuel (progress_of n m) b)
    (after (progress_of n m) l t db) =
  (Ok (Some (progress_of n 0, b || (0 <? m))), after (progress_of n 0) (kept target l) t db).
Proof.
  induction fuel as [|fuel IH]; intros m l b Hl Hc Hm Hn Hf.
  - assert (m = 0) as -> by lia. simpl. rewrite orb_false_r, kept_all by done. done.
  - cbn [delete_batches]. change (cl_Remaining (progress_of n m)) with m.
    destruct (Z.leb_spec m 0).
    { assert (m = 0) as -> by lia. rewrite kept_all by done. simpl. by rewrite orb_false_r. }
    rewrite run_bind, run_attempt.
    destruct (run_Delete ch target batch (after (progress_of n m) l t db)) as (d & l' & Hr & Hd & Hc' & Hk);
      [done|simpl; lia|]. simpl log_times in Hd, Hc', Hk. rewrite Hr. cbv beta iota.
    destruct (Z.eqb_spec d 0); [lia|]. cbv zeta.
    rewrite deleted_rows_progress by lia. rewrite run_bind, run_attempt, Htask.
    rewrite run_save by done. cbv beta iota. rewrite IH by (done || lia). rewrite Hk.
    destruct (Z.ltb_spec 0 m); [|lia]. by rewrite orb_true_r.
Qed.

Lemma sync_first m s :
  cl_Total s <= 0 -> 0 <= m -> syncLogCleanupStateFromRemaining s m = progress_of m m.
Proof.
  intros Hs Hm. unfold syncLogCleanupStateFromRemaining, progress_of.
  destruct (Z.leb_spec (cl_Total s) 0); [|lia]. by rewrite Z.sub_diag.
Qed.

Lemma sync_last n : 0 < n < 2 ^ 62 -> syncLogCleanupStateFromRemaining (progress_of n 0) 0 = progress_of n 0.
Proof.
  intros Hn. unfold syncLogCleanupStateFromRemaining, progress_of; simpl.
  destruct (Z.leb_spec n 0); [lia|]. rewrite Z.sub_0_r, wrap64_id by (unfold int64_range; lia).
  rewrite Z.ltb_irrefl. destruct (Z.ltb_spec n 0); [lia|done].
Qed.

Lemma run_cleanup_passes t db s fuel :
  leased t db -> cl_Total s <= 0 -> count_old target (log_times db) < 2 ^ 62 ->
  (Z.to_nat (count_old target (log_times db)) + 2 <= fuel)%nat ->
  run now (cleanup_passes ch task r target batch fuel s) db =
    (Ok (Some (progress_of (count_old target (log_times db)) 0)),
     after (progress_of (count_old target (log_times db)) 0) (kept target (log_times db)) t db).
Proof.
  intros Hl Hs Hn Hf. set (n := count_old target (log_times db)) in *.
  assert (0 <= n) as Hn0 by (unfold n, count_old; lia).
  destruct fuel as [|[|fuel]]; [lia..|]. cbn [cleanup_passes].
  rewrite run_bind, run_attempt, run_Count. cbv beta iota zeta. fold n.
  rewrite sync_first by done. rewrite run_bind, run_attempt, Htask, (run_UpdateState _ t) by done.
  change (put_task (with_state (state_json (progress_of n n)) t) db)
    with (after (progress_of n n) (log_times db) t db). cbv beta iota.
  change (cl_Remaining (progress_of n n)) with n. destruct (Z.eqb_spec n 0) as [E|E].
  { rewrite E, kept_all by (fold n; lia). done. }
  rewrite run_bind. rewrite (run_delete_batches n t db (S (S fuel)) n (log_times db) false) by (done || lia).
  destruct (Z.ltb_spec 0 n); [|lia]. cbv beta iota. cbn [orb].
  rewrite run_bind, run_attempt, run_Count. cbv beta iota zeta.
  change (log_times (after (progress_of n 0) (kept target (log_times db)) t db))
    with (kept target (log_times db)). rewrite count_old_kept, sync_last by lia.
  rewrite run_bind, run_attempt.
  change (after (progress_of n 0) (kept target (log_times db)) t db)
    with (with_logs (kept target (log_times db))
            (after (progress_of n 0) (kept target (log_times db)) t db)) at 1.
  rewrite run_save by done. done.
Qed.

(** The task's row once the cleanup is through. *)
Definition cleaned (n : Z) (t : SystemTask) : SystemTask :=
  finished (JObject [("deleted_count", n)]) (with_state (state_json (mkCleanup n n 100 0)) t).
End cleanup.

(** The log cleanup terminates and does its work: run by the holder of the
    lease on a task that has not started yet, with a database that counts matched
    rows, [runLogCleanupTask] ends (the number of old rows plus two bounds the
    rounds of its loops), exactly the log rows older than the target are gone,
    the task has succeeded and reports their number, and the lock is released. *)
Theorem cleanup_completes {ROWS : RowCount} now r i task db target batch fields ch fuel :
  counts_matched = true ->
  leased now r i (task_TaskID task) task db ->
  task_Payload task = payload_json target batch -> 0 < target ->
  decode_fields (task_State task) = Ok fields -> cl_Total (decode_state fields) <= 0 ->
  count_old target (log_times db) < 2 ^ 62 ->
  (Z.to_nat (count_old target (log_times db)) + 2 <= fuel)%nat ->
  run now (runLogCleanupTask fuel ch task r) db =
    (Ok tt, mkTDB (<[i := cleaned now (count_old target (log_times db)) task]> (tasks db))
              (next_task db) (free_locks r (task_TaskID task) db)
              (kept target (log_times db))).
Proof.
  intros Hm Hl Hp Ht Hf Hs Hn Hfuel. unfold runLogCleanupTask. rewrite Hp, Hf. cbn [decode_fields payload_json].
  change (json_field "target_timestamp" _) with target. change (json_field "batch_size" _) with batch.
  set (n := count_old target (log_times db)) in *.
  assert (0 <= n) as Hn0 by (unfold n, count_old; lia).
  destruct (Z.leb_spec target 0); [lia|].
  set (b := if batch <=? 0 then logCleanupBatchSize else batch).
  assert (0 < b) as Hb by (unfold b; destruct (Z.leb_spec batch 0); [done|lia]).
  rewrite run_bind, (run_cleanup_passes now Hm r i (task_TaskID task) ch task target b eq_refl Hb task db)
    by done. fold n. cbv beta iota zeta.
  change (cl_Processed (progress_of n 0)) with (n - 0). change (cl_Total (progress_of n 0)) with n.
  rewrite Z.sub_0_r, Z.ltb_irrefl. rewrite run_bind, run_attempt.
  change (after now i (progress_of n 0) (kept target (log_times db)) task db)
    with (with_logs (kept target (log_times db))
            (after now i (progress_of n 0) (kept target (log_times db)) task db)) at 1.
  rewrite (run_save now Hm r i (task_TaskID task)) by done. cbv beta iota. cbn [cl_Processed].
  rewrite run_bind, run_attempt. rewrite (run_Finish now Hm r i (task_TaskID task) _
    (with_state now (state_json (mkCleanup n n 100 0)) task)) by (by apply leased_after).
  unfold cleaned, after, put_task, with_logs, with_tasks, with_locks, free_locks; simpl.
  by rewrite insert_insert_eq.
Qed.

(** ** A concrete task *)

Definition cleanup_task (now : Z) : SystemTask :=
  mkTask 3 "systask_a" SystemTaskTypeLogCleanup SystemTaskStatusRunning (Some "log_cleanup")
    (payload_json 1000 100) (state_json (mkCleanup 0 0 0 0)) JEmpty "" "node-1" now now.

Definition cleanup_db (now : Z) : TDB :=
  mkTDB {[3 := cleanup_task now]} 4
    {["log_cleanup" := mkLock "log_cleanup" "systask_a" "node-1" (now + 60) now]}
    [500; 1500; 700].

(** Defect with MySQL: [RowsAffected] counts changed rows there, and the
    cleanup saves the same state again within the same second.  Although the
    runner holds its lease and every old row was deleted, the save counts as a
    lost lock: the task stays running and locked, and once the lease has run out
    it is marked failed.  With matched rows the same run succeeds. *)
Theorem mysql_cleanup_lost :
  let outcome (matched : bool) :=
    run 5000 (@runLogCleanupTask {| counts_matched := matched |} 10 false (cleanup_task 5000) "node-1")
      (cleanup_db 5000) in
  let expire := @ExpireStaleSystemTaskLocks {| counts_matched := false |} 5061 in
  let failed := run 5061 expire (outcome false).2 in
  log_times (outcome false).2 = [1500] ∧
  task_Status <$> tasks (outcome false).2 !! 3 = Some SystemTaskStatusRunning ∧
  task_Status <$> tasks failed.2 !! 3 = Some SystemTaskStatusFailed ∧
  task_Error <$> tasks failed.2 !! 3 = Some "task lease expired" ∧
  log_times (outcome true).2 = [1500] ∧
  task_Status <$> tasks (outcome true).2 !! 3 = Some SystemTaskStatusSucceeded ∧
  task_Result <$> tasks (outcome true).2 !! 3 = Some (JObject [("deleted_count", 2)]).
Proof. vm_compute. done. Qed.
