(* ===== verification/MediaTask.v ===== *)
(** * MediaTask: asynchronous media tasks, their polling and their billing

    Models [model/task.go], [service/task_billing.go], [service/task_polling.go] and
    [tryRealtimeFetch] of [relay/relay_task.go].  A task is paid for when it is
    submitted; a poller asks the upstream how it stands, and on its end either
    settles the difference to what it really cost or gives the quota back.  Several
    nodes and requests work on the table [tasks] at once, so the functions are
    programs whose statements interleave; billing a task is one step of them.

    Outside the repository, or pure input and output, and so parameters: what an
    upstream answers, how an adaptor and the JSON decoder read it, and the ratios of
    the settings. *)

From stdpp Require Export sorting.
From S2P Require Export Effects.
From S2P Require Export GoString.
From S2P Require Export Subscription.
From S2P Require Import Prelude.

(** ** Data ([model/task.go]) *)

Definition TaskStatusNotStart : string := "NOT_START".
Definition TaskStatusSubmitted : string := "SUBMITTED".
Definition TaskStatusQueued : string := "QUEUED".
Definition TaskStatusInProgress : string := "IN_PROGRESS".
Definition TaskStatusFailure : string := "FAILURE".
Definition TaskStatusSuccess : string := "SUCCESS".
Definition TaskStatusUnknown : string := "UNKNOWN".

Definition ToVideoStatus (t : string) : string :=
  if bool_decide (t = TaskStatusQueued) || bool_decide (t = TaskStatusSubmitted) then "queued"
  else if bool_decide (t = TaskStatusInProgress) then "in_progress"
  else if bool_decide (t = TaskStatusSuccess) then "completed"
  else if bool_decide (t = TaskStatusFailure) then "failed"
  else "unknown".

Record Properties : Type := mkProperties {
  Input : string;
  UpstreamModelName : string;
  OriginModelName : string;
}.

(** [OtherRatios] in the order a [range] loop visits it. *)
Record TaskBillingContext : Type := mkBillingContext {
  bc_ModelPrice : float64;
  bc_GroupRatio : float64;
  bc_ModelRatio : float64;
  bc_OtherRatios : list (string * float64);
  bc_OriginModelName : string;
  PerCallBilling : bool;
}.

Record TaskPrivateData : Type := mkPrivate {
  pd_Key : string;
  UpstreamTaskID : string;
  ResultURL : string;
  BillingSource : string;
  SubscriptionId : Z;
  TokenId : Z;
  NodeName : string;
  BillingContext : option TaskBillingContext;
}.

(** The columns but [created_at] and [updated_at], which GORM fills in. *)
Record Task : Type := mkTask {
  ID : Z;
  TaskID : string;
  Platform : string;
  UserId : Z;
  Group : string;
  ChannelId : Z;
  Quota : Z;
  Action : string;
  Status : string;
  FailReason : string;
  SubmitTime : Z;
  StartTime : Z;
  FinishTime : Z;
  Progress : string;
  Props : Properties;
  PrivateData : TaskPrivateData;
  Data : string;
}.

(** Assigning the fields that polling assigns. *)
Definition with_status (status progress : string) (t : Task) : Task :=
  mkTask (ID t) (TaskID t) (Platform t) (UserId t) (Group t) (ChannelId t) (Quota t) (Action t)
    status (FailReason t) (SubmitTime t) (StartTime t) (FinishTime t) progress (Props t)
    (PrivateData t) (Data t).
Definition with_reason (reason : string) (t : Task) : Task :=
  mkTask (ID t) (TaskID t) (Platform t) (UserId t) (Group t) (ChannelId t) (Quota t) (Action t)
    (Status t) reason (SubmitTime t) (StartTime t) (FinishTime t) (Progress t) (Props t)
    (PrivateData t) (Data t).
Definition with_times (submit start finish : Z) (t : Task) : Task :=
  mkTask (ID t) (TaskID t) (Platform t) (UserId t) (Group t) (ChannelId t) (Quota t) (Action t)
    (Status t) (FailReason t) submit start finish (Progress t) (Props t) (PrivateData t) (Data t).
Definition with_data (data : string) (t : Task) : Task :=
  mkTask (ID t) (TaskID t) (Platform t) (UserId t) (Group t) (ChannelId t) (Quota t) (Action t)
    (Status t) (FailReason t) (SubmitTime t) (StartTime t) (FinishTime t) (Progress t) (Props t)
    (PrivateData t) data.
Definition with_quota (quota : Z) (t : Task) : Task :=
  mkTask (ID t) (TaskID t) (Platform t) (UserId t) (Group t) (ChannelId t) quota (Action t)
    (Status t) (FailReason t) (SubmitTime t) (StartTime t) (FinishTime t) (Progress t) (Props t)
    (PrivateData t) (Data t).
Definition with_url (url : string) (t : Task) : Task :=
  let p := PrivateData t in
  mkTask (ID t) (TaskID t) (Platform t) (UserId t) (Group t) (ChannelId t) (Quota t) (Action t)
    (Status t) (FailReason t) (SubmitTime t) (StartTime t) (FinishTime t) (Progress t) (Props t)
    (mkPrivate (pd_Key p) (UpstreamTaskID p) url (BillingSource p) (SubscriptionId p) (TokenId p)
      (NodeName p) (BillingContext p)) (Data t).

Definition GetUpstreamTaskID (t : Task) : string :=
  if decide (UpstreamTaskID (PrivateData t) = "") then TaskID t else UpstreamTaskID (PrivateData t).

Definition GetResultURL (t : Task) : string :=
  if decide (ResultURL (PrivateData t) = "") then FailReason t else ResultURL (PrivateData t).

Record taskSnapshot : Type := mkSnapshot {
  sn_Status : string;
  sn_Progress : string;
  sn_StartTime : Z;
  sn_FinishTime : Z;
  sn_FailReason : string;
  sn_ResultURL : string;
  sn_Data : string;
}.
#[export] Instance taskSnapshot_eq_dec : EqDecision taskSnapshot.
Proof. solve_decision. Defined.

Definition Snapshot (t : Task) : taskSnapshot :=
  mkSnapshot (Status t) (Progress t) (StartTime t) (FinishTime t) (FailReason t)
    (ResultURL (PrivateData t)) (Data t).
Definition Equal (s other : taskSnapshot) : bool := bool_decide (s = other).

(** What [RecordTaskBillingLog] writes to the table [logs]; [Other] without the
    price parameters. *)
Record TaskLog : Type := mkTaskLog {
  tl_UserId : Z;
  tl_Username : string;
  tl_CreatedAt : Z;
  tl_Type : Z;
  tl_Content : string;
  tl_ModelName : string;
  tl_Quota : Z;
  tl_ChannelId : Z;
  tl_TokenId : Z;
  tl_Group : string;
  tl_TaskId : string;
  tl_Reason : string;
}.

(** The two ways a task is billed at its end. *)
Inductive Bill : Type := Refunded | Settled.
#[export] Instance Bill_eq_dec : EqDecision Bill.
Proof. solve_decision. Defined.

(** The table, the state of the billing core and the log rows; [mt_billed] is the
    history of the billing steps, by row id, which no code reads. *)
Record MT : Type := mkMT {
  mt_tasks : gmap Z Task;
  mt_next : Z;
  mt_world : World;
  mt_logs : list TaskLog;
  mt_billed : list (Z * Bill);
}.

Definition set_mt_tasks (v : gmap Z Task) (s : MT) : MT :=
  mkMT v (mt_next s) (mt_world s) (mt_logs s) (mt_billed s).
Definition set_mt_world (v : World) (s : MT) : MT :=
  mkMT (mt_tasks s) (mt_next s) v (mt_logs s) (mt_billed s).
Definition add_mt_log (l : TaskLog) (s : MT) : MT :=
  mkMT (mt_tasks s) (mt_next s) (mt_world s) (mt_logs s ++ [l]) (mt_billed s).
Definition add_bill (id : Z) (b : Bill) (s : MT) : MT :=
  mkMT (mt_tasks s) (mt_next s) (mt_world s) (mt_logs s) (mt_billed s ++ [(id, b)]).

#[export] Instance mt_store : Store MT := {|
  st_faults s := World_faults (mt_world s);
  st_set_faults fs s := set_mt_world (set_World_faults fs (mt_world s)) s;
  st_rollback before after :=
    mkMT (mt_tasks before) (mt_next after) (set_World_db (World_db (mt_world before)) (mt_world after))
      (mt_logs before) (mt_billed after);
|}.

#[export] Instance mt_store_laws : StoreLaws MT.
Proof. split. by intros [? ? [] ? ?]. Qed.

(** A function of the billing core, on the state with the tasks. *)
Definition in_world {A} (m : GM A) : M MT A := λ s,
  let '(r, w) := m (mt_world s) in (r, set_mt_world w s).

(** ** Queries and updates ([model/task.go]) *)

Definition is_final (status : string) : bool :=
  bool_decide (status = TaskStatusFailure) || bool_decide (status = TaskStatusSuccess).
Definition unfinished (t : Task) : bool :=
  negb (bool_decide (Progress t = "100%")) && negb (is_final (Status t)).

Definition submitted_before (t u : Task) : Prop := SubmitTime t <= SubmitTime u.
#[export] Instance submitted_before_dec t u : Decision (submitted_before t u).
Proof. unfold submitted_before. apply _. Defined.
Definition id_below (t u : Task) : Prop := ID t <= ID u.
#[export] Instance id_below_dec t u : Decision (id_below t u).
Proof. unfold id_below. apply _. Defined.

Definition task_rows (p : Task -> bool) (s : MT) : list Task :=
  List.filter p (map_to_list (mt_tasks s)).*2.

(** A failing query gives no rows. *)
Definition find_tasks (f : MT -> list Task) : prog MT (list Task) :=
  let* r := pattempt (stmt (select f)) in
  pret (match r with Ok l => l | Err _ => [] end).

Definition GetTimedOutUnfinishedTasks (cutoffUnix : Z) (limit : nat) : prog MT (list Task) :=
  find_tasks (λ s, take limit (merge_sort submitted_before
    (task_rows (λ t, unfinished t && (SubmitTime t <? cutoffUnix)) s))).

Definition GetAllUnFinishSyncTasks (limit : nat) : prog MT (list Task) :=
  find_tasks (λ s, take limit (merge_sort id_below (task_rows unfinished s))).

Definition HasUnfinishedSyncTasks : prog MT bool :=
  let* r := pattempt (stmt (select (λ s, existsb (λ t, negb (ID t =? 0)) (task_rows unfinished s)))) in
  pret (match r with Ok b => b | Err _ => false end).

Definition insert_media (t : Task) (s : MT) : MT :=
  let t := mkTask (mt_next s) (TaskID t) (Platform t) (UserId t) (Group t) (ChannelId t) (Quota t)
    (Action t) (Status t) (FailReason t) (SubmitTime t) (StartTime t) (FinishTime t) (Progress t)
    (Props t) (PrivateData t) (Data t) in
  mkMT (<[mt_next s := t]> (mt_tasks s)) (mt_next s + 1) (mt_world s) (mt_logs s) (mt_billed s).

Definition Insert (t : Task) : prog MT unit := stmt (update (insert_media t)).

(** [Save]: writes the row, inserting it when it is gone. *)
Definition Update (t : Task) : prog MT unit :=
  stmt (update (λ s, set_mt_tasks (<[ID t := t]> (mt_tasks s)) s)).

(** The update that only happens while the row has the status [fromStatus]. *)
Definition cas (t : Task) (fromStatus : string) (s : MT) : result bool * MT :=
  match mt_tasks s !! ID t with
  | Some row =>
      if decide (Status row = fromStatus)
      then (Ok true, set_mt_tasks (<[ID t := t]> (mt_tasks s)) s)
      else (Ok false, s)
  | None => (Ok false, s)
  end.
Definition UpdateWithStatus (t : Task) (fromStatus : string) : prog MT bool :=
  stmt (exec (cas t fromStatus)).

(** The columns the callers of the bulk update write. *)
Definition fail_rows (ids : list Z) (reason : option string) (s : MT) : MT :=
  set_mt_tasks (map_imap (λ id t,
    if decide (id ∈ ids)
    then Some (with_status TaskStatusFailure "100%" (with_reason (default (FailReason t) reason) t))
    else Some t) (mt_tasks s)) s.
Definition TaskBulkUpdateByID (ids : list Z) (reason : option string) : prog MT unit :=
  match ids with
  | [] => pret tt
  | _ => stmt (update (fail_rows ids reason))
  end.

(** ** Billing ([service/task_billing.go]) *)

Definition BillingSourceSubscription : string := "subscription".
Definition LogTypeRefund : Z := 6.

(** [ratio_setting]: the ratio of a model and whether it is configured, the ratio of
    a group, and that of a user group for a group. *)
Class TaskRatios := {
  GetModelRatio : string -> float64 * bool;
  GetGroupRatio : string -> float64;
  GetGroupGroupRatio : string -> string -> option float64;
}.

Section billing.
Context {CFG : Config} {RT : TaskRatios}.

(** The token's key, empty when there is none. *)
Definition resolveTokenKey (tokenId : Z) : GM string :=
  let! r := attempt (GetTokenById tokenId) in
  ret (match r with Ok t => Token_Key t | Err _ => "" end).

Definition taskIsSubscription (t : Task) : bool :=
  bool_decide (BillingSource (PrivateData t) = BillingSourceSubscription)
  && (0 <? SubscriptionId (PrivateData t)).

(** [delta > 0] charges, [delta < 0] gives back. *)
Definition taskAdjustFunding (t : Task) (delta : Z) : GM unit :=
  if taskIsSubscription t then PostConsumeUserSubscriptionDelta (SubscriptionId (PrivateData t)) delta
  else if 0 <? delta then DecreaseUserQuota (UserId t) delta false
  else IncreaseUserQuota (UserId t) (wrap64 (- delta)) false.

Definition taskAdjustTokenQuota (t : Task) (delta : Z) : GM unit :=
  let tokenId := TokenId (PrivateData t) in
  if (tokenId <=? 0) || (delta =? 0) then ret tt
  else
    let! tokenKey := resolveTokenKey tokenId in
    if decide (tokenKey = "") then ret tt
    else ignore (if 0 <? delta then DecreaseTokenQuota tokenId tokenKey delta
                 else IncreaseTokenQuota tokenId tokenKey (wrap64 (- delta))).

Definition taskModelName (t : Task) : string :=
  match BillingContext (PrivateData t) with
  | Some bc => if decide (bc_OriginModelName bc = "") then OriginModelName (Props t) else bc_OriginModelName bc
  | None => OriginModelName (Props t)
  end.

(** Looking up the token only asks for its name, which is left out. *)
Definition RecordTaskBillingLog (t : Task) (logType : Z) (content reason : string) (quota : Z)
    : M MT unit :=
  if (logType =? LogTypeConsume) && negb LogConsumeEnabled then ret tt
  else
    let! username := attempt (in_world (GetUsernameById (UserId t) false)) in
    do! (if 0 <? TokenId (PrivateData t)
         then do! attempt (in_world (GetTokenById (TokenId (PrivateData t)))) in ret tt
         else ret tt) in
    let! now := in_world GetTimestamp in
    do! attempt (update (add_mt_log (mkTaskLog (UserId t)
          (match username with Ok name => name | Err _ => "" end) now logType content (taskModelName t)
          quota (ChannelId t) (TokenId (PrivateData t)) (Group t) (TaskID t) reason))) in
    ret tt.

Definition RefundTaskQuota (t : Task) (reason : string) : M MT unit :=
  let quota := Quota t in
  if quota =? 0 then ret tt
  else
    let! r := attempt (in_world (taskAdjustFunding t (wrap64 (- quota)))) in
    match r with
    | Err _ => ret tt
    | Ok _ =>
        do! in_world (taskAdjustTokenQuota t (wrap64 (- quota))) in
        RecordTaskBillingLog t LogTypeRefund "" reason quota
    end.

(** The task object, its quota replaced. *)
Definition RecalculateTaskQuota (t : Task) (actualQuota : Z) (reason : string) : M MT Task :=
  if actualQuota <=? 0 then ret t
  else
    let quotaDelta := wrap64 (actualQuota - Quota t) in
    if quotaDelta =? 0 then ret t
    else
      let! r := attempt (in_world (taskAdjustFunding t quotaDelta)) in
      match r with
      | Err _ => ret t
      | Ok _ =>
          do! in_world (taskAdjustTokenQuota t quotaDelta) in
          let t' := with_quota actualQuota t in
          if 0 <? quotaDelta then
            do! in_world (UpdateUserUsedQuotaAndRequestCount (UserId t) quotaDelta) in
            do! in_world (UpdateChannelUsedQuota (ChannelId t) quotaDelta) in
            do! RecordTaskBillingLog t' LogTypeConsume reason "" quotaDelta in ret t'
          else
            do! RecordTaskBillingLog t' LogTypeRefund reason "" (wrap64 (- quotaDelta)) in ret t'
      end.

(** The product of the ratios that are neither 1 nor below 0. *)
Definition otherMultiplier (bc : option TaskBillingContext) : float64 :=
  foldl (λ acc r, if negb (feqb r (float_of_int 1)) && fltb fzero r then fmul acc r else acc)
    (float_of_int 1) (match bc with Some bc => (bc_OtherRatios bc).*2 | None => [] end).

(** The text of the log entry is left out. *)
Definition RecalculateTaskQuotaByTokens (t : Task) (totalTokens : Z) : M MT Task :=
  if totalTokens <=? 0 then ret t
  else
    let '(modelRatio, hasRatioSetting) := GetModelRatio (taskModelName t) in
    if negb hasRatioSetting || fleb modelRatio fzero then ret t
    else
      let! group := (if decide (Group t = "")
                     then let! u := attempt (in_world (GetUserById (UserId t) false)) in
                          ret (match u with Ok u => User_Group u | Err _ => "" end)
                     else ret (Group t)) in
      if decide (group = "") then ret t
      else
        let finalGroupRatio := default (GetGroupRatio group) (GetGroupGroupRatio group group) in
        let actualQuota := int_of_float
          (fmul (fmul (fmul (float_of_int totalTokens) modelRatio) finalGroupRatio)
             (otherMultiplier (BillingContext (PrivateData t)))) in
        RecalculateTaskQuota t actualQuota "token重算".

(** A billing function as one step of a program, entered in the history. *)
Definition bill {A} (id : Z) (b : Bill) (m : M MT A) : prog MT A :=
  stmt (λ s, let '(r, s') := m s in (r, add_bill id b s')).

(** ** Polling ([service/task_polling.go]) *)

(** [relaycommon.TaskInfo] *)
Record TaskInfo : Type := mkTaskInfo {
  ti_Status : string;
  ti_Reason : string;
  ti_Url : string;
  ti_Progress : string;
  ti_TotalTokens : Z;
}.

Definition FailTaskInfo (reason : string) : TaskInfo := mkTaskInfo "FAILURE" reason "" "" 0.

(** What the poller of one channel sees: whether its context is cancelled when it
    comes to the [n]-th task; the body the upstream answers then, or the errors of
    asking and of reading; the body as a task of another gateway of this kind; the
    adaptor's reading of it; the error object in it, if it is an object, and the
    object's code; the body with its video data cut; what the adaptor says a finished
    task costs. *)
Record Upstream : Type := mkUpstream {
  cancelled : nat -> bool;
  FetchTask : nat -> Task -> result (result string);
  as_new_api : string -> option Task;
  ParseTaskResult : string -> result TaskInfo;
  as_error : string -> option (option string);
  redactVideoResponseBody : string -> string;
  AdjustBillingOnComplete : Task -> TaskInfo -> Z;
}.

Definition ctx_cancelled : error := EText "context canceled".

Definition settleTaskBillingOnComplete (up : Upstream) (t : Task) (taskResult : TaskInfo) : M MT Task :=
  if match BillingContext (PrivateData t) with Some bc => PerCallBilling bc | None => false end
  then ret t
  else
    let actualQuota := AdjustBillingOnComplete up t taskResult in
    if 0 <? actualQuota then RecalculateTaskQuota t actualQuota "adaptor计费调整"
    else if 0 <? ti_TotalTokens taskResult then RecalculateTaskQuotaByTokens t (ti_TotalTokens taskResult)
    else ret t.

Context (ServerAddress : string).

Definition BuildProxyURL (taskID : string) : string :=
  ServerAddress +:+ "/v1/videos/" +:+ taskID +:+ "/content".

(** What the switch over the upstream's status makes of the task: the task and
    whether to settle and to refund; [None] for an unknown status. *)
Definition apply_status (now : Z) (r : TaskInfo) (t : Task) : option (Task * bool * bool) :=
  let finish t := if FinishTime t =? 0 then with_times (SubmitTime t) (StartTime t) now t else t in
  let t := with_status (ti_Status r) (Progress t) t in
  if decide (ti_Status r = TaskStatusSubmitted) then Some (with_status (Status t) "10%" t, false, false)
  else if decide (ti_Status r = TaskStatusQueued) then Some (with_status (Status t) "20%" t, false, false)
  else if decide (ti_Status r = TaskStatusInProgress) then
    let t := with_status (Status t) "30%" t in
    Some (if StartTime t =? 0 then with_times (SubmitTime t) now (FinishTime t) t else t, false, false)
  else if decide (ti_Status r = TaskStatusSuccess) then
    let t := finish (with_status (Status t) "100%" t) in
    Some (with_url (if HasPrefix (ti_Url r) "data:" then BuildProxyURL (TaskID t)
                    else if decide (ti_Url r = "") then BuildProxyURL (TaskID t) else ti_Url r) t,
          true, false)
  else if decide (ti_Status r = TaskStatusFailure) then
    let t := finish (with_status TaskStatusFailure "100%" t) in
    Some (with_reason (ti_Reason r) t, false, negb (Quota t =? 0))
  else None.

(** The progress the upstream reports; a failed task is complete. *)
Definition final_progress (r : TaskInfo) : string :=
  if decide (ti_Status r = TaskStatusFailure) then "100%" else ti_Progress r.

(** The second half of [updateVideoSingleTask]: the task object [t] with the
    upstream's reading [r], whose snapshot was [snap]. *)
Definition video_apply (up : Upstream) (snap : taskSnapshot) (r : TaskInfo) (now : Z) (t : Task)
    : prog MT (Task * option error) :=
  match apply_status now r t with
  | None =>
      pret (with_status (ti_Status r) (Progress t) t,
            Some (EText ("unknown task status " +:+ ti_Status r +:+ " for task " +:+ TaskID t)))
  | Some (t, shouldSettle, shouldRefund) =>
      let t := if decide (final_progress r = "") then t else with_status (Status t) (final_progress r) t in
      let* go_on :=
        (if is_final (Status t) && negb (bool_decide (sn_Status snap = Status t)) then
           let* won := pattempt (UpdateWithStatus t (sn_Status snap)) in
           pret (match won with Ok b => b | Err _ => false end)
         else if negb (Equal snap (Snapshot t)) then
           do* pattempt (UpdateWithStatus t (sn_Status snap)) in pret true
         else pret true) in
      let* t := (if shouldSettle && go_on
                 then bill (ID t) Settled (settleTaskBillingOnComplete up t r) else pret t) in
      do* (if shouldRefund && go_on
           then bill (ID t) Refunded (RefundTaskQuota t (FailReason t)) else pret tt) in
      pret (t, None)
  end.

(** The object as the call leaves it, which later rounds of the same pass see, and
    the error.  [None] for the reading: a rate limit of the upstream. *)
Definition video_result (up : Upstream) (body : string) : result (option TaskInfo) :=
  let parsed :=
    match as_new_api up body with
    | Some t => Ok (mkTaskInfo (Status t) (FailReason t) (GetResultURL t) (Progress t) 0)
    | None => ParseTaskResult up body
    end in
  match parsed with
  | Err e => Err e
  | Ok r =>
      if decide (ti_Status r = "") then
        match as_error up body with
        | None => Ok (Some r)
        | Some (Some code) =>
            if decide (code = "429") then Ok None else Ok (Some (FailTaskInfo "upstream returned error"))
        | Some None => Ok (Some (FailTaskInfo "upstream returned unrecognized message"))
        end
      else Ok (Some r)
  end.

Definition updateVideoSingleTask (up : Upstream) (n : nat) (taskId : string) (t : Task)
    : prog MT (Task * option error) :=
  match FetchTask up n t with
  | Err e => pret (t, Some (EWrap ("fetchTask failed for task " +:+ taskId +:+ ": ") e))
  | Ok (Err e) => pret (t, Some (EWrap ("readAll failed for task " +:+ taskId +:+ ": ") e))
  | Ok (Ok body) =>
      let snap := Snapshot t in
      match video_result up body with
      | Err e => pret (t, Some (EWrap ("parseTaskResult failed for task " +:+ taskId +:+ ": ") e))
      | Ok r =>
          let t := with_data (redactVideoResponseBody up body) t in
          let* now := stmt (in_world GetTimestamp) in
          match r with
          | None => pret (t, None)
          | Some r => video_apply up snap r now t
          end
      end
  end.

(** The loop over the tasks of a channel; [taskM] holds the task objects, which the
    rounds change. *)
Fixpoint video_loop (up : Upstream) (n : nat) (taskIds : list string) (taskM : gmap string Task)
    : prog MT (gmap string Task) :=
  match taskIds with
  | [] => pret taskM
  | taskId :: taskIds =>
      if cancelled up n then pfail ctx_cancelled
      else
        match taskM !! taskId with
        | None => video_loop up (S n) taskIds taskM
        | Some t =>
            let* (t, _) := updateVideoSingleTask up n taskId t in
            video_loop up (S n) taskIds (<[taskId := t]> taskM)
        end
  end.

Definition ids_of (taskIds : list string) (taskM : gmap string Task) : list Z :=
  omap (λ upstreamID, ID <$> taskM !! upstreamID) taskIds.

(** [channel] tells whether [CacheGetChannel] finds the channel, [adaptor] what
    [GetTaskAdaptorFunc] gives. *)
Definition updateVideoTasks (adaptor : option Upstream) (channel : result unit) (channelId : Z)
    (taskIds : list string) (taskM : gmap string Task) : prog MT unit :=
  match taskIds with
  | [] => pret tt
  | _ =>
      match channel with
      | Err e =>
          do* pattempt (TaskBulkUpdateByID (ids_of taskIds taskM)
                (Some ("Failed to get channel info, channel ID: " +:+ pretty channelId))) in
          pfail (EWrap "CacheGetChannel failed: " e)
      | Ok _ =>
          match adaptor with
          | None => pfail (EText "video adaptor not found")
          | Some up => do* video_loop up 0 taskIds taskM in pret tt
          end
      end
  end.

(** *** Tasks that take too long *)

Context (TaskTimeoutMinutes : Z).

Definition legacyTaskCutoff : Z := 1740182400.
Definition timeout_reason : string := "任务超时（" +:+ pretty TaskTimeoutMinutes +:+ "分钟）".
Definition legacyReason : string := "任务超时（旧系统遗留任务，不进行退款，请联系管理员）".

Definition is_legacy (t : Task) : bool := (0 <? SubmitTime t) && (SubmitTime t <? legacyTaskCutoff).

Definition timed_out (now : Z) (t : Task) : Task :=
  with_reason (if is_legacy t then legacyReason else timeout_reason)
    (with_times (SubmitTime t) (StartTime t) now (with_status TaskStatusFailure "100%" t)).

Fixpoint sweep_loop (now : Z) (tasks : list Task) : prog MT unit :=
  match tasks with
  | [] => pret tt
  | t :: tasks =>
      let t' := timed_out now t in
      let* won := pattempt (UpdateWithStatus t' (Status t)) in
      match won with
      | Ok true =>
          do* (if negb (is_legacy t) && negb (Quota t' =? 0)
               then bill (ID t') Refunded (RefundTaskQuota t' timeout_reason) else pret tt) in
          sweep_loop now tasks
      | _ => sweep_loop now tasks
      end
  end.

Definition sweepTimedOutTasks : prog MT unit :=
  if TaskTimeoutMinutes <=? 0 then pret tt
  else
    let* now := stmt (in_world GetTimestamp) in
    let* tasks := GetTimedOutUnfinishedTasks (wrap64 (now - wrap64 (TaskTimeoutMinutes * 60))) 100 in
    match tasks with
    | [] => pret tt
    | _ => let* now := stmt (in_world GetTimestamp) in sweep_loop now tasks
    end.

(** *** Suno *)

Record SunoDataResponse : Type := mkSuno {
  sd_TaskID : string;
  sd_Status : string;
  sd_FailReason : string;
  sd_SubmitTime : Z;
  sd_StartTime : Z;
  sd_FinishTime : Z;
  sd_Data : string;
}.

(** What the poller of a Suno channel sees: cancellation at the [n]-th answer; the
    error of asking for the tasks, or their answers, [None] when the upstream did
    not report success; the JSON encoder on a raw message. *)
Record SunoUpstream : Type := mkSunoUpstream {
  suno_cancelled : nat -> bool;
  suno_fetch : list string -> result (option (list SunoDataResponse));
  marshal : string -> string;
}.

(** The bytes of a string in ascending order: what [sort.Slice] makes of them. *)
Definition byte_below (a b : Ascii.ascii) : Prop := (Ascii.nat_of_ascii a <= Ascii.nat_of_ascii b)%nat.
#[export] Instance byte_below_dec a b : Decision (byte_below a b).
Proof. unfold byte_below. apply _. Defined.
Definition sorted_bytes (s : string) : list Ascii.ascii := merge_sort byte_below (String.list_ascii_of_string s).

Definition taskNeedsUpdate (up : SunoUpstream) (oldTask : Task) (newTask : SunoDataResponse) : bool :=
  if negb (SubmitTime oldTask =? sd_SubmitTime newTask) then true
  else if negb (StartTime oldTask =? sd_StartTime newTask) then true
  else if negb (FinishTime oldTask =? sd_FinishTime newTask) then true
  else if negb (bool_decide (Status oldTask = sd_Status newTask)) then true
  else if negb (bool_decide (FailReason oldTask = sd_FailReason newTask)) then true
  else if is_final (Status oldTask) && negb (bool_decide (Progress oldTask = "100%")) then true
  else negb (bool_decide (sorted_bytes (marshal up (Data oldTask)) = sorted_bytes (marshal up (sd_Data newTask)))).

Definition or_old (new old : string) : string := if decide (new = "") then old else new.
Definition or_old_time (new old : Z) : Z := if new =? 0 then old else new.

Definition suno_assign (item : SunoDataResponse) (t : Task) : Task :=
  with_times (or_old_time (sd_SubmitTime item) (SubmitTime t)) (or_old_time (sd_StartTime item) (StartTime t))
    (or_old_time (sd_FinishTime item) (FinishTime t))
    (with_reason (or_old (sd_FailReason item) (FailReason t))
       (with_status (or_old (sd_Status item) (Status t)) (Progress t) t)).

Definition suno_item (item : SunoDataResponse) (t : Task) : prog MT Task :=
  let t := suno_assign item t in
  let* t :=
    (if negb (bool_decide (sd_FailReason item = "")) || bool_decide (Status t = TaskStatusFailure) then
       let t := with_status (Status t) "100%" t in
       do* bill (ID t) Refunded (RefundTaskQuota t (FailReason t)) in pret t
     else pret t) in
  let t := if decide (sd_Status item = TaskStatusSuccess) then with_status (Status t) "100%" t else t in
  let t := with_data (sd_Data item) t in
  do* pattempt (Update t) in pret t.

Fixpoint suno_loop (up : SunoUpstream) (n : nat) (items : list SunoDataResponse) (taskM : gmap string Task)
    : prog MT unit :=
  match items with
  | [] => pret tt
  | item :: items =>
      if suno_cancelled up n then pfail ctx_cancelled
      else
        match taskM !! sd_TaskID item with
        | None => suno_loop up (S n) items taskM
        | Some t =>
            if taskNeedsUpdate up t item then
              let* t := suno_item item t in
              suno_loop up (S n) items (<[sd_TaskID item := t]> taskM)
            else suno_loop up (S n) items taskM
        end
  end.

Definition updateSunoTasks (adaptor : option SunoUpstream) (channel : result unit) (channelId : Z)
    (taskIds : list string) (taskM : gmap string Task) : prog MT unit :=
  match taskIds with
  | [] => pret tt
  | _ =>
      match channel with
      | Err _ =>
          TaskBulkUpdateByID (ids_of taskIds taskM)
            (Some ("获取渠道信息失败，请联系管理员，渠道ID：" +:+ pretty channelId))
      | Ok _ =>
          match adaptor with
          | None => pfail (EText "adaptor not found")
          | Some up =>
              match suno_fetch up taskIds with
              | Err e => pfail e
              | Ok None => pret tt
              | Ok (Some items) => suno_loop up 0 items taskM
              end
          end
      end
  end.

(** *** A client asking for its task ([tryRealtimeFetch]) *)

(** [ti]: the reading of the upstream's answer, [None] when the channel is not one
    that is asked, or something failed; [t]: the row the caller loaded. *)
Definition realtime_assign (ti : TaskInfo) (t : Task) : Task :=
  let t := with_status (or_old (ti_Status ti) (Status t)) (or_old (ti_Progress ti) (Progress t)) t in
  if HasPrefix (ti_Url ti) "data:" then t
  else if negb (bool_decide (ti_Url ti = "")) then with_url (ti_Url ti) t
  else if decide (Status t = TaskStatusSuccess) then with_url (BuildProxyURL (TaskID t)) t
  else t.

Definition tryRealtimeFetch (ti : option TaskInfo) (t : Task) : prog MT unit :=
  match ti with
  | None => pret tt
  | Some ti =>
      let t' := realtime_assign ti t in
      if Equal (Snapshot t) (Snapshot t') then pret tt
      else do* pattempt (UpdateWithStatus t' (Status t)) in pret tt
  end.

(** ** One pass of the poller *)

(** The tasks of a platform: the objects by upstream id (a later row replaces an
    earlier one), the ids by channel, and the rows without an id. *)
Record Grouped : Type := mkGrouped {
  g_taskM : gmap string Task;
  g_channels : gmap Z (list string);
  g_null : list Z;
}.

Definition group_task (g : Grouped) (t : Task) : Grouped :=
  let upstreamID := GetUpstreamTaskID t in
  if decide (upstreamID = "") then mkGrouped (g_taskM g) (g_channels g) (g_null g ++ [ID t])
  else mkGrouped (<[upstreamID := t]> (g_taskM g))
         (<[ChannelId t := default [] (g_channels g !! ChannelId t) ++ [upstreamID]]> (g_channels g))
         (g_null g).

Definition group_tasks (tasks : list Task) : Grouped := foldl group_task (mkGrouped ∅ ∅ []) tasks.

(** The environment of a pass: cancellation before the [n]-th platform, the order
    in which the platforms and the channels come up, and the upstreams. *)
Record PassEnv : Type := mkPassEnv {
  pass_cancelled : nat -> bool;
  platform_order : list Task -> list string;
  channel_order : gmap Z (list string) -> list (Z * list string);
  env_channel : Z -> result unit;
  env_video : string -> Z -> option Upstream;
  env_suno : Z -> option SunoUpstream;
}.

(** The goroutines [UpdateVideoTasks] starts, one per channel. *)
Definition video_threads (env : PassEnv) (platform : string) (g : Grouped) : list (prog MT unit) :=
  (λ '(channelId, taskIds),
     updateVideoTasks (env_video env platform channelId) (env_channel env channelId) channelId taskIds
       (g_taskM g)) <$> channel_order env (g_channels g).

Fixpoint run_all (ps : list (prog MT unit)) : prog MT unit :=
  match ps with
  | [] => pret tt
  | p :: ps => do* pattempt p in run_all ps
  end.

(** Here the channels' goroutines run one after another; [video_threads] lists them
    for the theorems about their interleaving. *)
Definition DispatchPlatformUpdate (env : PassEnv) (platform : string) (g : Grouped) : prog MT unit :=
  if decide (platform = "mj") then pret tt
  else if decide (platform = "suno") then
    run_all ((λ '(channelId, taskIds),
      updateSunoTasks (env_suno env channelId) (env_channel env channelId) channelId taskIds (g_taskM g))
      <$> channel_order env (g_channels g))
  else run_all (video_threads env platform g).

Record TaskPollSummary : Type := mkSummary {
  UnfinishedTasks : nat;
  PlatformsScanned : nat;
  NullTasksFailed : nat;
}.

Fixpoint poll_platforms (env : PassEnv) (n : nat) (platforms : list string) (tasks : list Task)
    (summary : TaskPollSummary) : prog MT TaskPollSummary :=
  match platforms with
  | [] => pret summary
  | platform :: platforms =>
      if pass_cancelled env n then pret summary
      else
        let g := group_tasks (List.filter (λ t, bool_decide (Platform t = platform)) tasks) in
        let summary := mkSummary (UnfinishedTasks summary) (S (PlatformsScanned summary))
                         (NullTasksFailed summary + length (g_null g)) in
        do* pattempt (TaskBulkUpdateByID (g_null g) None) in
        do* (if decide (g_channels g = ∅) then pret tt
             else DispatchPlatformUpdate env platform g) in
        poll_platforms env (S n) platforms tasks summary
  end.

Definition RunTaskPollingOnce (TaskQueryLimit : nat) (env : PassEnv) : prog MT TaskPollSummary :=
  do* sweepTimedOutTasks in
  let* allTasks := GetAllUnFinishSyncTasks TaskQueryLimit in
  poll_platforms env 0 (platform_order env allTasks) allTasks (mkSummary (length allTasks) 0 0).
End billing.
