(* ===== verification/MediaSafety.v ===== *)
(** * MediaSafety: a task is billed at most once

    Pollers of several nodes, the sweep of overdue tasks and requests that ask for a
    task all write to the table [tasks].  Settling or refunding a task is guarded by
    a conditional update of its status; this file proves that under every
    interleaving a task is billed at most once.

    The proof gives out tickets: the conditional update that moves the row of a task
    from an unfinished to a final status yields one, a billing step consumes one, and
    no statement makes a final status unfinished again.  [holds n p Q]: started with
    [n] tickets, [p] never bills without one, and ends in [Q]. *)

From S2P Require Export MediaTask.
From S2P Require Import Prelude.

(** ** Tickets *)

Section tickets.
Context (i : Z).

Definition final_row (s : MT) : bool :=
  match mt_tasks s !! i with Some t => is_final (Status t) | None => false end.
Definition bills (s : MT) : nat := length (List.filter (λ e, e.1 =? i) (mt_billed s)).

Definition allowed (n : nat) (s : MT) (n' : nat) (s' : MT) : Prop :=
  (final_row s = true -> final_row s' = true) ∧
  (bills s' + n' <= bills s + n + (if negb (final_row s) && final_row s' then 1 else 0))%nat.

Fixpoint holds {A} (n : nat) (p : prog MT A) (Q : result A -> nat -> Prop) : Prop :=
  match p with
  | Return r => Q r n
  | Now k => ∀ t, holds n (k t) Q
  | Stmt f k => ∀ s, ∃ n', allowed n s n' (f s).2 ∧ holds n' (k (f s).1) Q
  end.

(** Whatever it is given, a program that bills only with tickets. *)
Definition honest {A} (p : prog MT A) : Prop := ∀ n, holds n p (λ _ _, True).

Lemma allowed_refl n s s' :
  mt_tasks s' = mt_tasks s -> mt_billed s' = mt_billed s -> allowed n s n s'.
Proof. unfold allowed, final_row, bills. intros -> ->. split; [done|]. lia. Qed.

Lemma holds_mono {A} n (p : prog MT A) (Q R : result A -> nat -> Prop) :
  holds n p Q -> (∀ r n', Q r n' -> R r n') -> holds n p R.
Proof.
  intros H HQ. revert n H. induction p as [r|k IH|X f k IH]; simpl; intros n H; [auto|auto|].
  intros s. destruct (H s) as (n' & Ha & Hk). eauto.
Qed.

Lemma holds_bind {A B} n (m : prog MT A) (k : A -> prog MT B) Q :
  holds n m (λ r n', match r with Ok a => holds n' (k a) Q | Err e => Q (Err e) n' end) ->
  holds n (pbind m k) Q.
Proof.
  revert n. induction m as [[a|e]|k' IH|X f k' IH]; simpl; intros n H; [done|done|auto|].
  intros s. destruct (H s) as (n' & Ha & Hk). eauto.
Qed.

Lemma holds_attempt {A} n (m : prog MT A) Q :
  holds n m (λ r n', Q (Ok r) n') -> holds n (pattempt m) Q.
Proof.
  revert n. induction m as [r|k' IH|X f k' IH]; simpl; intros n H; [done|auto|].
  intros s. destruct (H s) as (n' & Ha & Hk). eauto.
Qed.

Lemma holds_stmt {X} n (f : MT -> result X * MT) Q :
  (∀ s, ∃ n', allowed n s n' (f s).2 ∧ Q (f s).1 n') -> holds n (stmt f) Q.
Proof. done. Qed.

Lemma holds_pret {A} n (a : A) Q : Q (Ok a) n -> holds n (pret a) Q.
Proof. done. Qed.

Lemma honest_bind {A B} (m : prog MT A) (k : A -> prog MT B) :
  honest m -> (∀ a, honest (k a)) -> honest (pbind m k).
Proof.
  intros Hm Hk n. apply holds_bind. eapply holds_mono; [apply Hm|]. intros [a|e] n' _; [apply Hk|done].
Qed.

Lemma honest_attempt {A} (m : prog MT A) : honest m -> honest (pattempt m).
Proof. intros Hm n. apply holds_attempt. eapply holds_mono; [apply Hm|done]. Qed.

(** ** Interleaving *)

Lemma next_holds {A} now n (p : prog MT A) s Q :
  holds n p Q -> ∃ n', allowed n s n' (next_stmt now p s).2 ∧ holds n' (next_stmt now p s).1 Q.
Proof.
  revert n. induction p as [r|k IH|X f k IH]; simpl; intros n H.
  - exists n. split; [by apply allowed_refl|done].
  - apply IH, H.
  - destruct (H s) as (n' & Ha & Hk). exists n'. by destruct (f s).
Qed.

(** Tickets out and bills written never exceed the one a final row accounts for. *)
Definition accounted {A} (ths : list (prog MT A)) (s : MT) : Prop :=
  ∃ ns, Forall2 (λ n p, holds n p (λ _ _, True)) ns ths ∧
    (bills s + sum_list ns <= if final_row s then 1 else 0)%nat.

Lemma sum_list_insert ns j n n' :
  ns !! j = Some n -> (sum_list (<[j := n']> ns) + n = sum_list ns + n')%nat.
Proof.
  revert j. induction ns as [|x ns IH]; intros [|j]; simpl; [done|done| |].
  - intros [= ->]. lia.
  - intros H%IH. lia.
Qed.

Lemma sched_accounted {A} turns (ths : list (prog MT A)) s :
  accounted ths s -> accounted (sched turns ths s).1 (sched turns ths s).2.
Proof.
  revert ths s. induction turns as [|[j now] turns IH]; intros ths s Hacc; [done|]. cbn [sched].
  destruct (ths !! j) as [p|] eqn:Ep; [|by apply IH].
  destruct (next_stmt now p s) as [p' s'] eqn:En. apply IH.
  destruct Hacc as (ns & Hf & Hle).
  destruct (Forall2_lookup_r _ _ _ _ _ Hf Ep) as (n & En' & Hp).
  destruct (next_holds now n p s _ Hp) as (n' & [Hfin Hb] & Hp'). rewrite En in Hfin, Hb, Hp'. simpl in *.
  exists (<[j := n']> ns). split; [by apply Forall2_insert|].
  pose proof (sum_list_insert ns j n n' En').
  destruct (final_row s), (final_row s'); simpl in *; lia.
Qed.

Lemma honest_threads {A} turns (ths : list (prog MT A)) s :
  Forall honest ths -> bills s = 0%nat ->
  let s' := (sched turns ths s).2 in
  (bills s' <= 1)%nat ∧ (bills s' = 1%nat -> final_row s' = true).
Proof.
  intros Hh Hb s'. subst s'.
  assert (accounted ths s) as Hacc.
  { exists (replicate (length ths) 0%nat). split.
    - induction Hh; simpl; constructor; auto.
    - rewrite Hb. assert (sum_list (replicate (length ths) 0%nat) = 0%nat) as ->; [|lia].
      induction (length ths); simpl; lia. }
  apply (sched_accounted turns) in Hacc as (ns & _ & Hle).
  destruct (final_row _); split; try lia; done.
Qed.

(** ** Statements *)

(** Billing functions leave the table and the history alone. *)
Definition quiet {A} (m : M MT A) : Prop :=
  ∀ s, mt_tasks (m s).2 = mt_tasks s ∧ mt_billed (m s).2 = mt_billed s.

Lemma quiet_ret {A} (a : A) : quiet (ret a).
Proof. done. Qed.

Lemma quiet_bind {A B} (m : M MT A) (k : A -> M MT B) : quiet m -> (∀ a, quiet (k a)) -> quiet (bind m k).
Proof.
  intros Hm Hk s. specialize (Hm s). unfold bind. destruct (m s) as [[a|e] s'] eqn:E; [|done].
  destruct (Hk a s') as [-> ->]. done.
Qed.

Lemma quiet_attempt {A} (m : M MT A) : quiet m -> quiet (attempt m).
Proof. intros Hm s. specialize (Hm s). unfold attempt. by destruct (m s). Qed.

Lemma quiet_in_world {A} (m : GM A) : quiet (in_world m).
Proof. intros s. unfold in_world. by destruct (m (mt_world s)). Qed.

Lemma quiet_log l : quiet (update (add_mt_log l)).
Proof. intros s. unfold update, exec. by destruct (st_faults s) as [|[]]. Qed.

Lemma holds_quiet {A} n (m : M MT A) Q : quiet m -> (∀ r, Q r n) -> holds n (stmt m) Q.
Proof.
  intros Hm HQ. apply holds_stmt. intros s. exists n. split; [|done]. apply allowed_refl; apply Hm.
Qed.

Lemma holds_bill {A} n id b (m : M MT A) Q :
  quiet m -> (id = i -> (0 < n)%nat) -> (∀ r n', Q r n') -> holds n (bill id b m) Q.
Proof.
  intros Hm Hn HQ. apply holds_stmt. intros s. destruct (Hm s) as [Ht Hb].
  destruct (m s) as [r s'] eqn:E. simpl in *.
  exists (if id =? i then (n - 1)%nat else n). split; [|done].
  unfold allowed, final_row, bills, add_bill. simpl. rewrite Ht, Hb. split; [done|].
  rewrite List.filter_app, length_app. simpl. destruct (Z.eqb_spec id i) as [->|]; simpl; [|lia].
  specialize (Hn eq_refl). lia.
Qed.

Lemma allowed_faults n s n' s' fs : allowed n (st_set_faults fs s) n' s' -> allowed n s n' s'.
Proof. done. Qed.

(** The conditional update from an unfinished status: winning it with a final one is
    worth a ticket. *)
Lemma holds_cas n t from Q :
  is_final from = false ->
  (∀ r, r ≠ Ok true -> Q r n) ->
  Q (Ok true) (if is_final (Status t) && (ID t =? i) then S n else n) ->
  holds n (UpdateWithStatus t from) Q.
Proof.
  intros Hfrom Hlost Hwon. apply holds_stmt.
  assert (∀ s, ∃ n', allowed n s n' (cas t from s).2 ∧ Q (cas t from s).1 n') as Hcas.
  { intros s. unfold cas. destruct (mt_tasks s !! ID t) as [row|] eqn:Er.
    2: { exists n. split; [by apply allowed_refl|by apply Hlost]. }
    destruct (decide (Status row = from)) as [<-|]; [|exists n; split; [by apply allowed_refl|by apply Hlost]].
    eexists. split; [|exact Hwon]. unfold allowed, final_row, bills. simpl.
    destruct (Z.eqb_spec (ID t) i) as [<-|Hne].
    - rewrite Er, lookup_insert_eq, Hfrom. split; [done|]. destruct (is_final (Status t)); simpl; lia.
    - rewrite lookup_insert_ne by done. rewrite andb_false_r. split; [done|]. lia. }
  intros s. unfold exec. destruct (st_faults s) as [|[msg|] fs]; simpl; [apply Hcas| |].
  - exists n. split; [by apply allowed_refl|by apply Hlost].
  - destruct (Hcas (st_set_faults fs s)) as (n' & Ha & HQ). eauto using allowed_faults.
Qed.

(** The conditional update that keeps final rows final needs and yields nothing. *)
Lemma honest_cas t from :
  (is_final from = true -> is_final (Status t) = true) -> honest (UpdateWithStatus t from).
Proof.
  intros Hfin n. apply holds_stmt.
  assert (∀ s, allowed n s n (cas t from s).2) as Hcas.
  { intros s. unfold cas. destruct (mt_tasks s !! ID t) as [row|] eqn:Er; [|by apply allowed_refl].
    destruct (decide (Status row = from)) as [<-|]; [|by apply allowed_refl].
    unfold allowed, final_row, bills. simpl. destruct (decide (ID t = i)) as [<-|Hne].
    - rewrite Er, lookup_insert_eq. split; [done|]. lia.
    - rewrite lookup_insert_ne by done. split; [done|]. lia. }
  intros s. exists n. split; [|done]. unfold exec.
  destruct (st_faults s) as [|[msg|] fs]; simpl; [apply Hcas|by apply allowed_refl|].
  apply (allowed_faults n s n _ fs), Hcas.
Qed.

Lemma honest_bulk ids reason : honest (TaskBulkUpdateByID ids reason).
Proof.
  intros n. destruct ids as [|id ids]; [done|]. apply holds_stmt. intros s. exists n. split; [|done].
  assert (∀ s, allowed n s n (fail_rows (id :: ids) reason s)) as Hf.
  { intros s'. unfold allowed, final_row, bills. simpl. rewrite map_lookup_imap.
    destruct (mt_tasks s' !! i) as [t|]; simpl; [|split; [done|lia]].
    case_decide; simpl; split; try done; lia. }
  unfold update, exec. destruct (st_faults s) as [|[msg|] fs]; simpl; [apply Hf|by apply allowed_refl|].
  apply (allowed_faults n s n _ fs), Hf.
Qed.

Lemma honest_stmt_world {A} (m : GM A) : honest (stmt (in_world m)).
Proof. intros n. apply holds_quiet; [apply quiet_in_world|done]. Qed.

(** Rows of a query satisfy its condition. *)
Lemma holds_find n p (limit : nat) (le : Task -> Task -> Prop) `{!∀ t u, Decision (le t u)} Q :
  (∀ l, Forall (λ t, p t = true) l -> Q (Ok l) n) ->
  holds n (find_tasks (λ s, take limit (merge_sort le (task_rows p s)))) Q.
Proof.
  intros HQ. apply holds_bind, holds_attempt, holds_stmt. intros s. exists n.
  unfold select, exec. destruct (st_faults s) as [|[msg|] fs]; simpl;
    (split; [by apply allowed_refl|apply HQ]); try by constructor.
  all: apply Forall_take; rewrite merge_sort_Permutation; apply Forall_forall; intros t Ht;
    apply list_elem_of_In, filter_In in Ht; tauto.
Qed.
End tickets.

Create HintDb quiet.
#[export] Hint Resolve quiet_ret quiet_bind quiet_attempt quiet_in_world quiet_log : quiet.

(** ** The threads *)

Section threads.
Context {CFG : Config} {RT : TaskRatios} (ServerAddress : string).

Lemma quiet_record t ty content reason q : quiet (RecordTaskBillingLog t ty content reason q).
Proof.
  unfold RecordTaskBillingLog. destruct (0 <? TokenId (PrivateData t)), (_ && _); auto 10 with quiet.
Qed.
#[local] Hint Resolve quiet_record : quiet.

Lemma quiet_refund t reason : quiet (RefundTaskQuota t reason).
Proof.
  unfold RefundTaskQuota. destruct (_ =? 0); [auto with quiet|].
  apply quiet_bind; [auto with quiet|]. intros []; auto with quiet.
Qed.

Lemma quiet_recalculate t q reason : quiet (RecalculateTaskQuota t q reason).
Proof.
  unfold RecalculateTaskQuota. destruct (q <=? 0); [auto with quiet|]. cbv zeta.
  destruct (wrap64 _ =? 0); [auto with quiet|].
  apply quiet_bind; [auto with quiet|]. intros []; [|auto with quiet].
  apply quiet_bind; [auto with quiet|]. intros _. destruct (0 <? wrap64 _); auto 10 with quiet.
Qed.
#[local] Hint Resolve quiet_recalculate : quiet.

Lemma quiet_tokens t n : quiet (RecalculateTaskQuotaByTokens t n).
Proof.
  unfold RecalculateTaskQuotaByTokens. destruct (_ <=? 0); [auto with quiet|].
  destruct (GetModelRatio _) as [ratio has]. destruct (_ || _); [auto with quiet|].
  apply quiet_bind; [destruct (decide _); auto with quiet|].
  intros g. destruct (decide _); auto with quiet.
Qed.

Lemma quiet_settle up t r : quiet (settleTaskBillingOnComplete up t r).
Proof.
  unfold settleTaskBillingOnComplete. destruct (match _ with Some _ => _ | None => _ end); [auto with quiet|].
  destruct (0 <? _); [auto with quiet|]. destruct (0 <? _); [apply quiet_tokens|auto with quiet].
Qed.

(** Only a final status leads to billing, and to one kind of it. *)
Lemma apply_status_final now r t t' settle refund :
  apply_status ServerAddress now r t = Some (t', settle, refund) ->
  ID t' = ID t ∧ (settle || refund = true -> is_final (Status t') = true) ∧ settle && refund = false.
Proof.
  unfold apply_status.
  destruct (decide _); [intros [= <- <- <-]; done|]. destruct (decide _); [intros [= <- <- <-]; done|].
  destruct (decide _); [intros [= <- <- <-]; simpl; by destruct (_ =? 0)|].
  destruct (decide _) as [E|].
  { intros [= <- <- <-]. simpl. destruct (FinishTime t =? 0); simpl; rewrite ?E; done. }
  destruct (decide _); [|done]. intros [= <- <- <-]. simpl. by destruct (FinishTime t =? 0).
Qed.

Lemma honest_video_apply i up snap r now t :
  is_final (sn_Status snap) = false -> honest i (video_apply ServerAddress up snap r now t).
Proof.
  intros Hsnap n. unfold video_apply.
  destruct (apply_status _ _ _ _) as [[[t1 settle] refund]|] eqn:Ea; [|done].
  apply apply_status_final in Ea as (Hid & Hfin & Hone).
  set (t2 := if decide (final_progress r = "") then t1 else with_status (Status t1) (final_progress r) t1).
  assert (Status t2 = Status t1) as Hs by (subst t2; by destruct (decide _)). rewrite <- Hs in Hfin.
  clearbody t2. clear Hs.
  apply holds_bind. apply (holds_mono i n _
    (λ g n', match g with Ok g => settle || refund = true -> g = true -> ID t2 = i -> (0 < n')%nat | Err _ => True end)).
  - destruct (is_final (Status t2)) eqn:Ef; cbn [andb].
    + rewrite bool_decide_false by (intros E; congruence). cbn [negb].
      apply holds_bind, holds_attempt, holds_cas; [done| |].
      * intros [[]|e]; simpl; try done.
      * rewrite Ef. simpl. intros _ _ ->. rewrite Z.eqb_refl. lia.
    + destruct (negb (Equal _ _)); [|simpl; intros Hb; by specialize (Hfin Hb)].
      apply holds_bind, holds_attempt. eapply holds_mono; [apply honest_cas; congruence|].
      intros; simpl. intros Hb. by specialize (Hfin Hb).
  - intros [g|e] n' Hg; [|done]. destruct settle, refund, g; cbn [andb orb] in *; try done.
    + apply holds_bind, holds_bill; [apply quiet_settle|auto|]. intros [] n2; done.
    + apply holds_bind, holds_pret, holds_bind, holds_bill; [apply quiet_refund|auto|]. intros [] n2; done.
Qed.

Lemma honest_single i up n taskId t :
  is_final (Status t) = false -> honest i (updateVideoSingleTask ServerAddress up n taskId t).
Proof.
  intros Hs. unfold updateVideoSingleTask. destruct (FetchTask up n t) as [[body|e]|e]; [|done..].
  destruct (video_result up body) as [r|e]; [|done]. cbv zeta.
  apply honest_bind; [apply honest_stmt_world|]. intros now. destruct r as [r|]; [|done].
  by apply honest_video_apply.
Qed.

Lemma honest_loop i up n taskIds taskM :
  NoDup taskIds ->
  (∀ id t, id ∈ taskIds -> taskM !! id = Some t -> is_final (Status t) = false) ->
  honest i (video_loop ServerAddress up n taskIds taskM).
Proof.
  revert n taskM. induction taskIds as [|id taskIds IH]; intros n taskM Hnd Hm; [done|].
  apply NoDup_cons in Hnd as [Hid Hnd]. cbn [video_loop]. destruct (cancelled up n); [done|].
  destruct (taskM !! id) as [t|] eqn:Et.
  - apply honest_bind; [apply honest_single, (Hm id); [set_solver|done]|]. intros [t' e].
    apply IH; [done|]. intros id' u Hin. rewrite lookup_insert_ne by (intros ->; done).
    apply Hm. set_solver.
  - apply IH; [done|]. intros. eapply Hm; [|done]. set_solver.
Qed.

Lemma honest_sweep_loop i mins now tasks :
  Forall (λ t, is_final (Status t) = false) tasks -> honest i (sweep_loop mins now tasks).
Proof.
  induction 1 as [|t tasks Ht _ IH]; [done|]. intros n. cbn [sweep_loop]. cbv zeta.
  apply holds_bind, holds_attempt, holds_cas; [done| |].
  - intros [[]|e]; simpl; [done|intros; apply IH|intros; apply IH].
  - simpl. destruct (negb (is_legacy t) && _); [|apply IH].
    apply holds_bind, holds_bill; [apply quiet_refund| |].
    + simpl. intros ->. rewrite Z.eqb_refl. lia.
    + intros [] n'; [apply IH|done].
Qed.

Lemma honest_sweep i mins : honest i (sweepTimedOutTasks mins).
Proof.
  unfold sweepTimedOutTasks. destruct (mins <=? 0); [done|].
  apply honest_bind; [apply honest_stmt_world|]. intros now n.
  apply holds_bind. apply (holds_find i n _ _ _). intros [|t l] Hl; [done|].
  apply holds_bind. eapply holds_mono; [apply honest_stmt_world|]. intros [now'|e] n' _; [|done].
  apply honest_sweep_loop. eapply Forall_impl; [exact Hl|]. intros u Hu.
  unfold unfinished in Hu. apply andb_true_iff in Hu as [[_ Hu]%andb_true_iff _]. by apply negb_true_iff.
Qed.

(** Who works on the table: a sweep; the poller of a channel, with objects that were
    unfinished when it loaded them and whose upstream ids differ; a client's request
    whose upstream does not take back an end it reported. *)
Inductive media_thread : prog MT unit -> Prop :=
| thread_sweep mins : media_thread (sweepTimedOutTasks mins)
| thread_video adaptor channel channelId taskIds taskM :
    NoDup taskIds ->
    (∀ id t, taskM !! id = Some t -> is_final (Status t) = false) ->
    media_thread (updateVideoTasks ServerAddress adaptor channel channelId taskIds taskM)
| thread_realtime ti t :
    (is_final (Status t) = true -> is_final (Status (realtime_assign ServerAddress ti t)) = true) ->
    media_thread (tryRealtimeFetch ServerAddress (Some ti) t).

Lemma honest_media_thread i p : media_thread p -> honest i p.
Proof.
  intros [mins|adaptor channel channelId taskIds taskM Hnd Hm|ti t Hfin].
  - apply honest_sweep.
  - unfold updateVideoTasks. destruct taskIds as [|id ids]; [done|]. destruct channel as [u|e].
    + destruct adaptor as [up|]; [|done]. apply honest_bind; [|done].
      apply honest_loop; [done|]. intros. eapply Hm. done.
    + apply honest_bind; [apply honest_attempt, honest_bulk|done].
  - unfold tryRealtimeFetch. cbv zeta. destruct (Equal _ _); [done|].
    apply honest_bind; [apply honest_attempt, honest_cas, Hfin|done].
Qed.

(** C11. However any number of these interleave: pollers of video tasks
    ([updateVideoTasks], each for pairwise different upstream ids and tasks that were
    unfinished when it loaded them), sweeps of overdue tasks, and real-time fetches by
    clients whose upstream does not take back a final status; whatever else the
    upstreams answer and whichever statements fail, a task is billed (refunded or
    settled) at most once, and then its row has a final status. The polling of Suno
    tasks is not among them ([suno_failed_save_refunds_twice]), nor is a poller given
    one upstream id twice ([shared_upstream_id_refunds_twice]). *)
Theorem task_billed_at_most_once turns ths s id :
  Forall media_thread ths -> mt_billed s = [] ->
  let s' := (sched turns ths s).2 in
  (bills id s' <= 1)%nat ∧ (bills id s' = 1%nat -> final_row id s' = true).
Proof.
  intros Hths Hs. apply honest_threads.
  - eapply Forall_impl; [exact Hths|]. apply honest_media_thread.
  - unfold bills. by rewrite Hs.
Qed.
End threads.
