(* ===== verification/MediaProps.v ===== *)
(** * MediaProps: what an asynchronous task costs in the end

    A task that fails gives its quota back, one that succeeds costs what the adaptor
    says, counted in the effective balances of Ledger; and the ways around this that
    the code leaves open, on concrete runs. *)

From S2P Require Export MediaSafety.
From S2P Require Export BillingProps.
From S2P Require Export Samples.
From S2P Require Import Prelude.

Section media.
Context {CFG : Config} {LAWS : ConfigLaws CFG} {LOC : Location} {DEC : Decimal} {RT : TaskRatios}.

(** ** Billing functions as charges *)

Lemma wp_in_world {A} (m : GM A) Q s :
  wp m (λ r w, Q r (set_mt_world w s)) (mt_world s) -> wp (in_world m) Q s.
Proof. unfold wp, in_world. by destruct (m (mt_world s)). Qed.

(** The task was paid from the wallet of its user and with a token that exists. *)
Record wallet_task (t : Task) (w : World) : Prop := {
  wt_wallet : taskIsSubscription t = false;
  wt_token : 0 < TokenId (PrivateData t);
  wt_row : ∃ tok, token_row (TokenId (PrivateData t)) w = Some tok ∧ Token_Key tok ≠ "";
}.

Lemma wp_resolve n t Q w :
  good n w -> wallet_task t w ->
  (∀ key w', key ≠ "" -> good n w' -> effective w' = effective w -> World_db w' = World_db w -> Q (Ok key) w') ->
  wp (resolveTokenKey (TokenId (PrivateData t))) Q w.
Proof.
  intros Hg [_ Hpos (tok & Hrow & Hkey)] HQ. pose proof (good_faults _ _ Hg) as Hn.
  unfold resolveTokenKey, GetTokenById. apply wp_bind, wp_attempt, wp_bind, wp_fail_if; [lia|]. intros _.
  apply wp_bind, wp_first_nf; [done|]. rewrite Hrow. apply wp_bind.
  destruct RedisEnabled.
  - apply wp_go, wp_ret, wp_ret, HQ; [done| |by apply effective_ext|done]. by eapply good_ext.
  - by apply wp_ret, wp_ret, wp_ret, HQ.
Qed.

(** Two facts about one run. *)
Lemma wp_both {S A} (m : M S A) (P Q : result A -> S -> Prop) s :
  wp m P s -> wp m Q s -> wp m (λ r s', P r s' ∧ Q r s') s.
Proof. done. Qed.

Definition same_tokens (w w' : World) : Prop := Tables_tokens (World_db w') = Tables_tokens (World_db w).

Lemma wallet_task_ext t w w' : same_tokens w w' -> wallet_task t w -> wallet_task t w'.
Proof. unfold same_tokens. intros E [H1 H2 H3]. split; [done..|]. unfold token_row in *. by rewrite E. Qed.

Lemma tokens_decrease u a w : wp (DecreaseUserQuota u a false) (λ _ w', same_tokens w w') w.
Proof.
  unfold DecreaseUserQuota, decreaseUserQuota. gwp; done.
Qed.

Lemma tokens_increase u a w : wp (IncreaseUserQuota u a false) (λ _ w', same_tokens w w') w.
Proof.
  unfold IncreaseUserQuota, increaseUserQuota. gwp; done.
Qed.

(** Charging ([d > 0]) or giving back ([d < 0]) an amount. *)
Lemma wp_task_funding n t d Q w :
  good n w -> taskIsSubscription t = false -> d ≠ 0 -> n + Z.abs d < 2 ^ 63 ->
  (∀ w', good (n + Z.abs d) w' -> effective w' = charge_user (UserId t) d (effective w) ->
     same_tokens w w' -> Q (Ok tt) w') ->
  wp (taskAdjustFunding t d) Q w.
Proof.
  intros Hg Hsub Hd Hr HQ. pose proof (good_nonneg _ _ Hg). unfold taskAdjustFunding. rewrite Hsub.
  destruct (Z.ltb_spec 0 d).
  - eapply wp_mono; [apply wp_both; [apply (tokens_decrease _ _ w)|]|].
    + apply (wp_decrease_user n _ _ (λ r w', r = Ok tt ∧ good (n + d) w' ∧
        effective w' = charge_user (UserId t) d (effective w))); [done|lia|lia|done].
    + intros r w' (Ht & -> & Hg' & He). apply HQ; [|done..]. by replace (n + Z.abs d) with (n + d) by lia.
  - rewrite wrap64_id by (unfold int64_range; lia).
    eapply wp_mono; [apply wp_both; [apply (tokens_increase _ _ w)|]|].
    + apply (wp_increase_user n _ (- d) (λ r w', r = Ok tt ∧ good (n + - d) w' ∧
        effective w' = charge_user (UserId t) (- - d) (effective w))); [done|lia|lia|done].
    + intros r w' (Ht & -> & Hg' & He). rewrite Z.opp_involutive in He.
      apply HQ; [|done..]. by replace (n + Z.abs d) with (n + - d) by lia.
Qed.

Lemma wp_task_token n t d Q w :
  good n w -> wallet_task t w -> d ≠ 0 -> n + Z.abs d < 2 ^ 63 ->
  (∀ w', good (n + Z.abs d) w' ->
     effective w' = charge_token false (TokenId (PrivateData t)) d (effective w) -> Q (Ok tt) w') ->
  wp (taskAdjustTokenQuota t d) Q w.
Proof.
  intros Hg Ht Hd Hr HQ. pose proof (good_nonneg _ _ Hg). pose proof (wt_token _ _ Ht).
  unfold taskAdjustTokenQuota. destruct (Z.leb_spec (TokenId (PrivateData t)) 0); [lia|].
  destruct (Z.eqb_spec d 0); [done|]. simpl orb. cbv iota.
  apply wp_bind, (wp_resolve n); [done|done|]. intros key w1 Hkey Hg1 He1 _.
  destruct (decide (key = "")); [done|]. apply wp_ignore. destruct (Z.ltb_spec 0 d).
  - apply (wp_decrease_token n); [done|lia|lia|]. intros w2 Hg2 He2. rewrite He1 in He2.
    apply HQ; [|done]. by replace (n + Z.abs d) with (n + d) by lia.
  - rewrite wrap64_id by (unfold int64_range; lia).
    apply (wp_increase_token n); [done|lia|lia|]. intros w2 Hg2 He2. rewrite He1, Z.opp_involutive in He2.
    apply HQ; [|done]. by replace (n + Z.abs d) with (n + - d) by lia.
Qed.

(** Writing the log changes no balance. *)
Lemma wp_task_log n t ty content reason q Q s :
  good n (mt_world s) ->
  (∀ s', good n (mt_world s') -> effective (mt_world s') = effective (mt_world s) ->
     mt_tasks s' = mt_tasks s -> mt_billed s' = mt_billed s -> Q (Ok tt) s') ->
  wp (RecordTaskBillingLog t ty content reason q) Q s.
Proof.
  intros Hg HQ. unfold RecordTaskBillingLog. destruct (_ && _); [by apply wp_ret, HQ|].
  apply wp_bind, wp_attempt, wp_in_world, (wp_username n); [done|]. intros name w1 Hg1 He1.
  assert (∀ w2, good n w2 -> effective w2 = effective (mt_world s) ->
    wp (let! now := in_world GetTimestamp in
        do! attempt (update (add_mt_log (mkTaskLog (UserId t)
          (match name with Ok name => name | Err _ => "" end) now ty content (taskModelName t)
          q (ChannelId t) (TokenId (PrivateData t)) (Group t) (TaskID t) reason))) in ret tt) Q
      (set_mt_world w2 s)) as Hrest.
  { intros w2 Hg2 He2. apply wp_bind, wp_in_world, wp_gets, wp_bind, wp_attempt.
    unfold wp, update. rewrite exec_no_faults by apply Hg2. simpl. by apply HQ. }
  apply wp_bind. destruct (0 <? TokenId (PrivateData t)).
  - apply wp_bind, wp_attempt, wp_in_world. simpl. unfold GetTokenById.
    pose proof (good_faults _ _ Hg1) as Hn. nfwp; try (by apply Hrest).
    all: try (destruct (token_row _ w1); nfwp); try (by apply Hrest).
    all: apply Hrest; [by eapply good_ext|rewrite <- He1; by apply effective_ext].
  - by apply wp_ret, Hrest.
Qed.

(** ** Refunds and settlements *)

Lemma wp_refund n t reason Q s :
  good n (mt_world s) -> wallet_task t (mt_world s) -> 0 < Quota t -> n + 2 * Quota t < 2 ^ 63 ->
  (∀ s', good (n + 2 * Quota t) (mt_world s') ->
     effective (mt_world s')
       = charge false (UserId t) (TokenId (PrivateData t)) (- Quota t) (effective (mt_world s)) ->
     mt_tasks s' = mt_tasks s -> mt_billed s' = mt_billed s -> Q (Ok tt) s') ->
  wp (RefundTaskQuota t reason) Q s.
Proof.
  intros Hg Ht Hq Hr HQ. pose proof (good_nonneg _ _ Hg). unfold RefundTaskQuota.
  destruct (Z.eqb_spec (Quota t) 0); [lia|]. rewrite wrap64_id by (unfold int64_range; lia).
  apply wp_bind, wp_attempt, wp_in_world, (wp_task_funding n); [done|apply Ht|lia|lia|].
  intros w1 Hg1 He1 Hs1. apply wp_bind, wp_in_world.
  apply (wp_task_token (n + Z.abs (- Quota t))); [done|by eapply wallet_task_ext|lia|lia|].
  intros w2 Hg2 He2. apply (wp_task_log (n + 2 * Quota t)).
  - simpl. by replace (n + 2 * Quota t) with (n + Z.abs (- Quota t) + Z.abs (- Quota t)) by lia.
  - intros s' Hg' He' Hb' Hl'. cbn [mt_world set_mt_world] in *. apply HQ; [done| |done|done].
    rewrite He', He2, He1. unfold charge. by rewrite charge_swap.
Qed.

(** The usage a supplementary charge is counted as. *)
Definition usage (u c d : Z) (l : Ledger) : Ledger :=
  if 0 <? d then ledger_step (OChannel c d) (ledger_step (OUsed u d) l) else l.

Lemma wp_recalculate n t actual reason Q s :
  good n (mt_world s) -> wallet_task t (mt_world s) ->
  0 < actual -> 0 <= Quota t -> n + 4 * (actual + Quota t) + 1 < 2 ^ 63 ->
  (∀ s', effective (mt_world s')
       = usage (UserId t) (ChannelId t) (actual - Quota t)
           (charge false (UserId t) (TokenId (PrivateData t)) (actual - Quota t) (effective (mt_world s))) ->
     mt_tasks s' = mt_tasks s -> mt_billed s' = mt_billed s -> Q (Ok (with_quota actual t)) s') ->
  wp (RecalculateTaskQuota t actual reason) Q s.
Proof.
  intros Hg Ht Ha Hq Hr HQ. pose proof (good_nonneg _ _ Hg). unfold RecalculateTaskQuota.
  destruct (Z.leb_spec actual 0); [lia|]. cbv zeta. rewrite wrap64_id by (unfold int64_range; lia).
  destruct (Z.eqb_spec (actual - Quota t) 0) as [Ed|Hd].
  { apply wp_ret. replace t with (with_quota actual t) at 1.
    - apply HQ; [|done|done]. rewrite Ed. unfold usage. simpl. by rewrite charge_0.
    - destruct t. unfold with_quota. simpl in *. f_equal. lia. }
  set (d := actual - Quota t) in *.
  apply wp_bind, wp_attempt, wp_in_world, (wp_task_funding n); [done|apply Ht|done|lia|].
  intros w1 Hg1 He1 Hs1. apply wp_bind, wp_in_world.
  apply (wp_task_token (n + Z.abs d)); [done|by eapply wallet_task_ext|done|lia|].
  intros w2 Hg2 He2. cbn [mt_world set_mt_world] in He2.
  assert (effective w2 = charge false (UserId t) (TokenId (PrivateData t)) d (effective (mt_world s))) as He.
  { rewrite He2, He1. unfold charge. by rewrite charge_swap. }
  destruct (Z.ltb_spec 0 d).
  - apply wp_bind, wp_in_world. apply (wp_op (n + Z.abs d + Z.abs d) (OUsed (UserId t) d)); [exact Hg2|done|simpl; lia|].
    intros w3 Hg3 He3. simpl weight in Hg3. apply wp_bind, wp_in_world.
    apply (wp_op (n + Z.abs d + Z.abs d + (Z.abs d + 1)) (OChannel (ChannelId t) d)); [exact Hg3|done|simpl; lia|].
    intros w4 Hg4 He4. apply wp_bind. eapply wp_task_log; [exact Hg4|].
    intros s' _ He' Hb' Hl'. apply wp_ret, HQ; [|done|done].
    cbn [mt_world set_mt_world] in *. rewrite He', He4, He3, He. unfold usage.
    destruct (Z.ltb_spec 0 d); [done|lia].
  - apply wp_bind. eapply wp_task_log; [exact Hg2|].
    intros s' _ He' Hb' Hl'. apply wp_ret, HQ; [|done|done].
    cbn [mt_world set_mt_world] in *. rewrite He', He. unfold usage. destruct (Z.ltb_spec 0 d); [lia|done].
Qed.

(** ** A poll that finds the task finished *)

Section poll.
Context (ServerAddress : string) (up : Upstream).

Definition with_final_progress (r : TaskInfo) (t : Task) : Task :=
  if decide (final_progress r = "") then t else with_status (Status t) (final_progress r) t.

(** The conditional update is won when the row is as the poller loaded it. *)
Lemma run_cas now t row s :
  World_faults (mt_world s) = [] -> mt_tasks s !! ID t = Some row ->
  run now (pattempt (UpdateWithStatus t (Status row))) s
    = (Ok (Ok true), set_mt_tasks (<[ID t := t]> (mt_tasks s)) s).
Proof.
  intros Hf Hrow. rewrite run_attempt. unfold UpdateWithStatus. rewrite run_stmt, exec_no_faults by done.
  unfold cas. rewrite Hrow. by rewrite decide_True.
Qed.

(** What is left of the poll once the update is won. *)
Lemma run_video_apply now r now' snap row t t1 settle refund s :
  apply_status ServerAddress now' r t = Some (t1, settle, refund) ->
  is_final (Status t1) = true -> sn_Status snap = Status row -> is_final (Status row) = false ->
  World_faults (mt_world s) = [] -> mt_tasks s !! ID t = Some row ->
  let t2 := with_final_progress r t1 in
  run now (video_apply ServerAddress up snap r now' t) s =
  run now (let* t := (if settle then bill (ID t2) Settled (settleTaskBillingOnComplete up t2 r) else pret t2) in
           do* (if refund then bill (ID t) Refunded (RefundTaskQuota t (FailReason t)) else pret tt) in
           pret (t, None)) (set_mt_tasks (<[ID t := t2]> (mt_tasks s)) s).
Proof.
  intros Ha Hfin Hsnap Hrow Hf Hr t2. unfold video_apply. rewrite Ha. fold (with_final_progress r t1). fold t2.
  apply apply_status_final in Ha as (Hid & _ & _).
  assert (Status t2 = Status t1 ∧ ID t2 = ID t) as [Hst Hid2].
  { subst t2. unfold with_final_progress. by destruct (decide _). }
  cbv zeta. rewrite Hst, Hfin. cbn [andb]. rewrite bool_decide_false by (rewrite Hsnap; congruence). cbn [negb].
  rewrite run_bind, run_bind, Hsnap, (run_cas now t2 row) by (done || by rewrite Hid2).
  rewrite Hid2. by destruct settle, refund.
Qed.

(** The fields billing reads, which polling does not touch. *)
Definition same_bill (t t' : Task) : Prop :=
  ID t' = ID t ∧ Quota t' = Quota t ∧ UserId t' = UserId t ∧ ChannelId t' = ChannelId t ∧
  TokenId (PrivateData t') = TokenId (PrivateData t) ∧ taskIsSubscription t' = taskIsSubscription t ∧
  BillingContext (PrivateData t') = BillingContext (PrivateData t).

Lemma wallet_task_same t t' w : same_bill t t' -> wallet_task t w -> wallet_task t' w.
Proof. intros (_ & _ & _ & _ & Ht & Hs & _) [H1 H2 H3]. split; rewrite ?Ht, ?Hs; done. Qed.

Lemma apply_failure now r t :
  ti_Status r = TaskStatusFailure ->
  ∃ t1, apply_status ServerAddress now r t = Some (t1, false, negb (Quota t =? 0)) ∧
    Status t1 = TaskStatusFailure ∧ FailReason t1 = ti_Reason r ∧ same_bill t t1.
Proof.
  intros Hst. unfold apply_status. rewrite Hst. simpl. destruct (FinishTime t =? 0); simpl;
    (eexists; split_and!; [reflexivity..|]); by unfold same_bill.
Qed.

Lemma apply_success now r t :
  ti_Status r = TaskStatusSuccess ->
  ∃ t1, apply_status ServerAddress now r t = Some (t1, true, false) ∧
    Status t1 = TaskStatusSuccess ∧ same_bill t t1.
Proof.
  intros Hst. unfold apply_status. rewrite Hst. simpl. destruct (FinishTime t =? 0); simpl;
    (eexists; split_and!; [reflexivity..|]); by unfold same_bill.
Qed.

(** The poll up to the conditional update. *)
Lemma run_single now n taskId t s body r :
  FetchTask up n t = Ok (Ok body) -> video_result up body = Ok (Some r) ->
  run now (updateVideoSingleTask ServerAddress up n taskId t) s =
  run now (video_apply ServerAddress up (Snapshot t) r (World_now (mt_world s))
             (with_data (redactVideoResponseBody up body) t)) s.
Proof.
  intros Hfetch Hres. unfold updateVideoSingleTask. rewrite Hfetch, Hres. cbv zeta.
  rewrite run_bind, run_stmt. unfold in_world, GetTimestamp, gets.
  by replace (set_mt_world (mt_world s) s) with s by (by destruct s).
Qed.

(** A billing step. *)
Lemma run_bill {A} now id b (m : M MT A) s :
  run now (bill id b m) s = (let '(r, s') := m s in (r, add_bill id b s')).
Proof. unfold bill. apply run_stmt. Qed.

(** A poll that finds a task failed gives its whole quota back to the wallet and
    the token that paid for it, marks the row failed with the upstream's reason, and
    changes no other row and no other balance. *)
Theorem failed_task_refunded now n taskId t s k body r :
  mt_tasks s !! ID t = Some t -> is_final (Status t) = false -> 0 < Quota t ->
  wallet_task t (mt_world s) -> good k (mt_world s) -> k + 2 * Quota t < 2 ^ 63 ->
  FetchTask up n t = Ok (Ok body) -> video_result up body = Ok (Some r) -> ti_Status r = TaskStatusFailure ->
  ∃ t' s', run now (updateVideoSingleTask ServerAddress up n taskId t) s = (Ok (t', None), s') ∧
    Status t' = TaskStatusFailure ∧ Progress t' = "100%" ∧ FailReason t' = ti_Reason r ∧
    mt_tasks s' = <[ID t := t']> (mt_tasks s) ∧ mt_billed s' = mt_billed s ++ [(ID t, Refunded)] ∧
    effective (mt_world s') =
      charge false (UserId t) (TokenId (PrivateData t)) (- Quota t) (effective (mt_world s)).
Proof.
  intros Hrow Hfin Hq Ht Hg Hr Hfetch Hres Hst. pose proof (good_faults _ _ Hg) as Hf.
  rewrite (run_single _ _ _ _ _ body r) by done. set (t0 := with_data _ t).
  destruct (apply_failure (World_now (mt_world s)) r t0 Hst) as (t1 & Ha & Hs1 & Hr1 & Hb1).
  assert (same_bill t t1) as Hb by exact Hb1. clear Hb1.
  assert ((Quota t0 =? 0) = false) as Hq0 by (change (Quota t0) with (Quota t); lia).
  rewrite Hq0 in Ha.
  rewrite (run_video_apply now r _ (Snapshot t) t t0 t1 false true s Ha)
    by (rewrite ?Hs1; done).
  assert (with_final_progress r t1 = with_status TaskStatusFailure "100%" t1) as ->.
  { unfold with_final_progress, final_progress. rewrite Hst, Hs1. done. }
  set (t2 := with_status _ _ t1). cbv zeta.
  assert (same_bill t t2) as Hb2 by exact Hb. pose proof Hb2 as (Hid & Hqu & Hus & _ & Htk & _).
  assert (wallet_task t2 (mt_world s)) as Hw2 by (by eapply wallet_task_same).
  set (s1 := set_mt_tasks _ s).
  assert (wp (RefundTaskQuota t2 (FailReason t2)) (λ x s', x = Ok tt ∧ mt_tasks s' = mt_tasks s1 ∧
    mt_billed s' = mt_billed s1 ∧ effective (mt_world s') =
      charge false (UserId t2) (TokenId (PrivateData t2)) (- Quota t2) (effective (mt_world s1))) s1) as Hwp.
  { apply (wp_refund k); rewrite ?Hqu; done. }
  unfold wp in Hwp. destruct (RefundTaskQuota t2 (FailReason t2) s1) as [x s2] eqn:Er.
  destruct Hwp as (Hx & Htasks & Hbill & Heff). simpl in Hx. subst x.
  exists t2, (add_bill (ID t2) Refunded s2).
  rewrite run_bind. change (run now (pret t2) s1) with (@Ok Task t2, s1). cbv iota beta.
  rewrite run_bind, run_bill, Er. split_and!; try done.
  - simpl in *. by rewrite Hbill, Hid.
  - cbn [mt_world add_bill snd] in Heff |- *. by rewrite Heff, Hus, Htk, Hqu.
Qed.

(** A poll that finds a task done charges the difference between what the adaptor
    says it cost and what was paid on submission, so that the task has cost exactly
    its actual quota, and counts a supplementary charge as usage of the user and of
    the channel; the row is marked done. *)
Theorem finished_task_costs_actual now n taskId t s k body r actual :
  mt_tasks s !! ID t = Some t -> is_final (Status t) = false -> 0 <= Quota t -> 0 < actual ->
  wallet_task t (mt_world s) -> good k (mt_world s) -> k + 4 * (actual + Quota t) + 1 < 2 ^ 63 ->
  match BillingContext (PrivateData t) with Some bc => PerCallBilling bc | None => false end = false ->
  FetchTask up n t = Ok (Ok body) -> video_result up body = Ok (Some r) -> ti_Status r = TaskStatusSuccess ->
  (∀ t', same_bill t t' -> AdjustBillingOnComplete up t' r = actual) ->
  ∃ t' s', run now (updateVideoSingleTask ServerAddress up n taskId t) s = (Ok (t', None), s') ∧
    Quota t' = actual ∧ Status t' = TaskStatusSuccess ∧
    (Status <$> mt_tasks s' !! ID t) = Some TaskStatusSuccess ∧
    mt_billed s' = mt_billed s ++ [(ID t, Settled)] ∧
    effective (mt_world s') =
      usage (UserId t) (ChannelId t) (actual - Quota t)
        (charge false (UserId t) (TokenId (PrivateData t)) (actual - Quota t) (effective (mt_world s))).
Proof.
  intros Hrow Hfin Hq Ha0 Ht Hg Hr Hpc Hfetch Hres Hst Hadj. pose proof (good_faults _ _ Hg) as Hf.
  rewrite (run_single _ _ _ _ _ body r) by done. set (t0 := with_data _ t).
  destruct (apply_success (World_now (mt_world s)) r t0 Hst) as (t1 & Ha & Hs1 & Hb1).
  assert (same_bill t t1) as Hb by exact Hb1. clear Hb1.
  rewrite (run_video_apply now r _ (Snapshot t) t t0 t1 true false s Ha)
    by (rewrite ?Hs1; done).
  set (t2 := with_final_progress r t1). cbv zeta.
  assert (same_bill t t2 ∧ Status t2 = TaskStatusSuccess) as [Hb2 Hs2].
  { subst t2. unfold with_final_progress. by destruct (decide _). }
  pose proof Hb2 as (Hid & Hqu & Hus & Hch & Htk & _ & Hbc).
  assert (wallet_task t2 (mt_world s)) as Hw2 by (by eapply wallet_task_same).
  set (s1 := set_mt_tasks _ s).
  assert (wp (settleTaskBillingOnComplete up t2 r) (λ x s', x = Ok (with_quota actual t2) ∧
    mt_tasks s' = mt_tasks s1 ∧ mt_billed s' = mt_billed s1 ∧ effective (mt_world s') =
      usage (UserId t2) (ChannelId t2) (actual - Quota t2)
        (charge false (UserId t2) (TokenId (PrivateData t2)) (actual - Quota t2) (effective (mt_world s1)))) s1)
    as Hwp.
  { unfold settleTaskBillingOnComplete. rewrite Hbc, Hpc, (Hadj t2) by done.
    destruct (Z.ltb_spec 0 actual); [|lia]. apply (wp_recalculate k); rewrite ?Hqu; done. }
  unfold wp in Hwp. destruct (settleTaskBillingOnComplete up t2 r s1) as [x s2] eqn:Er.
  destruct Hwp as (Hx & Htasks & Hbill & Heff). simpl in Hx. subst x.
  exists (with_quota actual t2), (add_bill (ID t2) Settled s2).
  rewrite run_bind, run_bill, Er. split_and!; try done.
  - simpl in *. by rewrite Htasks, lookup_insert_eq, <- Hs2.
  - simpl in *. by rewrite Hbill, Hid.
  - cbn [mt_world add_bill snd] in Heff |- *. by rewrite Heff, Hus, Htk, Hqu, Hch.
Qed.
End poll.
End media.
