(* ===== verification/TextQuota.v ===== *)
(** * TextQuota: what a text request costs

    Models the price computation of [service/text_quota.go], [service/quota.go],
    [service/tiered_settle.go] and [pkg/billingexpr/settle.go], the tool prices of
    [setting/operation_setting/tools.go] and the settlement of a text request.  Ratios are doubles, turned into decimals for the
    computation; the decimal package, the expression engine of tiered prices and the
    tables of the settings are interfaces. *)

From stdpp Require Export sorting.
From S2P Require Export GoString.
From S2P Require Export Billing.
From S2P Require Import Prelude.

(** A decimal literal of the source: the double nearest to [n / d]. *)
Definition lit (n d : Z) : float64 := fdiv (float_of_int n) (float_of_int d).

(** [int(math.Round(f))] *)
Definition QuotaRound (f : float64) : Z :=
  if is_finite f then
    let z := Qround_away (Q_of_float f) in
    if (- 2 ^ 63 <=? z) && (z <? 2 ^ 63) then z else - 2 ^ 63
  else - 2 ^ 63.

(** ** Tool prices ([setting/operation_setting/tools.go]) *)

Definition defaultToolPrices : gmap string float64 := list_to_map
  [("web_search", lit 10 1); ("web_search_preview", lit 10 1); ("file_search", lit 5 2);
   ("google_search", lit 14 1)].
Definition defaultToolPriceOverrides : gmap string float64 := list_to_map
  [("web_search_preview:gpt-4o*", lit 25 1); ("web_search_preview:gpt-4.1*", lit 25 1);
   ("web_search_preview:gpt-4o-mini*", lit 25 1); ("web_search_preview:gpt-4.1-mini*", lit 25 1)].

(** The configured prices over the built-in ones. *)
Definition merged_prices (prices : gmap string float64) : gmap string float64 :=
  prices ∪ (defaultToolPriceOverrides ∪ defaultToolPrices).

(** The entry of a key [tool:prefix*] for [toolName]. *)
Definition prefix_entry (toolName : string) (kv : string * float64) : option (string * float64) :=
  match Cut kv.1 ":" with
  | Some (tool, modelPart) => if decide (tool = toolName) then Some (TrimSuffix modelPart "*", kv.2) else None
  | None => None
  end.

Definition longer (e f : string * float64) : Prop := (String.length f.1 <= String.length e.1)%nat.
#[export] Instance longer_dec e f : Decision (longer e f).
Proof. unfold longer. apply _. Defined.

(** [RebuildToolPriceIndex]: the prefixes of a tool, longest first, and the price of
    the tool itself.  The code leaves the order of prefixes of the same length to the
    iteration of a map; it matters only for two keys that differ in the final star. *)
Definition prefixes_of (prices : gmap string float64) (toolName : string) : list (string * float64) :=
  merge_sort longer (omap (prefix_entry toolName) (map_to_list (merged_prices prices))).
Definition default_of (prices : gmap string float64) (toolName : string) : option float64 :=
  if Contains toolName ":" then None else merged_prices prices !! toolName.

Definition GetToolPriceForModel (prices : gmap string float64) (toolName modelName : string) : float64 :=
  match (if decide (modelName = "") then None
         else List.find (λ e, HasPrefix modelName e.1) (prefixes_of prices toolName)) with
  | Some e => e.2
  | None => default fzero (default_of prices toolName)
  end.
Definition GetToolPrice (prices : gmap string float64) (toolName : string) : float64 :=
  GetToolPriceForModel prices toolName "".

Definition gpt_image_prices (quality : string) : option (list (string * float64)) :=
  if decide (quality = "low") then
    Some [("1024x1024", lit 11 1000); ("1024x1536", lit 16 1000); ("1536x1024", lit 16 1000)]
  else if decide (quality = "medium") then
    Some [("1024x1024", lit 42 1000); ("1024x1536", lit 63 1000); ("1536x1024", lit 63 1000)]
  else if decide (quality = "high") then
    Some [("1024x1024", lit 167 1000); ("1024x1536", lit 25 100); ("1536x1024", lit 25 100)]
  else None.

Definition GetGPTImage1PriceOnceCall (quality size : string) : float64 :=
  match gpt_image_prices quality with
  | Some prices =>
      match List.find (λ e, String.eqb e.1 size) prices with Some e => e.2 | None => lit 167 1000 end
  | None => lit 167 1000
  end.

Definition GetGeminiInputAudioPricePerMillionTokens (modelName : string) : float64 :=
  if HasPrefix modelName "gemini-2.5-flash-preview-native-audio" then lit 3 1
  else if HasPrefix modelName "gemini-2.5-flash-preview-lite" then lit 1 2
  else if HasPrefix modelName "gemini-2.5-flash-preview" then lit 1 1
  else if HasPrefix modelName "gemini-2.5-flash" then lit 1 1
  else if HasPrefix modelName "gemini-2.0-flash" then lit 7 10
  else if HasPrefix modelName "gemini-robotics-er-1.5" then lit 1 1
  else fzero.

(** ** Data *)

Record InputTokenDetails : Type := mkInputDetails {
  CachedTokens : Z;
  CachedCreationTokens : Z;
  in_TextTokens : Z;
  in_AudioTokens : Z;
  in_ImageTokens : Z;
}.
Record OutputTokenDetails : Type := mkOutputDetails {
  out_TextTokens : Z;
  out_AudioTokens : Z;
  out_ImageTokens : Z;
  ReasoningTokens : Z;
}.

(** [Cost] is an interface value: the double in it, if it is one. *)
Record Usage : Type := mkUsage {
  PromptTokens : Z;
  CompletionTokens : Z;
  TotalTokens : Z;
  PromptCacheHitTokens : Z;
  UsageSemantic : string;
  UsageSource : string;
  PromptTokensDetails : InputTokenDetails;
  CompletionTokenDetails : OutputTokenDetails;
  InputTokens : Z;
  OutputTokens : Z;
  InputTokensDetails : option InputTokenDetails;
  ClaudeCacheCreation5mTokens : Z;
  ClaudeCacheCreation1hTokens : Z;
  Cost : option float64;
}.

(** [dto.Usage{}] *)
Definition emptyUsage : Usage :=
  mkUsage 0 0 0 0 "" "" (mkInputDetails 0 0 0 0 0) (mkOutputDetails 0 0 0 0) 0 0 None 0 0 None.

(** [types.PriceData]; [OtherRatios] in the order a [range] loop visits it. *)
Record PriceData : Type := mkPriceData {
  FreeModel : bool;
  ModelPrice : float64;
  ModelRatio : float64;
  CompletionRatio : float64;
  CacheRatio : float64;
  CacheCreationRatio : float64;
  CacheCreation5mRatio : float64;
  CacheCreation1hRatio : float64;
  ImageRatio : float64;
  AudioRatio : float64;
  AudioCompletionRatio : float64;
  OtherRatios : list float64;
  UsePrice : bool;
  QuotaToPreConsume : Z;
  GroupRatio : float64;
}.

(** The fields of [RelayInfo] and of the request's context that the price depends
    on.  [BuiltInTools]: the numbers of web searches and file searches, when the
    request has such a table. *)
Record TextInfo : Type := mkTextInfo {
  OriginModelName : string;
  Price : PriceData;
  FinalRequestRelayFormat : string;
  ChannelType : option Z;
  EstimatePromptTokens : Z;
  BuiltInTools : option (option Z * option Z);
  claude_web_search_requests : Z;
  image_generation_call : option (string * string);
}.

(** What the settings give: the configured tool prices and the built-in model
    ratios. *)
Class TextSettings := {
  toolPrices : gmap string float64;
  GetDefaultModelRatioMap : string -> option float64;
}.

Definition RelayFormatClaude : string := "claude".
Definition ChannelTypeOpenRouter : Z := 20.

Definition usageSemanticFromUsage (info : TextInfo) (usage : option Usage) : string :=
  match usage with
  | Some u => if decide (UsageSemantic u = "") then
                if decide (FinalRequestRelayFormat info = RelayFormatClaude) then "anthropic" else "openai"
              else UsageSemantic u
  | None => if decide (FinalRequestRelayFormat info = RelayFormatClaude) then "anthropic" else "openai"
  end.

Definition isLegacyClaudeDerivedOpenAIUsage (info : TextInfo) (usage : Usage) : bool :=
  if decide (FinalRequestRelayFormat info = RelayFormatClaude) then false
  else if negb (bool_decide (UsageSource usage = "")) || negb (bool_decide (UsageSemantic usage = "")) then false
  else (0 <? ClaudeCacheCreation5mTokens usage) || (0 <? ClaudeCacheCreation1hTokens usage).

Definition cacheWriteTokensTotal (creation c5m c1h : Z) : Z :=
  if (0 <? c5m) || (0 <? c1h) then
    let split := wrap64 (c5m + c1h) in if split <? creation then creation else split
  else creation.

Section price.
Context {CFG : Config} {TS : TextSettings} {D : Decimal}.

Definition hasCustomModelRatio (modelName : string) (currentRatio : float64) : bool :=
  match GetDefaultModelRatioMap modelName with
  | Some r => negb (feqb currentRatio r)
  | None => true
  end.

Definition CalcOpenRouterCacheCreateTokens (usage : Usage) (p : PriceData) : Z :=
  if feqb (CacheCreationRatio p) (float_of_int 1) then 0
  else
    let quotaPrice := fdiv (ModelRatio p) QuotaPerUnit in
    let promptCacheCreatePrice := fmul quotaPrice (CacheCreationRatio p) in
    let promptCacheReadPrice := fmul quotaPrice (CacheRatio p) in
    let completionPrice := fmul quotaPrice (CompletionRatio p) in
    let cost := default fzero (Cost usage) in
    QuotaRound (fdiv
      (fsub
        (fadd (fsub cost (fmul (float_of_int (PromptTokens usage)) quotaPrice))
          (fmul (float_of_int (CachedTokens (PromptTokensDetails usage))) (fsub quotaPrice promptCacheReadPrice)))
        (fmul (float_of_int (CompletionTokens usage)) completionPrice))
      (fsub promptCacheCreatePrice quotaPrice)).

(** ** Tools *)

Record ToolCalls : Type := mkToolCalls {
  WebSearchCallCount : Z;
  WebSearchPrice : float64;
  ClaudeWebSearchCallCount : Z;
  ClaudeWebSearchPrice : float64;
  FileSearchCallCount : Z;
  FileSearchPrice : float64;
  ImageGenerationCallPrice : float64;
}.

Definition positive_count (count : option Z) : option Z :=
  match count with Some n => if 0 <? n then Some n else None | None => None end.

Definition thousand : decimal := NewFromInt 1000.

(** The calls and their prices. *)
Definition tool_calls (info : TextInfo) : ToolCalls :=
  let web_price := GetToolPriceForModel toolPrices "web_search_preview" (OriginModelName info) in
  let '(web, webPrice) :=
    match BuiltInTools info with
    | Some (searches, _) =>
        match positive_count searches with Some n => (n, web_price) | None => (0, fzero) end
    | None => if HasSuffix (OriginModelName info) "search-preview" then (1, web_price) else (0, fzero)
    end in
  let claude := claude_web_search_requests info in
  let '(file, filePrice) :=
    match BuiltInTools info with
    | Some (_, searches) =>
        match positive_count searches with
        | Some n => (n, GetToolPrice toolPrices "file_search")
        | None => (0, fzero)
        end
    | None => (0, fzero)
    end in
  mkToolCalls web webPrice claude (if 0 <? claude then GetToolPrice toolPrices "web_search" else fzero)
    file filePrice
    (match image_generation_call info with
     | Some (quality, size) => GetGPTImage1PriceOnceCall quality size
     | None => fzero
     end).

(** [calculateTextToolCallSurcharge]: the sum, in the order the code adds it. *)
Definition calculateTextToolCallSurcharge (info : TextInfo) (groupRatio : float64) : decimal :=
  let t := tool_calls info in
  let dGroupRatio := NewFromFloat groupRatio in
  let dQuotaPerUnit := NewFromFloat QuotaPerUnit in
  let scaled d := dMul (dMul d dGroupRatio) dQuotaPerUnit in
  let surcharge := NewFromInt 0 in
  let surcharge :=
    match BuiltInTools info with
    | Some (searches, _) =>
        match positive_count searches with
        | Some n => dAdd surcharge (scaled (dDiv (dMul (NewFromFloat (WebSearchPrice t)) (NewFromInt n)) thousand))
        | None => surcharge
        end
    | None =>
        if HasSuffix (OriginModelName info) "search-preview"
        then dAdd surcharge (scaled (dDiv (NewFromFloat (WebSearchPrice t)) thousand))
        else surcharge
    end in
  let surcharge :=
    if 0 <? ClaudeWebSearchCallCount t
    then dAdd surcharge (dMul (scaled (dDiv (NewFromFloat (ClaudeWebSearchPrice t)) thousand))
                           (NewFromInt (ClaudeWebSearchCallCount t)))
    else surcharge in
  let surcharge :=
    if 0 <? FileSearchCallCount t
    then dAdd surcharge (scaled (dDiv (dMul (NewFromFloat (FileSearchPrice t))
                                         (NewFromInt (FileSearchCallCount t))) thousand))
    else surcharge in
  match image_generation_call info with
  | Some _ => dAdd surcharge (scaled (NewFromFloat (ImageGenerationCallPrice t)))
  | None => surcharge
  end.

(** ** The summary ([calculateTextQuotaSummary]) *)

Record textQuotaSummary : Type := mkSummary {
  sm_PromptTokens : Z;
  sm_CompletionTokens : Z;
  sm_TotalTokens : Z;
  sm_CacheTokens : Z;
  sm_CacheCreationTokens : Z;
  sm_CacheCreationTokens5m : Z;
  sm_CacheCreationTokens1h : Z;
  sm_ImageTokens : Z;
  sm_AudioTokens : Z;
  sm_IsClaudeUsageSemantic : bool;
  sm_AudioInputPrice : float64;
  sm_ToolCallSurchargeQuota : decimal;
  sm_Quota : Z;
}.

(** The usage that is billed when the upstream reports none. *)
Definition estimated_usage (info : TextInfo) : Usage :=
  {| emptyUsage with PromptTokens := EstimatePromptTokens info; TotalTokens := EstimatePromptTokens info |}.

(** OpenRouter reports the tokens of Claude models with the cached ones included and
    leaves out those written to the cache: prompt tokens and cache writes that are
    billed.  [usage.Cost != 0] compares an interface with an [int]: it holds for
    every cost that was decoded. *)
Definition openrouter_tokens (info : TextInfo) (usage : Usage) (claude : bool) : Z * Z :=
  let p := Price info in
  let prompt := PromptTokens usage in
  let creation := CachedCreationTokens (PromptTokensDetails usage) in
  if bool_decide (ChannelType info = Some ChannelTypeOpenRouter) && claude then
    let prompt := wrap64 (prompt - CachedTokens (PromptTokensDetails usage)) in
    let isUsingCustomSettings := UsePrice p || hasCustomModelRatio (OriginModelName info) (ModelRatio p) in
    let creation :=
      if (creation =? 0) && negb (feqb (CacheCreationRatio p) (float_of_int 1)) && negb isUsingCustomSettings then
        let maybe := CalcOpenRouterCacheCreateTokens usage p in
        if (0 <=? maybe) && (maybe <=? prompt) then maybe else creation
      else creation in
    (wrap64 (prompt - creation), creation)
  else (prompt, creation).

(** The parts of the prompt: what is left at the base price, and the weighted tokens
    read from and written to the cache and of images; and the quota of the audio
    tokens, when the model has a price for them. *)
Record PromptParts : Type := mkParts {
  baseTokens : decimal;
  cachedTokensWithRatio : decimal;
  cachedCreationTokensWithRatio : decimal;
  imageTokensWithRatio : decimal;
  audioInputQuota : decimal;
}.

Definition zero : decimal := NewFromInt 0.

(** One category: its tokens are taken out of the base, if they were counted there,
    and weighted. *)
Definition carve (counted : bool) (base : decimal) (tokens : Z) (ratio : float64) : decimal * decimal :=
  let dTokens := NewFromInt tokens in
  if negb (dIsZero dTokens)
  then (if counted then dSub base dTokens else base, dMul dTokens (NewFromFloat ratio))
  else (base, zero).

(** The tokens written to the cache; where they come on top of the prompt tokens,
    those kept for 5 minutes and for an hour have their own ratios. *)
Definition carve_creation (p : PriceData) (inclusive : bool) (base : decimal) (creation c5m c1h : Z)
    : decimal * decimal :=
  let dCachedCreationTokens := NewFromInt creation in
  if negb (dIsZero dCachedCreationTokens) || ((0 <? c5m) || (0 <? c1h)) then
    if inclusive then
      (dSub base dCachedCreationTokens, dMul dCachedCreationTokens (NewFromFloat (CacheCreationRatio p)))
    else
      let remaining := wrap64 (wrap64 (creation - c5m) - c1h) in
      let remaining := if remaining <? 0 then 0 else remaining in
      (base, dAdd (dAdd (dMul (NewFromInt remaining) (NewFromFloat (CacheCreationRatio p)))
                     (dMul (NewFromInt c5m) (NewFromFloat (CacheCreation5mRatio p))))
               (dMul (NewFromInt c1h) (NewFromFloat (CacheCreation1hRatio p))))
  else (base, zero).

(** Audio tokens of a model with a price for them. *)
Definition carve_audio (p : PriceData) (base : decimal) (audio : Z) (audioPrice : float64) : decimal * decimal :=
  let dAudioTokens := NewFromInt audio in
  if negb (dIsZero dAudioTokens) && fltb fzero audioPrice then
    (dSub base dAudioTokens,
     dMul (dMul (dMul (dDiv (NewFromFloat audioPrice) (NewFromInt 1000000)) dAudioTokens)
             (NewFromFloat (GroupRatio p))) (NewFromFloat QuotaPerUnit))
  else (base, zero).

(** [inclusive]: the prompt tokens include those of the cache. *)
Definition prompt_parts (p : PriceData) (inclusive : bool)
    (prompt cached creation c5m c1h image audio : Z) (audioPrice : float64) : PromptParts :=
  let '(base, cachedPart) := carve inclusive (NewFromInt prompt) cached (CacheRatio p) in
  let '(base, creationPart) := carve_creation p inclusive base creation c5m c1h in
  let '(base, imagePart) := carve true base image (ImageRatio p) in
  let '(base, audioPart) := carve_audio p base audio audioPrice in
  mkParts base cachedPart creationPart imagePart audioPart.

Definition with_other_ratios (p : PriceData) (q : decimal) : decimal :=
  foldl (λ q r, dMul q (NewFromFloat r)) q (OtherRatios p).

Definition model_group_ratio (p : PriceData) : decimal :=
  dMul (NewFromFloat (ModelRatio p)) (NewFromFloat (GroupRatio p)).

(** The price by tokens, at least 1 unless the ratio is 0 ... *)
Definition ratio_price (p : PriceData) (parts : PromptParts) (completion : Z) (surcharge : decimal) : decimal :=
  let ratio := model_group_ratio p in
  let promptQuota := dAdd (dAdd (dAdd (baseTokens parts) (cachedTokensWithRatio parts))
    (imageTokensWithRatio parts)) (cachedCreationTokensWithRatio parts) in
  let completionQuota := dMul (NewFromInt completion) (NewFromFloat (CompletionRatio p)) in
  let q := dMul (dAdd promptQuota completionQuota) ratio in
  let q := with_other_ratios p (dAdd (dAdd q surcharge) (audioInputQuota parts)) in
  if negb (dIsZero ratio) && dLessThanOrEqual q zero then NewFromInt 1 else q.

(** ... and the price of a model that is paid by the call. *)
Definition fixed_price (p : PriceData) (surcharge : decimal) : decimal :=
  with_other_ratios p (dAdd (dAdd
    (dMul (dMul (NewFromFloat (ModelPrice p)) (NewFromFloat QuotaPerUnit)) (NewFromFloat (GroupRatio p)))
    surcharge) zero).

(** No tokens cost nothing, and tokens of a model with a price at least 1. *)
Definition at_least_one (p : PriceData) (total quota : Z) : Z :=
  if total =? 0 then 0
  else if negb (dIsZero (model_group_ratio p)) && (quota =? 0) then 1 else quota.

Definition calculateTextQuotaSummary (info : TextInfo) (usage : option Usage) : textQuotaSummary :=
  let p := Price info in
  let claude := bool_decide (usageSemanticFromUsage info usage = "anthropic") in
  let u := default (estimated_usage info) usage in
  let d := PromptTokensDetails u in
  let total := wrap64 (PromptTokens u + CompletionTokens u) in
  let inclusive := negb claude && negb (isLegacyClaudeDerivedOpenAIUsage info u) in
  let '(prompt, creation) := openrouter_tokens info u claude in
  let surcharge := calculateTextToolCallSurcharge info (GroupRatio p) in
  let audioPrice := GetGeminiInputAudioPricePerMillionTokens (OriginModelName info) in
  let parts := prompt_parts p inclusive prompt (CachedTokens d) creation
    (ClaudeCacheCreation5mTokens u) (ClaudeCacheCreation1hTokens u) (in_ImageTokens d) (in_AudioTokens d)
    audioPrice in
  let q := if UsePrice p then fixed_price p surcharge
           else ratio_price p parts (CompletionTokens u) surcharge in
  mkSummary prompt (CompletionTokens u) total (CachedTokens d) creation
    (ClaudeCacheCreation5mTokens u) (ClaudeCacheCreation1hTokens u) (in_ImageTokens d) (in_AudioTokens d)
    claude (if negb (UsePrice p) && negb (in_AudioTokens d =? 0) then audioPrice else fzero)
    surcharge (at_least_one p total (dIntPart (dRound q))).

(** ** Audio ([calculateAudioQuota]) *)

Record QuotaInfo : Type := mkQuotaInfo {
  InputText : Z;
  InputAudio : Z;
  OutputText : Z;
  OutputAudio : Z;
  qi_UsePrice : bool;
  qi_ModelPrice : float64;
  qi_ModelRatio : float64;
  qi_GroupRatio : float64;
}.

(** [completion], [audio], [audioCompletion]: the ratios of the model. *)
Definition calculateAudioQuota (completion audio audioCompletion : float64) (info : QuotaInfo) : Z :=
  if qi_UsePrice info then
    dIntPart (dMul (dMul (NewFromFloat (qi_ModelPrice info)) (NewFromFloat QuotaPerUnit))
                (NewFromFloat (qi_GroupRatio info)))
  else
    let ratio := dMul (NewFromFloat (qi_GroupRatio info)) (NewFromFloat (qi_ModelRatio info)) in
    let q := dAdd zero (NewFromInt (InputText info)) in
    let q := dAdd q (dMul (NewFromInt (OutputText info)) (NewFromFloat completion)) in
    let q := dAdd q (dMul (NewFromInt (InputAudio info)) (NewFromFloat audio)) in
    let q := dAdd q (dMul (dMul (NewFromInt (OutputAudio info)) (NewFromFloat audio))
                       (NewFromFloat audioCompletion)) in
    let q := dMul q ratio in
    let q := if negb (dIsZero ratio) && dLessThanOrEqual q zero then NewFromInt 1 else q in
    dIntPart (dRound q).

(** ** Tiered prices ([service/tiered_settle.go], [pkg/billingexpr/settle.go]) *)

Record TokenParams : Type := mkTokenParams {
  tp_P : float64;
  tp_C : float64;
  tp_Len : float64;
  tp_CR : float64;
  tp_CC : float64;
  tp_CC1h : float64;
  tp_Img : float64;
  tp_ImgO : float64;
  tp_AI : float64;
  tp_AO : float64;
}.

Definition not_below_zero (f : float64) : float64 := if fltb f fzero then fzero else f.

Definition BuildTieredTokenParams (usage : Usage) (isClaudeUsageSemantic : bool) (usedVars : string -> bool)
    : TokenParams :=
  let d := PromptTokensDetails usage in
  let o := CompletionTokenDetails usage in
  let p := float_of_int (PromptTokens usage) in
  let c := float_of_int (CompletionTokens usage) in
  let cr := float_of_int (CachedTokens d) in
  let '(cc5m, cc1h) :=
    if decide (UsageSemantic usage = "anthropic")
    then (float_of_int (ClaudeCacheCreation5mTokens usage), float_of_int (ClaudeCacheCreation1hTokens usage))
    else (float_of_int (CachedCreationTokens d), fzero) in
  let img := float_of_int (in_ImageTokens d) in
  let ai := float_of_int (in_AudioTokens d) in
  let imgO := float_of_int (out_ImageTokens o) in
  let ao := float_of_int (out_AudioTokens o) in
  let inputLen := if isClaudeUsageSemantic then fadd (fadd (fadd p cr) cc5m) cc1h else p in
  let less (v : string) (x f : float64) := if usedVars v then fsub f x else f in
  let '(p, c) :=
    if isClaudeUsageSemantic then (p, c)
    else (less "ai" ai (less "img" img (less "cc1h" cc1h (less "cc" cc5m (less "cr" cr p)))),
          less "ao" ao (less "img_o" imgO c)) in
  mkTokenParams (not_below_zero p) (not_below_zero c) inputLen cr cc5m cc1h img imgO ai ao.

Record BillingSnapshot : Type := mkBillingSnapshot {
  BillingMode : string;
  ExprString : string;
  snap_GroupRatio : float64;
  EstimatedQuotaAfterGroup : Z;
  EstimatedTier : string;
  snap_QuotaPerUnit : float64;
}.

Record TieredResult : Type := mkTieredResult {
  ActualQuotaBeforeGroup : float64;
  ActualQuotaAfterGroup : Z;
  MatchedTier : string;
  CrossedTier : bool;
}.

(** [run_expr]: what the engine makes of the expression, the cost and the tier. *)
Definition ComputeTieredQuotaWithRequest (run_expr : string -> TokenParams -> result (float64 * string))
    (snap : BillingSnapshot) (params : TokenParams) : result TieredResult :=
  match run_expr (ExprString snap) params with
  | Err e => Err e
  | Ok (cost, tier) =>
      let quotaBeforeGroup := fmul (fdiv cost (float_of_int 1000000)) (snap_QuotaPerUnit snap) in
      Ok (mkTieredResult quotaBeforeGroup (QuotaRound (fmul quotaBeforeGroup (snap_GroupRatio snap))) tier
            (negb (bool_decide (tier = EstimatedTier snap))))
  end.

(** [None]: the request is not billed by tiers. *)
Definition TryTieredSettle (run_expr : string -> TokenParams -> result (float64 * string))
    (snap : option BillingSnapshot) (preConsumed : Z) (params : TokenParams) : option (Z * option TieredResult) :=
  match snap with
  | None => None
  | Some snap =>
      if decide (BillingMode snap = "tiered_expr") then
        match ComputeTieredQuotaWithRequest run_expr snap params with
        | Err _ => Some (if preConsumed <=? 0 then EstimatedQuotaAfterGroup snap else preConsumed, None)
        | Ok r => Some (ActualQuotaAfterGroup r, Some r)
        end
      else None
  end.

Definition composeTieredTextQuota (snap : option BillingSnapshot) (s : textQuotaSummary) (tieredQuota : Z)
    (r : option TieredResult) : Z :=
  let surcharge := sm_ToolCallSurchargeQuota s in
  if dIsZero surcharge then tieredQuota
  else
    match r, snap with
    | Some r, Some snap =>
        dIntPart (dRound (dAdd (dMul (NewFromFloat (ActualQuotaBeforeGroup r)) (NewFromFloat (snap_GroupRatio snap)))
          surcharge))
    | _, _ => wrap64 (tieredQuota + dIntPart (dRound surcharge))
    end.

(** The quota [PostTextConsumeQuota] settles. *)
Definition text_quota (run_expr : string -> TokenParams -> result (float64 * string))
    (used_vars : string -> string -> bool) (info : TextInfo) (snap : option BillingSnapshot) (preConsumed : Z)
    (usage : option Usage) : textQuotaSummary * Z :=
  let s := calculateTextQuotaSummary info usage in
  match usage with
  | None => (s, sm_Quota s)
  | Some u =>
      let vars v := match snap with Some snap => used_vars (ExprString snap) v | None => false end in
      match TryTieredSettle run_expr snap preConsumed
              (BuildTieredTokenParams u (sm_IsClaudeUsageSemantic s) vars) with
      | None => (s, sm_Quota s)
      | Some (tieredQuota, r) => (s, composeTieredTextQuota snap s tieredQuota r)
      end
  end.

(** The end of every settlement: the usage is counted for the user and the channel,
    unless no tokens were used, and the session is settled; a failure to settle is
    logged. *)
Definition settle_usage (totalTokens channelId quota : Z) : BM unit :=
  let! info := gets b_info in
  do! (if totalTokens =? 0 then ret tt
       else do! lift (UpdateUserUsedQuotaAndRequestCount (RelayInfo_UserId info) quota) in
            lift (UpdateChannelUsedQuota channelId quota)) in
  bignore (SettleBilling quota).

(** The settlement of [PostTextConsumeQuota]. *)
Definition settle_text (run_expr : string -> TokenParams -> result (float64 * string))
    (used_vars : string -> string -> bool) (info : TextInfo) (snap : option BillingSnapshot) (channelId : Z)
    (usage : option Usage) : BM Z :=
  let! preConsumed := gets (λ b, RelayInfo_FinalPreConsumedQuota (b_info b)) in
  let '(s, quota) := text_quota run_expr used_vars info snap preConsumed usage in
  do! settle_usage (sm_TotalTokens s) channelId quota in
  ret quota.

End price.
