(* ===== verification/TextProps.v ===== *)
(** * TextProps: the price of a text request

    The price of [TextQuota] against a reference: tokens in categories, each with its
    weight, summed and rounded once; a model with a price is never free once tokens
    were used; and the settlement charges that price to the wallet, the token and the
    usage counters alike. *)

From S2P Require Export TextQuota.
From S2P Require Export BillingProps.
From S2P Require Import Prelude.
From Stdlib Require Import QArith Qround Lqa.

#[local] Open Scope Z_scope.

(** ** Rounding *)

#[export] Instance Qround_away_proper : Proper (Qeq ==> eq) Qround_away.
Proof.
  intros a b E. unfold Qround_away.
  assert (Qle_bool 0 a = Qle_bool 0 b) as ->.
  { apply eq_true_iff_eq. rewrite !Qle_bool_iff. by rewrite E. }
  destruct (Qle_bool 0 b); [|f_equal]; apply Qfloor_comp; by rewrite E.
Qed.

Lemma Qround_away_nonneg q : (0 <= q)%Q -> 0 <= Qround_away q.
Proof.
  intros H. unfold Qround_away. rewrite (proj2 (Qle_bool_iff 0 q) H).
  change 0 with (Qfloor 0). apply Qfloor_resp_le. lra.
Qed.

Lemma Qround_away_nonpos q : (q <= 0)%Q -> Qround_away q <= 0.
Proof.
  intros H. unfold Qround_away. destruct (Qle_bool 0 q) eqn:E.
  - apply Qle_bool_iff in E. rewrite (Qle_antisym q 0 H E : q == 0)%Q. done.
  - enough (0 <= Qfloor (- q + (1 # 2))) by lia. change 0 with (Qfloor 0). apply Qfloor_resp_le.
    lra.
Qed.

Lemma Qround_away_int n : Qround_away (inject_Z n) = n.
Proof.
  unfold Qround_away. destruct (Qle_bool 0 (inject_Z n)).
  - unfold Qfloor, Qplus, inject_Z; simpl. symmetry. apply (Z.div_unique_pos _ 2 _ 1); lia.
  - enough (Qfloor (- inject_Z n + (1 # 2)) = - n) by lia.
    unfold Qfloor, Qplus, inject_Z; simpl. symmetry. apply (Z.div_unique_pos _ 2 _ 1); lia.
Qed.

Lemma dIntPart_round `{L : DecimalLaws} a :
  int64_range (Qround_away (dvalue a)) -> dIntPart (dRound a) = Qround_away (dvalue a).
Proof. intros H. apply dIntPart_int; [apply dvalue_round|done]. Qed.

Lemma dIsZero_int `{L : DecimalLaws} n : dIsZero (NewFromInt n) = (n =? 0).
Proof.
  apply eq_true_iff_eq. rewrite dIsZero_spec, dvalue_int, Z.eqb_eq. change 0%Q with (inject_Z 0).
  apply inject_Z_injective.
Qed.

(** ** The reference *)

Section reference.
Context {CFG : Config} {TS : TextSettings} {D : Decimal} {L : DecimalLaws D}.

(** The value of a ratio. *)
Definition ratio_of (f : float64) : Q := dvalue (NewFromFloat f).

(** Tokens and their weights, summed. *)
Definition weigh (l : list (Z * Q)) : Q := foldr (λ c acc, inject_Z c.1 * c.2 + acc)%Q 0%Q l.
Definition tokens_in (l : list (Z * Q)) : Z := foldr (λ c acc, c.1 + acc) 0 l.
Definition product (rs : list float64) : Q := foldr (λ r acc, ratio_of r * acc)%Q 1%Q rs.

(** The tokens with a price of their own, per token: the audio of some models. *)
Definition priced_audio (audio : Z) (audioPrice : float64) : Z :=
  if fltb fzero audioPrice then audio else 0.

(** The weight of the tokens written to the cache. *)
Definition written_categories (p : PriceData) (inclusive : bool) (creation c5m c1h : Z) : list (Z * Q) :=
  if inclusive then [(creation, ratio_of (CacheCreationRatio p))]
  else [(Z.max 0 (creation - c5m - c1h), ratio_of (CacheCreationRatio p));
        (c5m, ratio_of (CacheCreation5mRatio p)); (c1h, ratio_of (CacheCreation1hRatio p))].

(** The categories of a report: the rest of the prompt, tokens read from the cache,
    written to the cache, images.  With [inclusive] the cached tokens are part of the
    prompt tokens, else they come on top of them. *)
Definition prompt_categories (p : PriceData) (inclusive : bool)
    (prompt cached creation c5m c1h image audio : Z) (audioPrice : float64) : list (Z * Q) :=
  [(prompt - image - priced_audio audio audioPrice - (if inclusive then cached + creation else 0), 1%Q);
   (cached, ratio_of (CacheRatio p));
   (image, ratio_of (ImageRatio p))] ++
  written_categories p inclusive creation c5m c1h.

(** A quotient as decimals keep it: rounded to 16 places. *)
Definition rounded16 (q : Q) : Q := (inject_Z (Qround_away (q * inject_Z (10 ^ 16))) / inject_Z (10 ^ 16))%Q.

(** The quota of the audio tokens with a price of their own, in units per million. *)
Definition audio_value (p : PriceData) (audio : Z) (audioPrice : float64) : Q :=
  (rounded16 (ratio_of audioPrice / inject_Z 1000000) * inject_Z (priced_audio audio audioPrice) * ratio_of (GroupRatio p) * ratio_of QuotaPerUnit)%Q.

Definition group_price (p : PriceData) : Q := (ratio_of (ModelRatio p) * ratio_of (GroupRatio p))%Q.

Definition reference_price (p : PriceData) (tokens : list (Z * Q)) (surcharge audio : Q) : Q :=
  ((weigh tokens * group_price p + surcharge + audio) * product (OtherRatios p))%Q.

(** Rounded once, at least 1 for a model with a price, and nothing without tokens. *)
Definition reference_quota (p : PriceData) (total : Z) (price : Q) : Z :=
  if total =? 0 then 0
  else if Qeq_bool (group_price p) 0 then Qround_away price else Z.max 1 (Qround_away price).

(** The calls of the tools that cost: searches of the web and of files the Responses API
    reports, one search for a search model that has no such report, Claude's searches and
    an image. *)
Definition web_calls (info : TextInfo) : Z :=
  match BuiltInTools info with
  | Some (searches, _) => Z.max 0 (default 0 searches)
  | None => if HasSuffix (OriginModelName info) "search-preview" then 1 else 0
  end.
Definition file_calls (info : TextInfo) : Z :=
  match BuiltInTools info with Some (_, searches) => Z.max 0 (default 0 searches) | None => 0 end.
Definition image_price (info : TextInfo) : Q :=
  match image_generation_call info with Some (quality, size) => ratio_of (GetGPTImage1PriceOnceCall quality size) | None => 0 end.

(** Their quota: the prices of searches are in units per thousand. *)
Definition tool_value (info : TextInfo) : Q :=
  let web := ratio_of (GetToolPriceForModel toolPrices "web_search_preview" (OriginModelName info)) in
  let claude := ratio_of (GetToolPrice toolPrices "web_search") in
  let file := ratio_of (GetToolPrice toolPrices "file_search") in
  ((rounded16 (web * inject_Z (web_calls info) / inject_Z 1000) +
    inject_Z (Z.max 0 (claude_web_search_requests info)) * rounded16 (claude / inject_Z 1000) +
    rounded16 (file * inject_Z (file_calls info) / inject_Z 1000) + image_price info) *
   ratio_of (GroupRatio (Price info)) * ratio_of QuotaPerUnit)%Q.

(** The plain tokens of the prompt and those written to the cache.  OpenRouter counts the
    tokens read from the cache of Claude among those of the prompt and does not report
    those written: they are estimated from its cost when the model has its default ratios,
    and the estimate counts when the prompt has that many. *)
Definition prompt_and_written (info : TextInfo) (u : Usage) (claude : bool) : Z * Z :=
  let p := Price info in
  let reported := CachedCreationTokens (PromptTokensDetails u) in
  if bool_decide (ChannelType info = Some ChannelTypeOpenRouter) && claude then
    let uncached := PromptTokens u - CachedTokens (PromptTokensDetails u) in
    let estimate := CalcOpenRouterCacheCreateTokens u p in
    let estimated := (reported =? 0) && negb (feqb (CacheCreationRatio p) (float_of_int 1)) &&
      negb (UsePrice p) && negb (hasCustomModelRatio (OriginModelName info) (ModelRatio p)) &&
      (0 <=? estimate) && (estimate <=? uncached) in
    let written := if estimated then estimate else reported in
    (uncached - written, written)
  else (PromptTokens u, reported).

(** ** The parts of the code's price *)

#[export] Instance rounded16_proper : Proper (Qeq ==> Qeq) rounded16.
Proof. intros a b E. unfold rounded16. by rewrite E. Qed.

Lemma dDiv_value a n : n ≠ 0 -> (dvalue (dDiv a (NewFromInt n)) == rounded16 (dvalue a / inject_Z n))%Q.
Proof.
  intros Hn. unfold rounded16. rewrite dvalue_div; [by rewrite dvalue_int|]. rewrite dvalue_int.
  change 0%Q with (inject_Z 0). by rewrite inject_Z_injective.
Qed.

Lemma rounded16_none q : (rounded16 (q * inject_Z 0 / inject_Z 1000) == 0)%Q.
Proof. assert (q * inject_Z 0 / inject_Z 1000 == 0)%Q as -> by (unfold inject_Z; field). done. Qed.

Lemma scaled_value d g :
  (dvalue (dMul (dMul d (NewFromFloat g)) (NewFromFloat QuotaPerUnit)) == dvalue d * ratio_of g * ratio_of QuotaPerUnit)%Q.
Proof. by rewrite !dvalue_mul. Qed.

(** The code's surcharge, with its skipped tools, is the price of the calls. *)
Lemma surcharge_value info :
  (dvalue (calculateTextToolCallSurcharge info (GroupRatio (Price info))) == tool_value info)%Q.
Proof.
  unfold calculateTextToolCallSurcharge, tool_value, web_calls, file_calls, image_price, tool_calls, positive_count, thousand.
  cbv zeta. generalize (GetToolPriceForModel toolPrices "web_search_preview" (OriginModelName info)). intros web.
  generalize (GetToolPrice toolPrices "web_search"). intros claude.
  generalize (GetToolPrice toolPrices "file_search"). intros file.
  assert (∀ n, (0 <? n) = false -> Z.max 0 n = 0) as Hno by lia.
  assert (∀ n, (0 <? n) = true -> Z.max 0 n = n) as Hyes by lia.
  destruct (BuiltInTools info) as [[[n|] [k|]]|]; [destruct (0 <? n) eqn:En, (0 <? k) eqn:Ek|destruct (0 <? n) eqn:En
    |destruct (0 <? k) eqn:Ek| |destruct (HasSuffix _ _)];
    destruct (0 <? claude_web_search_requests info) eqn:Ec; destruct (image_generation_call info) as [[quality size]|];
    cbn [WebSearchCallCount WebSearchPrice ClaudeWebSearchCallCount ClaudeWebSearchPrice FileSearchCallCount
         FileSearchPrice ImageGenerationCallPrice default from_option id];
    repeat match goal with
    | H : (0 <? _) = true |- _ => rewrite ?H, ?(Hyes _ H); clear H
    | H : (0 <? _) = false |- _ => rewrite ?H, ?(Hno _ H); clear H
    end; change (Z.max 0 0) with 0; change (0 <? 0) with false; cbv iota;
    rewrite ?rounded16_none; change (inject_Z 1) with 1%Q; rewrite ?Qmult_1_r;
    repeat first [rewrite dvalue_add | rewrite scaled_value | rewrite (dvalue_mul (dMul _ _)) ];
    rewrite ?dDiv_value, ?dvalue_mul, ?dvalue_int by done; change (inject_Z 0) with 0%Q; fold (ratio_of web);
    fold (ratio_of claude); fold (ratio_of file); try fold (ratio_of (GetGPTImage1PriceOnceCall quality size)); ring.
Qed.

(** OpenRouter's tokens without the wrapping. *)
Lemma openrouter_tokens_value info u claude :
  - 2 ^ 60 <= PromptTokens u < 2 ^ 60 -> 0 <= CachedTokens (PromptTokensDetails u) < 2 ^ 60 ->
  0 <= (prompt_and_written info u claude).2 < 2 ^ 60 ->
  openrouter_tokens info u claude = prompt_and_written info u claude.
Proof.
  unfold openrouter_tokens, prompt_and_written. intros Hp Hc. destruct (bool_decide _ && claude); [|done]. cbv zeta.
  rewrite (wrap64_id (PromptTokens u - _)) by (unfold int64_range; lia). rewrite negb_orb, !andb_assoc.
  set (b := (CachedCreationTokens _ =? 0) && _ && _ && _).
  set (uncached := PromptTokens u - CachedTokens _) in *. set (estimate := CalcOpenRouterCacheCreateTokens _ _).
  replace (if b then if (0 <=? estimate) && (estimate <=? uncached) then estimate else CachedCreationTokens (PromptTokensDetails u)
           else CachedCreationTokens (PromptTokensDetails u))
    with (if b && (0 <=? estimate) && (estimate <=? uncached) then estimate else CachedCreationTokens (PromptTokensDetails u))
    by (rewrite <- andb_assoc; by destruct b).
  intros Hw. cbn [snd] in Hw. rewrite wrap64_id by (unfold int64_range; lia). done.
Qed.

Lemma with_other_ratios_value p q :
  (dvalue (with_other_ratios p q) == dvalue q * product (OtherRatios p))%Q.
Proof.
  unfold with_other_ratios. generalize (OtherRatios p) as rs. intros rs. revert q.
  induction rs as [|r rs IH]; intros q; simpl; [ring|]. rewrite IH, dvalue_mul. unfold ratio_of. ring.
Qed.

Lemma model_group_ratio_zero p : dIsZero (model_group_ratio p) = Qeq_bool (group_price p) 0.
Proof.
  apply eq_true_iff_eq. rewrite dIsZero_spec, Qeq_bool_iff. unfold model_group_ratio.
  by rewrite dvalue_mul.
Qed.

(** What is rounded when the model is priced by ratio. *)
Lemma ratio_price_value p parts completion surcharge :
  let price := reference_price p
    [(1, (dvalue (baseTokens parts) + dvalue (cachedTokensWithRatio parts) +
          dvalue (imageTokensWithRatio parts) + dvalue (cachedCreationTokensWithRatio parts))%Q);
     (completion, ratio_of (CompletionRatio p))] (dvalue surcharge) (dvalue (audioInputQuota parts)) in
  (dvalue (ratio_price p parts completion surcharge) ==
   if negb (Qeq_bool (group_price p) 0) && Qle_bool price 0 then 1 else price)%Q.
Proof.
  intros price. unfold ratio_price. rewrite model_group_ratio_zero.
  set (q := with_other_ratios p _).
  assert (dvalue q == price)%Q as Eq.
  { unfold q, price, reference_price, weigh, group_price, model_group_ratio, ratio_of; simpl.
    rewrite with_other_ratios_value, !dvalue_add, !dvalue_mul, !dvalue_add, !dvalue_mul, !dvalue_int.
    change (inject_Z 1) with 1%Q. ring. }
  assert (dLessThanOrEqual q zero = Qle_bool price 0) as ->.
  { apply eq_true_iff_eq. rewrite dLessThanOrEqual_spec, Qle_bool_iff, Eq. unfold zero.
    by rewrite dvalue_int. }
  destruct (negb _ && _); [apply dvalue_int|exact Eq].
Qed.

Ltac to_Q :=
  repeat first [rewrite dvalue_add | rewrite dvalue_sub | rewrite dvalue_mul | rewrite dvalue_int];
  unfold Z.sub;
  repeat first [rewrite inject_Z_plus | rewrite inject_Z_opp | rewrite inject_Z_mult];
  change (inject_Z 0) with 0%Q; change (inject_Z 1) with 1%Q.

Lemma carve_value counted base tokens ratio :
  (dvalue (carve counted base tokens ratio).1 == dvalue base - inject_Z (if counted then tokens else 0))%Q ∧
  (dvalue (carve counted base tokens ratio).2 == inject_Z tokens * ratio_of ratio)%Q.
Proof.
  unfold carve, zero, ratio_of. rewrite dIsZero_int.
  destruct (Z.eqb_spec tokens 0) as [->|]; destruct counted; simpl;
    to_Q; split; ring.
Qed.

Lemma carve_creation_value p inclusive base creation c5m c1h :
  0 <= creation < 2 ^ 60 -> 0 <= c5m < 2 ^ 60 -> 0 <= c1h < 2 ^ 60 ->
  let r := carve_creation p inclusive base creation c5m c1h in
  (dvalue r.1 == dvalue base - inject_Z (if inclusive then creation else 0))%Q ∧
  (dvalue r.2 == weigh (written_categories p inclusive creation c5m c1h))%Q.
Proof.
  intros H1 H2 H3. unfold carve_creation, written_categories, zero, ratio_of.
  rewrite dIsZero_int, (wrap64_id (creation - c5m)), wrap64_id by (unfold int64_range; lia).
  replace (if creation - c5m - c1h <? 0 then 0 else creation - c5m - c1h)
    with (Z.max 0 (creation - c5m - c1h)) by (case_match; lia).
  destruct (negb (creation =? 0) || ((0 <? c5m) || (0 <? c1h))) eqn:E.
  - destruct inclusive; simpl; to_Q; split; ring.
  - assert (creation = 0 ∧ c5m = 0 ∧ c1h = 0) as (-> & -> & ->) by lia.
    change (Z.max 0 (0 - 0 - 0)) with 0. destruct inclusive; simpl; to_Q; split; ring.
Qed.

Lemma carve_audio_value p base audio audioPrice :
  let r := carve_audio p base audio audioPrice in
  (dvalue r.1 == dvalue base - inject_Z (priced_audio audio audioPrice))%Q ∧
  (dvalue r.2 == audio_value p audio audioPrice)%Q.
Proof.
  unfold carve_audio, audio_value, priced_audio, zero, ratio_of. rewrite dIsZero_int.
  destruct (Z.eqb_spec audio 0) as [->|]; destruct (fltb fzero audioPrice); simpl;
    repeat rewrite dvalue_mul; rewrite ?dDiv_value by done; to_Q; split; ring.
Qed.

(** The code's parts of the prompt are the weighted categories, and the audio. *)
Lemma prompt_parts_value p inclusive prompt cached creation c5m c1h image audio audioPrice :
  0 <= creation < 2 ^ 60 -> 0 <= c5m < 2 ^ 60 -> 0 <= c1h < 2 ^ 60 ->
  let parts := prompt_parts p inclusive prompt cached creation c5m c1h image audio audioPrice in
  (dvalue (baseTokens parts) + dvalue (cachedTokensWithRatio parts) +
   dvalue (imageTokensWithRatio parts) + dvalue (cachedCreationTokensWithRatio parts) ==
   weigh (prompt_categories p inclusive prompt cached creation c5m c1h image audio audioPrice))%Q ∧
  (dvalue (audioInputQuota parts) == audio_value p audio audioPrice)%Q.
Proof.
  intros H1 H2 H3. unfold prompt_parts, prompt_categories.
  pose proof (carve_value inclusive (NewFromInt prompt) cached (CacheRatio p)) as [Hb1 Hp1].
  destruct (carve inclusive _ _ _) as [b1 p1]. simpl in Hb1, Hp1.
  pose proof (carve_creation_value p inclusive b1 creation c5m c1h H1 H2 H3) as [Hb2 Hp2].
  destruct (carve_creation _ _ _ _ _ _) as [b2 p2]. simpl in Hb2, Hp2.
  pose proof (carve_value true b2 image (ImageRatio p)) as [Hb3 Hp3].
  destruct (carve true _ _ _) as [b3 p3]. simpl in Hb3, Hp3.
  pose proof (carve_audio_value p b3 audio audioPrice) as [Hb4 Hp4].
  destruct (carve_audio _ _ _ _) as [b4 p4]. simpl in Hb4, Hp4.
  cbn [baseTokens cachedTokensWithRatio imageTokensWithRatio cachedCreationTokensWithRatio audioInputQuota].
  split; [|exact Hp4]. cbn [app weigh foldr fst snd]. fold (weigh (written_categories p inclusive creation c5m c1h)).
  rewrite Hb4, Hb3, Hb2, Hb1, Hp1, Hp2, Hp3, dvalue_int. destruct inclusive; to_Q; ring.
Qed.

(** ** The quota *)

(** The report a summary is made of, and how it is read. *)
Definition billed_usage (info : TextInfo) (usage : option Usage) : Usage := default (estimated_usage info) usage.
Definition claude_usage (info : TextInfo) (usage : option Usage) : bool :=
  bool_decide (usageSemanticFromUsage info usage = "anthropic").
Definition inclusive_usage (info : TextInfo) (usage : option Usage) : bool :=
  negb (claude_usage info usage) && negb (isLegacyClaudeDerivedOpenAIUsage info (billed_usage info usage)).

(** All categories of a report, and its price. *)
Definition text_categories (info : TextInfo) (usage : option Usage) : list (Z * Q) :=
  let u := billed_usage info usage in
  let d := PromptTokensDetails u in
  let '(prompt, creation) := prompt_and_written info u (claude_usage info usage) in
  prompt_categories (Price info) (inclusive_usage info usage) prompt (CachedTokens d) creation
    (ClaudeCacheCreation5mTokens u) (ClaudeCacheCreation1hTokens u) (in_ImageTokens d) (in_AudioTokens d)
    (GetGeminiInputAudioPricePerMillionTokens (OriginModelName info))
  ++ [(CompletionTokens u, ratio_of (CompletionRatio (Price info)))].

Definition text_price (info : TextInfo) (usage : option Usage) : Q :=
  let p := Price info in
  reference_price p (text_categories info usage) (tool_value info)
    (audio_value p (in_AudioTokens (PromptTokensDetails (billed_usage info usage)))
       (GetGeminiInputAudioPricePerMillionTokens (OriginModelName info))).

(** The counts the code subtracts as integers: tokens read from and written to the cache
    are not negative, and none of them nor the prompt is near the 64-bit range. *)
Definition sane_usage (info : TextInfo) (usage : option Usage) : Prop :=
  let u := billed_usage info usage in
  - 2 ^ 60 <= PromptTokens u < 2 ^ 60 ∧ 0 <= CachedTokens (PromptTokensDetails u) < 2 ^ 60 ∧
  0 <= (prompt_and_written info u (claude_usage info usage)).2 < 2 ^ 60 ∧
  0 <= ClaudeCacheCreation5mTokens u < 2 ^ 60 ∧ 0 <= ClaudeCacheCreation1hTokens u < 2 ^ 60.

Lemma weigh_app l l' : (weigh (l ++ l') == weigh l + weigh l')%Q.
Proof. induction l as [|c l IH]; simpl; [ring|]. rewrite IH. ring. Qed.

Lemma ratio_price_reference info usage :
  sane_usage info usage ->
  let p := Price info in
  let u := billed_usage info usage in
  let d := PromptTokensDetails u in
  let '(prompt, creation) := openrouter_tokens info u (claude_usage info usage) in
  (dvalue (ratio_price p
    (prompt_parts p (inclusive_usage info usage) prompt (CachedTokens d) creation
      (ClaudeCacheCreation5mTokens u) (ClaudeCacheCreation1hTokens u) (in_ImageTokens d) (in_AudioTokens d)
      (GetGeminiInputAudioPricePerMillionTokens (OriginModelName info)))
    (CompletionTokens u) (calculateTextToolCallSurcharge info (GroupRatio p))) ==
   if negb (Qeq_bool (group_price p) 0) && Qle_bool (text_price info usage) 0
   then 1 else text_price info usage)%Q.
Proof.
  unfold sane_usage, text_price, text_categories. cbv zeta. intros (H4 & H5 & H6 & H2 & H3).
  rewrite openrouter_tokens_value by done. revert H6.
  destruct (prompt_and_written _ _ _) as [prompt creation] eqn:E. cbn [fst snd]. intros H1.
  rewrite ratio_price_value. cbv zeta.
  pose proof (prompt_parts_value (Price info) (inclusive_usage info usage) prompt
    (CachedTokens (PromptTokensDetails (billed_usage info usage))) creation
    (ClaudeCacheCreation5mTokens (billed_usage info usage)) (ClaudeCacheCreation1hTokens (billed_usage info usage))
    (in_ImageTokens (PromptTokensDetails (billed_usage info usage)))
    (in_AudioTokens (PromptTokensDetails (billed_usage info usage)))
    (GetGeminiInputAudioPricePerMillionTokens (OriginModelName info)) H1 H2 H3) as [Hp Ha].
  set (parts := prompt_parts _ _ _ _ _ _ _ _ _ _) in *.
  match goal with |- ((if _ && Qle_bool ?x 0 then _ else _) == (if _ && Qle_bool ?y 0 then _ else _))%Q =>
    assert (x == y)%Q as Exy; [|assert (Qle_bool x 0 = Qle_bool y 0) as ->] end.
  - unfold reference_price. rewrite Ha, surcharge_value, weigh_app, <- Hp. cbn [weigh foldr fst snd]. to_Q. ring.
  - apply eq_true_iff_eq. rewrite !Qle_bool_iff. by rewrite Exy.
  - by destruct (_ && _).
Qed.

(** Two guards of the code, on the price and on the rounded quota, are one maximum. *)
Lemma at_least_one_reference p total q x :
  (dvalue q == if negb (Qeq_bool (group_price p) 0) && Qle_bool x 0 then 1 else x)%Q ->
  int64_range (Qround_away x) ->
  at_least_one p total (dIntPart (dRound q)) = reference_quota p total x.
Proof.
  intros Eq Hr. unfold at_least_one, reference_quota. rewrite model_group_ratio_zero.
  destruct (total =? 0); [done|].
  destruct (Qeq_bool (group_price p) 0); simpl in *.
  - rewrite dIntPart_round by (by rewrite Eq). by rewrite Eq.
  - destruct (Qle_bool x 0) eqn:E.
    + apply Qle_bool_iff in E. apply Qround_away_nonpos in E.
      assert (Qround_away (dvalue q) = 1) as E1 by (rewrite Eq; apply (Qround_away_int 1)).
      rewrite dIntPart_round by (by rewrite E1). rewrite E1. simpl. lia.
    + assert (0 <= x)%Q as Hx.
      { apply Qlt_le_weak, Qnot_le_lt. intros H. apply Qle_bool_iff in H. congruence. }
      apply Qround_away_nonneg in Hx. rewrite dIntPart_round by (by rewrite Eq).
      rewrite (Qround_away_proper _ _ Eq).
      destruct (Z.eqb_spec (Qround_away x) 0); simpl; lia.
Qed.

Lemma text_quota_reference info usage :
  UsePrice (Price info) = false -> sane_usage info usage ->
  int64_range (Qround_away (text_price info usage)) ->
  let u := billed_usage info usage in
  let s := calculateTextQuotaSummary info usage in
  sm_Quota s = reference_quota (Price info) (wrap64 (PromptTokens u + CompletionTokens u)) (text_price info usage) ∧
  (inclusive_usage info usage = true ->
     tokens_in (text_categories info usage) +
       priced_audio (in_AudioTokens (PromptTokensDetails u))
         (GetGeminiInputAudioPricePerMillionTokens (OriginModelName info))
     = PromptTokens u + CompletionTokens u).
Proof.
  intros Hp Hs Hr u s. split.
  - pose proof (ratio_price_reference info usage Hs) as H. cbv zeta in H.
    unfold s, calculateTextQuotaSummary. fold (billed_usage info usage) (claude_usage info usage).
    fold (inclusive_usage info usage). unfold u in *. cbv zeta.
    destruct (openrouter_tokens _ _ _) as [prompt creation]. rewrite Hp. cbn [sm_Quota].
    by apply at_least_one_reference.
  - intros Hi. unfold text_categories. cbv zeta. fold u.
    assert (claude_usage info usage = false) as Hc.
    { unfold inclusive_usage in Hi. by destruct (claude_usage info usage). }
    unfold prompt_and_written. rewrite Hc, andb_false_r, Hi. simpl. lia.
Qed.

(** C39. What [calculateTextQuotaSummary] computes for a model priced by ratio
    ([UsePrice = false]; per-call and tiered prices are not covered) is a reference price.
    For every table of ratios and tool prices and every report whose counts of tokens read
    from and written to the cache are not negative and in range ([sane_usage]), in OpenAI's
    or Anthropic's reading, direct or through OpenRouter, when the price fits 64 bits: the
    code's sequence of subtractions, skipped empty categories and tools, conversions and its
    two lower bounds gives the weighted sum of the token categories times the model and
    group ratio, plus the price of the tool calls and of the audio, times the other ratios,
    rounded once, halves away from zero, at least 1 when the model and group ratio is not
    zero, and 0 when the report has no tokens.  When the prompt tokens include the cached
    ones, the counts of the categories add up to the reported prompt and completion tokens
    (the rest of the prompt may be negative in a report that contradicts itself). *)
Theorem text_quota_is_reference info usage :
  UsePrice (Price info) = false -> sane_usage info usage ->
  int64_range (Qround_away (text_price info usage)) ->
  let u := billed_usage info usage in
  let s := calculateTextQuotaSummary info usage in
  sm_Quota s = reference_quota (Price info) (wrap64 (PromptTokens u + CompletionTokens u)) (text_price info usage) ∧
  (inclusive_usage info usage = true ->
     tokens_in (text_categories info usage) +
       priced_audio (in_AudioTokens (PromptTokensDetails u))
         (GetGeminiInputAudioPricePerMillionTokens (OriginModelName info))
     = PromptTokens u + CompletionTokens u).
Proof. intros Hp Hs Hr. by apply text_quota_reference. Qed.


(** ** More tokens cost no less *)

Lemma Qround_away_le a b : (a <= b)%Q -> Qround_away a <= Qround_away b.
Proof.
  intros H. destruct (Qle_bool 0 a) eqn:Ea.
  - unfold Qround_away. rewrite Ea. apply Qle_bool_iff in Ea.
    rewrite (proj2 (Qle_bool_iff 0 b)) by lra. apply Qfloor_resp_le. lra.
  - assert (a <= 0)%Q as Ha.
    { apply Qlt_le_weak, Qnot_le_lt. intros Hn. apply Qle_bool_iff in Hn. congruence. }
    destruct (Qle_bool 0 b) eqn:Eb.
    + apply Qle_bool_iff in Eb. apply Qround_away_nonpos in Ha. apply Qround_away_nonneg in Eb. lia.
    + unfold Qround_away. rewrite Ea, Eb. enough (Qfloor (- b + (1 # 2)) <= Qfloor (- a + (1 # 2))) by lia.
      apply Qfloor_resp_le. lra.
Qed.

(** The same report with another number of completion tokens. *)
Definition with_completion (c : Z) (u : Usage) : Usage :=
  {| u with CompletionTokens := c; TotalTokens := PromptTokens u + c |}.

(** No ratio of the price is negative. *)
Definition ratios_nonneg (p : PriceData) : Prop :=
  Forall (λ f, 0 <= ratio_of f)%Q (ModelRatio p :: GroupRatio p :: CompletionRatio p :: OtherRatios p).

Lemma product_nonneg rs : Forall (λ f, 0 <= ratio_of f)%Q rs -> (0 <= product rs)%Q.
Proof. induction 1 as [|r rs Hr Hrs IH]; simpl; [done|]. by apply Qmult_le_0_compat. Qed.

Lemma text_price_completion info u c c' :
  ChannelType info ≠ Some ChannelTypeOpenRouter -> ratios_nonneg (Price info) -> c <= c' ->
  (text_price info (Some (with_completion c u)) <= text_price info (Some (with_completion c' u)))%Q.
Proof.
  intros Ho Hn Hc. unfold ratios_nonneg in Hn. rewrite !Forall_cons in Hn. destruct Hn as (Hm & Hg & Hcr & Hr).
  unfold text_price, text_categories, prompt_and_written. rewrite (bool_decide_false _ Ho). simpl andb.
  change (billed_usage info (Some ?u)) with u. change (inclusive_usage info (Some (with_completion ?c u)))
    with (inclusive_usage info (Some u)). cbn [with_completion PromptTokens CompletionTokens PromptTokensDetails
      ClaudeCacheCreation5mTokens ClaudeCacheCreation1hTokens].
  unfold reference_price. apply Qmult_le_compat_r; [|by apply product_nonneg].
  rewrite !weigh_app. cbn [weigh foldr fst snd].
  set (x := weigh _). assert (inject_Z c * ratio_of (CompletionRatio (Price info)) * group_price (Price info)
    <= inject_Z c' * ratio_of (CompletionRatio (Price info)) * group_price (Price info))%Q; [|lra].
  apply Qmult_le_compat_r; [|by apply Qmult_le_0_compat]. apply Qmult_le_compat_r; [|done].
  by rewrite <- Zle_Qle.
Qed.

(** A longer answer never costs less, and a used model with a price is never free.
    For a request billed by ratio on any channel but OpenRouter (where the tokens
    written to the cache are derived from the reported cost), with ratios that are not
    negative: the quota grows with the completion tokens, and it is at least 1 when
    the ratio is not zero, whatever the report says of the prompt. *)
Theorem text_quota_monotone info u c c' :
  let usage c := Some (with_completion c u) in
  let quota c := sm_Quota (calculateTextQuotaSummary info (usage c)) in
  UsePrice (Price info) = false -> ChannelType info ≠ Some ChannelTypeOpenRouter ->
  ratios_nonneg (Price info) -> (∀ c, sane_usage info (usage c)) ->
  0 < PromptTokens u + c -> c <= c' -> int64_range (PromptTokens u + c') ->
  int64_range (Qround_away (text_price info (usage c))) ->
  int64_range (Qround_away (text_price info (usage c'))) ->
  quota c <= quota c' ∧ (~ (group_price (Price info) == 0)%Q -> 1 <= quota c).
Proof.
  intros usage quota Hp Ho Hn Hs Hc Hcc Hw Hr Hr'. unfold quota.
  destruct (text_quota_reference info (usage c) Hp (Hs c) Hr) as [-> _].
  destruct (text_quota_reference info (usage c') Hp (Hs c') Hr') as [-> _].
  pose proof (Qround_away_le _ _ (text_price_completion info u c c' Ho Hn Hcc)) as Hle.
  unfold int64_range in Hw. unfold reference_quota. simpl.
  rewrite !wrap64_id by (unfold int64_range; lia).
  destruct (Z.eqb_spec (PromptTokens u + c) 0); [lia|].
  destruct (Z.eqb_spec (PromptTokens u + c') 0); [lia|].
  destruct (Qeq_bool (group_price (Price info)) 0) eqn:E; split; unfold usage; try lia.
  intros Hz. by apply Qeq_bool_iff in E.
Qed.
End reference.

(** ** Settlement *)

(** What a request counts as usage, for the user and the channel. *)
Definition counted (u c q : Z) (l : Ledger) : Ledger :=
  ledger_step (OChannel c q) (ledger_step (OUsed u q) l).

Lemma counted_charge pg v t a u c q l : counted u c q (charge pg v t a l) = charge pg v t a (counted u c q l).
Proof. unfold charge. destruct pg; simpl charge_token; ledger_eq. Qed.

Section settlement.
Context {CFG : Config} {LAWS : ConfigLaws CFG} {LOC : Location} {TS : TextSettings} {D : Decimal}.

(** Counting usage moves the world, and changes nothing else of the request. *)
Lemma wp_counted n v ch q b Q :
  good n (b_world b) -> 0 <= q -> n + (2 * q + 1) < 2 ^ 63 ->
  (∀ w, good (n + (2 * q + 1)) w -> effective w = counted v ch q (effective (b_world b)) ->
     Q (Ok tt) (with_world w b)) ->
  wp (do! lift (UpdateUserUsedQuotaAndRequestCount v q) in lift (UpdateChannelUsedQuota ch q)) Q b.
Proof.
  intros Hg Hq Hr HQ. pose proof (good_nonneg _ _ Hg).
  apply wp_bind, wp_lift, (wp_op n (OUsed v q)); [done|done|simpl; lia|].
  intros w1 Hg1 He1. simpl weight in Hg1.
  apply wp_lift, (wp_op (n + (Z.abs q + 1)) (OChannel ch q)); [done|done|simpl; lia|].
  intros w2 Hg2 He2. simpl weight in Hg2. apply (HQ w2).
  - eapply good_mono; [done|lia].
  - rewrite He2. cbn [with_world b_world]. by rewrite He1.
Qed.

Lemma wallet_session_counted u t pg L0 n c v ch q b :
  wallet_session u t pg L0 n c b -> 0 <= q -> n + (2 * q + 1) < 2 ^ 63 ->
  wp (do! lift (UpdateUserUsedQuotaAndRequestCount v q) in lift (UpdateChannelUsedQuota ch q))
    (λ r b', r = Ok tt ∧ b_billing b' = b_billing b ∧
       wallet_session u t pg (counted v ch q L0) (n + (2 * q + 1)) c b') b.
Proof.
  intros [Hg Htok Hpg Hsess Hc He Hu] Hq Hr. apply (wp_counted n); [done|done|done|].
  intros w Hw Hew. split_and!; [done..|]. split; try done. cbn [with_world b_world].
  rewrite Hew, He. apply counted_charge.
Qed.

Lemma wp_SettleBilling u t pg L0 n c actual b :
  wallet_session u t pg L0 n c b -> b_billing b = true -> amount_ok actual -> n + step_weight < 2 ^ 63 ->
  wp (SettleBilling actual) (λ r b', effective (b_world b') = charge pg u t actual L0) b.
Proof.
  intros Hs Hb Ha Hr. unfold SettleBilling. apply wp_bind, wp_gets. rewrite Hb.
  apply wp_bind, wp_gets, wp_bind. eapply wp_mono; [by eapply wp_Settle|].
  intros r b' (-> & _ & He). case_match; [by apply wp_ret|]. apply wp_bind, wp_gets.
  case_match; apply wp_bind, wp_gets, wp_lift, wp_go; simpl; by rewrite <- He.
Qed.

Lemma text_quota_summary run_expr used_vars info snap pre usage :
  (text_quota run_expr used_vars info snap pre usage).1 = calculateTextQuotaSummary info usage.
Proof. unfold text_quota. repeat case_match; done. Qed.

(** Without an expression the summary's quota is settled. *)
Lemma text_quota_plain run_expr used_vars info pre usage :
  (text_quota run_expr used_vars info None pre usage).2 = sm_Quota (calculateTextQuotaSummary info usage).
Proof. by destruct usage. Qed.

Lemma wp_PreConsumeBilling q b :
  request_ok q [] b ->
  NormalizeBillingPreference (RelayInfo_BillingPreference (b_info b)) = "wallet_only" ->
  wp (PreConsumeBilling q) (λ r b', match r with
    | Ok _ => b_billing b' = true ∧
        ∃ c, (c = 0 ∨ c = q) ∧ wallet_session (RelayInfo_UserId (b_info b)) (RelayInfo_TokenId (b_info b))
               (RelayInfo_IsPlayground (b_info b)) (effective (b_world b)) step_weight c b'
    | Err _ => effective (b_world b') = effective (b_world b)
    end) b.
Proof.
  intros (Hn & Hb & Hq & _) Hpref. unfold PreConsumeBilling, NewBillingSession. apply wp_bind, wp_bind, wp_gets.
  rewrite Hpref. simpl. eapply wp_mono; [apply (wp_tryWallet 0); [by apply good_start|reflexivity|done|done]|].
  intros [[]|e] b1 H1; [|done]. destruct H1 as (c & Hc & Hs). apply wp_modify. split; [done|]. exists c.
  split; [done|]. by destruct Hs; split.
Qed.

Lemma wp_settle_usage t pg L0 n c total ch quota b :
  wallet_session (RelayInfo_UserId (b_info b)) t pg L0 n c b -> b_billing b = true -> amount_ok quota ->
  n + (2 * quota + 1) + step_weight < 2 ^ 63 ->
  wp (settle_usage total ch quota) (λ r b', r = Ok tt ∧ effective (b_world b') =
    charge pg (RelayInfo_UserId (b_info b)) t quota
      ((if total =? 0 then id else counted (RelayInfo_UserId (b_info b)) ch quota) L0)) b.
Proof.
  intros Hs Hb Hq Hr. unfold amount_ok, step_weight in *. unfold settle_usage. apply wp_bind, wp_gets, wp_bind.
  destruct (total =? 0).
  - apply wp_ret, wp_bind, wp_attempt. eapply wp_mono; [eapply wp_SettleBilling; [exact Hs|done|done|]|].
    { unfold step_weight. lia. }
    intros r b2 He. by apply wp_ret.
  - eapply wp_mono; [eapply wallet_session_counted; [exact Hs|lia|lia]|].
    intros r b2 (-> & Hb2 & Hs2). apply wp_bind, wp_attempt.
    eapply wp_mono; [eapply wp_SettleBilling; [exact Hs2|congruence|done|unfold step_weight; lia]|].
    intros r b3 He. by apply wp_ret.
Qed.

End settlement.
