(* ===== verification/RateLimit.v ===== *)
(** * RateLimit: limits on requests per client and per user

    Models [common/rate-limit.go] (the in-memory limiter), [middleware/
    rate-limit.go] (limits by client address and by user),
    [middleware/model-rate-limit.go] (limits on model requests) and
    [common/limiter] with its Lua script (the token bucket).

    The node's memory and Redis are one state [RL]; a handler is a program whose
    statements are the Redis commands and the calls of the mutex-protected
    in-memory limiter, since handlers of concurrent requests interleave at exactly
    these points.  Clocks show milliseconds since the epoch. *)

From S2P Require Import Prelude.
From S2P Require Export Effects.
From S2P Require Export GoTime.

(** ** The in-memory limiter ([common/rate-limit.go]) *)

(** [expirationDuration] in nanoseconds; queues from the oldest time to the
    newest. *)
Record InMemoryRateLimiter : Type := mkLimiter {
  store : option (gmap string (list Z));
  expirationDuration : Z;
}.

(** The zero value of the Go struct. *)
Definition new_limiter : InMemoryRateLimiter := mkLimiter None 0.

Definition Init (expiration : Z) (l : InMemoryRateLimiter) : InMemoryRateLimiter :=
  match store l with
  | None => mkLimiter (Some ∅) expiration
  | Some _ => l
  end.

(** One round of the loop of [clearExpiredItems], at second [now]. *)
Definition expired_queue (expiration now : Z) (queue : list Z) : bool :=
  match last queue with
  | None => true
  | Some newest => Z.quot expiration 1000000000 <? now - newest
  end.

Definition clear_round (now : Z) (l : InMemoryRateLimiter) : InMemoryRateLimiter :=
  mkLimiter (filter (λ kv, expired_queue (expirationDuration l) now kv.2 = false) <$> store l)
    (expirationDuration l).

Definition panic_index : error := EText "runtime error: index out of range [0] with length 0".
Definition panic_makeslice : error := EText "runtime error: makeslice: cap out of range".
Definition panic_nil_map : error := EText "assignment to entry in nil map".

(** [Request] at second [now]; a panic is an error. *)
Definition Request (key : string) (maxRequestNum duration now : Z) (l : InMemoryRateLimiter)
    : result bool * InMemoryRateLimiter :=
  let set q := mkLimiter (Some (<[key := q]> (default ∅ (store l)))) (expirationDuration l) in
  match default ∅ (store l) !! key with
  | Some queue =>
      if Z.of_nat (length queue) <? maxRequestNum then (Ok true, set (queue ++ [now]))
      else
        match queue with
        | [] => (Err panic_index, l)
        | oldest :: rest =>
            if duration <=? now - oldest then (Ok true, set (rest ++ [now])) else (Ok false, l)
        end
  | None =>
      if maxRequestNum <? 0 then (Err panic_makeslice, l)
      else match store l with
           | None => (Err panic_nil_map, l)
           | Some _ => (Ok true, set [now])
           end
  end.

(** ** Redis *)

(** Lists (head first) with their expiry time, the token buckets' hashes
    (tokens, last_time), and the server's clock in milliseconds. *)
Record Redis : Type := mkRedis {
  lists : gmap string (list string * option Z);
  buckets : gmap string (Z * Z);
  server_ms : Z;
}.

Definition set_list (key : string) (l : list string) (exp : option Z) (r : Redis) : Redis :=
  mkRedis (<[key := (l, exp)]> (lists r)) (buckets r) (server_ms r).

(** Time passes on the server: keys whose time has come disappear. *)
Definition expired_key (now : Z) (v : list string * option Z) : bool :=
  match v.2 with Some e => e <=? now | None => false end.

Definition advance (now : Z) (r : Redis) : Redis :=
  mkRedis (filter (λ kv, expired_key now kv.2 = false) (lists r)) (buckets r) now.

Definition list_at (key : string) (r : Redis) : list string :=
  match lists r !! key with Some (l, _) => l | None => [] end.

Definition LLen (key : string) (r : Redis) : result Z * Redis :=
  (Ok (Z.of_nat (length (list_at key r))), r).

(** [LINDEX key -1]; the driver answers [redis.Nil] for a missing element. *)
Definition LIndex_last (key : string) (r : Redis) : result string * Redis :=
  (match last (list_at key r) with Some s => Ok s | None => Err (EDriver "redis: nil") end, r).

Definition LPush (key s : string) (r : Redis) : result unit * Redis :=
  (Ok tt, set_list key (s :: list_at key r) (match lists r !! key with Some (_, e) => e | None => None end) r).

(** [LTRIM key 0 stop]: a negative [stop] counts from the end; a list left empty
    is removed. *)
Definition LTrim0 (key : string) (stop : Z) (r : Redis) : result unit * Redis :=
  match lists r !! key with
  | None => (Ok tt, r)
  | Some (l, e) =>
      let stop := if stop <? 0 then Z.of_nat (length l) + stop else stop in
      match take (Z.to_nat (stop + 1)) l with
      | [] => (Ok tt, mkRedis (delete key (lists r)) (buckets r) (server_ms r))
      | l' => (Ok tt, set_list key l' e r)
      end
  end.

(** [EXPIRE key d] with [d] nanoseconds; the driver sends whole seconds, at least
    one for a positive duration; a time that is not positive removes the key. *)
Definition Expire (key : string) (d : Z) (r : Redis) : result unit * Redis :=
  match lists r !! key with
  | None => (Ok tt, r)
  | Some (l, _) =>
      let secs := if (0 <? d) && (d <? 1000000000) then 1 else Z.quot d 1000000000 in
      if secs <=? 0 then (Ok tt, mkRedis (delete key (lists r)) (buckets r) (server_ms r))
      else (Ok tt, set_list key l (Some (server_ms r + secs * 1000)) r)
  end.

(** [redis.call] sequence of [common/limiter/lua/rate_limit.lua], which the server
    runs as one statement.  Lua numbers are doubles; the amounts stay far below
    [2^53]. *)
Definition rate_limit_lua (key : string) (requested rate capacity : Z) (r : Redis)
    : result Z * Redis :=
  let now := server_ms r / 1000 in
  let tokens :=
    match buckets r !! key with
    | None => capacity
    | Some (tokens, last_time) => Z.min capacity (tokens + (now - last_time) * rate)
    end in
  let '(allowed, tokens) := if requested <=? tokens then (1, tokens - requested) else (0, tokens) in
  (Ok allowed, mkRedis (lists r) (<[key := (tokens, now)]> (buckets r)) (server_ms r)).

(** ** The state of a node *)

Record RL : Type := mkRL { redis : Redis; limiter : InMemoryRateLimiter }.

Definition on_redis {X} (f : Redis -> result X * Redis) : prog RL X :=
  stmt (λ s, let '(x, r) := f (redis s) in (x, mkRL r (limiter s))).
Definition on_memory {X} (f : InMemoryRateLimiter -> result X * InMemoryRateLimiter) : prog RL X :=
  stmt (λ s, let '(x, l) := f (limiter s) in (x, mkRL (redis s) l)).

(** What the handlers read of the request and of the settings.  Durations in
    nanoseconds where Go has a [time.Duration], in seconds otherwise. *)
Record Ctx : Type := mkCtx {
  ClientIP : string;
  user_id : Z;
  token_group : string;
  user_group : string;
}.

Record RateConfig : Type := mkRateConfig {
  RedisEnabled : bool;
  RateLimitKeyExpirationDuration : Z;
  GlobalWebRateLimitEnable : bool;
  GlobalWebRateLimitNum : Z;
  GlobalWebRateLimitDuration : Z;
  GlobalApiRateLimitEnable : bool;
  GlobalApiRateLimitNum : Z;
  GlobalApiRateLimitDuration : Z;
  CriticalRateLimitEnable : bool;
  CriticalRateLimitNum : Z;
  CriticalRateLimitDuration : Z;
  SearchRateLimitEnable : bool;
  SearchRateLimitNum : Z;
  SearchRateLimitDuration : Z;
  UploadRateLimitNum : Z;
  UploadRateLimitDuration : Z;
  DownloadRateLimitNum : Z;
  DownloadRateLimitDuration : Z;
  ModelRequestRateLimitEnabled : bool;
  ModelRequestRateLimitDurationMinutes : Z;
  ModelRequestRateLimitCount : Z;
  ModelRequestRateLimitSuccessCount : Z;
  ModelRequestRateLimitGroup : gmap string (Z * Z);
}.

(** [constants.go] and the defaults of [common/init.go] and [setting/rate_limit.go]. *)
Definition default_config (redis : bool) : RateConfig :=
  mkRateConfig redis (20 * 60 * 1000000000) true 120 180 true 360 180 true 20 (20 * 60)
    true 10 60 10 60 10 60 false 1 0 1000 ∅.

(** What a handler leaves behind: the chain goes on, or it was aborted with a
    status. *)
Inductive verdict : Type := Next | Abort (status : Z).

#[export] Instance verdict_eq_dec : EqDecision verdict.
Proof. solve_decision. Defined.

Definition StatusUnauthorized : Z := 401.
Definition StatusTooManyRequests : Z := 429.
Definition StatusInternalServerError : Z := 500.

(** The rest of the chain, [next], answers a status; it runs when a handler
    returns without [c.Abort()]. *)
Definition chain (h : prog RL verdict) (next : prog RL Z) : prog RL Z :=
  let* v := h in
  match v with Next => next | Abort status => pret status end.

Section handlers.
Context `{loc : Location} (cfg : RateConfig) (c : Ctx).

(** The result of a call whose error the code discards. *)
Definition discard {X} (p : prog RL X) : prog RL unit := do* pattempt p in pret tt.

(** ** [middleware/rate-limit.go] *)

(** The common body of [redisRateLimiter] and [userRedisRateLimiter]. *)
Definition userRedisRateLimiter (maxRequestNum duration : Z) (key : string) : prog RL verdict :=
  let push := (let* t := now_ in discard (on_redis (LPush key (Format t)))) in
  let expire := discard (on_redis (Expire key (RateLimitKeyExpirationDuration cfg))) in
  let* listLength := pattempt (on_redis (LLen key)) in
  match listLength with
  | Err _ => pret (Abort StatusInternalServerError)
  | Ok listLength =>
      if listLength <? maxRequestNum then
        do* push in do* expire in pret Next
      else
        let* oldTimeStr := pattempt (on_redis (LIndex_last key)) in
        match Parse (match oldTimeStr with Ok s => s | Err _ => "" end) with
        | None => pret (Abort StatusInternalServerError)
        | Some oldTime =>
            let* t := now_ in
            match Parse (Format t) with
            | None => pret (Abort StatusInternalServerError)
            | Some nowTime =>
                if Z.quot (nowTime - oldTime) 1000 <? duration then
                  do* expire in pret (Abort StatusTooManyRequests)
                else
                  do* push in
                  do* discard (on_redis (LTrim0 key (maxRequestNum - 1))) in
                  do* expire in pret Next
            end
        end
  end.

Definition redisRateLimiter (maxRequestNum duration : Z) (mark : string) : prog RL verdict :=
  userRedisRateLimiter maxRequestNum duration ("rateLimit:" +:+ mark +:+ ClientIP c).

(** [inMemoryRateLimiter.Request], its answer as a verdict. *)
Definition memory_request (key : string) (maxRequestNum duration : Z) : prog RL verdict :=
  let* t := now_ in
  let* ok := on_memory (Request key maxRequestNum duration (t / 1000)) in
  pret (if ok : bool then Next else Abort StatusTooManyRequests).

Definition memoryRateLimiter (maxRequestNum duration : Z) (mark : string) : prog RL verdict :=
  memory_request (mark +:+ ClientIP c) maxRequestNum duration.

Definition rateLimitFactory (maxRequestNum duration : Z) (mark : string) : prog RL verdict :=
  if RedisEnabled cfg then redisRateLimiter maxRequestNum duration mark
  else memoryRateLimiter maxRequestNum duration mark.

Definition defNext : prog RL verdict := pret Next.

Definition GlobalWebRateLimit : prog RL verdict :=
  if GlobalWebRateLimitEnable cfg
  then rateLimitFactory (GlobalWebRateLimitNum cfg) (GlobalWebRateLimitDuration cfg) "GW"
  else defNext.

Definition GlobalAPIRateLimit : prog RL verdict :=
  if GlobalApiRateLimitEnable cfg
  then rateLimitFactory (GlobalApiRateLimitNum cfg) (GlobalApiRateLimitDuration cfg) "GA"
  else defNext.

Definition CriticalRateLimit : prog RL verdict :=
  if CriticalRateLimitEnable cfg
  then rateLimitFactory (CriticalRateLimitNum cfg) (CriticalRateLimitDuration cfg) "CT"
  else defNext.

Definition DownloadRateLimit : prog RL verdict :=
  rateLimitFactory (DownloadRateLimitNum cfg) (DownloadRateLimitDuration cfg) "DW".

Definition UploadRateLimit : prog RL verdict :=
  rateLimitFactory (UploadRateLimitNum cfg) (UploadRateLimitDuration cfg) "UP".

Definition userRateLimitFactory (maxRequestNum duration : Z) (mark : string) : prog RL verdict :=
  if user_id c =? 0 then pret (Abort StatusUnauthorized)
  else if RedisEnabled cfg then
    userRedisRateLimiter maxRequestNum duration
      ("rateLimit:" +:+ mark +:+ ":user:" +:+ pretty (user_id c))
  else memory_request (mark +:+ ":user:" +:+ pretty (user_id c)) maxRequestNum duration.

Definition SearchRateLimit : prog RL verdict :=
  if negb (SearchRateLimitEnable cfg) then defNext
  else userRateLimitFactory (SearchRateLimitNum cfg) (SearchRateLimitDuration cfg) "SR".

(** ** The token bucket ([common/limiter]) *)

Record BucketConfig : Type := mkBucketConfig { Capacity : Z; Rate : Z; Requested : Z }.

Definition Option_ : Type := BucketConfig -> BucketConfig.
Definition WithCapacity (n : Z) : Option_ := λ k, mkBucketConfig n (Rate k) (Requested k).
Definition WithRate (n : Z) : Option_ := λ k, mkBucketConfig (Capacity k) n (Requested k).
Definition WithRequested (n : Z) : Option_ := λ k, mkBucketConfig (Capacity k) (Rate k) n.

Definition Allow (key : string) (opts : list Option_) : prog RL bool :=
  let config := foldl (λ k (opt : Option_), opt k) (mkBucketConfig 10 1 1) opts in
  let* r := pattempt (on_redis (rate_limit_lua key (Requested config) (Rate config) (Capacity config))) in
  match r with
  | Err e => pfail (EWrap "rate limit failed: " e)
  | Ok n => pret (n =? 1)
  end.

(** ** [middleware/model-rate-limit.go] *)

Definition ModelRequestRateLimitCountMark : string := "MRRL".
Definition ModelRequestRateLimitSuccessCountMark : string := "MRRLS".

Definition Minute : Z := 60 * 1000000000.
Definition model_expiration : Z := wrap64 (ModelRequestRateLimitDurationMinutes cfg * Minute).

(** The text of a time [Parse] rejects. *)
Definition parse_error (s : string) : error := EText ("parsing time " +:+ s).

Definition checkRedisRateLimit (key : string) (maxCount duration : Z) : prog RL bool :=
  if maxCount =? 0 then pret true
  else
    let* length := on_redis (LLen key) in
    if length <? maxCount then pret true
    else
      let* old := pattempt (on_redis (LIndex_last key)) in
      let oldTimeStr := match old with Ok s => s | Err _ => "" end in
      match Parse oldTimeStr with
      | None => pfail (parse_error oldTimeStr)
      | Some oldTime =>
          let* t := now_ in
          match Parse (Format t) with
          | None => pfail (parse_error (Format t))
          | Some nowTime =>
              if Z.quot (nowTime - oldTime) 1000 <? duration then
                do* discard (on_redis (Expire key model_expiration)) in pret false
              else pret true
          end
      end.

Definition recordRedisRequest (key : string) (maxCount : Z) : prog RL unit :=
  if maxCount =? 0 then pret tt
  else
    let* now := now_ in
    do* discard (on_redis (LPush key (Format now))) in
    do* discard (on_redis (LTrim0 key (maxCount - 1))) in
    discard (on_redis (Expire key model_expiration)).

(** [next] is [c.Next()]: the rest of the chain, which does nothing once the
    context is aborted; the value is the status of the response. *)
Definition redisRateLimitHandler (duration totalMaxCount successMaxCount : Z)
    (next : prog RL Z) : prog RL Z :=
  let userId := pretty (user_id c) in
  let successKey := "rateLimit:" +:+ ModelRequestRateLimitSuccessCountMark +:+ ":" +:+ userId in
  let* allowed := pattempt (checkRedisRateLimit successKey successMaxCount duration) in
  match allowed with
  | Err _ => pret StatusInternalServerError
  | Ok false => pret StatusTooManyRequests
  | Ok true =>
      let* total :=
        (if 0 <? totalMaxCount then
           pattempt (Allow ("rateLimit:" +:+ userId)
             [WithCapacity (wrap64 (totalMaxCount * duration));
              WithRate totalMaxCount; WithRequested duration])
         else pret (Ok true)) in
      match total with
      | Err _ => pret StatusInternalServerError
      | Ok allowed =>
          let* status := (if allowed : bool then next else pret StatusTooManyRequests) in
          do* (if status <? 400 then recordRedisRequest successKey successMaxCount else pret tt) in
          pret status
      end
  end.

Definition memoryRateLimitHandler (duration totalMaxCount successMaxCount : Z)
    (next : prog RL Z) : prog RL Z :=
  let userId := pretty (user_id c) in
  let totalKey := ModelRequestRateLimitCountMark +:+ userId in
  let successKey := ModelRequestRateLimitSuccessCountMark +:+ userId in
  let* total := (if 0 <? totalMaxCount then memory_request totalKey totalMaxCount duration
                 else pret Next) in
  match total with
  | Abort status => pret status
  | Next =>
      let* check := memory_request (successKey +:+ "_check") successMaxCount duration in
      match check with
      | Abort status => pret status
      | Next =>
          let* status := next in
          do* (if status <? 400
               then do* memory_request successKey successMaxCount duration in pret tt
               else pret tt) in
          pret status
      end
  end.

(** [setting.GetGroupRateLimit] *)
Definition GetGroupRateLimit (group : string) : option (Z * Z) :=
  ModelRequestRateLimitGroup cfg !! group.

Definition ModelRequestRateLimit (next : prog RL Z) : prog RL Z :=
  if negb (ModelRequestRateLimitEnabled cfg) then next
  else
    let duration := wrap64 (ModelRequestRateLimitDurationMinutes cfg * 60) in
    let group := if decide (token_group c = "") then user_group c else token_group c in
    let '(totalMaxCount, successMaxCount) :=
      default (ModelRequestRateLimitCount cfg, ModelRequestRateLimitSuccessCount cfg)
        (GetGroupRateLimit group) in
    if RedisEnabled cfg then redisRateLimitHandler duration totalMaxCount successMaxCount next
    else
      do* on_memory (λ l, (Ok tt, Init model_expiration l)) in
      memoryRateLimitHandler duration totalMaxCount successMaxCount next.
End handlers.

(** [CheckModelRequestRateLimitGroup] on the decoded object, its entries in the
    order the loop meets them: the first entry out of range is reported. *)
Definition CheckModelRequestRateLimitGroup (groups : list (string * (Z * Z))) : option string :=
  foldr (λ '(group, (total, success)) rest,
    let numbers := "[" +:+ pretty total +:+ ", " +:+ pretty success +:+ "]" in
    if (total <? 0) || (success <? 1) then
      Some ("group " +:+ group +:+ " has negative rate limit values: " +:+ numbers)
    else if (2147483647 <? total) || (2147483647 <? success) then
      Some ("group " +:+ group +:+ " " +:+ numbers +:+ " has max rate limits value 2147483647")
    else rest) None groups.
