(* ===== verification/RateProps.v ===== *)
(** * RateProps: both limiters implement one sliding window

    The specification [sliding] decides on a request from the times of the
    requests admitted so far: it is admitted when fewer than [max] were admitted,
    or the [max]-th last is at least [dur] old.  The in-memory limiter and the
    Redis limiter keep only a bounded queue and forget it after a while; both give
    the verdicts of [sliding].  What a limit promises (no window holds more than
    [max] admitted requests, a client that waits is admitted) is proved of the
    specification. *)

From stdpp Require Import sorting.
From S2P Require Import Prelude.
From S2P Require Export RateLimit.

(** ** The specification *)

Section window.
Context (max dur : Z).

(** [h]: the times of the admitted requests, oldest first. *)
Definition admits (h : list Z) (now : Z) : bool :=
  if Z.of_nat (length h) <? max then true
  else match h !! (length h - Z.to_nat max)%nat with
       | Some old => dur <=? now - old
       | None => true
       end.

Definition record (h : list Z) (now : Z) : list Z := if admits h now then h ++ [now] else h.

Fixpoint sliding (h : list Z) (times : list Z) : list bool :=
  match times with
  | [] => []
  | t :: times => admits h t :: sliding (record h t) times
  end.

Definition admitted (times : list Z) : list Z := foldl record [] times.

(** The requests of a window of [dur] from [a] on. *)
Definition in_window (a : Z) (h : list Z) : list Z := filter (λ t, a <= t < a + dur) h.

Record spaced (T : Z) (h : list Z) : Prop := {
  sp_sorted : StronglySorted Z.le h;
  sp_bound : Forall (λ t, t <= T) h;
  sp_gap : ∀ i x y, h !! i = Some x -> h !! (i + Z.to_nat max)%nat = Some y -> x + dur <= y;
}.

Lemma sorted_snoc h t : StronglySorted Z.le h -> Forall (λ x, x <= t) h -> StronglySorted Z.le (h ++ [t]).
Proof.
  induction 1 as [|x h Hs IH Hx]; intros Hf; [repeat constructor|].
  inversion_clear Hf. simpl. constructor; [by apply IH|].
  apply Forall_app. split; [done|repeat constructor; done].
Qed.

Lemma Forall_le_trans T T' (h : list Z) : T <= T' -> Forall (λ t, t <= T) h -> Forall (λ t, t <= T') h.
Proof. intros HT Hf. eapply Forall_impl; [exact Hf|]. simpl. lia. Qed.

Lemma record_spaced T h t : 1 <= max -> T <= t -> spaced T h -> spaced t (record h t).
Proof.
  intros Hm HT [Hs Hb Hg]. pose proof (Forall_le_trans _ _ _ HT Hb) as Hb'.
  unfold record. destruct (admits h t) eqn:Ha; [|by split].
  split; [by apply sorted_snoc|by apply Forall_app; repeat constructor|].
  intros i x y Hx Hy. destruct (lookup_app_Some h [t] (i + Z.to_nat max)%nat y) as [Hy' _].
  destruct (Hy' Hy) as [Hy1|[Hlen Hy1]].
  - apply (Hg i x y); [|done]. rewrite lookup_app_l in Hx; [done|].
    apply lookup_lt_Some in Hy1. lia.
  - assert (y = t ∧ (i + Z.to_nat max)%nat = length h) as [-> Hi].
    { destruct (i + Z.to_nat max - length h)%nat eqn:E; simplify_eq/=. lia. }
    assert (h !! i = Some x) as Hx'.
    { rewrite lookup_app_l in Hx; [done|lia]. }
    unfold admits in Ha. destruct (Z.ltb_spec (Z.of_nat (length h)) max); [lia|].
    replace (length h - Z.to_nat max)%nat with i in Ha by lia. rewrite Hx' in Ha.
    apply Z.leb_le in Ha. lia.
Qed.

Lemma spaced_window T h a : 0 <= max -> spaced T h -> Z.of_nat (length (in_window a h)) <= max.
Proof.
  intros Hm [Hs _ Hg]. revert Hg. induction Hs as [|x h Hs IH Hx]; intros Hg; [done|].
  unfold in_window. destruct (decide (a <= x < a + dur)) as [Hin|Hout].
  - assert (filter (λ t, a <= t < a + dur) (drop (Z.to_nat max) (x :: h)) = []) as Hnil.
    { apply filter_none. intros y Hy [_ Hlt].
      destruct (drop (Z.to_nat max) (x :: h)) as [|z r] eqn:E; [by apply elem_of_nil in Hy|].
      assert ((x :: h) !! (0 + Z.to_nat max)%nat = Some z) as Hz.
      { replace (0 + Z.to_nat max)%nat with (Z.to_nat max + 0)%nat by lia.
        rewrite <- lookup_drop, E. done. }
      pose proof (Hg 0%nat x z eq_refl Hz).
      assert (StronglySorted Z.le (z :: r)) as Hzr.
      { rewrite <- E. apply (StronglySorted_app_1_r _ (take (Z.to_nat max) (x :: h))).
        rewrite take_drop. by constructor. }
      apply elem_of_cons in Hy as [->|Hy]; [lia|].
      apply StronglySorted_inv in Hzr as [_ Hzr]. rewrite Forall_forall in Hzr.
      specialize (Hzr y Hy). lia. }
    rewrite <- (take_drop (Z.to_nat max) (x :: h)), filter_app, Hnil, app_nil_r.
    pose proof (length_filter (λ t, a <= t < a + dur) (take (Z.to_nat max) (x :: h))).
    rewrite length_take in *. lia.
  - rewrite filter_cons_False by done. apply IH. intros i y z Hy Hz. by apply (Hg (S i) y z).
Qed.
End window.

Lemma record_refused max dur h now : admits max dur h now = false -> record max dur h now = h.
Proof. unfold record. by intros ->. Qed.

(** A client that has been quiet for [dur] is admitted. *)
Lemma admits_after_wait max dur T h now :
  spaced max dur T h -> 1 <= max -> T + dur <= now -> admits max dur h now = true.
Proof.
  intros [_ Hb _] Hm Hw. unfold admits. destruct (Z.ltb _ _); [done|].
  destruct (h !! _) as [old|] eqn:E; [|done].
  rewrite Forall_forall in Hb. apply list_elem_of_lookup_2, Hb in E. apply Z.leb_le. lia.
Qed.

(** ** A queue that stands for the history *)

Section tracks.
Context (max dur : Z).

(** The queue [q] ends the history [h]; it is full, or all that was dropped is
    older than [dur] at time [T]. *)
Record tracks (T : Z) (h q : list Z) : Prop := {
  tr_sorted : StronglySorted Z.le h;
  tr_bound : Forall (λ t, t <= T) h;
  tr_split : ∃ old, h = old ++ q ∧ Z.of_nat (length q) <= max ∧
    (Z.of_nat (length q) = max ∨ Forall (λ t, t + dur <= T) old);
}.

Lemma tracks_nil T : 0 <= max -> tracks T [] [].
Proof. split; [constructor|constructor|exists []; simpl; auto using Forall_nil]. Qed.

Lemma tracks_later T T' h q : T <= T' -> tracks T h q -> tracks T' h q.
Proof.
  intros HT [Hs Hb (old & E & Hl & Ho)]. split; [done|by eapply Forall_le_trans|].
  exists old. split_and!; [done|done|]. destruct Ho as [Ho|Ho]; [by left|right].
  eapply Forall_impl; [exact Ho|]. simpl. lia.
Qed.

Lemma tracks_forget T h q :
  0 <= max -> tracks T h q -> Forall (λ t, t + dur <= T) h -> tracks T h [].
Proof.
  intros Hm [Hs Hb _] Ho. split; [done|done|]. exists h. rewrite app_nil_r. simpl. auto.
Qed.

(** When the newest of the queue is old, everything is. *)
Lemma tracks_all_old T h q n :
  tracks T h q -> last q = Some n -> n + dur <= T -> Forall (λ t, t + dur <= T) h.
Proof.
  intros [Hs _ (old & -> & _)] [q' ->]%last_Some Hn. rewrite app_assoc in *.
  apply StronglySorted_app in Hs as (Hc & _ & _). apply Forall_app.
  split; [|by repeat constructor]. apply Forall_forall. intros x Hx.
  specialize (Hc x n Hx (proj2 (list_elem_of_singleton _ _) eq_refl)). lia.
Qed.

(** What the limiters compute from the queue. *)
Definition queue_admits (q : list Z) (now : Z) : bool :=
  (Z.of_nat (length q) <? max) || match q with old :: _ => dur <=? now - old | [] => false end.

Definition queue_push (q : list Z) (now : Z) : list Z :=
  (if Z.of_nat (length q) <? max then q else tail q) ++ [now].

Lemma tracks_admits T h q now :
  1 <= max -> T <= now -> tracks T h q -> admits max dur h now = queue_admits q now.
Proof.
  intros Hm HT [_ _ (old & -> & Hl & Ho)]. unfold admits, queue_admits.
  rewrite length_app. destruct (Z.ltb_spec (Z.of_nat (length q)) max) as [Hlt|Hge]; simpl.
  - destruct Ho as [Ho|Ho]; [lia|]. destruct (Z.ltb_spec (Z.of_nat (length old + length q)) max); [done|].
    destruct ((old ++ q) !! _) as [x|] eqn:E; [|done].
    rewrite lookup_app_l in E by lia. rewrite Forall_forall in Ho.
    apply list_elem_of_lookup_2, Ho in E. apply Z.leb_le. lia.
  - destruct (Z.ltb_spec (Z.of_nat (length old + length q)) max); [lia|].
    rewrite lookup_app_r by lia.
    replace (length old + length q - Z.to_nat max - length old)%nat with 0%nat by lia.
    destruct q; [simpl in *; lia|done].
Qed.

Lemma tracks_push T h q now :
  1 <= max -> T <= now -> tracks T h q -> tracks now (h ++ [now]) (queue_push q now).
Proof.
  intros Hm HT Htr. pose proof (tracks_later _ _ _ _ HT Htr) as [Hs Hb (old & -> & Hl & Ho)].
  split; [by apply sorted_snoc|apply Forall_app; split; [done|repeat constructor; done]|].
  unfold queue_push. destruct (Z.ltb_spec (Z.of_nat (length q)) max) as [Hlt|Hge].
  - exists old. rewrite <- app_assoc, length_app. simpl. split_and!; [done|lia|].
    destruct Ho; [lia|by right].
  - destruct q as [|x q]; [simpl in *; lia|]. exists (old ++ [x]). simpl.
    rewrite <- !app_assoc, length_app. simpl in *. split_and!; [done|lia|left; lia].
Qed.
End tracks.

(** ** Serving requests *)

(** Requests, one after another, and rounds of the limiter's cleaner, at times in
    milliseconds; the Redis server shares the clock. *)
Inductive event : Type :=
| Hit (c : Ctx) (t : Z)
| Clean (t : Z).

Definition event_time (e : event) : Z := match e with Hit _ t | Clean t => t end.

Definition at_time (t : Z) (s : RL) : RL := mkRL (advance t (redis s)) (limiter s).

Section serving.
Context (handler : Ctx -> prog RL verdict) (who : Ctx -> bool).

(** The verdicts on the requests of the client [who]. *)
Fixpoint served (evs : list event) (s : RL) : list (result verdict) :=
  match evs with
  | [] => []
  | Hit c t :: evs =>
      let '(v, s') := run t (handler c) (at_time t s) in
      (if who c then [v] else []) ++ served evs s'
  | Clean t :: evs =>
      served evs (mkRL (advance t (redis s)) (clear_round (t / 1000) (limiter s)))
  end.

Definition client_times (evs : list event) : list Z :=
  omap (λ e, match e with Hit c t => if who c then Some t else None | Clean _ => None end) evs.
End serving.

(** The answer the handlers give for an admission. *)
Definition answer (b : bool) : result verdict :=
  Ok (if b then Next else Abort StatusTooManyRequests).

(** Times from [T] on, in order. *)
Fixpoint in_order (T : Z) (evs : list event) : Prop :=
  match evs with
  | [] => True
  | e :: evs => T <= event_time e ∧ in_order (event_time e) evs
  end.

(** A backend implements the window of [dur] (in its unit [unit] of time, so many
    milliseconds) when an invariant relating its state to the history is kept by
    every event and gives the verdicts. *)
Section backend.
Context (handler : Ctx -> prog RL verdict) (who : Ctx -> bool) (max dur unit : Z).
Context (I : Z -> list Z -> RL -> Prop) (ok_time : Z -> Prop).

Record implements_window : Prop := {
  iw_hit : ∀ c t T h s, who c = true -> ok_time t -> T <= t -> I T h s ->
    let x := run t (handler c) (at_time t s) in
    x.1 = answer (admits max dur h (t / unit)) ∧ I t (record max dur h (t / unit)) x.2;
  iw_other : ∀ c t T h s, who c = false -> ok_time t -> T <= t -> I T h s ->
    I t h (run t (handler c) (at_time t s)).2;
  iw_clean : ∀ t T h s, T <= t -> I T h s ->
    I t h (mkRL (advance t (redis s)) (clear_round (t / 1000) (limiter s)));
}.

Lemma implements_served T h s evs :
  implements_window -> in_order T evs -> Forall (ok_time ∘ event_time) evs -> I T h s ->
  served handler who evs s
    = answer <$> sliding max dur h ((λ t, t / unit) <$> client_times who evs).
Proof.
  intros [Hh Ho Hc]. revert T h s.
  induction evs as [|[c t|t] evs IH]; intros T h s Hord Hok HI; [done| |];
    destruct Hord as [HT Hord]; inversion_clear Hok as [|? ? Ht Hok']; simpl in *.
  - destruct (run t (handler c) (at_time t s)) as [v s'] eqn:E. destruct (who c) eqn:Ew.
    + specialize (Hh c t T h s Ew Ht HT HI) as [Hv HI']. rewrite E in Hv, HI'. simpl in Hv, HI'.
      simpl. f_equal; [done|]. by apply (IH t).
    + specialize (Ho c t T h s Ew Ht HT HI). rewrite E in Ho. simpl. by apply (IH t).
  - by apply (IH t); [| |apply (Hc t T)].
Qed.
End backend.

(** ** The in-memory limiter *)

Section memory.
Context (keyof : Ctx -> string) (key : string) (who : Ctx -> bool) (max dur : Z).
Context (Hwho : ∀ c, who c = bool_decide (keyof c = key)) (Hmax : 1 <= max).

Record memory_inv (T : Z) (h : list Z) (s : RL) : Prop := {
  mi_store : store (limiter s) ≠ None;
  mi_expiry : dur <= Z.quot (expirationDuration (limiter s)) 1000000000;
  mi_tracks : tracks max dur (T / 1000) h (default [] (default ∅ (store (limiter s)) !! key));
}.

Lemma run_memory_request k t s :
  run t (memory_request k max dur) s =
    let '(x, l) := Request k max dur (t / 1000) (limiter s) in
    (match x with
     | Ok b => answer b
     | Err e => Err e
     end, mkRL (redis s) l).
Proof.
  unfold memory_request, on_memory. rewrite run_bind, run_now. cbv beta iota.
  rewrite run_bind, run_stmt. destruct (Request k max dur (t / 1000) (limiter s)) as [[b|e] l]; done.
Qed.

(** What [Request] does to the queue of its key. *)
Lemma Request_queue k now l m :
  store l = Some m ->
  let q := default [] (m !! k) in
  let b := queue_admits max dur q now in
  Request k max dur now l =
    (Ok b, if b then mkLimiter (Some (<[k := queue_push max q now]> m)) (expirationDuration l) else l).
Proof.
  intros Hm. unfold Request, queue_admits, queue_push. rewrite Hm. simpl.
  destruct (m !! k) as [q|] eqn:E; simpl.
  - destruct (Z.ltb_spec (Z.of_nat (length q)) max); [done|].
    destruct q as [|x q]; [simpl in *; lia|]. simpl. by destruct (dur <=? now - x).
  - rewrite !(proj2 (Z.ltb_ge _ _)), (proj2 (Z.ltb_lt _ _)) by lia. done.
Qed.

Lemma div_le T t : T <= t -> T / 1000 <= t / 1000.
Proof. intros. apply Z.div_le_mono; lia. Qed.

Lemma memory_implements :
  implements_window (λ c, memory_request (keyof c) max dur) who max dur 1000 memory_inv (λ _, True).
Proof.
  split.
  - intros c t T h s Hw _ HT [Hst Hexp Htr]. rewrite Hwho in Hw; apply bool_decide_eq_true in Hw. cbv beta zeta.
    rewrite run_memory_request, Hw. simpl. destruct (store (limiter s)) as [m|] eqn:Em; [|done].
    pose proof (Request_queue key (t / 1000) _ _ Em) as E. simpl in E. rewrite E. simpl in Htr. clear E.
    rewrite (tracks_admits _ _ _ _ _ _ Hmax (div_le _ _ HT) Htr). split; [done|].
    unfold record. rewrite (tracks_admits _ _ _ _ _ _ Hmax (div_le _ _ HT) Htr).
    destruct (queue_admits _ _ _ _); simpl.
    + split; simpl; [done|done|]. rewrite lookup_insert_eq. simpl.
      by apply (tracks_push _ _ _ _ _ _ Hmax (div_le _ _ HT)).
    + split; simpl; rewrite ?Em; [done|done|]. simpl. by apply (tracks_later _ _ _ _ _ _ (div_le _ _ HT)).
  - intros c t T h s Hw _ HT [Hst Hexp Htr]. rewrite Hwho in Hw; apply bool_decide_eq_false in Hw. cbv beta zeta.
    rewrite run_memory_request. simpl. destruct (store (limiter s)) as [m|] eqn:Em; [|done].
    pose proof (Request_queue (keyof c) (t / 1000) _ _ Em) as E. simpl in E. rewrite E. clear E.
    apply (tracks_later _ _ _ _ _ _ (div_le _ _ HT)) in Htr.
    destruct (queue_admits _ _ _ _); split; simpl; rewrite ?Em, ?lookup_insert_ne by done; done.
  - intros t T h s HT [Hst Hexp Htr]. destruct (store (limiter s)) as [m|] eqn:Em; [|done].
    apply (tracks_later _ _ _ _ _ _ (div_le _ _ HT)) in Htr.
    split; simpl; rewrite ?Em; simpl; [done|done|]. simpl in Htr. rewrite map_lookup_filter.
    destruct (m !! key) as [q|] eqn:Eq; simpl in *; [|done].
    destruct (expired_queue (expirationDuration (limiter s)) (t / 1000) q) eqn:Ex;
      [rewrite option_guard_False by (simpl; congruence)|by rewrite option_guard_True by done].
    simpl. unfold expired_queue in Ex. destruct (last q) as [n|] eqn:El; [|by apply last_None in El as ->].
    eapply tracks_forget; [lia|done|]. apply Z.ltb_lt in Ex. eapply tracks_all_old; [done|done|lia].
Qed.
End memory.

(** ** The Redis limiter *)

Lemma run_on_redis {X} t (f : Redis -> result X * Redis) s :
  run t (on_redis f) s = let '(x, r) := f (redis s) in (x, mkRL r (limiter s)).
Proof. unfold on_redis. by rewrite run_stmt. Qed.

Lemma run_discard {X} t (p : prog RL X) s : run t (discard p) s = (Ok tt, (run t p s).2).
Proof. unfold discard. rewrite run_bind, run_attempt. by destruct (run t p s). Qed.

Lemma run_discard_redis {X} t (f : Redis -> result X * Redis) s :
  run t (discard (on_redis f)) s = (Ok tt, mkRL (f (redis s)).2 (limiter s)).
Proof. rewrite run_discard, run_on_redis. by destruct (f (redis s)). Qed.

Lemma run_push `{loc : Location} t k s :
  run t (let* now := now_ in discard (on_redis (LPush k (Format now)))) s
    = (Ok tt, mkRL (LPush k (Format t) (redis s)).2 (limiter s)).
Proof. rewrite run_bind, run_now. cbv beta iota. by rewrite run_discard_redis. Qed.

Lemma list_at_push k s r : list_at k (LPush k s r).2 = s :: list_at k r.
Proof. unfold list_at, LPush. simpl. by rewrite lookup_insert_eq. Qed.

(** A list that is there and whose expiry is set to a positive time stays. *)
Lemma Expire_set k d l e r :
  1000000000 <= d -> lists r !! k = Some (l, e) ->
  lists (Expire k d r).2 !! k = Some (l, Some (server_ms r + Z.quot d 1000000000 * 1000)) ∧
  server_ms (Expire k d r).2 = server_ms r.
Proof.
  intros Hd Hl. unfold Expire. rewrite Hl. rewrite (proj2 (Z.ltb_ge d _)), andb_false_r by done.
  assert (1 <= Z.quot d 1000000000) by (apply Z.quot_le_lower_bound; lia).
  rewrite (proj2 (Z.leb_gt _ _)) by lia. simpl. by rewrite lookup_insert_eq.
Qed.

Lemma Expire_none k d r : lists r !! k = None -> Expire k d r = (Ok tt, r).
Proof. intros H. unfold Expire. by rewrite H. Qed.

Lemma LTrim0_list k n r l e :
  0 <= n -> lists r !! k = Some (l, e) -> l ≠ [] ->
  lists (LTrim0 k n r).2 !! k = Some (take (Z.to_nat (n + 1)) l, e) ∧
  server_ms (LTrim0 k n r).2 = server_ms r.
Proof.
  intros Hn Hl Hne. unfold LTrim0. rewrite Hl, (proj2 (Z.ltb_ge _ _)) by lia.
  replace (Z.to_nat (n + 1)) with (S (Z.to_nat n)) by lia.
  destruct l as [|x l]; [done|]. simpl. by rewrite lookup_insert_eq.
Qed.

(** Only the list of its own key is touched by a command. *)
Lemma command_other k k' d n s r : k' ≠ k ->
  lists (LPush k s r).2 !! k' = lists r !! k' ∧ lists (LTrim0 k n r).2 !! k' = lists r !! k' ∧
  lists (Expire k d r).2 !! k' = lists r !! k'.
Proof.
  intros Hne. unfold LPush, LTrim0, Expire. simpl. rewrite lookup_insert_ne by done.
  destruct (lists r !! k) as [[l e]|]; [|done]. split; [done|]. split.
  - destruct (take _ l); simpl; by rewrite ?lookup_delete_ne, ?lookup_insert_ne by done.
  - match goal with |- context [if ?b then _ else _] => destruct b end;
    match goal with |- context [if ?b then _ else _] => destruct b | _ => idtac end;
    simpl; by rewrite ?lookup_delete_ne, ?lookup_insert_ne by done.
Qed.

Section redis.
Context (off : Z) (cfg : RateConfig) (keyof : Ctx -> string) (key : string).
Context (who : Ctx -> bool) (max dur : Z) (Hwho : ∀ c, who c = bool_decide (keyof c = key)).
#[local] Instance zone : Location := fixed_zone off.
Context (Hmax : 1 <= max) (Hexp : 1000000000 <= RateLimitKeyExpirationDuration cfg).
Context (Hdur : dur <= Z.quot (RateLimitKeyExpirationDuration cfg) 1000000000).

Lemma wall_fixed t : wall t = t + 1000 * off.
Proof.
  unfold wall, local_seconds. change (zone_offset (t / 1000)) with off.
  pose proof (Z.div_mod t 1000). lia.
Qed.

(** A list whose expiry was set at [t]. *)
Definition touched (t : Z) (l : list string) : list string * option Z :=
  (l, Some (t + Z.quot (RateLimitKeyExpirationDuration cfg) 1000000000 * 1000)).

Lemma quot_window n : 0 <= n -> (Z.quot n 1000 <? dur) = negb (1000 * dur <=? n).
Proof.
  intros Hn. rewrite Z.quot_div_nonneg by lia. pose proof (Z.div_mod n 1000).
  pose proof (Z.mod_pos_bound n 1000). destruct (Z.ltb_spec (n / 1000) dur), (Z.leb_spec (1000 * dur) n); lia.
Qed.

(** The three endings of the handler. *)
Lemma run_expire t k l e s :
  server_ms (redis s) = t -> lists (redis s) !! k = Some (l, e) ->
  let s' := mkRL (Expire k (RateLimitKeyExpirationDuration cfg) (redis s)).2 (limiter s) in
  run t (discard (on_redis (Expire k (RateLimitKeyExpirationDuration cfg)))) s = (Ok tt, s') ∧
  lists (redis s') !! k = Some (touched t l) ∧
  (∀ k', k' ≠ k -> lists (redis s') !! k' = lists (redis s) !! k').
Proof.
  intros Hms Hl s'. split; [apply run_discard_redis|]. subst s'. simpl.
  destruct (Expire_set k _ l e (redis s) Hexp Hl) as [-> _]. rewrite Hms. split; [done|].
  intros k' Hk'. apply (command_other k k' _ 0 "" (redis s) Hk').
Qed.

Lemma run_push_list t k s :
  let s' := mkRL (LPush k (Format t) (redis s)).2 (limiter s) in
  run t (let* now := now_ in discard (on_redis (LPush k (Format now)))) s = (Ok tt, s') ∧
  server_ms (redis s') = server_ms (redis s) ∧
  (∃ e, lists (redis s') !! k = Some (Format t :: list_at k (redis s), e)) ∧
  (∀ k', k' ≠ k -> lists (redis s') !! k' = lists (redis s) !! k').
Proof.
  simpl. split_and!; [done|done| |].
  - eexists. by rewrite lookup_insert_eq.
  - intros k' Hk'. apply (command_other k k' 0 0 _ _ Hk').
Qed.

Lemma run_length t k s {A} (cont : result Z -> prog RL A) :
  run t (let* n := pattempt (on_redis (LLen k)) in cont n) s
    = run t (cont (Ok (Z.of_nat (length (list_at k (redis s)))))) s.
Proof. rewrite run_bind, run_attempt, run_on_redis. by destruct s. Qed.

Lemma run_oldest t k s {A} l x (cont : result string -> prog RL A) :
  list_at k (redis s) = l ++ [x] ->
  run t (let* o := pattempt (on_redis (LIndex_last k)) in cont o) s = run t (cont (Ok x)) s.
Proof.
  intros Hl. rewrite run_bind, run_attempt, run_on_redis. unfold LIndex_last.
  rewrite Hl, last_snoc. by destruct s.
Qed.

Lemma run_redis_room k t s :
  server_ms (redis s) = t -> Z.of_nat (length (list_at k (redis s))) < max ->
  ∃ s', run t (userRedisRateLimiter cfg max dur k) s = (answer true, s') ∧
  lists (redis s') !! k = Some (touched t (Format t :: list_at k (redis s))) ∧
  (∀ k', k' ≠ k -> lists (redis s') !! k' = lists (redis s) !! k').
Proof.
  intros Hms Hlt. unfold userRedisRateLimiter. cbv zeta.
  rewrite run_length, (proj2 (Z.ltb_lt _ _) Hlt).
  destruct (run_push_list t k s) as (Ep & Hms' & (e & Hl) & Ho).
  rewrite run_bind, Ep. cbv beta iota.
  destruct (run_expire t k _ e _ (eq_trans Hms' Hms) Hl) as (Ee & Hl' & Ho').
  rewrite run_bind, Ee. cbv beta iota. eexists. split_and!; [done|exact Hl'|].
  intros k' Hk'. etrans; [by apply Ho'|by apply Ho].
Qed.

Lemma run_redis_full k t s old l :
  server_ms (redis s) = t -> max <= Z.of_nat (length (list_at k (redis s))) ->
  list_at k (redis s) = l ++ [Format old] -> printable old -> printable t -> old <= t ->
  let b := 1000 * dur <=? t - old in
  ∃ s', run t (userRedisRateLimiter cfg max dur k) s = (answer b, s') ∧
  lists (redis s') !! k
    = Some (touched t (if b then take (Z.to_nat max) (Format t :: l ++ [Format old]) else l ++ [Format old])) ∧
  (∀ k', k' ≠ k -> lists (redis s') !! k' = lists (redis s) !! k').
Proof.
  intros Hms Hge Hl Hpo Hpt Hle b. unfold userRedisRateLimiter. cbv zeta.
  rewrite run_length, (proj2 (Z.ltb_ge _ _) Hge), (run_oldest _ _ _ _ _ _ Hl),
    (Parse_Format old Hpo), run_bind, run_now. cbv beta iota.
  rewrite (Parse_Format t Hpt), !wall_fixed.
  replace (t + 1000 * off - (old + 1000 * off)) with (t - old) by lia.
  rewrite quot_window by lia. fold b. destruct b; simpl negb; cbv iota.
  - destruct (run_push_list t k s) as (Ep & Hms' & (e & Hl') & Ho).
    rewrite run_bind, Ep. cbv beta iota. set (s1 := mkRL _ _) in *. rewrite Hl in Hl'.
    rewrite run_bind, run_discard_redis. cbv beta iota.
    destruct (LTrim0_list k (max - 1) (redis s1) _ e ltac:(lia) Hl' ltac:(done)) as [Ht Hms''].
    replace (max - 1 + 1) with max in Ht by lia.
    set (s2 := mkRL (LTrim0 k (max - 1) (redis s1)).2 (limiter s1)).
    destruct (run_expire t k _ e s2 (eq_trans Hms'' (eq_trans Hms' Hms)) Ht) as (Ee & Hl'' & Ho').
    rewrite run_bind, Ee. cbv beta iota. eexists. split_and!; [done|exact Hl''|].
    intros k' Hk'. etrans; [by apply Ho'|]. etrans; [|by apply Ho].
    apply (command_other k k' 0 _ "" _ Hk').
  - assert (∃ e, lists (redis s) !! k = Some (l ++ [Format old], e)) as [e Hle'].
    { unfold list_at in Hl. destruct (lists (redis s) !! k) as [[l' e]|]; [subst; eauto|].
      by destruct l. }
    destruct (run_expire t k _ e s Hms Hle') as (Ee & Hl' & Ho).
    rewrite run_bind, Ee. cbv beta iota. eexists. split_and!; [done|exact Hl'|exact Ho].
Qed.

Lemma run_redis_limiter k t s q :
  server_ms (redis s) = t -> list_at k (redis s) = reverse (Format <$> q) ->
  Forall printable q -> printable t -> Forall (λ x, x <= t) q -> Z.of_nat (length q) <= max ->
  let b := queue_admits max (1000 * dur) q t in
  let q' := if b then queue_push max q t else q in
  ∃ s', run t (userRedisRateLimiter cfg max dur k) s = (answer b, s') ∧
  lists (redis s') !! k = Some (touched t (reverse (Format <$> q'))) ∧
  (∀ k', k' ≠ k -> lists (redis s') !! k' = lists (redis s) !! k').
Proof.
  intros Hms Hl Hpq Hpt Hle Hlen b q'. subst q' b.
  assert (length (list_at k (redis s)) = length q) as Hlq by (by rewrite Hl, length_reverse, length_fmap).
  unfold queue_admits, queue_push. destruct (Z.ltb_spec (Z.of_nat (length q)) max) as [Hlt|Hge]; simpl orb; cbv iota.
  - rewrite fmap_app, reverse_app, <- Hl. apply run_redis_room; [done|lia].
  - destruct q as [|old q]; [simpl in *; lia|]. inversion Hpq; inversion Hle; subst. simpl tail.
    rewrite fmap_cons, reverse_cons in Hl.
    destruct (run_redis_full k _ s old _ eq_refl ltac:(lia) Hl ltac:(done) Hpt ltac:(done)) as (s' & Hr & Hk & Ho).
    exists s'. split_and!; [done| |done]. rewrite Hk. do 2 f_equal.
    destruct (1000 * dur <=? server_ms (redis s) - old).
    + rewrite fmap_app, reverse_app. change (Format ?t :: ?a ++ ?b) with ((Format t :: a) ++ b).
      apply take_app_length'. simpl. rewrite length_reverse, length_fmap. simpl in *. lia.
    + by rewrite fmap_cons, reverse_cons.
Qed.

Record redis_inv (T : Z) (h : list Z) (s : RL) : Prop := {
  ri_tracks : ∃ q, tracks max (1000 * dur) T h q ∧ list_at key (redis s) = reverse (Format <$> q);
  ri_printable : Forall printable h;
  ri_expiry : ∀ l e, lists (redis s) !! key = Some (l, Some e) -> Forall (λ t, t + 1000 * dur <= e) h;
}.

(** A handler leaves the lists of other keys alone. *)
Definition same_list (k' : string) (s s' : RL) : Prop :=
  lists (redis s') !! k' = lists (redis s) !! k'.

#[local] Instance same_list_pre k' : PreOrder (same_list k').
Proof. split; [done|]. intros x y z H1 H2. by unfold same_list in *; rewrite H2. Qed.

Lemma own_command {X} k' (f : Redis -> result X * Redis) :
  (∀ r, lists (f r).2 !! k' = lists r !! k') -> steps (same_list k') (pattempt (on_redis f)).
Proof.
  intros Hf. apply steps_attempt, steps_stmt. intros s. specialize (Hf (redis s)).
  by destruct (f (redis s)).
Qed.

Lemma redis_limiter_own k k' :
  k' ≠ k -> steps (same_list k') (userRedisRateLimiter cfg max dur k).
Proof.
  intros Hne. pose proof (λ d n s r, command_other k k' d n s r Hne) as Hc. unfold userRedisRateLimiter.
  repeat (match goal with
    | |- steps _ (pbind (pattempt (on_redis _)) _) => apply steps_bind; [apply own_command|]
    | |- steps _ (pbind _ _) => apply steps_bind
    | |- steps _ (discard _) => apply steps_bind; [apply own_command|]
    | |- steps _ (match ?x with _ => _ end) => destruct x
    | |- forall _, _ => intros
    end; auto with steps); try done.
  all: match goal with
    | |- lists (LPush _ ?s ?r).2 !! _ = _ => apply (Hc 0 0 s r)
    | |- lists (LTrim0 _ ?n ?r).2 !! _ = _ => apply (Hc 0 n "" r)
    | |- lists (Expire _ ?d ?r).2 !! _ = _ => apply (Hc d 0 "" r)
    end.
Qed.

(** A key that expires takes only times with it that no longer count. *)
Lemma redis_inv_advance t T h s :
  T <= t -> redis_inv T h s -> redis_inv t h (at_time t s).
Proof.
  intros HT [(q & Htr & Hl) Hp He]. apply (tracks_later _ _ _ _ _ _ HT) in Htr.
  unfold at_time, advance, list_at in *. simpl. split; simpl; [|done|].
  - unfold list_at. simpl. set (m := filter _ (lists (redis s))). destruct (m !! key) as [[l e]|] eqn:E.
    + apply map_lookup_filter_Some in E as [E _]. rewrite E in Hl. by exists q.
    + apply map_lookup_filter_None in E as [E|E]; [rewrite E in Hl; by exists q|].
      destruct (lists (redis s) !! key) as [[l e]|] eqn:El; [|by exists q].
      exists []. split; [|done]. eapply tracks_forget; [lia|done|].
      specialize (E (l, e) eq_refl). apply not_false_is_true in E. unfold expired_key in E. simpl in E.
      destruct e as [e|]; [|done]. eapply Forall_impl; [by apply (He l e)|].
      apply Z.leb_le in E. simpl. lia.
  - intros l e (H & _)%map_lookup_filter_Some. by apply (He l).
Qed.

Lemma tracks_queue T h q :
  tracks max (1000 * dur) T h q -> Forall printable h ->
  Forall (λ x, x <= T) q ∧ Forall printable q ∧ Z.of_nat (length q) <= max.
Proof. intros [_ Hb (old & -> & Hl & _)] Hp. rewrite Forall_app in Hb, Hp. intuition. Qed.

Lemma redis_implements :
  implements_window (λ c, userRedisRateLimiter cfg max dur (keyof c)) who
    max (1000 * dur) 1 redis_inv printable.
Proof.
  split.
  - intros c t T h s Hw Ht HT HI%(redis_inv_advance t T); [|done]. rewrite Hwho in Hw; apply bool_decide_eq_true in Hw.
    rewrite Hw, Z.div_1_r. destruct HI as [(q & Htr & Hl) Hp _].
    destruct (tracks_queue _ _ _ Htr Hp) as (Hle & Hpq & Hlen).
    destruct (run_redis_limiter key t (at_time t s) q eq_refl Hl Hpq Ht Hle Hlen) as (s' & -> & Hk & _).
    pose proof (tracks_admits _ _ _ _ _ t Hmax (Z.le_refl t) Htr) as Ha. simpl. rewrite Ha. split; [done|].
    unfold record. rewrite Ha. set (h' := if queue_admits _ _ _ _ then h ++ [t] else h).
    assert (Forall (λ x, x <= t) h') as Hb'.
    { subst h'. destruct Htr as [_ Hb _]. destruct (queue_admits _ _ _ _); [|done].
      apply Forall_app. by repeat constructor. }
    split.
    + eexists. split; [|unfold list_at; rewrite Hk; reflexivity]. subst h'.
      destruct (queue_admits _ _ _ _); [by apply (tracks_push _ _ t)|done].
    + subst h'. destruct (queue_admits _ _ _ _); [|done]. apply Forall_app. split; [done|by apply Forall_singleton].
    + intros l e He. rewrite Hk in He. unfold touched in He. simplify_eq.
      eapply Forall_impl; [exact Hb'|]. simpl. lia.
  - intros c t T h s Hw Ht HT HI%(redis_inv_advance t T); [|done]. rewrite Hwho in Hw; apply bool_decide_eq_false in Hw.
    pose proof (steps_run _ t _ (at_time t s) (redis_limiter_own (keyof c) key (not_eq_sym Hw))) as Hk.
    destruct HI as [(q & Htr & Hl) Hp He].
    split; [exists q; split; [done|]|done|]; unfold list_at in *; by rewrite Hk.
  - intros t T h s HT HI%(redis_inv_advance t T); [|done]. destruct HI. by split.
Qed.
End redis.

(** ** The limit by client address, either backend *)

Section factory.
Context (off : Z) (cfg : RateConfig) (max dur : Z) (mark ip : string).
#[local] Instance factory_zone : Location := fixed_zone off.

Definition from_ip (c : Ctx) : bool := bool_decide (ClientIP c = ip).

(** The node after start-up. *)
Definition fresh : RL :=
  mkRL (mkRedis ∅ ∅ 0) (Init (RateLimitKeyExpirationDuration cfg) new_limiter).

Definition limit (c : Ctx) : prog RL verdict := rateLimitFactory cfg c max dur mark.

(** The unit of time of the backend, in milliseconds, and the window in it. *)
Definition tick : Z := if RedisEnabled cfg then 1 else 1000.
Definition window : Z := if RedisEnabled cfg then 1000 * dur else dur.

(** What the limits of the gateway need: the window fits into the time for which
    keys are kept. *)
Record proper_limit : Prop := {
  pl_max : 1 <= max;
  pl_expiration : 1000000000 <= RateLimitKeyExpirationDuration cfg;
  pl_window : dur <= Z.quot (RateLimitKeyExpirationDuration cfg) 1000000000;
}.

Definition well_timed (evs : list event) : Prop :=
  in_order 0 evs ∧ Forall (λ e, printable (event_time e)) evs.

Lemma limit_served evs :
  proper_limit -> well_timed evs ->
  served limit from_ip evs fresh
    = answer <$> sliding max window [] ((λ t, t / tick) <$> client_times from_ip evs).
Proof.
  intros [Hm He Hw] [Hord Hp]. unfold limit, rateLimitFactory, tick, window.
  destruct (RedisEnabled cfg).
  - eapply (implements_served _ _ _ _ _ _ _ 0);
      [eapply (redis_implements off cfg (λ c, "rateLimit:" +:+ mark +:+ ClientIP c) ("rateLimit:" +:+ mark +:+ ip));
        [|done..]|done|done|].
    + intros c. unfold from_ip. apply bool_decide_ext. naive_solver.
    + split; [exists []; split; [apply tracks_nil; lia|done]|constructor|]. intros l e H. done.
  - eapply (implements_served _ _ _ _ _ _ _ 0);
      [eapply (memory_implements (λ c, mark +:+ ClientIP c) (mark +:+ ip)); [|done]|done|by apply Forall_true|].
    + intros c. unfold from_ip. apply bool_decide_ext. naive_solver.
    + split; [done|done|]. apply tracks_nil. lia.
Qed.

(** C34. Whatever the backend, [rateLimitFactory] gives each client the verdicts of the
    sliding window over the times of that client's admitted requests: bounded queues,
    the cleaner, expiring keys and the requests of other clients make no difference.
    This is so for a limit of at least one request whose window is not longer than the
    time keys are kept ([proper_limit]) and for requests that are handled one after the
    other, in the order of their printable times, on clocks with one fixed zone offset
    ([well_timed]). Requests at the same moment on Redis ([redis_limiter_race]), a
    changing offset ([clock_change_locks_out]) and longer windows
    ([hourly_limit_forgotten]) are outside. *)
Theorem rate_limit_refines_window evs :
  proper_limit -> well_timed evs ->
  served limit from_ip evs fresh
    = answer <$> sliding max window [] ((λ t, t / tick) <$> client_times from_ip evs).
Proof. apply limit_served. Qed.
End factory.

(** The admitted requests among [times], as the verdicts tell them. *)
Definition admitted_of (times : list Z) (verdicts : list bool) : list Z :=
  omap (λ '(t, b), if b : bool then Some t else None) (zip times verdicts).

Lemma admitted_sliding max dur h times :
  h ++ admitted_of times (sliding max dur h times) = foldl (record max dur) h times.
Proof.
  revert h. induction times as [|t times IH]; intros h; [apply app_nil_r|].
  unfold admitted_of in *. simpl. rewrite <- IH. unfold record.
  destruct (admits max dur h t); simpl; [by rewrite <- app_assoc|done].
Qed.

Lemma spaced_nil max dur T : spaced max dur T [].
Proof. split; [constructor|constructor|]. intros i x y H. by rewrite lookup_nil in H. Qed.

(** Times in order, from [T] on. *)
Fixpoint ascending (T : Z) (l : list Z) : Prop :=
  match l with [] => True | t :: l => T <= t ∧ ascending t l end.

Lemma spaced_foldl max dur T h times :
  1 <= max -> ascending T times -> spaced max dur T h ->
  ∃ T', T <= T' ∧ spaced max dur T' (foldl (record max dur) h times).
Proof.
  intros Hm. revert T h. induction times as [|t times IH]; intros T h Hord Hsp; simpl.
  - exists T. split; [lia|done].
  - destruct Hord as [HT Hord]. destruct (IH t (record max dur h t)) as (T' & ? & ?); [done| |].
    + by apply (record_spaced _ _ T).
    + exists T'. split; [lia|done].
Qed.

Lemma in_order_times who T evs u :
  0 < u -> in_order T evs -> ascending (T / u) ((λ t, t / u) <$> client_times who evs).
Proof.
  intros Hu. revert T. unfold client_times.
  assert (∀ S l, ascending S l -> ∀ T, T <= S -> ascending T l) as Hweak.
  { intros S l. destruct l; [done|]. simpl. intros [? ?] T HT. split; [lia|done]. }
  induction evs as [|[c t|t] evs IH]; intros T; [done| |]; simpl; intros [HT Hord];
    pose proof (Z.div_le_mono T t u Hu HT).
  - destruct (who c); simpl; [split; [done|by apply IH]|]. eapply Hweak; [by apply IH|done].
  - eapply Hweak; [by apply IH|done].
Qed.

Lemma sliding_app max dur h l l' :
  sliding max dur h (l ++ l') = sliding max dur h l ++ sliding max dur (foldl (record max dur) h l) l'.
Proof. revert h. induction l as [|t l IH]; intros h; [done|]. simpl. by rewrite IH. Qed.

Lemma admits_all_old max dur h now :
  1 <= max -> Forall (λ t, t + dur <= now) h -> admits max dur h now = true.
Proof.
  intros Hm Hf. unfold admits. destruct (Z.ltb _ _); [done|].
  destruct (h !! _) as [old|] eqn:E; [|done].
  rewrite Forall_forall in Hf. apply list_elem_of_lookup_2, Hf in E. apply Z.leb_le. lia.
Qed.

Lemma Forall_foldl_record max dur (P : Z -> Prop) h l :
  Forall P h -> Forall P l -> Forall P (foldl (record max dur) h l).
Proof.
  revert h. induction l as [|t l IH]; intros h Hh Hl; [done|]. inversion_clear Hl. apply IH; [|done].
  unfold record. destruct (admits _ _ _ _); [|done]. apply Forall_app. split; [done|by apply Forall_singleton].
Qed.

(** Seconds or milliseconds, when nothing happens between the seconds. *)
Lemma sliding_scale max dur h times :
  Forall (λ t, (1000 | t)) times ->
  sliding max (1000 * dur) ((λ t, 1000 * t) <$> h) ((λ t, t / 1) <$> times)
    = sliding max dur h ((λ t, t / 1000) <$> times).
Proof.
  intros Hd. revert h. induction Hd as [|t times [n ->] _ IH]; intros h; [done|]. rewrite !fmap_cons.
  rewrite Z.div_1_r, Z.div_mul by lia. simpl.
  assert (admits max (1000 * dur) ((λ t, 1000 * t) <$> h) (n * 1000) = admits max dur h n) as Ea.
  { unfold admits. rewrite length_fmap, list_lookup_fmap. destruct (Z.ltb _ _); [done|].
    destruct (h !! _) as [x|]; simpl; [|done].
    destruct (Z.leb_spec (1000 * dur) (n * 1000 - 1000 * x)), (Z.leb_spec dur (n - x)); lia. }
  rewrite Ea. f_equal. rewrite <- IH. unfold record. rewrite Ea. destruct (admits max dur h n); [|done].
  rewrite fmap_app. simpl. by replace (1000 * n) with (n * 1000) by lia.
Qed.

Lemma Forall_client_times (P : Z -> Prop) who evs :
  Forall (λ e, P (event_time e)) evs -> Forall P (client_times who evs).
Proof.
  unfold client_times. induction 1 as [|[c t|t] evs Ht _ IH]; simpl; [constructor| |done].
  destruct (who c); [by constructor|done].
Qed.

Section promises.
Context (off : Z) (cfg : RateConfig) (max dur : Z) (mark ip : string).
#[local] Instance promises_zone : Location := fixed_zone off.

(** The times, in the backend's unit, at which requests of the client passed. *)
Definition is_next (v : result verdict) : bool := match v with Ok Next => true | _ => false end.

Definition passed (evs : list event) : list Z :=
  admitted_of ((λ t, t / tick cfg) <$> client_times (from_ip ip) evs)
    (is_next <$> served (limit off cfg max dur mark) (from_ip ip) evs (fresh cfg)).

Lemma is_next_answer (l : list bool) : is_next <$> (answer <$> l) = l.
Proof. induction l as [|[] l IH]; [done| |]; rewrite !fmap_cons, IH; done. Qed.

Lemma tick_pos : 0 < tick cfg.
Proof. unfold tick. destruct (RedisEnabled cfg); lia. Qed.

Lemma passed_admitted evs :
  proper_limit cfg max dur -> well_timed off evs ->
  passed evs = admitted max (window cfg dur) ((λ t, t / tick cfg) <$> client_times (from_ip ip) evs).
Proof.
  intros Hp Hw. unfold passed. rewrite (limit_served off cfg max dur mark ip evs Hp Hw), is_next_answer.
  apply (admitted_sliding _ _ []).
Qed.

Lemma passed_spaced evs :
  proper_limit cfg max dur -> well_timed off evs -> ∃ T, spaced max (window cfg dur) T (passed evs).
Proof.
  intros Hp Hw. rewrite passed_admitted by done.
  destruct (spaced_foldl max (window cfg dur) (0 / tick cfg) []
    ((λ t, t / tick cfg) <$> client_times (from_ip ip) evs)) as (T & _ & HT); [apply Hp| |apply spaced_nil|eauto].
  apply in_order_times; [apply tick_pos|apply Hw].
Qed.

(** No window of the limit's duration, wherever it starts, holds more than
    [max] requests of one client that got through, measured on the backend's clock
    (milliseconds with Redis, whole seconds in memory). *)
Theorem rate_limit_bounds_window evs a :
  proper_limit cfg max dur -> well_timed off evs ->
  Z.of_nat (length (in_window (window cfg dur) a (passed evs))) <= max.
Proof.
  intros Hp Hw. destruct (passed_spaced evs Hp Hw) as [T HT].
  eapply spaced_window; [|exact HT]. pose proof (pl_max _ _ _ Hp). lia.
Qed.

(** A client whose last request lies a whole window back is admitted: the
    limiters never lock a client out for longer than the window. *)
Theorem rate_limit_waits_at_most_window evs c t :
  proper_limit cfg max dur -> well_timed off (evs ++ [Hit c t]) -> ClientIP c = ip ->
  Forall (λ t', t' / tick cfg + window cfg dur <= t / tick cfg) (client_times (from_ip ip) evs) ->
  last (served (limit off cfg max dur mark) (from_ip ip) (evs ++ [Hit c t]) (fresh cfg)) = Some (Ok Next).
Proof.
  intros Hp Hw Hc Hold. rewrite limit_served by done.
  unfold client_times. rewrite omap_app. simpl. unfold from_ip at 2. rewrite bool_decide_true by done.
  rewrite fmap_app, sliding_app, fmap_app. simpl. rewrite last_snoc. do 2 f_equal.
  rewrite admits_all_old; [done|apply Hp|]. apply Forall_foldl_record; [constructor|].
  apply Forall_fmap. exact Hold.
Qed.
End promises.

(** The two backends are interchangeable: on requests at whole seconds a node
    with Redis and a node without give every client the same verdicts. *)
Theorem rate_limit_backends_agree off cfg cfg' max dur mark ip evs :
  RedisEnabled cfg = true -> RedisEnabled cfg' = false ->
  proper_limit cfg max dur -> proper_limit cfg' max dur ->
  well_timed off evs -> Forall (λ e, (1000 | event_time e)) evs ->
  served (limit off cfg max dur mark) (from_ip ip) evs (fresh cfg)
    = served (limit off cfg' max dur mark) (from_ip ip) evs (fresh cfg').
Proof.
  intros Hr Hm Hp Hp' Hw Hs. rewrite !limit_served by done. f_equal.
  unfold window, tick. rewrite Hr, Hm. apply (sliding_scale max dur []).
  by apply Forall_client_times.
Qed.
