(* ===== verification/StatusCodes.v ===== *)
(** * StatusCodes: which upstream statuses are retried or disable a channel

    Models [setting/operation_setting/status_code_ranges.go]: the textual rules an
    administrator enters ("401, 500-503"), their normal form, and the lookups the
    relay makes.  The normal form is proved sorted and disjoint, merging is proved
    to keep the set of codes, and printing and parsing are proved inverse. *)

From Stdlib Require Import Ascii.
From stdpp Require Import sorting.
From S2P Require Import Prelude.
From S2P Require Export GoString.
From S2P Require Export Effects.

Record StatusCodeRange : Type := mkRange { Start : Z; End_ : Z }.

#[export] Instance StatusCodeRange_eq_dec : EqDecision StatusCodeRange.
Proof. solve_decision. Defined.

Definition AutomaticDisableStatusCodeRanges : list StatusCodeRange := [mkRange 401 401].

Definition AutomaticRetryStatusCodeRanges : list StatusCodeRange :=
  [mkRange 100 199; mkRange 300 399; mkRange 401 407; mkRange 409 499; mkRange 500 503;
   mkRange 505 523; mkRange 525 599].

Definition alwaysSkipRetryStatusCodes : list Z := [504; 524].
Definition ErrorCodeBadResponseBody : string := "bad_response_body".
Definition alwaysSkipRetryCodes : list string := [ErrorCodeBadResponseBody].

Definition IsAlwaysSkipRetryStatusCode (code : Z) : bool := bool_decide (code ∈ alwaysSkipRetryStatusCodes).
Definition IsAlwaysSkipRetryCode (errorCode : string) : bool := bool_decide (errorCode ∈ alwaysSkipRetryCodes).

Definition statusCodeRangeToString (r : StatusCodeRange) : string :=
  if Start r =? End_ r then pretty (Start r) else pretty (Start r) +:+ "-" +:+ pretty (End_ r).

Definition statusCodeRangesToString (ranges : list StatusCodeRange) : string :=
  Join (statusCodeRangeToString <$> ranges) ",".

Fixpoint match_ranges (ranges : list StatusCodeRange) (code : Z) : bool :=
  match ranges with
  | [] => false
  | r :: ranges =>
      if code <? Start r then false
      else if code <=? End_ r then true
      else match_ranges ranges code
  end.

Definition shouldMatchStatusCodeRanges (ranges : list StatusCodeRange) (code : Z) : bool :=
  if (code <? 100) || (599 <? code) then false else match_ranges ranges code.

Definition ShouldDisableByStatusCode (disable : list StatusCodeRange) (code : Z) : bool :=
  shouldMatchStatusCodeRanges disable code.

Definition ShouldRetryByStatusCode (retry : list StatusCodeRange) (code : Z) : bool :=
  if IsAlwaysSkipRetryStatusCode code then false else shouldMatchStatusCodeRanges retry code.

(** [fmt.Errorf] with the token. *)
Definition bad {A} (what token : string) : result A := Err (EText (what +:+ ": " +:+ token)).

Definition parseHTTPStatusCodeToken (token : string) : result StatusCodeRange :=
  let token := ReplaceAll (TrimSpace token) " " "" in
  if decide (token = "") then Err (EText "empty token")
  else if Contains token "-" then
    match Split token "-" with
    | [a; b] =>
        if bool_decide (a = "") || bool_decide (b = "") then bad "invalid range token" token
        else match Atoi a, Atoi b with
             | None, _ => bad "invalid range start" token
             | _, None => bad "invalid range end" token
             | Some start, Some stop =>
                 if stop <? start then bad "range start > end" token
                 else if (start <? 100) || (599 <? stop) then bad "range out of bounds" token
                 else Ok (mkRange start stop)
             end
    | _ => bad "invalid range token" token
    end
  else
    match Atoi token with
    | None => bad "invalid status code" token
    | Some code =>
        if (code <? 100) || (599 <? code) then bad "status code out of bounds" token
        else Ok (mkRange code code)
    end.

(** The order of [sort.Slice]; it is total, so the result is unique. *)
Definition range_le (r q : StatusCodeRange) : Prop :=
  Start r < Start q ∨ (Start r = Start q ∧ End_ r <= End_ q).

#[export] Instance range_le_dec r q : Decision (range_le r q).
Proof. unfold range_le. apply _. Defined.

(** One round of the merging loop: [merged] with its last element first. *)
Definition merge_range (merged : list StatusCodeRange) (r : StatusCodeRange) : list StatusCodeRange :=
  match merged with
  | last :: rest =>
      if Start r <=? End_ last + 1 then
        (if End_ last <? End_ r then mkRange (Start last) (End_ r) else last) :: rest
      else r :: merged
  | [] => [r]
  end.

(** The non-empty trimmed segments of the input. *)
Definition range_segments (input : string) : list string :=
  filter (λ seg, seg ≠ "")
    (TrimSpace <$> Split (ReplaceAll (TrimSpace input) "，" ",") ",").

Definition ParseHTTPStatusCodeRanges (input : string) : result (list StatusCodeRange) :=
  let segments := range_segments input in
  let ranges := omap (λ seg, match parseHTTPStatusCodeToken seg with Ok r => Some r | Err _ => None end) segments in
  let invalid := filter (λ seg, is_ok (parseHTTPStatusCodeToken seg) = false) segments in
  match invalid with
  | _ :: _ => Err (EText ("invalid http status code rules: " +:+ Join invalid ", "))
  | [] => Ok (reverse (foldl merge_range [] (merge_sort range_le ranges)))
  end.

(** The settings: [AutomaticRetryStatusCodesFromString] replaces the ranges unless
    the text is invalid. *)
Definition AutomaticRetryStatusCodesFromString (s : string) (retry : list StatusCodeRange)
    : result unit * list StatusCodeRange :=
  match ParseHTTPStatusCodeRanges s with
  | Ok ranges => (Ok tt, ranges)
  | Err e => (Err e, retry)
  end.

Definition AutomaticRetryStatusCodesToString (retry : list StatusCodeRange) : string :=
  statusCodeRangesToString retry.

Example parse_ex :
  ParseHTTPStatusCodeRanges " 505-599 , 500，401 , 400-403, 501 - 503 " = Ok [mkRange 400 403; mkRange 500 503; mkRange 505 599].
Proof. vm_compute. reflexivity. Qed.

(** ** The normal form of rules *)

(** A range of HTTP statuses. *)
Definition http_range (r : StatusCodeRange) : Prop := 100 <= Start r ∧ Start r <= End_ r ∧ End_ r <= 599.

(** [q] starts after a gap behind [r]. *)
Definition apart (r q : StatusCodeRange) : Prop := End_ r + 1 < Start q.

(** Sorted, disjoint and not even adjacent. *)
Definition normal (l : list StatusCodeRange) : Prop := Forall http_range l ∧ StronglySorted apart l.

Definition within (code : Z) (r : StatusCodeRange) : Prop := Start r <= code <= End_ r.

(** ** Merging *)

(** The merged ranges, last first, and the rest of the sorted input. *)
Record merging (acc todo : list StatusCodeRange) : Prop := {
  mg_acc : Forall http_range acc;
  mg_apart : StronglySorted (λ q r, apart r q) acc;
  mg_todo : Forall http_range todo;
  mg_sorted : StronglySorted range_le todo;
  mg_ahead : ∀ last r, head acc = Some last -> r ∈ todo -> Start last <= Start r;
}.

Lemma merge_range_step acc r todo :
  merging acc (r :: todo) ->
  merging (merge_range acc r) todo ∧
  ∀ code, Exists (within code) (merge_range acc r) <-> Exists (within code) acc ∨ within code r.
Proof.
  intros [Ha Hp Ht Hs Hh]. inversion_clear Ht as [|? ? Hr Ht']. apply StronglySorted_inv in Hs as [Hs Hle].
  assert (∀ q, q ∈ todo -> Start r <= Start q) as Hrq.
  { intros q Hq. rewrite Forall_forall in Hle. specialize (Hle q Hq). unfold range_le in Hle. lia. }
  destruct acc as [|last rest]; simpl.
  { split; [split; try done|].
    - by apply Forall_singleton.
    - repeat constructor.
    - intros ? q [= <-]. auto.
    - intros code. rewrite Exists_cons, Exists_nil. tauto. }
  inversion_clear Ha as [|? ? Hl Ha']. apply StronglySorted_inv in Hp as [Hp Hap].
  pose proof (Hh last r eq_refl ltac:(left)) as Hlr. unfold http_range in Hl, Hr.
  assert (∀ q, q ∈ todo -> Start last <= Start q) as Hlq by (intros q Hq; apply Hh; [done|by right]).
  destruct (Z.leb_spec (Start r) (End_ last + 1)) as [Hov|Hgap];
    [destruct (Z.ltb_spec (End_ last) (End_ r)) as [Hext|Hin]|].
  - split; [split; try done|].
    + constructor; [unfold http_range; simpl; lia|done].
    + by constructor.
    + intros ? q [= <-]. auto.
    + intros code. rewrite !Exists_cons. unfold within. simpl. intuition lia.
  - split; [split; try done|].
    + by constructor.
    + by constructor.
    + intros ? q [= <-]. auto.
    + intros code. rewrite !Exists_cons. unfold within. intuition lia.
  - split; [split; try done|].
    + constructor; [done|by constructor].
    + constructor; [by constructor|]. constructor; [unfold apart; lia|].
      eapply Forall_impl; [exact Hap|]. unfold apart. simpl. lia.
    + intros ? q [= <-]. auto.
    + intros code. rewrite !Exists_cons. tauto.
Qed.

Lemma merging_end acc todo :
  merging acc todo ->
  merging (foldl merge_range acc todo) [] ∧
  ∀ code, Exists (within code) (foldl merge_range acc todo)
    <-> Exists (within code) acc ∨ Exists (within code) todo.
Proof.
  revert acc. induction todo as [|r todo IH]; intros acc Hm; simpl.
  - split; [done|]. intros code. rewrite Exists_nil. tauto.
  - destruct (merge_range_step _ _ _ Hm) as [Hm' Hc]. destruct (IH _ Hm') as [? Hc'].
    split; [done|]. intros code. rewrite Hc', Hc, Exists_cons. tauto.
Qed.

#[local] Instance range_le_trans : Transitive range_le.
Proof. intros x y z. unfold range_le. lia. Qed.
#[local] Instance range_le_total : Total range_le.
Proof. intros x y. unfold range_le. lia. Qed.

Lemma sorted_flip {A} (R : A -> A -> Prop) l :
  StronglySorted (λ x y, R y x) l -> StronglySorted R (reverse l).
Proof.
  induction 1 as [|x l Hs IH Hx]; [constructor|]. rewrite reverse_cons.
  apply StronglySorted_app. split_and!; [|done|repeat constructor].
  intros y z Hy Hz. apply list_elem_of_singleton in Hz as ->. rewrite elem_of_reverse in Hy.
  rewrite Forall_forall in Hx. by apply Hx.
Qed.

Lemma normalise ranges :
  Forall http_range ranges ->
  let l := reverse (foldl merge_range [] (merge_sort range_le ranges)) in
  normal l ∧ ∀ code, Exists (within code) l <-> Exists (within code) ranges.
Proof.
  intros Hr l. subst l. pose proof (merge_sort_Permutation range_le ranges) as Hp.
  destruct (merging_end [] (merge_sort range_le ranges)) as [[Ha Hs _ _ _] Hc].
  { split; [constructor|constructor|by rewrite Hp|apply StronglySorted_merge_sort; apply _|done]. }
  split; [split; [by apply Forall_reverse|by apply sorted_flip]|].
  intros code. rewrite reverse_Permutation, Hc, Hp, Exists_nil. tauto.
Qed.

Lemma match_ranges_within l code :
  normal l -> match_ranges l code = true <-> Exists (within code) l.
Proof.
  intros [Hr Hs]. induction Hs as [|r l Hs IH Hx]; [rewrite Exists_nil; done|].
  inversion_clear Hr as [|? ? [? ?] Hr']. rewrite Exists_cons. simpl. unfold within at 1.
  destruct (Z.ltb_spec code (Start r)) as [Hlt|Hge].
  - split; [done|]. intros [?|He]; [lia|]. rewrite Exists_exists in He. destruct He as (q & Hq & ?).
    rewrite Forall_forall in Hx. specialize (Hx q Hq). unfold apart, within in *. lia.
  - destruct (Z.leb_spec code (End_ r)); [split; [by left|done]|]. rewrite IH by done. intuition lia.
Qed.

(** ** Parsing *)

Lemma parse_token_range token r : parseHTTPStatusCodeToken token = Ok r -> http_range r.
Proof.
  unfold parseHTTPStatusCodeToken, http_range, bad. intros H.
  repeat (case_match; simplify_eq/=; try done);
    repeat match goal with
    | E : (_ || _)%bool = false |- _ => apply orb_false_iff in E as [? ?]
    | E : (_ <? _) = false |- _ => apply Z.ltb_ge in E
    end; lia.
Qed.

(** The ranges the segments stand for. *)
Definition segment_ranges (input : string) : list StatusCodeRange :=
  omap (λ seg, match parseHTTPStatusCodeToken seg with Ok r => Some r | Err _ => None end)
    (range_segments input).

Lemma segment_ranges_http input : Forall http_range (segment_ranges input).
Proof.
  apply Forall_forall. intros r (seg & _ & Hs)%list_elem_of_omap.
  destruct (parseHTTPStatusCodeToken seg) eqn:E; simplify_eq. by eapply parse_token_range.
Qed.

Lemma parse_ok input l :
  ParseHTTPStatusCodeRanges input = Ok l ->
  l = reverse (foldl merge_range [] (merge_sort range_le (segment_ranges input))).
Proof. unfold ParseHTTPStatusCodeRanges. case_match; [|done]. by intros [= <-]. Qed.

(** C38. Whatever text is accepted as status code rules, the stored ranges are HTTP
    statuses, sorted, disjoint and not adjacent. *)
Theorem parsed_ranges_normal input l :
  ParseHTTPStatusCodeRanges input = Ok l -> normal l.
Proof. intros ->%parse_ok. apply normalise, segment_ranges_http. Qed.

(** Sorting and merging keep the set of codes: a status matches the stored
    ranges exactly when it lies in one of the ranges the text lists. *)
Theorem parsed_ranges_match input l code :
  ParseHTTPStatusCodeRanges input = Ok l ->
  shouldMatchStatusCodeRanges l code = true <-> Exists (within code) (segment_ranges input).
Proof.
  intros ->%parse_ok. destruct (normalise _ (segment_ranges_http input)) as [Hn Hc].
  rewrite <- Hc, <- match_ranges_within by done. unfold shouldMatchStatusCodeRanges.
  destruct ((code <? 100) || (599 <? code)) eqn:E; [|done]. split; [done|].
  rewrite match_ranges_within, Exists_exists by done. intros (r & Hr & Hw).
  destruct Hn as [Hn _]. rewrite Forall_forall in Hn. specialize (Hn r Hr).
  unfold http_range, within in *. lia.
Qed.

(** The default retry rules retry exactly the statuses the hard-coded rules
    they replaced did: all of 1xx, 3xx, 4xx but 400 and 408, and 5xx but 504 and
    524. *)
Theorem default_retry_is_legacy code :
  ShouldRetryByStatusCode AutomaticRetryStatusCodeRanges code =
    ((100 <=? code) && (code <? 200)) || ((300 <=? code) && (code <? 400)) ||
    ((400 <=? code) && (code <? 500) && negb (code =? 400) && negb (code =? 408)) ||
    ((500 <=? code) && (code <? 600) && negb (code =? 504) && negb (code =? 524)).
Proof.
  unfold ShouldRetryByStatusCode, IsAlwaysSkipRetryStatusCode, alwaysSkipRetryStatusCodes.
  destruct (bool_decide _) eqn:E.
  - apply bool_decide_eq_true in E. rewrite !elem_of_cons in E.
    destruct E as [->|[->|E%elem_of_nil]]; done.
  - apply bool_decide_eq_false in E. rewrite !elem_of_cons in E.
    assert (code ≠ 504 ∧ code ≠ 524) as [? ?] by naive_solver. clear E.
    unfold shouldMatchStatusCodeRanges. simpl.
    repeat match goal with |- context [if ?b then _ else _] => destruct b eqn:? end; lia.
Qed.

(** ** Printing and parsing *)

(** A property of the 500 HTTP statuses, decided by trying them. *)
Lemma http_codes (P : Z -> bool) :
  forallb P ((λ n, 100 + Z.of_nat n) <$> seq 0 500) = true ->
  ∀ z, 100 <= z <= 599 -> P z = true.
Proof.
  rewrite forallb_forall. intros H z Hz. apply H. rewrite <- list_elem_of_In.
  apply list_elem_of_fmap. exists (Z.to_nat (z - 100)). rewrite elem_of_seq. lia.
Qed.

(** What matters of the text of a status: it reads back, and no byte of it is a
    separator or a space. *)
Definition plain_text (s : string) : bool :=
  lacks "," s && lacks " " s && lacks "239" s &&
  match s with EmptyString => false | _ => true end &&
  no_edge_space (bytes_of s) && no_edge_space (rev (bytes_of s)).

Definition good_code (z : Z) : bool :=
  plain_text (pretty z) && lacks "-" (pretty z) && bool_decide (Atoi (pretty z) = Some z).

Lemma code_text z : 100 <= z <= 599 -> good_code z = true.
Proof. apply http_codes. vm_compute. reflexivity. Qed.

Lemma plain_parts s : plain_text s = true ->
  lacks "," s = true ∧ lacks " " s = true ∧ lacks "239" s = true ∧ s ≠ "" ∧ TrimSpace s = s.
Proof.
  unfold plain_text. intros H. repeat apply andb_prop in H as [H ?].
  split_and!; [done|done|done|by destruct s|by apply TrimSpace_id].
Qed.

Lemma good_parts z : 100 <= z <= 599 ->
  plain_text (pretty z) = true ∧ lacks "-" (pretty z) = true ∧ Atoi (pretty z) = Some z.
Proof.
  intros Hz%code_text. unfold good_code in Hz.
  rewrite !andb_true_iff, bool_decide_eq_true in Hz. tauto.
Qed.

Lemma no_edge_app l r : l ≠ [] -> no_edge_space (l ++ r) = no_edge_space l.
Proof. by destruct l. Qed.

Lemma plain_app a m b : plain_text a = true -> plain_text b = true ->
  lacks "," m = true -> lacks " " m = true -> lacks "239" m = true -> plain_text (a +:+ m +:+ b) = true.
Proof.
  unfold plain_text. rewrite !andb_true_iff, !lacks_app, !bytes_app, !rev_app_distr, <- app_assoc.
  intros (((((A1 & A2) & A3) & A4) & A5) & A6) (((((B1 & B2) & B3) & B4) & B5) & B6) M1 M2 M3.
  rewrite A1, A2, A3, B1, B2, B3, M1, M2, M3, !no_edge_app; [by destruct a| |].
  - intros H%(f_equal length). rewrite length_rev in H. by destruct b.
  - by destruct a.
Qed.

Lemma range_plain r : http_range r -> plain_text (statusCodeRangeToString r) = true.
Proof.
  intros (? & ? & ?). destruct (good_parts (Start r)) as (Hs & _); [lia|].
  destruct (good_parts (End_ r)) as (He & _); [lia|]. unfold statusCodeRangeToString.
  destruct (Start r =? End_ r); [done|]. by apply plain_app.
Qed.

Lemma Contains_lacks c s : lacks c s = true -> Contains s (String c "") = false.
Proof.
  induction s as [|x s IH]; [done|]. simpl lacks. intros [Hx Hs]%andb_prop. unfold Contains; fold Contains.
  rewrite HasPrefix_head, IH by done. apply negb_true_iff in Hx. by rewrite Hx.
Qed.

Lemma Contains_app c a b : Contains (a +:+ String c b) (String c "") = true.
Proof.
  induction a as [|x a IH].
  - rewrite string_nil_app. unfold Contains; fold Contains. rewrite HasPrefix_head, Ascii.eqb_refl.
    by destruct b.
  - rewrite string_cons_app. unfold Contains; fold Contains. by rewrite IH, orb_true_r.
Qed.

(** A printed range is read back. *)
Lemma token_roundtrip r : http_range r -> parseHTTPStatusCodeToken (statusCodeRangeToString r) = Ok r.
Proof.
  intros Hr. destruct (plain_parts _ (range_plain r Hr)) as (_ & Hsp & _ & Hne & Htrim).
  destruct Hr as (? & ? & ?). destruct (good_parts (Start r)) as (Ps & Ds & As); [lia|].
  destruct (good_parts (End_ r)) as (Pe & De & Ae); [lia|].
  unfold parseHTTPStatusCodeToken. rewrite Htrim, ReplaceAll_none by done. rewrite decide_False by done.
  revert Hne. unfold statusCodeRangeToString. clear Hsp Htrim. destruct (Z.eqb_spec (Start r) (End_ r)) as [E|E]; intros Hne.
  - rewrite Contains_lacks, As by done. rewrite (proj2 (orb_false_iff _ _)) by lia.
    destruct r as [a b]. simpl in *. by subst.
  - change ("-" +:+ pretty (End_ r)) with (String "-" (pretty (End_ r))). rewrite Contains_app.
    assert (Split (pretty (Start r) +:+ String "-" (pretty (End_ r))) "-" = [pretty (Start r); pretty (End_ r)]) as ->.
    { apply (Split_Join "-" [pretty (Start r); pretty (End_ r)]); [done|].
      by apply Forall_cons; split; [|apply Forall_singleton]. }
    destruct (plain_parts _ Ps) as (_ & _ & _ & ? & _). destruct (plain_parts _ Pe) as (_ & _ & _ & ? & _).
    rewrite !bool_decide_false by done. simpl orb. rewrite As, Ae, (proj2 (Z.ltb_ge _ _)) by lia.
    rewrite (proj2 (orb_false_iff _ _)) by lia. by destruct r.
Qed.

(** The joined text: no wide comma, no space at the ends. *)
Lemma Join_text l : l ≠ [] -> Forall (λ s, plain_text s = true) l ->
  let s := Join l "," in
  lacks "239" s = true ∧ no_edge_space (bytes_of s) = true ∧ no_edge_space (rev (bytes_of s)) = true ∧
  bytes_of s ≠ [].
Proof.
  intros Hl Hf. induction Hf as [|s l Hs Hf IH]; [done|].
  assert (bytes_of s ≠ []) as Hne by (destruct s; [vm_compute in Hs|]; done).
  unfold plain_text in Hs. rewrite !andb_true_iff in Hs. destruct Hs as (((((_ & _) & ?) & _) & ?) & ?).
  destruct l as [|s' l]; [simpl; tauto|]. destruct (IH ltac:(done)) as (I1 & I2 & I3 & I4).
  change (Join (s :: s' :: l) ",") with (s +:+ "," +:+ Join (s' :: l) ",") in *.
  revert I1 I2 I3 I4. generalize (Join (s' :: l) ","). intros J I1 I2 I3 I4. cbv zeta.
  rewrite !lacks_app, !bytes_app, !rev_app_distr, <- app_assoc, !no_edge_app; [| |done].
  - rewrite I1. split_and!; [by rewrite !andb_true_iff|done|done|by intros [? _]%app_eq_nil].
  - intros E%(f_equal length). rewrite length_rev in E. by apply I4, nil_length_inv.
Qed.

#[local] Instance range_le_antisymm : AntiSymm (=) range_le.
Proof. intros [a b] [c d]. unfold range_le. simpl. intros. f_equal; lia. Qed.

Lemma normal_sorted l : normal l -> merge_sort range_le l = l.
Proof.
  intros [Hr Hs]. apply (StronglySorted_unique range_le).
  - apply StronglySorted_merge_sort; apply _.
  - induction Hs as [|r l Hs IH Hx]; [constructor|]. inversion_clear Hr as [|? ? Hh Hr'].
    constructor; [by apply IH|]. eapply Forall_impl; [exact Hx|]. intros q Hq.
    unfold apart, range_le, http_range in *. lia.
  - apply merge_sort_Permutation.
Qed.

Lemma normal_merged l : normal l -> foldl merge_range [] l = reverse l.
Proof.
  intros [Hr Hs].
  assert (∀ acc, (∀ q r, head acc = Some q -> r ∈ l -> apart q r) -> foldl merge_range acc l = reverse l ++ acc) as H.
  { induction Hs as [|r l Hs IH Hx]; intros acc Hacc; [done|]. inversion_clear Hr as [|? ? Hh Hr'].
    simpl. rewrite reverse_cons, <- app_assoc. simpl.
    assert (merge_range acc r = r :: acc) as ->.
    { destruct acc as [|q acc]; [done|]. simpl. specialize (Hacc q r eq_refl ltac:(left)). unfold apart in Hacc.
      destruct (Z.leb_spec (Start r) (End_ q + 1)); [lia|done]. }
    apply IH; [done|]. intros q r' [= <-] Hr0. rewrite Forall_forall in Hx. by apply Hx. }
  rewrite H, app_nil_r; [done|]. intros q r. done.
Qed.

(** Rules in normal form survive being written to the settings and read back:
    parsing the printed text gives the same ranges. *)
Theorem status_rules_roundtrip l :
  normal l -> ParseHTTPStatusCodeRanges (statusCodeRangesToString l) = Ok l.
Proof.
  intros Hn. destruct (decide (l = [])) as [->|Hl]; [vm_compute; reflexivity|].
  unfold ParseHTTPStatusCodeRanges. pose proof Hn as [Hr _].
  assert (Forall (λ s, plain_text s = true) (statusCodeRangeToString <$> l)) as Hp.
  { apply Forall_fmap. eapply Forall_impl; [exact Hr|]. apply range_plain. }
  assert (range_segments (statusCodeRangesToString l) = statusCodeRangeToString <$> l) as ->.
  { unfold range_segments, statusCodeRangesToString.
    assert (statusCodeRangeToString <$> l ≠ []) as Hne by (by destruct l).
    destruct (Join_text _ Hne Hp) as (J1 & J2 & J3 & _).
    rewrite TrimSpace_id by done. rewrite ReplaceAll_none by done.
    rewrite (Split_Join ",");
      [|exact Hne|eapply Forall_impl; [exact Hp|]; intros s Hs; apply (plain_parts s Hs)].
    clear J1 J2 J3 Hne.
    induction Hp as [|s ss Hs Hp IH]; [done|]. destruct (plain_parts s Hs) as (_ & _ & _ & Hse & Ht).
    rewrite fmap_cons, Ht, filter_cons_True by done. by rewrite IH. }
  clear Hp Hl.
  set (f := λ seg, match parseHTTPStatusCodeToken seg with Ok r => Some r | Err _ => None end).
  assert (omap f (statusCodeRangeToString <$> l) = l) as ->.
  { clear Hn. induction Hr as [|r l Hh Hr IH]; [done|]. rewrite fmap_cons.
    change (omap f (?x :: ?xs)) with (match f x with Some y => y :: omap f xs | None => omap f xs end).
    unfold f at 1. by rewrite token_roundtrip, IH. }
  assert (filter (λ seg, is_ok (parseHTTPStatusCodeToken seg) = false) (statusCodeRangeToString <$> l) = []) as ->.
  { clear Hn. induction Hr as [|r l Hh Hr IH]; [done|]. rewrite fmap_cons, filter_cons_False; [done|].
    by rewrite token_roundtrip. }
  by rewrite normal_sorted, normal_merged, reverse_involutive.
Qed.
