(* ===== verification/RateModel.v ===== *)
(** * RateModel: limits on model requests, and concrete traffic

    The token bucket of [common/limiter] and the handlers of
    [middleware/model-rate-limit.go]: how many requests the bucket lets through,
    and where the in-memory handler, the Redis handler and the texts around them
    part ways; then the theorems on rate limits and status codes at concrete
    inputs. *)

From S2P Require Import StatusCodes.
From S2P Require Import Prelude.
From S2P Require Export RateProps.

(** ** The token bucket *)

Section bucket.
Context (key : string) (requested rate capacity : Z).

(** Calls of the script at the given server times (milliseconds), with the state
    left behind. *)
Fixpoint bucket_calls (times : list Z) (r : Redis) : list Z * Redis :=
  match times with
  | [] => ([], r)
  | t :: times =>
      let '(x, r) := rate_limit_lua key requested rate capacity (advance t r) in
      let '(xs, r) := bucket_calls times r in
      ((match x with Ok n => n | Err _ => 0 end) :: xs, r)
  end.

Definition allowed (times : list Z) (r : Redis) : Z := foldr Z.add 0 (bucket_calls times r).1.

(** The bucket holds between nothing and its capacity, filled up to time [now]. *)
Definition bucket_ok (now : Z) (r : Redis) : Prop :=
  ∀ tokens last, buckets r !! key = Some (tokens, last) -> 0 <= tokens <= capacity ∧ last <= now.

(** What it could give out at second [now]. *)
Definition level (now : Z) (r : Redis) : Z :=
  match buckets r !! key with
  | None => capacity
  | Some (tokens, last) => Z.min capacity (tokens + (now - last) * rate)
  end.

Context (Hreq : 0 < requested) (Hrate : 0 <= rate) (Hcap : 0 <= capacity).

Lemma lua_step t r :
  bucket_ok (t / 1000) r ->
  let '(x, r') := rate_limit_lua key requested rate capacity (advance t r) in
  let lvl := level (t / 1000) r in
  x = Ok (if requested <=? lvl then 1 else 0) ∧ bucket_ok (t / 1000) r' ∧
  level (t / 1000) r' = lvl - (if requested <=? lvl then requested else 0).
Proof.
  intros Hok. unfold rate_limit_lua, level, bucket_ok in *. simpl.
  assert (0 <= level (t / 1000) r <= capacity) as Hl.
  { unfold level. destruct (buckets r !! key) as [[tk l]|] eqn:E; [|lia].
    destruct (Hok _ _ eq_refl) as [? ?]. nia. }
  unfold level in Hl. revert Hl.
  set (lvl := match buckets r !! key with None => _ | Some _ => _ end). intros Hl.
  destruct (Z.leb_spec requested lvl); simpl; rewrite lookup_insert_eq;
    (split_and!; [done|intros ? ? ?; simplify_eq; lia|]);
    rewrite Z.sub_diag, Z.mul_0_l; lia.
Qed.

Lemma level_later now now' r :
  bucket_ok now r -> now <= now' ->
  bucket_ok now' r ∧ level now r <= level now' r <= level now r + rate * (now' - now) ∧
  0 <= level now r <= capacity.
Proof.
  intros Hok Hle. split; [intros tk l E; destruct (Hok _ _ E); lia|].
  unfold level. destruct (buckets r !! key) as [[tk l]|] eqn:E; [|nia].
  destruct (Hok _ _ E). nia.
Qed.

Lemma bucket_calls_bound T times r :
  bucket_ok (T / 1000) r -> ascending T times ->
  requested * allowed times r <=
    level (T / 1000) r + rate * (List.last times T / 1000 - T / 1000).
Proof.
  revert T r. induction times as [|t times IH]; intros T r Hok Hord.
  - unfold allowed. simpl. pose proof (level_later _ _ _ Hok (Z.le_refl _)) as (_ & _ & ?). nia.
  - destruct Hord as [HT Hord].
    destruct (level_later _ _ _ Hok (div_le _ _ HT)) as (Hok' & Hl & _).
    pose proof (lua_step t r Hok') as Hs. unfold allowed. simpl.
    destruct (rate_limit_lua key requested rate capacity (advance t r)) as [x r'].
    destruct Hs as (-> & Hok'' & Hl'). specialize (IH t r' Hok'' Hord). unfold allowed in IH.
    destruct (bucket_calls times r') as [xs r'']. simpl in *.
    replace (List.last times t) with (match times with [] => t | _ => List.last times T end) in IH.
    2: { destruct times as [|t' times]; [done|]. clear. revert t'. induction times; intros t'; [done|]. simpl. apply IHtimes. }
    destruct (requested <=? level (t / 1000) r); destruct times; simpl in *; nia.
Qed.
End bucket.

(** However requests arrive, the token bucket lets through at most what its
    capacity and its refill pay for: over any stretch of the server's clock the
    tokens given out are at most the capacity plus the rate times its length in
    seconds. *)
Theorem token_bucket_bounds_rate key requested rate capacity T times r :
  0 < requested -> 0 <= rate -> 0 <= capacity ->
  bucket_ok key capacity (T / 1000) r -> ascending T times ->
  requested * allowed key requested rate capacity times r
    <= capacity + rate * (List.last times T / 1000 - T / 1000).
Proof.
  intros Hq Hr Hc Hok Hord. pose proof (bucket_calls_bound key requested rate capacity Hq Hr Hc T times r Hok Hord).
  destruct (level_later key rate capacity Hr Hc _ _ r Hok (Z.le_refl _)) as (_ & _ & ?). lia.
Qed.

(** ** Findings *)

(** A limit of [total] requests in [duration] seconds, as the handler passes it to
    the bucket. *)
Definition model_bucket (total duration : Z) (times : list Z) : Z :=
  allowed "rateLimit:7" duration total (wrap64 (total * duration)) times (mkRedis ∅ ∅ 0).

(** Sixty requests at once, then one at each full second. *)
Definition burst_then_steady : list Z :=
  replicate 60 0 ++ ((λ n, Z.of_nat n * 1000) <$> seq 1 59).

(** A limit announced as 60 requests per minute lets 119 requests through
    within one minute. *)
Theorem total_limit_lets_119_through :
  model_bucket 60 60 burst_then_steady = 119 ∧
  Forall (λ t, 0 <= t < 60000) burst_then_steady.
Proof.
  split; [vm_compute; reflexivity|]. unfold burst_then_steady. apply Forall_app. split.
  - apply Forall_replicate. lia.
  - apply Forall_fmap, Forall_forall. intros n Hn. apply elem_of_seq in Hn. simpl. lia.
Qed.

(** The model limit on, [success] successful requests per [minutes]; a request of
    user 7 whose handler answers [status]. *)
Definition model_config (redis : bool) (minutes success : Z) : RateConfig :=
  mkRateConfig redis (20 * 60 * 1000000000) true 120 180 true 360 180 true 20 (20 * 60)
    true 10 60 10 60 10 60 true minutes 0 success ∅.

Definition user7 : Ctx := mkCtx "10.0.0.1" 7 "" "default".

(** Statuses of requests at the given times, each with the status its handler
    would answer, and rounds of the cleaner where there is no status. *)
Fixpoint model_statuses (cfg : RateConfig) (reqs : list (Z * option Z)) (s : RL) : list (result Z) :=
  match reqs with
  | [] => []
  | (t, Some status) :: reqs =>
      let '(v, s') := run t (ModelRequestRateLimit (loc := fixed_zone 0) cfg user7 (pret status)) (at_time t s) in
      v :: model_statuses cfg reqs s'
  | (t, None) :: reqs =>
      model_statuses cfg reqs (mkRL (advance t (redis s)) (clear_round (t / 1000) (limiter s)))
  end.

Definition start (cfg : RateConfig) : RL := fresh cfg.

(** With a limit of one successful request per minute and no success so far,
    the in-memory handler refuses the second request, since its check records the
    failed one; the Redis handler serves it. *)
Theorem memory_limit_counts_failures :
  let reqs := [(1000, Some 500); (2000, Some 500)] in
  model_statuses (model_config false 1 1) reqs (start (model_config false 1 1)) = [Ok 500; Ok 429] ∧
  model_statuses (model_config true 1 1) reqs (start (model_config true 1 1)) = [Ok 500; Ok 500].
Proof. split; vm_compute; reflexivity. Qed.

(** A success limit of zero means no limit with Redis and one request per
    window without it. *)
Theorem zero_success_limit_differs :
  let reqs := [(1000, Some 200); (2000, Some 200)] in
  model_statuses (model_config true 1 0) reqs (start (model_config true 1 0)) = [Ok 200; Ok 200] ∧
  model_statuses (model_config false 1 0) reqs (start (model_config false 1 0)) = [Ok 200; Ok 429].
Proof. split; vm_compute; reflexivity. Qed.

(** The limiter is shared and keeps the expiry time of the first [Init]: a
    limit of one request per hour is forgotten after twenty quiet minutes. *)
Theorem hourly_limit_forgotten :
  let cfg := model_config false 60 1 in
  model_statuses cfg [(1000, Some 200); (1202000, None); (1203000, Some 200)] (start cfg)
    = [Ok 200; Ok 200].
Proof. vm_compute; reflexivity. Qed.

(** Counting and recording are separate Redis commands: with a limit of one,
    two concurrent requests that both count before either records are both
    admitted. *)
Theorem redis_limiter_race :
  let req := userRedisRateLimiter (loc := fixed_zone 0) (default_config true) 1 60 "rateLimit:GW10.0.0.1" in
  (sched ((λ i, (i, 1000)) <$> [0; 1; 0; 1; 0; 1]%nat) [req; req]
    (start (default_config true))).1 = [Return (Ok Next); Return (Ok Next)].
Proof. vm_compute; reflexivity. Qed.

(** A zone that leaves summer time at second 1000000. *)
Definition autumn : Location := λ t,
  if t <? 1000000 then (7200, - 2 ^ 63, 1000000) else (3600, 1000000, 2 ^ 63 - 1).

(** Times are stored as local wall clock: when the clock is set back by an
    hour, a client with a limit of one request per minute is refused eighteen minutes
    after its last request. *)
Theorem clock_change_locks_out :
  let req := userRedisRateLimiter (loc := autumn) (default_config true) 1 60 "rateLimit:GW10.0.0.1" in
  let '(v, s) := run 999990000 req (at_time 999990000 (start (default_config true))) in
  v = Ok Next ∧
  (run 1001100000 req (at_time 1001100000 s)).1 = Ok (Abort StatusTooManyRequests).
Proof. vm_compute. split; reflexivity. Qed.

(** ** The theorems at concrete inputs *)

(** Five requests of a client, one of another, and a round of the cleaner, against a
    limit of two requests in ten seconds. *)
Definition alice : Ctx := mkCtx "1.1.1.1" 1 "default" "default".
Definition bob : Ctx := mkCtx "2.2.2.2" 2 "default" "default".
Definition opening : Z := 1700000000000.
Definition traffic : list event :=
  [Hit alice opening; Hit bob (opening + 1000); Hit alice (opening + 2000); Hit alice (opening + 3000);
   Clean (opening + 4000); Hit alice (opening + 10000); Hit alice (opening + 11000)].

Lemma sample_limit redis : proper_limit (default_config redis) 2 10.
Proof. split; simpl; [lia|lia|vm_compute; discriminate]. Qed.

Lemma traffic_timed : well_timed 0 traffic.
Proof.
  split; [simpl; unfold opening; lia|].
  unfold traffic, opening. repeat (apply Forall_cons; split; [vm_compute; split; [discriminate|reflexivity]|]). constructor.
Qed.

Lemma rate_limit_refines_window_witness :
  served (limit 0 (default_config true) 2 10 "GA") (from_ip "1.1.1.1") traffic (RateProps.fresh (default_config true))
    = [Ok Next; Ok Next; Ok (Abort 429); Ok Next; Ok (Abort 429)].
Proof.
  rewrite (rate_limit_refines_window 0 (default_config true) 2 10 "GA" "1.1.1.1" traffic
    (sample_limit true) traffic_timed). vm_compute. reflexivity.
Defined.

Lemma rate_limit_bounds_window_witness :
  Z.of_nat (length (in_window (window (default_config true) 10) opening
    (passed 0 (default_config true) 2 10 "GA" "1.1.1.1" traffic))) <= 2.
Proof.
  apply (rate_limit_bounds_window 0 (default_config true) 2 10 "GA" "1.1.1.1" traffic opening);
    [apply sample_limit|apply traffic_timed].
Defined.

Lemma rate_limit_waits_at_most_window_witness :
  last (served (limit 0 (default_config false) 2 10 "GA") (from_ip "1.1.1.1")
    (traffic ++ [Hit alice (opening + 21000)]) (RateProps.fresh (default_config false))) = Some (Ok Next).
Proof.
  apply (rate_limit_waits_at_most_window 0 (default_config false) 2 10 "GA" "1.1.1.1" traffic alice
    (opening + 21000)); [apply sample_limit| |done|].
  - split; [simpl; unfold opening; lia|]. apply Forall_app. split; [apply traffic_timed|].
    apply Forall_singleton. vm_compute. split; [discriminate|reflexivity].
  - change (client_times (from_ip "1.1.1.1") traffic)
      with [opening; opening + 2000; opening + 3000; opening + 10000; opening + 11000].
    repeat (apply Forall_cons; split; [vm_compute; discriminate|]). constructor.
Defined.

Lemma rate_limit_backends_agree_witness :
  served (limit 0 (default_config true) 2 10 "GA") (from_ip "1.1.1.1") traffic (RateProps.fresh (default_config true))
    = served (limit 0 (default_config false) 2 10 "GA") (from_ip "1.1.1.1") traffic (RateProps.fresh (default_config false)).
Proof.
  apply (rate_limit_backends_agree 0 (default_config true) (default_config false) 2 10 "GA" "1.1.1.1" traffic);
    [done|done|apply sample_limit|apply sample_limit|apply traffic_timed|].
  unfold traffic, opening. repeat (apply Forall_cons; split; [by apply Z.mod_divide|]). constructor.
Defined.

Definition rules : list StatusCodeRange := [mkRange 401 401; mkRange 429 503].

Lemma rules_parsed : ParseHTTPStatusCodeRanges " 500-503, 401，429-499 " = Ok rules.
Proof. vm_compute. reflexivity. Qed.

Lemma parsed_ranges_normal_witness : normal rules.
Proof. apply (parsed_ranges_normal " 500-503, 401，429-499 " rules), rules_parsed. Defined.

Lemma parsed_ranges_match_witness :
  shouldMatchStatusCodeRanges rules 502 = true <->
  Exists (within 502) (segment_ranges " 500-503, 401，429-499 ").
Proof. apply (parsed_ranges_match " 500-503, 401，429-499 " rules 502), rules_parsed. Defined.

Lemma status_rules_roundtrip_witness :
  ParseHTTPStatusCodeRanges (statusCodeRangesToString rules) = Ok rules.
Proof.
  apply (status_rules_roundtrip rules). split.
  - repeat (apply Forall_cons; split; [by vm_compute|]). constructor.
  - repeat constructor.
Defined.
