(* ===== verification/Channel.v ===== *)
(** * Channel: upstream channels, their abilities and the in-memory index

    Models [model/channel.go], [model/ability.go], [model/channel_cache.go] and
    [model/channel_satisfy.go].  A channel is an upstream account with its models
    and groups; the table [abilities] holds one row per (group, model, channel),
    from which a node without memory cache picks; a node with it picks from an
    index of the enabled channels.  This file holds the data and the operations on
    the tables; ChannelCache adds the index and the choice, ChannelKeys the channels
    with several keys. *)

From stdpp Require Export sorting.
From S2P Require Import Prelude.
From S2P Require Export Effects.
From S2P Require Export GoString.

(** ** Data *)

Definition ChannelStatusUnknown : Z := 0.
Definition ChannelStatusEnabled : Z := 1.
Definition ChannelStatusManuallyDisabled : Z := 2.
Definition ChannelStatusAutoDisabled : Z := 3.

Definition ChannelTypeAdvancedCustom : Z := 58.

Definition MultiKeyModeRandom : string := "random".
Definition MultiKeyModePolling : string := "polling".

(** Maps that are nil in Go are empty here: the code reads both alike. *)
Record ChannelInfo : Type := mkInfo {
  IsMultiKey : bool;
  MultiKeySize : Z;
  MultiKeyStatusList : gmap Z Z;
  MultiKeyDisabledReason : gmap Z string;
  MultiKeyDisabledTime : gmap Z Z;
  MultiKeyPollingIndex : Z;
  MultiKeyMode : string;
}.

(** [dto.AdvancedCustomConfig], the part of its routes that selects a channel. *)
Record AdvancedCustomRoute : Type := mkRoute { IncomingPath : string; UpstreamPath : string; Converter : string }.
Record AdvancedCustomConfig : Type := mkAdvanced { Routes : list AdvancedCustomRoute }.

(** A value of the JSON object in [other_info]. *)
Inductive InfoValue : Type := InfoText (s : string) | InfoNumber (z : Z).

(** [OtherInfo] is the decoded object of the JSON column, [AdvancedCustom] that of
    the column [settings]. *)
Record Channel : Type := mkChannel {
  Id : Z;
  Type_ : Z;
  Key : string;
  Status : Z;
  Name : string;
  Weight : option Z;
  Models : string;
  Group : string;
  Priority : option Z;
  AutoBan : option Z;
  OtherInfo : gmap string InfoValue;
  Tag : option string;
  Info : ChannelInfo;
  AdvancedCustom : option AdvancedCustomConfig;
  Keys : list string;
}.

#[export] Instance ChannelInfo_eq_dec : EqDecision ChannelInfo.
Proof. solve_decision. Defined.
#[export] Instance AdvancedCustomRoute_eq_dec : EqDecision AdvancedCustomRoute.
Proof. solve_decision. Defined.
#[export] Instance AdvancedCustomConfig_eq_dec : EqDecision AdvancedCustomConfig.
Proof. solve_decision. Defined.
#[export] Instance InfoValue_eq_dec : EqDecision InfoValue.
Proof. solve_decision. Defined.
#[export] Instance Channel_eq_dec : EqDecision Channel.
Proof. solve_decision. Defined.

Definition set_Id (v : Z) (c : Channel) : Channel :=
  mkChannel v (Type_ c) (Key c) (Status c) (Name c) (Weight c) (Models c) (Group c) (Priority c)
    (AutoBan c) (OtherInfo c) (Tag c) (Info c) (AdvancedCustom c) (Keys c).
Definition set_Key (v : string) (c : Channel) : Channel :=
  mkChannel (Id c) (Type_ c) v (Status c) (Name c) (Weight c) (Models c) (Group c) (Priority c)
    (AutoBan c) (OtherInfo c) (Tag c) (Info c) (AdvancedCustom c) (Keys c).
Definition set_Status (v : Z) (c : Channel) : Channel :=
  mkChannel (Id c) (Type_ c) (Key c) v (Name c) (Weight c) (Models c) (Group c) (Priority c)
    (AutoBan c) (OtherInfo c) (Tag c) (Info c) (AdvancedCustom c) (Keys c).
Definition set_OtherInfo (v : gmap string InfoValue) (c : Channel) : Channel :=
  mkChannel (Id c) (Type_ c) (Key c) (Status c) (Name c) (Weight c) (Models c) (Group c) (Priority c)
    (AutoBan c) v (Tag c) (Info c) (AdvancedCustom c) (Keys c).
Definition set_Tag (v : option string) (c : Channel) : Channel :=
  mkChannel (Id c) (Type_ c) (Key c) (Status c) (Name c) (Weight c) (Models c) (Group c) (Priority c)
    (AutoBan c) (OtherInfo c) v (Info c) (AdvancedCustom c) (Keys c).
Definition set_Info (v : ChannelInfo) (c : Channel) : Channel :=
  mkChannel (Id c) (Type_ c) (Key c) (Status c) (Name c) (Weight c) (Models c) (Group c) (Priority c)
    (AutoBan c) (OtherInfo c) (Tag c) v (AdvancedCustom c) (Keys c).
Definition set_Keys (v : list string) (c : Channel) : Channel :=
  mkChannel (Id c) (Type_ c) (Key c) (Status c) (Name c) (Weight c) (Models c) (Group c) (Priority c)
    (AutoBan c) (OtherInfo c) (Tag c) (Info c) (AdvancedCustom c) v.

Definition GetPriority (c : Channel) : Z := default 0 (Priority c).
(** [int( *channel.Weight)] of a [uint]. *)
Definition GetWeight (c : Channel) : Z := match Weight c with None => 0 | Some w => wrap64 w end.
Definition GetTag (c : Channel) : string := default "" (Tag c).
Definition GetAutoBan (c : Channel) : bool := match AutoBan c with None => false | Some v => v =? 1 end.

Record Ability : Type := mkAbility {
  ab_Group : string;
  ab_Model : string;
  ab_ChannelId : Z;
  ab_Enabled : bool;
  ab_Priority : Z;
  ab_Weight : Z;
  ab_Tag : option string;
}.

#[export] Instance Ability_eq_dec : EqDecision Ability.
Proof. solve_decision. Defined.

(** The primary key of [abilities]. *)
Definition AbilityKey : Type := string * string * Z.
Definition ability_key (a : Ability) : AbilityKey := (ab_Group a, ab_Model a, ab_ChannelId a).

(** The in-memory index: channel ids by group and model, the channels, and the
    parsed configurations of the channels of type 58. *)
Record ChannelCache : Type := mkCache {
  group2model2channels : gmap string (gmap string (list Z));
  channelsIDM : gmap Z Channel;
  channel2advancedCustomConfig : gmap Z AdvancedCustomConfig;
}.

(** ** The state *)

Record CW : Type := mkCW {
  cw_channels : gmap Z Channel;
  cw_next : Z;
  cw_abilities : gmap AbilityKey Ability;
  cw_cache : ChannelCache;
  cw_now : Z;
  cw_faults : list (option string);
}.

Definition set_channels (v : gmap Z Channel) (s : CW) : CW :=
  mkCW v (cw_next s) (cw_abilities s) (cw_cache s) (cw_now s) (cw_faults s).
Definition set_abilities (v : gmap AbilityKey Ability) (s : CW) : CW :=
  mkCW (cw_channels s) (cw_next s) v (cw_cache s) (cw_now s) (cw_faults s).
Definition set_cache (v : ChannelCache) (s : CW) : CW :=
  mkCW (cw_channels s) (cw_next s) (cw_abilities s) v (cw_now s) (cw_faults s).
Definition set_faults (v : list (option string)) (s : CW) : CW :=
  mkCW (cw_channels s) (cw_next s) (cw_abilities s) (cw_cache s) (cw_now s) v.

(** Rolling back restores the tables, not the index of the process. *)
#[export] Instance cw_store : Store CW := {|
  st_faults := cw_faults;
  st_set_faults := set_faults;
  st_rollback before after :=
    mkCW (cw_channels before) (cw_next after) (cw_abilities before) (cw_cache after)
      (cw_now after) (cw_faults after);
|}.

#[export] Instance cw_store_laws : StoreLaws CW.
Proof. split. by intros []. Qed.

(** What the process is started with, and JSON: [decode_array] is
    [json.Unmarshal] into [[]json.RawMessage], [None] its error. *)
Class ChannelConfig := {
  MemoryCacheEnabled : bool;
  decode_array : string -> option (list string);
}.

(** ** Abilities ([model/ability.go]) *)

(** The row [AddAbilities] builds; a nil priority is stored as the column default. *)
Definition ability_of (c : Channel) (group model : string) : Ability :=
  mkAbility group model (Id c) (Status c =? ChannelStatusEnabled) (GetPriority c)
    (GetWeight c mod 2 ^ 64) (Tag c).

(** The pairs the two nested loops visit, each once. *)
Definition ability_pairs (c : Channel) : list (string * string) :=
  models ← Split (Models c) ","; group ← Split (Group c) ","; [(group, models)].

(** [abilitySet] tells pairs apart by [group + "|" + model]. *)
Fixpoint distinct_pairs (seen : list string) (l : list (string * string)) : list (string * string) :=
  match l with
  | [] => []
  | (g, m) :: l =>
      let key := g +:+ "|" +:+ m in
      if decide (key ∈ seen) then distinct_pairs seen l
      else (g, m) :: distinct_pairs (key :: seen) l
  end.

Definition new_abilities (c : Channel) : list Ability :=
  (λ '(g, m), ability_of c g m) <$> distinct_pairs [] (ability_pairs c).

(** [lo.Chunk]: the loop takes [n] at a time. *)
Fixpoint chunk_loop {A} (fuel n : nat) (l : list A) : list (list A) :=
  match fuel, l with
  | S fuel, _ :: _ => take n l :: chunk_loop fuel n (drop n l)
  | _, _ => []
  end.
Definition Chunk {A} (n : nat) (l : list A) : list (list A) := chunk_loop (length l) n l.

(** [INSERT ... ON CONFLICT DO NOTHING] *)
Definition insert_ability (m : gmap AbilityKey Ability) (a : Ability) : gmap AbilityKey Ability :=
  match m !! ability_key a with None => <[ability_key a := a]> m | Some _ => m end.

Definition create_abilities (chunk : list Ability) : M CW unit :=
  update (λ s, set_abilities (foldl insert_ability (cw_abilities s) chunk) s).

Definition AddAbilities (c : Channel) : M CW unit :=
  for_each create_abilities (Chunk 50 (new_abilities c)).

Definition drop_abilities (ids : list Z) (m : gmap AbilityKey Ability) : gmap AbilityKey Ability :=
  filter (λ kv, ab_ChannelId kv.2 ∉ ids) m.

Definition DeleteAbilities (c : Channel) : M CW unit :=
  update (λ s, set_abilities (drop_abilities [Id c] (cw_abilities s)) s).

(** [UpdateAbilities(tx)] inside a transaction, and [UpdateAbilities(nil)]. *)
Definition UpdateAbilities_tx (c : Channel) : M CW unit :=
  do! DeleteAbilities c in AddAbilities c.
Definition UpdateAbilities (c : Channel) : M CW unit := transaction (UpdateAbilities_tx c).

Definition update_abilities_where (p : Ability -> bool) (f : Ability -> Ability) : M CW unit :=
  update (λ s, set_abilities ((λ a, if p a then f a else a) <$> cw_abilities s) s).

Definition enable_ability (status : bool) (a : Ability) : Ability :=
  mkAbility (ab_Group a) (ab_Model a) (ab_ChannelId a) status (ab_Priority a) (ab_Weight a) (ab_Tag a).

Definition UpdateAbilityStatus (channelId : Z) (status : bool) : M CW unit :=
  update_abilities_where (λ a, ab_ChannelId a =? channelId) (enable_ability status).

Definition has_tag (tag : string) (t : option string) : bool := bool_decide (t = Some tag).

Definition UpdateAbilityStatusByTag (tag : string) (status : bool) : M CW unit :=
  update_abilities_where (λ a, has_tag tag (ab_Tag a)) (enable_ability status).

(** [Updates(ability)] writes the fields that are not the zero value: a weight of
    0 is not written. *)
Definition UpdateAbilityByTag (tag : string) (newTag : option string) (priority weight : option Z)
    : M CW unit :=
  update_abilities_where (λ a, has_tag tag (ab_Tag a)) (λ a,
    mkAbility (ab_Group a) (ab_Model a) (ab_ChannelId a) (ab_Enabled a)
      (default (ab_Priority a) priority)
      (match weight with Some w => if w =? 0 then ab_Weight a else w | None => ab_Weight a end)
      (match newTag with Some t => Some t | None => ab_Tag a end)).

(** ** Channel rows ([model/channel.go]) *)

(** [Create]: the id is assigned and zero values take the column defaults, in the
    row and in the struct. *)
Definition with_defaults (c : Channel) : Channel :=
  mkChannel (Id c) (Type_ c) (Key c) (if Status c =? 0 then 1 else Status c) (Name c)
    (Some (default 0 (Weight c))) (Models c)
    (if decide (Group c = "") then "default" else Group c)
    (Some (default 0 (Priority c))) (Some (default 1 (AutoBan c)))
    (OtherInfo c) (Tag c) (Info c) (AdvancedCustom c) [].

Definition insert_channel (s : CW) (c : Channel) : Channel * CW :=
  let c := with_defaults (if Id c =? 0 then set_Id (cw_next s) c else c) in
  (c, mkCW (<[Id c := c]> (cw_channels s)) (Z.max (cw_next s) (Id c + 1)) (cw_abilities s)
        (cw_cache s) (cw_now s) (cw_faults s)).

Definition id_taken (s : CW) (c : Channel) : bool := bool_decide (is_Some (cw_channels s !! Id c)).

(** Several rows in one statement: all or none. *)
Fixpoint insert_channels (s : CW) (l : list Channel) : option (list Channel * CW) :=
  match l with
  | [] => Some ([], s)
  | c :: l =>
      if id_taken s c && negb (Id c =? 0) then None
      else let '(c', s') := insert_channel s c in
           '(l', s'') ← insert_channels s' l; Some (c' :: l', s'')
  end.

Definition create_channels (l : list Channel) : M CW (list Channel) :=
  exec (λ s, match insert_channels s l with
             | Some (l', s') => (Ok l', s')
             | None => (Err (EDriver "UNIQUE constraint failed"), s)
             end).

Definition Insert (c : Channel) : M CW unit :=
  let! cs := create_channels [c] in for_each AddAbilities cs.

Definition BatchInsertChannels (channels : list Channel) : M CW unit :=
  match channels with
  | [] => ret tt
  | _ => transaction (for_each (λ chunk,
      let! cs := create_channels chunk in for_each AddAbilities cs) (Chunk 50 channels))
  end.

Definition drop_channels (p : Channel -> bool) (s : CW) : CW :=
  set_channels (filter (λ kv, p kv.2 = false) (cw_channels s)) s.

Definition BatchDeleteChannels (ids : list Z) : M CW unit :=
  match ids with
  | [] => ret tt
  | _ => transaction (for_each (λ chunk,
      do! update (drop_channels (λ c, bool_decide (Id c ∈ chunk))) in
      update (λ s, set_abilities (drop_abilities chunk (cw_abilities s)) s)) (Chunk 200 ids))
  end.

Definition Delete (c : Channel) : M CW unit :=
  do! update (drop_channels (λ c', Id c' =? Id c)) in DeleteAbilities c.

Definition channel_by_id (id : Z) (s : CW) : option Channel := cw_channels s !! id.

(** [GetChannelById(id, true)] *)
Definition GetChannelById (id : Z) : M CW Channel := first (channel_by_id id).

(** [GetChannelsByIds], [GetChannelsByTag]: the rows, in the database's order. *)
Definition rows_of (p : Channel -> bool) (m : gmap Z Channel) : list Channel :=
  List.filter p (map_to_list m).*2.
Definition GetChannelsByTag (tag : string) : M CW (list Channel) :=
  select (λ s, rows_of (λ c, has_tag tag (Tag c)) (cw_channels s)).

Definition update_channels_where (p : Channel -> bool) (f : Channel -> Channel) : M CW unit :=
  update (λ s, set_channels ((λ c, if p c then f c else c) <$> cw_channels s) s).

Definition EnableChannelByTag (tag : string) : M CW unit :=
  do! update_channels_where (λ c, has_tag tag (Tag c)) (set_Status ChannelStatusEnabled) in
  UpdateAbilityStatusByTag tag true.

Definition DisableChannelByTag (tag : string) : M CW unit :=
  do! update_channels_where (λ c, has_tag tag (Tag c)) (set_Status ChannelStatusManuallyDisabled) in
  UpdateAbilityStatusByTag tag false.

(** [Updates(channel)]: the fields that are not zero values replace those of the
    row. *)
Definition nonzero_text (s : option string) : option string :=
  match s with Some t => if decide (t = "") then None else Some t | None => None end.

Definition EditChannelByTag (tag : string) (newTag models group : option string)
    (priority weight : option Z) : M CW unit :=
  let newTag' := match newTag with Some t => if decide (t = tag) then None else Some t | None => None end in
  let updatedTag := default tag newTag' in
  let models := nonzero_text models in
  let group := nonzero_text group in
  do! update_channels_where (λ c, has_tag tag (Tag c)) (λ c,
    mkChannel (Id c) (Type_ c) (Key c) (Status c) (Name c)
      (match weight with Some w => Some w | None => Weight c end)
      (default (Models c) models) (default (Group c) group)
      (match priority with Some p => Some p | None => Priority c end)
      (AutoBan c) (OtherInfo c) (match newTag' with Some t => Some t | None => Tag c end)
      (Info c) (AdvancedCustom c) (Keys c)) in
  if bool_decide (is_Some models) || bool_decide (is_Some group) then
    let! channels := attempt (GetChannelsByTag updatedTag) in
    match channels with
    | Err _ => ret tt
    | Ok channels => for_each (λ c, do! attempt (UpdateAbilities c) in ret tt) channels
    end
  else UpdateAbilityByTag tag newTag priority weight.

Definition DeleteChannelByStatus (status : Z) : M CW unit :=
  update (drop_channels (λ c, Status c =? status)).

Definition DeleteDisabledChannel : M CW unit :=
  update (drop_channels (λ c, (Status c =? ChannelStatusAutoDisabled) ||
                              (Status c =? ChannelStatusManuallyDisabled))).

(** [GetChannelsByIds] goes past the open transaction: it reads the rows that were
    committed when the transaction began (MySQL, PostgreSQL). *)
Definition BatchSetChannelTag (ids : list Z) (tag : option string) : M CW unit :=
  let! committed := gets cw_channels in
  transaction (
    do! update_channels_where (λ c, bool_decide (Id c ∈ ids)) (set_Tag tag) in
    let! channels := select (λ _, rows_of (λ c, bool_decide (Id c ∈ ids)) committed) in
    for_each UpdateAbilities_tx channels).
