(* ===== verification/ChannelCache.v ===== *)
(** * ChannelCache: the index of enabled channels and the choice of a channel

    Models [model/channel_cache.go], the queries of [model/ability.go] that choose
    a channel, [model/channel_satisfy.go], the path templates of
    [dto/channel_settings.go] and [ratio_setting.FormatMatchingModelName].
    Random choice is a function [Intn] that is given the bound; theorems hold for
    each of its values. *)

From Stdlib Require Import Ascii.
From S2P Require Export Channel.
From S2P Require Import Prelude.

(** ** Model names and request paths *)

Definition handleThinkingBudgetModel (name prefix wildcard : string) : string :=
  if HasPrefix name prefix && Contains name "-thinking-" then wildcard else name.

Definition FormatMatchingModelName (name : string) : string :=
  let name :=
    if HasPrefix name "gemini-2.5-flash-lite" then
      handleThinkingBudgetModel name "gemini-2.5-flash-lite" "gemini-2.5-flash-lite-thinking-*"
    else if HasPrefix name "gemini-2.5-flash" then
      handleThinkingBudgetModel name "gemini-2.5-flash" "gemini-2.5-flash-thinking-*"
    else if HasPrefix name "gemini-2.5-pro" then
      handleThinkingBudgetModel name "gemini-2.5-pro" "gemini-2.5-pro-thinking-*"
    else name in
  let name := if HasPrefix name "gpt-4-gizmo" then "gpt-4-gizmo-*" else name in
  if HasPrefix name "gpt-4o-gizmo" then "gpt-4o-gizmo-*" else name.

Definition advancedCustomModelPlaceholder : string := "{model}".

Definition matchAdvancedCustomIncomingPathTemplate (configuredPath requestPath : string) : bool :=
  if negb (Contains configuredPath advancedCustomModelPlaceholder) then String.eqb configuredPath requestPath
  else
    match Split configuredPath advancedCustomModelPlaceholder with
    | [before; after] =>
        if negb (HasPrefix requestPath before) || negb (HasSuffix requestPath after) then false
        else
          let model := TrimSuffix (TrimPrefix requestPath before) after in
          negb (String.eqb model "") && negb (Contains model "/")
    | _ => false
    end.

Definition matchAdvancedCustomIncomingPath (configuredPath requestPath : string) : bool :=
  if matchAdvancedCustomIncomingPathTemplate configuredPath requestPath then true
  else if Contains configuredPath ":generateContent" then
    matchAdvancedCustomIncomingPathTemplate
      (ReplaceFirst configuredPath ":generateContent" ":streamGenerateContent") requestPath
  else false.

Definition MatchPath (config : AdvancedCustomConfig) (requestPath : string) : option AdvancedCustomRoute :=
  List.find (λ route, matchAdvancedCustomIncomingPath (TrimSpace (IncomingPath route)) requestPath)
    (Routes config).

Definition SupportsPath (config : AdvancedCustomConfig) (requestPath : string) : bool :=
  match MatchPath config requestPath with Some _ => true | None => false end.

(** ** Building the index *)

Abbreviation group_index := (gmap string (gmap string (list Z))).

Definition panic_nil_map : error := EText "assignment to entry in nil map".

(** [newGroup2model2channels[group][model] = append(..., id)]; writing into the
    inner map of a group that no ability names panics. *)
Definition index_add (id : Z) (idx : group_index) (gm : string * string)
    : option group_index :=
  inner ← idx !! gm.1;
  Some (<[gm.1 := <[gm.2 := default [] (inner !! gm.2) ++ [id]]> inner]> idx).

Fixpoint index_add_all (id : Z) (l : list (string * string)) (idx : group_index) : option group_index :=
  match l with
  | [] => Some idx
  | gm :: l => idx' ← index_add id idx gm; index_add_all id l idx'
  end.

(** The pairs of the loops over the groups and, inside, the models. *)
Definition index_pairs (c : Channel) : list (string * string) :=
  group ← Split (Group c) ","; model ← Split (Models c) ","; [(group, model)].

Fixpoint index_channels (l : list Channel) (idx : group_index) : option group_index :=
  match l with
  | [] => Some idx
  | c :: l =>
      if Status c =? ChannelStatusEnabled then
        idx' ← index_add_all (Id c) (index_pairs c) idx; index_channels l idx'
      else index_channels l idx
  end.

(** [sort.Slice] by falling priority (which of several orders of equal priorities
    is left open there; here they keep their order). *)
Definition priority_in (m : gmap Z Channel) (id : Z) : Z :=
  match m !! id with Some c => GetPriority c | None => 0 end.
Definition not_below (m : gmap Z Channel) (i j : Z) : Prop := priority_in m j <= priority_in m i.
#[export] Instance not_below_dec m i j : Decision (not_below m i j).
Proof. unfold not_below. apply _. Defined.
Definition sort_by_priority (m : gmap Z Channel) (l : list Z) : list Z := merge_sort (not_below m) l.

(** Multi-key channels get their key list, and keep the polling index of the old
    entry. *)
Definition refresh_entry (get_keys : Channel -> list string) (old : option Channel) (c : Channel) : Channel :=
  if IsMultiKey (Info c) then
    let c := set_Keys (get_keys c) c in
    if decide (MultiKeyMode (Info c) = MultiKeyModePolling) then
      match old with
      | Some o =>
          if IsMultiKey (Info o) && bool_decide (MultiKeyMode (Info o) = MultiKeyModePolling) then
            set_Info (mkInfo (IsMultiKey (Info c)) (MultiKeySize (Info c)) (MultiKeyStatusList (Info c))
              (MultiKeyDisabledReason (Info c)) (MultiKeyDisabledTime (Info c))
              (MultiKeyPollingIndex (Info o)) (MultiKeyMode (Info c))) c
          else c
      | None => c
      end
    else c
  else c.

Section cache.
Context {CC : ChannelConfig}.

(** [channel.GetKeys()] *)
Definition GetKeys (c : Channel) : list string :=
  if decide (Key c = "") then []
  else if decide (Keys c = []) then
    let trimmed := TrimSpace (Key c) in
    let by_line := Split (Trim (Key c) "010") (String "010" "") in
    if HasPrefix trimmed "[" then default by_line (decode_array trimmed) else by_line
  else Keys c.

(** An empty inner map for each group the abilities name. *)
Definition ability_groups (abilities : list Ability) : group_index :=
  foldl (λ (m : group_index) a, <[ab_Group a := ∅]> m) ∅ abilities.

Definition channels_by_id (channels : list Channel) : gmap Z Channel :=
  foldl (λ (m : gmap Z Channel) c, <[Id c := c]> m) ∅ channels.

Definition sort_index (byId : gmap Z Channel) (idx : group_index) : group_index :=
  (λ inner : gmap string (list Z), sort_by_priority byId <$> inner) <$> idx.

Definition advanced_configs (byId : gmap Z Channel) : gmap Z AdvancedCustomConfig :=
  omap (M := gmap Z) (λ c, if Type_ c =? ChannelTypeAdvancedCustom then AdvancedCustom c else None) byId.

Definition refresh_entries (old byId : gmap Z Channel) : gmap Z Channel :=
  map_imap (λ id c, Some (refresh_entry GetKeys (old !! id) c)) byId.

(** [InitChannelCache]: a failing query leaves its slice empty; an error here is a
    panic. *)
Definition InitChannelCache : M CW unit :=
  if negb MemoryCacheEnabled then ret tt
  else
    let! channels := attempt (select (λ s, (map_to_list (cw_channels s)).*2)) in
    let channels := match channels with Ok l => l | Err _ => [] end in
    let! abilities := attempt (select (λ s, (map_to_list (cw_abilities s)).*2)) in
    let abilities := match abilities with Ok l => l | Err _ => [] end in
    let byId := channels_by_id channels in
    match index_channels channels (ability_groups abilities) with
    | None => fail panic_nil_map
    | Some idx =>
        modify (λ s, set_cache (mkCache (sort_index byId idx)
          (refresh_entries (channelsIDM (cw_cache s)) byId) (advanced_configs byId)) s)
    end.

(** ** The choice among cached channels *)

Definition ids_at (cache : ChannelCache) (group model : string) : list Z :=
  default [] (inner ← group2model2channels cache !! group; inner !! model).

Definition path_allows (cache : ChannelCache) (requestPath : string) (id : Z) : bool :=
  match channelsIDM cache !! id with
  | None => true
  | Some c =>
      if negb (Type_ c =? ChannelTypeAdvancedCustom) then true
      else match channel2advancedCustomConfig cache !! id with
           | Some config => SupportsPath config requestPath
           | None => false
           end
  end.

Definition filterChannelsByRequestPath (cache : ChannelCache) (channels : list Z) (requestPath : string)
    : list Z :=
  if bool_decide (requestPath = "") || bool_decide (channels = []) then channels
  else List.filter (path_allows cache requestPath) channels.

(** The candidates for a model: those of its exact name, else of its normalised
    name. *)
Definition candidates (cache : ChannelCache) (group model requestPath : string) : list Z :=
  match filterChannelsByRequestPath cache (ids_at cache group model) requestPath with
  | [] => filterChannelsByRequestPath cache (ids_at cache group (FormatMatchingModelName model)) requestPath
  | l => l
  end.

Definition missing_channel (id : Z) : error :=
  EText ("数据库一致性错误，渠道# " +:+ pretty id +:+ " 不存在，请联系管理员修复").

(** The channels of the candidates; the first that is missing is an error. *)
Fixpoint resolve (cache : ChannelCache) (ids : list Z) : result (list Channel) :=
  match ids with
  | [] => Ok []
  | id :: ids =>
      match channelsIDM cache !! id with
      | None => Err (missing_channel id)
      | Some c => match resolve cache ids with Ok l => Ok (c :: l) | Err e => Err e end
      end
  end.

(** The distinct priorities, highest first. *)
Definition falling (p q : Z) : Prop := q <= p.
#[export] Instance falling_dec p q : Decision (falling p q).
Proof. unfold falling. apply _. Defined.

Definition sortedUniquePriorities (l : list Channel) : list Z :=
  merge_sort falling (remove_dups (GetPriority <$> l)).

(** The last loop: subtract effective weights until the random value is negative. *)
Fixpoint pick_weighted (factor adjustment : Z) (l : list Channel) (r : Z) : option Channel :=
  match l with
  | [] => None
  | c :: l =>
      let r := wrap64 (r - wrap64 (wrap64 (GetWeight c * factor) + adjustment)) in
      if r <? 0 then Some c else pick_weighted factor adjustment l r
  end.

(** [smoothingFactor], [smoothingAdjustment] and the sum they leave. *)
Definition smoothing (sumWeight : Z) (n : nat) : Z * Z * Z :=
  if sumWeight =? 0 then (Z.of_nat n * 100, 1, 100)
  else if Z.quot sumWeight (Z.of_nat n) <? 10 then (sumWeight, 100, 0)
  else (sumWeight, 1, 0).

Definition sum_weights (l : list Channel) : Z := foldl (λ sum c, wrap64 (sum + GetWeight c)) 0 l.

Definition panic_intn : error := EText "invalid argument to Intn".
Definition panic_range : error := EText "runtime error: index out of range".

(** The choice among channels of one priority. *)
Definition choose_weighted (Intn : Z -> Z) (targets : list Channel) : result Channel :=
  let '(sumWeight, factor, adjustment) := smoothing (sum_weights targets) (length targets) in
  let totalWeight := wrap64 (sumWeight * factor) in
  if totalWeight <=? 0 then Err panic_intn
  else match pick_weighted factor adjustment targets (Intn totalWeight) with
       | Some c => Ok c
       | None => Err (EText "channel not found")
       end.

(** The retry-th highest priority, the lowest when there are not so many. *)
Definition target_priority (l : list Channel) (retry : Z) : option Z :=
  let ps := sortedUniquePriorities l in
  let retry := if Z.of_nat (length ps) <=? retry then Z.of_nat (length ps) - 1 else retry in
  if retry <? 0 then None else ps !! Z.to_nat retry.

Definition choose_cached (Intn : Z -> Z) (cache : ChannelCache) (group model requestPath : string)
    (retry : Z) : result (option Channel) :=
  match candidates cache group model requestPath with
  | [] => Ok None
  | [id] =>
      match channelsIDM cache !! id with
      | Some c => Ok (Some c)
      | None => Err (missing_channel id)
      end
  | ids =>
      match resolve cache ids with
      | Err e => Err e
      | Ok l =>
          match target_priority l retry with
          | None => Err panic_range
          | Some target =>
              match choose_weighted Intn (List.filter (λ c, GetPriority c =? target) l) with
              | Ok c => Ok (Some c)
              | Err e => Err e
              end
          end
      end
  end.

(** ** The choice in the database *)

Definition serves (group model : string) (a : Ability) : bool :=
  bool_decide (ab_Group a = group) && bool_decide (ab_Model a = model) && ab_Enabled a.

Definition ability_rows (p : Ability -> bool) (s : CW) : list Ability :=
  List.filter p (map_to_list (cw_abilities s)).*2.

Definition distinct_priorities (group model : string) (s : CW) : list Z :=
  merge_sort falling (remove_dups (ab_Priority <$> ability_rows (serves group model) s)).

Definition getPriority (group model : string) (retry : Z) : M CW Z :=
  let! priorities := select (distinct_priorities group model) in
  match last priorities with
  | None => fail (EText "数据库一致性被破坏")
  | Some lowest =>
      if Z.of_nat (length priorities) <=? retry then ret lowest
      else if retry <? 0 then fail panic_range
      else lift_option (priorities !! Z.to_nat retry) panic_range
  end.

(** [ORDER BY weight DESC] *)
Definition not_lighter (a b : Ability) : Prop := ab_Weight b <= ab_Weight a.
#[export] Instance not_lighter_dec a b : Decision (not_lighter a b).
Proof. unfold not_lighter. apply _. Defined.

Definition rows_of_priority (group model : string) (priority : Z) (s : CW) : list Ability :=
  merge_sort not_lighter
    (ability_rows (λ a, serves group model a && (ab_Priority a =? priority)) s).

(** [priority = (SELECT MAX(priority) ...)] *)
Definition rows_of_max (group model : string) (s : CW) : list Ability :=
  match head (distinct_priorities group model s) with
  | Some top => rows_of_priority group model top s
  | None => []
  end.

(** The rows of [getChannelQuery]. *)
Definition channelQuery (group model : string) (retry : Z) : M CW (list Ability) :=
  if retry =? 0 then select (rows_of_max group model)
  else
    let! priority := getPriority group model retry in
    select (rows_of_priority group model priority).

Definition filterAbilitiesByRequestPath (abilities : list Ability) (requestPath : string)
    : M CW (list Ability) :=
  if bool_decide (requestPath = "") || bool_decide (abilities = []) then ret abilities
  else
    let! channels := attempt (select cw_channels) in
    match channels with
    | Err _ => ret abilities
    | Ok channels =>
        ret (List.filter (λ a,
          match channels !! ab_ChannelId a with
          | Some c =>
              if Type_ c =? ChannelTypeAdvancedCustom then
                match AdvancedCustom c with Some config => SupportsPath config requestPath | None => false end
              else true
          | None => true
          end) abilities)
    end.

(** The loop that subtracts [weight + 10] until nothing is left. *)
Fixpoint pick_ability (l : list Ability) (r : Z) : option Ability :=
  match l with
  | [] => None
  | a :: l =>
      let r := wrap64 (r - wrap64 (wrap64 (ab_Weight a) + 10)) in
      if r <=? 0 then Some a else pick_ability l r
  end.

Definition sum_abilities (l : list Ability) : Z :=
  wrap64 (foldl (λ sum a, (sum + (ab_Weight a + 10)) mod 2 ^ 64) 0 l).

(** A pointer and an error, both of which the function may return. *)
Definition found : Type := option Channel * option error.

Definition empty_channel (id : Z) : Channel :=
  mkChannel id 0 "" 0 "" None "" "" None None ∅ None (mkInfo false 0 ∅ ∅ ∅ 0 "") None [].

(** [DB.First(&channel, "id = ?", channel.Id)]: on an error the struct keeps what
    it had, and it is returned all the same. *)
Definition GetChannel (Intn : Z -> Z) (group model : string) (retry : Z) (requestPath : string)
    : M CW found :=
  let! rows := attempt (channelQuery group model retry) in
  match rows with
  | Err e => ret (None, Some e)
  | Ok abilities =>
      let! abilities := filterAbilitiesByRequestPath abilities requestPath in
      match abilities with
      | [] => ret (None, None)
      | _ =>
          let weightSum := sum_abilities abilities in
          if weightSum <=? 0 then fail panic_intn
          else
            let id := match pick_ability abilities (Intn weightSum) with
                      | Some a => ab_ChannelId a
                      | None => 0
                      end in
            let! row := attempt (first (channel_by_id id)) in
            match row with
            | Ok c => ret (Some c, None)
            | Err e => ret (Some (empty_channel id), Some e)
            end
      end
  end.

Definition is_panic (e : error) : bool :=
  match e with EText m => String.eqb m "invalid argument to Intn" || HasPrefix m "runtime error" | _ => false end.

Definition GetRandomSatisfiedChannel (Intn : Z -> Z) (group model : string) (retry : Z)
    (requestPath : string) : M CW found :=
  if negb MemoryCacheEnabled then GetChannel Intn group model retry requestPath
  else
    let! cache := gets cw_cache in
    match choose_cached Intn cache group model requestPath retry with
    | Ok c => ret (c, None)
    | Err e => if is_panic e then fail e else ret (None, Some e)
    end.

(** ** Looking up and updating cache entries *)

Definition gone (id : Z) : error := EText ("渠道# " +:+ pretty id +:+ "，已不存在").

Definition CacheGetChannel (id : Z) : M CW Channel :=
  if negb MemoryCacheEnabled then GetChannelById id
  else let! cache := gets cw_cache in lift_option (channelsIDM cache !! id) (gone id).

Definition CacheGetChannelInfo (id : Z) : M CW ChannelInfo :=
  let! c := CacheGetChannel id in ret (Info c).

(** Remove the first occurrence. *)
Fixpoint remove_first (id : Z) (l : list Z) : list Z :=
  match l with
  | [] => []
  | x :: l => if x =? id then l else x :: remove_first id l
  end.

Definition cache_set_status (id status : Z) (cache : ChannelCache) : ChannelCache :=
  mkCache
    (if status =? ChannelStatusEnabled then group2model2channels cache
     else (λ inner : gmap string (list Z), remove_first id <$> inner) <$> group2model2channels cache)
    (alter (set_Status status) id (channelsIDM cache))
    (channel2advancedCustomConfig cache).

Definition CacheUpdateChannelStatus (id status : Z) : M CW unit :=
  if negb MemoryCacheEnabled then ret tt
  else modify (λ s, set_cache (cache_set_status id status (cw_cache s)) s).

Definition CacheUpdateChannel (c : Channel) : M CW unit :=
  if negb MemoryCacheEnabled then ret tt
  else modify (λ s, set_cache (mkCache (group2model2channels (cw_cache s))
         (<[Id c := c]> (channelsIDM (cw_cache s))) (channel2advancedCustomConfig (cw_cache s))) s).

(** ** [model/channel_satisfy.go] *)

Definition count_enabled (group model : string) (id : Z) (s : CW) : nat :=
  length (ability_rows (λ a, serves group model a && (ab_ChannelId a =? id)) s).

Definition isChannelEnabledForGroupModelDB (group modelName : string) (channelID : Z) : M CW bool :=
  let! count := attempt (select (count_enabled group modelName channelID)) in
  match count with
  | Ok (S _) => ret true
  | _ =>
      let normalized := FormatMatchingModelName modelName in
      if bool_decide (normalized = "") || bool_decide (normalized = modelName) then ret false
      else
        let! count := attempt (select (count_enabled group normalized channelID)) in
        ret (match count with Ok (S _) => true | _ => false end)
  end.

Definition IsChannelEnabledForGroupModel (group modelName : string) (channelID : Z) : M CW bool :=
  if bool_decide (group = "") || bool_decide (modelName = "") || (channelID <=? 0) then ret false
  else if negb MemoryCacheEnabled then isChannelEnabledForGroupModelDB group modelName channelID
  else
    let! cache := gets cw_cache in
    ret (if bool_decide (channelID ∈ ids_at cache group modelName) then true
         else
           let normalized := FormatMatchingModelName modelName in
           if bool_decide (normalized = "") || bool_decide (normalized = modelName) then false
           else bool_decide (channelID ∈ ids_at cache group normalized)).

Fixpoint IsChannelEnabledForAnyGroupModel (groups : list string) (modelName : string) (channelID : Z)
    : M CW bool :=
  match groups with
  | [] => ret false
  | g :: groups =>
      let! ok := IsChannelEnabledForGroupModel g modelName channelID in
      if ok : bool then ret true else IsChannelEnabledForAnyGroupModel groups modelName channelID
  end.

(** ** Rebuilding the abilities *)

(** [FixAbility]: the counts of channels rebuilt and failed. *)
Fixpoint fix_channels (l : list Channel) (ok bad : Z) : M CW (Z * Z) :=
  match l with
  | [] => ret (ok, bad)
  | c :: l =>
      let! r := attempt (AddAbilities c) in
      match r with
      | Ok _ => fix_channels l (ok + 1) bad
      | Err _ => fix_channels l ok (bad + 1)
      end
  end.

Fixpoint fix_chunks (l : list (list Channel)) (ok bad : Z) : M CW (Z * Z) :=
  match l with
  | [] => ret (ok, bad)
  | chunk :: l =>
      let! r := attempt (update (λ s, set_abilities (drop_abilities (Id <$> chunk) (cw_abilities s)) s)) in
      match r with
      | Err _ => fix_chunks l ok (bad + Z.of_nat (length chunk))
      | Ok _ => let! (ok, bad) := fix_channels chunk ok bad in fix_chunks l ok bad
      end
  end.

Definition FixAbility : M CW (Z * Z) :=
  do! update (set_abilities ∅) in
  let! channels := select (λ s, (map_to_list (cw_channels s)).*2) in
  match channels with
  | [] => ret (0, 0)
  | _ =>
      let! counts := fix_chunks (Chunk 50 channels) 0 0 in
      do! InitChannelCache in
      ret counts
  end.
End cache.
