(* ===== verification/ChannelKeys.v ===== *)
(** * ChannelKeys: channels with several keys, and changes of status

    Models the key handling and the status changes of [model/channel.go] and
    [service/channel.go].  A multi-key channel rotates over its keys; keys are
    switched off one by one and the channel with the last of them. *)

From Stdlib Require Import Ascii.
From S2P Require Export ChannelCache.
From S2P Require Import Prelude.

Definition ErrorCodeChannelNoAvailableKey : string := "channel:no_available_key".
Definition ErrorCodeGetChannelFailed : string := "get_channel_failed".

(** [types.NewError] without options *)
Definition NewError (e : error) (code : string) : error :=
  match e with EApi _ _ _ _ _ => e | _ => EApi e code 500 false true end.

(** ** Choosing a key *)

(** [getStatus]: a key without an entry is enabled. *)
Definition key_status (statusList : gmap Z Z) (idx : Z) : Z :=
  default ChannelStatusEnabled (statusList !! idx).
Definition key_enabled (statusList : gmap Z Z) (idx : Z) : bool :=
  key_status statusList idx =? ChannelStatusEnabled.

Definition enabledIdx (statusList : gmap Z Z) (n : nat) : list Z :=
  List.filter (key_enabled statusList) (Z.of_nat <$> seq 0 n).

(** The polling loop, [i] rounds done: the first enabled key from [start] on. *)
Definition poll_order (start : Z) (n : nat) : list Z :=
  (λ i, (start + Z.of_nat i) mod Z.of_nat n) <$> seq 0 n.
Definition poll (statusList : gmap Z Z) (start : Z) (n : nat) : option Z :=
  List.find (key_enabled statusList) (poll_order start n).

Definition set_polling_index (v : Z) (i : ChannelInfo) : ChannelInfo :=
  mkInfo (IsMultiKey i) (MultiKeySize i) (MultiKeyStatusList i) (MultiKeyDisabledReason i)
    (MultiKeyDisabledTime i) v (MultiKeyMode i).

Section keys.
Context {CC : ChannelConfig}.

Definition SaveChannelInfo (id : Z) (info : ChannelInfo) : M CW unit :=
  update (λ s, set_channels (alter (set_Info info) id (cw_channels s)) s).

(** The polling index of the channel object is moved on: with the memory cache the
    object is the cache's own, without it the object is saved to the database and
    an error of that is ignored. *)
Definition store_polling_index (c : Channel) (next : Z) : M CW unit :=
  if MemoryCacheEnabled then
    modify (λ s, set_cache (mkCache (group2model2channels (cw_cache s))
      (alter (λ c, set_Info (set_polling_index next (Info c)) c) (Id c) (channelsIDM (cw_cache s)))
      (channel2advancedCustomConfig (cw_cache s))) s)
  else do! attempt (SaveChannelInfo (Id c) (set_polling_index next (Info c))) in ret tt.

Definition key_at (keys : list string) (idx : Z) : string := default "" (keys !! Z.to_nat idx).

Definition GetNextEnabledKey (Intn : Z -> Z) (c : Channel) : M CW (string * Z) :=
  if negb (IsMultiKey (Info c)) then ret (Key c, 0)
  else
    let keys := GetKeys c in
    let n := length keys in
    let statusList := MultiKeyStatusList (Info c) in
    match n with
    | O => fail (NewError (EText "no keys available") ErrorCodeChannelNoAvailableKey)
    | _ =>
        match enabledIdx statusList n with
        | [] => fail (NewError (EText "no enabled keys") ErrorCodeChannelNoAvailableKey)
        | first_idx :: _ as enabled =>
            if decide (MultiKeyMode (Info c) = MultiKeyModeRandom) then
              let idx := default first_idx (enabled !! Z.to_nat (Intn (Z.of_nat (length enabled)))) in
              ret (key_at keys idx, idx)
            else if decide (MultiKeyMode (Info c) = MultiKeyModePolling) then
              let! info := map_err (λ e, NewError_skipRetry e ErrorCodeGetChannelFailed)
                             (CacheGetChannelInfo (Id c)) in
              let start := MultiKeyPollingIndex info in
              let start := if (start <? 0) || (Z.of_nat n <=? start) then 0 else start in
              match poll statusList start n with
              | Some idx =>
                  do! store_polling_index c ((idx + 1) mod Z.of_nat n) in
                  ret (key_at keys idx, idx)
              | None => ret (key_at keys first_idx, first_idx)
              end
            else ret (key_at keys first_idx, first_idx)
        end
    end.

(** ** Switching keys and channels *)

Definition hasEnabledMultiKey (keys : list string) (statusList : gmap Z Z) : bool :=
  existsb (key_enabled statusList) (Z.of_nat <$> seq 0 (length keys)).

(** The index of the key in use, the first if it occurs twice. *)
Definition key_index (keys : list string) (usingKey : string) : option Z :=
  (λ '(i, _), Z.of_nat i) <$> list_find (λ k, k = usingKey) keys.

Definition with_reason (reason : string) (now : Z) (c : Channel) : Channel :=
  set_OtherInfo (<["status_time" := InfoNumber now]> (<["status_reason" := InfoText reason]> (OtherInfo c))) c.

Definition set_key_status (idx status : Z) (reason : string) (now : Z) (i : ChannelInfo) : ChannelInfo :=
  if status =? ChannelStatusEnabled then
    mkInfo (IsMultiKey i) (MultiKeySize i) (delete idx (MultiKeyStatusList i)) (MultiKeyDisabledReason i)
      (MultiKeyDisabledTime i) (MultiKeyPollingIndex i) (MultiKeyMode i)
  else
    mkInfo (IsMultiKey i) (MultiKeySize i) (<[idx := status]> (MultiKeyStatusList i))
      (<[idx := reason]> (MultiKeyDisabledReason i)) (<[idx := now]> (MultiKeyDisabledTime i))
      (MultiKeyPollingIndex i) (MultiKeyMode i).

Definition handlerMultiKeyUpdate (c : Channel) (usingKey : string) (status : Z) (reason : string) (now : Z)
    : Channel :=
  let keys := GetKeys c in
  match keys with
  | [] => set_Status status c
  | _ =>
      match key_index keys usingKey with
      | None =>
          if decide (usingKey = "") then with_reason reason now (set_Status status c) else c
      | Some idx =>
          let c := set_Info (set_key_status idx status reason now (Info c)) c in
          if negb (hasEnabledMultiKey keys (MultiKeyStatusList (Info c))) then
            with_reason "All keys are disabled" now (set_Status ChannelStatusAutoDisabled c)
          else if status =? ChannelStatusEnabled then set_Status ChannelStatusEnabled c
          else c
      end
  end.

(** [SaveWithoutKey]: every column but the key. *)
Definition SaveWithoutKey (c : Channel) : M CW unit :=
  do! fail_if (Id c =? 0) (EText "channel ID is 0") in
  update (λ s, set_channels (alter (λ old, set_Key (Key old) (set_Keys [] c)) (Id c) (cw_channels s)) s).

(** The part of [UpdateChannelStatus] on the cache; [false]: nothing more to do. *)
Definition update_status_cache (channelId : Z) (usingKey : string) (status : Z) (reason : string)
    : M CW bool :=
  if negb MemoryCacheEnabled then ret true
  else
    let! cached := attempt (CacheGetChannel channelId) in
    match cached with
    | Err _ => ret false
    | Ok c =>
        if IsMultiKey (Info c) then
          let! now := gets cw_now in
          let c' := handlerMultiKeyUpdate c usingKey status reason now in
          do! modify (λ s, set_cache (mkCache (group2model2channels (cw_cache s))
                (<[channelId := c']> (channelsIDM (cw_cache s)))
                (channel2advancedCustomConfig (cw_cache s))) s) in
          do! (if Status c =? Status c' then ret tt
               else CacheUpdateChannelStatus channelId (Status c')) in
          ret true
        else if Status c =? status then ret false
        else do! CacheUpdateChannelStatus channelId status in ret true
    end.

(** The part on the database.  The deferred update of the abilities runs whether
    or not the row could be saved; its error is only logged. *)
Definition update_status_db (channelId : Z) (usingKey : string) (status : Z) (reason : string)
    : M CW bool :=
  let! row := attempt (GetChannelById channelId) in
  match row with
  | Err _ => ret false
  | Ok c =>
      if Status c =? status then ret false
      else
        let! now := gets cw_now in
        let '(c', changed) :=
          if IsMultiKey (Info c) then
            let c' := handlerMultiKeyUpdate c usingKey status reason now in
            (c', negb (Status c =? Status c'))
          else (set_Status status (with_reason reason now c), true) in
        let! saved := attempt (SaveWithoutKey c') in
        do! (if changed then
               do! attempt (UpdateAbilityStatus channelId (status =? ChannelStatusEnabled)) in ret tt
             else ret tt) in
        ret (is_ok saved)
  end.

Definition UpdateChannelStatus (channelId : Z) (usingKey : string) (status : Z) (reason : string)
    : M CW bool :=
  let! go_on := update_status_cache channelId usingKey status reason in
  if go_on : bool then update_status_db channelId usingKey status reason else ret false.

(** ** Editing a channel *)

Definition key_list (keyStr : string) : list string :=
  if decide (keyStr = "") then []
  else
    let trimmed := TrimSpace keyStr in
    let arr := if HasPrefix trimmed "[" then default [] (decode_array trimmed) else [] in
    match arr with
    | [] => Split (Trim keyStr "010") (String "010" "")
    | _ => arr
    end.

Definition resize_info (n : Z) (i : ChannelInfo) : ChannelInfo :=
  mkInfo (IsMultiKey i) n (filter (λ kv, kv.1 < n) (MultiKeyStatusList i)) (MultiKeyDisabledReason i)
    (MultiKeyDisabledTime i) (MultiKeyPollingIndex i) (MultiKeyMode i).

Definition zero_info : ChannelInfo := mkInfo false 0 ∅ ∅ ∅ 0 "".

(** [Updates(channel)]: the fields of the struct that are not zero values. *)
Definition merge_fields (old c : Channel) : Channel :=
  let text old new := if decide (new = "") then old else new in
  let num old new := if new =? 0 then old else new in
  let ptr {A} (old new : option A) := match new with Some _ => new | None => old end in
  mkChannel (Id old) (num (Type_ old) (Type_ c)) (text (Key old) (Key c)) (num (Status old) (Status c))
    (text (Name old) (Name c)) (ptr (Weight old) (Weight c)) (text (Models old) (Models c))
    (text (Group old) (Group c)) (ptr (Priority old) (Priority c)) (ptr (AutoBan old) (AutoBan c))
    (if decide (OtherInfo c = ∅) then OtherInfo old else OtherInfo c) (ptr (Tag old) (Tag c))
    (if decide (Info c = zero_info) then Info old else Info c)
    (ptr (AdvancedCustom old) (AdvancedCustom c)) [].

Definition Update (c : Channel) : M CW unit :=
  let! c :=
    (if IsMultiKey (Info c) then
       let! keyStr := (if decide (Key c = "") then
                         let! existing := attempt (GetChannelById (Id c)) in
                         ret (match existing with Ok e => Key e | Err _ => "" end)
                       else ret (Key c)) in
       ret (set_Info (resize_info (Z.of_nat (length (key_list keyStr))) (Info c)) c)
     else ret c) in
  do! update (λ s, set_channels (alter (λ old, merge_fields old c) (Id c) (cw_channels s)) s) in
  let! row := attempt (first (channel_by_id (Id c))) in
  UpdateAbilities (match row with Ok row => row | Err _ => c end).

(** ** [service/channel.go] *)

Record ChannelError : Type := mkChannelError {
  ce_ChannelId : Z;
  ce_AutoBan : bool;
  ce_UsingKey : string;
}.

(** The notification of the administrator is the returned value. *)
Definition DisableChannel (e : ChannelError) (reason : string) : M CW bool :=
  if negb (ce_AutoBan e) then ret false
  else UpdateChannelStatus (ce_ChannelId e) (ce_UsingKey e) ChannelStatusAutoDisabled reason.

Definition EnableChannel (channelId : Z) (usingKey : string) : M CW bool :=
  UpdateChannelStatus channelId usingKey ChannelStatusEnabled "".
End keys.
