(* ===== verification/AbilityProps.v ===== *)
(** * AbilityProps: the table of abilities mirrors the channels

    [abilities] is a copy of what the channel rows say, kept by hand in every
    operation.  [mirrored] states the copy exactly: the row of a key is the one the
    channel would be given today.  The operations keep it; those that do not are
    the findings at the end. *)

From S2P Require Export ChannelKeys.
From S2P Require Import Prelude.

(** ** The mirror *)

Definition find_ability (k : AbilityKey) (l : list Ability) : option Ability :=
  List.find (λ a, bool_decide (ability_key a = k)) l.

(** The ability row the channels call for under a key. *)
Definition expected (chs : gmap Z Channel) (k : AbilityKey) : option Ability :=
  c ← chs !! k.2; find_ability k (new_abilities c).

(** Rows are stored under their id, ids are below the next one to be assigned. *)
Definition rows_ok (s : CW) : Prop :=
  ∀ i c, cw_channels s !! i = Some c -> Id c = i ∧ 0 < i < cw_next s.

Record mirrored (s : CW) : Prop := {
  mi_rows : rows_ok s;
  mi_next : 0 < cw_next s;
  mi_abilities : ∀ k, cw_abilities s !! k = expected (cw_channels s) k;
}.

Lemma find_ability_key k l a : find_ability k l = Some a -> a ∈ l ∧ ability_key a = k.
Proof.
  unfold find_ability. intros [Hin Hk]%List.find_some. rewrite <- list_elem_of_In in Hin.
  by apply bool_decide_eq_true in Hk.
Qed.

Lemma new_abilities_id c a : a ∈ new_abilities c -> ab_ChannelId a = Id c.
Proof. unfold new_abilities. intros ([g m] & -> & _)%list_elem_of_fmap. done. Qed.

Lemma find_other c k : k.2 ≠ Id c -> find_ability k (new_abilities c) = None.
Proof.
  intros Hk. destruct (find_ability k (new_abilities c)) as [a|] eqn:E; [|done].
  apply find_ability_key in E as [Ha <-]. apply new_abilities_id in Ha. done.
Qed.

Lemma expected_key chs k a : expected chs k = Some a -> ability_key a = k.
Proof. unfold expected. destruct (chs !! k.2); simpl; [|done]. apply find_ability_key. Qed.

(** ** The table operations *)

Lemma lookup_foldl_insert m l k :
  foldl insert_ability m l !! k =
    match m !! k with Some a => Some a | None => find_ability k l end.
Proof.
  revert m. induction l as [|a l IH]; intros m; simpl; [by destruct (m !! k)|].
  rewrite IH. unfold insert_ability. unfold find_ability; fold find_ability. simpl.
  destruct (bool_decide_reflect (ability_key a = k)) as [<-|Hne].
  - destruct (m !! ability_key a) eqn:E; [by rewrite E|by rewrite lookup_insert_eq].
  - destruct (m !! ability_key a) eqn:E; [done|by rewrite lookup_insert_ne].
Qed.

Lemma lookup_drop ids m k :
  (∀ a, m !! k = Some a -> ability_key a = k) ->
  drop_abilities ids m !! k = if decide (k.2 ∈ ids) then None else m !! k.
Proof.
  intros Hk. unfold drop_abilities. rewrite map_lookup_filter.
  destruct (m !! k) as [a|] eqn:E; simpl; [|by destruct (decide _)].
  assert (k.2 = ab_ChannelId a) as -> by (by rewrite <- (Hk a eq_refl)).
  destruct (decide (ab_ChannelId a ∈ ids)).
  - by rewrite option_guard_False by (simpl; tauto).
  - by rewrite option_guard_True by done.
Qed.

Lemma concat_chunk_loop {A} fuel n (l : list A) :
  (0 < n)%nat -> (length l <= fuel)%nat -> concat (chunk_loop fuel n l) = l.
Proof.
  intros Hn. revert l. induction fuel as [|fuel IH]; intros l Hl; simpl.
  - by destruct l; simpl in *; [|lia].
  - destruct l as [|x l]; [done|]. change (take n (x :: l) ++ concat (chunk_loop fuel n (drop n (x :: l))) = x :: l).
    rewrite IH; [apply take_drop|]. rewrite length_drop. simpl in *. lia.
Qed.

Lemma concat_Chunk {A} n (l : list A) : (0 < n)%nat -> concat (Chunk n l) = l.
Proof. intros. by apply concat_chunk_loop. Qed.

(** ** Running without faults *)

Lemma exec_calm {A} (f : CW -> result A * CW) s : cw_faults s = [] -> exec f s = f s.
Proof. intros H. by apply exec_no_faults. Qed.

Lemma update_calm f s : cw_faults s = [] -> update f s = (Ok tt, f s).
Proof. intros. unfold update. by rewrite exec_calm. Qed.

Lemma select_calm {A} (f : CW -> A) s : cw_faults s = [] -> select f s = (Ok (f s), s).
Proof. intros. unfold select. by rewrite exec_calm. Qed.

Lemma transaction_calm {A} (body : M CW A) s a s' :
  cw_faults s = [] -> body s = (Ok a, s') -> cw_faults s' = [] -> transaction body s = (Ok a, s').
Proof.
  intros Hf Hb Hf'. unfold transaction, transaction_with, bind.
  rewrite update_calm by done. simpl. by rewrite Hb, update_calm.
Qed.

Definition add_abilities (c : Channel) (s : CW) : CW :=
  set_abilities (foldl insert_ability (cw_abilities s) (new_abilities c)) s.

Lemma AddAbilities_calm c s : cw_faults s = [] -> AddAbilities c s = (Ok tt, add_abilities c s).
Proof.
  intros Hf. unfold AddAbilities, add_abilities.
  rewrite <- (concat_Chunk 50 (new_abilities c)) at 2 by lia.
  generalize (Chunk 50 (new_abilities c)) as chunks. intros chunks. revert s Hf.
  induction chunks as [|chunk chunks IH]; intros s Hf; simpl; [by destruct s|].
  unfold bind, create_abilities at 1. rewrite update_calm by done. rewrite IH by done.
  by rewrite foldl_app.
Qed.

Lemma DeleteAbilities_calm c s : cw_faults s = [] ->
  DeleteAbilities c s = (Ok tt, set_abilities (drop_abilities [Id c] (cw_abilities s)) s).
Proof. intros Hf. unfold DeleteAbilities. by rewrite update_calm. Qed.

Definition renew_abilities (c : Channel) (s : CW) : CW :=
  add_abilities c (set_abilities (drop_abilities [Id c] (cw_abilities s)) s).

Lemma UpdateAbilities_tx_calm c s : cw_faults s = [] ->
  UpdateAbilities_tx c s = (Ok tt, renew_abilities c s).
Proof.
  intros Hf. unfold UpdateAbilities_tx, bind. rewrite DeleteAbilities_calm by done.
  by rewrite AddAbilities_calm.
Qed.

Lemma UpdateAbilities_calm c s : cw_faults s = [] ->
  UpdateAbilities c s = (Ok tt, renew_abilities c s).
Proof. intros Hf. eapply transaction_calm; [done|by apply UpdateAbilities_tx_calm|done]. Qed.

(** ** Inserting, deleting, renewing *)

Lemma mirrored_keyed s k a : mirrored s -> cw_abilities s !! k = Some a -> ability_key a = k.
Proof. intros [_ _ Ha]. rewrite Ha. apply expected_key. Qed.

(** The channels except one, with its abilities gone, and the one renewed. *)
Lemma renewed_lookup c s k :
  (∀ a, cw_abilities s !! k = Some a -> ability_key a = k) ->
  cw_abilities (renew_abilities c s) !! k
    = if decide (k.2 = Id c) then find_ability k (new_abilities c) else cw_abilities s !! k.
Proof.
  intros Hk. unfold renew_abilities, add_abilities. simpl.
  rewrite lookup_foldl_insert, lookup_drop by done.
  destruct (decide (k.2 = Id c)) as [E|E].
  - rewrite decide_True by (by apply list_elem_of_singleton). done.
  - rewrite decide_False by (by rewrite list_elem_of_singleton).
    destruct (cw_abilities s !! k); [done|by apply find_other].
Qed.

Lemma expected_insert chs c k :
  expected (<[Id c := c]> chs) k
    = if decide (k.2 = Id c) then find_ability k (new_abilities c) else expected chs k.
Proof.
  unfold expected. destruct (decide (k.2 = Id c)) as [->|E].
  - by rewrite lookup_insert_eq.
  - by rewrite lookup_insert_ne.
Qed.

(** A changed row whose abilities are renewed. *)
Lemma mirrored_renew s c :
  mirrored s -> is_Some (cw_channels s !! Id c) ->
  mirrored (renew_abilities c (set_channels (<[Id c := c]> (cw_channels s)) s)).
Proof.
  intros Hm [c0 Hc0]. pose proof Hm as [Hr Hn Ha]. split; simpl; [|done|].
  - intros i c' Hi. simpl in Hi. destruct (decide (i = Id c)) as [->|Hne].
    + rewrite lookup_insert_eq in Hi. simplify_eq. split; [done|]. apply (Hr _ _ Hc0).
    + rewrite lookup_insert_ne in Hi by done. by apply Hr.
  - intros k. etrans; [apply renewed_lookup; intros a; by apply mirrored_keyed|]. simpl.
    by rewrite expected_insert, Ha.
Qed.

(** A new row that is given its abilities. *)
Lemma mirrored_add s c next :
  mirrored s -> cw_channels s !! Id c = None -> 0 < Id c < next -> cw_next s <= next ->
  mirrored (add_abilities c (mkCW (<[Id c := c]> (cw_channels s)) next (cw_abilities s) (cw_cache s)
    (cw_now s) (cw_faults s))).
Proof.
  intros [Hr Hn Ha] Hnew Hid Hle. split; simpl; [|lia|].
  - intros i c' Hi. simpl in *. destruct (decide (i = Id c)) as [->|Hne].
    + rewrite lookup_insert_eq in Hi. by simplify_eq.
    + rewrite lookup_insert_ne in Hi by done. apply Hr in Hi. lia.
  - intros k. rewrite lookup_foldl_insert, expected_insert, Ha.
    destruct (decide (k.2 = Id c)) as [E|E].
    + unfold expected. by rewrite E, Hnew.
    + destruct (expected (cw_channels s) k); [done|by apply find_other].
Qed.

(** Rows dropped together with their abilities. *)
Lemma mirrored_drop s (ids : list Z) :
  mirrored s ->
  let s1 := drop_channels (λ c, bool_decide (Id c ∈ ids)) s in
  mirrored (set_abilities (drop_abilities ids (cw_abilities s1)) s1).
Proof.
  intros Hm. pose proof Hm as [Hr Hn Ha]. split; simpl; [|done|].
  - intros i c (Hi & _)%map_lookup_filter_Some. by apply Hr.
  - intros k. rewrite lookup_drop by (intros a; by apply mirrored_keyed).
    rewrite Ha. unfold expected. rewrite map_lookup_filter.
    destruct (cw_channels s !! k.2) as [c|] eqn:E; simpl; [|by destruct (decide _)].
    destruct (Hr _ _ E) as [Hid _]. destruct (decide (k.2 ∈ ids)).
    + by rewrite option_guard_False by (simpl; rewrite Hid, bool_decide_true by done; done).
    + by rewrite option_guard_True by (simpl; rewrite Hid, bool_decide_false by done; done).
Qed.

(** Rows and abilities changed alike. *)
Lemma mirrored_fmap s (f : Channel -> Channel) (g : Ability -> Ability) :
  mirrored s ->
  (∀ c, cw_channels s !! Id c = Some c -> Id (f c) = Id c ∧ new_abilities (f c) = g <$> new_abilities c) ->
  (∀ a, ability_key (g a) = ability_key a) ->
  mirrored (set_abilities (g <$> cw_abilities s) (set_channels (f <$> cw_channels s) s)).
Proof.
  intros [Hr Hn Ha] Hf Hg. split; simpl; [|done|].
  - intros i c. simpl. rewrite lookup_fmap. destruct (cw_channels s !! i) as [c0|] eqn:E; [|done].
    intros [= <-]. destruct (Hr _ _ E) as [Hid ?]. destruct (Hf c0) as [-> _]; [by rewrite Hid|done].
  - intros k. rewrite lookup_fmap, Ha. unfold expected. rewrite lookup_fmap.
    destruct (cw_channels s !! k.2) as [c|] eqn:E; simpl; [|done]. destruct (Hr _ _ E) as [Hid ?].
    destruct (Hf c) as [_ ->]; [by rewrite Hid|].
    unfold find_ability. induction (new_abilities c) as [|a l IH]; [done|]. rewrite fmap_cons. simpl.
    rewrite Hg. by destruct (bool_decide _).
Qed.

(** A uniform change of the abilities of a channel. *)
Lemma new_abilities_fmap c c' (g : Ability -> Ability) :
  Models c' = Models c -> Group c' = Group c ->
  (∀ x y, g (ability_of c x y) = ability_of c' x y) -> new_abilities c' = g <$> new_abilities c.
Proof.
  intros Hm Hg Hf. unfold new_abilities, ability_pairs. rewrite Hm, Hg, <- list_fmap_compose.
  apply list_fmap_ext. intros _ [x y] _. simpl. by rewrite Hf.
Qed.

(** ** The operations *)

Section ops.
Context {CC : ChannelConfig}.

(** [m] succeeds without faults and keeps the mirror. *)
Definition keeps_mirror {A} (m : M CW A) : Prop :=
  ∀ s, cw_faults s = [] -> mirrored s -> mirrored (m s).2 ∧ cw_faults (m s).2 = [].

Lemma keeps_intro {A} (m : M CW A) s r s' :
  m s = (r, s') -> mirrored s' -> cw_faults s' = [] -> mirrored (m s).2 ∧ cw_faults (m s).2 = [].
Proof. by intros ->. Qed.

Lemma insert_channel_mirrored s c c' s' :
  mirrored s -> 0 <= Id c -> (Id c ≠ 0 -> cw_channels s !! Id c = None) ->
  insert_channel s c = (c', s') -> mirrored (add_abilities c' s') ∧ cw_faults s' = cw_faults s.
Proof.
  intros Hm Hid Hfree. pose proof Hm as [Hr Hn _]. unfold insert_channel.
  destruct (Z.eqb_spec (Id c) 0) as [E|E]; intros [= <- <-]; (split; [|done]).
  - apply (mirrored_add s (with_defaults (set_Id (cw_next s) c))); simpl; [done| |lia|lia].
    destruct (cw_channels s !! cw_next s) as [c0|] eqn:E0; [|done]. apply Hr in E0. lia.
  - apply (mirrored_add s (with_defaults c)); simpl; [done|by apply Hfree|lia|lia].
Qed.

Lemma Insert_keeps c :
  0 <= Id c -> ∀ s, cw_faults s = [] -> mirrored s -> mirrored (Channel.Insert c s).2 ∧ cw_faults (Channel.Insert c s).2 = [].
Proof.
  intros Hid s Hf Hm. unfold Channel.Insert, create_channels, bind. rewrite exec_calm by done.
  cbn [insert_channels].
  destruct (id_taken s c && negb (Id c =? 0)) eqn:Et; [done|].
  destruct (insert_channel s c) as [c' s'] eqn:Ei. simpl.
  destruct (insert_channel_mirrored s c c' s' Hm Hid) as [Hm' Hf']; [|done|].
  - intros Hne. unfold id_taken in Et. apply andb_false_iff in Et as [Et|Et]; [|lia].
    apply bool_decide_eq_false in Et. by apply eq_None_not_Some.
  - unfold bind. rewrite AddAbilities_calm by congruence. simpl. split; [done|congruence].
Qed.

Lemma Delete_keeps c : keeps_mirror (Channel.Delete c).
Proof.
  intros s Hf Hm. unfold Channel.Delete, bind. rewrite update_calm by done.
  rewrite DeleteAbilities_calm by done. simpl. split; [|done].
  pose proof (mirrored_drop s [Id c] Hm) as H. simpl in H.
  assert (drop_channels (λ c', Id c' =? Id c) s = drop_channels (λ c', bool_decide (Id c' ∈ [Id c])) s) as ->; [|exact H].
  unfold drop_channels. f_equal. apply map_filter_ext. intros i c' _. simpl.
  rewrite bool_decide_decide. destruct (decide _) as [E|E]; rewrite list_elem_of_singleton in E; lia.
Qed.

Lemma BatchDeleteChannels_keeps ids : keeps_mirror (BatchDeleteChannels ids).
Proof.
  intros s Hf Hm. unfold BatchDeleteChannels. destruct ids as [|i ids]; [done|].
  assert (∀ chunks s, cw_faults s = [] -> mirrored s -> ∃ s',
    for_each (λ chunk, do! update (drop_channels (λ c, bool_decide (Id c ∈ chunk))) in
      update (λ s, set_abilities (drop_abilities chunk (cw_abilities s)) s)) chunks s = (Ok tt, s') ∧
    mirrored s' ∧ cw_faults s' = []) as Hloop.
  { clear. induction chunks as [|chunk chunks IH]; intros s Hf Hm; simpl; [by exists s|].
    unfold bind. rewrite !update_calm by done. apply IH; [done|]. by apply mirrored_drop. }
  destruct (Hloop (Chunk 200 (i :: ids)) s Hf Hm) as (s' & E & Hm' & Hf').
  by rewrite (transaction_calm _ _ _ _ Hf E Hf').
Qed.

(** The rows of a table satisfying a tag, and their abilities, switched alike. *)
Lemma tag_switch_keeps tag status : keeps_mirror (
  do! update_channels_where (λ c, has_tag tag (Tag c)) (set_Status status) in
  UpdateAbilityStatusByTag tag (status =? ChannelStatusEnabled)).
Proof.
  intros s Hf Hm. unfold bind, update_channels_where, UpdateAbilityStatusByTag, update_abilities_where.
  rewrite !update_calm by done. simpl. split; [|done].
  apply (mirrored_fmap s (λ c, if has_tag tag (Tag c) then set_Status status c else c)
    (λ a, if has_tag tag (ab_Tag a) then enable_ability (status =? ChannelStatusEnabled) a else a) Hm).
  - intros c _. destruct (has_tag tag (Tag c)) eqn:E; (split; [done|]); apply new_abilities_fmap; try done;
      intros x y; simpl; by rewrite E.
  - intros a. by destruct (has_tag tag (ab_Tag a)).
Qed.

Lemma EnableChannelByTag_keeps tag : keeps_mirror (EnableChannelByTag tag).
Proof. apply (tag_switch_keeps tag ChannelStatusEnabled). Qed.

Lemma DisableChannelByTag_keeps tag : keeps_mirror (DisableChannelByTag tag).
Proof. apply (tag_switch_keeps tag ChannelStatusManuallyDisabled). Qed.

(** ** Several rows at once *)

(** Mirrored, but for the channels [P], which have no abilities yet. *)
Record mirrored_but (P : list Z) (s : CW) : Prop := {
  mb_rows : rows_ok s;
  mb_next : 0 < cw_next s;
  mb_abilities : ∀ k, cw_abilities s !! k
    = if decide (k.2 ∈ P) then None else expected (cw_channels s) k;
}.

Lemma mirrored_but_nil s : mirrored_but [] s <-> mirrored s.
Proof.
  split; intros [Hr Hn Ha]; (split; [done|done|]); intros k; rewrite Ha;
    by rewrite decide_False by apply not_elem_of_nil.
Qed.

Lemma pending_add P s c :
  mirrored_but (Id c :: P) s -> Id c ∉ P -> cw_channels s !! Id c = Some c ->
  mirrored_but P (add_abilities c s).
Proof.
  intros [Hr Hn Ha] Hnd Hc. split; [done|done|]. intros k. simpl.
  rewrite lookup_foldl_insert, Ha. destruct (decide (k.2 = Id c)) as [E|E].
  - rewrite decide_True by (rewrite E; left). rewrite decide_False by (by rewrite E).
    unfold expected. by rewrite E, Hc.
  - destruct (decide (k.2 ∈ P)) as [HP|HP].
    + rewrite decide_True by (by right). by apply find_other.
    + rewrite decide_False by (rewrite elem_of_cons; tauto).
      destruct (expected (cw_channels s) k); [done|by apply find_other].
Qed.

(** The rows of [cs] are those of the table. *)
Definition stored (s : CW) (cs : list Channel) : Prop := Forall (λ c, cw_channels s !! Id c = Some c) cs.

Lemma pending_add_all P cs s :
  mirrored_but ((Id <$> cs) ++ P) s -> NoDup ((Id <$> cs) ++ P) -> stored s cs -> cw_faults s = [] ->
  ∃ s', for_each AddAbilities cs s = (Ok tt, s') ∧ mirrored_but P s' ∧ cw_faults s' = [] ∧
    cw_channels s' = cw_channels s ∧ cw_next s' = cw_next s.
Proof.
  revert s. induction cs as [|c cs IH]; intros s Hm Hnd Hst Hf; simpl; [by exists s|].
  inversion_clear Hst as [|? ? Hc Hst']. rewrite fmap_cons in Hm, Hnd. simpl in Hm, Hnd.
  apply NoDup_cons in Hnd as [Hni Hnd]. unfold bind. rewrite AddAbilities_calm by done.
  destruct (IH (add_abilities c s)) as (s' & -> & Hm' & Hf' & Hch & Hnx); [|done|done|done|by exists s'].
  by apply pending_add.
Qed.

Lemma mirrored_but_perm P Q s : P ≡ₚ Q -> mirrored_but P s -> mirrored_but Q s.
Proof.
  intros HPQ [Hr Hn Ha]. split; [done|done|]. intros k. rewrite Ha.
  destruct (decide (k.2 ∈ P)) as [H|H]; rewrite HPQ in H; [by rewrite decide_True|by rewrite decide_False].
Qed.

(** A new row, as an insertion makes it. *)
Lemma pending_row P s c c' s' :
  mirrored_but P s -> 0 <= Id c -> (id_taken s c && negb (Id c =? 0)) = false ->
  insert_channel s c = (c', s') ->
  mirrored_but (Id c' :: P) s' ∧ cw_channels s !! Id c' = None ∧
  cw_channels s' = <[Id c' := c']> (cw_channels s) ∧ cw_faults s' = cw_faults s ∧ cw_next s <= cw_next s'.
Proof.
  intros [Hr Hn Ha] Hid Ht Hi.
  assert (cw_channels s !! Id c' = None ∧ 0 < Id c' < cw_next s' ∧ cw_next s <= cw_next s' ∧
    cw_channels s' = <[Id c' := c']> (cw_channels s) ∧ cw_abilities s' = cw_abilities s ∧
    cw_faults s' = cw_faults s) as (Hnew & Hid' & Hle & Hch & Hab & Hf).
  { unfold insert_channel in Hi. unfold id_taken in Ht.
    destruct (Z.eqb_spec (Id c) 0) as [E|E]; injection Hi as <- <-; simpl; (split; [|repeat split; lia]).
    - destruct (cw_channels s !! cw_next s) as [c0|] eqn:E0; [|done]. apply Hr in E0. lia.
    - apply andb_false_iff in Ht as [Ht|Ht]; [|done].
      apply bool_decide_eq_false in Ht. by apply eq_None_not_Some. }
  split_and!; [|done|done|done|done]. split; [|lia|].
  - intros i d. rewrite Hch. destruct (decide (i = Id c')) as [->|Hne].
    + rewrite lookup_insert_eq. intros. by simplify_eq.
    + rewrite lookup_insert_ne by done. intros Hd%Hr. lia.
  - intros k. rewrite Hab, Hch, expected_insert, Ha. destruct (decide (k.2 = Id c')) as [E|E].
    + rewrite (decide_True (P := k.2 ∈ Id c' :: P)) by (rewrite E; left).
      destruct (decide _); [done|]. unfold expected. by rewrite E, Hnew.
    + destruct (decide (k.2 ∈ P)) as [HP|HP].
      * by rewrite decide_True by (by right).
      * by rewrite decide_False by (rewrite elem_of_cons; tauto).
Qed.

(** New rows, as one statement makes them. *)
Lemma pending_rows P s cs cs' s' :
  mirrored_but P s -> Forall (λ i, is_Some (cw_channels s !! i)) P -> Forall (λ c, 0 <= Id c) cs ->
  insert_channels s cs = Some (cs', s') ->
  mirrored_but ((Id <$> cs') ++ P) s' ∧ NoDup (Id <$> cs') ∧ Forall (λ i, i ∉ P) (Id <$> cs') ∧
  stored s' cs' ∧ cw_faults s' = cw_faults s ∧ cw_next s <= cw_next s' ∧
  (∀ i, is_Some (cw_channels s !! i) -> cw_channels s' !! i = cw_channels s !! i).
Proof.
  revert P s cs'. induction cs as [|c cs IH]; intros P s cs' Hm HP Hcs Hi.
  { simpl in Hi. simplify_eq. split_and!; try done; constructor. }
  inversion_clear Hcs as [|? ? Hc Hcs']. cbn [insert_channels] in Hi.
  destruct (id_taken s c && negb (Id c =? 0)) eqn:Et; [done|].
  destruct (insert_channel s c) as [c1 s1] eqn:E1.
  destruct (insert_channels s1 cs) as [[cs1 s2]|] eqn:E2; [|done]. simplify_eq/=.
  destruct (pending_row P s c c1 s1 Hm Hc Et E1) as (Hm1 & Hnew & Hch1 & Hf1 & Hn1).
  destruct (IH (Id c1 :: P) s1 cs1 Hm1) as (Hm2 & Hnd & Hni & Hst & Hf2 & Hn2 & Hk); [|done|done|].
  { constructor; [rewrite Hch1, lookup_insert_eq; done|].
    eapply Forall_impl; [exact HP|]. intros i [d Hd]. rewrite Hch1, lookup_insert_ne by congruence. done. }
  rewrite Forall_forall in Hni.
  assert (cw_channels s1 !! Id c1 = Some c1) as Hc1 by (by rewrite Hch1, lookup_insert_eq).
  split_and!.
  - eapply mirrored_but_perm; [|exact Hm2]. by rewrite <- Permutation_middle.
  - constructor; [|done]. intros H. apply (Hni _ H). left.
  - constructor.
    + intros H. rewrite Forall_forall in HP. apply HP in H as [d Hd]. congruence.
    + apply Forall_forall. intros i Hi Hp. apply (Hni i Hi). by right.
  - constructor; [|done]. rewrite Hk by (rewrite Hc1; done). done.
  - congruence.
  - lia.
  - intros i [d Hd]. assert (cw_channels s1 !! i = Some d) as Hd1.
    { rewrite Hch1, lookup_insert_ne by congruence. done. }
    rewrite Hk, Hd1 by (rewrite Hd1; done). done.
Qed.

Lemma BatchInsertChannels_keeps cs :
  Forall (λ c, 0 <= Id c) cs -> keeps_mirror (BatchInsertChannels cs).
Proof.
  intros Hcs s Hf Hm. unfold BatchInsertChannels. destruct cs as [|c cs]; [done|].
  set (body := for_each _ _).
  assert (∃ r s', body s = (r, s') ∧ cw_faults s' = [] ∧ cw_next s <= cw_next s' ∧
    (r = Ok tt -> mirrored s')) as (r & s' & E & Hf' & Hnx & Hm').
  { subst body. assert (Forall (Forall (λ c, 0 <= Id c)) (Chunk 50 (c :: cs))) as Hch.
    { apply Forall_forall. intros chunk Hin. apply Forall_forall. intros d Hd.
      rewrite Forall_forall in Hcs. apply Hcs. rewrite <- (concat_Chunk 50 (c :: cs)) by lia.
      apply list_elem_of_In, in_concat. exists chunk. by rewrite <- !list_elem_of_In. }
    revert s Hf Hm. induction Hch as [|chunk chunks Hc Hch IH]; intros s Hf Hm; simpl; [by exists (Ok tt), s|].
    unfold bind, create_channels. rewrite exec_calm by done.
    destruct (insert_channels s chunk) as [[cs' s1]|] eqn:E; [|by exists (Err (EDriver "UNIQUE constraint failed")), s].
    destruct (pending_rows [] s chunk cs' s1) as (Hm1 & Hnd & _ & Hst & Hf1 & Hn1 & _);
      [by apply mirrored_but_nil|constructor|done|done|].
    destruct (pending_add_all [] cs' s1) as (s2 & -> & Hm2 & Hf2 & _ & Hn2); [done|by rewrite app_nil_r|done|congruence|].
    destruct (IH s2) as (r & s' & E' & ? & ? & ?); [done|by apply mirrored_but_nil|].
    exists r, s'. split_and!; [done|done|lia|done]. }
  unfold transaction, transaction_with, bind. rewrite update_calm by done. simpl. rewrite E.
  destruct r as [[]|e].
  - rewrite update_calm by done. simpl. auto.
  - simpl. split; [|done]. destruct Hm as [Hr Hn Ha]. split; simpl; [|lia|done].
    intros i d Hd%Hr. simpl. lia.
Qed.

(** ** Changes of status *)

Lemma mirrored_cache s cache : mirrored s -> mirrored (set_cache cache s).
Proof. intros [Hr Hn Ha]. by split. Qed.

(** What a status change may touch of a row. *)
Record same_routing (c c' : Channel) : Prop := {
  sr_id : Id c' = Id c;
  sr_models : Models c' = Models c;
  sr_group : Group c' = Group c;
  sr_priority : GetPriority c' = GetPriority c;
  sr_weight : GetWeight c' = GetWeight c;
  sr_tag : Tag c' = Tag c;
}.

Lemma same_routing_abilities c c' status :
  same_routing c c' -> (Status c' =? ChannelStatusEnabled) = status ->
  new_abilities c' = enable_ability status <$> new_abilities c.
Proof.
  intros [Hi Hm Hg Hp Hw Ht] Hs. apply new_abilities_fmap; [done|done|]. intros x y.
  unfold ability_of, enable_ability. simpl. congruence.
Qed.

Lemma handler_routing c usingKey status reason now :
  let c' := handlerMultiKeyUpdate c usingKey status reason now in
  same_routing c c' ∧
  (Status c' ≠ Status c -> (Status c' =? ChannelStatusEnabled) = (status =? ChannelStatusEnabled)).
Proof.
  unfold handlerMultiKeyUpdate. destruct (GetKeys c) as [|k ks] eqn:Ek; [done|].
  destruct (key_index (k :: ks) usingKey) as [idx|] eqn:Ei.
  2: { destruct (decide (usingKey = "")); [done|]. by split. }
  destruct (negb _) eqn:En; [|destruct (status =? ChannelStatusEnabled) eqn:Es; [|by split]].
  - split; [done|]. intros _. simpl. destruct (Z.eqb_spec status ChannelStatusEnabled) as [->|]; [|done].
    exfalso. apply negb_true_iff in En. unfold hasEnabledMultiKey in En.
    rewrite <- not_true_iff_false in En. apply En, existsb_exists. exists idx.
    unfold key_index in Ei. destruct (list_find _ _) as [[n x]|] eqn:Ef; [|done].
    injection Ei as <-. apply list_find_Some in Ef as (Hn & _ & _). split.
    + apply list_elem_of_In, list_elem_of_fmap. exists n. split; [done|]. apply elem_of_seq.
      apply lookup_lt_Some in Hn. simpl in *. lia.
    + unfold key_enabled, key_status. unfold set_key_status.
      change (ChannelStatusEnabled =? ChannelStatusEnabled) with true. cbn.
      by rewrite lookup_delete_eq.
  - by split.
Qed.

(** One row replaced by one with the same routing. *)
Lemma mirrored_row s c c' status :
  mirrored s -> cw_channels s !! Id c = Some c -> same_routing c c' ->
  (Status c' =? ChannelStatusEnabled) = status ->
  mirrored (set_abilities ((λ a, if ab_ChannelId a =? Id c then enable_ability status a else a) <$> cw_abilities s)
    (set_channels (alter (λ old, set_Key (Key old) (set_Keys [] c')) (Id c) (cw_channels s)) s)).
Proof.
  intros Hm Hc Hsr Hs. pose proof Hm as [Hr _ _].
  assert (alter (λ old, set_Key (Key old) (set_Keys [] c')) (Id c) (cw_channels s)
    = (λ d, if Id d =? Id c then set_Key (Key d) (set_Keys [] c') else d) <$> cw_channels s) as ->.
  { apply map_eq. intros i. rewrite lookup_fmap. destruct (decide (i = Id c)) as [->|Hne].
    - rewrite lookup_alter_eq, Hc. simpl. by rewrite Z.eqb_refl.
    - rewrite lookup_alter_ne by done. destruct (cw_channels s !! i) as [d|] eqn:E; [|done]. simpl.
      destruct (Hr _ _ E) as [<- _]. by rewrite (proj2 (Z.eqb_neq _ _)). }
  apply mirrored_fmap; [done| |].
  - intros d Hd. destruct (Z.eqb_spec (Id d) (Id c)) as [E|E].
    + assert (d = c) as -> by congruence. simpl. split; [apply Hsr|].
      rewrite (same_routing_abilities c (set_Key (Key c) (set_Keys [] c')) status); [|by destruct Hsr|done].
      apply list_fmap_ext. intros _ a Ha%list_elem_of_lookup_2. by rewrite (new_abilities_id _ _ Ha), Z.eqb_refl.
    + split; [done|]. rewrite <- (list_fmap_id (new_abilities d)) at 1. apply list_fmap_ext.
      intros _ a Ha%list_elem_of_lookup_2. rewrite (new_abilities_id _ _ Ha). simpl.
      by rewrite (proj2 (Z.eqb_neq _ _)).
  - intros a. simpl. by destruct (ab_ChannelId a =? Id c).
Qed.

Lemma SaveWithoutKey_calm c s : cw_faults s = [] -> Id c ≠ 0 ->
  SaveWithoutKey c s = (Ok tt, set_channels (alter (λ old, set_Key (Key old) (set_Keys [] c)) (Id c) (cw_channels s)) s).
Proof.
  intros Hf Hid. unfold SaveWithoutKey, bind, fail_if. rewrite (proj2 (Z.eqb_neq _ _)) by done. simpl.
  by rewrite update_calm.
Qed.

(** A row saved without a change of its status keeps its abilities. *)
Lemma mirrored_row_same s c c' :
  mirrored s -> cw_channels s !! Id c = Some c -> same_routing c c' -> Status c' = Status c ->
  mirrored (set_channels (alter (λ old, set_Key (Key old) (set_Keys [] c')) (Id c) (cw_channels s)) s).
Proof.
  intros Hm Hc Hsr Hs.
  pose proof (mirrored_row s c c' (Status c' =? ChannelStatusEnabled) Hm Hc Hsr eq_refl) as [Hr Hn Ha].
  split; [done|done|]. intros k. rewrite <- Ha. simpl. rewrite lookup_fmap.
  destruct (cw_abilities s !! k) as [a|] eqn:E; [|done]. simpl. f_equal.
  destruct (Z.eqb_spec (ab_ChannelId a) (Id c)) as [Ei|]; [|done].
  destruct Hm as [_ _ Ha0]. rewrite Ha0 in E. unfold expected in E.
  pose proof (expected_key _ _ _ E) as Hk. assert (k.2 = Id c) as Hk2 by (by rewrite <- Hk).
  rewrite Hk2, Hc in E. simpl in E. apply find_ability_key in E as [Hin _].
  unfold new_abilities in Hin. apply list_elem_of_fmap in Hin as ([g m] & -> & _).
  unfold enable_ability, ability_of. simpl. by rewrite Hs.
Qed.

Lemma update_status_db_keeps id usingKey status reason :
  keeps_mirror (update_status_db id usingKey status reason).
Proof.
  intros s Hf Hm. pose proof Hm as [Hr _ _]. unfold update_status_db, bind, attempt, GetChannelById, first.
  rewrite exec_calm by done. unfold channel_by_id. destruct (cw_channels s !! id) as [c|] eqn:Ec; [|done].
  destruct (Hr _ _ Ec) as [<- Hid]. destruct (Status c =? status) eqn:Es; [done|]. simpl.
  pose proof (handler_routing c usingKey status reason (cw_now s)) as [Hsr Hst]. revert Hsr Hst.
  set (c' := handlerMultiKeyUpdate c usingKey status reason (cw_now s)). intros Hsr Hst.
  destruct (IsMultiKey (Info c)) eqn:Em.
  - rewrite SaveWithoutKey_calm; [|done|rewrite (sr_id _ _ Hsr); lia]. rewrite (sr_id _ _ Hsr).
    destruct (Z.eqb_spec (Status c) (Status c')) as [E|E]; simpl.
    + split; [|done]. by apply mirrored_row_same.
    + unfold bind, attempt, UpdateAbilityStatus, update_abilities_where. rewrite update_calm by done. simpl.
      split; [|done]. apply (mirrored_row s c c'); [done|done|done|]. apply Hst. congruence.
  - rewrite SaveWithoutKey_calm; [|done|simpl; lia]. simpl.
    unfold bind, attempt, UpdateAbilityStatus, update_abilities_where. rewrite update_calm by done. simpl.
    split; [|done]. by apply (mirrored_row s c (set_Status status (with_reason reason (cw_now s) c))).
Qed.

Lemma update_status_cache_keeps id usingKey status reason :
  keeps_mirror (update_status_cache id usingKey status reason).
Proof.
  intros s Hf Hm. unfold update_status_cache, CacheGetChannel, CacheUpdateChannelStatus.
  destruct MemoryCacheEnabled; simpl; [|done]. unfold bind, attempt, lift_option. simpl.
  destruct (channelsIDM (cw_cache s) !! id) as [c|]; simpl; [|done].
  destruct (IsMultiKey (Info c)); simpl.
  - destruct (Status c =? _); simpl; (split; [|done]); by repeat apply mirrored_cache.
  - destruct (Status c =? status); simpl; [done|]. split; [|done]. by apply mirrored_cache.
Qed.

Lemma UpdateChannelStatus_keeps id usingKey status reason :
  keeps_mirror (UpdateChannelStatus id usingKey status reason).
Proof.
  intros s Hf Hm. unfold UpdateChannelStatus, bind.
  destruct (update_status_cache_keeps id usingKey status reason s Hf Hm) as [Hm1 Hf1].
  destruct (update_status_cache id usingKey status reason s) as [[[]|e] s1]; simpl in *; [|done|done].
  by apply update_status_db_keeps.
Qed.

(** ** Editing *)

Lemma Update_keeps c s :
  cw_faults s = [] -> mirrored s -> is_Some (cw_channels s !! Id c) ->
  mirrored (Update c s).2 ∧ cw_faults (Update c s).2 = [].
Proof.
  intros Hf Hm [old Hold]. unfold Update. set (prepare := if IsMultiKey (Info c) then _ else _).
  assert (∃ c1, prepare s = (Ok c1, s) ∧ Id c1 = Id c) as (c1 & E & Hid).
  { subst prepare. destruct (IsMultiKey (Info c)); [|by exists c]. unfold bind, attempt, GetChannelById, first.
    destruct (decide (Key c = "")); [rewrite exec_calm by done; unfold channel_by_id; rewrite Hold|]; by eexists. }
  set (row := merge_fields old c1).
  assert (Id row = Id c) as Hrow by apply (mi_rows _ Hm _ _ Hold).
  assert (alter (λ old0, merge_fields old0 c1) (Id c) (cw_channels s) = <[Id row := row]> (cw_channels s)) as Ealt.
  { apply map_eq. intros j. destruct (decide (j = Id c)) as [->|Hne].
    - by rewrite lookup_alter_eq, Hold, Hrow, lookup_insert_eq.
    - by rewrite lookup_alter_ne, Hrow, lookup_insert_ne. }
  eapply keeps_intro.
  - unfold bind at 1. rewrite E. unfold bind, attempt, first. rewrite update_calm by done. rewrite exec_calm by done.
    unfold channel_by_id. simpl. rewrite Hid, lookup_alter_eq, Hold. simpl.
    rewrite UpdateAbilities_calm by done. reflexivity.
  - rewrite Ealt. apply mirrored_renew; [done|]. rewrite Hrow. eauto.
  - done.
Qed.

(** Renewing the abilities of a list of stored rows. *)
Lemma renew_all cs s :
  cw_faults s = [] -> (∀ k a, cw_abilities s !! k = Some a -> ability_key a = k) ->
  stored s cs ->
  ∃ s', for_each (λ c, do! attempt (UpdateAbilities c) in ret tt) cs s = (Ok tt, s') ∧
    cw_faults s' = [] ∧ cw_channels s' = cw_channels s ∧ cw_next s' = cw_next s ∧
    ∀ k, cw_abilities s' !! k
      = if decide (k.2 ∈ Id <$> cs) then expected (cw_channels s) k else cw_abilities s !! k.
Proof.
  revert s. induction cs as [|c cs IH]; intros s Hf Hk Hst; simpl.
  { by exists s. }
  inversion_clear Hst as [|? ? Hc Hst']. unfold bind, attempt. rewrite UpdateAbilities_calm by done. simpl.
  pose proof (λ k, renewed_lookup c s k (Hk k)) as Hl.
  destruct (IH (renew_abilities c s)) as (s' & E & Hf' & Hch & Hnx & Ha); [done| |done|].
  { intros k a. rewrite Hl. destruct (decide (k.2 = Id c)); [apply find_ability_key|apply Hk]. }
  exists s'. split_and!; [exact E|done|done|done|]. intros k. rewrite Ha. simpl cw_channels.
  destruct (decide (k.2 ∈ Id <$> cs)) as [Hi|Hi].
  - by rewrite decide_True by (by right).
  - rewrite Hl. destruct (decide (k.2 = Id c)) as [E'|E'].
    + rewrite decide_True by (rewrite E'; left). unfold expected. by rewrite E', Hc.
    + by rewrite decide_False by (rewrite elem_of_cons; tauto).
Qed.

Lemma rows_of_stored p s :
  rows_ok s -> stored s (rows_of p (cw_channels s)) ∧
  ∀ i c, cw_channels s !! i = Some c -> p c = true -> i ∈ Id <$> rows_of p (cw_channels s).
Proof.
  intros Hr. unfold stored, rows_of. split.
  - apply Forall_forall. intros c [Hc _]%list_elem_of_In%filter_In. apply list_elem_of_In in Hc.
    apply list_elem_of_fmap in Hc as ([i c'] & -> & Hc). apply elem_of_map_to_list in Hc. simpl.
    by destruct (Hr _ _ Hc) as [-> _].
  - intros i c Hc Hp. apply list_elem_of_fmap. exists c. destruct (Hr _ _ Hc) as [-> _]. split; [done|].
    apply list_elem_of_In, filter_In. split; [|done]. apply list_elem_of_In, list_elem_of_fmap.
    exists (i, c). by rewrite elem_of_map_to_list.
Qed.

Definition edit_row (tag : string) (newTag models group : option string) (priority weight : option Z)
    (c : Channel) : Channel :=
  let newTag' := match newTag with Some t => if decide (t = tag) then None else Some t | None => None end in
  mkChannel (Id c) (Type_ c) (Key c) (Status c) (Name c)
    (match weight with Some w => Some w | None => Weight c end)
    (default (Models c) (nonzero_text models)) (default (Group c) (nonzero_text group))
    (match priority with Some p => Some p | None => Priority c end)
    (AutoBan c) (OtherInfo c) (match newTag' with Some t => Some t | None => Tag c end)
    (Info c) (AdvancedCustom c) (Keys c).

Lemma wrap64_uint w : 0 <= w < 2 ^ 64 -> wrap64 w mod 2 ^ 64 = w.
Proof.
  intros Hw. unfold wrap64. rewrite <- Zminus_mod_idemp_l, Zmod_mod, Zminus_mod_idemp_l.
  replace (w + 2 ^ 63 - 2 ^ 63) with w by lia. by apply Z.mod_small.
Qed.

Definition edit_ability (tag : string) (newTag : option string) (priority weight : option Z)
    (a : Ability) : Ability :=
  if has_tag tag (ab_Tag a) then
    mkAbility (ab_Group a) (ab_Model a) (ab_ChannelId a) (ab_Enabled a) (default (ab_Priority a) priority)
      (match weight with Some w => if w =? 0 then ab_Weight a else w | None => ab_Weight a end)
      (match newTag with Some t => Some t | None => ab_Tag a end)
  else a.

(** With the same models and groups, abilities are edited as their channels are. *)
Lemma edit_row_abilities tag newTag models group priority weight c :
  (∀ w, weight = Some w -> 0 < w < 2 ^ 64) -> nonzero_text models = None -> nonzero_text group = None ->
  new_abilities (if has_tag tag (Tag c) then edit_row tag newTag models group priority weight c else c)
    = edit_ability tag newTag priority weight <$> new_abilities c.
Proof.
  intros Hw Hm Hg. apply new_abilities_fmap.
  - destruct (has_tag tag (Tag c)); [|done]. simpl. by rewrite Hm.
  - destruct (has_tag tag (Tag c)); [|done]. simpl. by rewrite Hg.
  - intros x y. unfold edit_ability. simpl. destruct (has_tag tag (Tag c)) eqn:Et; [|done].
    apply bool_decide_eq_true in Et. unfold ability_of, edit_row, GetPriority, GetWeight. simpl. f_equal.
    + by destruct priority.
    + destruct weight as [w|]; [|done]. specialize (Hw w eq_refl).
      rewrite (proj2 (Z.eqb_neq _ _)) by lia. by rewrite wrap64_uint by lia.
    + destruct newTag as [t|]; [|done]. by destruct (decide (t = tag)) as [->|].
Qed.

(** Renewed or untouched, all abilities are as expected. *)
Lemma mirrored_edit s (f : Channel -> Channel) (p : Channel -> bool) s' (ids : list Z) :
  mirrored s -> (∀ c, Id (f c) = Id c) -> (∀ c, p c = false -> f c = c) ->
  cw_next s' = cw_next s -> cw_channels s' = f <$> cw_channels s ->
  (∀ i c, cw_channels s !! i = Some c -> p c = true -> i ∈ ids) ->
  (∀ k, cw_abilities s' !! k = if decide (k.2 ∈ ids) then expected (cw_channels s') k else cw_abilities s !! k) ->
  mirrored s'.
Proof.
  intros [Hr Hn Ha] Hid Hp Hnx Hch Hin Ha'. split; [|lia|].
  - intros i c. rewrite Hch, lookup_fmap, Hnx. destruct (cw_channels s !! i) as [c0|] eqn:E; [|done].
    intros [= <-]. rewrite Hid. by apply Hr.
  - intros k. rewrite Ha'. destruct (decide (k.2 ∈ ids)) as [|Hni]; [done|]. rewrite Ha. unfold expected.
    rewrite Hch, lookup_fmap. destruct (cw_channels s !! k.2) as [c|] eqn:E; [|done]. simpl.
    rewrite Hp; [done|]. destruct (p c) eqn:Epc; [|done]. by apply Hin in E.
Qed.

Lemma EditChannelByTag_keeps tag newTag models group priority weight :
  (∀ w, weight = Some w -> 0 < w < 2 ^ 64) ->
  keeps_mirror (EditChannelByTag tag newTag models group priority weight).
Proof.
  intros Hw s Hf Hm. pose proof Hm as [Hr Hn Ha].
  set (f := λ c, if has_tag tag (Tag c) then edit_row tag newTag models group priority weight c else c).
  set (s1 := set_channels (f <$> cw_channels s) s).
  assert (rows_ok s1) as Hr1.
  { intros i c. simpl. rewrite lookup_fmap. destruct (cw_channels s !! i) as [c0|] eqn:E; [|done].
    intros [= <-]. subst f. cbv beta. destruct (has_tag tag (Tag c0)); exact (Hr _ _ E). }
  destruct (bool_decide (is_Some (nonzero_text models)) || bool_decide (is_Some (nonzero_text group))) eqn:Er.
  - set (updatedTag := default tag (match newTag with Some t => if decide (t = tag) then None else Some t | None => None end)).
    destruct (rows_of_stored (λ c, has_tag updatedTag (Tag c)) s1 Hr1) as [Hst Hall].
    destruct (renew_all _ s1 Hf (λ k a, mirrored_keyed s k a Hm) Hst) as (s2 & E & Hf2 & Hch & Hnx & Ha2).
    eapply (keeps_intro _ _ (Ok tt) s2).
    + unfold EditChannelByTag. cbv zeta. unfold bind at 1, update_channels_where. rewrite update_calm by done.
      rewrite Er. unfold bind at 1, attempt, GetChannelsByTag. rewrite select_calm by done. exact E.
    + apply (mirrored_edit s f (λ c, has_tag tag (Tag c)) s2
        (Id <$> rows_of (λ c, has_tag updatedTag (Tag c)) (cw_channels s1)) Hm).
      * intros c. subst f. simpl. by destruct (has_tag tag (Tag c)).
      * intros c Hc. subst f. simpl. by rewrite Hc.
      * done.
      * done.
      * intros i c Hc Ht. apply (Hall i (f c)); [simpl; by rewrite lookup_fmap, Hc|].
        subst f updatedTag. simpl. rewrite Ht. unfold edit_row, has_tag in *. simpl.
        apply bool_decide_eq_true in Ht. apply bool_decide_eq_true.
        destruct newTag as [t|]; [|done]. by destruct (decide (t = tag)).
      * intros k. rewrite Ha2, Hch. done.
    + done.
  - pose proof Er as [Em Eg]%orb_false_iff. apply bool_decide_eq_false, eq_None_not_Some in Em, Eg.
    eapply keeps_intro.
    + unfold EditChannelByTag. cbv zeta. unfold bind at 1, update_channels_where. rewrite update_calm by done.
      rewrite Er. simpl. unfold UpdateAbilityByTag, update_abilities_where. rewrite update_calm by done. reflexivity.
    + simpl. apply (mirrored_fmap s f (edit_ability tag newTag priority weight) Hm).
      * intros c _. split; [subst f; simpl; by destruct (has_tag tag (Tag c))|]. by apply edit_row_abilities.
      * intros a. unfold edit_ability. by destruct (has_tag tag (ab_Tag a)).
    + done.
Qed.

(** ** Rebuilding *)

Lemma drop_pending P ids s :
  mirrored_but P s -> Forall (λ i, i ∈ P) ids ->
  mirrored_but P (set_abilities (drop_abilities ids (cw_abilities s)) s).
Proof.
  intros [Hr Hn Ha] Hids. split; [done|done|]. intros k. simpl. rewrite lookup_drop.
  - destruct (decide (k.2 ∈ ids)) as [Hi|Hi]; [|apply Ha]. rewrite Forall_forall in Hids.
    by rewrite decide_True by (by apply Hids).
  - intros a. rewrite Ha. destruct (decide _); [done|apply expected_key].
Qed.

Lemma fix_channels_calm P cs s ok bad :
  mirrored_but ((Id <$> cs) ++ P) s -> NoDup ((Id <$> cs) ++ P) -> stored s cs -> cw_faults s = [] ->
  ∃ s', fix_channels cs ok bad s = (Ok (ok + Z.of_nat (length cs), bad), s') ∧ mirrored_but P s' ∧
    cw_faults s' = [] ∧ cw_channels s' = cw_channels s.
Proof.
  revert s ok. induction cs as [|c cs IH]; intros s ok Hm Hnd Hst Hf.
  { exists s. simpl. by rewrite Z.add_0_r. }
  inversion_clear Hst as [|? ? Hc Hst']. apply NoDup_cons in Hnd as [Hni Hnd]. simpl.
  unfold bind, attempt. rewrite AddAbilities_calm by done.
  destruct (IH (add_abilities c s) (ok + 1)) as (s' & E & ?); [by apply pending_add|done|done|done|].
  exists s'. rewrite E. split; [|done].
  do 3 f_equal. lia.
Qed.

Lemma fix_chunks_calm chunks s ok bad :
  mirrored_but (Id <$> concat chunks) s -> NoDup (Id <$> concat chunks) -> stored s (concat chunks) ->
  cw_faults s = [] ->
  ∃ s', fix_chunks chunks ok bad s = (Ok (ok + Z.of_nat (length (concat chunks)), bad), s') ∧ mirrored s' ∧
    cw_faults s' = [].
Proof.
  revert s ok. induction chunks as [|cs chunks IH]; intros s ok Hm Hnd Hst Hf.
  { exists s. simpl. rewrite Z.add_0_r. split_and!; [done|by apply mirrored_but_nil|done]. }
  cbn [concat] in *. rewrite fmap_app in Hm, Hnd. apply Forall_app in Hst as [Hst1 Hst2]. simpl.
  unfold bind, attempt. rewrite update_calm by done.
  destruct (fix_channels_calm (Id <$> concat chunks) cs
    (set_abilities (drop_abilities (Id <$> cs) (cw_abilities s)) s) ok bad) as (s1 & -> & Hm1 & Hf1 & Hch1);
    [apply drop_pending; [done|]|done|done|done|].
  { apply Forall_forall. intros i Hi. apply elem_of_app. by left. }
  destruct (IH s1 (ok + Z.of_nat (length cs))) as (s2 & E & ?);
    [done|by apply NoDup_app in Hnd as (_ & _ & ?)|unfold stored in *; by rewrite Hch1|done|].
  exists s2. rewrite E. split; [|done]. rewrite length_app.
  do 3 f_equal. lia.
Qed.

(** [FixAbility] builds the mirror from any state of the table. *)
Lemma InitChannelCache_keeps : keeps_mirror InitChannelCache.
Proof.
  intros s Hf Hm. unfold InitChannelCache. destruct MemoryCacheEnabled; simpl; [|done].
  unfold bind, attempt. rewrite !select_calm by done. destruct (index_channels _ _); [|done].
  split; [by apply mirrored_cache|done].
Qed.

Lemma table_rows s : rows_ok s -> stored s (map_to_list (cw_channels s)).*2 ∧
  NoDup (Id <$> (map_to_list (cw_channels s)).*2) ∧
  ∀ i, i ∈ Id <$> (map_to_list (cw_channels s)).*2 <-> is_Some (cw_channels s !! i).
Proof.
  intros Hr. assert (Id <$> (map_to_list (cw_channels s)).*2 = (map_to_list (cw_channels s)).*1) as E.
  { rewrite <- list_fmap_compose. apply list_fmap_ext. intros j [i c] Hj%list_elem_of_lookup_2.
    apply elem_of_map_to_list in Hj. simpl. by apply Hr. }
  split_and!.
  - apply Forall_forall. intros c ([i c'] & -> & Hc)%list_elem_of_fmap. apply elem_of_map_to_list in Hc.
    simpl. by destruct (Hr _ _ Hc) as [-> _].
  - rewrite E. apply NoDup_fst_map_to_list.
  - intros i. rewrite E, list_elem_of_fmap. split.
    + intros ([j c] & -> & Hc). apply elem_of_map_to_list in Hc. eauto.
    + intros [c Hc]. exists (i, c). by rewrite elem_of_map_to_list.
Qed.

Lemma FixAbility_builds s :
  rows_ok s -> 0 < cw_next s -> cw_faults s = [] ->
  mirrored (FixAbility s).2 ∧ cw_faults (FixAbility s).2 = [].
Proof.
  intros Hr Hn Hf. destruct (table_rows s Hr) as (Hst & Hnd & Hids).
  set (s0 := set_abilities ∅ s). set (rows := (map_to_list (cw_channels s)).*2) in *.
  assert (mirrored_but (Id <$> rows) s0) as Hm0.
  { split; [done|done|]. intros k. simpl. rewrite lookup_empty. destruct (decide _) as [|Hk]; [done|].
    rewrite Hids, <- eq_None_not_Some in Hk. unfold expected. simpl. by rewrite Hk. }
  unfold FixAbility. destruct rows as [|c rows'] eqn:Erows.
  { eapply keeps_intro; [unfold bind at 1; rewrite update_calm by done; unfold bind at 1;
      rewrite select_calm by done; simpl; fold rows; rewrite Erows; reflexivity| |done].
    by apply mirrored_but_nil. }
  destruct (fix_chunks_calm (Chunk 50 (c :: rows')) s0 0 0) as (s1 & E & Hm1 & Hf1);
    rewrite ?concat_Chunk by lia; [done..|].
  destruct (InitChannelCache_keeps s1 Hf1 Hm1) as [Hm2 Hf2].
  destruct (InitChannelCache s1) as [r s2] eqn:Ei.
  eapply (keeps_intro _ _ (match r with Ok _ => _ | Err e => Err e end) s2); [|done|done].
  unfold bind at 1. rewrite update_calm by done. unfold bind at 1. rewrite select_calm by done.
  simpl. fold rows. rewrite Erows. unfold bind. fold s0. rewrite E, Ei. by destruct r as [[]|].
Qed.

(** ** All operations *)

(** The operations that keep abilities and channels in step.  [DeleteChannelByStatus] and
    [DeleteDisabledChannel] delete the rows of channels and leave their abilities
    ([deleted_channel_revived]), [BatchSetChannelTag] writes the tag of the channels only
    ([batch_tag_not_mirrored]), and a weight of zero set for a tag reaches the abilities
    alone ([zero_weight_not_written]): they are modelled and are not among these. *)
Inductive channel_op : Type :=
| OpInsert (c : Channel)
| OpBatchInsert (cs : list Channel)
| OpUpdate (c : Channel)
| OpDelete (c : Channel)
| OpBatchDelete (ids : list Z)
| OpStatus (id : Z) (usingKey : string) (status : Z) (reason : string)
| OpEnableTag (tag : string)
| OpDisableTag (tag : string)
| OpEditTag (tag : string) (newTag models group : option string) (priority weight : option Z)
| OpFix
| OpInitCache.

(** New channels carry no negative id, an edited channel exists, a weight set for a
    tag is not zero. *)
Definition op_ok (s : CW) (op : channel_op) : Prop :=
  match op with
  | OpInsert c => 0 <= Id c
  | OpBatchInsert cs => Forall (λ c, 0 <= Id c) cs
  | OpUpdate c => is_Some (cw_channels s !! Id c)
  | OpEditTag _ _ _ _ _ weight => ∀ w, weight = Some w -> 0 < w < 2 ^ 64
  | _ => True
  end.

Definition run_op (op : channel_op) (s : CW) : CW :=
  match op with
  | OpInsert c => (Channel.Insert c s).2
  | OpBatchInsert cs => (BatchInsertChannels cs s).2
  | OpUpdate c => (Update c s).2
  | OpDelete c => (Channel.Delete c s).2
  | OpBatchDelete ids => (BatchDeleteChannels ids s).2
  | OpStatus id k st r => (UpdateChannelStatus id k st r s).2
  | OpEnableTag tag => (EnableChannelByTag tag s).2
  | OpDisableTag tag => (DisableChannelByTag tag s).2
  | OpEditTag tag nt ms g p w => (EditChannelByTag tag nt ms g p w s).2
  | OpFix => (FixAbility s).2
  | OpInitCache => (InitChannelCache s).2
  end.

Lemma run_op_keeps op s :
  cw_faults s = [] -> mirrored s -> op_ok s op -> mirrored (run_op op s) ∧ cw_faults (run_op op s) = [].
Proof.
  intros Hf Hm Hok. destruct op; simpl in *.
  - by apply Insert_keeps.
  - by apply BatchInsertChannels_keeps.
  - by apply Update_keeps.
  - by apply Delete_keeps.
  - by apply BatchDeleteChannels_keeps.
  - by apply UpdateChannelStatus_keeps.
  - by apply EnableChannelByTag_keeps.
  - by apply DisableChannelByTag_keeps.
  - by apply EditChannelByTag_keeps.
  - apply FixAbility_builds; [apply Hm|apply Hm|done].
  - by apply InitChannelCache_keeps.
Qed.

(** The states a database that answers gets into, from the empty tables on. *)
Inductive channel_reach : CW -> Prop :=
| reach_empty cache now : channel_reach (mkCW ∅ 1 ∅ cache now [])
| reach_op op s : channel_reach s -> op_ok s op -> channel_reach (run_op op s).

Lemma channel_reach_ok s : channel_reach s -> mirrored s ∧ cw_faults s = [].
Proof.
  induction 1 as [cache now|op s _ [IH IHf] Hok].
  - split; [|done]. split; [by intros i c|done|]. intros k. unfold expected. simpl. by rewrite !lookup_empty.
  - by apply run_op_keeps.
Qed.

(** C12. Through any sequence of the operations of [channel_op], none of whose
    statements fails and which are [op_ok] (a new channel has no negative id, an edited
    channel exists, a weight set for a tag is positive), from empty tables on, the
    abilities are what the channels call for: a row exists for each group and model of
    each channel and no other, with the channel's status, priority, weight and tag. The
    bulk operations that are not in [channel_op] do not keep this. *)
Theorem abilities_mirror_channels s k :
  channel_reach s -> cw_abilities s !! k = expected (cw_channels s) k.
Proof. intros Hs. apply (channel_reach_ok s Hs). Qed.
End ops.
