(* ===== verification/SelectProps.v ===== *)
(** * SelectProps: the index and the choice of a channel

    The index [InitChannelCache] builds holds exactly the enabled abilities.  The
    choice among candidates takes the priority the retry asks for and, within it,
    gives each channel as many draws as its effective weight. *)

From Stdlib Require Import Ascii.
From S2P Require Export AbilityProps.
From S2P Require Import Prelude.

(** ** Building the index *)

Definition in_index (idx : group_index) (g m : string) (i : Z) : Prop :=
  i ∈ default [] (inner ← idx !! g; inner !! m).

Lemma index_add_spec id idx g m :
  is_Some (idx !! g) ->
  ∃ idx', index_add id idx (g, m) = Some idx' ∧ (∀ x, is_Some (idx' !! x) <-> is_Some (idx !! x)) ∧
    ∀ g' m' i, in_index idx' g' m' i <-> in_index idx g' m' i ∨ (g' = g ∧ m' = m ∧ i = id).
Proof.
  intros [inner Hi]. unfold index_add. simpl. rewrite Hi. simpl. eexists. split_and!; [done| |].
  - intros x. destruct (decide (x = g)) as [->|Hne]; [rewrite lookup_insert_eq, Hi; split; eauto|].
    by rewrite lookup_insert_ne.
  - intros g' m' i. unfold in_index. destruct (decide (g' = g)) as [->|Hg].
    + rewrite lookup_insert_eq, Hi. cbn [mbind option_bind]. destruct (decide (m' = m)) as [->|Hm].
      * rewrite lookup_insert_eq. simpl. rewrite elem_of_app, list_elem_of_singleton. naive_solver.
      * rewrite lookup_insert_ne by done. naive_solver.
    + rewrite lookup_insert_ne by done. naive_solver.
Qed.

Lemma index_add_all_spec id l idx :
  (∀ gm, gm ∈ l -> is_Some (idx !! gm.1)) ->
  ∃ idx', index_add_all id l idx = Some idx' ∧ (∀ x, is_Some (idx' !! x) <-> is_Some (idx !! x)) ∧
    ∀ g m i, in_index idx' g m i <-> in_index idx g m i ∨ ((g, m) ∈ l ∧ i = id).
Proof.
  revert idx. induction l as [|[g m] l IH]; intros idx Hl; simpl.
  { exists idx. split_and!; [done|done|]. intros. rewrite elem_of_nil. tauto. }
  destruct (index_add_spec id idx g m) as (idx1 & -> & Hd1 & H1); [apply (Hl (g, m)); left|]. simpl.
  destruct (IH idx1) as (idx2 & -> & Hd2 & H2).
  { intros gm Hgm. apply Hd1, Hl. by right. }
  exists idx2. split_and!; [done|intros x; by rewrite Hd2|]. intros g' m' i. rewrite H2, H1, elem_of_cons. naive_solver.
Qed.

Lemma index_channels_spec cs idx :
  (∀ c gm, c ∈ cs -> Status c = ChannelStatusEnabled -> gm ∈ index_pairs c -> is_Some (idx !! gm.1)) ->
  ∃ idx', index_channels cs idx = Some idx' ∧
    ∀ g m i, in_index idx' g m i <-> in_index idx g m i ∨
      ∃ c, c ∈ cs ∧ Status c = ChannelStatusEnabled ∧ (g, m) ∈ index_pairs c ∧ i = Id c.
Proof.
  revert idx. induction cs as [|c cs IH]; intros idx Hcs; simpl.
  { exists idx. split; [done|]. intros. split; [by left|]. intros [?|(c & ?%elem_of_nil & _)]; done. }
  destruct (Z.eqb_spec (Status c) ChannelStatusEnabled) as [E|E].
  - destruct (index_add_all_spec (Id c) (index_pairs c) idx) as (idx1 & -> & Hd1 & H1).
    { intros gm Hgm. apply (Hcs c); [left|done|done]. }
    simpl. destruct (IH idx1) as (idx2 & -> & H2).
    { intros d gm Hd Hs Hgm. apply Hd1, (Hcs d); [by right|done|done]. }
    exists idx2. split; [done|]. intros g m i. rewrite H2, H1. setoid_rewrite elem_of_cons. naive_solver.
  - destruct (IH idx) as (idx2 & -> & H2).
    { intros d gm Hd. apply Hcs. by right. }
    exists idx2. split; [done|]. intros g m i. rewrite H2. setoid_rewrite elem_of_cons. naive_solver.
Qed.

Lemma ability_groups_spec l :
  (∀ g, is_Some (ability_groups l !! g) <-> ∃ a, a ∈ l ∧ ab_Group a = g) ∧
  ∀ g m i, ¬ in_index (ability_groups l) g m i.
Proof.
  unfold ability_groups.
  assert (∀ m0 : group_index, (∀ g m i, ¬ in_index m0 g m i) ->
    let m1 := foldl (λ (m : group_index) a, <[ab_Group a := ∅]> m) m0 l in
    (∀ g, is_Some (m1 !! g) <-> is_Some (m0 !! g) ∨ ∃ a, a ∈ l ∧ ab_Group a = g) ∧ ∀ g m i, ¬ in_index m1 g m i) as H.
  { induction l as [|a l IH]; intros m0 H0; simpl.
    - split; [|done]. intros g. split; [by left|]. intros [?|(a & ?%elem_of_nil & _)]; done.
    - destruct (IH (<[ab_Group a := ∅]> m0)) as [H1 H2].
      + intros g m i. unfold in_index. destruct (decide (g = ab_Group a)) as [->|Hne].
        * rewrite lookup_insert_eq. simpl. rewrite lookup_empty. apply not_elem_of_nil.
        * rewrite lookup_insert_ne by done. apply H0.
      + split; [|done]. intros g. rewrite H1. setoid_rewrite elem_of_cons.
        destruct (decide (g = ab_Group a)) as [->|Hne].
        * rewrite lookup_insert_eq. naive_solver.
        * rewrite lookup_insert_ne by done. naive_solver. }
  destruct (H ∅) as [H1 H2].
  { intros g m i. unfold in_index. rewrite lookup_empty. apply not_elem_of_nil. }
  split; [|done]. intros g. rewrite H1, lookup_empty. split; [intros [[? ?]|?]; done|by right].
Qed.

(** ** The pairs of a channel *)

(** No group name contains the separator of [abilitySet]. *)
Definition plain_groups (c : Channel) : Prop :=
  ∀ g, g ∈ Split (Group c) "," -> lacks "|"%char g = true.

Lemma bar_inj g m g' m' :
  lacks "|"%char g = true -> lacks "|"%char g' = true ->
  g +:+ "|" +:+ m = g' +:+ "|" +:+ m' -> g = g' ∧ m = m'.
Proof.
  intros Hg Hg' E. apply (f_equal (λ s, Cut s "|")) in E.
  change ("|" +:+ m) with (String "|" m) in E. change ("|" +:+ m') with (String "|" m') in E.
  rewrite !Cut_app in E by done. by simplify_eq.
Qed.

Lemma distinct_pairs_complete seen l g m :
  Forall (λ gm, lacks "|"%char gm.1 = true) l -> (g, m) ∈ l ->
  (g, m) ∈ distinct_pairs seen l ∨ (g +:+ "|" +:+ m) ∈ seen.
Proof.
  revert seen. induction l as [|[g' m'] l IH]; intros seen Hf Hin; [by apply elem_of_nil in Hin|].
  apply Forall_cons in Hf as [Hg' Hf]. simpl in Hg'. cbn [distinct_pairs].
  apply elem_of_cons in Hin as [[= -> ->]|Hin].
  - destruct (decide _); [by right|left; left].
  - assert (lacks "|"%char g = true) as Hg by (rewrite Forall_forall in Hf; by apply (Hf (g, m))).
    destruct (decide _) as [|Hn]; [by apply IH|].
    destruct (IH ((g' +:+ "|" +:+ m') :: seen) Hf Hin) as [H|H]; [left; by right|].
    apply elem_of_cons in H as [H|H]; [|by right].
    apply bar_inj in H as [-> ->]; [left; left|done|done].
Qed.

Lemma distinct_pairs_subset seen l gm : gm ∈ distinct_pairs seen l -> gm ∈ l.
Proof.
  revert seen. induction l as [|[g m] l IH]; intros seen; cbn [distinct_pairs]; [done|].
  destruct (decide _).
  - intros H%IH. by right.
  - intros [->|H%IH]%elem_of_cons; [left|by right].
Qed.

Lemma pairs_spec c g m :
  ((g, m) ∈ index_pairs c <-> g ∈ Split (Group c) "," ∧ m ∈ Split (Models c) ",") ∧
  ((g, m) ∈ ability_pairs c <-> g ∈ Split (Group c) "," ∧ m ∈ Split (Models c) ",").
Proof.
  unfold index_pairs, ability_pairs. split; rewrite list_elem_of_bind.
  - split; [intros (g' & (m' & [= -> ->]%list_elem_of_singleton & ?)%list_elem_of_bind & ?); done|].
    intros [? ?]. exists g. split; [|done]. apply list_elem_of_bind. exists m. split; [|done]. left.
  - split; [intros (g' & (m' & [= -> ->]%list_elem_of_singleton & ?)%list_elem_of_bind & ?); done|].
    intros [? ?]. exists m. split; [|done]. apply list_elem_of_bind. exists g. split; [|done]. left.
Qed.

Lemma plain_pairs c : plain_groups c -> Forall (λ gm, lacks "|"%char gm.1 = true) (ability_pairs c).
Proof.
  intros Hp. apply Forall_forall. intros [g m] Hgm. apply (proj2 (pairs_spec c g m)) in Hgm as [? _].
  by apply Hp.
Qed.

(** The row a channel is given for a pair. *)
Lemma find_new c g m :
  plain_groups c ->
  find_ability (g, m, Id c) (new_abilities c)
    = if decide ((g, m) ∈ index_pairs c) then Some (ability_of c g m) else None.
Proof.
  intros Hp. destruct (find_ability (g, m, Id c) (new_abilities c)) as [a|] eqn:E.
  - apply find_ability_key in E as [Ha Hk]. unfold new_abilities in Ha.
    apply list_elem_of_fmap in Ha as ([g' m'] & -> & Hin). unfold ability_key in Hk. simpl in Hk. simplify_eq.
    apply distinct_pairs_subset in Hin. apply (proj2 (pairs_spec c g m)) in Hin.
    rewrite decide_True by (by apply pairs_spec). done.
  - rewrite decide_False; [done|]. intros Hin. apply (proj1 (pairs_spec c g m)) in Hin.
    apply (proj2 (pairs_spec c g m)) in Hin.
    destruct (distinct_pairs_complete [] _ _ _ (plain_pairs c Hp) Hin) as [H|H%elem_of_nil]; [|done].
    unfold find_ability in E. apply (List.find_none _ _) with (x := ability_of c g m) in E.
    + by rewrite bool_decide_eq_false in E.
    + apply list_elem_of_In. unfold new_abilities. apply list_elem_of_fmap. by exists (g, m).
Qed.

(** ** The index holds the enabled abilities *)

Lemma sort_index_spec byId idx g m i : in_index (sort_index byId idx) g m i <-> in_index idx g m i.
Proof.
  unfold in_index, sort_index. rewrite lookup_fmap. destruct (idx !! g) as [inner|]; [|done]. simpl.
  rewrite lookup_fmap. destruct (inner !! m) as [l|]; [|done]. simpl. unfold sort_by_priority.
  by rewrite merge_sort_Permutation.
Qed.

Section index.
Context {CC : ChannelConfig}.

Lemma InitChannelCache_index s :
  MemoryCacheEnabled = true -> mirrored s -> cw_faults s = [] ->
  (∀ i c, cw_channels s !! i = Some c -> plain_groups c) ->
  ∃ s', InitChannelCache s = (Ok tt, s') ∧
    ∀ g m i, i ∈ ids_at (cw_cache s') g m <->
      ∃ a, cw_abilities s !! (g, m, i) = Some a ∧ ab_Enabled a = true.
Proof.
  intros Hmc Hm Hf Hp. pose proof Hm as [Hr Hn Ha].
  set (rows := (map_to_list (cw_channels s)).*2). set (abs := (map_to_list (cw_abilities s)).*2).
  assert (∀ c, c ∈ rows <-> cw_channels s !! Id c = Some c) as Hrows.
  { intros c. subst rows. rewrite list_elem_of_fmap. split.
    - intros ([i c'] & -> & Hc). apply elem_of_map_to_list in Hc. simpl. by destruct (Hr _ _ Hc) as [-> _].
    - intros Hc. exists (Id c, c). by rewrite elem_of_map_to_list. }
  assert (∀ c gm, cw_channels s !! Id c = Some c -> gm ∈ index_pairs c ->
    cw_abilities s !! (gm.1, gm.2, Id c) = Some (ability_of c gm.1 gm.2)) as Hab.
  { intros c [g m] Hc Hgm. rewrite Ha. unfold expected. simpl. rewrite Hc. simpl.
    rewrite find_new by (by eapply Hp). by rewrite decide_True. }
  destruct (ability_groups_spec abs) as [Hg Hempty].
  destruct (index_channels_spec rows (ability_groups abs)) as (idx & Hidx & Hin).
  { intros c gm Hc%Hrows _ Hgm. apply Hg. exists (ability_of c gm.1 gm.2). split; [|done].
    subst abs. apply list_elem_of_fmap. exists ((gm.1, gm.2, Id c), ability_of c gm.1 gm.2).
    split; [done|]. rewrite elem_of_map_to_list. by apply Hab. }
  eexists. split.
  { unfold InitChannelCache. rewrite Hmc. simpl. unfold bind, attempt. rewrite !select_calm by done.
    fold rows abs. rewrite Hidx. reflexivity. }
  intros g m i. simpl. change (in_index (sort_index (channels_by_id rows) idx) g m i <->
    ∃ a, cw_abilities s !! (g, m, i) = Some a ∧ ab_Enabled a = true).
  rewrite sort_index_spec, Hin. split.
  - intros [H|(c & Hc%Hrows & Hs & Hgm & ->)]; [by apply Hempty in H|].
    exists (ability_of c g m). split; [by apply (Hab c (g, m))|]. simpl. by rewrite Hs.
  - intros (a & Hlook & He). right. rewrite Ha in Hlook. unfold expected in Hlook. simpl in Hlook.
    destruct (cw_channels s !! i) as [c|] eqn:Ec; [|done]. simpl in Hlook.
    destruct (Hr _ _ Ec) as [<- _]. exists c. rewrite find_new in Hlook by (by eapply Hp).
    destruct (decide _); [|done]. simplify_eq. simpl in He. split_and!; [by apply Hrows|lia|done|done].
Qed.

(** C13. On a node with memory cache, in a state that the operations of [channel_op]
    reach (see [channel_reach]) and where no group of a channel contains the separator
    '|', a sync ends without a panic, and its index lists a channel for a group and a
    model exactly when the channel's ability there is enabled. (What a node then serves
    may still differ from one without the cache: only the cached path falls back to the
    normalised name of a model.) *)
Theorem cache_index_is_abilities s :
  MemoryCacheEnabled = true -> channel_reach s ->
  (∀ i c, cw_channels s !! i = Some c -> plain_groups c) ->
  ∃ s', InitChannelCache s = (Ok tt, s') ∧
    ∀ g m i, i ∈ ids_at (cw_cache s') g m <->
      ∃ a, cw_abilities s !! (g, m, i) = Some a ∧ ab_Enabled a = true.
Proof. intros Hmc [Hm Hf]%channel_reach_ok. by apply InitChannelCache_index. Qed.
End index.

(** ** Choosing by weight *)

(** The draws of a channel: its weight times the smoothing factor, plus the
    adjustment. *)
Definition effective (factor adjustment : Z) (c : Channel) : Z := GetWeight c * factor + adjustment.

Definition total (factor adjustment : Z) (l : list Channel) : Z :=
  foldr (λ c sum, effective factor adjustment c + sum) 0 l.

(** Weights an administrator could enter: not negative, and far from overflow. *)
Definition sane_weights (l : list Channel) : Prop :=
  Forall (λ c, 0 <= GetWeight c) l ∧ total 100 100 l < 2 ^ 62.

Lemma total_mono f a l :
  Forall (λ c, 0 <= GetWeight c) l -> 0 <= f <= 100 -> 0 <= a <= 100 ->
  0 <= total f a l <= total 100 100 l.
Proof.
  intros Hl Hf Ha. induction Hl as [|c l Hc Hl IH]; simpl; [lia|].
  unfold effective in *. nia.
Qed.

Lemma pick_weighted_exact f a l r :
  Forall (λ c, 0 <= GetWeight c) l -> 0 <= f <= 100 -> 0 <= a <= 100 -> total 100 100 l < 2 ^ 62 ->
  0 <= r < 2 ^ 62 ->
  pick_weighted f a l r =
    match l with
    | [] => None
    | c :: l' => if r <? effective f a c then Some c else pick_weighted f a l' (r - effective f a c)
    end.
Proof.
  intros Hl Hf Ha Ht Hr. destruct l as [|c l]; [done|]. apply Forall_cons in Hl as [Hc Hl]. simpl.
  pose proof (total_mono 100 100 l Hl ltac:(lia) ltac:(lia)) as Hm. simpl in Ht. unfold effective in *.
  assert (0 <= GetWeight c * f <= GetWeight c * 100) by nia.
  rewrite (wrap64_id (GetWeight c * f)), (wrap64_id (GetWeight c * f + a)),
    (wrap64_id (r - (GetWeight c * f + a))) by (unfold int64_range; lia).
  destruct (Z.ltb_spec (r - (GetWeight c * f + a)) 0), (Z.ltb_spec r (GetWeight c * f + a)); done || lia.
Qed.

(** Which draws pick the channel in the middle of a list. *)
Lemma pick_weighted_interval f a l1 c l2 r :
  NoDup (l1 ++ c :: l2) -> Forall (λ c, 0 <= GetWeight c) (l1 ++ c :: l2) ->
  0 <= f <= 100 -> 0 <= a <= 100 -> total 100 100 (l1 ++ c :: l2) < 2 ^ 62 -> 0 <= r < 2 ^ 62 ->
  pick_weighted f a (l1 ++ c :: l2) r = Some c <-> total f a l1 <= r < total f a l1 + effective f a c.
Proof.
  intros Hnd Hl Hf Ha Ht. revert r. induction l1 as [|d l1 IH]; intros r Hr.
  - simpl app in *. rewrite pick_weighted_exact by done. simpl.
    destruct (Z.ltb_spec r (effective f a c)); [split; [lia|done]|].
    split; [|lia]. intros Hp. exfalso. apply NoDup_cons in Hnd as [Hni _]. apply Hni.
    clear -Hp. revert Hp. generalize (r - effective f a c). induction l2 as [|d l2 IH]; intros z; simpl; [done|].
    destruct (_ <? 0); [intros [= ->]; left|]. intros H%IH. by right.
  - simpl app in *. rewrite pick_weighted_exact by done. apply Forall_cons in Hl as [Hd Hl].
    apply NoDup_cons in Hnd as [Hni Hnd].
    pose proof (total_mono f a [d] ltac:(by apply Forall_singleton) Hf Ha) as Hed. simpl in Hed.
    assert (total 100 100 (l1 ++ c :: l2) < 2 ^ 62) as Ht'.
    { simpl in Ht. unfold effective at 1 in Ht. lia. }
    assert (0 <= total f a l1) as Hl1.
    { apply total_mono; [by apply Forall_app in Hl as [? _]|done|done]. }
    simpl. destruct (Z.ltb_spec r (effective f a d)).
    + split; [|lia]. intros [= ->]. exfalso. apply Hni, elem_of_app. right. left.
    + rewrite IH by (done || lia). lia.
Qed.

(** Draws that fall into an interval. *)
Lemma count_interval n lo w :
  0 <= lo -> 0 <= w -> lo + w <= n ->
  length (filter (λ r, lo <= r < lo + w) (seqZ 0 n)) = Z.to_nat w.
Proof.
  intros Hlo Hw Hn. replace n with (lo + (w + (n - lo - w))) by lia.
  rewrite !seqZ_app, !filter_app, !length_app by lia.
  rewrite (filter_none _ (seqZ 0 lo)) by (intros r Hr%elem_of_seqZ; lia).
  rewrite (filter_none _ (seqZ (0 + lo + w) _)) by (intros r Hr%elem_of_seqZ; lia).
  assert (filter (λ r, lo <= r < lo + w) (seqZ (0 + lo) w) = seqZ (0 + lo) w) as ->.
  { apply list_filter_all. apply Forall_forall. intros r Hr%elem_of_seqZ. lia. }
  rewrite length_seqZ. simpl. lia.
Qed.

(** The smoothed total is the sum of the effective weights. *)
Lemma sum_weights_exact l : sane_weights l -> sum_weights l = total 1 0 l.
Proof.
  intros [Hl Ht]. unfold sum_weights.
  assert (∀ acc, 0 <= acc -> acc + total 1 0 l < 2 ^ 62 ->
    foldl (λ sum c, wrap64 (sum + GetWeight c)) acc l = acc + total 1 0 l) as H.
  { clear Ht. induction Hl as [|c l Hc Hl IH]; intros acc Ha Hs; simpl in *; [lia|].
    pose proof (total_mono 1 0 l Hl ltac:(lia) ltac:(lia)). unfold effective in *.
    rewrite wrap64_id by (unfold int64_range; lia). rewrite IH; lia. }
  rewrite H; [lia|lia|]. pose proof (total_mono 1 0 l Hl ltac:(lia) ltac:(lia)). lia.
Qed.

Lemma total_scale f l : total f 0 l = total 1 0 l * f.
Proof. induction l as [|c l IH]; simpl; [done|]. unfold effective in *. rewrite IH. lia. Qed.

Lemma total_flat f l : total 1 0 l = 0 -> Forall (λ c, 0 <= GetWeight c) l ->
  total f 100 l = Z.of_nat (length l) * 100.
Proof.
  intros Ht Hl. induction Hl as [|c l Hc Hl IH]; [done|]. simpl in *.
  pose proof (total_mono 1 0 l Hl ltac:(lia) ltac:(lia)). unfold effective in *.
  assert (GetWeight c = 0) as -> by lia. rewrite IH by lia. lia.
Qed.

(** The smoothing in force for a list of channels. *)
Definition smoothing_of (l : list Channel) : Z * Z :=
  let '(_, factor, adjustment) := smoothing (sum_weights l) (length l) in (factor, adjustment).

Definition draws (l : list Channel) : Z := total (smoothing_of l).1 (smoothing_of l).2 l.

Lemma choose_weighted_draws Intn l :
  l ≠ [] -> sane_weights l ->
  0 < draws l < 2 ^ 62 ∧ 0 <= (smoothing_of l).1 <= 100 ∧ 0 <= (smoothing_of l).2 <= 100 ∧
  choose_weighted Intn l =
    match pick_weighted (smoothing_of l).1 (smoothing_of l).2 l (Intn (draws l)) with
    | Some c => Ok c
    | None => Err (EText "channel not found")
    end.
Proof.
  intros Hne Hs. pose proof Hs as [Hl Ht]. unfold draws, smoothing_of, choose_weighted.
  pose proof (sum_weights_exact l Hs) as Hsum. pose proof (total_mono 1 0 l Hl ltac:(lia) ltac:(lia)) as Hm.
  assert (1 <= Z.of_nat (length l)) as Hlen by (destruct l; simpl; [done|lia]).
  unfold smoothing. destruct (Z.eqb_spec (sum_weights l) 0) as [E|E].
  - simpl. rewrite Hsum in E. pose proof (total_mono 1 100 l Hl ltac:(lia) ltac:(lia)) as Hm'.
    rewrite (total_flat 1 l E Hl) in *. rewrite Z.mul_1_r, wrap64_id by (unfold int64_range; lia).
    split_and!; try lia. by rewrite (proj2 (Z.leb_gt _ _)) by lia.
  - destruct (Z.quot _ _ <? 10); simpl.
    + pose proof (total_mono 100 0 l Hl ltac:(lia) ltac:(lia)) as Hm'. rewrite Hsum in *.
      rewrite total_scale in *. rewrite wrap64_id by (unfold int64_range; lia).
      split_and!; try lia. by rewrite (proj2 (Z.leb_gt _ _)) by lia.
    + rewrite Hsum in *. rewrite Z.mul_1_r, wrap64_id by (unfold int64_range; lia).
      split_and!; try lia. by rewrite (proj2 (Z.leb_gt _ _)) by lia.
Qed.

(** The draw [r] picks [c]. *)
Definition picks (l : list Channel) (c : Channel) (r : Z) : bool :=
  match choose_weighted (λ _, r) l with Ok d => bool_decide (d = c) | Err _ => false end.

Lemma pick_weighted_some f a l r :
  Forall (λ c, 0 <= GetWeight c) l -> 0 <= f <= 100 -> 0 <= a <= 100 -> total 100 100 l < 2 ^ 62 ->
  0 <= r < total f a l -> ∃ d, d ∈ l ∧ pick_weighted f a l r = Some d.
Proof.
  intros Hl Hf Ha. revert r. induction Hl as [|c l Hc Hl IH]; intros r Ht Hr; [simpl in Hr; lia|].
  pose proof (total_mono f a (c :: l) ltac:(by constructor) Hf Ha) as Hm.
  rewrite pick_weighted_exact; [|by constructor|done|done|done|lia].
  destruct (Z.ltb_spec r (effective f a c)); [exists c; split; [left|done]|].
  pose proof (total_mono 100 100 [c] ltac:(by apply Forall_singleton) ltac:(lia) ltac:(lia)).
  simpl in *. destruct (IH (r - effective f a c)) as (d & ? & ?); [lia|lia|]. exists d. split; [by right|done].
Qed.

(** C36. Among the channels of the target priority that the memory index gives, when
    these are distinct and their weights in range, every draw picks one, and each
    channel is picked by exactly as many draws as its effective weight, out of a total
    that is the sum of these weights: the choice is proportional. (The draw from the
    database is another one, and not proportional.) *)
Theorem selection_is_proportional l c :
  NoDup l -> sane_weights l -> c ∈ l ->
  (∀ r, 0 <= r < draws l -> ∃ d, d ∈ l ∧ choose_weighted (λ _, r) l = Ok d) ∧
  length (filter (λ r, picks l c r = true) (seqZ 0 (draws l)))
    = Z.to_nat (effective (smoothing_of l).1 (smoothing_of l).2 c).
Proof.
  intros Hnd Hs Hc. assert (l ≠ []) as Hne by (by destruct l; [apply elem_of_nil in Hc|]).
  pose proof Hs as [Hl Ht]. destruct (choose_weighted_draws id l Hne Hs) as (Hd & Hf & Ha & _).
  pose proof (λ r, proj2 (proj2 (proj2 (choose_weighted_draws (λ _, r) l Hne Hs)))) as Hch.
  unfold picks. set (f := (smoothing_of l).1) in *. set (a := (smoothing_of l).2) in *.
  assert (draws l = total f a l) as Hdr by done. clearbody f a. split.
  { intros r Hr. destruct (pick_weighted_some f a l r Hl Hf Ha Ht) as (d & Hin & Hp); [lia|].
    exists d. by rewrite Hch, Hp. }
  apply list_elem_of_split in Hc as (l1 & l2 & ->).
  assert (∀ r, 0 <= r < draws (l1 ++ c :: l2) -> pick_weighted f a (l1 ++ c :: l2) r = Some c <->
    total f a l1 <= r < total f a l1 + effective f a c) as Hint.
  { intros r Hr. apply pick_weighted_interval; done || lia. }
  assert (total f a (l1 ++ c :: l2) = total f a l1 + effective f a c + total f a l2) as Hsplit.
  { clear. induction l1 as [|d l1 IH]; simpl; lia. }
  apply Forall_app in Hl as [Hl1 [Hlc Hl2]%Forall_cons].
  assert (0 <= total f a l1 ∧ 0 <= total f a l2) as [? ?].
  { split; apply total_mono; done. }
  rewrite <- (count_interval (draws (l1 ++ c :: l2)) (total f a l1) (effective f a c)).
  - f_equal. apply list_filter_iff'.
    intros r Hr%elem_of_seqZ. rewrite <- Hint by lia. rewrite Hch.
    destruct (pick_weighted f a (l1 ++ c :: l2) r); [|done]. rewrite bool_decide_eq_true. naive_solver.
  - lia.
  - unfold effective. nia.
  - lia.
Qed.

(** ** Choosing by priority *)

#[local] Instance falling_trans : Transitive falling.
Proof. intros x y z. unfold falling. lia. Qed.
#[local] Instance falling_total : Total falling.
Proof. intros x y. unfold falling. lia. Qed.

(** In a strictly falling list the elements before a position are those above it. *)
Lemma count_higher (ps : list Z) k p :
  StronglySorted falling ps -> NoDup ps -> ps !! k = Some p -> length (filter (λ q, p < q) ps) = k.
Proof.
  intros Hs. revert k. induction Hs as [|x ps Hs IH Hx]; intros k Hnd Hk; [done|].
  apply NoDup_cons in Hnd as [Hni Hnd]. rewrite Forall_forall in Hx. destruct k as [|k].
  - injection Hk as ->. rewrite filter_cons_False by lia. rewrite filter_none; [done|].
    intros q Hq. specialize (Hx q Hq). unfold falling in Hx. lia.
  - simpl in Hk. pose proof (list_elem_of_lookup_2 _ _ _ Hk) as Hin. specialize (Hx p Hin). unfold falling in Hx.
    rewrite filter_cons_True by (assert (x ≠ p) by congruence; lia). simpl. f_equal. by apply IH.
Qed.

Lemma target_priority_rank l retry p :
  0 <= retry -> target_priority l retry = Some p ->
  p ∈ GetPriority <$> l ∧
  Z.of_nat (length (filter (λ q, p < q) (remove_dups (GetPriority <$> l))))
    = Z.min retry (Z.of_nat (length (remove_dups (GetPriority <$> l))) - 1).
Proof.
  intros Hr. unfold target_priority, sortedUniquePriorities.
  set (us := remove_dups (GetPriority <$> l)). set (ps := merge_sort falling us).
  assert (ps ≡ₚ us) as Hp by apply merge_sort_Permutation.
  assert (length ps = length us) as Hlen by (by rewrite Hp).
  set (k := if Z.of_nat (length ps) <=? retry then Z.of_nat (length ps) - 1 else retry).
  destruct (Z.ltb_spec k 0) as [|Hk]; [done|]. intros Hps. split.
  - apply elem_of_remove_dups. fold us. rewrite <- Hp. by eapply list_elem_of_lookup_2.
  - assert (length (filter (λ q, p < q) us) = Z.to_nat k) as ->.
    { rewrite <- Hp. apply count_higher; [apply StronglySorted_merge_sort; apply _| |done].
      rewrite Hp. apply NoDup_remove_dups. }
    subst k. rewrite Hlen in *. destruct (Z.leb_spec (Z.of_nat (length us)) retry); lia.
Qed.

Lemma pick_weighted_in f a l r c : pick_weighted f a l r = Some c -> c ∈ l.
Proof.
  revert r. induction l as [|d l IH]; intros r; [done|]. simpl.
  destruct (_ <? 0); [intros [= ->]; left|]. intros H%IH. by right.
Qed.

Lemma choose_weighted_in Intn l c : choose_weighted Intn l = Ok c -> c ∈ l.
Proof.
  unfold choose_weighted. destruct (smoothing _ _) as [[sw f] a]. destruct (_ <=? 0); [done|].
  destruct (pick_weighted _ _ _ _) eqn:E; [|done]. intros [= ->]. by eapply pick_weighted_in.
Qed.

Lemma resolve_in cache ids l c :
  resolve cache ids = Ok l -> c ∈ l -> ∃ id, id ∈ ids ∧ channelsIDM cache !! id = Some c.
Proof.
  revert l. induction ids as [|id ids IH]; intros l; simpl; [intros [= <-] H%elem_of_nil; done|].
  destruct (channelsIDM cache !! id) as [d|] eqn:E; [|done].
  destruct (resolve cache ids) as [l'|]; [|done]. intros [= <-] [->|H]%elem_of_cons.
  - exists id. split; [left|done].
  - destruct (IH l' eq_refl H) as (id' & ? & ?). exists id'. split; [by right|done].
Qed.

Lemma candidates_in cache g m path id :
  id ∈ candidates cache g m path ->
  (id ∈ ids_at cache g m ∨ id ∈ ids_at cache g (FormatMatchingModelName m)) ∧
  (path = "" ∨ path_allows cache path id = true).
Proof.
  assert (∀ l, id ∈ filterChannelsByRequestPath cache l path ->
    id ∈ l ∧ (path = "" ∨ path_allows cache path id = true)) as Hf.
  { intros l. unfold filterChannelsByRequestPath. destruct (bool_decide_reflect (path = "")); simpl; [tauto|].
    destruct (bool_decide_reflect (l = [])) as [->|]; [intros H%elem_of_nil; done|].
    intros [H1 H2]%list_elem_of_In%filter_In. split; [by apply list_elem_of_In|by right]. }
  unfold candidates. destruct (filterChannelsByRequestPath cache (ids_at cache g m) path) as [|x l] eqn:E.
  - intros [? ?]%Hf. tauto.
  - rewrite <- E. intros [? ?]%Hf. tauto.
Qed.

Definition distinct_of (l : list Channel) : list Z := remove_dups (GetPriority <$> l).

(** The channel the index gives for a request is listed for the group under the
    model's name or its normal form, accepts the request path, and has the priority
    the retry asks for: exactly min(retry, n - 1) of the n distinct priorities among
    the candidates are higher. *)
Theorem selection_sound Intn cache g m path retry c :
  choose_cached Intn cache g m path retry = Ok (Some c) -> 0 <= retry ->
  ∃ id l, channelsIDM cache !! id = Some c ∧
    (id ∈ ids_at cache g m ∨ id ∈ ids_at cache g (FormatMatchingModelName m)) ∧
    (path = "" ∨ path_allows cache path id = true) ∧
    resolve cache (candidates cache g m path) = Ok l ∧
    Z.of_nat (length (filter (λ q, GetPriority c < q) (distinct_of l)))
      = Z.min retry (Z.of_nat (length (distinct_of l)) - 1).
Proof.
  intros Hc Hr. unfold choose_cached in Hc. destruct (candidates cache g m path) as [|id1 [|id2 ids]] eqn:Ecand; [done| |].
  - destruct (channelsIDM cache !! id1) as [d|] eqn:Ed; [|done]. simplify_eq.
    destruct (candidates_in cache g m path id1) as [H1 H2]; [rewrite Ecand; left|].
    exists id1, [c]. split_and!; [done|done|done|simpl; by rewrite Ed|].
    unfold distinct_of. simpl. rewrite filter_cons_False by lia. simpl. lia.
  - destruct (resolve cache (id1 :: id2 :: ids)) as [l|] eqn:El; [|done].
    destruct (target_priority l retry) as [target|] eqn:Et; [|done].
    destruct (choose_weighted _ _) as [d|] eqn:Ew; [|done]. simplify_eq.
    apply choose_weighted_in in Ew. apply list_elem_of_In, filter_In in Ew as [Hin Hp].
    apply Z.eqb_eq in Hp. apply list_elem_of_In in Hin.
    destruct (resolve_in _ _ _ _ El Hin) as (id & Hid & Hlook).
    rewrite <- Ecand in Hid. apply candidates_in in Hid as [H1 H2].
    exists id, l. split_and!; [done|done|done|done|]. rewrite Hp.
    by apply (target_priority_rank l retry target).
Qed.
