(* ===== verification/KeyProps.v ===== *)
(** * KeyProps: rotation over the keys of a channel, and its last key

    Polling visits the enabled keys in turn: as many calls as there are enabled
    keys return each of them once.  Switching keys off one by one takes the channel
    out of service exactly with the last. *)

From S2P Require Export AbilityProps.
From S2P Require Import Prelude.

(** ** Rotation *)

Section rotation.
Context (statusList : gmap Z Z) (n : nat).

Definition enabled_from (start : Z) : list Z := List.filter (key_enabled statusList) (poll_order start n).

(** Starting behind the [j]-th element, the same elements follow in a circle. *)
Lemma poll_order_rotate start j :
  (j < n)%nat ->
  let f i := (start + Z.of_nat i) mod Z.of_nat n in
  poll_order ((f j + 1) mod Z.of_nat n) n = (f <$> seq (S j) (n - S j)) ++ (f <$> seq 0 (S j)).
Proof.
  intros Hj f. unfold poll_order.
  assert ((λ i, ((f j + 1) mod Z.of_nat n + Z.of_nat i) mod Z.of_nat n) <$> seq 0 n = f <$> seq (S j) n) as ->.
  { replace (S j) with (S j + 0)%nat by lia. rewrite <- (fmap_add_seq (S j) 0 n), <- list_fmap_compose.
    apply list_fmap_ext. intros _ i _. simpl. unfold f.
    rewrite Zplus_mod_idemp_l, <- Z.add_assoc, Zplus_mod_idemp_l. f_equal. lia. }
  replace (seq (S j) n) with (seq (S j) ((n - S j) + S j)) by (f_equal; lia).
  rewrite seq_app, fmap_app. f_equal.
  replace (S j + (n - S j))%nat with (n + 0)%nat by lia.
  rewrite <- (fmap_add_seq n 0 (S j)), <- list_fmap_compose. apply list_fmap_ext. intros _ i _. simpl. unfold f.
  replace (start + Z.of_nat (n + i)) with (start + Z.of_nat i + 1 * Z.of_nat n) by lia.
  apply Z_mod_plus_full.
Qed.

(** One call returns the first enabled key and moves it to the end of the queue. *)
Lemma poll_step start e es :
  enabled_from start = e :: es ->
  poll statusList start n = Some e ∧ enabled_from ((e + 1) mod Z.of_nat n) = es ++ [e].
Proof.
  unfold enabled_from, poll. intros He.
  assert (∃ j, (j < n)%nat ∧ e = (start + Z.of_nat j) mod Z.of_nat n ∧ key_enabled statusList e = true ∧
    List.find (key_enabled statusList) (poll_order start n) = Some e ∧
    List.filter (key_enabled statusList) ((λ i, (start + Z.of_nat i) mod Z.of_nat n) <$> seq 0 j) = [] ∧
    List.filter (key_enabled statusList) ((λ i, (start + Z.of_nat i) mod Z.of_nat n) <$> seq (S j) (n - S j)) = es)
    as (j & Hj & -> & Hen & Hfind & Hbefore & Hafter).
  { revert He. unfold poll_order. set (f := λ i, (start + Z.of_nat i) mod Z.of_nat n).
    assert (∀ k m, (k + m = n)%nat -> List.filter (key_enabled statusList) (f <$> seq 0 k) = [] ->
      List.filter (key_enabled statusList) (f <$> seq k m) = e :: es ->
      ∃ j, (j < n)%nat ∧ e = f j ∧ key_enabled statusList e = true ∧
        List.find (key_enabled statusList) (f <$> seq k m) = Some e ∧
        List.filter (key_enabled statusList) (f <$> seq 0 j) = [] ∧
        List.filter (key_enabled statusList) (f <$> seq (S j) (n - S j)) = es) as H.
    { intros k m. revert k. induction m as [|m IH]; intros k Hk Hb Hf; [done|]. simpl in Hf |- *.
      destruct (key_enabled statusList (f k)) eqn:E.
      - injection Hf as <- <-. exists k. split_and!; [lia|done|done|done|done|].
        by replace (n - S k)%nat with m by lia.
      - apply (IH (S k)); [lia| |done]. rewrite seq_S, fmap_app, List.filter_app, Hb. simpl. by rewrite E. }
    intros He. apply (H 0%nat n); done. }
  split; [done|]. rewrite (poll_order_rotate start j Hj), List.filter_app, Hafter. f_equal.
  rewrite seq_S, fmap_app, List.filter_app, Hbefore. simpl. by rewrite Hen.
Qed.

(** The indexes [m] calls in a row return. *)
Fixpoint polls (m : nat) (start : Z) : list Z :=
  match m with
  | O => []
  | S m => match poll statusList start n with
           | Some e => e :: polls m ((e + 1) mod Z.of_nat n)
           | None => []
           end
  end.

Lemma polls_prefix start es1 es2 :
  enabled_from start = es1 ++ es2 -> polls (length es1) start = es1.
Proof.
  revert start es2. induction es1 as [|e es1 IH]; intros start es2 He; [done|]. simpl.
  destruct (poll_step start e (es1 ++ es2) He) as [-> Hn]. f_equal.
  apply (IH _ (es2 ++ [e])). by rewrite Hn, app_assoc.
Qed.

Lemma bool_filter_perm {A} (p : A -> bool) l l' : l ≡ₚ l' -> List.filter p l ≡ₚ List.filter p l'.
Proof.
  induction 1 as [|x l l' _ IH|x y l|l1 l2 l3 _ IH1 _ IH2]; simpl; [done| | |by rewrite IH1].
  - destruct (p x); by rewrite IH.
  - destruct (p x), (p y); try done. constructor.
Qed.

(** Whatever the start, the enabled keys are the same. *)
Lemma enabled_from_perm start :
  0 <= start < Z.of_nat n -> enabled_from start ≡ₚ enabledIdx statusList n.
Proof.
  intros Hs. unfold enabled_from, enabledIdx. apply bool_filter_perm.
  assert ((λ i, (0 + Z.of_nat i) mod Z.of_nat n) <$> seq 0 n = Z.of_nat <$> seq 0 n) as Hid.
  { apply list_fmap_ext. intros _ i Hi%list_elem_of_lookup_2%elem_of_seq. simpl. rewrite Z.mod_small; lia. }
  destruct (decide (start = 0)) as [->|Hne]; [unfold poll_order; by rewrite Hid|].
  pose proof (poll_order_rotate 0 (Z.to_nat (start - 1)) ltac:(lia)) as Hrot. simpl in Hrot.
  rewrite (Z.mod_small (Z.of_nat (Z.to_nat (start - 1)))) in Hrot by lia.
  rewrite Z.mod_small in Hrot by lia.
  replace (Z.of_nat (Z.to_nat (start - 1)) + 1) with start in Hrot by lia. rewrite Hrot, <- Hid.
  replace (seq 0 n) with (seq 0 (S (Z.to_nat (start - 1)) + (n - S (Z.to_nat (start - 1))))) by (f_equal; lia).
  rewrite seq_app, fmap_app. apply Permutation_app_comm.
Qed.

Lemma polls_all start :
  0 <= start < Z.of_nat n -> polls (length (enabledIdx statusList n)) start ≡ₚ enabledIdx statusList n.
Proof.
  intros Hs. pose proof (enabled_from_perm start Hs) as Hp. rewrite <- Hp at 1.
  rewrite (polls_prefix start (enabled_from start) []) by (by rewrite app_nil_r). done.
Qed.
End rotation.

(** ** Polling a cached channel *)

Section polling.
Context {CC : ChannelConfig} (Intn : Z -> Z).

(** [m] requests to the channel, each with the object the cache holds then. *)
Fixpoint next_keys (m : nat) (id : Z) (s : CW) : list (result (string * Z)) :=
  match m with
  | O => []
  | S m =>
      match channelsIDM (cw_cache s) !! id with
      | None => []
      | Some c => let '(r, s') := GetNextEnabledKey Intn c s in r :: next_keys m id s'
      end
  end.

Definition poll_start (c : Channel) : Z :=
  let n := Z.of_nat (length (GetKeys c)) in
  let start := MultiKeyPollingIndex (Info c) in
  if (start <? 0) || (n <=? start) then 0 else start.

Lemma GetNextEnabledKey_polls c s e :
  MemoryCacheEnabled = true -> channelsIDM (cw_cache s) !! Id c = Some c ->
  IsMultiKey (Info c) = true -> MultiKeyMode (Info c) = MultiKeyModePolling ->
  poll (MultiKeyStatusList (Info c)) (poll_start c) (length (GetKeys c)) = Some e ->
  ∃ s', GetNextEnabledKey Intn c s = (Ok (key_at (GetKeys c) e, e), s') ∧
    channelsIDM (cw_cache s') !! Id c
      = Some (set_Info (set_polling_index ((e + 1) mod Z.of_nat (length (GetKeys c))) (Info c)) c).
Proof.
  intros Hmc Hc Hmk Hmode Hp.
  assert (enabledIdx (MultiKeyStatusList (Info c)) (length (GetKeys c)) ≠ []) as Hne.
  { intros Hnil. apply List.find_some in Hp as [Hin Hen].
    unfold poll_order in Hin. apply list_elem_of_In, list_elem_of_fmap in Hin as (i & -> & Hi%elem_of_seq).
    assert (0 < Z.of_nat (length (GetKeys c))) as Hpos by lia.
    pose proof (Z.mod_pos_bound (poll_start c + Z.of_nat i) _ Hpos) as Hb. revert Hen Hb.
    generalize ((poll_start c + Z.of_nat i) mod Z.of_nat (length (GetKeys c))). intros e Hen Hb.
    assert (e ∈ enabledIdx (MultiKeyStatusList (Info c)) (length (GetKeys c))) as Hx.
    { apply list_elem_of_In, filter_In. split; [|done]. apply list_elem_of_In, list_elem_of_fmap.
      exists (Z.to_nat e). rewrite elem_of_seq. lia. }
    rewrite Hnil in Hx. by apply elem_of_nil in Hx. }
  eexists. split.
  - unfold GetNextEnabledKey. rewrite Hmk. simpl negb. cbv iota zeta.
    destruct (length (GetKeys c)) as [|n] eqn:En; [done|]. rewrite <- En in *.
    destruct (enabledIdx _ _) as [|x xs] eqn:Eidx; [done|].
    rewrite decide_False by (by rewrite Hmode). rewrite decide_True by done.
    unfold bind, map_err, CacheGetChannelInfo, CacheGetChannel, bind. rewrite Hmc. simpl negb. cbv iota.
    unfold gets at 1, lift_option. simpl. rewrite Hc. simpl. fold (poll_start c). rewrite Hp.
    unfold store_polling_index. rewrite Hmc. simpl. reflexivity.
  - simpl. rewrite lookup_alter_eq, Hc. done.
Qed.

Lemma GetKeys_polling c i : GetKeys (set_Info (set_polling_index i (Info c)) c) = GetKeys c.
Proof. done. Qed.

Lemma next_keys_polls m c s :
  MemoryCacheEnabled = true -> channelsIDM (cw_cache s) !! Id c = Some c ->
  IsMultiKey (Info c) = true -> MultiKeyMode (Info c) = MultiKeyModePolling ->
  length (polls (MultiKeyStatusList (Info c)) (length (GetKeys c)) m (poll_start c)) = m ->
  next_keys m (Id c) s = (λ i, Ok (key_at (GetKeys c) i, i)) <$>
    polls (MultiKeyStatusList (Info c)) (length (GetKeys c)) m (poll_start c).
Proof.
  intros Hmc. revert c s. induction m as [|m IH]; intros c s Hc Hmk Hmode Hlen; [done|].
  cbn [polls next_keys] in *. rewrite Hc. destruct (poll _ _ _) as [e|] eqn:Ep; [|done].
  destruct (GetNextEnabledKey_polls c s e Hmc Hc Hmk Hmode Ep) as (s' & -> & Hc').
  rewrite fmap_cons. f_equal. simpl in Hlen. injection Hlen as Hlen.
  set (c' := set_Info _ c) in Hc'.
  assert (poll_start c' = (e + 1) mod Z.of_nat (length (GetKeys c))) as Hst.
  { unfold poll_start. change (GetKeys c') with (GetKeys c). subst c'. simpl.
    apply List.find_some in Ep as [Hin _]. unfold poll_order in Hin.
    apply list_elem_of_In, list_elem_of_fmap in Hin as (i & _ & Hi%elem_of_seq).
    assert (0 < Z.of_nat (length (GetKeys c))) as Hpos by lia.
    pose proof (Z.mod_pos_bound (e + 1) _ Hpos).
    rewrite (proj2 (orb_false_iff _ _)); [done|]. split; lia. }
  specialize (IH c' s' Hc' Hmk Hmode). change (GetKeys c') with (GetKeys c) in IH.
  change (MultiKeyStatusList (Info c')) with (MultiKeyStatusList (Info c)) in IH.
  rewrite Hst in IH. by apply IH.
Qed.

(** C37. Polling is fair on a node with memory cache: as many requests, one after the
    other, as a cached multi-key channel in polling mode has enabled keys use each of
    these keys exactly once, whatever the index they start from. *)
Theorem polling_is_fair c s :
  MemoryCacheEnabled = true -> channelsIDM (cw_cache s) !! Id c = Some c ->
  IsMultiKey (Info c) = true -> MultiKeyMode (Info c) = MultiKeyModePolling -> GetKeys c ≠ [] ->
  ∃ idxs, idxs ≡ₚ enabledIdx (MultiKeyStatusList (Info c)) (length (GetKeys c)) ∧
    next_keys (length idxs) (Id c) s = (λ i, Ok (key_at (GetKeys c) i, i)) <$> idxs.
Proof.
  intros Hmc Hc Hmk Hmode Hk. set (n := length (GetKeys c)).
  assert (0 <= poll_start c < Z.of_nat n) as Hs.
  { assert (0 < Z.of_nat n) by (subst n; destruct (GetKeys c); simpl; [done|lia]).
    unfold poll_start. fold n. destruct ((_ <? 0) || _) eqn:E; [lia|]. apply orb_false_iff in E. lia. }
  pose proof (polls_all (MultiKeyStatusList (Info c)) n (poll_start c) Hs) as Hp.
  pose proof (Permutation_length Hp) as Hlen. eexists. split; [exact Hp|]. rewrite Hlen.
  by apply next_keys_polls.
Qed.
End polling.

(** ** The last key *)

Section status.
Context {CC : ChannelConfig}.

(** An enabled multi-key channel has a key to serve with. *)
Definition has_key (c : Channel) : Prop :=
  Status c = ChannelStatusEnabled -> GetKeys c ≠ [] ->
  hasEnabledMultiKey (GetKeys c) (MultiKeyStatusList (Info c)) = true.

Lemma has_enabled_idx keys statusList :
  hasEnabledMultiKey keys statusList = true <-> enabledIdx statusList (length keys) ≠ [].
Proof.
  unfold hasEnabledMultiKey, enabledIdx. rewrite existsb_exists. split.
  - intros (i & Hi & He) Hnil. assert (i ∈ List.filter (key_enabled statusList) (Z.of_nat <$> seq 0 (length keys))) as H.
    { apply list_elem_of_In, filter_In. done. }
    rewrite Hnil in H. by apply elem_of_nil in H.
  - destruct (List.filter _ _) as [|i l] eqn:E; [done|]. intros _. exists i.
    apply filter_In. rewrite E. by left.
Qed.

(** Switching keys keeps a multi-key channel honest: after any change of a key's
    status a channel that counts as enabled has an enabled key, a channel loses its
    service exactly with its last enabled key, and no key but the one in use is
    touched. *)
Theorem multi_key_update_keeps_service c usingKey status reason now :
  has_key c -> usingKey ≠ "" ->
  let c' := handlerMultiKeyUpdate c usingKey status reason now in
  has_key c' ∧
  (GetKeys c ≠ [] -> key_index (GetKeys c) usingKey ≠ None ->
    (enabledIdx (MultiKeyStatusList (Info c')) (length (GetKeys c)) = [] ->
       Status c' = ChannelStatusAutoDisabled) ∧
    (status ≠ ChannelStatusEnabled ->
       enabledIdx (MultiKeyStatusList (Info c')) (length (GetKeys c)) ≠ [] -> Status c' = Status c)) ∧
  (∀ i, key_index (GetKeys c) usingKey ≠ Some i ->
    MultiKeyStatusList (Info c') !! i = MultiKeyStatusList (Info c) !! i).
Proof.
  intros Hk Hu c'. subst c'. unfold handlerMultiKeyUpdate.
  destruct (GetKeys c) as [|k ks] eqn:Ek.
  { split_and!; [|done|done]. intros _ H. change (GetKeys (set_Status status c)) with (GetKeys c) in H. congruence. }
  destruct (key_index (k :: ks) usingKey) as [idx|] eqn:Ei.
  2: { rewrite decide_False by done. split_and!; [done|done|done]. }
  set (c1 := set_Info _ c).
  assert (∀ i, Some idx ≠ Some i -> MultiKeyStatusList (Info c1) !! i = MultiKeyStatusList (Info c) !! i) as Hother.
  { intros i Hi. subst c1. simpl. unfold set_key_status. destruct (status =? _); simpl;
      [rewrite lookup_delete_ne|rewrite lookup_insert_ne]; congruence. }
  pose proof (has_enabled_idx (k :: ks) (MultiKeyStatusList (Info c1))) as Hh.
  destruct (hasEnabledMultiKey (k :: ks) (MultiKeyStatusList (Info c1))) eqn:Een; simpl negb; cbv iota.
  - assert (enabledIdx (MultiKeyStatusList (Info c1)) (length (k :: ks)) ≠ []) as Hne by tauto.
    destruct (Z.eqb_spec status ChannelStatusEnabled) as [E|E].
    + split_and!; [|intros _ _; split; [done|done]|done].
      intros _ _. change (GetKeys (set_Status ChannelStatusEnabled c1)) with (GetKeys c). by rewrite Ek.
    + split_and!; [|intros _ _; split; [done|done]|done].
      intros _ _. change (GetKeys c1) with (GetKeys c). by rewrite Ek.
  - split_and!; [done| |done]. intros _ _. split; [done|]. intros _ Hne. simpl in Hne.
    apply Hh in Hne. done.
Qed.
End status.
