(* ===== verification/RelayRetry.v ===== *)
(** * RelayRetry: choosing a group and retrying a request

    Models [service/channel_select.go], [service/group.go], [shouldRetry] and the
    retry loop of [controller/relay.go].  What lies outside is an environment: which
    channel the model package gives for a group and a retry number at each attempt
    (ChannelCache models it), and what the upstream answers. *)

From S2P Require Export ChannelCache.
From S2P Require Export StatusCodes.
From S2P Require Import Prelude.

(** ** Usable groups ([service/group.go]) *)

(** [special] is the special setting of the user's group, in the order the loop
    meets its entries. *)
Definition special_group (groups : gmap string string) (entry : string * string) : gmap string string :=
  let '(group, desc) := entry in
  if HasPrefix group "-:" then delete (TrimPrefix group "-:") groups
  else if HasPrefix group "+:" then <[TrimPrefix group "+:" := desc]> groups
  else <[group := desc]> groups.

Definition GetUserUsableGroups (usable : gmap string string) (special : list (string * string))
    (userGroup : string) : gmap string string :=
  if decide (userGroup = "") then usable
  else
    let groups := foldl special_group usable special in
    match groups !! userGroup with
    | Some _ => groups
    | None => <[userGroup := "用户分组"]> groups
    end.

Definition GetUserAutoGroup (usable : gmap string string) (special : list (string * string))
    (autoGroups : list string) (userGroup : string) : list string :=
  List.filter (λ g, bool_decide (is_Some (GetUserUsableGroups usable special userGroup !! g))) autoGroups.

(** ** The retry parameter ([service/channel_select.go]) *)

Record RetryParam : Type := mkRetryParam {
  TokenGroup : string;
  Retry : option Z;
  resetNextTry : bool;
}.

Definition GetRetry (p : RetryParam) : Z := default 0 (Retry p).
Definition SetRetry (retry : Z) (p : RetryParam) : RetryParam :=
  mkRetryParam (TokenGroup p) (Some retry) (resetNextTry p).
Definition IncreaseRetry (p : RetryParam) : RetryParam :=
  if resetNextTry p then mkRetryParam (TokenGroup p) (Retry p) false
  else mkRetryParam (TokenGroup p) (Some (GetRetry p + 1)) false.
Definition ResetRetryNextTry (p : RetryParam) : RetryParam :=
  mkRetryParam (TokenGroup p) (Retry p) true.

(** What the request's context keeps of the automatic group. *)
Record AutoCtx : Type := mkAutoCtx {
  AutoGroupIndex : option Z;
  AutoGroupRetryIndex : option Z;
  AutoGroup : option string;
}.

Section retry.
Context (RetryTimes : Z) (crossGroupRetry : bool) (autoGroups : list string) (userAutoGroups : list string).

(** The loop over the groups from [i] on; [start] is the first. *)
Fixpoint auto_loop (sel : string -> Z -> found) (start i : Z) (groups : list string)
    (p : RetryParam) (ctx : AutoCtx) : option Channel * string * RetryParam * AutoCtx :=
  match groups with
  | [] => (None, TokenGroup p, p, ctx)
  | autoGroup :: groups =>
      let priorityRetry := if start <? i then 0 else GetRetry p in
      match (sel autoGroup priorityRetry).1 with
      | None =>
          auto_loop sel start (i + 1) groups (SetRetry 0 p)
            (mkAutoCtx (Some (i + 1)) (Some 0) (AutoGroup ctx))
      | Some channel =>
          if crossGroupRetry && (RetryTimes <=? priorityRetry) then
            (Some channel, autoGroup, ResetRetryNextTry (SetRetry 0 p),
             mkAutoCtx (Some (i + 1)) (AutoGroupRetryIndex ctx) (Some autoGroup))
          else
            (Some channel, autoGroup, p,
             mkAutoCtx (Some i) (AutoGroupRetryIndex ctx) (Some autoGroup))
      end
  end.

(** The channel, the group it was found in, and the error. *)
Definition CacheGetRandomSatisfiedChannel (sel : string -> Z -> found) (p : RetryParam) (ctx : AutoCtx)
    : option Channel * string * option error * RetryParam * AutoCtx :=
  if decide (TokenGroup p = "auto") then
    match autoGroups with
    | [] => (None, TokenGroup p, Some (EText "auto groups is not enabled"), p, ctx)
    | _ =>
        let start := default 0 (AutoGroupIndex ctx) in
        let '(channel, group, p, ctx) :=
          auto_loop sel start start (drop (Z.to_nat start) userAutoGroups) p ctx in
        (channel, group, None, p, ctx)
    end
  else
    match sel (TokenGroup p) (GetRetry p) with
    | (_, Some e) => (None, TokenGroup p, Some e, p, ctx)
    | (channel, None) => (channel, TokenGroup p, None, p, ctx)
    end.

(** ** Retrying ([controller/relay.go]) *)

(** The fields of a [types.NewAPIError]. *)
Definition StatusCode (e : error) : Z := match e with EApi _ _ st _ _ => st | _ => 500 end.
Definition IsChannelError (e : error) : bool := HasPrefix (GetErrorCode e) "channel:".
Definition IsSkipRetryError (e : error) : bool := match e with EApi _ _ _ skip _ => skip | _ => false end.

Context (retryRanges : list StatusCodeRange) (affinitySkip specificChannel : bool).

Definition shouldRetry (e : error) (retryTimes : Z) : bool :=
  if affinitySkip then false
  else if IsChannelError e then true
  else if IsSkipRetryError e then false
  else if retryTimes <=? 0 then false
  else if specificChannel then false
  else
    let code := StatusCode e in
    if (200 <=? code) && (code <? 300) then false
    else if (code <? 100) || (599 <? code) then true
    else if IsAlwaysSkipRetryCode (GetErrorCode e) then false
    else ShouldRetryByStatusCode retryRanges code.

(** What happens around attempt number [n]: the channel the model package gives, the
    error of preparing the request for it, the error of re-reading the body, and the
    error of the upstream. *)
Record Env : Type := mkEnv {
  env_select : nat -> string -> Z -> found;
  env_setup : nat -> Channel -> option error;
  env_body : nat -> option error;
  env_relay : nat -> Channel -> option error;
}.

(** [getChannel]: the first attempt uses the channel the distributor chose. *)
Definition getChannel (env : Env) (n : nat) (chosen : Channel) (p : RetryParam) (ctx : AutoCtx)
    : result Channel * RetryParam * AutoCtx :=
  match n with
  | O => (Ok chosen, p, ctx)
  | S _ =>
      let '(channel, group, err, p, ctx) := CacheGetRandomSatisfiedChannel (env_select env n) p ctx in
      match err, channel with
      | Some e, _ => (Err (NewError_skipRetry (EWrap ("获取分组 " +:+ group +:+ " 下的可用渠道失败（retry）: ") e) "get_channel_failed"), p, ctx)
      | None, None => (Err (NewError_skipRetry (EText ("分组 " +:+ group +:+ " 下的可用渠道不存在（retry）")) "get_channel_failed"), p, ctx)
      | None, Some c =>
          match env_setup env n c with
          | Some e => (Err e, p, ctx)
          | None => (Ok c, p, ctx)
          end
      end
  end.

(** The loop of [Relay]: the channels used and the error the request ends with,
    [None] when the rounds are not enough. *)
Fixpoint relay_loop (rounds : nat) (env : Env) (n : nat) (chosen : Channel) (p : RetryParam)
    (ctx : AutoCtx) (used : list Z) (last : option error) : option (list Z * option error) :=
  match rounds with
  | O => None
  | S rounds =>
      if RetryTimes <? GetRetry p then Some (used, last)
      else
        match getChannel env n chosen p ctx with
        | (Err e, _, _) => Some (used, Some e)
        | (Ok c, p, ctx) =>
            let used := used ++ [Id c] in
            match env_body env n with
            | Some e => Some (used, Some e)
            | None =>
                match env_relay env n c with
                | None => Some (used, None)
                | Some e =>
                    if shouldRetry e (RetryTimes - GetRetry p)
                    then relay_loop rounds env (S n) chosen (IncreaseRetry p) ctx used (Some e)
                    else Some (used, Some e)
                end
            end
        end
  end.

Definition relay (rounds : nat) (env : Env) (chosen : Channel) (group : string) (ctx : AutoCtx)
    : option (list Z * option error) :=
  relay_loop rounds env 0 chosen (mkRetryParam group (Some 0) false) ctx [] None.

(** ** Termination *)

(** What is left to try: a full budget per remaining group, and the rest of the
    current one. *)
Definition groups_left (ctx : AutoCtx) : Z :=
  Z.max 0 (Z.of_nat (length userAutoGroups) - default 0 (AutoGroupIndex ctx)).
Definition attempts_left (p : RetryParam) (ctx : AutoCtx) : Z :=
  (if decide (TokenGroup p = "auto") then groups_left ctx * (RetryTimes + 1) else 0)
  + (RetryTimes + 1 - GetRetry p).

Definition sound_ctx (ctx : AutoCtx) : Prop := 0 <= default 0 (AutoGroupIndex ctx).

Context (Hretry : 0 <= RetryTimes).

(** A group that gives a channel leaves less to try than there was. *)
Lemma auto_loop_progress sel start i groups p ctx c g p' ctx' :
  0 <= start <= i -> 0 <= GetRetry p <= RetryTimes -> resetNextTry p = false ->
  i + Z.of_nat (length groups) = Z.of_nat (length userAutoGroups) ->
  auto_loop sel start i groups p ctx = (Some c, g, p', ctx') ->
  TokenGroup p' = TokenGroup p ∧ sound_ctx ctx' ∧
  groups_left ctx' * (RetryTimes + 1) + (RetryTimes + 1 - GetRetry (IncreaseRetry p'))
    < (Z.of_nat (length userAutoGroups) - i) * (RetryTimes + 1) + (RetryTimes + 1 - GetRetry p) ∧
  0 <= GetRetry (IncreaseRetry p') ∧ resetNextTry (IncreaseRetry p') = false.
Proof.
  revert i p ctx. induction groups as [|ag groups IH]; intros i p ctx Hi Hr Hreset Hlen; [done|].
  cbn [auto_loop length] in *. destruct (sel ag _).1 as [d|].
  - destruct (crossGroupRetry && _); intros [= <- <- <- <-]; unfold sound_ctx, groups_left; simpl.
    + unfold IncreaseRetry, GetRetry in *. simpl. split_and!; try done; nia.
    + unfold IncreaseRetry. rewrite Hreset. unfold GetRetry in *. simpl. split_and!; try done; nia.
  - intros Hloop. apply IH in Hloop; [|lia|unfold GetRetry; simpl; lia|done|lia].
    destruct Hloop as (Ht & Hx & Hm & Hrest). split_and!; [done|done| |apply Hrest|apply Hrest].
    change (GetRetry (SetRetry 0 p)) with 0 in Hm. nia.
Qed.

Lemma getChannel_progress env n chosen p ctx c p' ctx' :
  0 <= GetRetry p <= RetryTimes -> resetNextTry p = false -> sound_ctx ctx ->
  getChannel env n chosen p ctx = (Ok c, p', ctx') ->
  TokenGroup p' = TokenGroup p ∧ sound_ctx ctx' ∧
  attempts_left (IncreaseRetry p') ctx' < attempts_left p ctx ∧
  0 <= GetRetry (IncreaseRetry p') ∧ resetNextTry (IncreaseRetry p') = false.
Proof.
  intros Hr Hreset Hctx.
  assert (TokenGroup (IncreaseRetry p) = TokenGroup p ∧ GetRetry (IncreaseRetry p) = GetRetry p + 1 ∧
    resetNextTry (IncreaseRetry p) = false) as (Hi1 & Hi2 & Hi3).
  { unfold IncreaseRetry. by rewrite Hreset. }
  assert (∀ ctx0, ctx0 = ctx -> TokenGroup p = TokenGroup p ∧ sound_ctx ctx0 ∧
    attempts_left (IncreaseRetry p) ctx0 < attempts_left p ctx ∧
    0 <= GetRetry (IncreaseRetry p) ∧ resetNextTry (IncreaseRetry p) = false) as Hsame.
  { intros ctx0 ->. unfold attempts_left. rewrite Hi1, Hi2. split_and!; [done|done|lia|lia|done]. }
  unfold getChannel. destruct n as [|n]; [intros [= <- <- <-]; by apply Hsame|].
  unfold CacheGetRandomSatisfiedChannel. destruct (decide (TokenGroup p = "auto")) as [Ha|Ha].
  - destruct autoGroups; [done|]. set (start := default 0 (AutoGroupIndex ctx)).
    destruct (auto_loop _ _ _ _ _ _) as [[[oc g] p1] ctx1] eqn:El.
    destruct oc as [d|]; [|done]. destruct (env_setup _ _ _); [done|]. intros [= <- <- <-].
    destruct (decide (start <= Z.of_nat (length userAutoGroups))) as [Hle|Hgt].
    + apply auto_loop_progress in El; [|unfold sound_ctx in Hctx; lia|done|done|].
      2: { rewrite length_drop. unfold sound_ctx in Hctx. fold start in Hctx. lia. }
      destruct El as (Ht & Hs & Hm & H0 & Hz). split_and!; [done|done| |done|done].
      unfold attempts_left, groups_left in *. fold start.
      assert (TokenGroup (IncreaseRetry p1) = "auto") as -> .
      { unfold IncreaseRetry. destruct (resetNextTry p1); simpl; congruence. }
      rewrite (decide_True (P := "auto" = "auto")), (decide_True (P := TokenGroup p = "auto")) by done.
      replace (Z.max 0 (Z.of_nat (length userAutoGroups) - start))
        with (Z.of_nat (length userAutoGroups) - start) by lia. lia.
    + rewrite drop_ge in El by lia. done.
  - destruct (env_select env (S n) (TokenGroup p) (GetRetry p)) as [oc [e|]]; [done|].
    destruct oc as [d|]; [|done]. destruct (env_setup _ _ _); [done|]. intros [= <- <- <-]. by apply Hsame.
Qed.

(** The loop ends within the attempts that are left, and uses no more channels. *)
Lemma relay_loop_ends rounds env n chosen p ctx used last :
  0 <= GetRetry p -> resetNextTry p = false -> sound_ctx ctx ->
  attempts_left p ctx < Z.of_nat rounds -> 0 < Z.of_nat rounds ->
  ∃ used' err, relay_loop rounds env n chosen p ctx used last = Some (used', err) ∧
    Z.of_nat (length used') <= Z.of_nat (length used) + Z.max 0 (attempts_left p ctx).
Proof.
  revert n p ctx used last. induction rounds as [|rounds IH]; intros n p ctx used last Hr Hreset Hctx Hm Hpos; [lia|].
  cbn [relay_loop]. destruct (Z.ltb_spec RetryTimes (GetRetry p)); [eexists _, _; split; [done|lia]|].
  assert (0 < attempts_left p ctx) as Hleft.
  { unfold attempts_left, groups_left. destruct (decide _); nia. }
  destruct (getChannel env n chosen p ctx) as [[[c|e] p1] ctx1] eqn:Eg; [|eexists _, _; split; [done|lia]].
  apply getChannel_progress in Eg as (_ & Hs1 & Hm1 & Hr1 & Hz1); [|lia|done|done].
  destruct (env_body env n); [eexists _, _; split; [done|rewrite length_app; simpl; lia]|].
  destruct (env_relay env n c) as [e|]; [|eexists _, _; split; [done|rewrite length_app; simpl; lia]].
  destruct (shouldRetry e _); [|eexists _, _; split; [done|rewrite length_app; simpl; lia]].
  destruct (IH (S n) (IncreaseRetry p1) ctx1 (used ++ [Id c]) (Some e)) as (used' & err & -> & Hlen);
    [done|done|done|lia|lia|].
  eexists _, _. split; [done|]. rewrite length_app in Hlen. simpl in Hlen. lia.
Qed.

(** C35. A relayed request ends: with a number of retries that is not negative and an
    index of groups that is none or not negative, whatever channels are offered and
    however upstreams fail, it makes at most [RetryTimes + 1] attempts in a plain group,
    and with automatic groups at most that many for each group and once more. *)
Theorem relay_makes_bounded_attempts env chosen group ctx :
  sound_ctx ctx ->
  let bound := (if decide (group = "auto") then Z.of_nat (length userAutoGroups) + 1 else 1) * (RetryTimes + 1) in
  ∃ used err, relay (Z.to_nat (bound + 1)) env chosen group ctx = Some (used, err) ∧
    Z.of_nat (length used) <= bound.
Proof.
  intros Hctx bound.
  assert (0 <= bound) as Hb by (subst bound; destruct (decide _); nia).
  assert (attempts_left (mkRetryParam group (Some 0) false) ctx <= bound) as Hleft.
  { unfold attempts_left, groups_left, bound, sound_ctx in *. unfold GetRetry. simpl. destruct (decide _); nia. }
  destruct (relay_loop_ends (Z.to_nat (bound + 1)) env 0 chosen (mkRetryParam group (Some 0) false) ctx [] None)
    as (used & err & E & Hlen); [done|done|done|lia|lia|].
  exists used, err. split; [exact E|]. simpl in Hlen. lia.
Qed.
End retry.
