(* ===== verification/Pricing.v ===== *)
(** * Pricing: what a model costs, and the settlements by tokens of text and audio

    Models the lookups of [setting/ratio_setting], [relay/helper/price.go], the audio
    and realtime settlements of [service/quota.go], [service/tool_billing.go] and the
    violation fee of [service/violation_fee.go].  The tables an administrator edits are
    an interface. *)

From S2P Require Export ChannelCache.
From S2P Require Export TextQuota.
From S2P Require Import Prelude.

(** The tables of [ratio_setting], [billing_setting] and [operation_setting]. *)
Class RatioSettings := {
  modelPriceMap : gmap string float64;
  modelRatioMap : gmap string float64;
  completionRatioMap : gmap string float64;
  cacheRatioMap : gmap string float64;
  createCacheRatioMap : gmap string float64;
  imageRatioMap : gmap string float64;
  audioRatioMap : gmap string float64;
  audioCompletionRatioMap : gmap string float64;
  groupRatioMap : gmap string float64;
  groupGroupRatioMap : gmap string (gmap string float64);
  defaultModelPrice : gmap string float64;
  billing_BillingMode : gmap string string;
  billing_BillingExpr : gmap string string;
  SelfUseModeEnabled : bool;
  EnableFreeModelPreConsume : bool;
  common_PreConsumedQuota : Z;
}.

Definition CompactModelSuffix : string := "-openai-compact".
Definition CompactWildcardModelKey : string := "*-openai-compact".
Definition WithCompactModelSuffix (modelName : string) : string :=
  if HasSuffix modelName CompactModelSuffix then modelName else modelName +:+ CompactModelSuffix.

(** ** Ratios ([setting/ratio_setting]) *)

(** The completion ratio built in for a model, and whether it is locked against the
    settings.  The branches, in the order of the code. *)
Definition gpt_completion (name : string) : float64 * bool :=
  if HasPrefix name "gpt-4o" then
    if decide (name = "gpt-4o-2024-05-13") then (lit 3 1, true)
    else if HasPrefix name "gpt-4o-mini-tts" then (lit 20 1, false)
    else (lit 4 1, false)
  else if HasPrefix name "gpt-5" then
    if HasPrefix name "gpt-5.5" then (lit 6 1, true)
    else if HasPrefix name "gpt-5.4" then
      if HasPrefix name "gpt-5.4-nano" then (lit 25 4, true) else (lit 6 1, true)
    else (lit 8 1, true)
  else if HasPrefix name "gpt-4.5-preview" then (lit 2 1, true)
  else if HasPrefix name "gpt-4-turbo" || HasSuffix name "gpt-4-1106" || HasSuffix name "gpt-4-1105"
  then (lit 3 1, true)
  else (lit 2 1, false).

Definition gpt35_completion (name : string) : float64 * bool :=
  if bool_decide (name = "gpt-3.5-turbo") || HasSuffix name "0125" then (lit 3 1, true)
  else if HasSuffix name "1106" then (lit 2 1, true)
  else (lit 4 3, true).

Definition gemini_completion (name : string) : float64 * bool :=
  if HasPrefix name "gemini-1.5" then (lit 4 1, true)
  else if HasPrefix name "gemini-2.0" then (lit 4 1, true)
  else if HasPrefix name "gemini-2.5-pro" then (lit 8 1, false)
  else if HasPrefix name "gemini-2.5-flash" then
    if HasPrefix name "gemini-2.5-flash-preview" then
      if HasSuffix name "-nothinking" then (lit 4 1, false) else (lit 70 3, false)
    else if HasPrefix name "gemini-2.5-flash-lite" then (lit 4 1, false)
    else (lit 25 3, false)
  else if HasPrefix name "gemini-robotics-er-1.5" then (lit 25 3, false)
  else if HasPrefix name "gemini-3-pro" then
    if HasPrefix name "gemini-3-pro-image" then (lit 60 1, false) else (lit 6 1, false)
  else (lit 4 1, false).

Definition command_completion (name : string) : float64 * bool :=
  if decide (name = "command-r") then (lit 3 1, true)
  else if decide (name = "command-r-plus") then (lit 5 1, true)
  else if decide (name = "command-r-08-2024") then (lit 4 1, true)
  else if decide (name = "command-r-plus-08-2024") then (lit 4 1, true)
  else (lit 4 1, false).

Definition getHardcodedCompletionModelRatio (name : string) : float64 * bool :=
  if HasSuffix name "-all" || HasSuffix name "-gizmo-*" then (lit 2 1, false)
  else if HasPrefix name "gpt-" then gpt_completion name
  else if HasPrefix name "o1" || HasPrefix name "o3" then (lit 4 1, true)
  else if decide (name = "chatgpt-4o-latest") then (lit 3 1, true)
  else if Contains name "claude-3" then (lit 5 1, true)
  else if Contains name "claude-sonnet-4" || Contains name "claude-opus-4" || Contains name "claude-haiku-4"
  then (lit 5 1, true)
  else if HasPrefix name "gpt-3.5" then gpt35_completion name
  else if HasPrefix name "mistral-" then (lit 3 1, true)
  else if HasPrefix name "gemini-" then gemini_completion name
  else if HasPrefix name "command" then command_completion name
  else if HasPrefix name "ERNIE-Speed-" || HasPrefix name "ERNIE-Lite-" || HasPrefix name "ERNIE-Character"
       || HasPrefix name "ERNIE-Functions" then (lit 2 1, true)
  else if decide (name = "llama2-70b-4096") then (lit 5 4, true)
  else if decide (name = "llama3-8b-8192") then (lit 2 1, true)
  else if decide (name = "llama3-70b-8192") then (lit 79 59, true)
  else (lit 1 1, false).

Section ratios.
Context {RS : RatioSettings}.

Definition GetModelPrice (name : string) : float64 * bool :=
  let name := FormatMatchingModelName name in
  match modelPriceMap !! name with
  | Some price => (price, true)
  | None =>
      if HasSuffix name CompactModelSuffix then
        match modelPriceMap !! CompactWildcardModelKey with
        | Some price => (price, true)
        | None => (lit (-1) 1, false)
        end
      else (lit (-1) 1, false)
  end.

Definition GetModelRatio (name : string) : float64 * bool * string :=
  let name := FormatMatchingModelName name in
  match modelRatioMap !! name with
  | Some ratio => (ratio, true, name)
  | None =>
      match (if HasSuffix name CompactModelSuffix then modelRatioMap !! CompactWildcardModelKey else None) with
      | Some ratio => (ratio, true, name)
      | None => (lit 75 2, SelfUseModeEnabled, name)
      end
  end.

Definition GetCompletionRatio (name : string) : float64 :=
  let name := FormatMatchingModelName name in
  match (if Contains name "/" then completionRatioMap !! name else None) with
  | Some ratio => ratio
  | None =>
      let '(hardCodedRatio, contain) := getHardcodedCompletionModelRatio name in
      if contain then hardCodedRatio else default hardCodedRatio (completionRatioMap !! name)
  end.

Record CompletionRatioInfo : Type := mkCompletionRatioInfo { ci_Ratio : float64; ci_Locked : bool }.

Definition GetCompletionRatioInfo (name : string) : CompletionRatioInfo :=
  let name := FormatMatchingModelName name in
  match (if Contains name "/" then completionRatioMap !! name else None) with
  | Some ratio => mkCompletionRatioInfo ratio false
  | None =>
      let '(hardCodedRatio, locked) := getHardcodedCompletionModelRatio name in
      if locked then mkCompletionRatioInfo hardCodedRatio true
      else match completionRatioMap !! name with
           | Some ratio => mkCompletionRatioInfo ratio false
           | None => mkCompletionRatioInfo hardCodedRatio false
           end
  end.

Definition GetAudioRatio (name : string) : float64 :=
  default (lit 1 1) (audioRatioMap !! FormatMatchingModelName name).
Definition GetAudioCompletionRatio (name : string) : float64 :=
  default (lit 1 1) (audioCompletionRatioMap !! FormatMatchingModelName name).
Definition GetImageRatio (name : string) : float64 * bool :=
  match imageRatioMap !! name with Some r => (r, true) | None => (lit 1 1, false) end.
Definition GetCacheRatio (name : string) : float64 * bool :=
  match cacheRatioMap !! name with Some r => (r, true) | None => (lit 1 1, false) end.
Definition GetCreateCacheRatio (name : string) : float64 * bool :=
  match createCacheRatioMap !! name with Some r => (r, true) | None => (lit 5 4, false) end.

Definition GetGroupRatio (name : string) : float64 := default (lit 1 1) (groupRatioMap !! name).
Definition GetGroupGroupRatio (userGroup usingGroup : string) : float64 * bool :=
  match groupGroupRatioMap !! userGroup with
  | Some gp => match gp !! usingGroup with Some r => (r, true) | None => (lit (-1) 1, false) end
  | None => (lit (-1) 1, false)
  end.

Definition GetModelRatioOrPrice (model : string) : float64 * bool * bool :=
  let '(price, usePrice) := GetModelPrice model in
  if usePrice then (price, true, true)
  else
    let '(modelRatio, success, _) := GetModelRatio model in
    if success then (modelRatio, false, true) else (lit 75 2, false, false).

Definition BillingModeRatio : string := "ratio".
Definition BillingModeTieredExpr : string := "tiered_expr".
Definition GetBillingMode (model : string) : string := default BillingModeRatio (billing_BillingMode !! model).
Definition GetBillingExpr (model : string) : option string := billing_BillingExpr !! model.

(** ** The price of a request ([relay/helper/price.go]) *)

(** What the helper reads of the request: the model, the groups, the user's setting to
    accept models without a ratio, and whether the user is an administrator, which
    only chooses the text of an error. *)
Record PriceRequest : Type := mkPriceRequest {
  pr_OriginModelName : string;
  pr_UserGroup : string;
  pr_UsingGroup : string;
  pr_auto_group : option string;
  pr_AcceptUnsetRatioModel : bool;
  pr_IsAdmin : bool;
}.

Record GroupRatioInfo : Type := mkGroupRatioInfo {
  gi_GroupRatio : float64;
  gi_GroupSpecialRatio : float64;
  gi_HasSpecialRatio : bool;
}.

(** The ratio, and the group that is used from here on. *)
Definition HandleGroupRatio (r : PriceRequest) : GroupRatioInfo * string :=
  let usingGroup := default (pr_UsingGroup r) (pr_auto_group r) in
  let '(userGroupRatio, ok) := GetGroupGroupRatio (pr_UserGroup r) usingGroup in
  (if ok then mkGroupRatioInfo userGroupRatio userGroupRatio true
   else mkGroupRatioInfo (GetGroupRatio usingGroup) (lit (-1) 1) false, usingGroup).

Definition modelPriceNotConfiguredError (modelName : string) (isAdmin : bool) : error :=
  EText (if isAdmin
         then "模型 " +:+ modelName +:+ " 的价格未配置。请前往「系统设置 → 运营设置」开启自用模式，或在「系统设置 → 分组与模型定价设置」中为该模型配置价格；Model " +:+ modelName +:+ " price not configured. Go to System Settings → Operation Settings to enable self-use mode, or configure the model price in System Settings → Group & Model Pricing."
         else "模型 " +:+ modelName +:+ " 的价格尚未由管理员配置，暂时无法使用，请联系站点管理员开启该模型；Model " +:+ modelName +:+ " has not been priced by the administrator yet. Please contact the site administrator to enable this model.").

(** [6 / 3.75] *)
Definition claudeCacheCreation1hMultiplier : float64 := lit 8 5.

Context {CFG : Config}.

Definition price_data (free : bool) (price ratio : float64) (usePrice : bool) (pre : Z) (group : float64)
    (completion cache creation creation1h image audio audioCompletion : float64) : PriceData :=
  mkPriceData free price ratio completion cache creation creation creation1h image audio audioCompletion
    [] usePrice pre group.

(** The price by tiers, and the snapshot that settlement uses.  [run_expr] is the
    expression engine on the request, [request] whether its body and headers could be
    read for it. *)
Definition modelPriceHelperTiered (run_expr : string -> TokenParams -> result (float64 * string))
    (request : result unit) (r : PriceRequest) (promptTokens maxTokens : Z) (groupRatio : float64)
    : result (PriceData * option BillingSnapshot) :=
  match GetBillingExpr (pr_OriginModelName r) with
  | None => Err (EText ("model " +:+ pr_OriginModelName r +:+
                        " is configured as tiered_expr but has no billing expression"))
  | Some exprStr =>
      match request with Err e => Err e | Ok _ =>
      match run_expr exprStr (mkTokenParams (float_of_int promptTokens) (float_of_int maxTokens)
              (float_of_int promptTokens) fzero fzero fzero fzero fzero fzero fzero) with
      | Err e => Err (EWrap ("model " +:+ pr_OriginModelName r +:+ " tiered expr run failed: ") e)
      | Ok (rawCost, tier) =>
          let quotaBeforeGroup := fmul (fdiv rawCost (float_of_int 1000000)) QuotaPerUnit in
          let preConsumedQuota := QuotaRound (fmul quotaBeforeGroup groupRatio) in
          let freeModel := negb EnableFreeModelPreConsume && feqb groupRatio fzero in
          let preConsumedQuota := if freeModel then 0 else preConsumedQuota in
          Ok (price_data freeModel fzero fzero false preConsumedQuota groupRatio fzero fzero fzero fzero fzero
                fzero fzero,
              Some (mkBillingSnapshot BillingModeTieredExpr exprStr groupRatio preConsumedQuota tier QuotaPerUnit))
      end
      end
  end.

Definition ModelPriceHelper (run_expr : string -> TokenParams -> result (float64 * string))
    (request : result unit) (r : PriceRequest) (promptTokens maxTokens : Z) (imagePriceRatio : float64)
    : result (PriceData * option BillingSnapshot) :=
  let model := pr_OriginModelName r in
  let '(modelPrice, usePrice) := GetModelPrice model in
  let groupRatio := gi_GroupRatio (HandleGroupRatio r).1 in
  if decide (GetBillingMode model = BillingModeTieredExpr)
  then modelPriceHelperTiered run_expr request r promptTokens maxTokens groupRatio
  else if usePrice then
    let modelPrice := if feqb imagePriceRatio fzero then modelPrice else fmul modelPrice imagePriceRatio in
    let preConsumedQuota := int_of_float (fmul (fmul modelPrice QuotaPerUnit) groupRatio) in
    let freeModel := negb EnableFreeModelPreConsume && (feqb groupRatio fzero || feqb modelPrice fzero) in
    Ok (price_data freeModel modelPrice fzero true (if freeModel then 0 else preConsumedQuota) groupRatio
          fzero fzero fzero fzero fzero fzero fzero, None)
  else
    let preConsumedTokens := Z.max promptTokens common_PreConsumedQuota in
    let preConsumedTokens := if maxTokens =? 0 then preConsumedTokens else wrap64 (preConsumedTokens + maxTokens) in
    let '(modelRatio, success, matchName) := GetModelRatio model in
    if negb success && negb (pr_AcceptUnsetRatioModel r)
    then Err (modelPriceNotConfiguredError matchName (pr_IsAdmin r))
    else
      let creation := (GetCreateCacheRatio model).1 in
      let preConsumedQuota := int_of_float (fmul (float_of_int preConsumedTokens) (fmul modelRatio groupRatio)) in
      let freeModel := negb EnableFreeModelPreConsume && (feqb groupRatio fzero || feqb modelRatio fzero) in
      Ok (price_data freeModel modelPrice modelRatio false (if freeModel then 0 else preConsumedQuota) groupRatio
            (GetCompletionRatio model) (GetCacheRatio model).1 creation (fmul creation claudeCacheCreation1hMultiplier)
            (GetImageRatio model).1 (GetAudioRatio model) (GetAudioCompletionRatio model), None).

(** The price of a task or a picture, paid by the call: [Quota] is what it costs. *)
Record CallPrice : Type := mkCallPrice {
  cp_FreeModel : bool;
  cp_ModelPrice : float64;
  cp_ModelRatio : float64;
  cp_UsePrice : bool;
  cp_Quota : Z;
  cp_GroupRatio : float64;
}.

Definition ModelPriceHelperPerCall (r : PriceRequest) : result CallPrice :=
  let model := pr_OriginModelName r in
  let groupRatio := gi_GroupRatio (HandleGroupRatio r).1 in
  let '(modelPrice, success) := GetModelPrice model in
  let by_price (modelPrice : float64) :=
    let quota := int_of_float (fmul (fmul modelPrice QuotaPerUnit) groupRatio) in
    let freeModel := negb EnableFreeModelPreConsume && (feqb groupRatio fzero || feqb modelPrice fzero) in
    mkCallPrice freeModel modelPrice fzero true (if freeModel then 0 else quota) groupRatio in
  if success then Ok (by_price modelPrice)
  else match defaultModelPrice !! model with
  | Some defaultPrice => Ok (by_price defaultPrice)
  | None =>
      let '(modelRatio, ratioSuccess, matchName) := GetModelRatio model in
      if negb ratioSuccess && negb (pr_AcceptUnsetRatioModel r)
      then Err (modelPriceNotConfiguredError matchName (pr_IsAdmin r))
      else
        let quota := int_of_float (fmul (fmul (fdiv modelRatio (float_of_int 2)) QuotaPerUnit) groupRatio) in
        let freeModel := negb EnableFreeModelPreConsume && (feqb groupRatio fzero || feqb modelRatio fzero) in
        Ok (mkCallPrice freeModel (lit (-1) 1) modelRatio false (if freeModel then 0 else quota) groupRatio)
  end.

Definition HasModelBillingConfig (modelName : string) : bool :=
  (GetModelPrice modelName).2 || (GetModelRatio modelName).1.2 ||
  (bool_decide (GetBillingMode modelName = BillingModeTieredExpr) &&
   match GetBillingExpr modelName with
   | Some expr => negb (bool_decide (TrimSpace expr = ""))
   | None => false
   end).
End ratios.

(** ** Settlement of audio ([service/quota.go]) *)

Record RealtimeUsage : Type := mkRealtimeUsage {
  ru_TotalTokens : Z;
  ru_InputTokens : Z;
  ru_OutputTokens : Z;
  ru_InputTokenDetails : InputTokenDetails;
  ru_OutputTokenDetails : OutputTokenDetails;
}.

Section audio.
Context {RS : RatioSettings} {CFG : Config} {LOC : Location} {TS : TextSettings} {D : Decimal}.

(** [calculateAudioQuota] with the ratios of [modelName]. *)
Definition audio_quota (modelName : string) (info : QuotaInfo) : Z :=
  calculateAudioQuota (GetCompletionRatio modelName) (GetAudioRatio modelName)
    (GetAudioCompletionRatio modelName) info.

(** The quota info of the settlements: they leave [ModelPrice] out. *)
Definition quota_info (p : PriceData) (input : InputTokenDetails) (output : OutputTokenDetails) : QuotaInfo :=
  mkQuotaInfo (in_TextTokens input) (in_AudioTokens input) (out_TextTokens output) (out_AudioTokens output)
    (UsePrice p) fzero (ModelRatio p) (GroupRatio p).

(** What [PostAudioConsumeQuota] settles ... *)
Definition audio_price (run_expr : string -> TokenParams -> result (float64 * string))
    (used_vars : string -> string -> bool) (info : TextInfo) (snap : option BillingSnapshot) (preConsumed : Z)
    (usage : Usage) : Z :=
  let vars v := match snap with Some snap => used_vars (ExprString snap) v | None => false end in
  let quota :=
    match TryTieredSettle run_expr snap preConsumed (BuildTieredTokenParams usage false vars) with
    | Some (tieredQuota, _) => tieredQuota
    | None => audio_quota (OriginModelName info)
                (quota_info (Price info) (PromptTokensDetails usage) (CompletionTokenDetails usage))
    end in
  if TotalTokens usage =? 0 then 0 else quota.

Definition PostAudioConsumeQuota (run_expr : string -> TokenParams -> result (float64 * string))
    (used_vars : string -> string -> bool) (info : TextInfo) (snap : option BillingSnapshot) (channelId : Z)
    (usage : Usage) : BM Z :=
  let! preConsumed := gets (λ b, RelayInfo_FinalPreConsumedQuota (b_info b)) in
  let quota := audio_price run_expr used_vars info snap preConsumed usage in
  do! settle_usage (TotalTokens usage) channelId quota in
  ret quota.

(** ... and [PostWssConsumeQuota] at the end of a realtime connection. *)
Definition realtime_price (run_expr : string -> TokenParams -> result (float64 * string)) (p : PriceData)
    (modelName : string) (snap : option BillingSnapshot) (preConsumed : Z) (usage : RealtimeUsage) : Z :=
  let quota :=
    match TryTieredSettle run_expr snap preConsumed
            (mkTokenParams (float_of_int (ru_InputTokens usage)) (float_of_int (ru_OutputTokens usage))
               (float_of_int (ru_InputTokens usage)) fzero fzero fzero fzero fzero fzero fzero) with
    | Some (tieredQuota, _) => tieredQuota
    | None => audio_quota modelName (quota_info p (ru_InputTokenDetails usage) (ru_OutputTokenDetails usage))
    end in
  if ru_TotalTokens usage =? 0 then 0 else quota.

Definition PostWssConsumeQuota (run_expr : string -> TokenParams -> result (float64 * string)) (p : PriceData)
    (modelName : string) (snap : option BillingSnapshot) (channelId : Z) (usage : RealtimeUsage) : BM Z :=
  let! preConsumed := gets (λ b, RelayInfo_FinalPreConsumedQuota (b_info b)) in
  let quota := realtime_price run_expr p modelName snap preConsumed usage in
  do! settle_usage (ru_TotalTokens usage) channelId quota in
  ret quota.

(** The charge while a realtime connection is open.  [usePrice] is the field of
    [RelayInfo] itself, which no code of the gateway sets, not that of its price. *)
Definition PreWssConsumeQuota (usePrice : bool) (r : PriceRequest) (usage : RealtimeUsage) : BM unit :=
  if usePrice then ret tt
  else
    let! info := gets b_info in
    let! userQuota := lift (GetUserQuota (RelayInfo_UserId info) false) in
    let! token := lift (GetTokenByKey (TrimPrefix (RelayInfo_TokenKey info) "sk-") false) in
    let model := pr_OriginModelName r in
    let usingGroup := default (pr_UsingGroup r) (pr_auto_group r) in
    let '(userGroupRatio, ok) := GetGroupGroupRatio (pr_UserGroup r) usingGroup in
    let actualGroupRatio := if ok then userGroupRatio else GetGroupRatio usingGroup in
    let i := ru_InputTokenDetails usage in
    let o := ru_OutputTokenDetails usage in
    let quota := audio_quota model (mkQuotaInfo (in_TextTokens i) (in_AudioTokens i) (out_TextTokens o)
                   (out_AudioTokens o) usePrice fzero (GetModelRatio model).1.1 actualGroupRatio) in
    do! fail_if (userQuota <? quota)
          (EText "user quota is not enough, user quota: %s, need quota: %s") in
    do! fail_if (negb (Token_UnlimitedQuota token) && (Token_RemainQuota token <? quota))
          (EText "token quota is not enough, token remain quota: %s, need quota: %s") in
    PostConsumeQuota quota 0 false.

(** [preConsumeUsage] of [relay_realtime.go]: the usage is added to the total and
    charged. *)
Definition add_input (a b : InputTokenDetails) : InputTokenDetails :=
  mkInputDetails (wrap64 (CachedTokens a + CachedTokens b)) (CachedCreationTokens a)
    (wrap64 (in_TextTokens a + in_TextTokens b)) (wrap64 (in_AudioTokens a + in_AudioTokens b)) (in_ImageTokens a).
Definition add_output (a b : OutputTokenDetails) : OutputTokenDetails :=
  mkOutputDetails (wrap64 (out_TextTokens a + out_TextTokens b)) (wrap64 (out_AudioTokens a + out_AudioTokens b))
    (out_ImageTokens a) (ReasoningTokens a).
Definition add_usage (total usage : RealtimeUsage) : RealtimeUsage :=
  mkRealtimeUsage (wrap64 (ru_TotalTokens total + ru_TotalTokens usage))
    (wrap64 (ru_InputTokens total + ru_InputTokens usage)) (wrap64 (ru_OutputTokens total + ru_OutputTokens usage))
    (add_input (ru_InputTokenDetails total) (ru_InputTokenDetails usage))
    (add_output (ru_OutputTokenDetails total) (ru_OutputTokenDetails usage)).

Definition preConsumeUsage (usePrice : bool) (r : PriceRequest) (usage total : RealtimeUsage)
    : BM (RealtimeUsage * result unit) :=
  let! err := attempt (PreWssConsumeQuota usePrice r usage) in
  ret (add_usage total usage, err).

(** ** The start of a request ([Relay] of [controller/relay.go]) *)

Definition ErrorCodeModelPriceError : string := "model_price_error".
Definition model_price_error (e : error) : error :=
  match e with
  | EApi i c _ skip record => EApi i c 400 skip record
  | _ => EApi e ErrorCodeModelPriceError 400 false true
  end.

(** The price is looked up, and unless the model is free its estimate is taken in
    advance. *)
Definition price_and_preconsume (run_expr : string -> TokenParams -> result (float64 * string))
    (request : result unit) (r : PriceRequest) (promptTokens maxTokens : Z) (imagePriceRatio : float64)
    : BM (PriceData * option BillingSnapshot) :=
  let! priced := map_err model_price_error
    (lift_result (ModelPriceHelper run_expr request r promptTokens maxTokens imagePriceRatio)) in
  do! (if FreeModel priced.1 then ret tt else PreConsumeBilling (QuotaToPreConsume priced.1)) in
  ret priced.

(** ** Tools ([service/tool_billing.go]) *)

Record ToolCallUsage : Type := mkToolCallUsage {
  tu_ModelName : string;
  tu_WebSearchCalls : Z;
  tu_WebSearchToolName : string;
  tu_FileSearchCalls : Z;
  tu_ImageGenerationCall : bool;
  tu_ImageGenerationQuality : string;
  tu_ImageGenerationSize : string;
}.

Record ToolCallItem : Type := mkToolCallItem {
  ti_Name : string;
  ti_CallCount : Z;
  ti_PricePer1K : float64;
  ti_TotalPrice : float64;
  ti_Quota : Z;
}.

Definition tool_item (usage : ToolCallUsage) (groupRatio : float64) (toolName : string) (count : Z)
    : list ToolCallItem :=
  if count <=? 0 then []
  else
    let pricePer1K := GetToolPriceForModel toolPrices toolName (tu_ModelName usage) in
    if fleb pricePer1K fzero then []
    else
      let totalPrice := fdiv (fmul pricePer1K (float_of_int count)) (float_of_int 1000) in
      [mkToolCallItem toolName count pricePer1K totalPrice
         (QuotaRound (fmul (fmul totalPrice QuotaPerUnit) groupRatio))].

Definition ComputeToolCallQuota (usage : ToolCallUsage) (groupRatio : float64) : Z * list ToolCallItem :=
  let items :=
    (if (0 <? tu_WebSearchCalls usage) && negb (bool_decide (tu_WebSearchToolName usage = ""))
     then tool_item usage groupRatio (tu_WebSearchToolName usage) (tu_WebSearchCalls usage) else []) ++
    (if 0 <? tu_FileSearchCalls usage
     then tool_item usage groupRatio "file_search" (tu_FileSearchCalls usage) else []) ++
    (if tu_ImageGenerationCall usage
     then let price := GetGPTImage1PriceOnceCall (tu_ImageGenerationQuality usage) (tu_ImageGenerationSize usage) in
          [mkToolCallItem "image_generation" 1 price price
             (QuotaRound (fmul (fmul price QuotaPerUnit) groupRatio))]
     else []) in
  (foldl (λ total item, wrap64 (total + ti_Quota item)) 0 items, items).

(** ** The fee for violations ([service/violation_fee.go])

    [openai_message]: the message of the error in OpenAI's format. *)

Definition ViolationFeeCodePrefix : string := "violation_fee.".
Definition CSAMViolationMarker : string := "Failed check: SAFETY_CHECK_TYPE".
Definition ContentViolatesUsageMarker : string := "Content violates usage guidelines".
Definition ErrorCodeViolationFeeGrokCSAM : string := "violation_fee.grok.csam".

Definition IsViolationFeeCode (code : string) : bool := HasPrefix code ViolationFeeCodePrefix.

Definition HasCSAMViolationMarker (openai_message : error -> string) (err : error) : bool :=
  Contains (Error err) CSAMViolationMarker || Contains (Error err) ContentViolatesUsageMarker ||
  (Contains (openai_message err) CSAMViolationMarker || Contains (Error err) ContentViolatesUsageMarker).

Definition shouldChargeViolationFee (openai_message : error -> string) (err : error) : bool :=
  bool_decide (GetErrorCode err = ErrorCodeViolationFeeGrokCSAM) || HasCSAMViolationMarker openai_message err.

Definition calcViolationFeeQuota (amount groupRatio : float64) : Z :=
  if fleb amount fzero then 0
  else if fleb groupRatio fzero then 0
  else
    let quota := dIntPart (dRound (dMul (dMul (NewFromFloat amount) (NewFromFloat QuotaPerUnit))
                   (NewFromFloat groupRatio))) in
    if quota <=? 0 then 0 else quota.

(** [fee]: the amount, when the deduction is enabled. *)
Definition ChargeViolationFeeIfNeeded (openai_message : error -> string) (fee : option float64)
    (groupRatio : float64) (channelId : Z) (err : error) : BM bool :=
  if negb (shouldChargeViolationFee openai_message err) then ret false
  else
    match fee with
    | None => ret false
    | Some amount =>
        let feeQuota := calcViolationFeeQuota amount groupRatio in
        if feeQuota <=? 0 then ret false
        else
          let! r := attempt (PostConsumeQuota feeQuota 0 true) in
          match r with
          | Err _ => ret false
          | Ok _ =>
              let! info := gets b_info in
              do! lift (UpdateUserUsedQuotaAndRequestCount (RelayInfo_UserId info) feeQuota) in
              do! lift (UpdateChannelUsedQuota channelId feeQuota) in
              ret true
          end
    end.
End audio.
