(* ===== verification/PricingProps.v ===== *)
(** * PricingProps: priced, pre-consumed and settled

    The whole money side of a request: the price is looked up, its estimate taken in
    advance (unless the model is free), and the report of the upstream settled.  Text
    and audio requests cost exactly the price of the report, whatever the estimate was;
    a request that cannot be priced or paid costs nothing.  And what the price lookup
    promises. *)

From S2P Require Export Pricing.
From S2P Require Export TextProps.
From S2P Require Import Prelude.
From Stdlib Require Import QArith.

#[local] Open Scope Z_scope.

(** ** The lookups *)

Section lookup.
Context {RS : RatioSettings}.

(** What the settings page shows is what is billed. *)
Lemma completion_ratio_shown name : ci_Ratio (GetCompletionRatioInfo name) = GetCompletionRatio name.
Proof.
  unfold GetCompletionRatioInfo, GetCompletionRatio. cbv zeta.
  destruct (if Contains _ _ then _ else _); [done|].
  destruct (getHardcodedCompletionModelRatio _) as [r []]; [done|]. by destruct (completionRatioMap !! _).
Qed.

Context {CFG : Config}.

(** A free model is never asked for anything in advance, and a model is free exactly
    when the deployment says so and its group ratio, price or ratio is zero. *)
Lemma free_model_not_preconsumed run_expr request r prompt max image p snap :
  ModelPriceHelper run_expr request r prompt max image = Ok (p, snap) ->
  FreeModel p = true -> QuotaToPreConsume p = 0.
Proof.
  unfold ModelPriceHelper, modelPriceHelperTiered, price_data. intros H Hf.
  repeat (case_match; simplify_eq; try done); simpl in *; by rewrite Hf.
Qed.

(** A model without price, ratio and expression is refused, unless the deployment or
    the user accepts such models. *)
Lemma unpriced_model_refused run_expr request r prompt max image :
  GetBillingMode (pr_OriginModelName r) ≠ BillingModeTieredExpr ->
  (GetModelPrice (pr_OriginModelName r)).2 = false ->
  (GetModelRatio (pr_OriginModelName r)).1.2 = false -> pr_AcceptUnsetRatioModel r = false ->
  ∃ e, ModelPriceHelper run_expr request r prompt max image = Err e.
Proof.
  unfold ModelPriceHelper. intros Hm Hp Hr Ha. destruct (GetModelPrice _) as [price use]. simpl in Hp. subst use.
  destruct (decide _); [done|]. destruct (GetModelRatio _) as [[ratio ok] name]. simpl in Hr. subst ok.
  rewrite Ha. eauto.
Qed.
End lookup.

(** ** Settling without a session *)

Section settlement.
Context {CFG : Config} {LAWS : ConfigLaws CFG} {LOC : Location} {TS : TextSettings} {D : Decimal}
  {RS : RatioSettings}.

Lemma wp_PostConsumeQuota n q pre email b :
  good n (b_world b) -> RelayInfo_BillingSource (b_info b) ≠ BillingSourceSubscription -> 0 < q <= 2 ^ 50 ->
  n + 2 * q < 2 ^ 63 ->
  wp (PostConsumeQuota q pre email) (λ r b', effective (b_world b') =
    charge (RelayInfo_IsPlayground (b_info b)) (RelayInfo_UserId (b_info b)) (RelayInfo_TokenId (b_info b)) q
      (effective (b_world b))) b.
Proof.
  intros Hg Hs Hq Hr. pose proof (good_nonneg _ _ Hg). unfold PostConsumeQuota. apply wp_bind, wp_gets.
  rewrite bool_decide_false by done. rewrite (proj2 (Z.ltb_lt 0 q)) by lia.
  apply wp_bind, wp_lift, (wp_decrease_user n); [done|lia|lia|]. intros w1 Hg1 He1. apply wp_bind.
  assert (∀ w2, effective w2 = charge (RelayInfo_IsPlayground (b_info b)) (RelayInfo_UserId (b_info b))
      (RelayInfo_TokenId (b_info b)) q (effective (b_world b)) ->
    wp (if email && negb (wrap64 (q + pre) =? 0) then checkAndSendQuotaNotify q pre else ret tt)
      (λ _ b', effective (b_world b') = charge (RelayInfo_IsPlayground (b_info b)) (RelayInfo_UserId (b_info b))
        (RelayInfo_TokenId (b_info b)) q (effective (b_world b))) (with_world w2 b)) as Hend.
  { intros w2 He2. case_match; [|by apply wp_ret]. by apply wp_bind, wp_gets, wp_lift, wp_go. }
  destruct (RelayInfo_IsPlayground (b_info b)).
  - by apply wp_ret, (Hend w1).
  - apply wp_lift, (wp_decrease_token (n + q)); [done|lia|lia|]. intros w2 Hg2 He2.
    cbn [with_world b_world] in He2. apply (Hend w2). rewrite He2, He1.
    symmetry. apply charge_swap.
Qed.

(** A request that opened no session: the whole quota is charged at the end. *)
Lemma wp_settle_usage_direct n total ch quota b :
  good n (b_world b) -> b_billing b = false -> RelayInfo_FinalPreConsumedQuota (b_info b) = 0 ->
  RelayInfo_BillingSource (b_info b) ≠ BillingSourceSubscription -> amount_ok quota -> n + 4 * quota + 1 < 2 ^ 63 ->
  wp (settle_usage total ch quota) (λ r b', r = Ok tt ∧ effective (b_world b') =
    charge (RelayInfo_IsPlayground (b_info b)) (RelayInfo_UserId (b_info b)) (RelayInfo_TokenId (b_info b)) quota
      ((if total =? 0 then id else counted (RelayInfo_UserId (b_info b)) ch quota) (effective (b_world b)))) b.
Proof.
  intros Hg Hb Hf Hs Hq Hr. unfold amount_ok in Hq. pose proof (good_nonneg _ _ Hg).
  assert (∀ m w L, good m w -> effective w = L -> m + 2 * quota < 2 ^ 63 ->
    wp (bignore (SettleBilling quota)) (λ r b', r = Ok tt ∧ effective (b_world b') =
      charge (RelayInfo_IsPlayground (b_info b)) (RelayInfo_UserId (b_info b)) (RelayInfo_TokenId (b_info b)) quota L)
      (with_world w b)) as Hsettle.
  { intros m w L Hgm HL Hm. apply wp_bind, wp_attempt. unfold SettleBilling. apply wp_bind, wp_gets.
    cbn [with_world b_billing b_info]. rewrite Hb, Hf, Z.sub_0_r, wrap64_amount by lia.
    destruct (Z.eqb_spec quota 0) as [->|].
    - apply wp_ret, wp_ret. by rewrite charge_0.
    - eapply wp_mono; [apply (wp_PostConsumeQuota m); cbn; [done|done|lia|lia]|].
      intros r b' He. apply wp_ret. split; [done|]. rewrite He. by rewrite <- HL. }
  unfold settle_usage. apply wp_bind, wp_gets, wp_bind. destruct (total =? 0).
  - apply wp_ret. pose proof (Hsettle n (b_world b) _ Hg eq_refl) as Hx.
    replace (with_world (b_world b) b) with b in Hx by by destruct b. apply Hx. lia.
  - apply (wp_counted n); [done|lia|lia|]. intros w Hgw Hew. apply (Hsettle (n + (2 * quota + 1))); [done|done|lia].
Qed.

(** ** From the price to the settlement *)

(** A request as it starts: nothing pending, no session, nothing charged yet, and paid
    from the wallet. *)
Definition fresh_request (b : BState) : Prop :=
  no_faults (b_world b) ∧ World_batch (b_world b) = empty_stores ∧ b_billing b = false ∧
  RelayInfo_FinalPreConsumedQuota (b_info b) = 0 ∧ RelayInfo_BillingSource (b_info b) ≠ BillingSourceSubscription ∧
  NormalizeBillingPreference (RelayInfo_BillingPreference (b_info b)) = "wallet_only".

(** The request after its price [q] was taken in advance, or not at all. *)
Definition started (q : Z) (b b' : BState) : Prop :=
  b' = b ∨ b_billing b' = true ∧
    ∃ c, (c = 0 ∨ c = q) ∧ wallet_session (RelayInfo_UserId (b_info b)) (RelayInfo_TokenId (b_info b))
           (RelayInfo_IsPlayground (b_info b)) (effective (b_world b)) step_weight c b'.

(** What a settlement of [quota] does to the books of the request [b]. *)
Definition settled (b : BState) (total channelId quota : Z) (l : Ledger) : Prop :=
  l = charge (RelayInfo_IsPlayground (b_info b)) (RelayInfo_UserId (b_info b)) (RelayInfo_TokenId (b_info b)) quota
        ((if total =? 0 then id else counted (RelayInfo_UserId (b_info b)) channelId quota) (effective (b_world b))).

Lemma wp_price_and_preconsume run_expr request r prompt max image p snap b :
  ModelPriceHelper run_expr request r prompt max image = Ok (p, snap) ->
  fresh_request b -> amount_ok (QuotaToPreConsume p) ->
  wp (price_and_preconsume run_expr request r prompt max image) (λ r b',
    match r with
    | Ok priced => priced = (p, snap) ∧ started (QuotaToPreConsume p) b b'
    | Err _ => effective (b_world b') = effective (b_world b)
    end) b.
Proof.
  intros Hp (Hn & Hb & _ & _ & _ & Hpref) Hq. unfold price_and_preconsume. rewrite Hp.
  apply wp_bind, wp_map_err, wp_ret, wp_bind. simpl. destruct (FreeModel p).
  - apply wp_ret, wp_ret. split; [done|by left].
  - eapply wp_mono; [apply wp_PreConsumeBilling; [|done]|].
    + split_and!; [done|done|done|constructor|simpl; lia].
    + intros [[]|e] b1 H1; [|done]. apply wp_ret. split; [done|by right].
Qed.

(** Whatever follows the price runs on a started request; where there is no price or
    no quota, nothing was charged. *)
Lemma wp_priced {A} run_expr request r prompt max image (k : PriceData * option BillingSnapshot -> BM A) Q b :
  let priced := ModelPriceHelper run_expr request r prompt max image in
  fresh_request b -> (∀ p snap, priced = Ok (p, snap) -> amount_ok (QuotaToPreConsume p)) ->
  (∀ e b', effective (b_world b') = effective (b_world b) -> Q (Err e) b') ->
  (∀ p snap b1, priced = Ok (p, snap) -> started (QuotaToPreConsume p) b b1 -> wp (k (p, snap)) Q b1) ->
  wp (let! priced := price_and_preconsume run_expr request r prompt max image in k priced) Q b.
Proof.
  intros priced Hfresh Ha He Hk. apply wp_bind. destruct priced as [[p snap]|e] eqn:Hp.
  - eapply wp_mono; [eapply wp_price_and_preconsume; [exact Hp|done|by eapply Ha]|].
    intros [x|e] b1 H1; [|by apply He]. destruct H1 as [-> H1]. by apply Hk.
  - unfold price_and_preconsume. subst priced. rewrite Hp. by apply wp_bind, wp_map_err, wp_fail, He.
Qed.

Lemma started_pre q b b1 : fresh_request b -> started q b b1 ->
  RelayInfo_FinalPreConsumedQuota (b_info b1) = 0 ∨ RelayInfo_FinalPreConsumedQuota (b_info b1) = q.
Proof.
  intros (_ & _ & _ & Hf & _) [->|(_ & c & Hc & Hs)]; [by left|]. by rewrite (ws_final _ _ _ _ _ _ _ Hs).
Qed.

Lemma wp_settle_started q b b1 total ch quota :
  fresh_request b -> started q b b1 -> amount_ok quota ->
  wp (settle_usage total ch quota) (λ r b2, r = Ok tt ∧ settled b total ch quota (effective (b_world b2))) b1.
Proof.
  intros (Hn & Hbatch & Hb & Hf & Hsrc & _) [->|(Hb1 & c & _ & Hs)] Hq; unfold settled, amount_ok in *.
  - apply (wp_settle_usage_direct 0); [by apply good_start|done|done|done|done|lia].
  - pose proof (ws_user _ _ _ _ _ _ _ Hs) as Hu. rewrite <- Hu.
    eapply wp_settle_usage; [rewrite Hu; exact Hs|done|done|unfold step_weight; lia].
Qed.

(** A text request: priced, pre-consumed, relayed, settled by the report. *)
Definition relayed_text run_expr used_vars request r prompt max image (info : PriceData -> TextInfo) channelId usage
    : BM Z :=
  let! priced := price_and_preconsume run_expr request r prompt max image in
  settle_text run_expr used_vars (info priced.1) priced.2 channelId usage.

(** C40. A relayed text request costs its price, once.  Pricing, pre-consumption and
    settlement composed as the relay does, for a request paid from the wallet that starts
    with nothing pending and no failing statement ([fresh_request]) and amounts in range:
    whatever the estimate was, trusted or not, free or not, with batching on or off, by
    ratio, by call or by the tiers of an expression, tools included, the user's and the
    token's effective balance fall by exactly the quota [text_quota] computes from the
    upstream's report and from the quota that was taken in advance (nothing, or the
    estimate, which is what a tiered price falls back to when its expression fails).  When
    the report counts tokens, the used quota of the user and of the channel grow by that
    same quota and the user's number of requests by one; when it counts none, these three
    stay as they are, also where a tiered price or tools cost something.  A request that
    cannot be priced or paid in advance costs nothing. *)
Theorem relayed_text_costs_price run_expr used_vars request r prompt max image info channelId usage b :
  fresh_request b ->
  (∀ p snap, ModelPriceHelper run_expr request r prompt max image = Ok (p, snap) ->
     amount_ok (QuotaToPreConsume p) ∧
     ∀ pre, pre = 0 ∨ pre = QuotaToPreConsume p ->
       amount_ok (text_quota run_expr used_vars (info p) snap pre usage).2) ->
  wp (relayed_text run_expr used_vars request r prompt max image info channelId usage) (λ res b',
    match res with
    | Ok quota => ∃ p snap pre, ModelPriceHelper run_expr request r prompt max image = Ok (p, snap) ∧
        (pre = 0 ∨ pre = QuotaToPreConsume p) ∧
        quota = (text_quota run_expr used_vars (info p) snap pre usage).2 ∧
        settled b (sm_TotalTokens (calculateTextQuotaSummary (info p) usage)) channelId quota (effective (b_world b'))
    | Err _ => effective (b_world b') = effective (b_world b)
    end) b.
Proof.
  intros Hfresh Hamounts. apply wp_priced; [done|intros p snap Hp; apply (Hamounts p snap Hp)|done|]. intros p snap b1 Hp H1.
  destruct (Hamounts p snap Hp) as [_ Hquota]. cbn [fst snd]. unfold settle_text. apply wp_bind, wp_gets.
  set (pre := RelayInfo_FinalPreConsumedQuota (b_info b1)).
  pose proof (started_pre _ _ _ Hfresh H1) as Hpre. pose proof (Hquota pre Hpre) as Hq. pose proof (text_quota_summary run_expr used_vars (info p) snap pre usage) as Hsum.
  destruct (text_quota _ _ _ _ pre _) as [s quota] eqn:Et. simpl in Hq, Hsum. subst s. apply wp_bind.
  eapply wp_mono; [by eapply wp_settle_started|]. intros x b2 [-> He]. apply wp_ret.
  exists p, snap, pre. by rewrite Et.
Qed.

(** The same of a request that answers with audio. *)
Definition relayed_audio run_expr used_vars request r prompt max image (info : PriceData -> TextInfo) channelId usage
    : BM Z :=
  let! priced := price_and_preconsume run_expr request r prompt max image in
  PostAudioConsumeQuota run_expr used_vars (info priced.1) priced.2 channelId usage.

Theorem relayed_audio_costs_price run_expr used_vars request r prompt max image info channelId usage b :
  fresh_request b ->
  (∀ p snap, ModelPriceHelper run_expr request r prompt max image = Ok (p, snap) ->
     amount_ok (QuotaToPreConsume p) ∧
     ∀ pre, pre = 0 ∨ pre = QuotaToPreConsume p -> amount_ok (audio_price run_expr used_vars (info p) snap pre usage)) ->
  wp (relayed_audio run_expr used_vars request r prompt max image info channelId usage) (λ res b',
    match res with
    | Ok quota => ∃ p snap pre, ModelPriceHelper run_expr request r prompt max image = Ok (p, snap) ∧
        (pre = 0 ∨ pre = QuotaToPreConsume p) ∧
        quota = audio_price run_expr used_vars (info p) snap pre usage ∧
        settled b (TotalTokens usage) channelId quota (effective (b_world b'))
    | Err _ => effective (b_world b') = effective (b_world b)
    end) b.
Proof.
  intros Hfresh Hamounts. apply wp_priced; [done|intros p snap Hp; apply (Hamounts p snap Hp)|done|]. intros p snap b1 Hp H1.
  destruct (Hamounts p snap Hp) as [_ Hquota]. cbn [fst snd]. unfold PostAudioConsumeQuota. apply wp_bind, wp_gets, wp_bind.
  pose proof (started_pre _ _ _ Hfresh H1) as Hpre. pose proof (Hquota _ Hpre) as Hq.
  eapply wp_mono; [by eapply wp_settle_started|]. intros x b2 [-> He]. apply wp_ret. by eexists p, snap, _.
Qed.

(** ** Audio by the call *)

(** The settlements of audio do not pass the price on: by the call, audio is free. *)
Lemma audio_by_call_is_free {L : DecimalLaws D} model p input output :
  UsePrice p = true -> audio_quota model (quota_info p input output) = 0.
Proof.
  intros Hp. unfold audio_quota, calculateAudioQuota, quota_info. cbn [qi_UsePrice qi_ModelPrice]. rewrite Hp.
  apply dIntPart_int; [|done]. rewrite !dvalue_mul, (dvalue_float_int fzero 0) by done.
  change (inject_Z 0) with 0%Q. ring.
Qed.
End settlement.
