(* ===== verification/StreamScanner.v ===== *)
(** * StreamScanner: reading an upstream's event stream

    Models [relay/helper/stream_scanner.go], [stream_result.go] and
    [relay/common/stream_status.go]: one goroutine reads lines and queues their data, one
    hands the data to the handler, one pings the client, and the caller waits for a stop
    signal, the timeout or the client's departure, then up to five seconds for the
    others.  The goroutines take turns in any order; a [select] with several ready cases
    takes any of them. *)

From S2P Require Export Effects.
From S2P Require Export GoString.
From S2P Require Import Prelude.

(** ** Status ([relay/common/stream_status.go]) *)

Inductive StreamEndReason : Type :=
  | StreamEndReasonNone | StreamEndReasonDone | StreamEndReasonTimeout | StreamEndReasonClientGone
  | StreamEndReasonScannerErr | StreamEndReasonHandlerStop | StreamEndReasonEOF | StreamEndReasonPanic
  | StreamEndReasonPingFail.
#[export] Instance StreamEndReason_eq_dec : EqDecision StreamEndReason.
Proof. solve_decision. Defined.

Definition maxStreamErrorEntries : nat := 20.

(** [ended] is the [sync.Once] of [EndReason]. *)
Record StreamStatus : Type := mkStatus {
  EndReason : StreamEndReason;
  ended : bool;
  Errors : list string;
  ErrorCount : Z;
}.
Definition NewStreamStatus : StreamStatus := mkStatus StreamEndReasonNone false [] 0.

Definition SetEndReason (reason : StreamEndReason) (s : StreamStatus) : StreamStatus :=
  if ended s then s else {| s with EndReason := reason; ended := true |}.
Definition RecordError (msg : string) (s : StreamStatus) : StreamStatus :=
  {| s with ErrorCount := ErrorCount s + 1;
     Errors := if (length (Errors s) <? maxStreamErrorEntries)%nat then Errors s ++ [msg] else Errors s |}.
Definition HasErrors (s : StreamStatus) : bool := 0 <? ErrorCount s.
Definition IsNormalEnd (s : StreamStatus) : bool :=
  bool_decide (EndReason s = StreamEndReasonDone ∨ EndReason s = StreamEndReasonEOF
               ∨ EndReason s = StreamEndReasonHandlerStop).

(** ** What the handler answers ([relay/helper/stream_result.go]) *)

Inductive StreamResult : Type :=
  | SContinue (errors : list string)
  | SStop (err : option string)
  | SDone
  | SPanic.

(** The status after a call of the handler, and whether the stream goes on. *)
Definition apply_result (r : StreamResult) (s : StreamStatus) : StreamStatus * bool :=
  match r with
  | SContinue errors => (foldl (λ s e, RecordError e s) s errors, true)
  | SStop err =>
      (SetEndReason StreamEndReasonHandlerStop (match err with Some e => RecordError e s | None => s end), false)
  | SDone => (SetEndReason StreamEndReasonDone s, false)
  | SPanic => (SetEndReason StreamEndReasonPanic s, false)
  end.

(** ** Lines *)

Inductive Line : Type := LSkip | LData (data : string) | LDone.

Definition scan_line (line : string) : Line :=
  if (String.length line <? 6)%nat then LSkip
  else if negb (HasPrefix line "data:") && negb (HasPrefix line "[DONE]") then LSkip
  else
    let data := TrimSpace (str_drop 5 line) in
    if decide (data = "") then LSkip
    else if HasPrefix data "[DONE]" then LDone else LData data.

(** The data of the lines up to the one that ends the stream. *)
Fixpoint payload (lines : list string) : list string :=
  match lines with
  | [] => []
  | line :: rest =>
      match scan_line line with
      | LSkip => payload rest
      | LData data => data :: payload rest
      | LDone => []
      end
  end.

(** ** Goroutines *)

(** The scanner between lines, with data it waits to queue, or ended; the flag tells
    whether it ended at the end of the stream. *)
Inductive Scanner : Type := Scanning | Sending (data : string) | ScanEnd (complete : bool).
Inductive DataHandler : Type := Handling | HandEnd (stopped : bool).
Inductive Caller : Type := Waiting | Draining | Returned (clean : bool).

Definition chanSize : nat := 10.

Record System (H : Type) : Type := mkSystem {
  y_Lines : list string;
  y_ScanError : bool;
  y_Scanner : Scanner;
  y_Chan : list string;
  y_Handler : DataHandler;
  y_State : H;
  y_Handled : list string;
  y_Tokens : nat;
  y_Caller : Caller;
  y_Ping : bool;
  y_Cancelled : bool;
  y_ClientGone : bool;
  y_Status : StreamStatus;
  y_Received : Z;
}.
Arguments mkSystem {H}.
Arguments y_Lines {H}. Arguments y_ScanError {H}. Arguments y_Scanner {H}. Arguments y_Chan {H}.
Arguments y_Handler {H}. Arguments y_State {H}. Arguments y_Handled {H}. Arguments y_Tokens {H}.
Arguments y_Caller {H}. Arguments y_Ping {H}. Arguments y_Cancelled {H}. Arguments y_ClientGone {H}.
Arguments y_Status {H}. Arguments y_Received {H}.

Section System.

Context {H : Type} (dataHandler : string -> H -> StreamResult * H).

Abbreviation System := (System H).

Definition stream_start (lines : list string) (scanError pingEnabled : bool) (h : H) : System :=
  mkSystem lines scanError Scanning [] Handling h [] 0 Waiting pingEnabled false false NewStreamStatus 0.

(** The deferred part of the scanner: the queue is closed and the caller is told. *)
Definition scanner_exit (complete : bool) (y : System) : System :=
  {| y with y_Scanner := ScanEnd complete; y_Tokens := S (y_Tokens y) |}.
Definition handler_exit (stopped : bool) (y : System) : System :=
  {| y with y_Handler := HandEnd stopped; y_Tokens := S (y_Tokens y) |}.
(** The caller leaves its [select]: the context is cancelled and another signal sent. *)
Definition caller_leaves (y : System) : System :=
  {| y with y_Caller := Draining; y_Cancelled := true; y_Tokens := S (y_Tokens y) |}.

Definition set_end (reason : StreamEndReason) (y : System) : System :=
  {| y with y_Status := SetEndReason reason (y_Status y) |}.
Definition take_token (y : System) : System := {| y with y_Tokens := pred (y_Tokens y) |}.

(** The line at the front, when no reason to stop is pending. *)
Definition scan_next (line : string) (rest : list string) (y : System) : System :=
  let y := {| y with y_Lines := rest |} in
  match scan_line line with
  | LSkip => y
  | LData data => {| y with y_Scanner := Sending data; y_Received := y_Received y + 1 |}
  | LDone => scanner_exit true (set_end StreamEndReasonDone y)
  end.
Definition scan_end (y : System) : System :=
  let y := if y_ScanError y then set_end StreamEndReasonScannerErr y else y in
  scanner_exit true (set_end StreamEndReasonEOF y).

Definition handle_next (data : string) (rest : list string) (y : System) : System :=
  let '(r, h) := dataHandler data (y_State y) in
  let '(status, continue) := apply_result r (y_Status y) in
  let y := {| y with y_Chan := rest; y_Handled := y_Handled y ++ [data]; y_State := h; y_Status := status |} in
  if continue then y else handler_exit true y.

Inductive stream_step (y : System) : System -> Prop :=
  (* the scanner, after a line has been read *)
  | scan_stop line rest :
      y_Scanner y = Scanning -> y_Lines y = line :: rest -> (0 < y_Tokens y)%nat ->
      stream_step y (scanner_exit false (take_token y))
  | scan_cancelled line rest :
      y_Scanner y = Scanning -> y_Lines y = line :: rest -> y_Cancelled y = true ->
      stream_step y (scanner_exit false y)
  | scan_gone line rest :
      y_Scanner y = Scanning -> y_Lines y = line :: rest -> y_ClientGone y = true ->
      stream_step y (scanner_exit false (set_end StreamEndReasonClientGone y))
  | scan_step line rest :
      y_Scanner y = Scanning -> y_Lines y = line :: rest ->
      y_Tokens y = 0%nat -> y_Cancelled y = false -> y_ClientGone y = false ->
      stream_step y (scan_next line rest y)
  | scan_eof :
      y_Scanner y = Scanning -> y_Lines y = [] -> stream_step y (scan_end y)
  | send_data data :
      y_Scanner y = Sending data -> (length (y_Chan y) < chanSize)%nat ->
      stream_step y {| y with y_Chan := y_Chan y ++ [data]; y_Scanner := Scanning |}
  | send_cancelled data :
      y_Scanner y = Sending data -> y_Cancelled y = true -> stream_step y (scanner_exit false y)
  | send_stop data :
      y_Scanner y = Sending data -> (0 < y_Tokens y)%nat -> stream_step y (scanner_exit false (take_token y))
  (* the handler *)
  | handle data rest :
      y_Handler y = Handling -> y_Chan y = data :: rest -> stream_step y (handle_next data rest y)
  | handle_closed complete :
      y_Handler y = Handling -> y_Chan y = [] -> y_Scanner y = ScanEnd complete -> stream_step y (handler_exit false y)
  (* the pings *)
  | ping_stop : y_Ping y = true -> (0 < y_Tokens y)%nat -> stream_step y {| (take_token y) with y_Ping := false |}
  | ping_quit : y_Ping y = true -> stream_step y {| y with y_Ping := false |}
  | ping_fail : y_Ping y = true -> stream_step y {| (set_end StreamEndReasonPingFail y) with y_Ping := false |}
  (* the caller *)
  | call_stop : y_Caller y = Waiting -> (0 < y_Tokens y)%nat -> stream_step y (caller_leaves (take_token y))
  | call_timeout : y_Caller y = Waiting -> stream_step y (caller_leaves (set_end StreamEndReasonTimeout y))
  | call_gone :
      y_Caller y = Waiting -> y_ClientGone y = true -> stream_step y (caller_leaves (set_end StreamEndReasonClientGone y))
  | call_drained complete stopped :
      y_Caller y = Draining -> y_Scanner y = ScanEnd complete -> y_Handler y = HandEnd stopped -> y_Ping y = false ->
      stream_step y {| y with y_Caller := Returned true |}
  | call_gives_up : y_Caller y = Draining -> stream_step y {| y with y_Caller := Returned false |}
  (* the client *)
  | client_leaves : stream_step y {| y with y_ClientGone := true |}.

Inductive reachable (y0 : System) : System -> Prop :=
  | reach_start : reachable y0 y0
  | reach_step y y' : reachable y0 y -> stream_step y y' -> reachable y0 y'.

End System.
