(* ===== verification/ScannerProps.v ===== *)
(** * ScannerProps: lines reach the handler once and in order

    Invariants of the goroutines of [StreamScanner], by induction over the steps. *)

From S2P Require Export StreamScanner.
From S2P Require Import Prelude.

Section Props.

Context {H : Type} (dataHandler : string -> H -> StreamResult * H).
Abbreviation stream_step := (stream_step dataHandler).
Abbreviation reachable := (reachable dataHandler).

(** An invariant of the start that all steps keep holds wherever the system gets. *)
Lemma reachable_inv (I : System H -> Prop) y0 y :
  I y0 -> (∀ a b, I a -> stream_step a b -> I b) -> reachable y0 y -> I y.
Proof. intros H0 Hs. induction 1; eauto. Qed.

Definition in_flight (y : System H) : list string :=
  match y_Scanner y with Sending data => [data] | _ => [] end.

(** Where the data of the stream is: handled, queued, in the scanner's hands or still to
    be read. *)
Definition accounted (all : list string) (y : System H) : Prop :=
  match y_Scanner y with
  | ScanEnd true => y_Handled y ++ y_Chan y = all
  | ScanEnd false => y_Handled y ++ y_Chan y `prefix_of` all
  | _ => y_Handled y ++ y_Chan y ++ in_flight y ++ payload (y_Lines y) = all
  end.

Lemma accounted_prefix all y : accounted all y -> y_Handled y ++ y_Chan y `prefix_of` all.
Proof.
  unfold accounted. destruct (y_Scanner y) as [|data|[]]; try done.
  1,2: intros <-; rewrite app_assoc; by eexists.
  by intros ->.
Qed.

Lemma accounted_exit all y y' :
  accounted all y -> y_Handled y' = y_Handled y -> y_Chan y' = y_Chan y -> y_Scanner y' = ScanEnd false ->
  accounted all y'.
Proof. intros Hy%accounted_prefix Hh Hc Hs. unfold accounted. by rewrite Hs, Hh, Hc. Qed.

(** The steps that leave scanner, queue and handled data alone. *)
Lemma accounted_frame all y y' :
  accounted all y -> y_Handled y' = y_Handled y -> y_Chan y' = y_Chan y -> y_Scanner y' = y_Scanner y ->
  y_Lines y' = y_Lines y -> accounted all y'.
Proof. intros Hy Hh Hc Hs Hl. unfold accounted, in_flight in *. by rewrite Hs, Hh, Hc, Hl. Qed.

Lemma accounted_scan_next all y line rest :
  accounted all y -> y_Scanner y = Scanning -> y_Lines y = line :: rest -> accounted all (scan_next line rest y).
Proof.
  intros Hy Hs Hl. unfold accounted, in_flight, scan_next in *. rewrite Hs, Hl in Hy. simpl in Hy.
  destruct (scan_line line); cbn; rewrite ?Hs; [done..|]. by rewrite app_nil_r in Hy.
Qed.

Lemma accounted_scan_end all y :
  accounted all y -> y_Scanner y = Scanning -> y_Lines y = [] -> accounted all (scan_end y).
Proof.
  intros Hy Hs Hl. unfold accounted, in_flight, scan_end in *. rewrite Hs, Hl in Hy. cbn in Hy.
  rewrite app_nil_r in Hy. by destruct (y_ScanError y).
Qed.

Lemma accounted_handle all y data rest :
  accounted all y -> y_Chan y = data :: rest -> accounted all (handle_next dataHandler data rest y).
Proof.
  intros Hy Hc. unfold handle_next. destruct (dataHandler _ _) as [r h]. destruct (apply_result _ _) as [status []];
    unfold accounted, in_flight in *; cbn; rewrite Hc in Hy;
    destruct (y_Scanner y) as [|d|[]]; rewrite <- ?app_assoc; exact Hy.
Qed.

Lemma accounted_step all a b : accounted all a -> stream_step a b -> accounted all b.
Proof.
  intros Ha Hstep. destruct Hstep;
    try (by eapply accounted_exit; eauto);
    try (by eapply accounted_frame; eauto);
    eauto using accounted_scan_next, accounted_scan_end, accounted_handle.
  unfold accounted, in_flight in *. cbn. rewrite H0 in Ha. by rewrite <- app_assoc.
Qed.

(** ** The handler *)

Definition run_handler (h : H) (l : list string) : H := foldl (λ h d, (dataHandler d h).2) h l.

(** The handler has run on what is handled, one line after the other; when it ends by
    itself the queue is empty and closed. *)
Definition sequential (h0 : H) (y : System H) : Prop :=
  y_State y = run_handler h0 (y_Handled y) ∧
  (y_Handler y = HandEnd false -> y_Chan y = [] ∧ ∃ complete, y_Scanner y = ScanEnd complete).

Lemma sequential_frame h0 y y' :
  sequential h0 y -> y_State y' = y_State y -> y_Handled y' = y_Handled y -> y_Handler y' = y_Handler y ->
  (y_Scanner y = Scanning ∨ (∃ d, y_Scanner y = Sending d) ∨ y_Scanner y' = y_Scanner y ∧ y_Chan y' = y_Chan y) ->
  sequential h0 y'.
Proof.
  intros [Hst Hend] Es Eh Ehd Esc. unfold sequential. rewrite Es, Eh, Ehd. split; [done|].
  intros E. destruct (Hend E) as (Hc & complete & Hs). destruct Esc as [?|[[? ?]|[-> ->]]]; eauto; congruence.
Qed.

Lemma scan_next_frame line rest (y : System H) :
  y_State (scan_next line rest y) = y_State y ∧ y_Handled (scan_next line rest y) = y_Handled y ∧
  y_Handler (scan_next line rest y) = y_Handler y.
Proof. unfold scan_next. by destruct (scan_line line). Qed.

Lemma scan_end_frame (y : System H) :
  y_State (scan_end y) = y_State y ∧ y_Handled (scan_end y) = y_Handled y ∧ y_Handler (scan_end y) = y_Handler y.
Proof. unfold scan_end. by destruct (y_ScanError y). Qed.

Lemma sequential_step h0 a b : sequential h0 a -> stream_step a b -> sequential h0 b.
Proof.
  intros Ha Hstep.
  destruct Hstep; try (by eapply sequential_frame; [exact Ha|done..|eauto]).
  - destruct (scan_next_frame line rest a) as (? & ? & ?). eapply sequential_frame; eauto.
  - destruct (scan_end_frame a) as (? & ? & ?). eapply sequential_frame; eauto.
  - destruct Ha as [Hst Hend]. unfold handle_next, sequential. destruct (dataHandler data (y_State a)) as [r h] eqn:E.
    destruct (apply_result r (y_Status a)) as [status []]; cbn;
      (split; [unfold run_handler in *; rewrite foldl_snoc, <- Hst, E; done|]); [|done].
    intros E'. rewrite H0 in E'. done.
  - destruct Ha as [Hst Hend]. split; [done|]. eauto.
Qed.

(** However the goroutines of a stream take turns, and whatever becomes of the
    client, the handler has been given a prefix of the stream's data, in its order, each
    line once, and its state is that of the calls made one after the other. *)
Theorem stream_in_order lines scanError ping h0 y :
  reachable (stream_start lines scanError ping h0) y ->
  y_Handled y `prefix_of` payload lines ∧ y_State y = run_handler h0 (y_Handled y).
Proof.
  intros Hr. split.
  - assert (accounted (payload lines) y) as Hy.
    { eapply reachable_inv; [|intros ? ? ?; by apply accounted_step|exact Hr]. done. }
    apply accounted_prefix in Hy. etrans; [|exact Hy]. by eexists.
  - eapply (reachable_inv (sequential h0)); [|intros ? ? ?; by apply sequential_step|exact Hr]. split; done.
Qed.

(** A call that has returned after draining leaves no handler behind. *)
Lemma drained_step a b :
  (y_Caller a = Returned true -> y_Handler a ≠ Handling) -> stream_step a b ->
  y_Caller b = Returned true -> y_Handler b ≠ Handling.
Proof.
  intros Ha Hstep. destruct Hstep; cbn; try done; try congruence.
  - unfold scan_next. by destruct (scan_line line).
  - unfold scan_end. by destruct (y_ScanError a).
  - intros Hc. unfold handle_next in *. destruct (dataHandler _ _). destruct (apply_result _ _) as [? []]; cbn in *; [|done].
    by apply Ha.
Qed.

(** ** Streams that end by themselves *)

(** As long as the handler goes on, a normal end is noted by the scanner alone. *)
Definition tame (y : System H) : Prop :=
  (y_Handler y = Handling ∨ y_Handler y = HandEnd false) ∧
  (EndReason (y_Status y) = StreamEndReasonDone ∨ EndReason (y_Status y) = StreamEndReasonEOF ->
   y_Scanner y = ScanEnd true) ∧
  (ended (y_Status y) = false -> EndReason (y_Status y) = StreamEndReasonNone).

Lemma RecordErrors_reason errors s :
  EndReason (foldl (λ s e, RecordError e s) s errors) = EndReason s ∧
  ended (foldl (λ s e, RecordError e s) s errors) = ended s.
Proof. revert s. induction errors as [|e errors IH]; intros s; [done|]. simpl. apply (IH (RecordError e s)). Qed.

Lemma tame_frame y y' :
  tame y -> y_Handler y' = y_Handler y -> y_Status y' = y_Status y ->
  (y_Scanner y' = y_Scanner y ∨ y_Scanner y = Scanning ∨ ∃ d, y_Scanner y = Sending d) -> tame y'.
Proof.
  intros (Hh & He & Hn) E1 E2 E3. unfold tame. rewrite E1, E2. split_and!; [done| |done].
  intros E. specialize (He E). destruct E3 as [->|[?|[? ?]]]; [done|congruence..].
Qed.

(** An end of another kind is noted at most once. *)
Lemma tame_set_end reason y y' :
  tame y -> y_Handler y' = y_Handler y -> y_Status y' = SetEndReason reason (y_Status y) ->
  reason ≠ StreamEndReasonDone -> reason ≠ StreamEndReasonEOF ->
  (y_Scanner y' = y_Scanner y ∨ y_Scanner y = Scanning ∨ ∃ d, y_Scanner y = Sending d) -> tame y'.
Proof.
  intros (Hh & He & Hn) E1 E2 R1 R2 E3. unfold tame. rewrite E1, E2. unfold SetEndReason.
  destruct (ended (y_Status y)) eqn:Ee.
  - split_and!; [done| |congruence]. intros E. specialize (He E). destruct E3 as [->|[?|[? ?]]]; [done|congruence..].
  - cbn. split_and!; [done| |done]. intros [?|?]; congruence.
Qed.

Lemma tame_end reason y y' :
  tame y -> y_Handler y' = y_Handler y -> y_Status y' = SetEndReason reason (y_Status y) ->
  y_Scanner y' = ScanEnd true -> tame y'.
Proof.
  intros (Hh & He & Hn) E1 E2 E3. unfold tame. rewrite E1, E2, E3. split_and!; [done|done|].
  unfold SetEndReason. by destruct (ended (y_Status y)) eqn:Ee; cbn; [congruence|].
Qed.

Context (Hgo : ∀ d h, ∃ errors, (dataHandler d h).1 = SContinue errors).

Lemma tame_handle y data rest :
  tame y -> y_Handler y = Handling -> y_Chan y = data :: rest -> tame (handle_next dataHandler data rest y).
Proof.
  intros (Hh & He & Hn) Eh Hc. destruct (Hgo data (y_State y)) as [errors E].
  unfold handle_next. destruct (dataHandler data (y_State y)) as [r h]. simpl in E. subst r.
  destruct (RecordErrors_reason errors (y_Status y)) as [E1 E2]. unfold tame. cbn. rewrite E1, E2, Eh. auto.
Qed.

Lemma tame_scan_next y line rest : tame y -> y_Scanner y = Scanning -> tame (scan_next line rest y).
Proof.
  intros Hy Hs. unfold scan_next. destruct (scan_line line).
  - eapply tame_frame; eauto.
  - eapply tame_frame; eauto.
  - by eapply (tame_end StreamEndReasonDone).
Qed.

Lemma tame_scan_end y : tame y -> y_Scanner y = Scanning -> tame (scan_end y).
Proof.
  intros Hy Hs. unfold scan_end. destruct (y_ScanError y); [|by eapply (tame_end StreamEndReasonEOF)].
  assert (tame (set_end StreamEndReasonScannerErr y)) as Hy' by (eapply tame_set_end; eauto; done).
  by eapply (tame_end StreamEndReasonEOF).
Qed.

Lemma tame_step a b : tame a -> stream_step a b -> tame b.
Proof.
  intros Ha Hstep.
  destruct Hstep; try (by eapply tame_frame; [exact Ha|done|done|eauto]);
    try (by eapply (tame_set_end _ a); [exact Ha|done|reflexivity|done|done|eauto]);
    eauto using tame_scan_next, tame_scan_end, tame_handle.
  destruct Ha as (Hh & He & Hn). unfold tame. cbn. auto.
Qed.

Lemma delivered_state lines scanError ping h0 y :
  reachable (stream_start lines scanError ping h0) y -> y_Caller y = Returned true ->
  EndReason (y_Status y) = StreamEndReasonDone ∨ EndReason (y_Status y) = StreamEndReasonEOF ->
  y_Handled y = payload lines ∧ y_State y = run_handler h0 (payload lines).
Proof.
  intros Hr Hcall Hend.
  assert (accounted (payload lines) y ∧ sequential h0 y ∧ tame y ∧
          (y_Caller y = Returned true -> y_Handler y ≠ Handling)) as (Ha & [Hst Hseq] & (Hh & He & _) & Hdone).
  { eapply (reachable_inv (λ y, accounted (payload lines) y ∧ sequential h0 y ∧ tame y ∧
              (y_Caller y = Returned true -> y_Handler y ≠ Handling))); [|..|exact Hr].
    - split; [done|]. split; [by split|]. split; [|done]. split; [by left|]. split; [by intros [?|?]|done].
    - intros a b (Ha & Hs & Ht & Hc) Hstep. split_and!;
        [by eapply accounted_step|by eapply sequential_step|by eapply tame_step|by eapply drained_step]. }
  destruct Hh as [Hh|Hh]; [by destruct (Hdone Hcall)|].
  destruct (Hseq Hh) as (Hchan & _). specialize (He Hend).
  unfold accounted in Ha. rewrite He, Hchan, app_nil_r in Ha. by rewrite Hst, Ha.
Qed.

(** C19. For a handler that always lets the stream go on (one that calls neither [Stop]
    nor [Done], the hypothesis [Hgo]): when the call returns after the goroutines have
    ended and the stream is noted as complete, the handler has been given all data of
    the stream: the concurrent reading has done what one loop over the lines would have
    done. *)
Theorem stream_delivered lines scanError ping h0 y :
  reachable (stream_start lines scanError ping h0) y -> y_Caller y = Returned true ->
  EndReason (y_Status y) = StreamEndReasonDone ∨ EndReason (y_Status y) = StreamEndReasonEOF ->
  y_Handled y = payload lines ∧ y_State y = run_handler h0 (payload lines).
Proof. apply delivered_state. Qed.

(** ** A run to the end *)

Lemma reachable_trans a b c : reachable a b -> reachable b c -> reachable a c.
Proof. intros Hab Hbc. induction Hbc; [done|]. eapply reach_step; eauto. Qed.
Lemma reachable_one a b c : stream_step a b -> reachable b c -> reachable a c.
Proof. intros Hab Hbc. eapply reachable_trans; [|exact Hbc]. eapply reach_step; [constructor|done]. Qed.

(** Between lines, with nothing queued and no reason to stop. *)
Definition idle (lines : list string) (y : System H) : Prop :=
  y_Lines y = lines ∧ y_ScanError y = false ∧ y_Scanner y = Scanning ∧ y_Chan y = [] ∧ y_Handler y = Handling ∧
  y_Tokens y = 0%nat ∧ y_Caller y = Waiting ∧ y_Ping y = false ∧ y_Cancelled y = false ∧ y_ClientGone y = false ∧
  ended (y_Status y) = false.

Definition completed (y : System H) : Prop :=
  y_Caller y = Returned true ∧
  (EndReason (y_Status y) = StreamEndReasonDone ∨ EndReason (y_Status y) = StreamEndReasonEOF).

(** Once the scanner has ended and the queue is empty the others follow. *)
Lemma finishes (y : System H) :
  y_Scanner y = ScanEnd true -> y_Chan y = [] -> y_Handler y = Handling -> y_Caller y = Waiting -> y_Ping y = false ->
  EndReason (y_Status y) = StreamEndReasonDone ∨ EndReason (y_Status y) = StreamEndReasonEOF ->
  ∃ y', reachable y y' ∧ completed y'.
Proof.
  intros Hs Hc Hh Hcall Hp He. eexists. split.
  - eapply reachable_one; [by eapply handle_closed|]. eapply reachable_one; [apply call_stop; [done|simpl; lia]|].
    eapply reachable_one; [by eapply call_drained|]. constructor.
  - by split.
Qed.

Lemma idle_completes lines y : idle lines y -> ∃ y', reachable y y' ∧ completed y'.
Proof.
  revert y. induction lines as [|line lines IH]; intros y (Hl & Hse & Hs & Hc & Hh & Ht & Hcall & Hp & Hca & Hg & He).
  - destruct (finishes (scan_end y)) as (y' & Hr & Hd); unfold scan_end; rewrite ?Hse; try done.
    { right. simpl. unfold SetEndReason. by rewrite He. }
    exists y'. split; [|done]. eapply reachable_one; [by apply scan_eof|done].
  - assert (stream_step y (scan_next line lines y)) as Hstep by (by apply scan_step).
    unfold scan_next in Hstep. destruct (scan_line line) as [|data|].
    + edestruct IH as (y' & Hr & Hd); [|exists y'; split; [eapply reachable_one; [exact Hstep|exact Hr]|done]]. by split_and!.
    + destruct (Hgo data (y_State y)) as [errors E].
      set (y1 := mkSystem _ _ _ _ _ _ _ _ _ _ _ _ _ _) in Hstep.
      set (y2 := {| y1 with y_Chan := [data]; y_Scanner := Scanning |}).
      assert (stream_step y1 y2) as H12.
      { pose proof (send_data dataHandler y1 data eq_refl) as Hsend. subst y1 y2. cbn in *. rewrite Hc in *. cbn in *.
        apply Hsend. unfold chanSize. lia. }
      assert (stream_step y2 (handle_next dataHandler data [] y2)) as H23 by (apply handle; done).
      edestruct (IH (handle_next dataHandler data [] y2)) as (y' & Hr & Hd);
        [|exists y'; split; [do 3 (eapply reachable_one; [eassumption|]); exact Hr|done]].
      unfold handle_next. cbn. destruct (dataHandler data (y_State y)) as [r h]. simpl in E. subst r.
      destruct (RecordErrors_reason errors (y_Status y)) as [_ E2]. split_and!; cbn; try done. by rewrite E2.
    + destruct (finishes (scanner_exit true (set_end StreamEndReasonDone {| y with y_Lines := lines |}))) as (y' & Hr & Hd);
        try done. { left. simpl. unfold SetEndReason. by rewrite He. }
      exists y'. split; [|done]. eapply reachable_one; [exact Hstep|exact Hr].
Qed.

Lemma stream_completes lines h0 : ∃ y, reachable (stream_start lines false false h0) y ∧ completed y.
Proof. apply (idle_completes lines). by split_and!. Qed.

End Props.
