(* ===== verification/Json.v ===== *)
(** * Json: JSON values and the stream formats of the providers

    The values [encoding/json] decodes into an [interface{}], and the message types of
    [dto/openai_response.go] and [dto/claude.go] that a streamed answer is made of.  A
    field's name carries a prefix for its struct; a pointer is an [option]. *)

From S2P Require Export GoString.
From S2P Require Export TextQuota.
From S2P Require Import Prelude.

#[warnings="-register-all"]
Inductive json : Type :=
  | JNull
  | JBool (b : bool)
  | JNumber (f : float64)
  | JString (s : string)
  | JArray (l : list json)
  | JObject (m : list (string * json)).

(** [m[key]] of a [map[string]interface{}]: [nil] when the key is absent. *)
Definition field (m : list (string * json)) (key : string) : json :=
  match List.find (λ kv, String.eqb kv.1 key) m with Some kv => kv.2 | None => JNull end.

(** The type assertions [v.(string)] and [v.(map[string]interface{})]. *)
Definition as_string (v : json) : option string := match v with JString s => Some s | _ => None end.
Definition as_object (v : json) : option (list (string * json)) := match v with JObject m => Some m | _ => None end.

(** ** OpenAI chunks ([dto/openai_response.go]) *)

Record FunctionResponse : Type := mkFunction {
  fn_Description : string;
  fn_Name : string;
  fn_Parameters : json;
  fn_Arguments : string;
}.
Record ToolCallResponse : Type := mkToolCall {
  tc_Index : option Z;
  tc_ID : string;
  tc_Type : json;
  tc_Function : FunctionResponse;
}.
(** [d_ToolCalls] tells a [nil] slice from an empty one: JSON gives both. *)
Record Delta : Type := mkDelta {
  d_Content : option string;
  d_ReasoningContent : option string;
  d_Reasoning : option string;
  d_Role : string;
  d_ToolCalls : option (list ToolCallResponse);
}.
Record StreamChoice : Type := mkStreamChoice {
  sc_Delta : Delta;
  sc_Logprobs : option json;
  sc_FinishReason : option string;
  sc_Index : Z;
}.
Record StreamResponse : Type := mkStreamResponse {
  sr_Id : string;
  sr_Object : string;
  sr_Created : Z;
  sr_Model : string;
  sr_SystemFingerprint : option string;
  sr_Choices : list StreamChoice;
  sr_Usage : option Usage;
}.

Definition emptyFunction : FunctionResponse := mkFunction "" "" JNull "".
Definition emptyToolCall : ToolCallResponse := mkToolCall None "" JNull emptyFunction.
Definition emptyDelta : Delta := mkDelta None None None "" None.
Definition emptyChoice : StreamChoice := mkStreamChoice emptyDelta None None 0.
Definition emptyStreamResponse : StreamResponse := mkStreamResponse "" "" 0 "" None [] None.

Definition delta_calls (d : Delta) : list ToolCallResponse := default [] (d_ToolCalls d).

Definition GetContentString (d : Delta) : string :=
  match d_Content d with None => "" | Some s => s end.
Definition SetContentString (d : Delta) (s : string) : Delta := {| d with d_Content := Some s |}.
Definition GetReasoningContent (d : Delta) : string :=
  match d_ReasoningContent d, d_Reasoning d with
  | None, None => ""
  | Some s, _ => s
  | None, Some s => s
  end.
Definition SetReasoningContent (d : Delta) (s : string) : Delta := {| d with d_ReasoningContent := Some s |}.

(** [c.FinishReason != nil && *c.FinishReason != ""] *)
Definition finished (c : StreamChoice) : bool :=
  match sc_FinishReason c with Some s => negb (bool_decide (s = "")) | None => false end.

Definition IsFinished (r : StreamResponse) : bool :=
  match sr_Choices r with [] => false | c :: _ => finished c end.
Definition IsToolCall (r : StreamResponse) : bool :=
  match sr_Choices r with
  | [] => false
  | c :: _ => (0 <? length (delta_calls (sc_Delta c)))%nat
  end.
Definition GetFirstToolCall (r : StreamResponse) : option ToolCallResponse :=
  if IsToolCall r then c ← head (sr_Choices r); head (delta_calls (sc_Delta c)) else None.

Definition clear_call (c : ToolCallResponse) : ToolCallResponse :=
  {| c with tc_ID := ""; tc_Type := JNull; tc_Function := {| (tc_Function c) with fn_Name := "" |} |}.
Definition clear_calls (d : Delta) : Delta := {| d with d_ToolCalls := option_map (map clear_call) (d_ToolCalls d) |}.
Definition ClearToolCalls (r : StreamResponse) : StreamResponse :=
  if IsToolCall r then
    {| r with sr_Choices := (λ c, {| c with sc_Delta := clear_calls (sc_Delta c) |}) <$> sr_Choices r |}
  else r.
Definition GetSystemFingerprint (r : StreamResponse) : string := default "" (sr_SystemFingerprint r).
Definition SetSystemFingerprint (r : StreamResponse) (s : string) : StreamResponse :=
  {| r with sr_SystemFingerprint := Some s |}.

(** ** Claude events ([dto/claude.go]) *)

Record CacheCreationUsage : Type := mkCacheCreation {
  Ephemeral5mInputTokens : Z;
  Ephemeral1hInputTokens : Z;
}.
Record ClaudeUsage : Type := mkClaudeUsage {
  cu_InputTokens : Z;
  cu_CacheCreationInputTokens : Z;
  cu_CacheReadInputTokens : Z;
  cu_OutputTokens : Z;
  cu_CacheCreation : option CacheCreationUsage;
  cu_WebSearchRequests : option Z;
}.
Record ClaudeMedia : Type := mkMedia {
  cm_Type : string;
  cm_Text : option string;
  cm_Model : string;
  cm_Usage : option ClaudeUsage;
  cm_StopReason : option string;
  cm_PartialJson : option string;
  cm_Role : string;
  cm_Thinking : option string;
  cm_Signature : string;
  cm_Id : string;
  cm_Name : string;
  cm_Input : json;
  cm_Content : json;
  cm_ToolUseId : string;
}.
Record ClaudeResponse : Type := mkClaudeResponse {
  cr_Id : string;
  cr_Type : string;
  cr_Role : string;
  cr_Content : list ClaudeMedia;
  cr_StopReason : string;
  cr_Model : string;
  cr_Error : json;
  cr_Usage : option ClaudeUsage;
  cr_Index : option Z;
  cr_ContentBlock : option ClaudeMedia;
  cr_Delta : option ClaudeMedia;
  cr_Message : option ClaudeMedia;
}.

Definition emptyClaudeUsage : ClaudeUsage := mkClaudeUsage 0 0 0 0 None None.
Definition emptyMedia : ClaudeMedia :=
  mkMedia "" None "" None None None "" None "" "" "" JNull JNull "".
Definition emptyClaude : ClaudeResponse :=
  mkClaudeResponse "" "" "" [] "" "" JNull None None None None None.

Definition GetText (m : ClaudeMedia) : string := default "" (cm_Text m).
Definition GetCacheCreation5mTokens (u : ClaudeUsage) : Z :=
  match cu_CacheCreation u with None => 0 | Some c => Ephemeral5mInputTokens c end.
Definition GetCacheCreation1hTokens (u : ClaudeUsage) : Z :=
  match cu_CacheCreation u with None => 0 | Some c => Ephemeral1hInputTokens c end.
Definition GetCacheCreationTotalTokens (u : ClaudeUsage) : Z :=
  if 0 <? cu_CacheCreationInputTokens u then cu_CacheCreationInputTokens u
  else wrap64 (GetCacheCreation5mTokens u + GetCacheCreation1hTokens u).
