(* ===== verification/TokenEstimator.v ===== *)
(** * TokenEstimator: the length of a text in tokens

    Models [service/token_estimator.go] and [ResponseText2Usage] of
    [service/usage_helpr.go].  The tables of the Unicode standard are an interface. *)

From Stdlib Require Import Qround.
From S2P Require Export Json.
From S2P Require Import Prelude.

#[local] Open Scope Z_scope.

(** ** Runes: [for _, r := range text] *)

Definition within (lo hi b : Z) : bool := (lo <=? b) && (b <=? hi).
Definition cont (b : Z) : bool := within 128 191 b.

(** The second byte a leading byte of three or four bytes allows. *)
Definition second (b0 b1 : Z) : bool :=
  if b0 =? 224 then within 160 191 b1 else if b0 =? 237 then within 128 159 b1
  else if b0 =? 240 then within 144 191 b1 else if b0 =? 244 then within 128 143 b1 else cont b1.

Definition RuneError : Z := 65533.

(** Each byte that starts no valid sequence is a [RuneError] of its own. *)
Fixpoint decode (l : list Z) : list Z :=
  match l with
  | [] => []
  | b0 :: r0 =>
      if b0 <? 128 then b0 :: decode r0
      else match r0 with
      | [] => [RuneError]
      | b1 :: r1 =>
          if within 194 223 b0 && cont b1 then (b0 - 192) * 64 + (b1 - 128) :: decode r1
          else match r1 with
          | [] => RuneError :: decode r0
          | b2 :: r2 =>
              if within 224 239 b0 && second b0 b1 && cont b2 then
                (b0 - 224) * 4096 + (b1 - 128) * 64 + (b2 - 128) :: decode r2
              else match r2 with
              | [] => RuneError :: decode r0
              | b3 :: r3 =>
                  if within 240 244 b0 && second b0 b1 && cont b2 && cont b3 then
                    (b0 - 240) * 262144 + (b1 - 128) * 4096 + (b2 - 128) * 64 + (b3 - 128) :: decode r3
                  else RuneError :: decode r0
              end
          end
      end
  end.
Definition runes (s : string) : list Z := decode (bytes_of s).

(** ** Weights *)

Inductive Provider : Type := OpenAI | Gemini | Claude | Unknown.

Record multipliers : Type := mkMultipliers {
  m_Word : float64; m_Number : float64; m_CJK : float64; m_Symbol : float64; m_MathSymbol : float64;
  m_URLDelim : float64; m_AtSign : float64; m_Emoji : float64; m_Newline : float64; m_Space : float64;
  m_BasePad : Z;
}.

Definition getMultipliers (p : Provider) : multipliers :=
  match p with
  | Gemini => mkMultipliers (lit 115 100) (lit 28 10) (lit 68 100) (lit 38 100) (lit 105 100)
                (lit 12 10) (lit 25 10) (lit 108 100) (lit 115 100) (lit 2 10) 0
  | Claude => mkMultipliers (lit 113 100) (lit 163 100) (lit 121 100) (lit 4 10) (lit 452 100)
                (lit 126 100) (lit 282 100) (lit 26 10) (lit 89 100) (lit 39 100) 0
  | OpenAI | Unknown => mkMultipliers (lit 102 100) (lit 155 100) (lit 85 100) (lit 4 10) (lit 268 100)
                (lit 1 1) (lit 2 1) (lit 212 100) (lit 5 10) (lit 42 100) 0
  end.

(** ** Classes of characters *)

Class Unicode : Type := {
  IsSpace : Z -> bool;
  IsLetter : Z -> bool;
  IsNumber : Z -> bool;
  IsHan : Z -> bool;
}.

Definition isEmoji (r : Z) : bool :=
  within 0x1F300 0x1F9FF r || within 0x2600 0x26FF r || within 0x2700 0x27BF r
  || within 0x1F600 0x1F64F r || within 0x1F900 0x1F9FF r || within 0x1FA00 0x1FAFF r.

(** The characters the code lists, in its order. *)
Definition mathSymbols : list Z :=
  [0x2211; 0x222B; 0x2202; 0x221A; 0x221E; 0x2264; 0x2265; 0x2260; 0x2248; 0xB1; 0xD7; 0xF7; 0x2208; 0x2209;
   0x220B; 0x220C; 0x2282; 0x2283; 0x2286; 0x2287; 0x222A; 0x2229; 0x2227; 0x2228; 0xAC; 0x2200; 0x2203; 0x2204;
   0x2205; 0x2206; 0x2207; 0x221D; 0x221F; 0x2220; 0x2221; 0x2222; 0xB0; 0x2032; 0x2033; 0x2034; 0x207A; 0x207B;
   0x207C; 0x207D; 0x207E; 0x207F; 0x2080; 0x2081; 0x2082; 0x2083; 0x2084; 0x2085; 0x2086; 0x2087; 0x2088; 0x2089;
   0x208A; 0x208B; 0x208C; 0x208D; 0x208E; 0xB2; 0xB3; 0xB9; 0x2074; 0x2075; 0x2076; 0x2077; 0x2078; 0x2079; 0x2070].
Definition isMathSymbol (r : Z) : bool :=
  bool_decide (r ∈ mathSymbols) || within 0x2200 0x22FF r || within 0x2A00 0x2AFF r || within 0x1D400 0x1D7FF r.

(** The bytes of [/:?&=;#%]. *)
Definition isURLDelim (r : Z) : bool := bool_decide (r ∈ [47; 58; 63; 38; 61; 59; 35; 37]).

Inductive WordType : Type := WNone | WLatin | WNumber.
#[export] Instance WordType_eq_dec : EqDecision WordType.
Proof. solve_decision. Defined.

(** [int(math.Ceil(f))] *)
Definition ceil_int (f : float64) : Z :=
  if is_finite f then
    let z := Qceiling (Q_of_float f) in
    if (- 2 ^ 63 <=? z) && (z <? 2 ^ 63) then z else - 2 ^ 63
  else - 2 ^ 63.

Section Estimate.

Context {uc : Unicode}.

Definition isCJK (r : Z) : bool := IsHan r || within 0x3040 0x30FF r || within 0xAC00 0xD7A3 r.
Definition isLatinOrNumber (r : Z) : bool := IsLetter r || IsNumber r.

(** What a character adds to the count, if anything, and the word it leaves open. *)
Definition rune_cost (m : multipliers) (current : WordType) (r : Z) : option float64 * WordType :=
  if IsSpace r then (Some (if (r =? 10) || (r =? 9) then m_Newline m else m_Space m), WNone)
  else if isCJK r then (Some (m_CJK m), WNone)
  else if isEmoji r then (Some (m_Emoji m), WNone)
  else if isLatinOrNumber r then
    let newType := if IsNumber r then WNumber else WLatin in
    if decide (current = newType) then (None, current)
    else (Some (if decide (newType = WNumber) then m_Number m else m_Word m), newType)
  else (Some (if isMathSymbol r then m_MathSymbol m else if r =? 64 then m_AtSign m
              else if isURLDelim r then m_URLDelim m else m_Symbol m), WNone).

Definition estimate_step (m : multipliers) (st : float64 * WordType) (r : Z) : float64 * WordType :=
  let '(cost, w) := rune_cost m st.2 r in
  (match cost with Some c => fadd st.1 c | None => st.1 end, w).

Definition EstimateToken (provider : Provider) (text : string) : Z :=
  let m := getMultipliers provider in
  let count := (foldl (estimate_step m) (fzero, WNone) (runes text)).1 in
  wrap64 (ceil_int count + m_BasePad m).

Definition EstimateTokenByModel (model text : string) : Z :=
  if decide (text = "") then 0
  else
    let model := ToLower model in
    if Contains model "gemini" then EstimateToken Gemini text
    else if Contains model "claude" then EstimateToken Claude text
    else EstimateToken OpenAI text.

(** ** Usage from the text ([service/usage_helpr.go]) *)

Definition ResponseText2Usage (responseText modeName : string) (promptTokens : Z) : Usage :=
  let completion := EstimateTokenByModel modeName responseText in
  {| emptyUsage with PromptTokens := promptTokens; CompletionTokens := completion;
     TotalTokens := wrap64 (promptTokens + completion) |}.

Definition ValidUsage (usage : option Usage) : bool :=
  match usage with
  | Some u => negb (PromptTokens u =? 0) || negb (CompletionTokens u =? 0)
  | None => false
  end.

End Estimate.
