(* ===== verification/ClaudeStream.v ===== *)
(** * ClaudeStream: OpenAI chunks as Claude events

    Models [StreamResponseOpenAI2Claude] of [service/convert.go] with its helpers and
    [relay/reasonmap/reasonmap.go].  The state a request keeps between chunks is
    [ClaudeConvertInfo]; the events are what the function returns.  Indices count the
    blocks of one answer and are not wrapped. *)

From S2P Require Export Json.
From S2P Require Import Prelude.

(** ** Reasons ([relay/reasonmap/reasonmap.go]) *)

Definition FinishReasonContentFilter : string := "content_filter".

Definition ClaudeStopReasonToOpenAIFinishReason (stopReason : string) : string :=
  let r := ToLower stopReason in
  if decide (r = "stop_sequence") then "stop"
  else if decide (r = "end_turn") then "stop"
  else if decide (r = "max_tokens") then "length"
  else if decide (r = "tool_use") then "tool_calls"
  else if decide (r = "refusal") then FinishReasonContentFilter
  else stopReason.

Definition OpenAIFinishReasonToClaudeStopReason (finishReason : string) : string :=
  let r := ToLower finishReason in
  if decide (r = "stop") then "end_turn"
  else if decide (r = "stop_sequence") then "stop_sequence"
  else if decide (r = "length" ∨ r = "max_tokens") then "max_tokens"
  else if decide (r = FinishReasonContentFilter) then "refusal"
  else if decide (r = "tool_calls") then "tool_use"
  else finishReason.

Definition stopReasonOpenAI2Claude : string -> string := OpenAIFinishReasonToClaudeStopReason.

(** ** Usage *)

Definition NormalizeCacheCreationSplit (totalTokens tokens5m tokens1h : Z) : Z * Z :=
  let remainder := Z.max (wrap64 (wrap64 (totalTokens - tokens5m) - tokens1h)) 0 in
  (wrap64 (tokens5m + remainder), tokens1h).

Definition buildClaudeUsageFromOpenAIUsage (u : Usage) : ClaudeUsage :=
  let created := CachedCreationTokens (PromptTokensDetails u) in
  let '(c5m, c1h) := NormalizeCacheCreationSplit created
    (ClaudeCacheCreation5mTokens u) (ClaudeCacheCreation1hTokens u) in
  {| emptyClaudeUsage with
     cu_InputTokens := PromptTokens u;
     cu_OutputTokens := CompletionTokens u;
     cu_CacheCreationInputTokens := created;
     cu_CacheReadInputTokens := CachedTokens (PromptTokensDetails u);
     cu_CacheCreation := if (0 <? c5m) || (0 <? c1h) then Some (mkCacheCreation c5m c1h) else None |}.

(** ** The state between chunks ([ClaudeConvertInfo] of [relay/common/relay_info.go]) *)

Inductive MessageType : Type :=
  LastMessageTypeNone | LastMessageTypeText | LastMessageTypeTools | LastMessageTypeThinking.
#[export] Instance MessageType_eq_dec : EqDecision MessageType.
Proof. solve_decision. Defined.

Record ClaudeConvertInfo : Type := mkConvert {
  LastMessagesType : MessageType;
  Index : Z;
  ci_Usage : option Usage;
  FinishReason : string;
  Done : bool;
  ToolCallBaseIndex : Z;
  ToolCallMaxIndexOffset : Z;
}.
(** As [GenRelayInfoClaude] makes it. *)
Definition initConvert : ClaudeConvertInfo := mkConvert LastMessageTypeNone 0 None "" false 0 0.

(** ** Events *)

Definition generateStopBlock (index : Z) : ClaudeResponse :=
  {| emptyClaude with cr_Type := "content_block_stop"; cr_Index := Some index |}.

Definition blockStart (index : Z) (block : ClaudeMedia) : ClaudeResponse :=
  {| emptyClaude with cr_Type := "content_block_start"; cr_Index := Some index; cr_ContentBlock := Some block |}.
Definition blockDelta (index : Z) (delta : ClaudeMedia) : ClaudeResponse :=
  {| emptyClaude with cr_Type := "content_block_delta"; cr_Index := Some index; cr_Delta := Some delta |}.

Definition textBlock : ClaudeMedia := {| emptyMedia with cm_Type := "text"; cm_Text := Some "" |}.
Definition thinkingBlock : ClaudeMedia := {| emptyMedia with cm_Type := "thinking"; cm_Thinking := Some "" |}.
Definition toolBlock (call : ToolCallResponse) : ClaudeMedia :=
  {| emptyMedia with cm_Id := tc_ID call; cm_Type := "tool_use"; cm_Name := fn_Name (tc_Function call);
     cm_Input := JObject [] |}.
Definition textDelta (s : string) : ClaudeMedia := {| emptyMedia with cm_Type := "text_delta"; cm_Text := Some s |}.
Definition thinkingDelta (s : string) : ClaudeMedia :=
  {| emptyMedia with cm_Type := "thinking_delta"; cm_Thinking := Some s |}.
Definition jsonDelta (s : string) : ClaudeMedia :=
  {| emptyMedia with cm_Type := "input_json_delta"; cm_PartialJson := Some s |}.

Definition messageStart (r : StreamResponse) (promptTokens : Z) : ClaudeResponse :=
  {| emptyClaude with cr_Type := "message_start"; cr_Message := Some
     {| emptyMedia with cm_Id := sr_Id r; cm_Model := sr_Model r; cm_Type := "message"; cm_Role := "assistant";
        cm_Usage := Some {| emptyClaudeUsage with cu_InputTokens := promptTokens |}; cm_Content := JArray [] |} |}.
Definition messageDelta (u : Usage) (stopReason : string) : ClaudeResponse :=
  {| emptyClaude with cr_Type := "message_delta"; cr_Usage := Some (buildClaudeUsageFromOpenAIUsage u);
     cr_Delta := Some {| emptyMedia with cm_StopReason := Some stopReason |} |}.
Definition messageStop : ClaudeResponse := {| emptyClaude with cr_Type := "message_stop" |}.

Definition stopOpenBlocks (ci : ClaudeConvertInfo) : list ClaudeResponse :=
  match LastMessagesType ci with
  | LastMessageTypeText | LastMessageTypeThinking => [generateStopBlock (Index ci)]
  | LastMessageTypeTools =>
      (λ offset, generateStopBlock (ToolCallBaseIndex ci + offset)) <$> seqZ 0 (ToolCallMaxIndexOffset ci + 1)
  | LastMessageTypeNone => []
  end.

Definition stopOpenBlocksAndAdvance (ci : ClaudeConvertInfo) : list ClaudeResponse * ClaudeConvertInfo :=
  match LastMessagesType ci with
  | LastMessageTypeNone => ([], ci)
  | LastMessageTypeTools =>
      (stopOpenBlocks ci,
       {| ci with Index := ToolCallBaseIndex ci + ToolCallMaxIndexOffset ci + 1;
          ToolCallBaseIndex := 0; ToolCallMaxIndexOffset := 0; LastMessagesType := LastMessageTypeNone |})
  | _ =>
      (stopOpenBlocks ci, {| ci with Index := Index ci + 1; LastMessagesType := LastMessageTypeNone |})
  end.

(** The end of the answer: open blocks are closed, the usage is reported when there is
    one, and nothing is sent afterwards. *)
Definition available_usage (r : StreamResponse) (ci : ClaudeConvertInfo) : option Usage :=
  match sr_Usage r with Some u => Some u | None => ci_Usage ci end.
Definition closeMessage (usage : option Usage) (reason : string) (ci : ClaudeConvertInfo)
    : list ClaudeResponse * ClaudeConvertInfo :=
  (stopOpenBlocks ci ++ match usage with Some u => [messageDelta u reason] | None => [] end ++ [messageStop],
   {| ci with Done := true |}).

(** ** The first chunk *)

Definition first_tool (r : StreamResponse) (ci : ClaudeConvertInfo) : list ClaudeResponse * ClaudeConvertInfo :=
  if IsToolCall r then
    let call := default emptyToolCall (GetFirstToolCall r) in
    (blockStart 0 (toolBlock call) ::
       (if decide (fn_Arguments (tc_Function call) = "") then [] else [blockDelta 0 (jsonDelta (fn_Arguments (tc_Function call)))]),
     {| ci with LastMessagesType := LastMessageTypeTools; ToolCallBaseIndex := 0; ToolCallMaxIndexOffset := 0 |})
  else ([], ci).

(** A block of type [ty] at the next free index with its first delta. *)
Definition first_block (ty : MessageType) (block delta : ClaudeMedia) (ci : ClaudeConvertInfo)
    : list ClaudeResponse * ClaudeConvertInfo :=
  let '(closed, ci) := if decide (LastMessagesType ci = ty) then ([], ci) else stopOpenBlocksAndAdvance ci in
  (closed ++ [blockStart (Index ci) block; blockDelta (Index ci) delta], {| ci with LastMessagesType := ty |}).

Definition first_content (r : StreamResponse) (ci : ClaudeConvertInfo) : list ClaudeResponse * ClaudeConvertInfo :=
  match sr_Choices r with
  | [] => ([], ci)
  | c :: _ =>
      let reasoning := GetReasoningContent (sc_Delta c) in
      let content := GetContentString (sc_Delta c) in
      if decide (reasoning = "") then
        if decide (content = "") then ([], ci)
        else first_block LastMessageTypeText textBlock (textDelta content) ci
      else first_block LastMessageTypeThinking thinkingBlock (thinkingDelta reasoning) ci
  end.

Definition first_finish (r : StreamResponse) (ci : ClaudeConvertInfo) : list ClaudeResponse * ClaudeConvertInfo :=
  match sr_Choices r with
  | c :: _ =>
      if finished c then
        let ci := {| ci with FinishReason := default "" (sc_FinishReason c) |} in
        closeMessage (available_usage r ci) (stopReasonOpenAI2Claude (FinishReason ci)) ci
      else ([], ci)
  | [] => ([], ci)
  end.

Definition first_response (promptTokens : Z) (r : StreamResponse) (ci : ClaudeConvertInfo)
    : list ClaudeResponse * ClaudeConvertInfo :=
  let '(tool, ci) := first_tool r ci in
  let '(content, ci) := first_content r ci in
  let '(finish, ci) := first_finish r ci in
  (messageStart r promptTokens :: tool ++ content ++ finish, ci).

(** ** Later chunks *)

(** A chunk without choices carries the usage and ends the answer. *)
Definition usage_response (r : StreamResponse) (ci : ClaudeConvertInfo) : list ClaudeResponse * ClaudeConvertInfo :=
  match available_usage r ci with
  | Some u =>
      let stopReason := stopReasonOpenAI2Claude (FinishReason ci) in
      closeMessage (Some u) (if decide (stopReason = "") then "end_turn" else stopReason) ci
  | None => ([], ci)
  end.

(** The loop over the tool calls of a chunk: events and the largest offset. *)
Fixpoint tool_events (base maxOffset i : Z) (calls : list ToolCallResponse) : list ClaudeResponse * Z :=
  match calls with
  | [] => ([], maxOffset)
  | call :: rest =>
      let offset := default i (tc_Index call) in
      let maxOffset := if maxOffset <? offset then offset else maxOffset in
      let idx := base + offset in
      let fn := tc_Function call in
      let '(events, m) := tool_events base maxOffset (i + 1) rest in
      ((if decide (fn_Name fn = "") then [] else [blockStart idx (toolBlock call)]) ++
       (if decide (fn_Arguments fn = "") then [] else [blockDelta idx (jsonDelta (fn_Arguments fn))]) ++ events, m)
  end.

Definition tool_response (calls : list ToolCallResponse) (ci : ClaudeConvertInfo)
    : list ClaudeResponse * ClaudeConvertInfo :=
  let '(closed, ci) :=
    if decide (LastMessagesType ci = LastMessageTypeTools) then ([], ci)
    else let '(closed, ci) := stopOpenBlocksAndAdvance ci in
         (closed, {| ci with ToolCallBaseIndex := Index ci; ToolCallMaxIndexOffset := 0 |}) in
  let base := ToolCallBaseIndex ci in
  let '(events, maxOffset) := tool_events base (ToolCallMaxIndexOffset ci) 0 calls in
  (closed ++ events,
   {| ci with LastMessagesType := LastMessageTypeTools; ToolCallMaxIndexOffset := maxOffset;
      Index := base + maxOffset |}).

(** A delta of a text or thinking block, which is opened if another kind of block is. *)
Definition content_delta (ty : MessageType) (block delta : ClaudeMedia) (ci : ClaudeConvertInfo)
    : list ClaudeResponse * ClaudeConvertInfo :=
  let '(opened, ci) :=
    if decide (LastMessagesType ci = ty) then ([], ci)
    else let '(closed, ci) := stopOpenBlocksAndAdvance ci in (closed ++ [blockStart (Index ci) block], ci) in
  (opened ++ [blockDelta (Index ci) delta], {| ci with LastMessagesType := ty |}).

Definition content_response (d : Delta) (ci : ClaudeConvertInfo) : list ClaudeResponse * ClaudeConvertInfo :=
  match delta_calls d with
  | _ :: _ => tool_response (delta_calls d) ci
  | [] =>
      let reasoning := GetReasoningContent d in
      let textContent := GetContentString d in
      if decide (reasoning = "") then
        if decide (textContent = "") then ([], ci)
        else content_delta LastMessageTypeText textBlock (textDelta textContent) ci
      else content_delta LastMessageTypeThinking thinkingBlock (thinkingDelta reasoning) ci
  end.

Definition choice_response (r : StreamResponse) (c : StreamChoice) (ci : ClaudeConvertInfo)
    : list ClaudeResponse * ClaudeConvertInfo :=
  let doneChunk := finished c in
  let ci := if doneChunk then {| ci with FinishReason := default "" (sc_FinishReason c) |} else ci in
  if doneChunk && bool_decide (sr_Usage r = None) then ([], ci)
  else
    let '(events, ci) := content_response (sc_Delta c) ci in
    if doneChunk || Done ci then
      let '(closing, ci) := closeMessage (available_usage r ci) (stopReasonOpenAI2Claude (FinishReason ci)) ci in
      (events ++ closing, ci)
    else (events, ci).

Definition StreamResponseOpenAI2Claude (sendResponseCount promptTokens : Z) (r : StreamResponse)
    (ci : ClaudeConvertInfo) : list ClaudeResponse * ClaudeConvertInfo :=
  if Done ci then ([], ci)
  else if sendResponseCount =? 1 then first_response promptTokens r ci
  else match sr_Choices r with
       | [] => usage_response r ci
       | c :: _ => choice_response r c ci
       end.
