(* ===== verification/OaiStream.v ===== *)
(** * OaiStream: the answer of an OpenAI upstream, streamed to the client

    Models [StreamResponseOpenAI2Gemini] of [service/convert.go] with the parts of
    [dto/gemini.go] it fills in, [relay/channel/openai/helper.go], [OaiStreamHandler] and
    [sendStreamData] of [relay-openai.go], [usage.go] there, and the final chunk of
    [relay/helper/common.go].  A run takes the data lines [StreamScannerHandler] hands to
    the handler and gives what is written to the client and the usage to bill.  Decoding
    JSON into the structs of the code is an interface; writes to the client succeed. *)

From S2P Require Export ClaudeStream.
From S2P Require Export TokenEstimator.
From S2P Require Export StreamScanner.
From S2P Require Import Prelude.

Record FunctionCall : Type := mkFunctionCall {
  FunctionName : string;
  fc_Arguments : json;
}.
Record GeminiBlob : Type := mkBlob { MimeType : string; blob_Data : string }.
Record GeminiFunctionResponse : Type := mkFunctionResult { gr_Name : string; gr_Response : json }.
Record GeminiPart : Type := mkPart {
  gp_Text : string;
  gp_Thought : bool;
  gp_InlineData : option GeminiBlob;
  gp_FunctionCall : option FunctionCall;
  gp_FunctionResponse : option GeminiFunctionResponse;
  gp_FileData : option GeminiBlob;
}.
Record GeminiContent : Type := mkContent {
  gc_Role : string;
  gc_Parts : list GeminiPart;
}.
Record GeminiCandidate : Type := mkCandidate {
  ga_Content : GeminiContent;
  ga_FinishReason : option string;
  ga_Index : Z;
}.
Record GeminiUsageMetadata : Type := mkUsageMetadata {
  PromptTokenCount : Z;
  CandidatesTokenCount : Z;
  TotalTokenCount : Z;
}.
Record GeminiChatResponse : Type := mkGeminiResponse {
  Candidates : list GeminiCandidate;
  UsageMetadata : GeminiUsageMetadata;
}.
Definition emptyPart : GeminiPart := mkPart "" false None None None None.

Definition gemini_reason (reason : string) : string :=
  if decide (reason = "stop") then "STOP"
  else if decide (reason = "length") then "MAX_TOKENS"
  else if decide (reason = "content_filter") then "SAFETY"
  else if decide (reason = "tool_calls") then "STOP"
  else "STOP".

Section Convert.

(** [json.Unmarshal] of a text into a [map[string]interface{}]: [JNull] for the text
    [null], [None] for an error. *)
Variable UnmarshalMap : string -> option json.

Definition call_args (arguments : string) : json :=
  if decide (arguments = "") then JObject []
  else match UnmarshalMap arguments with
       | Some v => v
       | None => JObject [("arguments", JString arguments)]
       end.

Definition call_part (name arguments : string) : GeminiPart :=
  {| emptyPart with gp_FunctionCall := Some (mkFunctionCall name (call_args arguments)) |}.
Definition text_part (text : string) : list GeminiPart :=
  if decide (text = "") then [] else [ {| emptyPart with gp_Text := text |} ].

Definition stream_candidate (c : StreamChoice) : GeminiCandidate :=
  {| ga_Index := sc_Index c;
     ga_FinishReason := gemini_reason <$> sc_FinishReason c;
     ga_Content := mkContent "model"
       match d_ToolCalls (sc_Delta c) with
       | Some calls => (λ t, call_part (fn_Name (tc_Function t)) (fn_Arguments (tc_Function t))) <$> calls
       | None => text_part (GetContentString (sc_Delta c))
       end |}.

Definition has_content (c : StreamChoice) : bool :=
  negb (bool_decide (GetContentString (sc_Delta c) = "")) || (0 <? length (delta_calls (sc_Delta c)))%nat.

Definition StreamResponseOpenAI2Gemini (promptTokens : Z) (r : StreamResponse) : option GeminiChatResponse :=
  if existsb has_content (sr_Choices r) || existsb (λ c, bool_decide (is_Some (sc_FinishReason c))) (sr_Choices r)
  then Some {| Candidates := stream_candidate <$> sr_Choices r;
               UsageMetadata := match sr_Usage r with
                                | Some u => mkUsageMetadata (PromptTokens u) (CompletionTokens u) (TotalTokens u)
                                | None => mkUsageMetadata promptTokens 0 promptTokens
                                end |}
  else None.

End Convert.

(** ** The handler *)

Inductive RelayFormat : Type := RelayFormatOpenAI | RelayFormatClaude | RelayFormatGemini | RelayFormatOther.
Inductive RelayMode : Type := RelayModeChatCompletions | RelayModeCompletions | RelayModeOther.

(** What is written to the client. *)
Inductive Output : Type :=
  | StringData (s : string)
  | ObjectData (r : StreamResponse)
  | ClaudeData (r : ClaudeResponse)
  | GeminiData (r : GeminiChatResponse).
Definition DoneData : Output := StringData "[DONE]".

(** The decoders the code uses, one per struct it decodes into. *)
Class Decoder : Type := {
  UnmarshalMap : string -> option json;
  UnmarshalChunk : string -> option StreamResponse;
  UnmarshalCompletion : string -> option (list string);
  UnmarshalUsage : string -> option (option Usage);
  UnmarshalCached : string -> option (option Z * option Z * option Z);
  UnmarshalMoonshot : string -> option (list (option Z));
  UnmarshalLlama : string -> option (option Z);
}.

(** The fields of [RelayInfo] the handler reads. *)
Record StreamConfig : Type := mkStreamConfig {
  cf_Format : RelayFormat;
  cf_Mode : RelayMode;
  cf_ChannelType : Z;
  cf_UpstreamModel : string;
  cf_PromptTokens : Z;
  cf_IncludeUsage : bool;
  cf_ForceFormat : bool;
  cf_ThinkingToContent : bool;
}.

Record ThinkingContentInfo : Type := mkThinking {
  IsFirstThinkingContent : bool;
  SendLastThinkingContent : bool;
  HasSentThinkingContent : bool;
}.

(** The fields it changes, and what has been written. *)
Record StreamState : Type := mkStreamState {
  SendResponseCount : Z;
  ss_Claude : ClaudeConvertInfo;
  ss_Thinking : ThinkingContentInfo;
  ss_Sent : list Output;
}.
Definition initStream : StreamState := mkStreamState 0 initConvert (mkThinking true false false) [].
Definition send (o : list Output) (st : StreamState) : StreamState := {| st with ss_Sent := ss_Sent st ++ o |}.

(** ** OpenAI format *)

Definition LF : string := String (Ascii.ascii_of_nat 10) "".

(** The chunk with [s] as the content of every choice. *)
Definition set_contents (s : string) (r : StreamResponse) : StreamResponse :=
  {| r with sr_Choices := (λ c, {| c with sc_Delta :=
       {| (SetContentString (sc_Delta c) s) with d_ReasoningContent := None; d_Reasoning := None |} |})
       <$> sr_Choices r |}.

Definition reasoning_of (r : StreamResponse) : string :=
  foldr (λ c acc, GetReasoningContent (sc_Delta c) +:+ acc) "" (sr_Choices r).
Definition hasThinkingContent (r : StreamResponse) : bool :=
  existsb (λ c, negb (bool_decide (GetReasoningContent (sc_Delta c) = ""))) (sr_Choices r).
Definition hasContent (r : StreamResponse) : bool :=
  existsb (λ c, negb (bool_decide (GetContentString (sc_Delta c) = ""))) (sr_Choices r).

Definition convert_choice (thinking content : bool) (c : StreamChoice) : StreamChoice :=
  let d := sc_Delta c in
  if negb (bool_decide (GetReasoningContent d = "")) then
    {| c with sc_Delta := {| (SetContentString d (GetReasoningContent d)) with
                             d_ReasoningContent := None; d_Reasoning := None |} |}
  else if negb thinking && negb content then
    {| c with sc_Delta := {| d with d_ReasoningContent := None; d_Reasoning := None |} |}
  else c.

(** The loop over the choices: [prior] are those already converted. *)
Fixpoint convert_choices (r : StreamResponse) (thinking content : bool) (prior rest : list StreamChoice)
    (st : StreamState) : list StreamChoice * StreamState :=
  match rest with
  | [] => (prior, st)
  | c :: rest =>
      let t := ss_Thinking st in
      let st :=
        if content && negb (SendLastThinkingContent t) && HasSentThinkingContent t then
          send [ObjectData (set_contents (LF +:+ "</think>" +:+ LF)
                  {| r with sr_Choices := prior ++ c :: rest |})]
            {| st with ss_Thinking := {| t with SendLastThinkingContent := true |} |}
        else st in
      convert_choices r thinking content (prior ++ [convert_choice thinking content c]) rest st
  end.

Section Handler.

Context {uc : Unicode} {dec : Decoder}.

(** The error is logged by the callers; the stream goes on. *)
Definition sendStreamData (data : string) (forceFormat thinkToContent : bool) (st : StreamState)
    : option error * StreamState :=
  if decide (data = "") then (None, st)
  else if negb forceFormat && negb thinkToContent then (None, send [StringData data] st)
  else match UnmarshalChunk data with
  | None => (Some (EText "unmarshal"), st)
  | Some r =>
      if negb thinkToContent then (None, send [ObjectData r] st)
      else
        let t := ss_Thinking st in
        if IsFirstThinkingContent t && hasThinkingContent r then
          (None, send [ObjectData (set_contents ("<think>" +:+ LF +:+ reasoning_of r) r)]
                   {| st with ss_Thinking :=
                        {| t with IsFirstThinkingContent := false; HasSentThinkingContent := true |} |})
        else match sr_Choices r with
        | [] => (None, send [ObjectData r] st)
        | _ =>
            let '(choices, st) := convert_choices r (hasThinkingContent r) (hasContent r) [] (sr_Choices r) st in
            (None, send [ObjectData {| r with sr_Choices := choices |}] st)
        end
  end.

(** ** Claude and Gemini formats *)

Definition to_claude (count prompt : Z) (r : StreamResponse) (st : StreamState) : StreamState :=
  let '(events, ci) := StreamResponseOpenAI2Claude count prompt r (ss_Claude st) in
  send (ClaudeData <$> events) {| st with ss_Claude := ci |}.
Definition to_gemini (prompt : Z) (r : StreamResponse) (st : StreamState) : StreamState :=
  match StreamResponseOpenAI2Gemini UnmarshalMap prompt r with
  | Some g => send [GeminiData g] st
  | None => st
  end.

Definition handleClaudeFormat (prompt : Z) (data : string) (st : StreamState) : option error * StreamState :=
  match UnmarshalChunk data with
  | None => (Some (EText "unmarshal"), st)
  | Some r =>
      let ci := ss_Claude st in
      let st := match sr_Usage r with
                | Some u => {| st with ss_Claude := {| ci with ci_Usage := Some u |} |}
                | None => st
                end in
      (None, to_claude (SendResponseCount st) prompt r st)
  end.

Definition handleGeminiFormat (prompt : Z) (data : string) (st : StreamState) : option error * StreamState :=
  match UnmarshalChunk data with
  | None => (Some (EText "unmarshal"), st)
  | Some r => (None, to_gemini prompt r st)
  end.

Definition HandleStreamFormat (cf : StreamConfig) (data : string) (st : StreamState) : option error * StreamState :=
  let st := {| st with SendResponseCount := SendResponseCount st + 1 |} in
  match cf_Format cf with
  | RelayFormatOpenAI => sendStreamData data (cf_ForceFormat cf) (cf_ThinkingToContent cf) st
  | RelayFormatClaude => handleClaudeFormat (cf_PromptTokens cf) data st
  | RelayFormatGemini => handleGeminiFormat (cf_PromptTokens cf) data st
  | RelayFormatOther => (None, st)
  end.

(** ** The text of the answer, for counting *)

Definition call_text (t : ToolCallResponse) : string := fn_Name (tc_Function t) +:+ fn_Arguments (tc_Function t).
Definition choice_text (c : StreamChoice) : string :=
  GetContentString (sc_Delta c) +:+ GetReasoningContent (sc_Delta c)
  +:+ foldr (λ t acc, call_text t +:+ acc) "" (delta_calls (sc_Delta c)).

Definition ProcessStreamResponse (r : StreamResponse) (acc : string * Z) : string * Z :=
  foldl (λ a c, (a.1 +:+ choice_text c, Z.max a.2 (Z.of_nat (length (delta_calls (sc_Delta c)))))) acc (sr_Choices r).

Definition processTokenData (mode : RelayMode) (data : string) (acc : string * Z) : option error * (string * Z) :=
  match mode with
  | RelayModeChatCompletions =>
      match UnmarshalChunk data with
      | None => (Some (EText "unmarshal"), acc)
      | Some r => (None, ProcessStreamResponse r acc)
      end
  | RelayModeCompletions =>
      match UnmarshalCompletion data with
      | None => (Some (EText "unmarshal"), acc)
      | Some texts => (None, (foldl (λ a t, a +:+ t) acc.1 texts, acc.2))
      end
  | RelayModeOther => (None, acc)
  end.

(** ** Cached tokens ([usage.go]) *)

Definition ChannelTypeZhipu_v4 : Z := 26.
Definition ChannelTypeMoonshot : Z := 25.
Definition ChannelTypeDeepSeek : Z := 43.
Definition ChannelTypeOpenAI : Z := 1.

Definition extractCachedTokensFromBody (body : string) : option Z :=
  if decide (body = "") then None
  else match UnmarshalCached body with
       | None => None
       | Some (Some n, _, _) => Some n
       | Some (None, Some n, _) => Some n
       | Some (None, None, n) => n
       end.
Definition extractMoonshotCachedTokensFromBody (body : string) : option Z :=
  if decide (body = "") then None
  else l ← UnmarshalMoonshot body; head (omap (λ o, n ← o; if 0 <? n then Some n else None) l).
Definition extractLlamaCachedTokensFromBody (body : string) : option Z :=
  if decide (body = "") then None else mjoin (UnmarshalLlama body).

Definition set_cached (n : Z) (u : Usage) : Usage :=
  {| u with PromptTokensDetails := {| (PromptTokensDetails u) with CachedTokens := n |} |}.
(** The first of the sources that has a number, or the usage as it is. *)
Definition first_source (sources : list (option Z)) (u : Usage) : Usage :=
  match head (omap id sources) with Some n => set_cached n u | None => u end.
Definition positive_hits (u : Usage) : option Z :=
  if 0 <? PromptCacheHitTokens u then Some (PromptCacheHitTokens u) else None.
Definition input_details (u : Usage) : option Z :=
  d ← InputTokensDetails u; if 0 <? CachedTokens d then Some (CachedTokens d) else None.

Definition applyUsagePostProcessing (channelType : Z) (u : Usage) (body : string) : Usage :=
  if negb (CachedTokens (PromptTokensDetails u) =? 0) then u
  else if channelType =? ChannelTypeDeepSeek then
    if negb (PromptCacheHitTokens u =? 0) then set_cached (PromptCacheHitTokens u) u else u
  else if channelType =? ChannelTypeZhipu_v4 then
    first_source [input_details u; extractCachedTokensFromBody body; positive_hits u] u
  else if channelType =? ChannelTypeMoonshot then
    first_source [input_details u; extractMoonshotCachedTokensFromBody body; extractCachedTokensFromBody body;
                  positive_hits u] u
  else if channelType =? ChannelTypeOpenAI then
    first_source [extractLlamaCachedTokensFromBody body] u
  else u.

(** ** The handler *)

Record HandlerState : Type := mkHandlerState {
  h_Last : string;
  h_SecondLast : string;
  h_Text : string;
  h_ToolCount : Z;
  h_Errors : list error;
  h_Stream : StreamState;
}.
Definition initHandler : HandlerState := mkHandlerState "" "" "" 0 [] initStream.
Definition soft_error (e : option error) : list error := match e with Some e => [e] | None => [] end.

Definition isAudioModel (cf : StreamConfig) : bool := Contains (ToLower (cf_UpstreamModel cf)) "audio".

(** A data line: the line before it is sent on, then it is counted and kept. *)
Definition handle_data (cf : StreamConfig) (h : HandlerState) (data : string) : HandlerState :=
  let h :=
    if decide (h_Last h = "") then h
    else let '(e, st) := HandleStreamFormat cf (h_Last h) (h_Stream h) in
         {| h with h_Errors := h_Errors h ++ soft_error e; h_Stream := st |} in
  if decide (data = "") then h
  else
    let second := if isAudioModel cf && negb (bool_decide (h_Last h = "")) then h_Last h else h_SecondLast h in
    let '(e, (text, tools)) := processTokenData (cf_Mode cf) data (h_Text h, h_ToolCount h) in
    {| h with h_Last := data; h_SecondLast := second; h_Text := text; h_ToolCount := tools;
       h_Errors := h_Errors h ++ soft_error e |}.

(** The usage of the last line but one, for audio models. *)
Definition audio_usage (cf : StreamConfig) (h : HandlerState) : option Usage :=
  if isAudioModel cf && negb (bool_decide (h_SecondLast h = "")) then
    match UnmarshalUsage (h_SecondLast h) with
    | Some (Some u) => if ValidUsage (Some u) then Some u else None
    | _ => None
    end
  else None.

Record LastResponse : Type := mkLastResponse {
  l_Id : string;
  l_Created : Z;
  l_Model : string;
  l_Fingerprint : string;
  l_Usage : option Usage;
  l_ShouldSend : bool;
}.
Definition has_text (c : StreamChoice) : bool :=
  negb (bool_decide (GetContentString (sc_Delta c) = "")) || negb (bool_decide (GetReasoningContent (sc_Delta c) = "")).

(** [l_Usage] is the usage the stream contains, if any. *)
Definition handleLastResponse (cf : StreamConfig) (last : string) (usage : option Usage) : LastResponse :=
  match UnmarshalChunk last with
  | None => mkLastResponse "" 0 (cf_UpstreamModel cf) "" usage true
  | Some r =>
      let valid := ValidUsage (sr_Usage r) in
      mkLastResponse (sr_Id r) (sr_Created r) (sr_Model r) (GetSystemFingerprint r)
        (if valid then sr_Usage r else usage)
        (if valid && negb (cf_IncludeUsage cf) then existsb has_text (sr_Choices r) else true)
  end.

Definition GenerateFinalUsageResponse (id : string) (createAt : Z) (model : string) (usage : Usage) : StreamResponse :=
  {| emptyStreamResponse with sr_Id := id; sr_Object := "chat.completion.chunk"; sr_Created := createAt;
     sr_Model := model; sr_Usage := Some usage |}.

Definition HandleFinalResponse (cf : StreamConfig) (last : string) (l : LastResponse) (usage : Usage)
    (st : StreamState) : StreamState :=
  match cf_Format cf with
  | RelayFormatOpenAI =>
      let final := SetSystemFingerprint (GenerateFinalUsageResponse (l_Id l) (l_Created l) (l_Model l) usage)
                     (l_Fingerprint l) in
      let st := if cf_IncludeUsage cf && bool_decide (l_Usage l = None) then send [ObjectData final] st else st in
      send [DoneData] st
  | RelayFormatClaude =>
      match UnmarshalChunk last with
      | None => st
      | Some r =>
          let ci := ss_Claude st in
          let st := to_claude (SendResponseCount st) (cf_PromptTokens cf) r
                      {| st with ss_Claude := {| ci with ci_Usage := Some usage |} |} in
          {| st with ss_Claude := {| (ss_Claude st) with Done := true |} |}
      end
  | RelayFormatGemini =>
      match UnmarshalChunk last with
      | None => st
      | Some r => to_gemini (cf_PromptTokens cf) r st
      end
  | RelayFormatOther => st
  end.

(** The usage to bill: what the stream reports, or an estimate from its text. *)
Definition final_usage (cf : StreamConfig) (h : HandlerState) (l : LastResponse) : Usage :=
  let usage :=
    match l_Usage l with
    | Some u => u
    | None =>
        let u := ResponseText2Usage (h_Text h) (cf_UpstreamModel cf) (cf_PromptTokens cf) in
        {| u with CompletionTokens := wrap64 (CompletionTokens u + h_ToolCount h * 7) |}
    end in
  applyUsagePostProcessing (cf_ChannelType cf) usage (h_Last h).

(** What follows the stream. *)
Definition finish_stream (cf : StreamConfig) (h : HandlerState) : Usage * StreamState :=
  let l := handleLastResponse cf (h_Last h) (audio_usage cf h) in
  let st :=
    match cf_Format cf with
    | RelayFormatOpenAI =>
        if l_ShouldSend l then (sendStreamData (h_Last h) (cf_ForceFormat cf) (cf_ThinkingToContent cf) (h_Stream h)).2
        else h_Stream h
    | _ => h_Stream h
    end in
  let usage := final_usage cf h l in
  (usage, HandleFinalResponse cf (h_Last h) l usage st).

(** The closure given to [StreamScannerHandler]: it records errors and goes on. *)
Definition oai_data_handler (cf : StreamConfig) (data : string) (h : HandlerState) : StreamResult * HandlerState :=
  let h' := handle_data cf h data in
  (SContinue (Error <$> drop (length (h_Errors h)) (h_Errors h')), h').

(** The handler on the data lines of a stream. *)
Definition OaiStreamHandler (cf : StreamConfig) (lines : list string) : Usage * StreamState :=
  finish_stream cf (foldl (handle_data cf) initHandler lines).

End Handler.
