(* ===== verification/ClaudeClient.v ===== *)
(** * ClaudeClient: what a client of the Claude API makes of a stream

    The abstract side of the conversion: the state machine by which a client of the
    Anthropic API reads events (a message starts, blocks are opened in order, deltas go
    to open blocks of their type, blocks are closed, the stop reason and the usage come
    when all are closed, the message stops), the answer an OpenAI stream stands for, and
    the streams a conforming upstream sends. *)

From S2P Require Export OaiStream.
From S2P Require Import Prelude.

(** ** The reader of events *)

Inductive Kind : Type := KText | KThinking | KTool (id name : string).
#[export] Instance Kind_eq_dec : EqDecision Kind.
Proof. solve_decision. Defined.
Abbreviation cblock := (Kind * string)%type.

Inductive Phase : Type := Before | Body | Ended | Stopped.

Record Client : Type := mkClient {
  cl_Phase : Phase;
  cl_Id : string;
  cl_Model : string;
  cl_Blocks : list cblock;
  cl_Open : gset Z;
  cl_StopReason : string;
  cl_Usage : option ClaudeUsage;
}.
Definition initClient : Client := mkClient Before "" "" [] ∅ "" None.

Definition block_kind (m : ClaudeMedia) : option Kind :=
  if decide (cm_Type m = "text") then Some KText
  else if decide (cm_Type m = "thinking") then Some KThinking
  else if decide (cm_Type m = "tool_use") then Some (KTool (cm_Id m) (cm_Name m))
  else None.

(** The text a block starts with. *)
Definition block_text (k : Kind) (m : ClaudeMedia) : string :=
  match k with KText => default "" (cm_Text m) | KThinking => default "" (cm_Thinking m) | KTool _ _ => "" end.

(** The text a delta adds to a block of a kind, if it is a delta for that kind; the
    signature of a thinking block is not text. *)
Definition delta_text (k : Kind) (m : ClaudeMedia) : option string :=
  match k with
  | KText => if decide (cm_Type m = "text_delta") then cm_Text m else None
  | KThinking => if decide (cm_Text m = None) then
                   if decide (cm_Type m = "thinking_delta") then cm_Thinking m
                   else if decide (cm_Type m = "signature_delta") then Some "" else None
                 else None
  | KTool _ _ => if decide (cm_Type m = "input_json_delta") then cm_PartialJson m else None
  end.

Definition append_to (s : string) (b : cblock) : cblock := (b.1, b.2 +:+ s).

Definition client_step (c : Client) (e : ClaudeResponse) : option Client :=
  if decide (cr_Type e = "message_start") then
    match cl_Phase c, cr_Message e with
    | Before, Some m => Some {| c with cl_Phase := Body; cl_Id := cm_Id m; cl_Model := cm_Model m |}
    | _, _ => None
    end
  else match cl_Phase c with
  | Body =>
      if decide (cr_Type e = "content_block_start") then
        index ← cr_Index e; m ← cr_ContentBlock e; k ← block_kind m;
        guard (index = Z.of_nat (length (cl_Blocks c)));;
        Some {| c with cl_Blocks := cl_Blocks c ++ [(k, block_text k m)]; cl_Open := {[index]} ∪ cl_Open c |}
      else if decide (cr_Type e = "content_block_delta") then
        index ← cr_Index e; m ← cr_Delta e; b ← cl_Blocks c !! Z.to_nat index; s ← delta_text b.1 m;
        guard (index ∈ cl_Open c);;
        Some {| c with cl_Blocks := alter (append_to s) (Z.to_nat index) (cl_Blocks c) |}
      else if decide (cr_Type e = "content_block_stop") then
        index ← cr_Index e; guard (index ∈ cl_Open c);;
        Some {| c with cl_Open := cl_Open c ∖ {[index]} |}
      else if decide (cr_Type e = "message_delta") then
        m ← cr_Delta e; reason ← cm_StopReason m;
        guard (cl_Open c = ∅);;
        Some {| c with cl_Phase := Ended; cl_StopReason := reason; cl_Usage := cr_Usage e |}
      else None
  | Ended => if decide (cr_Type e = "message_stop") then Some {| c with cl_Phase := Stopped |} else None
  | _ => None
  end.

Fixpoint client_run (c : Client) (events : list ClaudeResponse) : option Client :=
  match events with
  | [] => Some c
  | e :: rest => c' ← client_step c e; client_run c' rest
  end.

Definition claude_events (sent : list Output) : list ClaudeResponse :=
  omap (λ o, match o with ClaudeData e => Some e | _ => None end) sent.

(** ** The answer an OpenAI stream stands for *)

Inductive Part : Type :=
  | PText (s : string)
  | PThinking (s : string)
  | PCall (id name arguments : string)
  | PArguments (k : Z) (arguments : string).

Definition is_tool (b : cblock) : bool := match b.1 with KTool _ _ => true | _ => false end.

Fixpoint leading_tools (bs : list cblock) : nat :=
  match bs with b :: rest => if is_tool b then S (leading_tools rest) else 0 | [] => 0 end.
(** The number of tool calls at the end of the answer: those the indices of further
    fragments refer to. *)
Definition run_length (bs : list cblock) : nat := leading_tools (reverse bs).

(** Text goes on in a block of its kind at the end, or starts one. *)
Definition add_text (k : Kind) (s : string) (bs : list cblock) : list cblock :=
  match last bs with
  | Some b => if decide (b.1 = k) then alter (append_to s) (length bs - 1)%nat bs else bs ++ [(k, s)]
  | None => bs ++ [(k, s)]
  end.
Definition add_part (bs : list cblock) (p : Part) : list cblock :=
  match p with
  | PText s => add_text KText s bs
  | PThinking s => add_text KThinking s bs
  | PCall id name arguments => bs ++ [(KTool id name, arguments)]
  | PArguments k arguments => alter (append_to arguments) (length bs - run_length bs + Z.to_nat k)%nat bs
  end.

Definition call_as_part (i : Z) (call : ToolCallResponse) : Part :=
  let fn := tc_Function call in
  if decide (fn_Name fn = "") then PArguments (default i (tc_Index call)) (fn_Arguments fn)
  else PCall (tc_ID call) (fn_Name fn) (fn_Arguments fn).
Fixpoint call_parts (i : Z) (calls : list ToolCallResponse) : list Part :=
  match calls with [] => [] | call :: rest => call_as_part i call :: call_parts (i + 1) rest end.

Definition delta_parts (d : Delta) : list Part :=
  (if decide (GetReasoningContent d = "") then [] else [PThinking (GetReasoningContent d)]) ++
  (if decide (GetContentString d = "") then [] else [PText (GetContentString d)]) ++
  call_parts 0 (delta_calls d).
(** The converter follows the first choice. *)
Definition chunk_delta (r : StreamResponse) : Delta :=
  match sr_Choices r with c :: _ => sc_Delta c | [] => emptyDelta end.
Definition chunk_parts (r : StreamResponse) : list Part := delta_parts (chunk_delta r).

Definition answer (chunks : list StreamResponse) : list cblock := foldl add_part [] (chunks ≫= chunk_parts).

(** The last finish reason of a stream. *)
Definition chunk_reason (r : StreamResponse) : option string :=
  match sr_Choices r with c :: _ => if finished c then sc_FinishReason c else None | [] => None end.
Definition stream_reason (chunks : list StreamResponse) : string :=
  foldl (λ acc r, default acc (chunk_reason r)) "" chunks.

(** ** Conforming upstreams *)

(** The calls of a chunk when [n] calls are in progress: a call that starts has a name
    and the next index, a fragment has no name and the index of a call in progress. *)
Fixpoint calls_ok (n i : Z) (calls : list ToolCallResponse) : bool :=
  match calls with
  | [] => true
  | call :: rest =>
      let offset := default i (tc_Index call) in
      if decide (fn_Name (tc_Function call) = "") then (0 <=? offset) && (offset <? n) && calls_ok n (i + 1) rest
      else (offset =? n) && calls_ok (n + 1) (i + 1) rest
  end.

(** A chunk adds reasoning or text or tool calls, not several of them. *)
Definition delta_ok (n : Z) (d : Delta) : bool :=
  calls_ok n 0 (delta_calls d) &&
  (bool_decide (delta_calls d = []) || bool_decide (GetReasoningContent d = "" ∧ GetContentString d = "")) &&
  (bool_decide (GetReasoningContent d = "") || bool_decide (GetContentString d = "")).

Definition silent (d : Delta) : bool := bool_decide (delta_parts d = []).

Definition calls_running (bs : list cblock) : Z := Z.of_nat (run_length bs).

Definition first_ok (r : StreamResponse) : bool :=
  delta_ok 0 (chunk_delta r) && (length (delta_calls (chunk_delta r)) <=? 1)%nat && negb (IsFinished r).
(** The chunk that finishes a choice adds nothing to it, unless it reports the usage. *)
Definition middle_ok (bs : list cblock) (r : StreamResponse) : bool :=
  match sr_Choices r with
  | [] => false
  | c :: _ => delta_ok (calls_running bs) (sc_Delta c)
              && (negb (finished c) || (bool_decide (sr_Usage r = None) && silent (sc_Delta c)))
  end.
(** The last chunk is without choices, or it finishes the choice and reports the usage. *)
Definition last_ok (bs : list cblock) (r : StreamResponse) : bool :=
  match sr_Choices r with
  | [] => true
  | c :: _ => delta_ok (calls_running bs) (sc_Delta c) && finished c && negb (bool_decide (sr_Usage r = None))
  end.
Fixpoint rest_ok (bs : list cblock) (chunks : list StreamResponse) : bool :=
  match chunks with
  | [] => false
  | r :: rest =>
      match rest with
      | [] => last_ok bs r
      | _ => middle_ok bs r && rest_ok (foldl add_part bs (chunk_parts r)) rest
      end
  end.
Definition stream_ok (chunks : list StreamResponse) : bool :=
  match chunks with
  | r :: rest => first_ok r && (2 <=? length rest)%nat && rest_ok (foldl add_part [] (chunk_parts r)) rest
  | [] => false
  end.
