(* ===== verification/StreamProps.v ===== *)
(** * StreamProps: what a streamed answer costs and what an OpenAI client reads

    The bill of a stream does not depend on the format the client asked for; reasoning
    turned into content stands between its tags. *)

From S2P Require Export ClaudeClient.
From S2P Require Import Prelude.

(** ** The bill *)

Section Bill.

Context {uc : Unicode} {dec : Decoder}.

(** The lines before the last one are sent on, one by one. *)
Definition feed (cf : StreamConfig) (st : StreamState) (line : string) : StreamState := (HandleStreamFormat cf line st).2.

Lemma handle_data_loop cf lines line :
  Forall (λ l, l ≠ "") (lines ++ [line]) ->
  let h := foldl (handle_data cf) initHandler (lines ++ [line]) in
  h_Last h = line ∧ h_Stream h = foldl (feed cf) initStream lines.
Proof.
  revert line. induction lines as [|l lines IH] using rev_ind; intros line Hne h; subst h;
    apply Forall_app in Hne as [Hl Hline]; apply Forall_cons_1 in Hline as [Hline _].
  - simpl. unfold handle_data. simpl. rewrite decide_False by done.
    by destruct (processTokenData _ _ _) as [e [t n]].
  - specialize (IH l Hl) as [Hlast Hst]. apply Forall_app in Hl as [_ Hl]. apply Forall_cons_1 in Hl as [Hl _].
    rewrite (foldl_snoc (handle_data cf)), (foldl_snoc (feed cf)).
    destruct (foldl (handle_data cf) initHandler (lines ++ [l])) as [last second text tools errors st].
    cbn [h_Last h_Stream] in *. subst last st. unfold feed, handle_data. cbn [h_Last h_Stream].
    rewrite !decide_False by done.
    destruct (HandleStreamFormat _ _ _) as [e st]. cbn [h_Text h_ToolCount h_Last h_Stream snd].
    by destruct (processTokenData _ _ _) as [e' [t n]].
Qed.

(** Two requests that differ in what the client asked for. *)
Definition same_upstream (cf cf' : StreamConfig) : Prop :=
  cf_Mode cf = cf_Mode cf' ∧ cf_ChannelType cf = cf_ChannelType cf' ∧
  cf_UpstreamModel cf = cf_UpstreamModel cf' ∧ cf_PromptTokens cf = cf_PromptTokens cf'.

Definition counted (h : HandlerState) : string * string * string * Z :=
  (h_Last h, h_SecondLast h, h_Text h, h_ToolCount h).

(** A line as far as counting is concerned. *)
Definition count_line (audio : bool) (mode : RelayMode) (k : string * string * string * Z) (data : string)
    : string * string * string * Z :=
  let '(last, second, text, tools) := k in
  if decide (data = "") then k
  else
    let second := if audio && negb (bool_decide (last = "")) then last else second in
    let '(_, (text, tools)) := processTokenData mode data (text, tools) in (data, second, text, tools).

Lemma counted_handle cf h data :
  counted (handle_data cf h data) = count_line (isAudioModel cf) (cf_Mode cf) (counted h) data.
Proof.
  unfold handle_data, count_line, counted. destruct (decide (h_Last h = "")) as [E|E].
  - case_decide; [done|]. by destruct (processTokenData _ _ _) as [e [t n]].
  - destruct (HandleStreamFormat _ _ _) as [e st]. cbn. case_decide; [done|].
    by destruct (processTokenData _ _ _) as [e' [t n]].
Qed.

Lemma counted_foldl cf lines h :
  counted (foldl (handle_data cf) h lines) = foldl (count_line (isAudioModel cf) (cf_Mode cf)) (counted h) lines.
Proof.
  revert h. induction lines as [|l lines IH]; intros h; [done|]. simpl. by rewrite IH, counted_handle.
Qed.

(** The usage as a function of the counts. *)
Definition bill (cf : StreamConfig) (h : HandlerState) : Usage :=
  final_usage cf h (handleLastResponse cf (h_Last h) (audio_usage cf h)).

Lemma l_Usage_same cf cf' last u :
  l_Usage (handleLastResponse cf last u) = l_Usage (handleLastResponse cf' last u).
Proof. unfold handleLastResponse. by destruct (UnmarshalChunk last). Qed.

Lemma bill_counted cf cf' h h' :
  same_upstream cf cf' -> counted h = counted h' -> bill cf h = bill cf' h'.
Proof.
  intros (_ & Hc & Hm & Hp) [= Hlast Hsecond Htext Htools]. unfold bill, final_usage, audio_usage, isAudioModel.
  rewrite Hlast, Hsecond, Htext, Htools, Hc, Hm, Hp.
  by rewrite (l_Usage_same cf cf').
Qed.

(** What a streamed answer is billed depends on the upstream's stream alone: a
    client that asks for Claude or Gemini events, for the usage or for reasoning as
    content pays what a client of the OpenAI format pays. *)
Theorem stream_bill_independent_of_format cf cf' lines :
  same_upstream cf cf' -> (OaiStreamHandler cf lines).1 = (OaiStreamHandler cf' lines).1.
Proof.
  intros H. unfold OaiStreamHandler, finish_stream. cbn [fst]. apply (bill_counted cf cf'); [done|].
  rewrite !counted_foldl. destruct H as (Hmode & _ & Hmodel & _). unfold isAudioModel. by rewrite Hmode, Hmodel.
Qed.

(** The text and the number of tool calls of a stream of chat chunks. *)
Definition stream_text (chunks : list StreamResponse) : string :=
  foldl (λ a c, a +:+ choice_text c) "" (chunks ≫= sr_Choices).
Definition stream_calls (chunks : list StreamResponse) : Z :=
  foldl (λ a c, Z.max a (Z.of_nat (length (delta_calls (sc_Delta c))))) 0 (chunks ≫= sr_Choices).

Lemma ProcessStreamResponse_fold r t n :
  ProcessStreamResponse r (t, n)
  = (foldl (λ a c, a +:+ choice_text c) t (sr_Choices r),
     foldl (λ a c, Z.max a (Z.of_nat (length (delta_calls (sc_Delta c))))) n (sr_Choices r)).
Proof.
  unfold ProcessStreamResponse. revert t n. induction (sr_Choices r) as [|c cs IH]; intros t n; [done|].
  simpl. apply IH.
Qed.

Lemma count_lines cf lines chunks lst second t n :
  cf_Mode cf = RelayModeChatCompletions -> Forall2 (λ l r, l ≠ "" ∧ UnmarshalChunk l = Some r) lines chunks ->
  ∃ second', foldl (count_line (isAudioModel cf) (cf_Mode cf)) (lst, second, t, n) lines
    = (default lst (last lines), second', foldl (λ a c, a +:+ choice_text c) t (chunks ≫= sr_Choices),
       foldl (λ a c, Z.max a (Z.of_nat (length (delta_calls (sc_Delta c))))) n (chunks ≫= sr_Choices)).
Proof.
  intros Hmode Hl. rewrite Hmode. revert lst second t n.
  induction Hl as [|l r lines chunks [Hne Hr] Hl IH]; intros lst second t n; [by exists second|].
  cbn [foldl]. unfold count_line at 2. rewrite decide_False by done.
  unfold processTokenData. rewrite Hr, ProcessStreamResponse_fold, bind_cons, !foldl_app.
  edestruct IH as [second' ->]. exists second'. do 3 f_equal.
  rewrite last_cons. by destruct (last lines).
Qed.

Lemma post_processing_tokens ch u body :
  PromptTokens (applyUsagePostProcessing ch u body) = PromptTokens u ∧
  CompletionTokens (applyUsagePostProcessing ch u body) = CompletionTokens u.
Proof.
  unfold applyUsagePostProcessing, first_source. destruct (negb _); [done|].
  repeat (case_match; try done).
Qed.

(** The usage before the cached tokens of some channels are filled in. *)
Definition raw_usage (cf : StreamConfig) (h : HandlerState) (l : LastResponse) : Usage :=
  match l_Usage l with
  | Some u => u
  | None =>
      let u := ResponseText2Usage (h_Text h) (cf_UpstreamModel cf) (cf_PromptTokens cf) in
      {| u with CompletionTokens := wrap64 (CompletionTokens u + h_ToolCount h * 7) |}
  end.

(** The usage a stream reports in its last chunk. *)
Definition reported (r : StreamResponse) : option Usage := if ValidUsage (sr_Usage r) then sr_Usage r else None.

(** C27. A stream in chat mode, of a model without audio, whose lines are chunks, is billed
    the prompt and completion tokens its last chunk reports; when that chunk reports none,
    the prompt as estimated before the request, and for the completion the estimate of all
    its text (contents, reasoning, names and arguments of calls of all choices) plus seven
    times the largest number of tool calls that one choice of one chunk holds: calls that
    come in different chunks are not added up. *)
Theorem stream_bill cf lines chunks final :
  cf_Mode cf = RelayModeChatCompletions -> isAudioModel cf = false ->
  Forall2 (λ l r, l ≠ "" ∧ UnmarshalChunk l = Some r) lines (chunks ++ [final]) ->
  let out := (OaiStreamHandler cf lines).1 in
  match reported final with
  | Some u => PromptTokens out = PromptTokens u ∧ CompletionTokens out = CompletionTokens u
  | None =>
      PromptTokens out = cf_PromptTokens cf ∧
      CompletionTokens out = wrap64 (EstimateTokenByModel (cf_UpstreamModel cf) (stream_text (chunks ++ [final]))
                                     + stream_calls (chunks ++ [final]) * 7)
  end.
Proof.
  intros Hmode Haudio Hl out.
  destruct (count_lines cf lines _ "" "" "" 0 Hmode Hl) as [second Hcount].
  pose proof (counted_foldl cf lines initHandler) as Hk. change (counted initHandler) with ("", "", "", 0) in Hk.
  rewrite Hcount in Hk. injection Hk as Hlast _ Htext Htools.
  assert (UnmarshalChunk (h_Last (foldl (handle_data cf) initHandler lines)) = Some final) as Hfinal.
  { apply Forall2_app_inv_r in Hl as (l1 & l2 & _ & H2 & ->).
    apply Forall2_cons_inv_r in H2 as (l & [] & [_ Hl] & Hnil & ->); [|by inversion Hnil].
    rewrite last_snoc in Hlast. simpl in Hlast. by rewrite Hlast. }
  set (h := foldl (handle_data cf) initHandler lines) in *.
  set (l := handleLastResponse cf (h_Last h) (audio_usage cf h)).
  change out with (applyUsagePostProcessing (cf_ChannelType cf) (raw_usage cf h l) (h_Last h)).
  destruct (post_processing_tokens (cf_ChannelType cf) (raw_usage cf h l) (h_Last h)) as [Hp Hc].
  rewrite Hp, Hc. subst l. unfold raw_usage, handleLastResponse, audio_usage, reported. rewrite Hfinal, Haudio.
  cbn [l_Usage andb]. destruct (ValidUsage (sr_Usage final)) eqn:Ev; [by destruct (sr_Usage final)|].
  cbn. by rewrite Htext, Htools.
Qed.

End Bill.

(** ** Reasoning as content *)

(** The content an OpenAI client reads. *)
Definition choices_text (r : StreamResponse) : string :=
  foldr (λ c acc, GetContentString (sc_Delta c) +:+ acc) "" (sr_Choices r).
Definition output_text (o : Output) : string := match o with ObjectData r => choices_text r | _ => "" end.
Definition shown (sent : list Output) : string := foldr (λ o acc, output_text o +:+ acc) "" sent.

Lemma shown_app l k : shown (l ++ k) = shown l +:+ shown k.
Proof. induction l as [|o l IH]; simpl; [done|]. by rewrite IH, append_assoc. Qed.

Lemma shown_one o : shown [o] = output_text o.
Proof. simpl. apply append_nil_r. Qed.

Lemma append_nonempty (a b : string) : a ≠ "" -> a +:+ b ≠ "".
Proof. by destruct a. Qed.

Definition open_tag : string := "<think>" +:+ LF.
Definition close_tag : string := LF +:+ "</think>" +:+ LF.

(** What a chunk with reasoning [r] or content [c] adds, and the flags after it. *)
Definition tagged (t : ThinkingContentInfo) (r c : string) : string * ThinkingContentInfo :=
  if decide (r = "") then
    if decide (c = "") then ("", t)
    else if negb (SendLastThinkingContent t) && HasSentThinkingContent t
         then (close_tag +:+ c, {| t with SendLastThinkingContent := true |}) else (c, t)
  else if IsFirstThinkingContent t
       then (open_tag +:+ r, {| t with IsFirstThinkingContent := false; HasSentThinkingContent := true |})
       else (r, t).

(** A chunk of one choice, or none, with reasoning or content. *)
Definition plain (r : StreamResponse) : Prop :=
  (length (sr_Choices r) <= 1)%nat ∧
  (GetReasoningContent (chunk_delta r) = "" ∨ GetContentString (chunk_delta r) = "").

Lemma shown_set_contents s r c : sr_Choices r = [c] -> choices_text (set_contents s r) = s.
Proof. intros H. unfold choices_text, set_contents. simpl. rewrite H. simpl. apply append_nil_r. Qed.

Lemma tagged_none t : tagged t "" "" = ("", t).
Proof. done. Qed.

Section Thinking.

Context {uc : Unicode} {dec : Decoder} (cf : StreamConfig).
Context (Hformat : cf_Format cf = RelayFormatOpenAI) (Hthink : cf_ThinkingToContent cf = true).

Lemma send_tagged line r st :
  line ≠ "" -> UnmarshalChunk line = Some r -> plain r ->
  let out := tagged (ss_Thinking st) (GetReasoningContent (chunk_delta r)) (GetContentString (chunk_delta r)) in
  let st' := (sendStreamData line (cf_ForceFormat cf) true st).2 in
  shown (ss_Sent st') = shown (ss_Sent st) +:+ out.1 ∧ ss_Thinking st' = out.2.
Proof.
  intros Hne Hr [Hlen Hone] out st'. subst out st'. unfold sendStreamData. rewrite decide_False, Hr by done.
  rewrite andb_false_r. cbn [negb]. unfold chunk_delta in *.
  destruct (sr_Choices r) as [|c [|]] eqn:E; [..|simpl in Hlen; lia].
  { unfold hasThinkingContent. rewrite E. cbn. rewrite andb_false_r. cbn. rewrite shown_app, shown_one. cbn.
    unfold choices_text. by rewrite E. }
  unfold tagged, hasThinkingContent, hasContent. rewrite E. cbn [existsb]. rewrite !orb_false_r.
  destruct (decide (GetReasoningContent (sc_Delta c) = "")) as [Hrc|Hrc].
  - rewrite (bool_decide_eq_true_2 _ Hrc). cbn [negb]. rewrite andb_false_r. cbn [convert_choices].
    unfold convert_choice. rewrite (bool_decide_eq_true_2 _ Hrc). cbn [negb andb].
    destruct (decide (GetContentString (sc_Delta c) = "")) as [Hc|Hc].
    + rewrite (bool_decide_eq_true_2 _ Hc). cbn. rewrite shown_app, shown_one. cbn. unfold choices_text. cbn.
      split; [|done]. f_equal. unfold GetContentString in *. cbn. destruct (d_Content (sc_Delta c)); by subst.
    + rewrite (bool_decide_eq_false_2 _ Hc). cbn [negb andb app].
      destruct (negb (SendLastThinkingContent (ss_Thinking st)) && HasSentThinkingContent (ss_Thinking st)) eqn:Ef;
        rewrite ?Ef; cbn [snd fst ss_Thinking ss_Sent send].
      * split; [|done]. rewrite !shown_app, !shown_one, append_assoc. f_equal.
        cbn [output_text]. rewrite (shown_set_contents _ _ c) by done. unfold choices_text. cbn. by rewrite append_nil_r.
      * split; [|done]. rewrite shown_app, shown_one. cbn. unfold choices_text. cbn. by rewrite append_nil_r.
  - assert (GetContentString (sc_Delta c) = "") as Hc by (by destruct Hone).
    rewrite (bool_decide_eq_false_2 _ Hrc), (bool_decide_eq_true_2 _ Hc). cbn [negb].
    destruct (IsFirstThinkingContent (ss_Thinking st)) eqn:Ef; cbn [andb].
    + cbn [snd fst ss_Thinking ss_Sent send]. split; [|done]. rewrite shown_app, shown_one. cbn [output_text].
      rewrite (shown_set_contents _ r c E). f_equal. unfold open_tag, reasoning_of. rewrite E. cbn [foldr].
      by rewrite append_nil_r, append_assoc.
    + cbn [convert_choices andb app snd fst]. unfold convert_choice. rewrite (bool_decide_eq_false_2 _ Hrc).
      cbn [negb]. cbn [ss_Thinking ss_Sent send]. split; [|done]. rewrite shown_app, shown_one. cbn. unfold choices_text. cbn.
      by rewrite append_nil_r.
Qed.

(** The flags and the text after some chunks. *)
Definition tag_chunk (acc : string * ThinkingContentInfo) (r : StreamResponse) : string * ThinkingContentInfo :=
  let out := tagged acc.2 (GetReasoningContent (chunk_delta r)) (GetContentString (chunk_delta r)) in
  (acc.1 +:+ out.1, out.2).

Definition seen (st : StreamState) : string * ThinkingContentInfo := (shown (ss_Sent st), ss_Thinking st).

Lemma seen_feed lines chunks st :
  Forall2 (λ l r, l ≠ "" ∧ UnmarshalChunk l = Some r) lines chunks -> Forall plain chunks ->
  seen (foldl (feed cf) st lines) = foldl tag_chunk (seen st) chunks.
Proof.
  intros Hl. revert st. induction Hl as [|l r lines chunks [Hne Hr] Hl IH]; intros st Hp; [done|].
  apply Forall_cons_1 in Hp as [Hp1 Hp]. cbn [foldl]. rewrite IH by done. f_equal.
  unfold feed, HandleStreamFormat. rewrite Hformat, Hthink.
  edestruct (send_tagged l r) as [H1 H2]; [done..|]. unfold seen, tag_chunk. rewrite H1, H2. done.
Qed.

(** The reasoning and the content of a stream. *)
Definition reasoning_text (chunks : list StreamResponse) : string :=
  foldr (λ r acc, GetReasoningContent (chunk_delta r) +:+ acc) "" chunks.
Definition content_text (chunks : list StreamResponse) : string :=
  foldr (λ r acc, GetContentString (chunk_delta r) +:+ acc) "" chunks.

(** The chunks of the reasoning: the tag before it, once. *)
Lemma tag_thinking chunks acc t :
  Forall (λ r, GetContentString (chunk_delta r) = "") chunks -> SendLastThinkingContent t = false ->
  IsFirstThinkingContent t = negb (HasSentThinkingContent t) ->
  let some := negb (bool_decide (reasoning_text chunks = "")) in
  foldl tag_chunk (acc, t) chunks
  = (acc +:+ (if IsFirstThinkingContent t && some then open_tag else "") +:+ reasoning_text chunks,
     if some then mkThinking false false true else t).
Proof.
  intros Hc. revert acc t. induction Hc as [|r chunks Hr Hc IH]; intros acc t Hs Hf some.
  { simpl. rewrite andb_false_r. cbn. by rewrite append_nil_r. }
  subst some. cbn [foldl reasoning_text foldr]. fold (reasoning_text chunks). unfold tag_chunk at 2. rewrite Hr.
  cbn [fst snd]. unfold tagged. destruct (decide (GetReasoningContent (chunk_delta r) = "")) as [Hrc|Hrc].
  - rewrite Hrc, string_nil_app. cbn. rewrite append_nil_r. by apply IH.
  - rewrite (bool_decide_eq_false_2 (_ +:+ _ = "")) by (by apply append_nonempty).
    destruct (IsFirstThinkingContent t) eqn:Ef; cbn [fst snd negb andb].
    + rewrite IH by done. cbn [IsFirstThinkingContent andb]. f_equal; [|rewrite Hs; by destruct (bool_decide _)].
      by rewrite !append_assoc, string_nil_app.
    + rewrite IH by congruence. rewrite Ef. cbn [andb]. rewrite !append_assoc, !string_nil_app. f_equal.
      destruct t as [f s h]. simpl in *. subst. destruct h; [|done]. by destruct (bool_decide _).
Qed.

(** The chunks of the answer: the closing tag before it, if there was reasoning. *)
Lemma tag_answer chunks acc t :
  Forall (λ r, GetReasoningContent (chunk_delta r) = "") chunks ->
  let pending := negb (SendLastThinkingContent t) && HasSentThinkingContent t in
  let some := negb (bool_decide (content_text chunks = "")) in
  (foldl tag_chunk (acc, t) chunks).1 = acc +:+ (if pending && some then close_tag else "") +:+ content_text chunks.
Proof.
  intros Hc. revert acc t. induction Hc as [|r chunks Hr Hc IH]; intros acc t pending some.
  { subst some. cbn. rewrite andb_false_r. by rewrite append_nil_r. }
  subst some. cbn [foldl content_text foldr]. fold (content_text chunks). unfold tag_chunk at 2. rewrite Hr.
  cbn [fst snd]. unfold tagged. rewrite decide_True by done.
  destruct (decide (GetContentString (chunk_delta r) = "")) as [Hct|Hct].
  - rewrite Hct, string_nil_app. cbn. rewrite append_nil_r. apply IH.
  - rewrite (bool_decide_eq_false_2 (_ +:+ _ = "")) by (by apply append_nonempty).
    fold pending. destruct pending eqn:Ep; cbn [fst snd negb andb]; rewrite IH.
    + cbn. by rewrite !append_assoc, string_nil_app.
    + fold pending. rewrite Ep. cbn. by rewrite !append_assoc, !string_nil_app.
Qed.

Lemma last_shown final line st :
  line ≠ "" -> UnmarshalChunk line = Some final -> plain final ->
  let l := handleLastResponse cf line None in
  (seen (if l_ShouldSend l then (sendStreamData line (cf_ForceFormat cf) true st).2 else st)).1
  = (tag_chunk (seen st) final).1.
Proof.
  intros Hne Hr Hp l. destruct (send_tagged line final st Hne Hr Hp) as [H1 H2].
  destruct (l_ShouldSend l) eqn:El; [by unfold seen, tag_chunk; rewrite H1|].
  unfold l, handleLastResponse in El. rewrite Hr in El. cbn [l_ShouldSend] in El.
  destruct (ValidUsage (sr_Usage final) && negb (cf_IncludeUsage cf)); [|done].
  destruct Hp as [Hlen _]. unfold seen, tag_chunk, chunk_delta, has_text in *. cbn [fst snd].
  destruct (sr_Choices final) as [|c [|]]; [by rewrite tagged_none, append_nil_r| |simpl in Hlen; lia].
  cbn [existsb] in El. rewrite orb_false_r in El. apply orb_false_elim in El as [Ec Er].
  apply negb_false_iff, bool_decide_eq_true in Ec, Er. by rewrite Ec, Er, tagged_none, append_nil_r.
Qed.

(** With reasoning turned into content, an OpenAI client reads the reasoning between
    [<think>] and [</think>] and then the answer, both in full, whatever chunks they come
    in; without reasoning it reads the answer alone. *)
Theorem thinking_is_tagged lines thinking ans final :
  isAudioModel cf = false ->
  Forall2 (λ l r, l ≠ "" ∧ UnmarshalChunk l = Some r) lines (thinking ++ ans ++ [final]) ->
  Forall (λ r, (length (sr_Choices r) <= 1)%nat) (thinking ++ ans ++ [final]) ->
  Forall (λ r, GetContentString (chunk_delta r) = "") thinking ->
  Forall (λ r, GetReasoningContent (chunk_delta r) = "") (ans ++ [final]) ->
  let R := reasoning_text thinking in
  let C := content_text (ans ++ [final]) in
  shown (ss_Sent (OaiStreamHandler cf lines).2)
  = if decide (R = "") then C
    else open_tag +:+ R +:+ (if decide (C = "") then "" else close_tag +:+ C).
Proof.
  intros Haudio Hl Hlen HT HA R C. rewrite app_assoc in Hl.
  apply Forall2_app_inv_r in Hl as (ls & l2 & Hls & H2 & ->).
  apply Forall2_cons_inv_r in H2 as (line & [] & [Hne Hr] & Hnil & ->); [|by inversion Hnil].
  assert (Forall plain (thinking ++ ans ++ [final])) as Hp.
  { apply Forall_app in Hlen as [HlT HlA]. apply Forall_app. split; eapply Forall_and; split; try done;
      [eapply Forall_impl; [exact HT|by right]|eapply Forall_impl; [exact HA|by left]]. }
  assert (Forall (λ l, l ≠ "") (ls ++ [line])) as Hnel.
  { apply Forall_app. split; [|by constructor]. eapply Forall2_Forall_l; [exact Hls|]. by apply Forall_true; intros ? ? []. }
  rewrite app_assoc in Hp. apply Forall_app in Hp as [Hp Hpf]. apply Forall_cons_1 in Hpf as [Hpf _].
  destruct (handle_data_loop cf ls line Hnel) as [Hh Hst].
  unfold OaiStreamHandler, finish_stream. rewrite Hformat, Hthink, Hh, Hst. unfold audio_usage. rewrite Haudio. cbn [andb fst snd].
  set (st := foldl (feed cf) initStream ls). set (st1 := if l_ShouldSend _ then _ else _).
  assert ((seen st1).1 = (tag_chunk (seen st) final).1) as Hlast by (by apply last_shown).
  unfold HandleFinalResponse. rewrite Hformat. cbn [ss_Sent send]. rewrite shown_app, shown_one. cbn [output_text DoneData].
  assert (∀ b o, output_text o = "" -> shown (ss_Sent (if (b : bool) then send [o] st1 else st1)) = (seen st1).1) as Hsend.
  { intros [] o Ho; [|done]. cbn [ss_Sent send]. by rewrite shown_app, shown_one, Ho, append_nil_r. }
  rewrite append_nil_r, Hsend by done. rewrite Hlast.
  unfold st. rewrite (seen_feed ls (thinking ++ ans)) by done. rewrite <- foldl_snoc, <- app_assoc, foldl_app.
  change (seen initStream) with ("", mkThinking true false false). rewrite tag_thinking by done. cbn [IsFirstThinkingContent andb].
  rewrite tag_answer by done. fold R C. rewrite string_nil_app.
  destruct (decide (R = "")) as [ER|ER]; [rewrite (bool_decide_eq_true_2 _ ER)|rewrite (bool_decide_eq_false_2 _ ER)]; cbn.
  - by rewrite ER, !string_nil_app.
  - rewrite !append_assoc. do 2 f_equal.
    destruct (decide (C = "")) as [EC|EC]; [rewrite (bool_decide_eq_true_2 _ EC)|rewrite (bool_decide_eq_false_2 _ EC)]; cbn; [by rewrite EC|done].
Qed.

End Thinking.
