(* ===== verification/ClaudeStreamProps.v ===== *)
(** * ClaudeStreamProps: the converted stream is the answer

    A client that reads the Claude events of a conforming OpenAI stream never meets an
    event it does not expect, and ends with the answer of the upstream.  The simulation
    relation [converts] ties the state of the converter to the blocks the client has. *)

From S2P Require Export ScannerProps.
From S2P Require Export StreamProps.
From S2P Require Import Prelude.

(** ** Lists of blocks *)

Lemma leading_tools_app l k :
  forallb is_tool l = true -> leading_tools (l ++ k) = (length l + leading_tools k)%nat.
Proof. induction l as [|b l IH]; simpl; [done|]. intros [-> H]%andb_prop. by rewrite IH. Qed.

Lemma forallb_reverse {A} (f : A -> bool) l : forallb f (reverse l) = forallb f l.
Proof.
  induction l as [|a l IH]; [done|]. rewrite reverse_cons, forallb_app, IH. simpl.
  destruct (f a), (forallb f l); done.
Qed.

Lemma run_length_app pre tools :
  run_length pre = 0%nat -> forallb is_tool tools = true -> run_length (pre ++ tools) = length tools.
Proof.
  unfold run_length. intros Hpre Ht.
  rewrite reverse_app, leading_tools_app, length_reverse, Hpre by (by rewrite forallb_reverse). lia.
Qed.

Lemma run_length_text pre k s : is_tool (k, s) = false -> run_length (pre ++ [(k, s)]) = 0%nat.
Proof. unfold run_length. rewrite reverse_snoc. simpl. by intros ->. Qed.

Lemma alter_last {A} (f : A -> A) l a : alter f (length l) (l ++ [a]) = l ++ [f a].
Proof. rewrite alter_app_r_alt by lia. by rewrite Nat.sub_diag. Qed.

Lemma append_to_nil b : append_to "" b = b.
Proof. destruct b as [k s]. unfold append_to. simpl. by rewrite append_nil_r. Qed.

Lemma alter_append_nil (i : nat) (bs : list cblock) : alter (append_to "") i bs = bs.
Proof.
  revert i. induction bs as [|b bs IH]; intros [|i]; simpl; try done.
  - by rewrite append_to_nil.
  - unfold alter in IH. by rewrite IH.
Qed.

(** ** Steps of the reader *)

(** The client within a message. *)
Definition body (id model : string) (bs : list cblock) (open : gset Z) : Client :=
  mkClient Body id model bs open "" None.

Section Reader.

Context (id model : string).
Abbreviation body := (body id model).

Lemma client_run_app c l k : client_run c (l ++ k) = (c' ← client_run c l; client_run c' k).
Proof.
  revert c. induction l as [|e l IH]; intros c; simpl; [done|].
  destruct (client_step c e); simpl; [apply IH|done].
Qed.

Lemma client_run_then c l k c1 c2 :
  client_run c l = Some c1 -> client_run c1 k = c2 -> client_run c (l ++ k) = c2.
Proof. intros H1 H2. rewrite client_run_app, H1. exact H2. Qed.

Lemma read_start bs open i m k :
  i = Z.of_nat (length bs) -> block_kind m = Some k -> block_text k m = "" ->
  client_run (body bs open) [blockStart i m] = Some (body (bs ++ [(k, "")]) ({[i]} ∪ open)).
Proof. intros Hi Hk Ht. simpl. unfold client_step. simpl. rewrite Hk. simpl. by rewrite option_guard_True, Ht. Qed.

Lemma read_delta bs open i m b s :
  bs !! Z.to_nat i = Some b -> delta_text b.1 m = Some s -> i ∈ open ->
  client_run (body bs open) [blockDelta i m] = Some (body (alter (append_to s) (Z.to_nat i) bs) open).
Proof.
  intros Hb Hs Hi. simpl. unfold client_step. simpl. rewrite Hb. simpl. rewrite Hs. simpl.
  by rewrite option_guard_True.
Qed.

Lemma read_stop bs open i :
  i ∈ open -> client_run (body bs open) [generateStopBlock i] = Some (body bs (open ∖ {[i]})).
Proof. intros Hi. simpl. unfold client_step. simpl. by rewrite option_guard_True. Qed.

(** A new block with its first text. *)
Lemma read_block bs open i m k d s :
  i = Z.of_nat (length bs) -> block_kind m = Some k -> block_text k m = "" -> delta_text k d = Some s ->
  client_run (body bs open) [blockStart i m; blockDelta i d] = Some (body (bs ++ [(k, s)]) ({[i]} ∪ open)).
Proof.
  intros Hi Hk Ht Hd. eapply (client_run_then _ [_]); [by apply read_start|].
  rewrite (read_delta _ _ i d (k, "") s); subst i; rewrite ?Nat2Z.id; [by rewrite alter_last| |exact Hd|set_solver].
  by rewrite lookup_app_r, Nat.sub_diag by lia.
Qed.

(** The stops of a run of blocks. *)
Lemma read_stops bs base n :
  client_run (body bs (list_to_set (seqZ base (Z.of_nat n))))
    ((λ offset, generateStopBlock (base + offset)) <$> seqZ 0 (Z.of_nat n)) = Some (body bs ∅).
Proof.
  assert (G : ∀ k, (k <= n)%nat ->
    client_run (body bs (list_to_set (seqZ (base + Z.of_nat (n - k)) (Z.of_nat k))))
      ((λ offset, generateStopBlock (base + offset)) <$> seqZ (Z.of_nat (n - k)) (Z.of_nat k)) = Some (body bs ∅)).
  { induction k as [|k IH]; intros Hk; [done|].
    rewrite !(seqZ_cons _ (Z.of_nat (S k))) by lia. rewrite fmap_cons, list_to_set_cons.
    replace (Z.pred (Z.of_nat (S k))) with (Z.of_nat k) by lia.
    eapply (client_run_then _ [_]); [apply read_stop; set_solver|].
    replace (Z.succ (Z.of_nat (n - S k))) with (Z.of_nat (n - k)) by lia.
    rewrite <- IH by lia. f_equal. f_equal.
    replace (Z.succ (base + Z.of_nat (n - S k))) with (base + Z.of_nat (n - k)) by lia.
    apply set_eq. intros x. rewrite elem_of_difference, elem_of_union, elem_of_singleton, elem_of_list_to_set, elem_of_seqZ.
    lia. }
  specialize (G n). rewrite Nat.sub_diag, Z.add_0_r in G. apply G. lia.
Qed.

(** ** The simulation *)

Definition kind_type (k : Kind) : MessageType :=
  match k with
  | KText => LastMessageTypeText
  | KThinking => LastMessageTypeThinking
  | KTool _ _ => LastMessageTypeTools
  end.

(** The indices of [n] blocks from [base] on. *)
Definition indices (base n : nat) : gset Z := list_to_set (seqZ (Z.of_nat base) (Z.of_nat n)).

(** The converter in state [ci], with the client at blocks [bs], of which [open] are
    open. *)
Inductive converts (ci : ClaudeConvertInfo) : list cblock -> gset Z -> Prop :=
  | conv_none :
      LastMessagesType ci = LastMessageTypeNone -> Index ci = 0 -> converts ci [] ∅
  | conv_text pre k s :
      is_tool (k, s) = false -> LastMessagesType ci = kind_type k -> Index ci = Z.of_nat (length pre) ->
      converts ci (pre ++ [(k, s)]) {[Z.of_nat (length pre)]}
  | conv_tools pre tools :
      LastMessagesType ci = LastMessageTypeTools -> tools ≠ [] -> forallb is_tool tools = true ->
      run_length pre = 0%nat -> ToolCallBaseIndex ci = Z.of_nat (length pre) ->
      ToolCallMaxIndexOffset ci + 1 = Z.of_nat (length tools) ->
      converts ci (pre ++ tools) (indices (length pre) (length tools)).

(** What only the end of the answer changes. *)
Definition frame (ci ci' : ClaudeConvertInfo) : Prop :=
  Done ci' = Done ci ∧ FinishReason ci' = FinishReason ci ∧ ci_Usage ci' = ci_Usage ci.

Lemma run_stops ci bs open :
  converts ci bs open -> client_run (body bs open) (stopOpenBlocks ci) = Some (body bs ∅).
Proof.
  intros [Hl Hi|pre k s Hk Hl Hi|pre tools Hl Hne Ht Hp Hb Hm]; unfold stopOpenBlocks; rewrite Hl.
  - done.
  - destruct k; [| |done]; simpl kind_type; cbn iota; rewrite Hi, read_stop by set_solver; repeat f_equal; set_solver.
  - rewrite Hb, Hm. unfold indices. apply read_stops.
Qed.

Lemma run_advance ci bs open :
  converts ci bs open ->
  client_run (body bs open) (stopOpenBlocksAndAdvance ci).1 = Some (body bs ∅) ∧
  Index (stopOpenBlocksAndAdvance ci).2 = Z.of_nat (length bs) ∧ frame ci (stopOpenBlocksAndAdvance ci).2.
Proof.
  intros H. pose proof (run_stops _ _ _ H) as Hs. unfold stopOpenBlocksAndAdvance.
  destruct H as [Hl Hi|pre k s Hk Hl Hi|pre tools Hl Hne Ht Hp Hb Hm]; rewrite Hl.
  - done.
  - destruct k; [| |done]; cbn; (split; [exact Hs|]; split; [rewrite length_app; cbn; lia|done]).
  - cbn. split; [exact Hs|]. split; [rewrite length_app; lia|done].
Qed.

(** Text of a kind that is not open starts a block. *)
Lemma add_text_new ci bs open k s :
  converts ci bs open -> is_tool (k, s) = false -> LastMessagesType ci ≠ kind_type k ->
  add_text k s bs = bs ++ [(k, s)].
Proof.
  intros [Hl Hi|pre k' s' Hk' Hl Hi|pre tools Hl Hne Ht Hp Hb Hm] Hk Hty; unfold add_text; [done|..].
  - rewrite last_snoc. simpl. rewrite decide_False; [done|]. intros ->. by apply Hty.
  - rewrite last_app. destruct tools as [|t tools] using rev_ind; [done|]. rewrite last_snoc.
    rewrite decide_False; [done|]. rewrite forallb_app in Ht. apply andb_prop in Ht as [_ Ht]. simpl in Ht.
    unfold is_tool in *. destruct (t.1), k; naive_solver.
Qed.

Lemma run_content_delta ci bs open k blk d s :
  converts ci bs open -> is_tool (k, s) = false -> block_kind blk = Some k -> block_text k blk = "" ->
  delta_text k d = Some s ->
  ∃ open', client_run (body bs open) (content_delta (kind_type k) blk d ci).1 = Some (body (add_text k s bs) open')
    ∧ converts (content_delta (kind_type k) blk d ci).2 (add_text k s bs) open'
    ∧ frame ci (content_delta (kind_type k) blk d ci).2.
Proof.
  intros Hc Hk Hblk Hbt Hd. unfold content_delta. case_decide as Hty.
  - destruct Hc as [Hl Hi|pre k' s' Hk' Hl Hi|pre tools Hl Hne Ht Hp Hb Hm];
      [|..|]; try (unfold is_tool in *; destruct k; simpl in *; congruence).
    assert (k' = k) as -> by (unfold is_tool in *; destruct k, k'; simpl in *; congruence).
    unfold add_text. rewrite last_snoc, decide_True by done. rewrite length_app. cbn [fst snd app length].
    replace (length pre + 1 - 1)%nat with (length pre) by lia. rewrite alter_last.
    exists {[Z.of_nat (length pre)]}. split_and!; [|by constructor|done].
    rewrite (read_delta _ _ (Index ci) d (k, s') s); rewrite ?Hi, ?Nat2Z.id; [by rewrite alter_last| |exact Hd|set_solver].
    by rewrite lookup_app_r, Nat.sub_diag by lia.
  - rewrite (add_text_new _ _ _ _ _ Hc Hk Hty).
    destruct (run_advance _ _ _ Hc) as (Hr & Hi & Hf).
    destruct (stopOpenBlocksAndAdvance ci) as [closed ci']. cbn [fst snd] in *.
    exists {[Z.of_nat (length bs)]}. split_and!; [|by constructor|done].
    rewrite <- app_assoc. cbn [app]. eapply client_run_then; [exact Hr|].
    rewrite (read_block _ _ _ _ k _ s) by done. rewrite Hi. repeat f_equal. set_solver.
Qed.

(** The largest offset of a run of calls. *)
Definition max_ok (m : Z) (tools : list cblock) : Prop :=
  tools = [] ∧ m = 0 ∨ m + 1 = Z.of_nat (length tools).

Lemma indices_snoc base n : indices base (S n) = {[Z.of_nat base + Z.of_nat n]} ∪ indices base n.
Proof.
  apply set_eq. intros x. unfold indices.
  rewrite elem_of_union, elem_of_singleton, !elem_of_list_to_set, !elem_of_seqZ. lia.
Qed.

(** The events of one call. *)
Definition call_events (idx : Z) (call : ToolCallResponse) : list ClaudeResponse :=
  let fn := tc_Function call in
  (if decide (fn_Name fn = "") then [] else [blockStart idx (toolBlock call)]) ++
  (if decide (fn_Arguments fn = "") then [] else [blockDelta idx (jsonDelta (fn_Arguments fn))]).

Lemma tool_events_cons base m i call rest :
  let offset := default i (tc_Index call) in
  let next := tool_events base (if m <? offset then offset else m) (i + 1) rest in
  tool_events base m i (call :: rest) = (call_events (base + offset) call ++ next.1, next.2).
Proof. simpl. destruct (tool_events _ _ _ _). unfold call_events. by rewrite <- app_assoc. Qed.

(** A call that starts. *)
Lemma run_new_call pre tools call :
  fn_Name (tc_Function call) ≠ "" ->
  client_run (body (pre ++ tools) (indices (length pre) (length tools)))
    (call_events (Z.of_nat (length pre) + Z.of_nat (length tools)) call)
  = Some (body (pre ++ tools ++ [(KTool (tc_ID call) (fn_Name (tc_Function call)), fn_Arguments (tc_Function call))])
            (indices (length pre) (S (length tools)))).
Proof.
  intros Hname. unfold call_events. rewrite decide_False by done. rewrite indices_snoc, app_assoc.
  case_decide as Ha; cbn [app].
  - rewrite Ha. apply read_start; [rewrite length_app; lia|done..].
  - apply read_block; [rewrite length_app; lia|done..].
Qed.

(** A fragment of the arguments of a call in progress. *)
Lemma run_fragment pre tools offset call :
  forallb is_tool tools = true -> fn_Name (tc_Function call) = "" -> 0 <= offset < Z.of_nat (length tools) ->
  client_run (body (pre ++ tools) (indices (length pre) (length tools)))
    (call_events (Z.of_nat (length pre) + offset) call)
  = Some (body (pre ++ alter (append_to (fn_Arguments (tc_Function call))) (Z.to_nat offset) tools)
            (indices (length pre) (length tools))).
Proof.
  intros Ht Hname Hoff. unfold call_events. rewrite decide_True by done. case_decide as Ha; cbn [app].
  - by rewrite Ha, alter_append_nil.
  - destruct (lookup_lt_is_Some_2 tools (Z.to_nat offset)) as [b Hb]; [lia|].
    assert (is_tool b = true) as Hk.
    { rewrite forallb_forall in Ht. apply Ht, list_elem_of_In, (list_elem_of_lookup_2 _ _ _ Hb). }
    assert (Z.to_nat (Z.of_nat (length pre) + offset) = (length pre + Z.to_nat offset)%nat) as Hidx by lia.
    rewrite (read_delta _ _ _ _ b (fn_Arguments (tc_Function call))).
    + by rewrite Hidx, alter_app_r.
    + by rewrite Hidx, lookup_app_r, Nat.add_comm, Nat.add_sub by lia.
    + unfold is_tool in Hk. destruct (b.1); by try discriminate Hk.
    + unfold indices. rewrite elem_of_list_to_set, elem_of_seqZ. lia.
Qed.

Lemma forallb_alter_tools s i (tools : list cblock) :
  forallb is_tool (alter (append_to s) i tools) = forallb is_tool tools.
Proof.
  revert i. induction tools as [|t tools IH]; intros [|i]; simpl; try done.
  unfold alter in IH. by rewrite IH.
Qed.

Lemma run_tool_events pre calls : ∀ tools m i,
  run_length pre = 0%nat -> forallb is_tool tools = true -> calls_ok (Z.of_nat (length tools)) i calls = true ->
  max_ok m tools ->
  ∃ tools', pre ++ tools' = foldl add_part (pre ++ tools) (call_parts i calls) ∧ forallb is_tool tools' = true ∧
    (length tools <= length tools')%nat ∧ (calls ≠ [] -> tools' ≠ []) ∧
    max_ok (tool_events (Z.of_nat (length pre)) m i calls).2 tools' ∧
    client_run (body (pre ++ tools) (indices (length pre) (length tools)))
      (tool_events (Z.of_nat (length pre)) m i calls).1
    = Some (body (pre ++ tools') (indices (length pre) (length tools'))).
Proof.
  induction calls as [|call calls IH]; intros tools m i Hpre Ht Hok Hm; [by exists tools|].
  rewrite tool_events_cons. cbn [fst snd]. simpl in Hok. cbn [call_parts foldl].
  unfold call_as_part at 1. set (offset := default i (tc_Index call)) in *.
  destruct (decide (fn_Name (tc_Function call) = "")) as [Hn|Hn]; repeat rewrite andb_true_iff in Hok.
  - destruct Hok as [[Hlo Hhi] Hok]. apply Z.leb_le in Hlo. apply Z.ltb_lt in Hhi.
    assert ((if m <? offset then offset else m) = m) as ->.
    { destruct (Z.ltb_spec m offset); [|done]. destruct Hm as [[-> ->]|Hm]; simpl in *; lia. }
    destruct (IH (alter (append_to (fn_Arguments (tc_Function call))) (Z.to_nat offset) tools) m (i + 1))
      as (tools' & Heq & Ht' & Hlen & Hne & Hm' & Hrun); [done|by rewrite forallb_alter_tools|by rewrite length_alter|..].
    { destruct Hm as [[-> ->]|Hm]; [by left|right; by rewrite length_alter]. }
    rewrite length_alter in Hlen, Hrun.
    exists tools'. split_and!; [|done|done| |done|].
    + rewrite Heq. f_equal. simpl. rewrite run_length_app by done. rewrite length_app, Nat.add_sub.
      by rewrite alter_app_r.
    + intros _ ->. simpl in *. lia.
    + eapply client_run_then; [by apply run_fragment|exact Hrun].
  - destruct Hok as [Hoff Hok]. apply Z.eqb_eq in Hoff.
    destruct (IH (tools ++ [(KTool (tc_ID call) (fn_Name (tc_Function call)), fn_Arguments (tc_Function call))])
                (if m <? offset then offset else m) (i + 1))
      as (tools' & Heq & Ht' & Hlen & Hne & Hm' & Hrun); [done|by rewrite forallb_app, Ht| |..].
    { rewrite length_app. simpl. by replace (Z.of_nat (length tools + 1)) with (Z.of_nat (length tools) + 1) by lia. }
    { right. rewrite length_app. simpl. destruct (Z.ltb_spec m offset), Hm as [[-> ->]|Hm]; simpl in *; lia. }
    rewrite length_app in Hlen, Hrun. simpl length in Hlen, Hrun. rewrite Nat.add_1_r in Hrun.
    exists tools'. split_and!; [|done|lia| |done|].
    + rewrite Heq. simpl. by rewrite <- app_assoc.
    + intros _ ->. simpl in *. lia.
    + rewrite Hoff. eapply client_run_then; [by apply run_new_call|]. by rewrite <- Hoff.
Qed.

Lemma calls_running_text ci bs open :
  converts ci bs open -> LastMessagesType ci ≠ LastMessageTypeTools -> run_length bs = 0%nat.
Proof. intros [Hl Hi|pre k s Hk Hl Hi|pre tools Hl Hne Ht Hp Hb Hm] H; [done|by apply run_length_text|done]. Qed.

Lemma run_tool_response ci bs open calls :
  converts ci bs open -> calls_ok (calls_running bs) 0 calls = true -> calls ≠ [] ->
  ∃ open', client_run (body bs open) (tool_response calls ci).1 = Some (body (foldl add_part bs (call_parts 0 calls)) open')
    ∧ converts (tool_response calls ci).2 (foldl add_part bs (call_parts 0 calls)) open'
    ∧ frame ci (tool_response calls ci).2.
Proof.
  intros Hc Hok Hne. unfold tool_response, calls_running in *. case_decide as Hty.
  - destruct Hc as [Hl Hi|pre k s Hk Hl Hi|pre tools Hl Hnt Ht Hp Hb Hm];
      [congruence|unfold is_tool in Hk; destruct k; simpl in *; congruence|].
    rewrite run_length_app in Hok by done. rewrite Hb.
    destruct (run_tool_events pre calls tools (ToolCallMaxIndexOffset ci) 0)
      as (tools' & Heq & Ht' & Hlen & Hne' & Hm' & Hrun); [done|done|done|by right|].
    destruct (tool_events _ _ _ _) as [events m']. cbn [fst snd app] in *. rewrite <- Heq.
    eexists. split_and!; [exact Hrun| |done].
    apply conv_tools; auto. destruct Hm' as [[-> _]|Hm']; [by destruct (Hne' Hne)|exact Hm'].
  - rewrite (calls_running_text _ _ _ Hc Hty) in Hok.
    destruct (run_advance _ _ _ Hc) as (Hr & Hi & Hf).
    destruct (stopOpenBlocksAndAdvance ci) as [closed ci']. cbn [fst snd ToolCallBaseIndex ToolCallMaxIndexOffset] in *.
    destruct (run_tool_events bs calls [] 0 0)
      as (tools' & Heq & Ht' & Hlen & Hne' & Hm' & Hrun);
      [by apply (calls_running_text _ _ _ Hc)|done|done|by left|].
    rewrite Hi. destruct (tool_events _ _ _ _) as [events m']. cbn [fst snd] in *.
    rewrite app_nil_r in Heq, Hrun. rewrite <- Heq.
    eexists. split_and!; [|..|exact Hf].
    + eapply client_run_then; [exact Hr|exact Hrun].
    + apply conv_tools; cbn; [done|auto|done|by apply (calls_running_text _ _ _ Hc)|done|].
      destruct Hm' as [[-> _]|Hm']; [by destruct (Hne' Hne)|exact Hm'].
Qed.

(** A chunk adds its parts to the answer of the client. *)
Lemma run_content ci bs open d :
  converts ci bs open -> delta_ok (calls_running bs) d = true ->
  ∃ open', client_run (body bs open) (content_response d ci).1 = Some (body (foldl add_part bs (delta_parts d)) open')
    ∧ converts (content_response d ci).2 (foldl add_part bs (delta_parts d)) open'
    ∧ frame ci (content_response d ci).2.
Proof.
  intros Hc Hok. unfold delta_ok in Hok. rewrite !andb_true_iff, !orb_true_iff, !bool_decide_eq_true in Hok.
  destruct Hok as [[Hcalls Hkind] Htext]. unfold content_response, delta_parts.
  destruct (delta_calls d) as [|call calls] eqn:E.
  - rewrite app_nil_r. case_decide as Hr; [case_decide as Ht|].
    + by exists open.
    + by apply (run_content_delta ci bs open KText).
    + destruct Htext as [?|Ht]; [done|]. rewrite Ht. by apply (run_content_delta ci bs open KThinking).
  - destruct Hkind as [?|[-> ->]]; [done|]. simpl app. by apply run_tool_response.
Qed.

Lemma content_silent d ci : silent d = true -> content_response d ci = ([], ci).
Proof.
  unfold silent. rewrite bool_decide_eq_true. unfold delta_parts, content_response. intros H.
  destruct (delta_calls d); [|by destruct (decide _), (decide _)]. by destruct (decide _), (decide _).
Qed.

(** ** A chunk in the middle and at the end *)

Definition with_reason (r : StreamResponse) (reason : string) : string := default reason (chunk_reason r).

Lemma run_middle count prompt ci bs open r :
  converts ci bs open -> middle_ok bs r = true -> Done ci = false -> count ≠ 1 ->
  let out := StreamResponseOpenAI2Claude count prompt r ci in
  ∃ open', client_run (body bs open) out.1 = Some (body (foldl add_part bs (chunk_parts r)) open')
    ∧ converts out.2 (foldl add_part bs (chunk_parts r)) open'
    ∧ Done out.2 = false ∧ FinishReason out.2 = with_reason r (FinishReason ci).
Proof.
  intros Hc Hok Hd Hn. unfold StreamResponseOpenAI2Claude, with_reason, chunk_parts, chunk_delta, chunk_reason.
  unfold middle_ok in Hok. rewrite Hd, (proj2 (Z.eqb_neq _ _) Hn).
  destruct (sr_Choices r) as [|c cs]; [done|]. apply andb_prop in Hok as [Hok Hf].
  unfold choice_response. destruct (finished c) eqn:Efin; simpl in Hf.
  - apply andb_prop in Hf as [Hu Hs]. rewrite Hu. simpl. unfold silent in Hs. apply bool_decide_eq_true in Hs.
    rewrite Hs. exists open. split_and!; [done| |done|].
    + destruct Hc; by constructor.
    + unfold finished in Efin. by destruct (sc_FinishReason c).
  - simpl. destruct (run_content _ _ _ _ Hc Hok) as (open' & Hrun & Hc' & Hd' & Hr' & _).
    destruct (content_response _ _) as [events ci']. cbn [fst snd] in *. rewrite Hd', Hd. simpl.
    exists open'. by split_and!; [..|congruence|].
Qed.

(** The reason the client is given. *)
Definition final_reason (reason : string) : string :=
  let r := stopReasonOpenAI2Claude reason in if decide (r = "") then "end_turn" else r.

Lemma final_reason_nonempty reason : reason ≠ "" -> final_reason reason = stopReasonOpenAI2Claude reason.
Proof.
  intros H. unfold final_reason. rewrite decide_False; [done|].
  unfold stopReasonOpenAI2Claude, OpenAIFinishReasonToClaudeStopReason. by repeat case_decide.
Qed.

Lemma run_close ci bs open u reason :
  converts ci bs open ->
  client_run (body bs open) (closeMessage (Some u) reason ci).1
  = Some (mkClient Stopped id model bs ∅ reason (Some (buildClaudeUsageFromOpenAIUsage u))).
Proof.
  intros Hc. unfold closeMessage. cbn [fst]. eapply client_run_then; [by apply run_stops|]. done.
Qed.

Lemma run_last count prompt ci bs open r u :
  converts ci bs open -> last_ok bs r = true -> Done ci = false -> count ≠ 1 -> ci_Usage ci = Some u ->
  client_run (body bs open) (StreamResponseOpenAI2Claude count prompt r ci).1
  = Some (mkClient Stopped id model (foldl add_part bs (chunk_parts r)) ∅
            (final_reason (with_reason r (FinishReason ci)))
            (Some (buildClaudeUsageFromOpenAIUsage (default u (sr_Usage r))))).
Proof.
  intros Hc Hok Hd Hn Hu. unfold StreamResponseOpenAI2Claude, with_reason, chunk_parts, chunk_delta, chunk_reason.
  unfold last_ok in Hok. rewrite Hd, (proj2 (Z.eqb_neq _ _) Hn).
  destruct (sr_Choices r) as [|c cs].
  - unfold usage_response, available_usage. rewrite Hu. destruct (sr_Usage r); by apply run_close.
  - rewrite !andb_true_iff in Hok. destruct Hok as [[Hok Hf] Hus]. unfold choice_response. rewrite Hf.
    destruct (sr_Usage r) as [v|] eqn:Ev; [|done]. cbn [andb bool_decide].
    assert (∃ reason, sc_FinishReason c = Some reason ∧ reason ≠ "") as (reason & Hr & Hne).
    { unfold finished in Hf. destruct (sc_FinishReason c) as [reason|]; [|done].
      exists reason. split; [done|]. by apply negb_true_iff, bool_decide_eq_false in Hf. }
    rewrite Hr. cbn [default].
    set (ci1 := Build_ClaudeConvertInfo _ _ _ _ _ _ _) || set (ci1 := mkConvert _ _ _ _ _ _ _).
    assert (converts ci1 bs open) as Hc1 by (destruct Hc; by constructor).
    destruct (run_content _ _ _ _ Hc1 Hok) as (open' & Hrun & Hc' & Hd' & Hr' & _).
    destruct (content_response _ _) as [events ci']. cbn [fst snd] in *.
    rewrite orb_true_l. unfold available_usage. rewrite Ev.
    replace (FinishReason ci') with reason by (by rewrite Hr').
    destruct (closeMessage _ _ _) as [closing ci''] eqn:Ecl. cbn [fst snd].
    eapply client_run_then; [exact Hrun|].
    replace closing with (closeMessage (Some v) (stopReasonOpenAI2Claude reason) ci').1 by (by rewrite Ecl).
    rewrite final_reason_nonempty by done. by apply run_close.
Qed.

End Reader.

(** ** The first chunk *)

Lemma run_first prompt r u :
  first_ok r = true ->
  let ci := {| initConvert with ci_Usage := u |} in
  let out := StreamResponseOpenAI2Claude 1 prompt r ci in
  ∃ open', client_run initClient out.1 = Some (body (sr_Id r) (sr_Model r) (foldl add_part [] (chunk_parts r)) open')
    ∧ converts out.2 (foldl add_part [] (chunk_parts r)) open' ∧ Done out.2 = false ∧ FinishReason out.2 = "".
Proof.
  intros Hok ci out. unfold first_ok in Hok. rewrite !andb_true_iff in Hok. destruct Hok as [[Hd Hlen] Hfin].
  assert (out = (messageStart r prompt :: (first_tool r ci).1 ++ (first_content r (first_tool r ci).2).1,
                 (first_content r (first_tool r ci).2).2)) as ->.
  { subst out. unfold StreamResponseOpenAI2Claude, first_response. simpl.
    destruct (first_tool r ci) as [tool ci1]. cbn [fst snd]. destruct (first_content r ci1) as [content ci2]. cbn [fst snd].
    unfold first_finish. unfold IsFinished in Hfin. destruct (sr_Choices r) as [|c cs]; [by rewrite app_nil_r|].
    apply negb_true_iff in Hfin. by rewrite Hfin, app_nil_r. }
  cbn [fst snd]. simpl client_run. fold (body (sr_Id r) (sr_Model r) [] ∅).
  unfold first_tool, first_content, GetFirstToolCall, IsToolCall, chunk_parts, chunk_delta in *.
  destruct (sr_Choices r) as [|c cs]; [eexists; split_and!; [done|by constructor|done..]|].
  unfold delta_ok in Hd. rewrite !andb_true_iff, !orb_true_iff, !bool_decide_eq_true in Hd.
  destruct Hd as [[Hcalls Hkind] Htext]. unfold delta_parts.
  destruct (delta_calls (sc_Delta c)) as [|call calls] eqn:E; cbn [length Nat.ltb Nat.leb head mbind option_bind default fst snd].
  - rewrite app_nil_r. case_decide as Hr; [case_decide as Ht|]; cbn [app foldl].
    + eexists. split_and!; [done|by constructor|done..].
    + eexists. split_and!; [apply (read_block _ _ _ _ _ _ KText); done| |done..]. by apply (conv_text _ []).
    + destruct Htext as [?|Ht]; [done|]. rewrite Ht, decide_True by done. cbn [app foldl].
      eexists. split_and!; [apply (read_block _ _ _ _ _ _ KThinking); done| |done..]. by apply (conv_text _ []).
  - destruct Hkind as [?|[Hr Ht]]; [done|]. destruct calls; [|done]. rewrite Hr, Ht. cbn [app].
    cbn [calls_ok] in Hcalls. destruct (decide ("" = "")) as [_|]; [|done]. rewrite E.
    cbn [call_parts app foldl fst snd head default option_bind]. rewrite app_nil_r.
    unfold call_as_part. destruct (decide (fn_Name (tc_Function call) = "")) as [Hn|Hn].
    { exfalso. rewrite !andb_true_iff in Hcalls. lia. }
    pose proof (run_new_call (sr_Id r) (sr_Model r) [] [] call Hn) as Hrun. cbn [app length] in Hrun.
    unfold call_events in Hrun. rewrite decide_False in Hrun by done.
    eexists. split_and!; [exact Hrun| |done..].
    by apply (conv_tools _ [] [_]).
Qed.

(** ** The handler *)

Section Handler.

Context {uc : Unicode} {dec : Decoder} (cf : StreamConfig) (Hcf : cf_Format cf = RelayFormatClaude).

Definition decodes (line : string) (r : StreamResponse) : Prop := line ≠ "" ∧ UnmarshalChunk line = Some r.

(** The state after some chunks. *)
Record fed (id model : string) (n : Z) (st : StreamState) (bs : list cblock) (reason : string) : Prop := {
  fed_count : SendResponseCount st = n;
  fed_client : ∃ open, client_run initClient (claude_events (ss_Sent st)) = Some (body id model bs open)
                 ∧ converts (ss_Claude st) bs open;
  fed_done : Done (ss_Claude st) = false;
  fed_reason : FinishReason (ss_Claude st) = reason;
}.

Lemma claude_events_send st events :
  claude_events (ss_Sent (send (ClaudeData <$> events) st)) = claude_events (ss_Sent st) ++ events.
Proof.
  unfold claude_events. cbn [ss_Sent send]. rewrite omap_app. f_equal.
  induction events as [|e l IH]; [done|]. rewrite fmap_cons. simpl. f_equal. exact IH.
Qed.

(** What a chunk does to the state: its usage is noted, its events are sent. *)
Definition noted (r : StreamResponse) (ci : ClaudeConvertInfo) : ClaudeConvertInfo :=
  match sr_Usage r with Some u => {| ci with ci_Usage := Some u |} | None => ci end.

Lemma feed_claude st line r :
  decodes line r ->
  let out := StreamResponseOpenAI2Claude (SendResponseCount st + 1) (cf_PromptTokens cf) r (noted r (ss_Claude st)) in
  SendResponseCount (feed cf st line) = SendResponseCount st + 1 ∧ ss_Claude (feed cf st line) = out.2 ∧
  claude_events (ss_Sent (feed cf st line)) = claude_events (ss_Sent st) ++ out.1.
Proof.
  intros [Hne Hr]. unfold feed, HandleStreamFormat. rewrite Hcf. unfold handleClaudeFormat. rewrite Hr.
  unfold to_claude, noted. destruct (sr_Usage r); cbn [fst snd SendResponseCount ss_Claude];
    destruct (StreamResponseOpenAI2Claude _ _ _ _) as [events ci]; split_and!; try done;
    by rewrite claude_events_send.
Qed.

Lemma noted_converts r ci bs open : converts ci bs open -> converts (noted r ci) bs open.
Proof. unfold noted. destruct (sr_Usage r); [|done]. intros [?|?|?]; by constructor. Qed.

Lemma noted_fields r ci : Done (noted r ci) = Done ci ∧ FinishReason (noted r ci) = FinishReason ci.
Proof. unfold noted. by destruct (sr_Usage r). Qed.

Lemma feed_middle id model n st bs reason line r :
  fed id model n st bs reason -> decodes line r -> middle_ok bs r = true -> 1 <= n ->
  fed id model (n + 1) (feed cf st line) (foldl add_part bs (chunk_parts r)) (with_reason r reason).
Proof.
  intros [Hn (open & Hrun & Hc) Hd Hr] Hl Hok H1.
  destruct (feed_claude st line r Hl) as (Hn' & Hci & Hev). destruct (noted_fields r (ss_Claude st)) as [Hd' Hr'].
  destruct (run_middle id model (SendResponseCount st + 1) (cf_PromptTokens cf) _ _ _ r (noted_converts r _ _ _ Hc) Hok)
    as (open' & Hrun' & Hc' & Hd'' & Hr''); [congruence|lia|].
  split; [lia| |congruence|congruence].
  exists open'. rewrite Hci, Hev. split; [|done]. by eapply client_run_then.
Qed.

Lemma feed_rest id model lines chunks final : ∀ n st bs reason,
  fed id model n st bs reason -> Forall2 decodes lines chunks -> rest_ok bs (chunks ++ [final]) = true -> 1 <= n ->
  let bs' := foldl add_part bs (chunks ≫= chunk_parts) in
  fed id model (n + Z.of_nat (length chunks)) (foldl (feed cf) st lines) bs'
    (foldl (λ acc r, with_reason r acc) reason chunks) ∧ last_ok bs' final = true.
Proof.
  intros n st bs reason Hf Hl. revert n st bs reason Hf.
  induction Hl as [|line r lines chunks Hr Hl IH]; intros n st bs reason Hf Hok H1.
  - simpl in *. rewrite Z.add_0_r. done.
  - cbn [app rest_ok] in Hok. destruct (chunks ++ [final]) as [|r' rest] eqn:E; [by destruct chunks|].
    apply andb_prop in Hok as [Hm Hok].
    cbn [mbind list_bind foldl length]. rewrite foldl_app.
    replace (n + Z.of_nat (S (length chunks))) with (n + 1 + Z.of_nat (length chunks)) by lia.
    apply IH; [by apply feed_middle|done|lia].
Qed.

Lemma feed_first line r :
  decodes line r -> first_ok r = true ->
  fed (sr_Id r) (sr_Model r) 1 (feed cf initStream line) (foldl add_part [] (chunk_parts r)) "".
Proof.
  intros Hl Hok. destruct (feed_claude initStream line r Hl) as (Hn & Hci & Hev).
  destruct (run_first (cf_PromptTokens cf) r (sr_Usage r) Hok) as (open & Hrun & Hc & Hd & Hr).
  assert (noted r (ss_Claude initStream) = {| initConvert with ci_Usage := sr_Usage r |}) as Hnoted
    by (unfold noted; by destruct (sr_Usage r)).
  rewrite Hnoted in Hci, Hev. split; [done| |by rewrite Hci|by rewrite Hci].
  exists open. rewrite Hci, Hev. by split.
Qed.

Lemma stream_reason_foldl first rest :
  IsFinished first = false -> stream_reason (first :: rest) = foldl (λ acc r, with_reason r acc) "" rest.
Proof.
  intros H. unfold stream_reason. simpl. unfold chunk_reason at 2. unfold IsFinished in H.
  destruct (sr_Choices first) as [|c cs]; [done|]. by rewrite H.
Qed.

Lemma handler_answer first mid final lines :
  Forall2 decodes lines (first :: mid ++ [final]) -> stream_ok (first :: mid ++ [final]) = true ->
  let out := OaiStreamHandler cf lines in
  client_run initClient (claude_events (ss_Sent out.2))
  = Some (mkClient Stopped (sr_Id first) (sr_Model first) (answer (first :: mid ++ [final])) ∅
            (final_reason (stream_reason (first :: mid ++ [final])))
            (Some (buildClaudeUsageFromOpenAIUsage (default out.1 (sr_Usage final))))).
Proof.
  intros Hl Hok. apply Forall2_cons_inv_r in Hl as (l1 & ls & Hl1 & Hl & ->).
  apply Forall2_app_inv_r in Hl as (lmid & llast & Hmid & Hlast & ->).
  apply Forall2_cons_inv_r in Hlast as (lfinal & [] & Hfinal & Hnil & ->); [|by inversion Hnil].
  cbn [stream_ok] in Hok. rewrite !andb_true_iff in Hok. destruct Hok as [[Hfirst Hlen] Hrest].
  rewrite length_app in Hlen. apply Nat.leb_le in Hlen. simpl in Hlen.
  destruct (feed_rest _ _ _ _ final 1 _ _ _ (feed_first _ _ Hl1 Hfirst) Hmid Hrest) as [Hfed Hok]; [lia|].
  assert (Forall (λ l, l ≠ "") ((l1 :: lmid) ++ [lfinal])) as Hne.
  { apply Forall_app. split; [|constructor; [apply Hfinal|done]]. constructor; [apply Hl1|].
    eapply Forall2_Forall_l; [exact Hmid|]. by apply Forall_true; intros ? ? []. }
  destruct (handle_data_loop cf _ _ Hne) as [Hh Hst]. cbn [app] in *.
  unfold OaiStreamHandler, finish_stream. rewrite Hcf, Hh. cbn [fst snd]. unfold HandleFinalResponse. rewrite Hcf, (proj2 Hfinal), Hst.
  cbn [foldl]. destruct Hfed as [Hn (open & Hrun & Hc) Hd Hr].
  set (u := final_usage _ _ _). set (st := foldl (feed cf) (feed cf initStream l1) lmid) in *.
  unfold to_claude. cbn [ss_Claude SendResponseCount]. set (ci := mkConvert _ _ _ _ _ _ _).
  assert (converts ci (foldl add_part (foldl add_part [] (chunk_parts first)) (mid ≫= chunk_parts)) open) as Hc'
    by (destruct Hc; by constructor).
  pose proof (run_last (sr_Id first) (sr_Model first) (SendResponseCount st) (cf_PromptTokens cf) ci _ _ final u Hc' Hok) as Hlast.
  destruct (StreamResponseOpenAI2Claude _ _ _ ci) as [events ci']. cbn [fst] in Hlast. cbn [ss_Sent]. rewrite claude_events_send.
  eapply client_run_then; [exact Hrun|]. rewrite Hlast; [|done|lia|done].
  unfold answer. rewrite bind_cons, bind_app, !foldl_app. simpl mbind. rewrite app_nil_r.
  rewrite stream_reason_foldl, foldl_snoc; [by rewrite <- Hr|].
  unfold first_ok in Hfirst. rewrite !andb_true_iff, negb_true_iff in Hfirst. apply Hfirst.
Qed.


End Handler.
