(* ===== verification/ClaudeUpstream.v ===== *)
(** * ClaudeUpstream: the answer of a Claude upstream

    Models the response side of [relay/channel/claude/relay-claude.go]: the conversion of
    events and messages to the OpenAI format, the usage gathered from the events and what
    is done when a stream ends.  Decoding and encoding JSON, and the [gjson]/[sjson] paths
    into a text, are interfaces. *)

From S2P Require Export ClaudeStream.
From S2P Require Export OaiStream.
From S2P Require Export StreamScanner.
From S2P Require Import Prelude.

Definition stopReasonClaude2OpenAI : string -> string := ClaudeStopReasonToOpenAIFinishReason.

Definition panic_nil : error := EText "runtime error: invalid memory address or nil pointer dereference".

(** ** Events as chunks *)

(** A delta: [PartialJson] is followed without a check. *)
Definition claude_delta (fcIdx : Z) (m : ClaudeMedia) : result (Delta * list ToolCallResponse) :=
  let d := {| emptyDelta with d_Content := cm_Text m |} in
  if decide (cm_Type m = "input_json_delta") then
    match cm_PartialJson m with
    | Some s => Ok (d, [mkToolCall (Some fcIdx) "" (JString "function") {| emptyFunction with fn_Arguments := s |}])
    | None => Err panic_nil
    end
  else if decide (cm_Type m = "signature_delta") then Ok ({| d with d_ReasoningContent := Some LF |}, [])
  else if decide (cm_Type m = "thinking_delta") then Ok ({| d with d_ReasoningContent := cm_Thinking m |}, [])
  else Ok (d, []).

(** [Ok None]: nothing to send. *)
Definition StreamResponseClaude2OpenAI (e : ClaudeResponse) : result (option StreamResponse) :=
  let fcIdx := default 0 (cr_Index e) in
  let response := {| emptyStreamResponse with sr_Object := "chat.completion.chunk"; sr_Model := cr_Model e |} in
  let finish (r : StreamResponse) (c : StreamChoice) (tools : list ToolCallResponse) : result (option StreamResponse) :=
    let d := sc_Delta c in
    let c := match tools with
             | [] => c
             | _ => {| c with sc_Delta := {| d with d_Content := None; d_ToolCalls := Some tools |} |}
             end in
    Ok (Some {| r with sr_Choices := [c] |}) in
  if decide (cr_Type e = "message_start") then
    let response := match cr_Message e with
                    | Some m => {| response with sr_Id := cm_Id m; sr_Model := cm_Model m |}
                    | None => response
                    end in
    finish response {| emptyChoice with sc_Delta := {| emptyDelta with d_Content := Some ""; d_Role := "assistant" |} |} []
  else if decide (cr_Type e = "content_block_start") then
    match cr_ContentBlock e with
    | None => Ok None
    | Some b =>
        let d := if decide (cm_Type b = "text") then {| emptyDelta with d_Content := cm_Text b |} else emptyDelta in
        let tools := if decide (cm_Type b = "tool_use")
                     then [mkToolCall (Some fcIdx) (cm_Id b) (JString "function") {| emptyFunction with fn_Name := cm_Name b |}]
                     else [] in
        finish response {| emptyChoice with sc_Delta := d |} tools
    end
  else if decide (cr_Type e = "content_block_delta") then
    match cr_Delta e with
    | None => finish response emptyChoice []
    | Some m =>
        match claude_delta fcIdx m with
        | Ok (d, tools) => finish response {| emptyChoice with sc_Delta := d |} tools
        | Err err => Err err
        end
    end
  else if decide (cr_Type e = "message_delta") then
    let reason := m ← cr_Delta e; s ← cm_StopReason m;
                  let r := stopReasonClaude2OpenAI s in if decide (r = "null") then None else Some r in
    finish response {| emptyChoice with sc_FinishReason := reason |} []
  else Ok None.

(** ** Usage *)

Definition cacheCreationTokensForOpenAIUsage (u : Usage) : Z :=
  let split := wrap64 (ClaudeCacheCreation5mTokens u + ClaudeCacheCreation1hTokens u) in
  let created := CachedCreationTokens (PromptTokensDetails u) in
  if split =? 0 then created else if split <? created then created else split.

Definition buildOpenAIStyleUsageFromClaudeUsage (u : Usage) : Usage :=
  let '(c5m, c1h) := NormalizeCacheCreationSplit (CachedCreationTokens (PromptTokensDetails u))
    (ClaudeCacheCreation5mTokens u) (ClaudeCacheCreation1hTokens u) in
  let totalInputTokens :=
    wrap64 (wrap64 (PromptTokens u + CachedTokens (PromptTokensDetails u)) + cacheCreationTokensForOpenAIUsage u) in
  {| u with ClaudeCacheCreation5mTokens := c5m; ClaudeCacheCreation1hTokens := c1h;
     PromptTokens := totalInputTokens; InputTokens := totalInputTokens;
     TotalTokens := wrap64 (totalInputTokens + CompletionTokens u);
     UsageSemantic := "openai"; UsageSource := "anthropic" |}.

Record ClaudeResponseInfo : Type := mkResponseInfo {
  ResponseId : string;
  Created : Z;
  ri_Model : string;
  ResponseText : string;
  ri_Usage : Usage;
  ri_Done : bool;
}.

Definition buildMessageDeltaPatchUsage (e : ClaudeResponse) (info : ClaudeResponseInfo) : ClaudeUsage :=
  let usage := default emptyClaudeUsage (cr_Usage e) in
  let known := ri_Usage info in
  let fill (v k : Z) : Z := if (v =? 0) && (0 <? k) then k else v in
  let created := fill (cu_CacheCreationInputTokens usage) (CachedCreationTokens (PromptTokensDetails known)) in
  let '(c5m, c1h) :=
    match cu_CacheCreation usage with
    | Some c => (Ephemeral5mInputTokens c, Ephemeral1hInputTokens c)
    | None => (ClaudeCacheCreation5mTokens known, ClaudeCacheCreation1hTokens known)
    end in
  let '(c5m, c1h) := NormalizeCacheCreationSplit created c5m c1h in
  {| usage with
     cu_InputTokens := fill (cu_InputTokens usage) (PromptTokens known);
     cu_CacheReadInputTokens := fill (cu_CacheReadInputTokens usage) (CachedTokens (PromptTokensDetails known));
     cu_CacheCreationInputTokens := created;
     cu_CacheCreation := if bool_decide (is_Some (cu_CacheCreation usage)) || (0 <? c5m) || (0 <? c1h)
                         then Some (mkCacheCreation c5m c1h) else None |}.

Definition set_message_usage (m : ClaudeUsage) (u : Usage) : Usage :=
  {| u with PromptTokens := cu_InputTokens m; UsageSemantic := "anthropic";
     PromptTokensDetails := {| (PromptTokensDetails u) with CachedTokens := cu_CacheReadInputTokens m;
                               CachedCreationTokens := cu_CacheCreationInputTokens m |};
     ClaudeCacheCreation5mTokens := GetCacheCreation5mTokens m;
     ClaudeCacheCreation1hTokens := GetCacheCreation1hTokens m;
     CompletionTokens := cu_OutputTokens m |}.

(** The counts of a [message_delta] replace those known, where they are positive. *)
Definition newer (v known : Z) : Z := if 0 <? v then v else known.
Definition merge_delta_usage (m : ClaudeUsage) (u : Usage) : Usage :=
  let prompt := newer (cu_InputTokens m) (PromptTokens u) in
  let completion := newer (cu_OutputTokens m) (CompletionTokens u) in
  {| u with UsageSemantic := "anthropic"; PromptTokens := prompt;
     PromptTokensDetails := {| (PromptTokensDetails u) with
        CachedTokens := newer (cu_CacheReadInputTokens m) (CachedTokens (PromptTokensDetails u));
        CachedCreationTokens := newer (cu_CacheCreationInputTokens m) (CachedCreationTokens (PromptTokensDetails u)) |};
     ClaudeCacheCreation5mTokens := newer (GetCacheCreation5mTokens m) (ClaudeCacheCreation5mTokens u);
     ClaudeCacheCreation1hTokens := newer (GetCacheCreation1hTokens m) (ClaudeCacheCreation1hTokens u);
     CompletionTokens := completion; TotalTokens := wrap64 (prompt + completion) |}.

(** The information gathered, and whether the event is one to pass on. *)
Definition FormatClaudeResponseInfo (e : ClaudeResponse) (info : ClaudeResponseInfo) : ClaudeResponseInfo * bool :=
  if decide (cr_Type e = "message_start") then
    match cr_Message e with
    | None => (info, true)
    | Some m =>
        let info := {| info with ResponseId := cm_Id m; ri_Model := cm_Model m |} in
        (match cm_Usage m with
         | Some u => {| info with ri_Usage := set_message_usage u (ri_Usage info) |}
         | None => info
         end, true)
    end
  else if decide (cr_Type e = "content_block_delta") then
    (match cr_Delta e with
     | Some m => {| info with ResponseText := ResponseText info +:+ default "" (cm_Text m) +:+ default "" (cm_Thinking m) |}
     | None => info
     end, true)
  else if decide (cr_Type e = "message_delta") then
    let info := match cr_Usage e with
                | Some u => {| info with ri_Usage := merge_delta_usage u (ri_Usage info) |}
                | None => info
                end in
    ({| info with ri_Done := true |}, true)
  else if decide (cr_Type e = "content_block_start") then (info, true)
  else (info, false).

(** The identity of the chunk is that of the answer. *)
Definition stamp (info : ClaudeResponseInfo) (r : StreamResponse) : StreamResponse :=
  {| r with sr_Id := ResponseId info; sr_Created := Created info; sr_Model := ri_Model info |}.

(** ** Errors of the upstream ([dto/claude.go], [types/error.go]) *)

(** Type and message. *)
Definition GetClaudeError (e : ClaudeResponse) : option (string * string) :=
  match cr_Error e with
  | JNull => None
  | JObject m => Some (default "" (as_string (field m "type")), default "" (as_string (field m "message")))
  | JString s => Some ("upstream_error", s)
  | _ => Some ("unknown_upstream_error", "unknown_error: %v")
  end.
Definition WithClaudeError (ty message : string) (statusCode : Z) : error :=
  EApi (EText message) (if decide (ty = "") then "upstream_error" else ty) statusCode false true.
Definition ErrorCodeBadResponseBody : string := "bad_response_body".

(** [strings.EqualFold(s, "refusal")]: the long s folds to an s as well. *)
Definition long_s : string := string_of_bytes [197; 191].
Definition is_refusal (s : string) : bool := bool_decide (ToLower (ReplaceAll s long_s "s") = "refusal").

(** ** The stream handler *)

(** What is written: an event with its data as received, or patched; a chunk ([None] is
    written as [null]); the final [DONE]. *)
Inductive UpOutput : Type :=
  | EventData (ty data : string)
  | ChunkObject (r : option StreamResponse)
  | FinalDone.

(** [up_Refused]: the admin's reject reason has been noted. *)
Record UpState : Type := mkUpState {
  up_Info : ClaudeResponseInfo;
  up_Model : string;
  up_Refused : bool;
  up_Sent : list UpOutput;
}.
Definition emit (o : UpOutput) (st : UpState) : UpState := {| st with up_Sent := up_Sent st ++ [o] |}.
Definition mark_refusal (s : string) (st : UpState) : UpState :=
  if is_refusal s then {| st with up_Refused := true |} else st.

(** Integers in a JSON text by path: [gjson.Get] and [sjson.Set]. *)
Class JsonPath : Type := {
  gjson_Int : string -> string -> option Z;
  sjson_Set : string -> string -> Z -> option string;
}.

Record UpConfig : Type := mkUpConfig {
  uf_Format : RelayFormat;
  uf_PassThrough : bool;
  uf_PassThroughBody : bool;
  uf_PromptTokens : Z;
  uf_IncludeUsage : bool;
}.
Definition shouldSkipClaudeMessageDeltaUsagePatch (cf : UpConfig) : bool := uf_PassThrough cf || uf_PassThroughBody cf.

Section Upstream.

Context {uc : Unicode} {jp : JsonPath}.
Variable UnmarshalClaude : string -> option ClaudeResponse.

Definition setMessageDeltaUsageInt (path : string) (localValue : Z) (data : string) : string :=
  if localValue <=? 0 then data
  else
    let upstream := match gjson_Int data path with Some v => 0 <? v | None => false end in
    if upstream then data else default data (sjson_Set data path localValue).

Definition path_input : string := "usage.input_tokens".
Definition path_read : string := "usage.cache_read_input_tokens".
Definition path_created : string := "usage.cache_creation_input_tokens".
Definition path_5m : string := "usage.cache_creation.ephemeral_5m_input_tokens".
Definition path_1h : string := "usage.cache_creation.ephemeral_1h_input_tokens".

Definition patchClaudeMessageDeltaUsageData (data : string) (u : ClaudeUsage) : string :=
  if decide (data = "") then data
  else
    let data := setMessageDeltaUsageInt path_input (cu_InputTokens u) data in
    let data := setMessageDeltaUsageInt path_read (cu_CacheReadInputTokens u) data in
    let data := setMessageDeltaUsageInt path_created (cu_CacheCreationInputTokens u) data in
    match cu_CacheCreation u with
    | Some c =>
        let data := setMessageDeltaUsageInt path_5m (Ephemeral5mInputTokens c) data in
        setMessageDeltaUsageInt path_1h (Ephemeral1hInputTokens c) data
    | None => data
    end.

Definition claude_format (cf : UpConfig) (e : ClaudeResponse) (data : string) (st : UpState) : UpState :=
  let st := {| st with up_Info := (FormatClaudeResponseInfo e (up_Info st)).1 |} in
  let st := match cr_Message e with
            | Some m => if decide (cr_Type e = "message_start") then {| st with up_Model := cm_Model m |} else st
            | None => st
            end in
  let data := if bool_decide (cr_Type e = "message_delta") && negb (shouldSkipClaudeMessageDeltaUsagePatch cf)
              then patchClaudeMessageDeltaUsageData data (buildMessageDeltaPatchUsage e (up_Info st)) else data in
  emit (EventData (cr_Type e) data) st.

Definition openai_format (e : ClaudeResponse) (st : UpState) : result UpState :=
  match StreamResponseClaude2OpenAI e with
  | Err err => Err err
  | Ok response =>
      let '(info, pass) := FormatClaudeResponseInfo e (up_Info st) in
      let st := {| st with up_Info := info |} in
      Ok (if pass then emit (ChunkObject (stamp info <$> response)) st else st)
  end.

(** A call of the handler: the next state, an error to answer with, or a panic, which
    leaves the state of before the conversion. *)
Inductive Outcome : Type := Next (st : UpState) | Failed (e : error) | Panicked (st : UpState).

Definition HandleStreamResponseData (cf : UpConfig) (data : string) (st : UpState) : Outcome :=
  match UnmarshalClaude data with
  | None => Failed (EApi (EText "unmarshal") ErrorCodeBadResponseBody 500 false true)
  | Some e =>
      let refused :=
        let st := if decide (cr_StopReason e = "") then st else mark_refusal (cr_StopReason e) st in
        match m ← cr_Delta e; cm_StopReason m with Some s => mark_refusal s st | None => st end in
      let go :=
        match uf_Format cf with
        | RelayFormatClaude => Next (claude_format cf e data refused)
        | RelayFormatOpenAI => match openai_format e refused with Ok st => Next st | Err _ => Panicked refused end
        | _ => Next refused
        end in
      match GetClaudeError e with
      | Some (ty, message) => if decide (ty = "") then go else Failed (WithClaudeError ty message 500)
      | None => go
      end
  end.

(** What the closure given to [StreamScannerHandler] reports; it keeps the error. *)
Definition claude_data_handler (cf : UpConfig) (data : string) (h : UpState * option error)
    : StreamResult * (UpState * option error) :=
  match HandleStreamResponseData cf data h.1 with
  | Next st => (SContinue [], (st, None))
  | Failed e => (SStop (Some (Error e)), (h.1, Some e))
  | Panicked st => (SPanic, (st, h.2))
  end.

(** Counts that are missing are estimated from the text. *)
Definition complete_usage (cf : UpConfig) (st : UpState) : Usage :=
  let info := up_Info st in
  let u := ri_Usage info in
  let u :=
    if (CompletionTokens u =? 0) || negb (ri_Done info) then
      let fallback := ResponseText2Usage (ResponseText info) (up_Model st) (uf_PromptTokens cf) in
      let completion :=
        if (CompletionTokens u =? 0) || (negb (ri_Done info) && (CompletionTokens u <? CompletionTokens fallback))
        then CompletionTokens fallback else CompletionTokens u in
      let prompt := if PromptTokens u =? 0 then PromptTokens fallback else PromptTokens u in
      {| u with CompletionTokens := completion; PromptTokens := prompt; TotalTokens := wrap64 (prompt + completion) |}
    else u in
  {| u with UsageSemantic := "anthropic" |}.

Definition HandleStreamFinalResponse (cf : UpConfig) (st : UpState) : UpState :=
  let u := complete_usage cf st in
  let st := {| st with up_Info := {| (up_Info st) with ri_Usage := u |} |} in
  match uf_Format cf with
  | RelayFormatOpenAI =>
      let st :=
        if uf_IncludeUsage cf
        then emit (ChunkObject (Some (GenerateFinalUsageResponse (ResponseId (up_Info st)) (Created (up_Info st))
                                        (up_Model st) (buildOpenAIStyleUsageFromClaudeUsage u)))) st
        else st in
      emit FinalDone st
  | _ => st
  end.

(** The data lines one after the other, until the handler stops. *)
Fixpoint handle_lines (cf : UpConfig) (lines : list string) (h : UpState * option error) : UpState * option error :=
  match lines with
  | [] => h
  | data :: rest =>
      match claude_data_handler cf data h with
      | (SContinue _, h) => handle_lines cf rest h
      | (_, h) => h
      end
  end.

Definition ClaudeStreamHandler (cf : UpConfig) (responseId : string) (now : Z) (model : string) (lines : list string)
    : result Usage * UpState :=
  let st := mkUpState (mkResponseInfo responseId now model "" emptyUsage false) model false [] in
  match handle_lines cf lines (st, None) with
  | (st, Some e) => (Err e, st)
  | (st, None) => let st := HandleStreamFinalResponse cf st in (Ok (ri_Usage (up_Info st)), st)
  end.

End Upstream.

(** ** Tool choice *)

Record ClaudeToolChoice : Type := mkToolChoice {
  ct_Type : string;
  ct_Name : string;
  ct_DisableParallel : bool;
}.

Definition mapToolChoice (toolChoice : json) (parallelToolCalls : option bool) : option ClaudeToolChoice :=
  let choice :=
    match toolChoice with
    | JString s =>
        if decide (s = "auto") then Some (mkToolChoice "auto" "" false)
        else if decide (s = "required") then Some (mkToolChoice "any" "" false)
        else if decide (s = "none") then Some (mkToolChoice "none" "" false)
        else None
    | JObject m =>
        fn ← as_object (field m "function"); name ← as_string (field fn "name");
        Some (mkToolChoice "tool" name false)
    | _ => None
    end in
  match parallelToolCalls with
  | None => choice
  | Some parallel =>
      let c := default (mkToolChoice "auto" "" false) choice in
      Some (if decide (ct_Type c = "none") then c else {| c with ct_DisableParallel := negb parallel |})
  end.
