(* ===== verification/ClaudeUpstreamProps.v ===== *)
(** * ClaudeUpstreamProps: Claude answers in the OpenAI format, and their usage

    The chunks made from Claude events carry the text and the tool calls a client of the
    Claude API would have read; the usage of a stream is the last one reported, completed
    where the upstream left something out. *)

From S2P Require Export ClaudeStreamProps.
From S2P Require Export ClaudeUpstream.
From S2P Require Import Prelude.

(** ** The conversion of a stream *)

Definition converted (e : ClaudeResponse) : list StreamResponse :=
  match StreamResponseClaude2OpenAI e with Ok (Some r) => [r] | _ => [] end.
Definition chunk_content (r : StreamResponse) : string := GetContentString (chunk_delta r).
Definition chunk_calls (r : StreamResponse) : list ToolCallResponse := delta_calls (chunk_delta r).

(** The arguments and the starts of calls with an index. *)
Definition args_at (i : Z) (calls : list ToolCallResponse) : string :=
  foldr (λ t acc, (if decide (tc_Index t = Some i) then fn_Arguments (tc_Function t) else "") +:+ acc) "" calls.
Definition starts_at (i : Z) (calls : list ToolCallResponse) : list (string * string) :=
  omap (λ t, if decide (tc_Index t = Some i ∧ tc_ID t ≠ "") then Some (tc_ID t, fn_Name (tc_Function t)) else None) calls.

Lemma args_at_app i l k : args_at i (l ++ k) = args_at i l +:+ args_at i k.
Proof. induction l as [|t l IH]; simpl; [done|]. by rewrite IH, append_assoc. Qed.
Lemma starts_at_app i l k : starts_at i (l ++ k) = starts_at i l ++ starts_at i k.
Proof. apply omap_app. Qed.

(** The texts of the text blocks. *)
Definition block_content (b : cblock) : string := match b.1 with KText => b.2 | _ => "" end.
Definition texts (bs : list cblock) : string := foldr (λ b acc, block_content b +:+ acc) "" bs.

Lemma texts_app l k : texts (l ++ k) = texts l +:+ texts k.
Proof. induction l as [|b l IH]; simpl; [done|]. by rewrite IH, append_assoc. Qed.

(** What the chunks of the events so far show, against what the client holds: of each
    block the open ones are within range, calls are at their index and at no other. *)
Record shows (c : Client) (calls : list ToolCallResponse) : Prop := {
  shows_open : ∀ i, i ∈ cl_Open c -> 0 <= i < Z.of_nat (length (cl_Blocks c));
  shows_tool : ∀ i id name s, cl_Blocks c !! i = Some (KTool id name, s) ->
    args_at (Z.of_nat i) calls = s ∧ (id ≠ "" -> starts_at (Z.of_nat i) calls = [(id, name)]);
  shows_none : ∀ i, Z.of_nat (length (cl_Blocks c)) <= i -> args_at i calls = "" ∧ starts_at i calls = [];
}.

(** The effect of an event on the blocks, with the calls and the content it becomes. *)
Inductive effect (c : Client) : Client -> list ToolCallResponse -> string -> Prop :=
  | eff_other c' :
      cl_Blocks c' = cl_Blocks c -> cl_Open c' ⊆ cl_Open c -> effect c c' [] ""
  | eff_start c' k s :
      cl_Blocks c' = cl_Blocks c ++ [(k, s)] ->
      cl_Open c' = {[Z.of_nat (length (cl_Blocks c))]} ∪ cl_Open c -> is_tool (k, s) = false ->
      effect c c' [] (block_content (k, s))
  | eff_call c' id name :
      cl_Blocks c' = cl_Blocks c ++ [(KTool id name, "")] ->
      cl_Open c' = {[Z.of_nat (length (cl_Blocks c))]} ∪ cl_Open c ->
      effect c c' [mkToolCall (Some (Z.of_nat (length (cl_Blocks c)))) id (JString "function")
                     {| emptyFunction with fn_Name := name |}] ""
  | eff_delta c' i k b s :
      i ∈ cl_Open c -> cl_Blocks c !! Z.to_nat i = Some (k, b) -> is_tool (k, s) = false ->
      cl_Blocks c' = alter (append_to s) (Z.to_nat i) (cl_Blocks c) -> cl_Open c' = cl_Open c ->
      effect c c' [] (block_content (k, s))
  | eff_args c' i id name b s :
      i ∈ cl_Open c -> cl_Blocks c !! Z.to_nat i = Some (KTool id name, b) ->
      cl_Blocks c' = alter (append_to s) (Z.to_nat i) (cl_Blocks c) -> cl_Open c' = cl_Open c ->
      effect c c' [mkToolCall (Some i) "" (JString "function") {| emptyFunction with fn_Arguments := s |}] "".

(** The calls and the content of what an event becomes. *)
Definition event_calls (e : ClaudeResponse) : list ToolCallResponse := converted e ≫= chunk_calls.
Definition event_content (e : ClaudeResponse) : string :=
  foldr (λ r acc, chunk_content r +:+ acc) "" (converted e).

Lemma start_effect c e c' :
  cl_Phase c = Body -> cr_Type e = "content_block_start" -> client_step c e = Some c' ->
  effect c c' (event_calls e) (event_content e) ∧ is_ok (StreamResponseClaude2OpenAI e) = true.
Proof.
  unfold client_step, event_calls, event_content, converted, StreamResponseClaude2OpenAI. intros -> E Hs.
  rewrite E in *. simpl in *.
  destruct (cr_Index e) as [i|]; [|done]. destruct (cr_ContentBlock e) as [m|]; [|done]. simpl in Hs.
  destruct (block_kind m) as [k|] eqn:Ek; [|done]. simpl in Hs. case_guard as Hi; [|done]. injection Hs as <-.
  split; [|done]. subst i. unfold block_kind in Ek. destruct (decide (cm_Type m = "text")) as [Et|].
  - injection Ek as <-. rewrite decide_False by (rewrite Et; done). simpl.
    unfold chunk_content, chunk_delta. simpl. rewrite append_nil_r. by eapply (eff_start _ _ KText).
  - destruct (decide (cm_Type m = "thinking")) as [Et|].
    + injection Ek as <-. rewrite decide_False by (rewrite Et; done). simpl. by eapply (eff_start _ _ KThinking).
    + destruct (decide (cm_Type m = "tool_use")); [|done]. injection Ek as <-. simpl. by apply eff_call.
Qed.

Lemma delta_effect c e c' :
  cl_Phase c = Body -> cr_Type e = "content_block_delta" -> client_step c e = Some c' ->
  effect c c' (event_calls e) (event_content e) ∧ is_ok (StreamResponseClaude2OpenAI e) = true.
Proof.
  unfold client_step, event_calls, event_content, converted, StreamResponseClaude2OpenAI. intros -> E Hs.
  rewrite E in *. simpl in *.
  destruct (cr_Index e) as [i|]; [|done]. destruct (cr_Delta e) as [m|]; [|done]. simpl in Hs.
  destruct (cl_Blocks c !! Z.to_nat i) as [[k b]|] eqn:Eb; [|done]. simpl in Hs.
  destruct (delta_text k m) as [s|] eqn:Ed; [|done]. simpl in Hs. case_guard as Hi; [|done]. injection Hs as <-.
  unfold claude_delta. destruct k as [| |id name]; simpl in Ed.
  - destruct (decide (cm_Type m = "text_delta")) as [Et|]; [|done]. rewrite !decide_False by (rewrite Et; done). simpl.
    split; [|done]. unfold chunk_content, chunk_delta. simpl. rewrite Ed. simpl. rewrite append_nil_r.
    by eapply (eff_delta _ _ i KText).
  - destruct (decide (cm_Text m = None)) as [En|]; [|done].
    destruct (decide (cm_Type m = "thinking_delta")) as [Et|]; [|destruct (decide (cm_Type m = "signature_delta")) as [Et|]; [|done]];
      repeat (rewrite decide_False by (rewrite Et; done)); simpl; (split; [|done]);
      unfold chunk_content, chunk_delta; simpl; rewrite En; by eapply (eff_delta _ _ i KThinking _ s).
  - destruct (decide (cm_Type m = "input_json_delta")) as [Et|]; [|done]. rewrite Ed. simpl. split; [|done].
    by eapply eff_args.
Qed.

(** An event the client takes becomes chunks with its effect, and no panic. *)
Lemma event_effect c e c' :
  client_step c e = Some c' ->
  effect c c' (event_calls e) (event_content e) ∧ is_ok (StreamResponseClaude2OpenAI e) = true.
Proof.
  intros Hs. destruct (cl_Phase c) eqn:Ep.
  2:{ destruct (decide (cr_Type e = "content_block_start")); [by apply start_effect|].
      destruct (decide (cr_Type e = "content_block_delta")); [by apply delta_effect|].
      unfold client_step, event_calls, event_content, converted, StreamResponseClaude2OpenAI in *. rewrite Ep in Hs.
      revert Hs. case_decide; [done|]. do 2 (case_decide; [done|]). intros Hs.
      destruct (decide (cr_Type e = "content_block_stop")) as [Et|].
      - destruct (cr_Index e) as [i|]; [|done]. simpl in Hs. case_guard; [|done]. injection Hs as <-.
        rewrite decide_False by (rewrite Et; done). simpl. split; [|done]. apply eff_other; [done|]. simpl. set_solver.
      - case_decide; [|done]. destruct (cr_Delta e) as [m|]; [|done]. simpl in Hs.
        destruct (cm_StopReason m); [|done]. simpl in Hs. case_guard; [|done]. injection Hs as <-. simpl.
        split; [|done]. by apply eff_other. }
  all: unfold client_step, event_calls, event_content, converted, StreamResponseClaude2OpenAI in *; rewrite Ep in Hs.
  - case_decide; [|done]. destruct (cr_Message e); [|done]. injection Hs as <-. split; [|done]. by apply eff_other.
  - case_decide; [done|]. destruct (decide (cr_Type e = "message_stop")) as [E|]; [|done]. injection Hs as <-.
    rewrite E. simpl. split; [|done]. by apply eff_other.
  - by case_decide.
Qed.

(** ** What the chunks show *)

Lemma list_bind_assoc {A B C} (f : A -> list B) (g : B -> list C) l : (l ≫= f) ≫= g = l ≫= (λ a, f a ≫= g).
Proof. induction l as [|a l IH]; [done|]. by rewrite !bind_cons, bind_app, IH. Qed.

Lemma lookup_alter_kind (i j : nat) s (bs : list cblock) k b :
  alter (append_to s) i bs !! j = Some (k, b) ->
  (i ≠ j ∧ bs !! j = Some (k, b)) ∨ (i = j ∧ ∃ b0, bs !! j = Some (k, b0) ∧ b = b0 +:+ s).
Proof.
  destruct (decide (i = j)) as [->|N]; [|rewrite list_lookup_alter_ne by done; auto].
  rewrite list_lookup_alter_eq. destruct (bs !! j) as [[k0 b0]|]; [|done]. intros [= -> <-]. eauto.
Qed.

Lemma args_at_one i j t : tc_Index t = Some j -> args_at i [t] = if decide (i = j) then fn_Arguments (tc_Function t) else "".
Proof. intros H. simpl. rewrite H, append_nil_r. repeat case_decide; congruence. Qed.

Lemma starts_at_one i j t :
  tc_Index t = Some j -> i ≠ j ∨ tc_ID t = "" -> starts_at i [t] = [].
Proof. intros H N. simpl. rewrite decide_False; [done|]. rewrite H. naive_solver. Qed.

Lemma shows_effect c c' calls new txt :
  shows c calls -> effect c c' new txt -> shows c' (calls ++ new).
Proof.
  intros [Ho Ht Hn] He. split.
  - intros i Hi. destruct He as [c' Eb Eo|c' k s Eb Eo Ek|c' id name Eb Eo|c' j k b s Hj Hb Hk Eb Eo|c' j id name b s Hj Hb Eb Eo];
      rewrite Eb, ?length_app, ?length_alter; try (rewrite Eo, elem_of_union, elem_of_singleton in Hi); simpl.
    + apply Ho. set_solver.
    + destruct Hi as [->|Hi%Ho]; lia.
    + destruct Hi as [->|Hi%Ho]; lia.
    + apply Ho. set_solver.
    + apply Ho. set_solver.
  - intros i id' name' s' Hi. rewrite args_at_app, starts_at_app.
    destruct He as [c' Eb Eo|c' k s Eb Eo Ek|c' id name Eb Eo|c' j k b s Hj Hb Hk Eb Eo|c' j id name b s Hj Hb Eb Eo];
      rewrite Eb in Hi; try rewrite append_nil_r; try rewrite app_nil_r.
    + eauto.
    + apply lookup_app_Some in Hi as [Hi|[_ Hi]]; [eauto|]. apply list_lookup_singleton_Some in Hi as [_ [= -> <-]]. done.
    + apply lookup_app_Some in Hi as [Hi|[Hlen Hi]].
      * pose proof (lookup_lt_Some _ _ _ Hi). destruct (Ht _ _ _ _ Hi) as [Ha Hst].
        rewrite (args_at_one _ (Z.of_nat (length (cl_Blocks c)))), decide_False by (done || lia).
        rewrite (starts_at_one _ (Z.of_nat (length (cl_Blocks c)))) by (done || lia). by rewrite append_nil_r, app_nil_r.
      * apply list_lookup_singleton_Some in Hi as [Hz [= -> -> <-]].
        replace i with (length (cl_Blocks c)) by lia. destruct (Hn (Z.of_nat (length (cl_Blocks c)))) as [-> ->]; [lia|].
        split; [simpl; by case_decide|]. intros Hid. simpl. by rewrite decide_True.
    + apply lookup_alter_kind in Hi as [[_ Hi]|(E & b0 & Hi & ->)]; [eauto|]. subst i. rewrite Hb in Hi. by injection Hi as -> <-.
    + rewrite (starts_at_one _ j) by auto. rewrite app_nil_r, (args_at_one _ j) by done. simpl fn_Arguments.
      apply lookup_alter_kind in Hi as [[N Hi]|(E & b0 & Hi & ->)].
      * rewrite decide_False by (specialize (Ho j Hj); lia). rewrite append_nil_r. eauto.
      * rewrite decide_True by (specialize (Ho j Hj); lia). by destruct (Ht _ _ _ _ Hi) as [-> ?].
  - intros i Hi. rewrite args_at_app, starts_at_app.
    destruct He as [c' Eb Eo|c' k s Eb Eo Ek|c' id name Eb Eo|c' j k b s Hj Hb Hk Eb Eo|c' j id name b s Hj Hb Eb Eo];
      rewrite Eb, ?length_app, ?length_alter in Hi; simpl in Hi; destruct (Hn i) as [-> ->]; [lia|done|lia|done|lia| |lia|done|lia|].
    + rewrite (args_at_one _ (Z.of_nat (length (cl_Blocks c)))), decide_False by (done || lia).
      rewrite (starts_at_one _ (Z.of_nat (length (cl_Blocks c)))) by (done || lia). done.
    + specialize (Ho j Hj). rewrite (args_at_one _ j), decide_False by (done || lia). by rewrite (starts_at_one _ j) by auto.
Qed.

(** A stream that has at most its last block open, as Anthropic's have. *)
Definition last_only (c : Client) : Prop := ∀ i, i ∈ cl_Open c -> i = Z.of_nat (length (cl_Blocks c)) - 1.
Fixpoint in_turn (c : Client) (events : list ClaudeResponse) : Prop :=
  match events with
  | [] => True
  | e :: rest => match client_step c e with Some c' => last_only c' ∧ in_turn c' rest | None => True end
  end.

Lemma texts_effect c c' new txt :
  last_only c -> effect c c' new txt -> texts (cl_Blocks c') = texts (cl_Blocks c) +:+ txt.
Proof.
  intros Hl [c1 Eb Eo|c1 k s Eb Eo Ek|c1 id name Eb Eo|c1 j k b s Hj Hb Hk Eb Eo|c1 j id name b s Hj Hb Eb Eo]; rewrite Eb.
  - by rewrite append_nil_r.
  - rewrite texts_app. simpl. by rewrite append_nil_r.
  - rewrite texts_app. reflexivity.
  - apply Hl in Hj. subst j. destruct (cl_Blocks c) as [|x bs _] using rev_ind; [done|].
    rewrite length_app in *. simpl in *. replace (Z.to_nat (Z.of_nat (length bs + 1) - 1)) with (length bs) in * by lia.
    rewrite lookup_app_r, Nat.sub_diag in Hb by lia. injection Hb as ->. rewrite alter_last, !texts_app, append_assoc.
    f_equal. simpl. rewrite !append_nil_r. unfold block_content. by destruct k.
  - apply Hl in Hj. subst j. destruct (cl_Blocks c) as [|x bs _] using rev_ind; [done|].
    rewrite length_app in *. simpl in *. replace (Z.to_nat (Z.of_nat (length bs + 1) - 1)) with (length bs) in * by lia.
    rewrite lookup_app_r, Nat.sub_diag in Hb by lia. injection Hb as ->. rewrite alter_last, !texts_app, append_assoc.
    reflexivity.
Qed.

Lemma run_shows events c calls c' :
  shows c calls -> client_run c events = Some c' ->
  shows c' (calls ++ (events ≫= event_calls)) ∧
  Forall (λ e, is_ok (StreamResponseClaude2OpenAI e) = true) events ∧
  (last_only c -> in_turn c events ->
   texts (cl_Blocks c') = texts (cl_Blocks c) +:+ foldr (λ e acc, event_content e +:+ acc) "" events).
Proof.
  revert c calls. induction events as [|e events IH]; intros c calls Hsh Hrun; simpl in Hrun.
  { injection Hrun as <-. rewrite app_nil_r. split_and!; [done|done|]. by rewrite append_nil_r. }
  destruct (client_step c e) as [c1|] eqn:Es; [|done]. simpl in Hrun.
  destruct (event_effect _ _ _ Es) as [He Hok].
  destruct (IH c1 _ (shows_effect _ _ _ _ _ Hsh He) Hrun) as (H1 & H2 & H3).
  rewrite bind_cons, app_assoc. split_and!; [done|by constructor|].
  intros Hl Hturn. simpl in Hturn. rewrite Es in Hturn. destruct Hturn as [Hl1 Hturn].
  rewrite (H3 Hl1 Hturn), (texts_effect _ _ _ _ Hl He). simpl. by rewrite append_assoc.
Qed.

(** Claude keeps a stream alive with [ping] events, which say nothing. *)
Definition without_pings (events : list ClaudeResponse) : list ClaudeResponse :=
  filter (λ e, cr_Type e ≠ "ping") events.

Lemma pings_converted events : events ≫= converted = without_pings events ≫= converted.
Proof.
  induction events as [|e events IH]; [done|]. unfold without_pings. rewrite bind_cons, filter_cons, IH.
  case_decide as E; [by rewrite bind_cons|].
  unfold converted at 1, StreamResponseClaude2OpenAI. by rewrite E.
Qed.

Lemma pings_ok events :
  Forall (λ e, is_ok (StreamResponseClaude2OpenAI e) = true) (without_pings events) ->
  Forall (λ e, is_ok (StreamResponseClaude2OpenAI e) = true) events.
Proof.
  rewrite !Forall_forall. intros H e He.
  destruct (decide (cr_Type e = "ping")) as [E|N]; [|by apply H, list_elem_of_filter].
  unfold StreamResponseClaude2OpenAI. by rewrite E.
Qed.

(** C25. The chunks made from a Claude stream of text, thinking and tool blocks, with pings
    anywhere, show what a client of the Claude API reads in it ([client_run], which takes
    no other kinds of blocks, such as those of Claude's own tools): the arguments at the
    index of a tool block are those of the block, and when the block has an id the call
    starts exactly once at this index, with that id and name; when blocks come one after
    the other ([in_turn]) the content is the text of the text blocks; and no event of such
    a stream makes the conversion panic. *)
Theorem claude_chunks_faithful events c :
  client_run initClient (without_pings events) = Some c ->
  let chunks := events ≫= converted in
  let calls := chunks ≫= chunk_calls in
  Forall (λ e, is_ok (StreamResponseClaude2OpenAI e) = true) events ∧
  (∀ i id name s, cl_Blocks c !! i = Some (KTool id name, s) ->
     args_at (Z.of_nat i) calls = s ∧ (id ≠ "" -> starts_at (Z.of_nat i) calls = [(id, name)])) ∧
  (in_turn initClient (without_pings events) ->
   foldr (λ r acc, chunk_content r +:+ acc) "" chunks = texts (cl_Blocks c)).
Proof.
  intros Hrun chunks calls.
  assert (shows initClient []) as H0.
  { split; simpl; [set_solver|done|done]. }
  destruct (run_shows (without_pings events) initClient [] c H0 Hrun) as ([_ Ht _] & Hok & Htext).
  assert (calls = without_pings events ≫= event_calls) as Hcalls
    by (subst calls chunks; rewrite pings_converted; apply list_bind_assoc).
  split_and!; [by apply pings_ok|by rewrite Hcalls|].
  intros Hturn. rewrite Htext; [|simpl; intros i Hi; set_solver|done].
  subst chunks. rewrite string_nil_app, pings_converted. generalize (without_pings events) as l. clear.
  induction l as [|e l IH]; [done|]. rewrite bind_cons, foldr_app, IH. simpl. unfold event_content.
  induction (converted e) as [|r l' IHl]; simpl; [done|]. by rewrite IHl, append_assoc.
Qed.

(** ** The usage of a stream *)

Definition gathered (info : ClaudeResponseInfo) (e : ClaudeResponse) : ClaudeResponseInfo :=
  (FormatClaudeResponseInfo e info).1.

(** The usages reported after the start, and the last positive one of a count. *)
Definition report_of (e : ClaudeResponse) : option ClaudeUsage :=
  if decide (cr_Type e = "message_delta") then cr_Usage e else None.
Definition latest (f : ClaudeUsage -> Z) (first : ClaudeUsage) (events : list ClaudeResponse) : Z :=
  foldl (λ acc u, newer (f u) acc) (f first) (omap report_of events).

(** A message is complete with a [message_delta]. *)
Definition completes (e : ClaudeResponse) : bool := bool_decide (cr_Type e = "message_delta").

(** The counts of a usage. *)
Definition counts (u : Usage) : Z * Z * Z * Z * Z * Z :=
  (PromptTokens u, CompletionTokens u, CachedTokens (PromptTokensDetails u), CachedCreationTokens (PromptTokensDetails u),
   ClaudeCacheCreation5mTokens u, ClaudeCacheCreation1hTokens u).
Definition count_of (m : ClaudeUsage) : Z * Z * Z * Z * Z * Z :=
  (cu_InputTokens m, cu_OutputTokens m, cu_CacheReadInputTokens m, cu_CacheCreationInputTokens m,
   GetCacheCreation5mTokens m, GetCacheCreation1hTokens m).
Definition newer_counts (m : ClaudeUsage) (k : Z * Z * Z * Z * Z * Z) : Z * Z * Z * Z * Z * Z :=
  let '(a, b, c, d, e, f) := k in let '(a', b', c', d', e', f') := count_of m in
  (newer a' a, newer b' b, newer c' c, newer d' d, newer e' e, newer f' f).

Lemma gathered_counts info e :
  cr_Type e ≠ "message_start" ->
  counts (ri_Usage (gathered info e))
  = match report_of e with Some m => newer_counts m (counts (ri_Usage info)) | None => counts (ri_Usage info) end ∧
  ri_Done (gathered info e) = ri_Done info || completes e.
Proof.
  intros N. unfold gathered, FormatClaudeResponseInfo, report_of, completes. rewrite decide_False by done.
  destruct (decide (cr_Type e = "content_block_delta")) as [E|].
  { rewrite E. simpl. rewrite orb_false_r. by destruct (cr_Delta e). }
  destruct (decide (cr_Type e = "message_delta")) as [E|].
  { rewrite bool_decide_eq_true_2, orb_true_r by done. by destruct (cr_Usage e). }
  rewrite bool_decide_eq_false_2, orb_false_r by done. by case_decide.
Qed.

Lemma gathered_foldl events info :
  Forall (λ e, cr_Type e ≠ "message_start") events ->
  counts (ri_Usage (foldl gathered info events))
  = foldl (λ k m, newer_counts m k) (counts (ri_Usage info)) (omap report_of events) ∧
  ri_Done (foldl gathered info events) = ri_Done info || existsb completes events.
Proof.
  intros H. revert info. induction H as [|e events Hs H IH]; intros info; simpl; [by rewrite orb_false_r|].
  destruct (gathered_counts info e Hs) as [H1 H2]. destruct (IH (gathered info e)) as [-> ->].
  rewrite H1, H2, orb_assoc. split; [|done]. unfold omap, list_omap. by destruct (report_of e).
Qed.

(** The six counts are carried along independently. *)
Lemma newer_counts_foldl l m0 :
  foldl (λ k m, newer_counts m k) (count_of m0) l
  = (foldl (λ acc u, newer (cu_InputTokens u) acc) (cu_InputTokens m0) l,
     foldl (λ acc u, newer (cu_OutputTokens u) acc) (cu_OutputTokens m0) l,
     foldl (λ acc u, newer (cu_CacheReadInputTokens u) acc) (cu_CacheReadInputTokens m0) l,
     foldl (λ acc u, newer (cu_CacheCreationInputTokens u) acc) (cu_CacheCreationInputTokens m0) l,
     foldl (λ acc u, newer (GetCacheCreation5mTokens u) acc) (GetCacheCreation5mTokens m0) l,
     foldl (λ acc u, newer (GetCacheCreation1hTokens u) acc) (GetCacheCreation1hTokens m0) l).
Proof. induction l as [|m l IH] using rev_ind; [done|]. rewrite !foldl_snoc, IH. done. Qed.

Section Bill.

Context {uc : Unicode} {jp : JsonPath} (UnmarshalClaude : string -> option ClaudeResponse).
Context (cf : UpConfig) (Hcf : uf_Format cf = RelayFormatClaude ∨ uf_Format cf = RelayFormatOpenAI).

(** A line that holds an event, not an error, that can be converted. *)
Definition sound (line : string) (e : ClaudeResponse) : Prop :=
  UnmarshalClaude line = Some e ∧ cr_Error e = JNull ∧ is_ok (StreamResponseClaude2OpenAI e) = true.

Lemma mark_refusal_info s st : up_Info (mark_refusal s st) = up_Info st.
Proof. unfold mark_refusal. by case_match. Qed.

Lemma handled_info line e st :
  sound line e ->
  ∃ st', HandleStreamResponseData UnmarshalClaude cf line st = Next st' ∧ up_Info st' = gathered (up_Info st) e.
Proof.
  intros (Hl & He & Hok). unfold HandleStreamResponseData, GetClaudeError. rewrite Hl, He.
  set (st1 := if decide (cr_StopReason e = "") then st else _).
  set (st2 := match _ with Some s => _ | None => _ end).
  assert (up_Info st2 = up_Info st) as Hi.
  { unfold st2. assert (up_Info st1 = up_Info st) as H1 by (unfold st1; case_decide; auto using mark_refusal_info).
    case_match; rewrite ?mark_refusal_info; done. }
  destruct Hcf as [-> | ->].
  - eexists. split; [done|]. unfold claude_format, gathered. cbn.
    destruct (cr_Message e); [case_decide|]; cbn; by rewrite Hi.
  - unfold openai_format. destruct (StreamResponseClaude2OpenAI e) as [r|]; [|done].
    unfold gathered. rewrite Hi. destruct (FormatClaudeResponseInfo e (up_Info st)) as [info []]; eexists; split; done.
Qed.

Lemma lines_info lines events st :
  Forall2 sound lines events ->
  ∃ st', handle_lines UnmarshalClaude cf lines (st, None) = (st', None) ∧
         up_Info st' = foldl gathered (up_Info st) events.
Proof.
  intros H. revert st. induction H as [|line e lines events Hs H IH]; intros st; [by exists st|].
  destruct (handled_info line e st Hs) as (st1 & Hn & Hi). simpl. unfold claude_data_handler. simpl. rewrite Hn.
  destruct (IH st1) as (st' & Hr & Hi'). exists st'. split; [done|]. by rewrite Hi', Hi.
Qed.

(** C26. When the lines of a Claude stream are sound events (each decodes, none is an
    error or fails to convert), of which only the first is a [message_start], with a
    usage, the tokens billed are, count by count, the last positive ones the upstream
    reported, also when a [message_delta] leaves counts of the start out; only a stream
    that is cut off or reports no completion is completed by an estimate of its
    completion, which is not below what was reported, and of its prompt if that is
    missing, and its cache counts are kept. *)
Theorem claude_stream_bill responseId now model lines first rest m u0 :
  Forall2 sound lines (first :: rest) ->
  cr_Type first = "message_start" -> cr_Message first = Some m -> cm_Usage m = Some u0 ->
  Forall (λ e, cr_Type e ≠ "message_start") rest ->
  let prompt := latest cu_InputTokens u0 rest in
  let completion := latest cu_OutputTokens u0 rest in
  let whole := negb (completion =? 0) && existsb completes rest in
  ∃ u, (ClaudeStreamHandler UnmarshalClaude cf responseId now model lines).1 = Ok u ∧
    CachedTokens (PromptTokensDetails u) = latest cu_CacheReadInputTokens u0 rest ∧
    CachedCreationTokens (PromptTokensDetails u) = latest cu_CacheCreationInputTokens u0 rest ∧
    ClaudeCacheCreation5mTokens u = latest GetCacheCreation5mTokens u0 rest ∧
    ClaudeCacheCreation1hTokens u = latest GetCacheCreation1hTokens u0 rest ∧
    PromptTokens u = (if negb whole && (prompt =? 0) then uf_PromptTokens cf else prompt) ∧
    (whole = true -> CompletionTokens u = completion) ∧
    (completion <> 0 -> completion <= CompletionTokens u) ∧
    UsageSemantic u = "anthropic".
Proof.
  intros Hl Hty Hm Hu Hrest prompt completion whole.
  unfold ClaudeStreamHandler. set (st0 := mkUpState _ _ _ _).
  destruct (lines_info lines (first :: rest) st0 Hl) as (st & -> & Hi). cbn [foldl] in Hi.
  assert (counts (ri_Usage (gathered (up_Info st0) first)) = count_of u0 ∧ ri_Done (gathered (up_Info st0) first) = false) as [H0 Hd0].
  { unfold gathered, FormatClaudeResponseInfo. rewrite Hty. simpl. by rewrite Hm, Hu. }
  destruct (gathered_foldl rest (gathered (up_Info st0) first) Hrest) as [Hc Hd].
  rewrite <- Hi in Hc, Hd. rewrite H0, newer_counts_foldl in Hc. rewrite Hd0 in Hd. simpl in Hd.
  injection Hc as Hp Hk Hr Hcr H5 H1. fold (latest cu_InputTokens u0 rest) in Hp. fold (latest cu_OutputTokens u0 rest) in Hk.
  exists (complete_usage cf st). split.
  { cbn [fst]. unfold HandleStreamFinalResponse. destruct (uf_Format cf); try destruct (uf_IncludeUsage cf); done. }
  unfold complete_usage. rewrite Hp, Hk, Hd. fold prompt completion.
  assert ((completion =? 0) || negb (existsb completes rest) = negb whole) as ->
    by (subst whole; destruct (completion =? 0), (existsb completes rest); done).
  destruct whole eqn:Ew; simpl; split_and!; try done; try lia.
  subst whole. destruct (Z.eqb_spec completion 0) as [|]; [done|]. simpl in *. rewrite Ew. simpl.
  intros _. destruct (Z.ltb_spec completion (EstimateTokenByModel (up_Model st) (ResponseText (up_Info st)))); lia.
Qed.

End Bill.
