(* ===== verification/Authz.v ===== *)
(** * Authz: roles, permissions and their policy store

    Models the package [service/authz]: the registry of resources and actions
    ([registry.go], [resources_channel.go]), the built-in roles ([role.go],
    [assignment.go]), the table of rules behind the casbin enforcer
    ([adapter.go]), its initialisation ([seed.go], [enforcer.go]), the per-user
    overrides ([override.go]) and the decision [Can] ([resolver.go]).

    casbin itself is a parameter ([Casbin]): the parser of a policy line and the
    functions on the list of loaded policies; [CasbinLaws] states what its
    documentation promises of them.  The enforcer keeps the loaded policies in
    memory ([World_enforcer]) and, with auto-save on, hands each change to the
    adapter before it changes the memory. *)

From S2P Require Export Store.
From S2P Require Export GoString.
From S2P Require Import Prelude.

(** The loaded "p" policies, each its fields. *)
Abbreviation Policy := (list (list string)).

Class Casbin := {
  (** [persist.LoadPolicyLine] on the policies loaded so far. *)
  LoadPolicyLine : string -> Policy -> result Policy;
  (** [AddPolicy] on the model: nothing when the rule is already there. *)
  policy_add : Policy -> list string -> option Policy;
  (** [RemoveFilteredPolicy] and [GetFilteredPolicy] from a field index on. *)
  policy_remove_filtered : Policy -> nat -> list string -> Policy;
  GetFilteredPolicy : Policy -> nat -> list string -> result Policy;
}.

(** ** Permissions and roles *)

(** [permission.go] *)
Record Permission : Type := mkPermission { Permission_Resource : string; Permission_Action : string }.
#[export] Instance Permission_eq_dec : EqDecision Permission.
Proof. solve_decision. Defined.

(** A [map[string]map[string]bool], its entries in the order a [range] visits them. *)
Abbreviation PermissionsMap := (list (string * gmap string bool)).

Definition EffectAllow : string := "allow".
Definition EffectDeny : string := "deny".
Definition UserSubject (userID : Z) : string := "user:" +:+ pretty userID.
Definition RoleSubject (roleKey : string) : string := "role:" +:+ roleKey.

(** [common.Role*User] *)
Definition RoleGuestUser : Z := 0.
Definition RoleCommonUser : Z := 1.
Definition RoleAdminUser : Z := 10.
Definition RoleRootUser : Z := 100.
Definition IsValidateRole (role : Z) : bool :=
  (role =? RoleGuestUser) || (role =? RoleCommonUser) || (role =? RoleAdminUser)
  || (role =? RoleRootUser).

(** [registry.go]; the labels are left out. *)
Record ActionDefinition : Type := mkAction { Action : string; DefaultRoles : list string }.
Record ResourceDefinition : Type := mkResource {
  Resource : string; Actions : list ActionDefinition }.

Definition RegisterResource (r : ResourceDefinition) (registry : list ResourceDefinition) :=
  registry ++ [r].

(** [role.go] *)
Definition BuiltInRoleRoot : string := "root".
Definition BuiltInRoleAdmin : string := "admin".
Record RoleSpec : Type := mkRoleSpec {
  RoleSpec_Key : string;
  RoleSpec_Name : string;
  RoleSpec_Description : string;
  RoleSpec_BuiltIn : bool;
  RoleSpec_Superuser : bool;
  RoleSpec_Sort : Z;
}.
Definition builtInRoles : list RoleSpec :=
  [mkRoleSpec BuiltInRoleRoot "Root" "Built-in root authorization role" true true 0;
   mkRoleSpec BuiltInRoleAdmin "Admin" "Built-in admin authorization role" true false 10].

(** [resources_channel.go]: the registry after the package's [init]. *)
Definition ResourceChannel : string := "channel".
Definition ChannelRead : Permission := mkPermission ResourceChannel "read".
Definition ChannelOperate : Permission := mkPermission ResourceChannel "operate".
Definition ChannelWrite : Permission := mkPermission ResourceChannel "write".
Definition ChannelSensitiveWrite : Permission := mkPermission ResourceChannel "sensitive_write".
Definition ChannelSecretView : Permission := mkPermission ResourceChannel "secret_view".
Definition registry : list ResourceDefinition :=
  RegisterResource (mkResource ResourceChannel
    [mkAction "read" [BuiltInRoleAdmin];
     mkAction "operate" [BuiltInRoleAdmin];
     mkAction "write" [BuiltInRoleAdmin];
     mkAction "sensitive_write" [];
     mkAction "secret_view" []]) [].

Definition actionHasRole (action : ActionDefinition) (roleKey : string) : bool :=
  existsb (λ r, bool_decide (r = roleKey)) (DefaultRoles action).

Definition AllPermissions : list Permission :=
  r ← registry; a ← Actions r; [mkPermission (Resource r) (Action a)].

Definition PermissionsForRole (roleKey : string) : list Permission :=
  r ← registry; a ← Actions r;
  if actionHasRole a roleKey then [mkPermission (Resource r) (Action a)] else [].

Definition isKnownResource (resource : string) : bool :=
  existsb (λ known, bool_decide (Resource known = resource)) registry.

Definition catalogActions (resource : string) : list ActionDefinition :=
  match List.find (λ known, bool_decide (Resource known = resource)) registry with
  | Some known => Actions known
  | None => []
  end.

Definition isKnownPermission (p : Permission) : bool :=
  existsb (λ r, bool_decide (Resource r = Permission_Resource p) &&
    existsb (λ a, bool_decide (Action a = Permission_Action p)) (Actions r)) registry.

(** [role.go], the lookups and the grants shown to the administrator. *)
Definition roleSpec (roleKey : string) : option RoleSpec :=
  List.find (λ spec, bool_decide (RoleSpec_Key spec = roleKey)) builtInRoles.

Definition isSuperuserRole (roleKey : string) : bool :=
  match roleSpec roleKey with Some spec => RoleSpec_Superuser spec | None => false end.

Definition roleGrants (spec : RoleSpec) : PermissionsMap :=
  map (λ r, (Resource r, list_to_map (map (λ a,
    (Action a, RoleSpec_Superuser spec || actionHasRole a (RoleSpec_Key spec))) (Actions r)))) registry.

(** [assignment.go] *)
Definition resolveSubjectRoles (userID systemRole : Z) : list string :=
  if RoleRootUser <=? systemRole then [BuiltInRoleRoot]
  else if RoleAdminUser <=? systemRole then [BuiltInRoleAdmin]
  else [].
Definition managedRoleKey : string := BuiltInRoleAdmin.

(** ** The rules table ([adapter.go]) *)

(** [newRule]: up to six values, the rest empty. *)
Definition newRule (ptype : string) (policy : list string) : CasbinRule :=
  let v i := default "" (policy !! i) in
  mkCasbinRule ptype (v 0%nat) (v 1%nat) (v 2%nat) (v 3%nat) (v 4%nat) (v 5%nat).

Definition rule_values (r : CasbinRule) : list string :=
  [CasbinRule_V0 r; CasbinRule_V1 r; CasbinRule_V2 r; CasbinRule_V3 r; CasbinRule_V4 r; CasbinRule_V5 r].

(** [ruleToLine]: empty values are left out; a grant without effect allows. *)
Definition ruleToLine (r : CasbinRule) : string :=
  let values :=
    if bool_decide (CasbinRule_Ptype r = "p" ∧ CasbinRule_V0 r ≠ "" ∧ CasbinRule_V1 r ≠ "" ∧
                    CasbinRule_V2 r ≠ "" ∧ CasbinRule_V3 r = "")
    then <[3%nat := EffectAllow]> (rule_values r) else rule_values r in
  GoString.Join (CasbinRule_Ptype r :: List.filter (λ v, negb (bool_decide (v = ""))) values) ", ".

Definition on_rules (f : list CasbinRule -> list CasbinRule) : World -> World :=
  on_db (λ t, set_Tables_rules (f (Tables_rules t)) t).
Definition rules_of (w : World) : list CasbinRule := Tables_rules (World_db w).

(** [Create] with [OnConflict{DoNothing}]: the unique index covers every column. *)
Definition insert_rule (r : CasbinRule) (l : list CasbinRule) : list CasbinRule :=
  if bool_decide (r ∈ l) then l else l ++ [r].

(** [WHERE ptype = 'p' AND v0 = ? AND v1 = ?] *)
Definition rule_of_user (subject resource : string) (r : CasbinRule) : bool :=
  bool_decide (CasbinRule_Ptype r = "p" ∧ CasbinRule_V0 r = subject ∧ CasbinRule_V1 r = resource).

Section authz.
Context {CB : Casbin}.

(** [gormAdapter.LoadPolicy] *)
Fixpoint load_rules (rules : list CasbinRule) (m : Policy) : result Policy :=
  match rules with
  | [] => Ok m
  | r :: rules =>
      match LoadPolicyLine (ruleToLine r) m with
      | Ok m => load_rules rules m
      | Err e => Err e
      end
  end.
Definition LoadPolicy : GM Policy :=
  let! rules := select rules_of in
  lift_result (load_rules rules []).

(** [gormAdapter.SavePolicy]; the model has no "g" section. *)
Definition SavePolicy (m : Policy) : GM unit :=
  transaction (
    do! update (on_rules (λ _, [])) in
    match map (newRule "p") m with
    | [] => ret tt
    | rules => create (λ w, negb (bool_decide (NoDup (rules_of w ++ rules))))
                 (λ w, (tt, on_rules (λ l, l ++ rules) w))
    end).

(** [gormAdapter.AddPolicy]: [ruleQuery] compares the type and all six values. *)
Definition adapter_AddPolicy (ptype : string) (rule : list string) : GM unit :=
  let! count := select (λ w, length (List.filter (λ r, bool_decide (r = newRule ptype rule)) (rules_of w))) in
  if Nat.ltb 0 count then ret tt
  else update (on_rules (insert_rule (newRule ptype rule))).

(** [gormAdapter.RemovePolicy] *)
Definition adapter_RemovePolicy (ptype : string) (rule : list string) : GM unit :=
  update (on_rules (List.filter (λ r, negb (bool_decide (r = newRule ptype rule))))).

(** [gormAdapter.RemoveFilteredPolicy]: an empty value matches everything. *)
Definition matches_filter (fieldIndex : nat) (fieldValues : list string) (values : list string) : bool :=
  forallb (λ '(i, v), bool_decide (v = "") || bool_decide (values !! (fieldIndex + i)%nat = Some v))
    (imap pair fieldValues).
Definition adapter_RemoveFilteredPolicy (ptype : string) (fieldIndex : nat) (fieldValues : list string) : GM unit :=
  update (on_rules (List.filter (λ r,
    negb (bool_decide (CasbinRule_Ptype r = ptype) && matches_filter fieldIndex fieldValues (rule_values r))))).

(** ** The enforcer ([enforcer.go]) *)

Definition not_initialized : error := EText "authz enforcer is not initialized".
Definition set_policy (m : Policy) : GM unit := modify (set_World_enforcer (Some m)).
Definition currentEnforcer : GM (option Policy) := gets World_enforcer.

(** [SyncedEnforcer.AddPolicy] with auto-save. *)
Definition enforcer_AddPolicy (rule : list string) : GM unit :=
  let! e := currentEnforcer in
  match e with
  | None => ret tt
  | Some m =>
      match policy_add m rule with
      | None => ret tt
      | Some m' => do! adapter_AddPolicy "p" rule in set_policy m'
      end
  end.

(** [SyncedEnforcer.RemoveFilteredPolicy] with auto-save. *)
Definition enforcer_RemoveFilteredPolicy (fieldIndex : nat) (fieldValues : list string) : GM unit :=
  let! e := currentEnforcer in
  match e with
  | None => ret tt
  | Some m =>
      do! adapter_RemoveFilteredPolicy "p" fieldIndex fieldValues in
      set_policy (policy_remove_filtered m fieldIndex fieldValues)
  end.

(** [ReloadPolicy]: a failed load keeps the loaded policies. *)
Definition ReloadPolicy : GM unit :=
  let! e := currentEnforcer in
  match e with
  | None => fail not_initialized
  | Some _ => let! m := LoadPolicy in set_policy m
  end.

(** ** Initialisation ([seed.go], [Init]) *)

Definition seedBuiltInRoles : GM unit :=
  for_each (λ spec, update (on_db (λ t, set_Tables_roles
    (<[RoleSpec_Key spec := mkAuthzRole (RoleSpec_Name spec) (RoleSpec_Description spec)
         (RoleSpec_BuiltIn spec) true (RoleSpec_Sort spec)]> (Tables_roles t)) t))) builtInRoles.

Definition resetBuiltInRolePolicies : GM unit :=
  let subjects := map (λ spec, RoleSubject (RoleSpec_Key spec)) builtInRoles in
  update (on_rules (List.filter (λ r,
    negb (bool_decide (CasbinRule_Ptype r = "p" ∧ CasbinRule_V0 r ∈ subjects))))).

Definition seedDefaultPolicies : GM unit :=
  let! e := currentEnforcer in
  match e with
  | None => fail not_initialized
  | Some _ =>
      for_each (λ spec,
        if RoleSpec_Superuser spec then ret tt
        else for_each (λ p, enforcer_AddPolicy
               [RoleSubject (RoleSpec_Key spec); Permission_Resource p; Permission_Action p; EffectAllow])
             (PermissionsForRole (RoleSpec_Key spec))) builtInRoles
  end.

Definition Init (IsMasterNode : bool) : GM unit :=
  do! (if IsMasterNode then do! seedBuiltInRoles in resetBuiltInRolePolicies else ret tt) in
  let! m := LoadPolicy in
  do! set_policy m in
  if IsMasterNode then seedDefaultPolicies else ret tt.

(** ** Decisions ([resolver.go]) *)

Definition policyEffect (policy : list string) : string :=
  match policy !! 3%nat with
  | None => EffectAllow
  | Some v => if bool_decide (v = "") then EffectAllow else v
  end.

Fixpoint scan_effects (hasAllow : bool) (policies : Policy) : option string :=
  match policies with
  | [] => if hasAllow then Some EffectAllow else None
  | policy :: policies =>
      if bool_decide (policyEffect policy = EffectDeny) then Some EffectDeny
      else scan_effects (hasAllow || bool_decide (policyEffect policy = EffectAllow)) policies
  end.

Definition explicitSubjectEffect (m : Policy) (subject : string) (p : Permission) : option string :=
  match GetFilteredPolicy m 0 [subject; Permission_Resource p; Permission_Action p] with
  | Err _ => None
  | Ok policies => scan_effects false policies
  end.

Definition roleBaselineAllows (m : Policy) (roleKey : string) (p : Permission) : bool :=
  bool_decide (explicitSubjectEffect m (RoleSubject roleKey) p = Some EffectAllow).

Definition Can (e : option Policy) (userID systemRole : Z) (p : Permission) : bool :=
  let roles := resolveSubjectRoles userID systemRole in
  match roles with
  | [] => false
  | _ =>
      if existsb isSuperuserRole roles then true
      else if negb (isKnownPermission p) then false
      else match e with
           | None => false
           | Some m =>
               match explicitSubjectEffect m (UserSubject userID) p with
               | Some effect => bool_decide (effect = EffectAllow)
               | None => existsb (λ role, roleBaselineAllows m role p) roles
               end
           end
  end.

Definition Capabilities (e : option Policy) (userID systemRole : Z) : PermissionsMap :=
  map (λ r, (Resource r, list_to_map (map (λ a,
    (Action a, Can e userID systemRole (mkPermission (Resource r) (Action a)))) (Actions r)))) registry.

(** ** Overrides ([override.go]) *)

Record overridePolicy : Type := mkOverride {
  Override_Resource : string; Override_Action : string; Override_Effect : string }.

Definition override_le (a b : overridePolicy) : Prop := String.leb (Override_Action a) (Override_Action b) = true.
#[local] Instance override_le_dec a b : Decision (override_le a b).
Proof. unfold override_le. apply _. Defined.

Definition userOverridePolicies (m : Policy) (resource : string) (actions : gmap string bool) : list overridePolicy :=
  merge_sort override_le (
    a ← catalogActions resource;
    match actions !! Action a with
    | None => []
    | Some desired =>
        if Bool.eqb desired (roleBaselineAllows m managedRoleKey (mkPermission resource (Action a))) then []
        else [mkOverride resource (Action a) (if desired then EffectAllow else EffectDeny)]
    end).

Definition override_values (userID : Z) (o : overridePolicy) : list string :=
  [UserSubject userID; Override_Resource o; Override_Action o; Override_Effect o].

Definition SetUserPermissions (userID : Z) (permissions : PermissionsMap) : GM unit :=
  let! e := currentEnforcer in
  match e with
  | None => fail not_initialized
  | Some _ =>
      for_each (λ '(resource, actions),
        if negb (isKnownResource resource) then ret tt
        else
          do! enforcer_RemoveFilteredPolicy 0 [UserSubject userID; resource] in
          let! e := currentEnforcer in
          for_each (λ o, enforcer_AddPolicy (override_values userID o))
            (match e with Some m => userOverridePolicies m resource actions | None => [] end)) permissions
  end.

Definition SetUserPermissionsInTx (userID : Z) (permissions : PermissionsMap) : GM unit :=
  let! e := currentEnforcer in
  match e with
  | None => fail not_initialized
  | Some m =>
      for_each (λ '(resource, actions),
        if negb (isKnownResource resource) then ret tt
        else
          do! update (on_rules (List.filter (λ r, negb (rule_of_user (UserSubject userID) resource r)))) in
          match userOverridePolicies m resource actions with
          | [] => ret tt
          | policies => update (on_rules (λ l,
              foldl (λ l o, insert_rule (newRule "p" (override_values userID o)) l) l policies))
          end) permissions
  end.

Definition ClearUserPermissions (userID : Z) : GM unit :=
  let! e := currentEnforcer in
  match e with
  | None => fail not_initialized
  | Some _ => for_each (λ r, enforcer_RemoveFilteredPolicy 0 [UserSubject userID; Resource r]) registry
  end.

Definition ClearUserPermissionsInTx (userID : Z) : GM unit :=
  for_each (λ r, update (on_rules
    (List.filter (λ rule, negb (rule_of_user (UserSubject userID) (Resource r) rule))))) registry.

Definition ClearUserAuthorizationInTx (userID : Z) : GM unit := ClearUserPermissionsInTx userID.

Definition ExplicitUserPermissions (e : option Policy) (userID : Z) : PermissionsMap :=
  Capabilities e userID RoleAdminUser.

Definition ExplicitUserOverrides (e : option Policy) (userID : Z) : PermissionsMap :=
  match e with
  | None => []
  | Some m =>
      match mapM (λ r, match GetFilteredPolicy m 0 [UserSubject userID; Resource r] with
                       | Ok policies => Some (Resource r, policies)
                       | Err _ => None
                       end) registry with
      | None => []
      | Some found =>
          List.filter (λ '(_, actions), negb (bool_decide (actions = (∅ : gmap string bool))))
            (map (λ '(resource, policies), (resource,
               foldl (λ (acc : gmap string bool) policy,
                 match policy with
                 | _ :: res :: act :: _ =>
                     if isKnownPermission (mkPermission res act) &&
                        (bool_decide (policyEffect policy = EffectAllow) || bool_decide (policyEffect policy = EffectDeny))
                     then <[act := bool_decide (policyEffect policy = EffectAllow)]> acc else acc
                 | _ => acc
                 end) ∅ policies)) found)
      end
  end.

End authz.
