(* ===== verification/AuthzProps.v ===== *)
(** * AuthzProps: what a permission decision depends on

    [table_effect] reads a decision straight off the rules table.  The enforcer's
    answer after a load is that reading; initialisation restores the built-in
    baseline whatever the table held for the roles; setting a user's permissions
    and reloading makes [Can] answer what was set, and nothing else changes. *)

From Stdlib Require Import Ascii.
From S2P Require Export Authz.
From S2P Require Import Prelude.

(** ** What casbin's documentation promises *)

(** Letters, digits and the marks the subjects and actions use: no separator,
    quote or comment sign of the policy format. *)
Definition plain_char (c : ascii) : bool :=
  let n := nat_of_ascii c in
  (Nat.leb 48 n && Nat.leb n 58) || (Nat.leb 65 n && Nat.leb n 90) || (Nat.leb 97 n && Nat.leb n 122)
  || Nat.eqb n 45 || Nat.eqb n 95.
Fixpoint plain_text (s : string) : bool :=
  match s with EmptyString => true | String c s => plain_char c && plain_text s end.
Definition plain (s : string) : bool := negb (bool_decide (s = "")) && plain_text s.

(** A line of plain fields adds the rule unless it is there; adding tells the same;
    the filters compare the given fields, an empty one with anything. *)
Class CasbinLaws (CB : Casbin) := {
  load_plain : ∀ a b c d m, forallb plain [a; b; c; d] = true ->
    LoadPolicyLine (GoString.Join ["p"; a; b; c; d] ", ") m =
      Ok (if bool_decide ([a; b; c; d] ∈ m) then m else m ++ [[a; b; c; d]]);
  policy_add_spec : ∀ m rule,
    policy_add m rule = if bool_decide (rule ∈ m) then None else Some (m ++ [rule]);
  policy_remove_spec : ∀ m i vals,
    policy_remove_filtered m i vals = List.filter (λ p, negb (matches_filter i vals p)) m;
  GetFilteredPolicy_spec : ∀ m i vals,
    GetFilteredPolicy m i vals = Ok (List.filter (matches_filter i vals) m);
}.

(** ** Subjects *)

Lemma plain_text_app a b : plain_text (a +:+ b) = plain_text a && plain_text b.
Proof. induction a as [|c a IH]; [done|]. rewrite string_cons_app; simpl. by rewrite IH, andb_assoc. Qed.

Lemma plain_pretty_go x s : plain_text s = true -> plain_text (pretty_N_go x s) = true.
Proof.
  revert s. induction (N.lt_wf_0 x) as [x _ IH]; intros s Hs.
  destruct (decide (0 < x)%N) as [Hx|Hx].
  - rewrite pretty_N_go_step by done. apply IH; [apply N.div_lt; lia|].
    simpl. rewrite Hs, andb_true_r. unfold pretty_N_char. by repeat case_match.
  - replace x with 0%N by lia. by rewrite pretty_N_go_0.
Qed.

Lemma plain_pretty_N (x : N) : plain_text (pretty x) = true.
Proof. unfold pretty, pretty_N. case_decide; [done|]. by apply plain_pretty_go. Qed.

Lemma plain_pretty_Z (z : Z) : plain_text (pretty z) = true.
Proof.
  destruct z; [done|apply (plain_pretty_N (N.pos p))|].
  change (plain_text ("-" +:+ pretty (N.pos p)) = true). rewrite plain_text_app. apply plain_pretty_N.
Qed.

Lemma plain_UserSubject u : plain (UserSubject u) = true.
Proof. unfold plain, UserSubject. simpl. apply plain_pretty_Z. Qed.

Lemma UserSubject_inj u v : UserSubject u = UserSubject v -> u = v.
Proof. unfold UserSubject. intros H. simplify_eq/=. by apply (inj pretty). Qed.

Lemma RoleSubject_not_user k u : RoleSubject k ≠ UserSubject u.
Proof. unfold RoleSubject, UserSubject. by intros [=]. Qed.

(** ** The table read directly *)

Definition rule_effect (r : CasbinRule) : string :=
  if bool_decide (CasbinRule_V3 r = "") then EffectAllow else CasbinRule_V3 r.
Definition policy_of (r : CasbinRule) : list string :=
  [CasbinRule_V0 r; CasbinRule_V1 r; CasbinRule_V2 r; rule_effect r].

(** A rule as this program writes them. *)
Definition wf_rule (r : CasbinRule) : Prop :=
  CasbinRule_Ptype r = "p" ∧ forallb plain (policy_of r) = true ∧
  CasbinRule_V4 r = "" ∧ CasbinRule_V5 r = "".

Definition has_effect (rules : list CasbinRule) (subject : string) (p : Permission) (e : string) : Prop :=
  ∃ r, r ∈ rules ∧ policy_of r = [subject; Permission_Resource p; Permission_Action p; e].

(** Deny wins over allow; no rule leaves the question open. *)
Definition table_effect (rules : list CasbinRule) (subject : string) (p : Permission) (o : option string) : Prop :=
  match o with
  | Some e => (e = EffectDeny ∧ has_effect rules subject p EffectDeny) ∨
              (e = EffectAllow ∧ ¬ has_effect rules subject p EffectDeny ∧ has_effect rules subject p EffectAllow)
  | None => ¬ has_effect rules subject p EffectDeny ∧ ¬ has_effect rules subject p EffectAllow
  end.

Lemma table_effect_det rules s p o1 o2 :
  table_effect rules s p o1 -> table_effect rules s p o2 -> o1 = o2.
Proof. unfold table_effect. destruct o1, o2; naive_solver. Qed.

Lemma table_effect_ext rules rules' s p o :
  (∀ e, has_effect rules s p e <-> has_effect rules' s p e) ->
  table_effect rules s p o -> table_effect rules' s p o.
Proof. intros H. unfold table_effect. destruct o; rewrite !H; done. Qed.

(** The memory holds the table's policies. *)
Definition mirrors (m : Policy) (rules : list CasbinRule) : Prop :=
  ∀ x, x ∈ m <-> ∃ r, r ∈ rules ∧ x = policy_of r.

Lemma plain_nonempty s : plain s = true -> s ≠ "".
Proof. unfold plain. intros H ->. done. Qed.

Lemma ruleToLine_wf r : wf_rule r -> ruleToLine r = GoString.Join ("p" :: policy_of r) ", ".
Proof.
  intros (Hp & Hf & H4 & H5). unfold ruleToLine, policy_of, rule_effect, rule_values in *.
  simpl in Hf. rewrite !andb_true_iff in Hf. destruct Hf as (H0 & H1 & H2 & H3 & _).
  apply plain_nonempty in H0, H1, H2, H3.
  destruct r as [pt v0 v1 v2 v3 v4 v5]; simpl in *; subst.
  destruct (decide (v3 = "")) as [->|Hv3].
  - rewrite !bool_decide_true by done. simpl. by rewrite !bool_decide_false by done.
  - rewrite (bool_decide_false (_ ∧ _)) by naive_solver. rewrite (bool_decide_false (v3 = "")) by done.
    simpl. by rewrite !bool_decide_false by done.
Qed.

Section props.
Context {CB : Casbin} {CL : CasbinLaws CB}.

Lemma load_wf r m :
  wf_rule r ->
  LoadPolicyLine (ruleToLine r) m = Ok (if bool_decide (policy_of r ∈ m) then m else m ++ [policy_of r]).
Proof. intros Hr. rewrite ruleToLine_wf by done. apply load_plain, Hr. Qed.

Lemma load_rules_mem rules m0 :
  Forall wf_rule rules ->
  ∃ m, load_rules rules m0 = Ok m ∧ ∀ x, x ∈ m <-> x ∈ m0 ∨ ∃ r, r ∈ rules ∧ x = policy_of r.
Proof.
  intros Hw. revert m0. induction Hw as [|r rules Hr _ IH]; intros m0; simpl.
  - exists m0. split; [done|]. set_solver.
  - rewrite load_wf by done.
    destruct (IH (if bool_decide (policy_of r ∈ m0) then m0 else m0 ++ [policy_of r])) as (m & Hl & Hm).
    exists m. split; [exact Hl|]. intros x. rewrite Hm. case_bool_decide as E; set_solver.
Qed.

Lemma load_rules_mirrors rules :
  Forall wf_rule rules -> ∃ m, load_rules rules [] = Ok m ∧ mirrors m rules.
Proof.
  intros Hw. destruct (load_rules_mem rules [] Hw) as (m & Hl & Hm). exists m. split; [done|].
  intros x. rewrite Hm. set_solver.
Qed.

(** Scanning finds a denial anywhere, else a grant anywhere. *)
Lemma scan_effects_spec b l o :
  scan_effects b l = o <->
  match o with
  | Some e => (e = EffectDeny ∧ ∃ x, x ∈ l ∧ policyEffect x = EffectDeny) ∨
      (e = EffectAllow ∧ (∀ x, x ∈ l -> policyEffect x ≠ EffectDeny) ∧
         (b = true ∨ ∃ x, x ∈ l ∧ policyEffect x = EffectAllow))
  | None => b = false ∧ ∀ x, x ∈ l -> policyEffect x ≠ EffectDeny ∧ policyEffect x ≠ EffectAllow
  end.
Proof.
  revert b. induction l as [|x l IH]; intros b; simpl.
  - destruct b, o; naive_solver (set_solver).
  - case_bool_decide as Hd.
    + split; [intros <-; left; set_solver|]. destruct o; [|set_solver].
      intros [[-> _]|(-> & Hn & _)]; [done|]. exfalso. set_solver.
    + rewrite IH. case_bool_decide as Ha; rewrite ?orb_true_r, ?orb_false_r;
        (destruct o; [|set_solver]); split; (intros [[-> (y & Hy & E)]|(-> & Hn & Hb)];
        [left; split; [done|]; set_solver|right; split; [done|split; [set_solver|]]]);
        destruct b; set_solver.
Qed.

Lemma policyEffect_policy_of r : policyEffect (policy_of r) = rule_effect r.
Proof. unfold policyEffect, policy_of, rule_effect. simpl. by repeat case_bool_decide. Qed.

Lemma matches_subject s p r :
  s ≠ "" -> Permission_Resource p ≠ "" -> Permission_Action p ≠ "" ->
  matches_filter 0 [s; Permission_Resource p; Permission_Action p] (policy_of r) = true <->
  policy_of r = [s; Permission_Resource p; Permission_Action p; rule_effect r].
Proof.
  intros. unfold matches_filter, policy_of. simpl.
  rewrite !andb_true_iff, !orb_true_iff, !bool_decide_eq_true. split.
  - intros ([?|[= ->]] & [?|[= ->]] & [?|[= ->]] & _); done.
  - intros [= -> -> ->]. auto 8.
Qed.

(** The loaded policies answer as the table reads. *)
Lemma effect_mirrors m rules s p :
  mirrors m rules -> s ≠ "" -> Permission_Resource p ≠ "" -> Permission_Action p ≠ "" ->
  table_effect rules s p (explicitSubjectEffect m s p).
Proof.
  unfold mirrors. intros Hm Hs Hr Ha. unfold explicitSubjectEffect. rewrite GetFilteredPolicy_spec.
  set (l := List.filter _ m).
  assert (∀ x, x ∈ l <-> ∃ r, r ∈ rules ∧ x = policy_of r ∧
    policy_of r = [s; Permission_Resource p; Permission_Action p; rule_effect r]) as Hl.
  { intros x. subst l. rewrite list_elem_of_In, filter_In, <- list_elem_of_In, Hm. split.
    - intros [(r & Hin & ->) Hx]. exists r. by rewrite <- matches_subject.
    - intros (r & Hin & -> & Hx). split; [eauto|]. by apply matches_subject. }
  assert (∀ e, (∃ x, x ∈ l ∧ policyEffect x = e) <-> has_effect rules s p e) as He.
  { intros e. split.
    - intros (x & Hx & E). apply Hl in Hx as (r & Hin & -> & Hx). exists r.
      rewrite policyEffect_policy_of in E. by subst e.
    - intros (r & Hin & Hx). exists (policy_of r). rewrite policyEffect_policy_of.
      assert (rule_effect r = e) as He by by (unfold policy_of in Hx; simplify_eq/=).
      split; [|done]. apply Hl. exists r. by rewrite He. }
  destruct (scan_effects false l) as [e|] eqn:E; apply scan_effects_spec in E; unfold table_effect.
  - rewrite <- !He. destruct E as [[-> ?]|(-> & Hn & [?|?])]; [by left|done|].
    right. split; [done|]. split; [|done]. intros (x & Hx & E). by apply (Hn x).
  - rewrite <- !He. destruct E as [_ Hn]. split; intros (x & Hx & E); by apply Hn in Hx as [? ?].
Qed.

(** ** Setting a user's overrides *)

(** One round of the loop of [SetUserPermissionsInTx] on the table. *)
Definition set_resource (m : Policy) (userID : Z) (e : string * gmap string bool)
    (rules : list CasbinRule) : list CasbinRule :=
  if isKnownResource e.1
  then foldl (λ l o, insert_rule (newRule "p" (override_values userID o)) l)
         (List.filter (λ r, negb (rule_of_user (UserSubject userID) e.1 r)) rules)
         (userOverridePolicies m e.1 e.2)
  else rules.

Lemma elem_of_insert_rule r x l : x ∈ insert_rule r l <-> x ∈ l ∨ x = r.
Proof. unfold insert_rule. case_bool_decide; set_solver. Qed.

Lemma elem_of_insert_rules u os l x :
  x ∈ foldl (λ l o, insert_rule (newRule "p" (override_values u o)) l) l os <->
  x ∈ l ∨ ∃ o, o ∈ os ∧ x = newRule "p" (override_values u o).
Proof.
  revert l. induction os as [|o os IH]; intros l; simpl; [set_solver|].
  rewrite IH, elem_of_insert_rule. set_solver.
Qed.

Lemma elem_of_set_resource m u e rules x :
  isKnownResource e.1 = true ->
  x ∈ set_resource m u e rules <->
  (x ∈ rules ∧ rule_of_user (UserSubject u) e.1 x = false) ∨
  ∃ o, o ∈ userOverridePolicies m e.1 e.2 ∧ x = newRule "p" (override_values u o).
Proof.
  intros Hk. unfold set_resource. rewrite Hk, elem_of_insert_rules, list_elem_of_In, filter_In,
    <- list_elem_of_In, negb_true_iff. done.
Qed.

Lemma elem_of_overrides m resource actions o :
  o ∈ userOverridePolicies m resource actions <->
  ∃ a b, a ∈ catalogActions resource ∧ actions !! Action a = Some b ∧
    b ≠ roleBaselineAllows m managedRoleKey (mkPermission resource (Action a)) ∧
    o = mkOverride resource (Action a) (if b : bool then EffectAllow else EffectDeny).
Proof.
  unfold userOverridePolicies. rewrite merge_sort_Permutation, list_elem_of_bind. split.
  - intros (a & Ho & Ha). destruct (actions !! Action a) as [b|] eqn:E; [|set_solver].
    destruct (Bool.eqb b _) eqn:Eb; [set_solver|]. apply list_elem_of_singleton in Ho.
    apply eqb_false_iff in Eb. naive_solver.
  - intros (a & b & Ha & E & Hb & ->). exists a. split; [|done]. rewrite E.
    apply eqb_false_iff in Hb. rewrite Hb. set_solver.
Qed.


Lemma policy_of_override u o :
  Override_Effect o ≠ "" -> policy_of (newRule "p" (override_values u o)) = override_values u o.
Proof. intros H. unfold policy_of, rule_effect, newRule, override_values. simpl. by rewrite bool_decide_false. Qed.

Lemma override_shape m resource actions o :
  o ∈ userOverridePolicies m resource actions ->
  Override_Resource o = resource ∧ Override_Effect o ≠ "" ∧
  ∃ a, a ∈ catalogActions resource ∧ Override_Action o = Action a.
Proof. intros (a & b & Ha & _ & _ & ->)%elem_of_overrides. split; [done|]. split; [by destruct b|eauto]. Qed.

(** The registry is made of plain names. *)
Lemma known_plain resource a :
  isKnownResource resource = true -> a ∈ catalogActions resource ->
  plain resource = true ∧ plain (Action a) = true.
Proof.
  unfold isKnownResource, catalogActions, registry, RegisterResource. simpl.
  rewrite orb_false_r, bool_decide_eq_true. intros <-. rewrite bool_decide_true by done.
  intros Ha. split; [done|]. repeat (apply elem_of_cons in Ha as [->|Ha]; [done|]). by apply elem_of_nil in Ha.
Qed.

Lemma known_permission p :
  isKnownPermission p = true ->
  isKnownResource (Permission_Resource p) = true ∧
  ∃ a, a ∈ catalogActions (Permission_Resource p) ∧ Action a = Permission_Action p.
Proof.
  unfold isKnownPermission. intros (r & Hr & [Hres Ha]%andb_true_iff)%existsb_exists.
  apply existsb_exists in Ha as (a & Ha & Hact). apply bool_decide_eq_true in Hres, Hact.
  destruct Hr as [<-|[]]. rewrite <- Hres. split; [done|]. exists a. split; [by apply list_elem_of_In|done].
Qed.

Lemma set_resource_wf m u e rules :
  Forall wf_rule rules -> Forall wf_rule (set_resource m u e rules).
Proof.
  intros Hw. destruct (isKnownResource e.1) eqn:Hk; [|unfold set_resource; by rewrite Hk].
  rewrite Forall_forall in *. intros x. rewrite elem_of_set_resource by done.
  intros [[? _]|(o & Ho & ->)]; [by apply Hw|].
  destruct (override_shape _ _ _ _ Ho) as (Hr & He & a & Ha & Hact).
  destruct (known_plain _ _ Hk Ha) as [Hpr Hpa].
  split; [done|]. split; [|done]. rewrite policy_of_override by done.
  unfold override_values. simpl. rewrite plain_UserSubject, Hr, Hact, Hpr, Hpa. simpl.
  apply elem_of_overrides in Ho as (? & b & _ & _ & _ & ->). by destruct b.
Qed.

Lemma set_resource_other m u e rules s p ef :
  s ≠ UserSubject u ∨ Permission_Resource p ≠ e.1 ->
  has_effect (set_resource m u e rules) s p ef <-> has_effect rules s p ef.
Proof.
  intros Hne. destruct (isKnownResource e.1) eqn:Hk; [|unfold set_resource; by rewrite Hk].
  unfold has_effect. split; intros (r & Hr & Hp).
  - apply elem_of_set_resource in Hr; [|done]. destruct Hr as [[? _]|(o & Ho & ->)]; [by eauto|].
    destruct (override_shape _ _ _ _ Ho) as (Hres & He & _).
    rewrite policy_of_override in Hp by done. unfold override_values in Hp. simplify_eq/=. destruct Hne; congruence.
  - exists r. split; [|done]. apply elem_of_set_resource; [done|]. left. split; [done|].
    apply bool_decide_eq_false. unfold policy_of in Hp. simplify_eq/=. intros (_ & ? & ?).
    destruct Hne; congruence.
Qed.

(** The overrides of a resource after it was set: what differs from the baseline. *)
Definition override_of (m : Policy) (actions : gmap string bool) (p : Permission) : option string :=
  match actions !! Permission_Action p with
  | None => None
  | Some b => if Bool.eqb b (roleBaselineAllows m managedRoleKey p) then None
              else Some (if b then EffectAllow else EffectDeny)
  end.

Lemma set_resource_same m u e rules p ef :
  Forall wf_rule rules -> isKnownPermission p = true -> Permission_Resource p = e.1 ->
  has_effect (set_resource m u e rules) (UserSubject u) p ef <-> override_of m e.2 p = Some ef.
Proof.
  intros Hw Hkp He. destruct (known_permission p Hkp) as (Hk & a & Ha & Hact). rewrite He in Hk, Ha.
  unfold has_effect, override_of. split.
  - intros (r & Hr & Hp). apply elem_of_set_resource in Hr; [|done].
    destruct Hr as [[Hr Hf]|(o & Ho & ->)].
    + rewrite Forall_forall in Hw. destruct (Hw r Hr) as [Hpt _]. unfold rule_of_user in Hf.
      apply bool_decide_eq_false in Hf. unfold policy_of in Hp. simplify_eq/=.
      destruct Hf. split_and!; congruence.
    + destruct (override_shape _ _ _ _ Ho) as (_ & Hne & _).
      rewrite policy_of_override in Hp by done. apply elem_of_overrides in Ho as (a' & b & _ & Hb & Hd & ->).
      unfold override_values in Hp. simpl in Hp. injection Hp as Hr Hact' <-.
      assert (p = mkPermission e.1 (Action a')) as -> by (destruct p; simpl in *; congruence).
      simpl. rewrite Hb. apply eqb_false_iff in Hd. by rewrite Hd.
  - destruct (e.2 !! Permission_Action p) as [b|] eqn:Hb; [|done].
    destruct (Bool.eqb b _) eqn:Hd; [done|]. intros [= <-].
    set (o := mkOverride e.1 (Action a) (if b then EffectAllow else EffectDeny)).
    exists (newRule "p" (override_values u o)). split.
    + apply elem_of_set_resource; [done|]. right. exists o. split; [|done].
      apply elem_of_overrides. exists a, b. rewrite Hact in *. destruct p as [res act]; simpl in *; subst.
      apply eqb_false_iff in Hd. done.
    + rewrite policy_of_override by (by destruct b). unfold override_values, o. simpl. by rewrite Hact, He.
Qed.


(** The whole loop on the table. *)
Definition set_all (m : Policy) (u : Z) (perms : PermissionsMap) (rules : list CasbinRule) :=
  foldl (λ l e, set_resource m u e l) rules perms.

Lemma set_all_wf m u perms rules : Forall wf_rule rules -> Forall wf_rule (set_all m u perms rules).
Proof.
  unfold set_all. revert rules. induction perms as [|e perms IH]; intros rules Hw; simpl; [done|].
  by apply IH, set_resource_wf.
Qed.

Lemma set_all_other m u perms rules s p ef :
  s ≠ UserSubject u ∨ Permission_Resource p ∉ perms.*1 ->
  has_effect (set_all m u perms rules) s p ef <-> has_effect rules s p ef.
Proof.
  unfold set_all. revert rules. induction perms as [|e perms IH]; intros rules Hne; simpl; [done|].
  rewrite IH by set_solver. apply set_resource_other. set_solver.
Qed.

Lemma set_all_same m u perms rules p actions ef :
  Forall wf_rule rules -> isKnownPermission p = true -> NoDup perms.*1 ->
  (Permission_Resource p, actions) ∈ perms ->
  has_effect (set_all m u perms rules) (UserSubject u) p ef <-> override_of m actions p = Some ef.
Proof.
  unfold set_all. intros Hw Hk. revert rules Hw.
  induction perms as [|e perms IH]; intros rules Hw Hnd Hin; [set_solver|].
  simpl in *. apply NoDup_cons in Hnd as [Hn Hnd]. apply elem_of_cons in Hin as [<-|Hin].
  - fold (set_all m u perms (set_resource m u (Permission_Resource p, actions) rules)).
    rewrite set_all_other by (by right). by apply set_resource_same.
  - apply IH; [by apply set_resource_wf|done..].
Qed.

Lemma on_rules_id w : on_rules (λ l, l) w = w.
Proof. by destruct w as [[]]. Qed.

Lemma on_rules_foldl {A} (f : A -> list CasbinRule -> list CasbinRule) l w :
  foldl (λ w x, on_rules (f x) w) w l = on_rules (λ r, foldl (λ r x, f x r) r l) w.
Proof.
  revert w. induction l as [|x l IH]; intros w; simpl; [by rewrite on_rules_id|].
  rewrite IH. by destruct w as [[]].
Qed.

Lemma SetUserPermissionsInTx_run w u perms m :
  no_faults w -> World_enforcer w = Some m ->
  SetUserPermissionsInTx u perms w = (Ok tt, on_rules (set_all m u perms) w).
Proof.
  intros Hn He. unfold SetUserPermissionsInTx, bind, currentEnforcer, gets. rewrite He.
  erewrite (for_each_fold _ (λ e, on_rules (set_resource m u e))); [by rewrite on_rules_foldl| |done|done].
  intros [resource actions] w' Hw'. unfold set_resource; simpl. destruct (isKnownResource resource); simpl.
  - unfold bind, update. rewrite (exec_no_faults _ w') by done.
    destruct (userOverridePolicies m resource actions) as [|o os]; [done|].
    rewrite exec_no_faults by done. by destruct w' as [[]].
  - by rewrite on_rules_id.
Qed.

(** A world whose enforcer has loaded the table it stands on. *)
Definition enforced (w : World) : Prop :=
  no_faults w ∧ Forall wf_rule (rules_of w) ∧ ∃ m, World_enforcer w = Some m ∧ mirrors m (rules_of w).

Lemma ReloadPolicy_run w m :
  no_faults w -> Forall wf_rule (rules_of w) -> World_enforcer w = Some m ->
  ∃ m', ReloadPolicy w = (Ok tt, set_World_enforcer (Some m') w) ∧ mirrors m' (rules_of w).
Proof.
  intros Hn Hw He. destruct (load_rules_mirrors _ Hw) as (m' & Hl & Hm). exists m'. split; [|done].
  unfold ReloadPolicy, LoadPolicy, bind, currentEnforcer, gets, select. rewrite He.
  rewrite exec_no_faults by done. rewrite Hl. done.
Qed.

Lemma effect_ext m m' rules rules' s p :
  mirrors m rules -> mirrors m' rules' -> s ≠ "" -> isKnownPermission p = true ->
  (∀ e, has_effect rules s p e <-> has_effect rules' s p e) ->
  explicitSubjectEffect m s p = explicitSubjectEffect m' s p.
Proof.
  intros Hm Hm' Hs Hk Hext. destruct (known_permission p Hk) as (Hkr & a & Ha & Hact).
  destruct (known_plain _ _ Hkr Ha) as [Hr%plain_nonempty Hp%plain_nonempty]. rewrite Hact in Hp.
  eapply table_effect_det; [|by eapply effect_mirrors].
  eapply table_effect_ext; [exact Hext|]. by eapply effect_mirrors.
Qed.

(** What the administrator asked for a permission, if anything. *)
Definition requested (perms : PermissionsMap) (p : Permission) : option (gmap string bool) :=
  (list_to_map perms : gmap string (gmap string bool)) !! Permission_Resource p.

Definition admin_role (role : Z) : bool := (RoleAdminUser <=? role) && (role <? RoleRootUser).

(** A decision is the role's alone unless the role is an administrator's. *)
Lemma Can_role e u role p :
  isKnownPermission p = true ->
  Can e u role p =
    if admin_role role
    then match e with
         | None => false
         | Some m => match explicitSubjectEffect m (UserSubject u) p with
                     | Some ef => bool_decide (ef = EffectAllow)
                     | None => roleBaselineAllows m BuiltInRoleAdmin p
                     end
         end
    else RoleRootUser <=? role.
Proof.
  intros Hk. unfold Can, resolveSubjectRoles, admin_role. rewrite Hk. simpl.
  destruct (RoleRootUser <=? role) eqn:E1; simpl.
  - replace (role <? RoleRootUser) with false by lia. by rewrite andb_false_r.
  - replace (role <? RoleRootUser) with true by lia. rewrite andb_true_r.
    destruct (RoleAdminUser <=? role); [|done]. destruct e; [|done]. case_match; [done|].
    simpl. by rewrite orb_false_r.
Qed.


(** The decision after an override was set: the wish, or the baseline. *)
Lemma overridden_decision m m' rules' u p actions :
  mirrors m' rules' -> isKnownPermission p = true ->
  (∀ ef, has_effect rules' (UserSubject u) p ef <-> override_of m actions p = Some ef) ->
  roleBaselineAllows m' BuiltInRoleAdmin p = roleBaselineAllows m BuiltInRoleAdmin p ->
  match explicitSubjectEffect m' (UserSubject u) p with
  | Some ef => bool_decide (ef = EffectAllow)
  | None => roleBaselineAllows m' BuiltInRoleAdmin p
  end = default (roleBaselineAllows m BuiltInRoleAdmin p) (actions !! Permission_Action p).
Proof.
  intros Hm' Hk Heff Hb. destruct (known_permission p Hk) as (Hkr & a & Ha & Hact).
  destruct (known_plain _ _ Hkr Ha) as [Hr%plain_nonempty Hp%plain_nonempty]. rewrite Hact in Hp.
  pose proof (effect_mirrors m' rules' (UserSubject u) p Hm' (ltac:(done)) Hr Hp) as Ht.
  unfold override_of, managedRoleKey in Heff. rewrite Hb. destruct (actions !! Permission_Action p) as [b|]; simpl.
  - destruct (Bool.eqb b _) eqn:E.
    + apply eqb_prop in E. destruct (explicitSubjectEffect m' _ p); [|done].
      unfold table_effect in Ht. rewrite !Heff in Ht. naive_solver.
    + destruct (explicitSubjectEffect m' _ p) as [ef|]; unfold table_effect in Ht; rewrite !Heff in Ht;
        destruct b; naive_solver.
  - destruct (explicitSubjectEffect m' _ p); [|done]. unfold table_effect in Ht. rewrite !Heff in Ht. naive_solver.
Qed.

(** C28. With a database that answers and an enforcer that holds the stored policy
    ([enforced]), setting an administrator's permissions and reloading the policy makes
    every later decision on a known permission answer what was set: for a resource that
    was set, the wish, and where the wish is silent the baseline of the administrator
    role; decisions about other resources, other users, common users and root stay what
    they were. *)
Theorem permissions_roundtrip w u perms :
  enforced w -> NoDup perms.*1 ->
  let '(r, w') := (do! SetUserPermissionsInTx u perms in ReloadPolicy) w in
  r = Ok tt ∧ enforced w' ∧
  ∀ u' role p, isKnownPermission p = true ->
    Can (World_enforcer w') u' role p =
      match requested perms p with
      | Some actions =>
          if bool_decide (u' = u) && admin_role role
          then default (match World_enforcer w with
                        | Some m => roleBaselineAllows m BuiltInRoleAdmin p
                        | None => false
                        end) (actions !! Permission_Action p)
          else Can (World_enforcer w) u' role p
      | None => Can (World_enforcer w) u' role p
      end.
Proof.
  intros (Hn & Hw & m & He & Hm) Hnd. unfold bind. rewrite (SetUserPermissionsInTx_run w u perms m) by done.
  set (w1 := on_rules _ w).
  assert (rules_of w1 = set_all m u perms (rules_of w)) as Hr1 by done.
  assert (Forall wf_rule (rules_of w1)) as Hw1 by (rewrite Hr1; by apply set_all_wf).
  destruct (ReloadPolicy_run w1 m) as (m' & -> & Hm'); [done..|].
  split; [done|]. split; [split; [done|]; split; [done|]; by exists m'|].
  intros u' role p Hk. rewrite !Can_role, He by done. simpl.
  assert (roleBaselineAllows m' BuiltInRoleAdmin p = roleBaselineAllows m BuiltInRoleAdmin p) as Hb.
  { unfold roleBaselineAllows. rewrite (effect_ext m' m (rules_of w1) (rules_of w)); [done..|].
    intros e. rewrite Hr1. apply set_all_other. left. apply RoleSubject_not_user. }
  destruct (admin_role role); [|by rewrite andb_false_r; destruct (requested perms p)].
  rewrite andb_true_r.
  assert (u' ≠ u ∨ Permission_Resource p ∉ perms.*1 ->
    explicitSubjectEffect m' (UserSubject u') p = explicitSubjectEffect m (UserSubject u') p) as Hsame.
  { intros Hne. apply (effect_ext _ _ (rules_of w1) (rules_of w)); [done..|]. intros e. rewrite Hr1.
    apply set_all_other. destruct Hne; [left|by right]. intros ->%UserSubject_inj. done. }
  unfold requested. destruct (list_to_map perms !! Permission_Resource p) as [actions|] eqn:E.
  - case_bool_decide as Hu; [|by rewrite Hsame by (by left); destruct (explicitSubjectEffect m _ p); rewrite ?Hb].
    subst u'. apply overridden_decision with (rules_of w1); [done..| |done].
    intros ef. rewrite Hr1. apply set_all_same; [done..|]. by apply elem_of_list_to_map_2.
  - rewrite Hsame; [by rewrite Hb|]. right. by apply not_elem_of_list_to_map_2 in E.
Qed.


(** ** Initialisation *)

Lemma policy_of_newRule a b c d :
  d ≠ "" -> policy_of (newRule "p" [a; b; c; d]) = [a; b; c; d].
Proof. intros H. unfold policy_of, rule_effect, newRule. simpl. by rewrite bool_decide_false. Qed.

Lemma AddPolicy_run w a b c d :
  enforced w -> forallb plain [a; b; c; d] = true ->
  ∃ w', enforcer_AddPolicy [a; b; c; d] w = (Ok tt, w') ∧ enforced w' ∧
    ∀ s p e, has_effect (rules_of w') s p e <->
      has_effect (rules_of w) s p e ∨ [a; b; c; d] = [s; Permission_Resource p; Permission_Action p; e].
Proof.
  intros (Hn & Hw & m & He & Hm) Hp. pose proof Hm as Hm0. unfold mirrors in Hm.
  assert (d ≠ "") as Hd.
  { apply plain_nonempty. rewrite forallb_forall in Hp. apply Hp. simpl. auto. }
  unfold enforcer_AddPolicy, bind, currentEnforcer, gets. rewrite He, policy_add_spec.
  case_bool_decide as Hin.
  - exists w. split; [done|]. split; [by repeat split; try exists m|].
    intros s p e. split; [by left|]. intros [?|E]; [done|]. apply Hm in Hin as (r & Hr & Hpr).
    exists r. split; [done|]. by rewrite <- Hpr.
  - assert (newRule "p" [a; b; c; d] ∉ rules_of w) as Hni.
    { intros Hr. apply Hin, Hm. exists (newRule "p" [a; b; c; d]). by rewrite policy_of_newRule. }
    set (w' := set_World_enforcer (Some (m ++ [[a; b; c; d]])) (on_rules (insert_rule (newRule "p" [a; b; c; d])) w)).
    exists w'. assert (rules_of w' = insert_rule (newRule "p" [a; b; c; d]) (rules_of w)) as Hrw by done.
    assert (∀ x, x ∈ insert_rule (newRule "p" [a; b; c; d]) (rules_of w) <->
      x ∈ rules_of w ∨ x = newRule "p" [a; b; c; d]) as Hmem by (intros; apply elem_of_insert_rule).
    split; [|split; [split; [done|]; split|]].
    + unfold adapter_AddPolicy, bind, select. rewrite exec_no_faults by done.
      destruct (List.filter _ (rules_of w)) as [|x l] eqn:E; simpl.
      * unfold update. by rewrite exec_no_faults.
      * destruct Hni. assert (x ∈ List.filter (λ r, bool_decide (r = newRule "p" [a; b; c; d])) (rules_of w)) as Hx
          by (rewrite E; left).
        apply list_elem_of_In, filter_In in Hx as [Hx Hb]. apply bool_decide_eq_true in Hb.
        subst x. by apply list_elem_of_In.
    + rewrite Hrw. rewrite Forall_forall in *. intros x [?| ->]%Hmem; [by apply Hw|].
      split; [done|]. split; [by rewrite policy_of_newRule|done].
    + exists (m ++ [[a; b; c; d]]). split; [done|]. intros x. rewrite elem_of_app, Hm, list_elem_of_singleton.
      rewrite Hrw. setoid_rewrite Hmem. split.
      * intros [(r & ? & ->)| ->]; [by eauto|]. exists (newRule "p" [a; b; c; d]). by rewrite policy_of_newRule; auto.
      * intros (r & [?| ->] & ->); [by eauto|]. rewrite policy_of_newRule; auto.
    + intros s p e. unfold has_effect. rewrite Hrw. setoid_rewrite Hmem. split.
      * intros (r & [?| ->] & Hr); [by eauto|]. rewrite policy_of_newRule in Hr by done. by right.
      * intros [(r & ? & ?)|E]; [by eauto|]. exists (newRule "p" [a; b; c; d]). rewrite policy_of_newRule; auto.
Qed.

Lemma seed_role_run k perms w :
  enforced w -> plain (RoleSubject k) = true ->
  Forall (λ q, plain (Permission_Resource q) = true ∧ plain (Permission_Action q) = true) perms ->
  ∃ w', for_each (λ q, enforcer_AddPolicy
      [RoleSubject k; Permission_Resource q; Permission_Action q; EffectAllow]) perms w = (Ok tt, w') ∧
    enforced w' ∧ ∀ s p e, has_effect (rules_of w') s p e <->
      has_effect (rules_of w) s p e ∨ (s = RoleSubject k ∧ e = EffectAllow ∧ p ∈ perms).
Proof.
  intros He Hk Hps. revert w He. induction Hps as [|q perms [Hr Ha] _ IH]; intros w He; simpl.
  - exists w. split; [done|]. split; [done|]. set_solver.
  - destruct (AddPolicy_run w (RoleSubject k) (Permission_Resource q) (Permission_Action q) EffectAllow)
      as (w1 & Hrun & He1 & Hf1); [done|by simpl; rewrite Hk, Hr, Ha|].
    destruct (IH w1 He1) as (w' & Hrun' & He' & Hf'). exists w'. unfold bind. rewrite Hrun.
    split; [done|]. split; [done|]. intros s p e. rewrite Hf', Hf1. split.
    + intros [[?|E]|(-> & -> & ?)]; [by left| |right; set_solver].
      right. injection E as -> ? ? ->. split; [done|]. split; [done|]. destruct p, q; simpl in *; subst. left.
    + intros [?|(-> & -> & [->|?]%elem_of_cons)]; [by do 2 left|by left; right|by right].
Qed.

(** The table once the roles' own rules are dropped. *)
Definition without_roles (rules : list CasbinRule) : list CasbinRule :=
  List.filter (λ r, negb (bool_decide (CasbinRule_Ptype r = "p" ∧
    CasbinRule_V0 r ∈ map (λ spec, RoleSubject (RoleSpec_Key spec)) builtInRoles))) rules.

Lemma without_roles_effect rules s p e :
  Forall wf_rule rules ->
  has_effect (without_roles rules) s p e <->
  has_effect rules s p e ∧ s ∉ map (λ spec, RoleSubject (RoleSpec_Key spec)) builtInRoles.
Proof.
  intros Hw. rewrite Forall_forall in Hw. unfold has_effect, without_roles. split.
  - intros (r & [Hr Hf]%list_elem_of_In%filter_In & Hp). apply list_elem_of_In in Hr.
    apply negb_true_iff, bool_decide_eq_false in Hf. split; [by eauto|].
    intros Hs. apply Hf. split; [by apply Hw|]. unfold policy_of in Hp. injection Hp as -> _ _ _. done.
  - intros [(r & Hr & Hp) Hs]. exists r. split; [|done]. apply list_elem_of_In, filter_In.
    split; [by apply list_elem_of_In|]. apply negb_true_iff, bool_decide_eq_false. intros [_ Hv].
    apply Hs. unfold policy_of in Hp. injection Hp as <- _ _ _. done.
Qed.


Lemma seedBuiltInRoles_run w :
  no_faults w ->
  ∃ w', seedBuiltInRoles w = (Ok tt, w') ∧ no_faults w' ∧ rules_of w' = rules_of w ∧
    World_enforcer w' = World_enforcer w.
Proof.
  intros Hn. unfold seedBuiltInRoles, builtInRoles. simpl. unfold bind, update.
  rewrite exec_no_faults by done. rewrite exec_no_faults by done. by eexists.
Qed.

Lemma LoadPolicy_run w m :
  no_faults w -> load_rules (rules_of w) [] = Ok m -> LoadPolicy w = (Ok m, w).
Proof. intros Hn Hl. unfold LoadPolicy, bind, select. rewrite exec_no_faults by done. by rewrite Hl. Qed.

Lemma seedDefaultPolicies_run w :
  enforced w ->
  ∃ w', seedDefaultPolicies w = (Ok tt, w') ∧ enforced w' ∧
    ∀ s p e, has_effect (rules_of w') s p e <-> has_effect (rules_of w) s p e ∨
      (s = RoleSubject BuiltInRoleAdmin ∧ e = EffectAllow ∧ p ∈ PermissionsForRole BuiltInRoleAdmin).
Proof.
  intros He. pose proof He as (Hn & _ & m & Hm & _).
  unfold seedDefaultPolicies, bind, currentEnforcer, gets. rewrite Hm. unfold builtInRoles. cbn [for_each].
  unfold bind. cbn [RoleSpec_Superuser RoleSpec_Key ret].
  destruct (seed_role_run BuiltInRoleAdmin (PermissionsForRole BuiltInRoleAdmin) w) as (w' & -> & He' & Hf');
    [done|done|by repeat constructor|].
  exists w'. done.
Qed.

(** Starting the master node restores the administrators' baseline: whatever rules the
    table held for the built-in roles, afterwards the enforcer has the whole table
    loaded, the role of administrators may do exactly what the registry grants it by
    default, and the overrides of every single user are untouched. *)
Theorem Init_restores_baseline w :
  no_faults w -> Forall wf_rule (rules_of w) ->
  let '(r, w') := Init true w in
  r = Ok tt ∧ enforced w' ∧
  (∀ p, isKnownPermission p = true ->
     (∃ m, World_enforcer w' = Some m ∧
        roleBaselineAllows m BuiltInRoleAdmin p = bool_decide (p ∈ PermissionsForRole BuiltInRoleAdmin))) ∧
  ∀ u p o, table_effect (rules_of w) (UserSubject u) p o -> table_effect (rules_of w') (UserSubject u) p o.
Proof.
  intros Hn Hw. unfold Init, bind. destruct (seedBuiltInRoles_run w Hn) as (w1 & -> & Hn1 & Hr1 & _).
  unfold resetBuiltInRolePolicies, update. rewrite exec_no_faults by done.
  fold (without_roles). set (w2 := on_rules _ w1).
  assert (rules_of w2 = without_roles (rules_of w)) as Hr2 by (rewrite <- Hr1; done).
  assert (Forall wf_rule (rules_of w2)) as Hw2.
  { rewrite Hr2. rewrite Forall_forall in *. intros x [Hx _]%list_elem_of_In%filter_In.
    by apply Hw, list_elem_of_In. }
  destruct (load_rules_mirrors _ Hw2) as (m & Hl & Hm). rewrite (LoadPolicy_run w2 m) by done.
  unfold set_policy, modify. set (w3 := set_World_enforcer (Some m) w2).
  destruct (seedDefaultPolicies_run w3) as (w' & -> & He' & Hf).
  { split; [done|]. split; [done|]. by exists m. }
  assert (∀ s p e, has_effect (rules_of w') s p e <->
    (has_effect (rules_of w) s p e ∧ s ∉ map (λ spec, RoleSubject (RoleSpec_Key spec)) builtInRoles) ∨
    (s = RoleSubject BuiltInRoleAdmin ∧ e = EffectAllow ∧ p ∈ PermissionsForRole BuiltInRoleAdmin)) as Heff.
  { intros s p e. rewrite Hf. change (rules_of w3) with (rules_of w2).
    by rewrite Hr2, without_roles_effect. }
  split; [done|]. split; [done|]. split.
  - intros p Hk. destruct He' as (_ & _ & m' & Hm' & Hmir). exists m'. split; [done|].
    destruct (known_permission p Hk) as (Hkr & a & Ha & Hact).
    destruct (known_plain _ _ Hkr Ha) as [Hr%plain_nonempty Hp%plain_nonempty]. rewrite Hact in Hp.
    pose proof (effect_mirrors m' _ (RoleSubject BuiltInRoleAdmin) p Hmir (ltac:(done)) Hr Hp) as Ht.
    unfold roleBaselineAllows. apply bool_decide_ext. revert Ht.
    assert (RoleSubject BuiltInRoleAdmin ∈ map (λ spec, RoleSubject (RoleSpec_Key spec)) builtInRoles) as Hin
      by (right; left).
    destruct (explicitSubjectEffect m' _ p) as [e|]; unfold table_effect; rewrite !Heff; naive_solver.
  - intros u p o. apply table_effect_ext. intros e. rewrite Heff. split; [|naive_solver].
    intros ?. left. split; [done|]. simpl. rewrite !not_elem_of_cons. split_and!; [..|apply not_elem_of_nil];
      apply not_eq_sym, RoleSubject_not_user.
Qed.

End props.
