(* ===== verification/Accounts.v ===== *)
(** * Accounts: the users table

    Models the account operations of [model/user.go] and [model/user_cache.go]
    and [InvalidateUserTokensCache] of [model/token.go].  What the functions need of
    gorm is its documented behaviour: [First] takes the row with the smallest id,
    [Updates] with a struct writes the fields that are not zero, with a map the
    named columns, [Create] fills the declared defaults, a soft delete hides the
    row from the ordinary queries, the unique columns are checked over deleted
    rows too.  bcrypt and the JSON encoding of the settings are parameters
    ([Identity]); the switches of the site are [Site]. *)

From S2P Require Export TopUp.
From S2P Require Export GoString TokenEstimator.
From S2P Require Export Authz.
From S2P Require Import Prelude.

(** [dto.UserSetting] *)
Record UserSetting : Type := mkUserSetting {
  NotifyType : string;
  QuotaWarningThreshold : float64;
  WebhookUrl : string;
  WebhookSecret : string;
  NotificationEmail : string;
  BarkUrl : string;
  GotifyUrl : string;
  GotifyToken : string;
  GotifyPriority : Z;
  UpstreamModelUpdateNotifyEnabled : bool;
  AcceptUnsetRatioModel : bool;
  RecordIpLog : bool;
  SidebarModules : string;
  BillingPreference : string;
  Language : string;
}.
Definition emptySetting : UserSetting :=
  mkUserSetting "" fzero "" "" "" "" "" "" 0 false false false "" "" "".

(** The sidebar configuration: sections and their switches. *)
Abbreviation sidebar := (list (string * list (string * bool))).

Class Identity := {
  (** [common.Password2Hash] with the salt bcrypt draws. *)
  Password2Hash : string -> string -> result string;
  ValidatePasswordAndHash : string -> string -> bool;
  (** What [Unmarshal] leaves in the struct, and [Marshal]. *)
  UnmarshalSetting : string -> UserSetting;
  MarshalSetting : UserSetting -> result string;
  MarshalSidebar : sidebar -> result string;
}.

Class Site := {
  QuotaForNewUser : Z;
  QuotaForInvitee : Z;
  QuotaForInviter : Z;
  IsPaymentComplianceConfirmed : bool;
  PasswordLoginEnabled : bool;
  RegisterEnabled : bool;
  PasswordRegisterEnabled : bool;
  EmailVerificationEnabled : bool;
  GenerateDefaultToken : bool;
  DefaultUseAutoGroup : bool;
}.

Definition UserStatusEnabled : Z := 1.
Definition UserStatusDisabled : Z := 2.

(** [User{}] *)
Definition zeroUser : User :=
  mkUser "" 0 0 0 "" "" "" 0 0 0 "" "" 0 0 "" "" "" "" "" "" None "" 0 "" "" 0.

(** ** Rows *)

(** The rows of a table in the order of their ids. *)
Definition rows_by_id (m : gmap Z User) : list (Z * User) :=
  merge_sort (λ a b : Z * User, Is_true (a.1 <=? b.1)) (map_to_list m).

(** [First] under a condition. *)
Definition first_user (p : Z -> User -> bool) (m : gmap Z User) : option (Z * User) :=
  List.find (λ '(id, u), p id u) (rows_by_id m).

Definition users_of (w : World) : gmap Z User := Tables_users (World_db w).
Definition deleted_of (w : World) : gmap Z User := Tables_deleted_users (World_db w).

(** [Unscoped()] *)
Definition all_users (w : World) : gmap Z User := users_of w ∪ deleted_of w.

(** The unique columns: user name, invitation code, access token (null is free). *)
Definition clash (a b : User) : bool :=
  bool_decide (User_Username a = User_Username b) || bool_decide (User_AffCode a = User_AffCode b)
  || (bool_decide (User_AccessToken a = User_AccessToken b) && negb (bool_decide (User_AccessToken a = None))).
Definition conflict (id : Z) (u : User) (w : World) : bool :=
  existsb (λ '(id', u'), negb (id' =? id) && clash u u') (map_to_list (all_users w)).

(** [UPDATE users SET ... WHERE id = ? AND deleted_at IS NULL] *)
Definition write_user (id : Z) (f : User -> User) : GM unit := exec (λ w,
  match user_row id w with
  | None => (Ok tt, w)
  | Some u => if conflict id (f u) w then (Err (EDriver "UNIQUE constraint failed"), w)
              else (Ok tt, on_db (upd_user id f) w)
  end).

(** The default values of the columns. *)
Definition with_defaults (u : User) : User :=
  {| u with User_Role := if User_Role u =? 0 then RoleCommonUser else User_Role u;
            User_Status := if User_Status u =? 0 then UserStatusEnabled else User_Status u;
            User_Group := if bool_decide (User_Group u = "") then "default" else User_Group u |}.

(** [Create]: the new id and the row; the id is unique too. *)
Definition create_user (u : User) : GM (Z * User) :=
  create (λ w, bool_decide (is_Some (all_users w !! Tables_next_user (World_db w)))
               || conflict (Tables_next_user (World_db w)) (with_defaults u) w)
    (λ w, let id := Tables_next_user (World_db w) in
      ((id, with_defaults u),
       on_db (λ t, set_Tables_next_user (id + 1)
         (set_Tables_users (<[id := with_defaults u]> (Tables_users t)) t)) w)).

(** [Delete] of a row that is not deleted yet. *)
Definition soft_delete (id : Z) (t : Tables) : Tables :=
  match Tables_users t !! id with
  | None => t
  | Some u => set_Tables_deleted_users (<[id := u]> (Tables_deleted_users t))
                (set_Tables_users (delete id (Tables_users t)) t)
  end.

(** [Unscoped().Delete] *)
Definition hard_delete (id : Z) (t : Tables) : Tables :=
  set_Tables_deleted_users (delete id (Tables_deleted_users t))
    (set_Tables_users (delete id (Tables_users t)) t).

(** The fields of a struct that [Updates] writes, but the accounting columns. *)
Definition nz (new old : Z) : Z := if new =? 0 then old else new.
Definition ns (new old : string) : string := if bool_decide (new = "") then old else new.
Definition nonzero_updates (new old : User) : User := {| old with
  User_Username := ns (User_Username new) (User_Username old);
  User_Password := ns (User_Password new) (User_Password old);
  User_DisplayName := ns (User_DisplayName new) (User_DisplayName old);
  User_Role := nz (User_Role new) (User_Role old);
  User_Status := nz (User_Status new) (User_Status old);
  User_Email := ns (User_Email new) (User_Email old);
  User_GitHubId := ns (User_GitHubId new) (User_GitHubId old);
  User_DiscordId := ns (User_DiscordId new) (User_DiscordId old);
  User_OidcId := ns (User_OidcId new) (User_OidcId old);
  User_WeChatId := ns (User_WeChatId new) (User_WeChatId old);
  User_TelegramId := ns (User_TelegramId new) (User_TelegramId old);
  User_LinuxDOId := ns (User_LinuxDOId new) (User_LinuxDOId old);
  User_AccessToken := match User_AccessToken new with Some t => Some t | None => User_AccessToken old end;
  User_Group := ns (User_Group new) (User_Group old);
  User_AffCode := ns (User_AffCode new) (User_AffCode old);
  User_AffCount := nz (User_AffCount new) (User_AffCount old);
  User_AffQuota := nz (User_AffQuota new) (User_AffQuota old);
  User_AffHistoryQuota := nz (User_AffHistoryQuota new) (User_AffHistoryQuota old);
  User_InviterId := nz (User_InviterId new) (User_InviterId old);
  User_Setting := ns (User_Setting new) (User_Setting old);
  User_Remark := ns (User_Remark new) (User_Remark old);
  User_StripeCustomer := ns (User_StripeCustomer new) (User_StripeCustomer old);
  User_LastLoginAt := nz (User_LastLoginAt new) (User_LastLoginAt old) |}.

Section accounts.
Context {CFG : Config} {ID : Identity} {SITE : Site}.

(** ** Settings *)

Definition GetSetting (setting : string) : UserSetting :=
  if bool_decide (setting = "") then emptySetting else UnmarshalSetting setting.

Definition SetSetting (setting : UserSetting) (u : User) : User :=
  match MarshalSetting setting with
  | Ok s => {| u with User_Setting := s |}
  | Err _ => u
  end.

Definition sidebar_for_role (userRole : Z) : sidebar :=
  [("chat", [("enabled", true); ("playground", true); ("chat", true)]);
   ("console", [("enabled", true); ("detail", true); ("token", true); ("log", true);
                ("midjourney", true); ("task", true)]);
   ("personal", [("enabled", true); ("topup", true); ("personal", true)])]
  ++ (if (userRole =? RoleAdminUser) || (userRole =? RoleRootUser)
      then [("admin", [("enabled", true); ("channel", true); ("models", true); ("redemption", true);
                       ("user", true); ("setting", userRole =? RoleRootUser)])]
      else []).

Definition generateDefaultSidebarConfigForRole (userRole : Z) : string :=
  match MarshalSidebar (sidebar_for_role userRole) with Ok s => s | Err _ => "" end.

(** ** The cache ([user_cache.go]) *)

Definition updateUserStatusCache (userId : Z) (status : bool) : GM unit :=
  if RedisEnabled
  then on_user_hash userId (set_UserBase_Status (if status then UserStatusEnabled else UserStatusDisabled))
  else ret tt.
Definition updateUserEmailCache (userId : Z) (email : string) : GM unit :=
  if RedisEnabled then on_user_hash userId (set_UserBase_Email email) else ret tt.
Definition updateUserSettingCache (userId : Z) (setting : string) : GM unit :=
  if RedisEnabled then on_user_hash userId (set_UserBase_Setting setting) else ret tt.

Definition updateUserCache (id : Z) (u : User) : GM unit :=
  if RedisEnabled
  then do! updateUserGroupCache id (User_Group u) in
       do! updateUserEmailCache id (User_Email u) in
       do! updateUserStatusCache id (User_Status u =? UserStatusEnabled) in
       do! updateUserNameCache id (User_Username u) in
       updateUserSettingCache id (User_Setting u)
  else ret tt.

(** [InvalidateUserTokensCache]: the first error is reported, the loop goes on. *)
Definition tokens_of_user (userId : Z) (w : World) : list Token :=
  List.filter (λ t, Token_UserId t =? userId)
    (map_to_list (Tables_tokens (World_db w) ∪ Tables_deleted_tokens (World_db w))).*2.

Fixpoint delete_tokens_cache (tokens : list Token) (firstErr : option error) : GM unit :=
  match tokens with
  | [] => match firstErr with None => ret tt | Some e => fail e end
  | t :: tokens =>
      if bool_decide (Token_Key t = "") then delete_tokens_cache tokens firstErr
      else
        let! r := attempt (cacheDeleteToken (Token_Key t)) in
        delete_tokens_cache tokens
          (match r, firstErr with Err e, None => Some e | _, _ => firstErr end)
  end.

Definition InvalidateUserTokensCache (userId : Z) : GM unit :=
  if negb RedisEnabled then ret tt
  else
    do! fail_if (userId <=? 0) (EText "userId 无效") in
    let! tokens := select (tokens_of_user userId) in
    delete_tokens_cache tokens None.

(** ** Updating *)

Definition hash_if (updatePassword : bool) (salt : string) (user : User) : GM User :=
  if updatePassword
  then let! h := lift_result (Password2Hash salt (User_Password user)) in
       ret {| user with User_Password := h |}
  else ret user.

Definition UpdateWithTx (salt : string) (id : Z) (user : User) (updatePassword : bool) : GM User :=
  let! newUser := hash_if updatePassword salt user in
  do! first (user_row id) in
  do! write_user id (nonzero_updates newUser) in
  first (user_row id).

Definition Update (salt : string) (id : Z) (user : User) (updatePassword : bool) : GM User :=
  let! u := UpdateWithTx salt id user updatePassword in
  do! updateUserCache id u in ret u.

(** [EditWithTx] writes the named columns, zero or not. *)
Definition EditWithTx (salt : string) (id : Z) (user : User) (updatePassword : bool) : GM User :=
  let! newUser := hash_if updatePassword salt user in
  do! first (user_row id) in
  do! write_user id (λ row, {| row with
        User_Username := User_Username newUser;
        User_DisplayName := User_DisplayName newUser;
        User_Group := User_Group newUser;
        User_Remark := User_Remark newUser;
        User_Password := if updatePassword then User_Password newUser else User_Password row |}) in
  first (user_row id).

(** [model.UpdateUserSetting] *)
Definition model_UpdateUserSetting (userId : Z) (setting : UserSetting) : GM unit :=
  do! fail_if (userId =? 0) (EText "id 为空！") in
  let! settingValue := lift_result (MarshalSetting setting) in
  do! update (on_db (upd_user userId (λ u, {| u with User_Setting := settingValue |}))) in
  updateUserSettingCache userId settingValue.

(** [ClearBinding]: the columns by name. *)
Definition clear_column (bindingType : string) : option (User -> User) :=
  if bool_decide (bindingType = "email") then Some (set_User_Email "")
  else if bool_decide (bindingType = "github") then Some (λ u, {| u with User_GitHubId := "" |})
  else if bool_decide (bindingType = "discord") then Some (λ u, {| u with User_DiscordId := "" |})
  else if bool_decide (bindingType = "oidc") then Some (λ u, {| u with User_OidcId := "" |})
  else if bool_decide (bindingType = "wechat") then Some (λ u, {| u with User_WeChatId := "" |})
  else if bool_decide (bindingType = "telegram") then Some (λ u, {| u with User_TelegramId := "" |})
  else if bool_decide (bindingType = "linuxdo") then Some (λ u, {| u with User_LinuxDOId := "" |})
  else None.

Definition ClearBinding (id : Z) (bindingType : string) : GM unit :=
  do! fail_if (id =? 0) (EText "user id is empty") in
  let! f := lift_option (clear_column bindingType) (EText "invalid binding type") in
  do! update (on_db (upd_user id f)) in
  let! u := first (user_row id) in
  updateUserCache id u.

(** ** Deleting *)

Definition User_Delete (id : Z) : GM unit :=
  do! fail_if (id =? 0) (EText "id 为空！") in
  do! update (on_db (soft_delete id)) in
  invalidateUserCache id.

Definition DeleteUserById (id : Z) : GM unit :=
  do! fail_if (id =? 0) (EText "id 为空！") in
  User_Delete id.

Definition deleteUserOAuthBindingsByUserId (userId : Z) : GM unit :=
  update (on_db (λ t, set_Tables_oauth_bindings
    (List.filter (λ b, negb (UserOAuthBinding_UserId b =? userId)) (Tables_oauth_bindings t)) t)).

Definition HardDeleteUserById (id : Z) : GM unit :=
  do! fail_if (id =? 0) (EText "id 为空！") in
  transaction (
    do! deleteUserOAuthBindingsByUserId id in
    update (on_db (hard_delete id))).

(** ** Creating *)

(** [InsertWithTx]: the row to create. *)
Definition new_user (salt affCode : string) (user : User) : GM User :=
  let! user := hash_if (negb (bool_decide (User_Password user = ""))) salt user in
  let user := {| user with User_Quota := QuotaForNewUser; User_AffCode := affCode |} in
  ret (if bool_decide (User_Setting user = "") then SetSetting emptySetting user else user).

Definition InsertWithTx (salt affCode : string) (user : User) : GM (Z * User) :=
  let! user := new_user salt affCode user in
  create_user user.

(** The part shared by [finishInsert] and [FinalizeOAuthUserCreation]: the sidebar of
    the created row, when the query finds it. *)
Definition init_sidebar (find : World -> option (Z * User)) : GM unit :=
  let! r := attempt (first find) in
  match r with
  | Err _ => ret tt
  | Ok (cid, created) =>
      let cfg := generateDefaultSidebarConfigForRole (User_Role created) in
      if bool_decide (cfg = "") then ret tt
      else ignore (Update "" cid
             (SetSetting {| (GetSetting (User_Setting created)) with SidebarModules := cfg |} created) false)
  end.

Definition registration_rewards (id inviterId : Z) : GM unit :=
  do! (if 0 <? QuotaForNewUser
       then RecordLog id LogTypeSystem "新用户注册赠送 %s" [AQuota QuotaForNewUser] else ret tt) in
  if negb (inviterId =? 0) && IsPaymentComplianceConfirmed
  then
    do! (if 0 <? QuotaForInvitee
         then do! ignore (IncreaseUserQuota id QuotaForInvitee true) in
              RecordLog id LogTypeSystem "使用邀请码赠送 %s" [AQuota QuotaForInvitee]
         else ret tt) in
    if 0 <? QuotaForInviter
    then do! RecordLog inviterId LogTypeSystem "邀请用户赠送 %s" [AQuota QuotaForInviter] in
         ignore (inviteUser QuotaForInviter inviterId)
    else ret tt
  else ret tt.

Definition by_username (username : string) (w : World) : option (Z * User) :=
  first_user (λ _ u, bool_decide (User_Username u = username)) (users_of w).

Definition finishInsert (id : Z) (user : User) (inviterId : Z) : GM unit :=
  do! init_sidebar (by_username (User_Username user)) in
  registration_rewards id inviterId.

Definition FinalizeOAuthUserCreation (id : Z) (inviterId : Z) : GM unit :=
  do! init_sidebar (λ w, pair id <$> user_row id w) in
  registration_rewards id inviterId.

Definition User_Insert (salt affCode : string) (user : User) (inviterId : Z) : GM (Z * User) :=
  let! user := new_user salt affCode user in
  let! created := create_user user in
  do! finishInsert created.1 created.2 inviterId in
  ret created.

(** ** Looking up *)

Definition CheckUserExistOrDeleted (username email : string) : GM bool :=
  let! r := attempt (first (λ w, first_user (λ _ u,
    bool_decide (User_Username u = username)
    || (negb (bool_decide (email = "")) && bool_decide (User_Email u = email))) (all_users w))) in
  match r with
  | Ok _ => ret true
  | Err ERecordNotFound => ret false
  | Err e => fail e
  end.

Definition GetUserIdByAffCode (affCode : string) : GM Z :=
  do! fail_if (bool_decide (affCode = "")) (EText "affCode 为空！") in
  let! r := first (λ w, first_user (λ _ u, bool_decide (User_AffCode u = affCode)) (users_of w)) in
  ret r.1.

Definition ErrInvalidCredentials : error := EText "invalid credentials".
Definition ErrUserEmptyCredentials : error := EText "empty credentials".

(** [ValidateAndFill] *)
Definition ValidateAndFill (username password : string) : GM (Z * User) :=
  let username := TrimSpace username in
  do! fail_if (bool_decide (username = "") || bool_decide (password = "")) ErrUserEmptyCredentials in
  let! r := attempt (first (λ w, first_user (λ _ u,
    bool_decide (User_Username u = username) || bool_decide (User_Email u = username)) (users_of w))) in
  match r with
  | Err ERecordNotFound => fail ErrInvalidCredentials
  | Err e => fail (EWrap "database error: " e)
  | Ok (id, u) =>
      if negb (ValidatePasswordAndHash password (User_Password u))
         || negb (User_Status u =? UserStatusEnabled)
      then fail ErrInvalidCredentials
      else ret (id, u)
  end.

(** [FillUserById] keeps the struct when the query finds nothing or fails. *)
Definition FillUserById (id : Z) : GM User :=
  do! fail_if (id =? 0) (EText "id 为空！") in
  let! r := attempt (first (user_row id)) in
  ret (match r with Ok u => u | Err _ => zeroUser end).

(** [IsEmailAlreadyTaken]: exactly one row; a failed query counts none. *)
Definition IsEmailAlreadyTaken (email : string) : GM bool :=
  let! r := attempt (select (λ w,
    length (List.filter (λ u, bool_decide (User_Email u = email)) (map_to_list (all_users w)).*2))) in
  ret (match r with Ok n => Nat.eqb n 1 | Err _ => false end).

Definition ResetUserPasswordByEmail (salt email password : string) : GM unit :=
  do! fail_if (bool_decide (email = "") || bool_decide (password = "")) (EText "邮箱地址或密码为空！") in
  let! hashedPassword := lift_result (Password2Hash salt password) in
  update (on_db (λ t, set_Tables_users
    ((λ u, if bool_decide (User_Email u = email) then {| u with User_Password := hashedPassword |} else u)
      <$> Tables_users t) t)).

(** [IsAdmin]: [Find] leaves role zero when no row matches. *)
Definition IsAdmin (userId : Z) : GM bool :=
  if userId =? 0 then ret false
  else
    let! r := attempt (select (λ w, from_option User_Role 0 (user_row userId w))) in
    ret (match r with Ok role => RoleAdminUser <=? role | Err _ => false end).

(** [ValidateAccessToken]: no user and no error when the token is unknown. *)
Definition ValidateAccessToken (token : string) : GM (option (Z * User)) :=
  if bool_decide (token = "") then ret None
  else
    let! r := attempt (first (λ w, first_user (λ _ u,
      bool_decide (User_AccessToken u = Some (ReplaceFirst token "Bearer " ""))) (users_of w))) in
    match r with
    | Ok u => ret (Some u)
    | Err ERecordNotFound => ret None
    | Err e => fail (EWrap "database error: " e)
    end.

Definition UpdateUserLastLoginAt (id : Z) : GM unit :=
  let! now := GetTimestamp in
  ignore (update (on_db (upd_user id (λ u, {| u with User_LastLoginAt := now |})))).

Definition RootUserExists : GM bool :=
  let! r := attempt (first (λ w, first_user (λ _ u, User_Role u =? RoleRootUser) (users_of w))) in
  ret (is_ok r).

End accounts.
