(* ===== verification/TwoFactor.v ===== *)
(** * TwoFactor: the second factor of a login

    Models [common/totp.go], [model/twofa.go] and the handlers of
    [controller/twofa.go] (the login handler is in [Login]).  The TOTP library is a
    parameter ([Totp]); random bytes and the new secret are arguments.  A handler
    works on the record it loaded ([TwoFA] is passed and returned) and writes it back
    as a whole. *)

From Stdlib Require Import Ascii.
From S2P Require Export Accounts.
From S2P Require Import Prelude.

(** [totp.Validate] of the code and the secret at a time. *)
Class Totp := { totp_Validate : string -> string -> Z -> bool }.

Definition BackupCodeLength : nat := 8.
Definition BackupCodeCount : nat := 4.
Definition MaxFailAttempts : Z := 5.
Definition LockoutDuration : Z := 300.

(** ** Codes ([common/totp.go]) *)

Definition backup_charset : string := "ABCDEFGHIJKLMNOPQRSTUVWXYZ0123456789".

(** [generateRandomBackupCode] from its eight random bytes. *)
Definition code_char (b : Z) : ascii :=
  match String.get (Z.to_nat (b mod 36)) backup_charset with Some c => c | None => "A" end%char.
Fixpoint text_of (l : list ascii) : string :=
  match l with [] => "" | c :: l => String c (text_of l) end.
Definition generateRandomBackupCode (bytes : list Z) : string :=
  let code := text_of (map code_char bytes) in
  str_take 4 code +:+ "-" +:+ str_drop 4 code.

(** [ValidateBackupCode] of the package [common]: the format. *)
Definition backup_char (c : ascii) : bool :=
  let n := nat_of_ascii c in
  (Nat.leb 65 n && Nat.leb n 90) || (Nat.leb 48 n && Nat.leb n 57).
Fixpoint all_chars (p : ascii -> bool) (s : string) : bool :=
  match s with EmptyString => true | String c s => p c && all_chars p s end.
Definition cleanCode (code : string) : string := ToUpper (ReplaceAll code "-" "").
Definition backup_format (code : string) : bool :=
  Nat.eqb (String.length (cleanCode code)) BackupCodeLength && all_chars backup_char (cleanCode code).

Definition NormalizeBackupCode (code : string) : string :=
  if Nat.eqb (String.length (cleanCode code)) BackupCodeLength
  then str_take 4 (cleanCode code) +:+ "-" +:+ str_drop 4 (cleanCode code)
  else code.

Definition ValidateNumericCode (code : string) : result string :=
  let code := ReplaceAll code " " "" in
  if negb (Nat.eqb (String.length code) 6) then Err (EText "验证码必须是6位数字")
  else match Atoi code with
       | None => Err (EText "验证码只能包含数字")
       | Some _ => Ok code
       end.

Section twofactor.
Context {CFG : Config} {ID : Identity} {SITE : Site} {TP : Totp}.

Definition ValidateTOTPCode (secret code : string) : GM bool :=
  let clean := ReplaceAll code " " "" in
  let! now := GetTimestamp in
  ret (Nat.eqb (String.length clean) 6 && totp_Validate clean secret now).

Definition HashBackupCode (salt code : string) : result string :=
  Password2Hash salt (NormalizeBackupCode code).

(** ** Records ([model/twofa.go]) *)

Definition twofa_row (userId : Z) (w : World) : option TwoFA := Tables_twofas (World_db w) !! userId.

Definition GetTwoFAByUserId (userId : Z) : GM (option TwoFA) :=
  do! fail_if (userId =? 0) (EText "用户ID不能为空") in
  let! r := attempt (first (twofa_row userId)) in
  match r with
  | Ok t => ret (Some t)
  | Err ERecordNotFound => ret None
  | Err e => fail e
  end.

Definition IsTwoFAEnabled (userId : Z) : GM bool :=
  let! r := attempt (GetTwoFAByUserId userId) in
  ret (match r with Ok (Some t) => TwoFA_IsEnabled t | _ => false end).

Definition put_twofa (t : TwoFA) (db : Tables) : Tables :=
  set_Tables_twofas (<[TwoFA_UserId t := t]> (Tables_twofas db)) db.

(** [DB.Save]: the row with the record's id, inserted when it is gone; the user's
    column is unique. *)
Definition TwoFA_Update (t : TwoFA) : GM unit :=
  do! fail_if (TwoFA_Id t =? 0) (EText "2FA记录ID不能为空") in
  exec (λ w,
    match twofa_row (TwoFA_UserId t) w with
    | Some row => if TwoFA_Id row =? TwoFA_Id t then (Ok tt, on_db (put_twofa t) w)
                  else (Err (EDriver "UNIQUE constraint failed"), w)
    | None => (Ok tt, on_db (put_twofa t) w)
    end).

Definition TwoFA_Create (userId : Z) (secret : string) : GM unit :=
  let! existing := GetTwoFAByUserId userId in
  do! fail_if (match existing with Some _ => true | None => false end) (EText "用户已存在2FA设置") in
  let! r := attempt (first (user_row userId)) in
  match r with
  | Err ERecordNotFound => fail (EText "用户不存在")
  | Err e => fail e
  | Ok _ =>
      create (λ w, bool_decide (is_Some (twofa_row userId w)))
        (λ w, (tt, on_db (λ db, set_Tables_next_twofa (Tables_next_twofa db + 1)
           (put_twofa (mkTwoFA (Tables_next_twofa db) userId secret false 0 None None) db)) w))
  end.

Definition delete_backup_codes (p : TwoFABackupCode -> bool) (db : Tables) : Tables :=
  set_Tables_backup_codes (filter (λ '(_, c), p c = false) (Tables_backup_codes db)) db.

Definition TwoFA_Delete (t : TwoFA) : GM unit :=
  do! fail_if (TwoFA_Id t =? 0) (EText "2FA记录ID不能为空") in
  transaction (
    do! update (on_db (delete_backup_codes (λ c, TwoFABackupCode_UserId c =? TwoFA_UserId t))) in
    update (on_db (λ db, set_Tables_twofas
      (filter (λ '(_, row), TwoFA_Id row ≠ TwoFA_Id t) (Tables_twofas db)) db))).

Definition failed_once (now : Z) (t : TwoFA) : TwoFA :=
  let n := wrap64 (TwoFA_FailedAttempts t + 1) in
  {| t with TwoFA_FailedAttempts := n;
            TwoFA_LockedUntil := if MaxFailAttempts <=? n then Some (now + LockoutDuration)
                                 else TwoFA_LockedUntil t |}.

Definition IncrementFailedAttempts (t : TwoFA) : GM TwoFA :=
  let! now := GetTimestamp in
  do! ignore (TwoFA_Update (failed_once now t)) in
  ret (failed_once now t).

Definition IsLocked (t : TwoFA) : GM bool :=
  let! now := GetTimestamp in
  ret (match TwoFA_LockedUntil t with None => false | Some until => now <? until end).

Definition CreateBackupCodes (userId : Z) (salts : list string) (codes : list string) : GM unit :=
  transaction (
    do! update (on_db (λ db, set_Tables_backup_codes
          ((λ c, if TwoFABackupCode_UserId c =? userId then {| c with TwoFABackupCode_Deleted := true |} else c)
             <$> Tables_backup_codes db) db)) in
    for_each (λ '(salt, code),
      let! hashedCode := lift_result (HashBackupCode salt code) in
      update (on_db (λ db, set_Tables_next_backup_code (Tables_next_backup_code db + 1)
        (set_Tables_backup_codes (<[Tables_next_backup_code db :=
           mkTwoFABackupCode userId hashedCode false None false]> (Tables_backup_codes db)) db))))
      (zip salts codes)).

(** A live row that was not used. *)
Definition unused (userId : Z) (c : TwoFABackupCode) : bool :=
  (TwoFABackupCode_UserId c =? userId) && negb (TwoFABackupCode_IsUsed c)
  && negb (TwoFABackupCode_Deleted c).
Definition unused_codes (userId : Z) (w : World) : list (Z * TwoFABackupCode) :=
  List.filter (λ '(_, c), unused userId c)
    (merge_sort (λ a b : Z * TwoFABackupCode, Is_true (a.1 <=? b.1)) (map_to_list (Tables_backup_codes (World_db w)))).

(** [ValidateBackupCode] of the package [model] *)
Definition ValidateBackupCode (userId : Z) (code : string) : GM bool :=
  do! fail_if (negb (backup_format code)) (EText "验证码或备用码不正确") in
  let! backupCodes := select (unused_codes userId) in
  match List.find (λ '(_, bc), ValidatePasswordAndHash (NormalizeBackupCode code) (TwoFABackupCode_CodeHash bc))
          backupCodes with
  | None => ret false
  | Some (id, bc) =>
      let! now := GetTimestamp in
      do! update (on_db (λ db, set_Tables_backup_codes (<[id :=
            {| bc with TwoFABackupCode_IsUsed := true; TwoFABackupCode_UsedAt := Some now |}]>
            (Tables_backup_codes db)) db)) in
      ret true
  end.

Definition GetUnusedBackupCodeCount (userId : Z) : GM Z :=
  select (λ w, Z.of_nat (length (unused_codes userId w))).

Definition ErrTwoFANotEnabled : error := EText "2fa not enabled".

Definition DisableTwoFA (userId : Z) : GM unit :=
  let! t := GetTwoFAByUserId userId in
  match t with None => fail ErrTwoFANotEnabled | Some t => TwoFA_Delete t end.

Definition TwoFA_Enable (t : TwoFA) : GM unit :=
  TwoFA_Update {| t with TwoFA_IsEnabled := true; TwoFA_FailedAttempts := 0; TwoFA_LockedUntil := None |}.

Definition ErrLocked : error := EText "账户已被锁定，请在%v后重试".

Definition used_now (now : Z) (t : TwoFA) : TwoFA :=
  {| t with TwoFA_FailedAttempts := 0; TwoFA_LockedUntil := None; TwoFA_LastUsedAt := Some now |}.

(** The tail of the two [Validate...AndUpdateUsage]: the verdict and the record. *)
Definition record_usage (t : TwoFA) (valid : bool) : GM (bool * TwoFA) :=
  if valid
  then let! now := GetTimestamp in
       do! ignore (TwoFA_Update (used_now now t)) in ret (true, used_now now t)
  else let! t := IncrementFailedAttempts t in ret (false, t).

Definition ValidateTOTPAndUpdateUsage (t : TwoFA) (code : string) : GM (bool * TwoFA) :=
  let! locked := IsLocked t in
  do! fail_if locked ErrLocked in
  let! valid := ValidateTOTPCode (TwoFA_Secret t) code in
  record_usage t valid.

Definition ValidateBackupCodeAndUpdateUsage (t : TwoFA) (code : string) : GM (bool * TwoFA) :=
  let! locked := IsLocked t in
  do! fail_if locked ErrLocked in
  let! valid := ValidateBackupCode (TwoFA_UserId t) code in
  record_usage t valid.

(** ** Handlers ([controller/twofa.go]) *)

Definition wrong_code : error := EText "验证码或备用码错误，请重试".

(** The check shared by [Disable2FA] and [Verify2FALogin]. *)
Definition verify_code (t : TwoFA) (code : string) : GM unit :=
  let! first_try := (match ValidateNumericCode code with
                     | Ok clean =>
                         let! r := attempt (ValidateTOTPAndUpdateUsage t clean) in
                         ret (match r with Ok p => p | Err _ => (false, t) end)
                     | Err _ => ret (false, t)
                     end) in
  if first_try.1 then ret tt
  else
    let! r := ValidateBackupCodeAndUpdateUsage first_try.2 code in
    fail_if (negb r.1) wrong_code.

Definition Setup2FA (userId : Z) (secret : string) (salts codes : list string) : GM unit :=
  let! existing := GetTwoFAByUserId userId in
  do! (match existing with
       | None => ret tt
       | Some t => if TwoFA_IsEnabled t then fail (EText "用户已启用2FA，请先禁用后重新设置")
                   else TwoFA_Delete t
       end) in
  do! GetUserById userId false in
  do! TwoFA_Create userId secret in
  do! CreateBackupCodes userId salts codes in
  RecordLog userId LogTypeSystem "开始设置两步验证" [].

Definition Enable2FA (userId : Z) (code : string) : GM unit :=
  let! r := GetTwoFAByUserId userId in
  let! t := lift_option r (EText "请先完成2FA初始化设置") in
  do! fail_if (TwoFA_IsEnabled t) (EText "2FA已经启用") in
  let! clean := lift_result (ValidateNumericCode code) in
  let! valid := ValidateTOTPCode (TwoFA_Secret t) clean in
  do! fail_if (negb valid) wrong_code in
  do! TwoFA_Enable t in
  RecordLog userId LogTypeSystem "成功启用两步验证" [].

Definition not_enabled : error := EText "用户未启用2FA".

Definition enabled_twofa (userId : Z) : GM TwoFA :=
  let! r := GetTwoFAByUserId userId in
  match r with
  | Some t => if TwoFA_IsEnabled t then ret t else fail not_enabled
  | None => fail not_enabled
  end.

Definition Disable2FA (userId : Z) (code : string) : GM unit :=
  let! t := enabled_twofa userId in
  do! verify_code t code in
  do! DisableTwoFA userId in
  RecordLog userId LogTypeSystem "禁用两步验证" [].

(** Enabled, locked, and the codes left when that is known. *)
Definition Get2FAStatus (userId : Z) : GM (bool * bool * option Z) :=
  let! r := GetTwoFAByUserId userId in
  match r with
  | None => ret (false, false, None)
  | Some t =>
      let! locked := IsLocked t in
      if TwoFA_IsEnabled t
      then let! count := attempt (GetUnusedBackupCodeCount userId) in
           ret (true, locked, match count with Ok n => Some n | Err _ => None end)
      else ret (false, locked, None)
  end.

Definition RegenerateBackupCodes (userId : Z) (code : string) (salts codes : list string) : GM unit :=
  let! t := enabled_twofa userId in
  let! clean := lift_result (ValidateNumericCode code) in
  let! r := ValidateTOTPAndUpdateUsage t clean in
  do! fail_if (negb r.1) wrong_code in
  do! CreateBackupCodes userId salts codes in
  RecordLog userId LogTypeSystem "重新生成两步验证备用码" [].

End twofactor.
