(* ===== verification/UserApi.v ===== *)
(** * UserApi: the handlers for accounts

    Models the handlers of [controller/user.go] that change accounts, the password
    reset and the verification codes ([controller/misc.go], [common/verification.go])
    and [AdminDisable2FA] of [controller/twofa.go].  A handler takes the caller the
    authentication put into the request ([Caller]), the decoded body ([None] when the
    body is no JSON of its shape) and the random values it draws; an answer with
    [success: false] is [Err].  The text of an audit entry is its action's name. *)

From S2P Require Export TwoFactor.
From S2P Require Import Prelude.

(** What [authHelper] stores in the request. *)
Record Caller : Type := mkCaller {
  caller_id : Z;
  caller_username : string;
  caller_role : Z;
  use_access_token : bool;
  client_ip : string;
}.

(** The JSON form of [model.User]: the row and the fields that are no columns. *)
Record UserBody : Type := mkUserBody {
  body_Id : Z;
  body_user : User;
  body_OriginalPassword : string;
  body_VerificationCode : string;
  body_AdminPermissions : option PermissionsMap;
}.

Definition invalid_params : error := EText "common.invalid_params".

(** The validation tags of [model.User]; the validator counts characters. *)
Definition characters (s : string) : Z := Z.of_nat (length (runes s)).
Definition Validate_Struct (u : User) : bool :=
  (characters (User_Username u) <=? 20)
  && (8 <=? characters (User_Password u)) && (characters (User_Password u) <=? 20)
  && (characters (User_DisplayName u) <=? 20) && (characters (User_Email u) <=? 50)
  && (characters (User_Remark u) <=? 255).

(** ** Verification codes ([common/verification.go]) *)

Definition EmailVerificationPurpose : string := "v".
Definition PasswordResetPurpose : string := "r".
Definition verificationMapMaxSize : nat := 10.
Definition VerificationValidMinutes : Z := 10.

Definition expired (now : Z) (v : string * Z) : bool := VerificationValidMinutes * 60 <=? now - v.2.

Definition RegisterVerificationCodeWithKey (key code purpose : string) : GM unit :=
  let! now := GetTimestamp in
  modify (λ w,
    let m := <[purpose +:+ key := (code, now)]> (World_codes w) in
    set_World_codes
      (if Nat.ltb verificationMapMaxSize (size m)
       then filter (λ '(_, v), expired now v = false) m else m) w).

Definition VerifyCodeWithKey (key code purpose : string) : GM bool :=
  gets (λ w, match World_codes w !! (purpose +:+ key) with
             | None => false
             | Some v => negb (expired (World_now w) v) && bool_decide (code = v.1)
             end).

Definition DeleteKey (key purpose : string) : GM unit :=
  modify (λ w, set_World_codes (delete (purpose +:+ key) (World_codes w)) w).

Section api.
Context {CFG : Config} {ID : Identity} {SITE : Site} {TP : Totp} {CB : Casbin}.

(** ** Audit ([controller/audit.go], [model/log.go]) *)

Definition RecordOperationAuditLog (logUserId : Z) (ip action : string) (params : list Arg)
    (other : list (string * string)) : GM unit :=
  let! name := attempt (GetUsernameById logUserId false) in
  let username := match name with Ok n => n | Err _ => "" end in
  let! now := GetTimestamp in
  ignore (createLog (mkLog logUserId username now LogTypeManage action params ip other)).

Definition recordManageAuditFor (c : Caller) (targetUserId : Z) (action : string) (params : list Arg) : GM unit :=
  RecordOperationAuditLog (caller_id c) (client_ip c) action
    (params ++ (if (0 <? targetUserId) && negb (targetUserId =? caller_id c) then [AInt targetUserId] else []))
    [("admin_id", pretty (caller_id c)); ("admin_username", caller_username c);
     ("admin_role", pretty (caller_role c));
     ("auth_method", if use_access_token c then "access_token" else "session")].

(** ** Roles *)

Definition canManageTargetRole (myRole targetRole : Z) : bool :=
  (myRole =? RoleRootUser) || (targetRole <? myRole).

Definition GetUser (c : Caller) (id : Z) : GM (User * PermissionsMap) :=
  let! user := GetUserById id false in
  do! fail_if (negb (canManageTargetRole (caller_role c) (User_Role user)))
        (EText "user.no_permission_same_level") in
  let! e := currentEnforcer in
  ret (user, Capabilities e id (User_Role user)).

(** [updateAdminPermissionsForUserInTx]: was the policy touched. *)
Definition updateAdminPermissionsForUserInTx (c : Caller) (userID userRole : Z)
    (permissions : option PermissionsMap) : GM bool :=
  match permissions with
  | None =>
      if (userRole <? RoleAdminUser) && (caller_role c =? RoleRootUser)
      then do! ClearUserAuthorizationInTx userID in ret true
      else ret false
  | Some permissions =>
      if negb (caller_role c =? RoleRootUser)
      then fail (EText "only root can update admin permissions")
      else if userRole <? RoleAdminUser
      then do! ClearUserAuthorizationInTx userID in ret true
      else do! SetUserPermissionsInTx userID permissions in ret true
  end.

Definition placeholder : string := "$I_LOVE_U".

Definition UpdateUser (c : Caller) (salt : string) (body : option UserBody) : GM unit :=
  let! b := lift_option body invalid_params in
  let id := body_Id b in
  do! fail_if (id =? 0) invalid_params in
  let u := set_User_Username (TrimSpace (User_Username (body_user b))) (body_user b) in
  do! fail_if (bool_decide (User_Username u = "")) invalid_params in
  let u := {| u with User_Password := if bool_decide (User_Password u = "") then placeholder else User_Password u |} in
  do! fail_if (negb (Validate_Struct u)) (EText "user.input_invalid") in
  let! originUser := GetUserById id false in
  do! fail_if (negb (User_Role u =? RoleGuestUser) && negb (User_Role u =? User_Role originUser)) invalid_params in
  let u := {| u with User_Role := User_Role originUser |} in
  do! fail_if (negb (canManageTargetRole (caller_role c) (User_Role originUser)))
        (EText "user.no_permission_higher_level") in
  let u := {| u with User_Password := if bool_decide (User_Password u = placeholder) then "" else User_Password u |} in
  let updatePassword := negb (bool_decide (User_Password u = "")) in
  let! authzTouched := transaction (
    do! EditWithTx salt id u updatePassword in
    updateAdminPermissionsForUserInTx c id (User_Role originUser) (body_AdminPermissions b)) in
  do! (if authzTouched : bool then ReloadPolicy else ret tt) in
  do! ignore (invalidateUserCache id) in
  recordManageAuditFor c id "user.update" [AStr (User_Username originUser); AInt id].

Definition AdminClearUserBinding (c : Caller) (id : Z) (binding_type : string) : GM unit :=
  let bindingType := ToLower (TrimSpace binding_type) in
  do! fail_if (bool_decide (bindingType = "")) invalid_params in
  let! user := GetUserById id false in
  do! fail_if (negb (canManageTargetRole (caller_role c) (User_Role user)))
        (EText "user.no_permission_same_level") in
  do! ClearBinding id bindingType in
  recordManageAuditFor c id "user.binding_clear" [AStr bindingType; AStr (User_Username user)].

Definition DeleteUser (c : Caller) (id : Z) : GM unit :=
  let! originUser := GetUserById id false in
  do! fail_if (caller_role c <=? User_Role originUser) (EText "user.no_permission_higher_level") in
  do! HardDeleteUserById id in
  recordManageAuditFor c id "user.delete" [AStr (User_Username originUser); AInt id].

(** [CreateUser]: the salt and the invitation code are drawn. *)
Definition CreateUser (c : Caller) (salt affCode : string) (body : option UserBody) : GM unit :=
  let! b := lift_option body invalid_params in
  let u := set_User_Username (TrimSpace (User_Username (body_user b))) (body_user b) in
  do! fail_if (bool_decide (User_Username u = "") || bool_decide (User_Password u = "")) invalid_params in
  do! fail_if (negb (Validate_Struct u)) (EText "user.input_invalid") in
  let displayName := if bool_decide (User_DisplayName u = "") then User_Username u else User_DisplayName u in
  do! fail_if (caller_role c <=? User_Role u) (EText "user.cannot_create_higher_level") in
  let cleanUser := {| zeroUser with User_Username := User_Username u; User_Password := User_Password u;
                                    User_DisplayName := displayName; User_Role := User_Role u |} in
  let! r := transaction (
    let! created := InsertWithTx salt affCode cleanUser in
    let! touched := updateAdminPermissionsForUserInTx c created.1 (User_Role created.2) (body_AdminPermissions b) in
    ret (created, touched)) in
  let '((id, created), authzTouched) := r in
  do! (if authzTouched : bool then ReloadPolicy else ret tt) in
  do! finishInsert id created 0 in
  recordManageAuditFor c id "user.create" [AStr (User_Username created); AInt (User_Role created)].

Record ManageRequest : Type := mkManage {
  Manage_Id : Z; Manage_Action : string; Manage_Value : Z; Manage_Mode : string }.

(** [DB.Unscoped().Where(&user).First(&user)]: without an id the condition is empty;
    when nothing is found or the query fails the struct keeps the requested id. *)
Definition load_target (id : Z) : GM (Z * User) :=
  let! r := attempt (first (λ w,
    first_user (λ id' _, (id =? 0) || (id' =? id)) (all_users w))) in
  ret (match r with Ok found => found | Err _ => (id, zeroUser) end).

Definition add_quota (c : Caller) (id : Z) (user : User) (req : ManageRequest) : GM unit :=
  let value := Manage_Value req in
  let zero := EText "user.quota_change_zero" in
  if bool_decide (Manage_Mode req = "add") then
    do! fail_if (value <=? 0) zero in
    do! IncreaseUserQuota id value true in
    recordManageAuditFor c id "user.quota_add" [AQuota value]
  else if bool_decide (Manage_Mode req = "subtract") then
    do! fail_if (value <=? 0) zero in
    do! DecreaseUserQuota id value true in
    recordManageAuditFor c id "user.quota_subtract" [AQuota value]
  else if bool_decide (Manage_Mode req = "override") then
    do! update (on_db (upd_user id (set_User_Quota value))) in
    recordManageAuditFor c id "user.quota_override" [AQuota (User_Quota user); AQuota value]
  else fail invalid_params.

(** The guards of the actions that go on to write the user, and the user to write. *)
Definition manage_user (myRole : Z) (action : string) (id : Z) (user : User) : GM User :=
  let root := User_Role user =? RoleRootUser in
  if bool_decide (action = "disable") then
    do! fail_if root (EText "user.cannot_disable_root_user") in
    ret {| user with User_Status := UserStatusDisabled |}
  else if bool_decide (action = "enable") then
    ret {| user with User_Status := UserStatusEnabled |}
  else if bool_decide (action = "delete") then
    do! fail_if root (EText "user.cannot_delete_root_user") in
    do! User_Delete id in
    do! ignore (InvalidateUserTokensCache id) in
    ret user
  else if bool_decide (action = "promote") then
    do! fail_if (negb (myRole =? RoleRootUser)) (EText "user.admin_cannot_promote") in
    do! fail_if (RoleAdminUser <=? User_Role user) (EText "user.already_admin") in
    ret {| user with User_Role := RoleAdminUser |}
  else if bool_decide (action = "demote") then
    do! fail_if root (EText "user.cannot_demote_root_user") in
    do! fail_if (User_Role user =? RoleCommonUser) (EText "user.already_common") in
    ret {| user with User_Role := RoleCommonUser |}
  else ret user.

Definition ManageUser (c : Caller) (body : option ManageRequest) : GM unit :=
  let! req := lift_option body invalid_params in
  let! target := load_target (Manage_Id req) in
  let '(id, user) := target in
  do! fail_if (id =? 0) (EText "user.not_exists") in
  let myRole := caller_role c in
  do! fail_if (negb (canManageTargetRole myRole (User_Role user))) (EText "user.no_permission_higher_level") in
  let action := Manage_Action req in
  if bool_decide (action = "add_quota") then add_quota c id user req
  else
    let! user := manage_user myRole action id user in
    let! user := (if bool_decide (action = "demote")
                  then let! u := transaction (
                         let! u := UpdateWithTx "" id user false in
                         do! ClearUserAuthorizationInTx id in ret u) in
                       do! ReloadPolicy in ret u
                  else Update "" id user false) in
    do! (if bool_decide (action = "disable") || bool_decide (action = "promote") || bool_decide (action = "demote")
         then do! ignore (invalidateUserCache id) in ignore (InvalidateUserTokensCache id)
         else ret tt) in
    recordManageAuditFor c id "user.manage" [AStr action; AStr (User_Username user); AInt id].

Definition AdminDisable2FA (c : Caller) (userId : Z) : GM unit :=
  let! target := GetUserById userId false in
  do! fail_if (negb (canManageTargetRole (caller_role c) (User_Role target)))
        (EText "无权操作同级或更高级用户的2FA设置") in
  do! DisableTwoFA userId in
  recordManageAuditFor c userId "user.2fa_disable" [].

(** ** The user's own account *)

Definition checkUpdatePassword (originalPassword newPassword : string) (userId : Z) : GM bool :=
  let! currentUser := GetUserById userId true in
  do! fail_if (negb (ValidatePasswordAndHash originalPassword (User_Password currentUser))
               && negb (bool_decide (User_Password currentUser = ""))) (EText "原密码错误") in
  ret (negb (bool_decide (newPassword = ""))).

(** The three shapes of the body of [UpdateSelf]: a value for the sidebar (a string or
    something else), a language, or the account's own fields. *)
Inductive SelfBody : Type :=
| SelfSidebar (value : option string)
| SelfLanguage (value : option string)
| SelfFields (b : option UserBody).

Definition UpdateSelf (c : Caller) (salt : string) (body : option SelfBody) : GM unit :=
  let! body := lift_option body invalid_params in
  let id := caller_id c in
  match body with
  | SelfSidebar v =>
      let! user := GetUserById id false in
      let s := GetSetting (User_Setting user) in
      map_err (λ _, EText "common.update_failed") (model_UpdateUserSetting id
        {| s with SidebarModules := default (SidebarModules s) v |})
  | SelfLanguage v =>
      let! user := GetUserById id false in
      let s := GetSetting (User_Setting user) in
      map_err (λ _, EText "common.update_failed") (model_UpdateUserSetting id
        {| s with Language := default (Language s) v |})
  | SelfFields b =>
      let! b := lift_option b invalid_params in
      let u := body_user b in
      let password := if bool_decide (User_Password u = "") then placeholder else User_Password u in
      do! fail_if (negb (Validate_Struct {| u with User_Password := password |})) (EText "common.invalid_input") in
      let password := if bool_decide (password = placeholder) then "" else password in
      let cleanUser := {| zeroUser with User_Username := User_Username u; User_Password := password;
                                        User_DisplayName := User_DisplayName u |} in
      let! updatePassword := checkUpdatePassword (body_OriginalPassword b) password id in
      do! Update salt id cleanUser updatePassword in ret tt
  end.

(** [DeleteSelf] drops the error of the query; without an id there is no struct. *)
Definition DeleteSelf (c : Caller) : GM unit :=
  let id := caller_id c in
  do! fail_if (id =? 0) (EText "panic: nil pointer dereference") in
  let! r := attempt (GetUserById id false) in
  let role := match r with Ok u => User_Role u | Err _ => RoleGuestUser end in
  do! fail_if (role =? RoleRootUser) (EText "user.cannot_delete_root_user") in
  DeleteUserById id.

(** [GenerateAccessToken]: the query for a duplicate carries the struct's own id, so
    it only looks at the caller's row. *)
Definition GenerateAccessToken (c : Caller) (key : string) : GM string :=
  let id := caller_id c in
  let! user := GetUserById id true in
  let user := {| user with User_AccessToken := Some key |} in
  let! r := attempt (first (λ w, first_user (λ id' u,
    (id' =? id) && bool_decide (User_AccessToken u = Some key)) (users_of w))) in
  do! fail_if (is_ok r) (EText "common.uuid_duplicate") in
  do! Update "" id user false in
  ret key.

Definition GetAffCode (c : Caller) (affCode : string) : GM string :=
  let id := caller_id c in
  let! user := GetUserById id true in
  if bool_decide (User_AffCode user = "")
  then let! u := Update "" id {| user with User_AffCode := affCode |} false in ret (User_AffCode u)
  else ret (User_AffCode user).

(** [EmailBind]; the id is the session's. *)
Definition EmailBind (sessionId : Z) (email code : string) : GM unit :=
  let! ok := VerifyCodeWithKey email code EmailVerificationPurpose in
  do! fail_if (negb ok) (EText "user.verification_code_error") in
  let! user := FillUserById sessionId in
  do! Update "" sessionId (set_User_Email email user) false in ret tt.

(** [UpdateUserSettingRequest] and the checks of its addresses ([url.ParseRequestURI]
    is an argument). *)
Record SettingRequest : Type := mkSettingRequest {
  req_Type : string;
  req_Threshold : float64;
  req_WebhookUrl : string;
  req_WebhookSecret : string;
  req_NotificationEmail : string;
  req_BarkUrl : string;
  req_GotifyUrl : string;
  req_GotifyToken : string;
  req_GotifyPriority : Z;
  req_UpstreamModelUpdateNotifyEnabled : option bool;
  req_AcceptUnsetModelRatioModel : bool;
  req_RecordIpLog : bool;
}.

Definition is_http (url : string) : bool := HasPrefix url "https://" || HasPrefix url "http://".

Definition check_setting (ParseRequestURI : string -> bool) (r : SettingRequest) : GM unit :=
  let t := req_Type r in
  do! fail_if (negb (bool_decide (t ∈ ["email"; "webhook"; "bark"; "gotify"]))) (EText "setting.invalid_type") in
  do! fail_if (fleb (req_Threshold r) fzero) (EText "quota.threshold_gt_zero") in
  do! (if bool_decide (t = "webhook")
       then do! fail_if (bool_decide (req_WebhookUrl r = "")) (EText "setting.webhook_empty") in
            fail_if (negb (ParseRequestURI (req_WebhookUrl r))) (EText "setting.webhook_invalid")
       else ret tt) in
  do! fail_if (bool_decide (t = "email") && negb (bool_decide (req_NotificationEmail r = ""))
               && negb (Contains (req_NotificationEmail r) "@")) (EText "setting.email_invalid") in
  do! (if bool_decide (t = "bark")
       then do! fail_if (bool_decide (req_BarkUrl r = "")) (EText "setting.bark_url_empty") in
            do! fail_if (negb (ParseRequestURI (req_BarkUrl r))) (EText "setting.bark_url_invalid") in
            fail_if (negb (is_http (req_BarkUrl r))) (EText "setting.url_must_http")
       else ret tt) in
  if bool_decide (t = "gotify")
  then do! fail_if (bool_decide (req_GotifyUrl r = "")) (EText "setting.gotify_url_empty") in
       do! fail_if (bool_decide (req_GotifyToken r = "")) (EText "setting.gotify_token_empty") in
       do! fail_if (negb (ParseRequestURI (req_GotifyUrl r))) (EText "setting.gotify_url_invalid") in
       fail_if (negb (is_http (req_GotifyUrl r))) (EText "setting.url_must_http")
  else ret tt.

(** The settings the handler builds: a new struct, not the old one changed. *)
Definition build_setting (r : SettingRequest) (notify : bool) : UserSetting :=
  let t := req_Type r in
  let on s b := if b : bool then s else "" in
  mkUserSetting t (req_Threshold r)
    (on (req_WebhookUrl r) (bool_decide (t = "webhook")))
    (on (req_WebhookSecret r) (bool_decide (t = "webhook")))
    (on (req_NotificationEmail r) (bool_decide (t = "email")))
    (on (req_BarkUrl r) (bool_decide (t = "bark")))
    (on (req_GotifyUrl r) (bool_decide (t = "gotify")))
    (on (req_GotifyToken r) (bool_decide (t = "gotify")))
    (if bool_decide (t = "gotify")
     then if (req_GotifyPriority r <? 0) || (10 <? req_GotifyPriority r) then 5 else req_GotifyPriority r
     else 0)
    notify (req_AcceptUnsetModelRatioModel r) (req_RecordIpLog r) "" "" "".

Definition UpdateUserSetting (ParseRequestURI : string -> bool) (c : Caller) (body : option SettingRequest) : GM unit :=
  let! r := lift_option body invalid_params in
  do! check_setting ParseRequestURI r in
  let! user := GetUserById (caller_id c) true in
  let existing := GetSetting (User_Setting user) in
  let notify :=
    if RoleAdminUser <=? User_Role user
    then default (Accounts.UpstreamModelUpdateNotifyEnabled existing) (req_UpstreamModelUpdateNotifyEnabled r)
    else Accounts.UpstreamModelUpdateNotifyEnabled existing in
  map_err (λ _, EText "common.update_failed")
    (model_UpdateUserSetting (caller_id c) (build_setting r notify)).

(** ** Registration and password reset *)

Record RegisterDraw : Type := mkRegisterDraw { draw_salt : string; draw_affCode : string; draw_key : result string }.

(** [token.Insert]: the key is unique over deleted rows too; the status defaults to 1. *)
Definition insert_token (t : Token) : GM unit :=
  create (λ w, existsb (λ t', bool_decide (Token_Key t' = Token_Key t))
      (map_to_list (Tables_tokens (World_db w) ∪ Tables_deleted_tokens (World_db w))).*2)
    (λ w, (tt, on_db (λ db,
      let id := Tables_next_token db in
      set_Tables_next_token (id + 1) (set_Tables_tokens (<[id := {| t with Token_Id := id;
        Token_Status := if Token_Status t =? 0 then TokenStatusEnabled else Token_Status t |}]> (Tables_tokens db)) db)) w)).

Definition default_token (userId : Z) (username key : string) (now : Z) : Token :=
  mkToken 0 userId key 0 now (-1) 500000 true 0 (username +:+ "的初始令牌") now false "" None
    (if DefaultUseAutoGroup then "auto" else "") false.

Definition Register (d : RegisterDraw) (body : option UserBody) : GM unit :=
  do! fail_if (negb RegisterEnabled) (EText "user.register_disabled") in
  do! fail_if (negb PasswordRegisterEnabled) (EText "user.password_register_disabled") in
  let! b := lift_option body invalid_params in
  let u := set_User_Username (TrimSpace (User_Username (body_user b))) (body_user b) in
  do! fail_if (bool_decide (User_Username u = "")) invalid_params in
  do! fail_if (negb (Validate_Struct u)) (EText "user.input_invalid") in
  do! (if EmailVerificationEnabled
       then do! fail_if (bool_decide (User_Email u = "") || bool_decide (body_VerificationCode b = ""))
                  (EText "user.email_verification_required") in
            let! ok := VerifyCodeWithKey (User_Email u) (body_VerificationCode b) EmailVerificationPurpose in
            fail_if (negb ok) (EText "user.verification_code_error")
       else ret tt) in
  let! exists_ := map_err (λ _, EText "common.database_error")
                  (CheckUserExistOrDeleted (User_Username u) (User_Email u)) in
  do! fail_if exists_ (EText "user.exists") in
  let! inviter := attempt (GetUserIdByAffCode (User_AffCode u)) in
  let inviterId := match inviter with Ok id => id | Err _ => 0 end in
  let cleanUser := {| zeroUser with
    User_Username := User_Username u; User_Password := User_Password u;
    User_DisplayName := User_Username u; User_InviterId := inviterId; User_Role := RoleCommonUser;
    User_Email := if EmailVerificationEnabled then User_Email u else "" |} in
  do! User_Insert (draw_salt d) (draw_affCode d) cleanUser inviterId in
  let! inserted := map_err (λ _, EText "user.register_failed") (first (by_username (User_Username u))) in
  if GenerateDefaultToken
  then
    let! key := map_err (λ _, EText "user.default_token_failed") (lift_result (draw_key d)) in
    let! now := GetTimestamp in
    map_err (λ _, EText "user.create_default_token_error")
      (insert_token (default_token inserted.1 (User_Username u) key now))
  else ret tt.

(** [SendPasswordResetEmail] up to the mail; the validator's verdict on the address and
    the code are arguments.  [SendEmailVerification] from its check for a taken address on. *)
Definition SendPasswordResetEmail (valid_email : bool) (email code : string) : GM unit :=
  do! fail_if (negb valid_email) (EText "无效的参数") in
  let! taken := IsEmailAlreadyTaken email in
  if taken : bool then RegisterVerificationCodeWithKey email code PasswordResetPurpose else ret tt.

Definition SendEmailVerification (domains : option (list string)) (alias_restricted valid_email : bool)
    (email code : string) : GM unit :=
  do! fail_if (negb valid_email) (EText "无效的参数") in
  match Split email "@" with
  | [localPart; domainPart] =>
      do! (match domains with
           | None => ret tt
           | Some l => fail_if (negb (bool_decide (domainPart ∈ l))) (EText "email domain not in the whitelist")
           end) in
      do! fail_if (alias_restricted && (Contains localPart "+" || Contains localPart "."))
            (EText "管理员已启用邮箱地址别名限制，您的邮箱地址由于包含特殊符号而被拒绝。") in
      let! taken := IsEmailAlreadyTaken email in
      do! fail_if taken (EText "邮箱地址已被占用") in
      RegisterVerificationCodeWithKey email code EmailVerificationPurpose
  | _ => fail (EText "无效的邮箱地址")
  end.

Definition ResetPassword (salt password email token : string) : GM string :=
  do! fail_if (bool_decide (email = "") || bool_decide (token = "")) (EText "无效的参数") in
  let! ok := VerifyCodeWithKey email token PasswordResetPurpose in
  do! fail_if (negb ok) (EText "重置链接非法或已过期") in
  do! ResetUserPasswordByEmail salt email password in
  do! DeleteKey email PasswordResetPurpose in
  ret password.

End api.
