(* ===== verification/Login.v ===== *)
(** * Login: sessions and the authentication of requests

    Models [Login], [setupLogin] and [Logout] of [controller/user.go],
    [Verify2FALogin] of [controller/twofa.go] and the middlewares of
    [middleware/auth.go]: [authHelper] behind [UserAuth], [AdminAuth] and [RootAuth],
    [RequirePermission], and [TokenAuth] with [SetupContextForToken] for requests that
    carry an API token.  The session is the content of the caller's cookie; saving it
    can fail.  Parsing of addresses ([net]) and the tables of groups are parameters. *)

From Stdlib Require Import Ascii.
From S2P Require Export UserApi.
From S2P Require Import Prelude.

(** The session's values; an absent key is [None]. *)
Record WebSession : Type := mkWebSession {
  sess_id : option Z;
  sess_username : option string;
  sess_role : option Z;
  sess_status : option Z;
  sess_group : option string;
  sess_pending_username : option string;
  sess_pending_user_id : option Z;
}.
Definition emptyWebSession : WebSession := mkWebSession None None None None None None None.

(** [session.Save] writes the cookie; it may fail. *)
Definition session_save : GM unit := update id.

Section login.
Context {CFG : Config} {ID : Identity} {SITE : Site} {TP : Totp} {CB : Casbin}.

Definition LogTypeLogin : Z := 7.
Definition RecordLoginLog (userId : Z) (username format : string) (args : list Arg) (ip : string)
    (other : list (string * string)) : GM unit :=
  let! now := GetTimestamp in
  ignore (createLog (mkLog userId username now LogTypeLogin format args ip other)).

(** [loginMethodFromContext] of the route and its [provider]. *)
Definition loginMethodFromContext (FullPath provider : string) : string :=
  if bool_decide (FullPath = "/api/user/login") then "password"
  else if bool_decide (FullPath = "/api/user/login/2fa") then "2fa"
  else if bool_decide (FullPath = "/api/user/passkey/login/finish") then "passkey"
  else if bool_decide (FullPath = "/api/oauth/wechat") then "wechat"
  else if bool_decide (FullPath = "/api/oauth/telegram/login") then "telegram"
  else if bool_decide (FullPath = "/api/oauth/:provider")
       then if bool_decide (provider = "") then "oauth" else "oauth:" +:+ provider
  else "unknown".

(** The user agent is left out of the entry. *)
Definition recordLoginAudit (id : Z) (username FullPath ip : string) : GM unit :=
  let method := loginMethodFromContext FullPath "" in
  RecordLoginLog id username "Logged in successfully via %s" [AStr method] ip
    [("action", "login"); ("method", method); ("login_method", method)].

(** [setupLogin]: the session that is sent back. *)
Definition setupLogin (s : WebSession) (path ip : string) (id : Z) (user : User) : GM WebSession :=
  do! UpdateUserLastLoginAt id in
  let s := mkWebSession (Some id) (Some (User_Username user)) (Some (User_Role user))
             (Some (User_Status user)) (Some (User_Group user))
             (sess_pending_username s) (sess_pending_user_id s) in
  do! map_err (λ _, EText "user.session_save_failed") session_save in
  do! recordLoginAudit id (User_Username user) path ip in
  ret s.

Definition Login (s : WebSession) (ip : string) (body : option (string * string)) : GM WebSession :=
  do! fail_if (negb PasswordLoginEnabled) (EText "user.password_login_disabled") in
  let! b := lift_option body invalid_params in
  let '(username, password) := b in
  do! fail_if (bool_decide (username = "") || bool_decide (password = "")) invalid_params in
  let! found := ValidateAndFill username password in
  let '(id, user) := found in
  let! twofa := IsTwoFAEnabled id in
  if twofa : bool
  then
    let s := {| s with sess_pending_username := Some (User_Username user); sess_pending_user_id := Some id |} in
    do! map_err (λ _, EText "user.session_save_failed") session_save in
    ret s
  else setupLogin s "/api/user/login" ip id user.

Definition Verify2FALogin (s : WebSession) (ip : string) (code : string) : GM WebSession :=
  let! userId := lift_option (sess_pending_user_id s) (EText "会话已过期，请重新登录") in
  let! user := map_err (λ _, EText "用户不存在") (GetUserById userId false) in
  let! t := enabled_twofa userId in
  do! verify_code t code in
  let s := {| s with sess_pending_username := None; sess_pending_user_id := None |} in
  do! ignore session_save in
  setupLogin s "/api/user/login/2fa" ip userId user.

Definition Logout (s : WebSession) : GM WebSession :=
  do! session_save in ret emptyWebSession.

(** ** WebSession and access token ([authHelper]) *)

Definition validUserInfo (username : string) (role : Z) : bool :=
  negb (bool_decide (TrimSpace username = "")) && IsValidateRole role.

(** The identity a request claims: the session's, else the access token's owner. *)
Definition identify (s : WebSession) (authorization : string) : GM (string * option Z * option Z * option Z * bool) :=
  match sess_username s with
  | Some username =>
      ret (username, sess_role s, sess_id s, sess_status s, false)
  | None =>
      do! fail_if (bool_decide (authorization = "")) (EText "auth.not_logged_in") in
      let! r := ValidateAccessToken authorization in
      match r with
      | Some (id, user) =>
          if bool_decide (User_Username user = "") then fail (EText "auth.access_token_invalid")
          else
            do! fail_if (negb (validUserInfo (User_Username user) (User_Role user))) (EText "auth.user_info_invalid") in
            ret (User_Username user, Some (User_Role user), Some id, Some (User_Status user), true)
      | None => fail (EText "auth.access_token_invalid")
      end
  end.

(** [status.(int)] of an absent value *)
Definition bad_assertion : error := EText "panic: interface conversion".

Definition authHelper (s : WebSession) (authorization apiUser ip : string) (minRole : Z) : GM Caller :=
  let! who := identify s authorization in
  let '(username, role, id, status, useAccessToken) := who in
  do! fail_if (bool_decide (apiUser = "")) (EText "auth.user_id_not_provided") in
  let! apiUserId := lift_option (Atoi apiUser) (EText "auth.user_id_format_error") in
  do! fail_if (negb (bool_decide (id = Some apiUserId))) (EText "auth.user_id_mismatch") in
  let! status := lift_option status bad_assertion in
  do! fail_if (status =? UserStatusDisabled) (EText "auth.user_banned") in
  let! role := lift_option role bad_assertion in
  do! fail_if (role <? minRole) (EText "auth.insufficient_privilege") in
  do! fail_if (negb (validUserInfo username role)) (EText "auth.user_info_invalid") in
  ret (mkCaller apiUserId username role useAccessToken ip).

Definition UserAuth (s : WebSession) (authorization apiUser ip : string) : GM Caller :=
  authHelper s authorization apiUser ip RoleCommonUser.
Definition AdminAuth (s : WebSession) (authorization apiUser ip : string) : GM Caller :=
  authHelper s authorization apiUser ip RoleAdminUser.
Definition RootAuth (s : WebSession) (authorization apiUser ip : string) : GM Caller :=
  authHelper s authorization apiUser ip RoleRootUser.

Definition RequirePermission (c : Caller) (p : Permission) : GM unit :=
  let! e := currentEnforcer in
  fail_if (negb (Can e (caller_id c) (caller_role c) p)) (EText "auth.insufficient_privilege").

End login.

(** ** API tokens ([TokenAuth]) *)

(** [net.ParseIP] and [net.ParseCIDR] with [Contains]; the groups a user may use and the
    groups that have a ratio. *)
Class Gateway := {
  IP : Type;
  ParseIP : string -> option IP;
  ip_equal : IP -> IP -> bool;
  ParseCIDR : string -> option (IP -> bool);
  GetUserUsableGroups : string -> list string;
  ContainsGroupRatio : string -> bool;
}.

Record Request : Type := mkRequest {
  rq_Authorization : string;
  rq_WebSocketProtocol : string;
  rq_Path : string;
  rq_XApiKey : string;
  rq_QueryKey : string;
  rq_XGoogApiKey : string;
  rq_MjApiSecret : string;
  rq_ClientIP : string;
}.

(** What the later handlers read from the request's context. *)
Record TokenContext : Type := mkTokenContext {
  tc_token : Token;
  tc_user : UserBase;
  tc_group : string;
  tc_model_limits : option (list string);
  tc_specific_channel : option string;
}.

Section token.
Context {CFG : Config} {GW : Gateway}.

Definition newline : string := String (ascii_of_nat 10) "".

(** [Token.GetIpLimits] *)
Definition GetIpLimits (t : Token) : list string :=
  match Token_AllowIps t with
  | None => []
  | Some allow =>
      let clean := ReplaceAll allow " " "" in
      if bool_decide (clean = "") then []
      else List.filter (λ ip, negb (bool_decide (ip = "")))
             (map (λ ip, ReplaceAll (TrimSpace ip) "," "") (Split clean newline))
  end.

(** [Token.GetModelLimits]: the keys of the map. *)
Definition GetModelLimits (t : Token) : list string :=
  if bool_decide (Token_ModelLimits t = "") then [] else Split (Token_ModelLimits t) ",".

Definition IsIpInCIDRList (ip : IP) (cidrList : list string) : bool :=
  existsb (λ cidr, match ParseCIDR cidr with
                   | Some contains => contains ip
                   | None => match ParseIP cidr with Some x => ip_equal ip x | None => false end
                   end) cidrList.

Definition strip_bearer (key : string) : string :=
  if HasPrefix key "Bearer " || HasPrefix key "bearer " then TrimSpace (str_drop 7 key) else key.

(** The key inside [Sec-WebSocket-Protocol]. *)
Definition websocket_key (protocol : string) : string :=
  match List.find (λ part, HasPrefix part "openai-insecure-api-key") (map TrimSpace (Split protocol ",")) with
  | Some part => TrimPrefix part "openai-insecure-api-key."
  | None => protocol
  end.

(** The Authorization header after the other places a key may be in. *)
Definition effective_authorization (r : Request) : string :=
  let a := if bool_decide (rq_WebSocketProtocol r = "") then rq_Authorization r
           else "Bearer " +:+ websocket_key (rq_WebSocketProtocol r) in
  let a := if (Contains (rq_Path r) "/v1/messages" || Contains (rq_Path r) "/v1/models")
              && negb (bool_decide (rq_XApiKey r = "")) then "Bearer " +:+ rq_XApiKey r else a in
  if HasPrefix (rq_Path r) "/v1beta/models" || HasPrefix (rq_Path r) "/v1beta/openai/models"
     || HasPrefix (rq_Path r) "/v1/models/"
  then let a := if bool_decide (rq_QueryKey r = "") then a else "Bearer " +:+ rq_QueryKey r in
       if bool_decide (rq_XGoogApiKey r = "") then a else "Bearer " +:+ rq_XGoogApiKey r
  else a.

(** The parts of the key, split at dashes. *)
Definition key_parts (r : Request) : list string :=
  let key := strip_bearer (effective_authorization r) in
  let key := if bool_decide (key = "") || bool_decide (key = "midjourney-proxy")
             then strip_bearer (rq_MjApiSecret r) else key in
  Split (TrimPrefix key "sk-") "-".

Definition banned : error := EText "auth.user_banned".

(** [SetupContextForToken]: only an administrator may name a channel. *)
Definition SetupContextForToken (t : Token) (u : UserBase) (group : string) (parts : list string) : GM TokenContext :=
  let limits := if Token_ModelLimitsEnabled t then Some (GetModelLimits t) else None in
  match parts with
  | _ :: channel :: _ =>
      let! admin := IsAdmin (Token_UserId t) in
      if admin : bool then ret (mkTokenContext t u group limits (Some channel))
      else fail (EText "普通用户不支持指定渠道")
  | _ => ret (mkTokenContext t u group limits None)
  end.

Definition TokenAuth (r : Request) : GM TokenContext :=
  let parts := key_parts r in
  let! v := ValidateUserToken (hd "" parts) in
  match v with
  | (Some t, None) =>
      let allowIps := GetIpLimits t in
      do! (match allowIps with
           | [] => ret tt
           | _ => match ParseIP (rq_ClientIP r) with
                  | None => fail (EText "无法解析客户端 IP 地址")
                  | Some ip => fail_if (negb (IsIpInCIDRList ip allowIps)) (EText "您的 IP 不在令牌允许访问的列表中")
                  end
           end) in
      let! userCache := map_err (λ _, EText "common.database_error") (GetUserCache (Token_UserId t)) in
      do! fail_if (negb (UserBase_Status userCache =? UserStatusEnabled)) banned in
      let group := Token_Group t in
      do! (if bool_decide (group = "") then ret tt
           else
             do! fail_if (negb (bool_decide (group ∈ GetUserUsableGroups (UserBase_Group userCache))))
                   (EText ("无权访问 " +:+ group +:+ " 分组")) in
             fail_if (negb (ContainsGroupRatio group) && negb (bool_decide (group = "auto")))
               (EText ("分组 " +:+ group +:+ " 已被弃用"))) in
      SetupContextForToken t userCache (if bool_decide (group = "") then UserBase_Group userCache else group) parts
  | (_, Some e) => fail e
  | (None, None) => fail (EText "token is nil")
  end.

(** [TokenAuthReadOnly]: the token need not be enabled, the user must be. *)
Definition TokenAuthReadOnly (r : Request) : GM Token :=
  do! fail_if (bool_decide (rq_Authorization r = "")) (EText "token.not_provided") in
  let key := hd "" (Split (TrimPrefix (strip_bearer (rq_Authorization r)) "sk-") "-") in
  let! t := GetTokenByKey key false in
  let! userCache := map_err (λ _, EText "common.database_error") (GetUserCache (Token_UserId t)) in
  do! fail_if (negb (UserBase_Status userCache =? UserStatusEnabled)) banned in
  ret t.

(** [TokenOrUserAuth]: an enabled session's id, else the token. *)
Definition TokenOrUserAuth (s : WebSession) (r : Request) : GM (Z + TokenContext) :=
  match sess_id s, sess_status s with
  | Some id, Some status =>
      if status =? UserStatusEnabled then ret (inl id)
      else let! tc := TokenAuth r in ret (inr tc)
  | _, _ => let! tc := TokenAuth r in ret (inr tc)
  end.

End token.
