(* ===== verification/AccountProps.v ===== *)
(** * AccountProps: who may change which account

    The rows at or above a rank ([above]) are what a caller of that rank must not
    reach; [roots_ok] says the accounts of root stay what they are; [balances_of] is what
    the account handlers leave to the ledger.  Each is checked statement by statement
    with the rules of [Hoare], whatever statement fails; the two handlers that drop
    the error of a read need that read to succeed. *)

From S2P Require Export Hoare AuthzProps Login.
From S2P Require Import Prelude.

(** ** Rows found *)

Lemma elem_of_rows_by_id m x : x ∈ rows_by_id m <-> m !! x.1 = Some x.2.
Proof.
  unfold rows_by_id. rewrite merge_sort_Permutation. destruct x as [id u]. apply elem_of_map_to_list.
Qed.

Lemma first_user_found p m id u :
  first_user p m = Some (id, u) -> m !! id = Some u ∧ p id u = true.
Proof.
  unfold first_user. intros [Hin Hp]%find_some. apply list_elem_of_In, elem_of_rows_by_id in Hin. done.
Qed.

(** A row found without regard to deletion is the live one if there is one. *)
Lemma all_users_live w id u u0 :
  all_users w !! id = Some u -> user_row id w = Some u0 -> u = u0.
Proof.
  unfold all_users, users_of, user_row. intros H H0.
  apply lookup_union_Some_raw in H as [H|[H _]]; congruence.
Qed.

Lemma conflict_false id u w id' u' :
  conflict id u w = false -> users_of w !! id' = Some u' -> id' ≠ id -> User_Username u' ≠ User_Username u.
Proof.
  intros Hc Hu Hne Heq. unfold conflict in Hc.
  assert (all_users w !! id' = Some u') as Ha by (by apply lookup_union_Some_l).
  apply not_true_iff_false in Hc. destruct Hc. apply existsb_exists. exists (id', u'). split.
  - by apply list_elem_of_In, elem_of_map_to_list.
  - apply andb_true_iff. split; [apply negb_true_iff, Z.eqb_neq; done|].
    unfold clash. by rewrite bool_decide_true by done.
Qed.

(** ** Statements that leave the users table alone *)

(** An invariant that reads nothing but the users table. *)
Class UsersOnly (I : World -> Prop) := users_only : ∀ w w', users_of w = users_of w' -> I w -> I w'.

#[export] Instance users_only_stable I : UsersOnly I -> Stable I.
Proof.
  intros HU. split.
  - intros fs w H. by apply (users_only w).
  - intros w w1 H _. by apply (users_only w).
Qed.

Section frame.
Context {CFG : Config} {ID : Identity} {SITE : Site} {TP : Totp} {CB : Casbin}.
Context (I : World -> Prop) {UO : UsersOnly I}.

Lemma keeps_frame_update f : (∀ w, users_of (f w) = users_of w) -> keeps I (update f) anything.
Proof. intros H. apply keeps_update; [apply _|]. intros w Hw. by apply (users_only w). Qed.

Lemma keeps_frame_modify f : (∀ w, users_of (f w) = users_of w) -> keeps I (modify f) anything.
Proof. intros H. apply keeps_modify. intros w Hw. by apply (users_only w). Qed.

Lemma keeps_read {A} (f : World -> option A) : keeps I (first f) (λ a, ∃ w, I w ∧ f w = Some a).
Proof. apply keeps_first; [apply _|]. eauto. Qed.

Lemma keeps_read_any {A} (f : World -> option A) : keeps I (first f) anything.
Proof. eapply keeps_any, keeps_read. Qed.

Lemma keeps_select_any {A} (f : World -> A) : keeps I (select f) anything.
Proof. by apply keeps_select; [apply _|]. Qed.

Lemma keeps_go_any j : keeps I (go j) anything.
Proof. by apply keeps_frame_modify. Qed.

Lemma keeps_hash_if b salt u :
  keeps I (hash_if b salt u) (λ u', ∃ h, u' = {| u with User_Password := h |} ∧ (b = false -> u' = u)).
Proof.
  unfold hash_if. destruct b; [|by kapply keeps_ret; exists (User_Password u); destruct u].
  eapply keeps_bind; [kapply keeps_lift_result|]. intros h _. kapply keeps_ret. by exists h.
Qed.

End frame.

#[export] Hint Resolve keeps_select_any keeps_go_any keeps_read_any : keeps.

(** Walk; what is left are the statements on the users table. *)
Ltac frame_step :=
  first [ progress intros
        | keeps_step
        | apply keeps_go_any; [apply _]
        | apply keeps_select_any; [apply _]
        | apply keeps_frame_update; [apply _|by intros]
        | apply keeps_frame_modify; [apply _|by intros]
        | kapply keeps_for_each
        | progress case_match
        | exact Logic.I
        | done ].
Ltac frame := repeat frame_step.

(** ** Writing rows *)

(** What billing keeps in a row. *)
Definition balance (u : User) : Z * Z * Z := (User_Quota u, User_UsedQuota u, User_RequestCount u).

(** A change of the profile only. *)
Definition modest (f : User -> User) : Prop :=
  ∀ u, User_Role (f u) = User_Role u ∧ User_Status (f u) = User_Status u ∧ balance (f u) = balance u.

Definition allows (I : World -> Prop) (id : Z) (f : User -> User) : Prop :=
  ∀ w, I w -> I (on_db (upd_user id f) w).

Section handlers.
Context {CFG : Config} {ID : Identity} {SITE : Site} {TP : Totp} {CB : Casbin}.
Context (I : World -> Prop) {UO : UsersOnly I}.

Lemma keeps_upd_user id f : allows I id f -> keeps I (update (on_db (upd_user id f))) anything.
Proof. intros H. by apply keeps_update; [apply _|]. Qed.

Lemma keeps_write_user id f : allows I id f -> keeps I (write_user id f) anything.
Proof.
  intros H. apply keeps_exec; [apply _|]. intros w Hw.
  destruct (user_row id w); [|done]. destruct (conflict _ _ _); [done|]. split; [by apply H|done].
Qed.

Lemma frame_on_user_hash id f : keeps I (on_user_hash id f) anything.
Proof. unfold on_user_hash. frame. Qed.

Lemma keeps_updateUserCache id u : keeps I (updateUserCache id u) anything.
Proof.
  unfold updateUserCache, updateUserGroupCache, updateUserEmailCache, updateUserStatusCache,
    updateUserNameCache, updateUserSettingCache.
  destruct RedisEnabled; [|by kapply keeps_ret].
  repeat (eapply keeps_bind; [apply frame_on_user_hash|intros]). apply frame_on_user_hash.
Qed.

Lemma keeps_invalidateUserCache id : keeps I (invalidateUserCache id) anything.
Proof. unfold invalidateUserCache. frame. Qed.

Lemma keeps_delete_tokens_cache ts e : keeps I (delete_tokens_cache ts e) anything.
Proof.
  revert e. induction ts as [|t ts IH]; intros e; simpl; [frame|]. case_bool_decide; [apply IH|].
  eapply keeps_bind; [kapply keeps_attempt; unfold cacheDeleteToken; frame|]. intros. apply IH.
Qed.

Lemma keeps_InvalidateUserTokensCache id : keeps I (InvalidateUserTokensCache id) anything.
Proof.
  unfold InvalidateUserTokensCache. destruct (negb RedisEnabled); [by kapply keeps_ret|].
  eapply keeps_bind; [kapply keeps_fail_if|intros]. eapply keeps_bind; [by apply keeps_select_any|intros].
  apply keeps_delete_tokens_cache.
Qed.

Lemma keeps_GetUserById id all :
  keeps I (GetUserById id all) (λ u, ∃ w u0, I w ∧ user_row id w = Some u0 ∧
    u = (if all then u0 else omit_secrets u0)).
Proof.
  unfold GetUserById. eapply keeps_bind; [kapply keeps_fail_if|]. intros _ _.
  eapply keeps_mono; [by apply keeps_read|]. intros u (w & Hw & Hf).
  destruct all; [by exists w, u|]. destruct (user_row id w) as [u0|] eqn:E; [|done].
  exists w, u0. simplify_eq/=. done.
Qed.

Lemma frame_GetUserCache id : keeps I (GetUserCache id) anything.
Proof.
  unfold GetUserCache, cacheGetUserBase. eapply keeps_bind.
  { kapply keeps_attempt. destruct RedisEnabled; frame. }
  intros [b|e] _; [by kapply keeps_ret|]. eapply keeps_bind; [by apply keeps_GetUserById|]. intros. frame.
Qed.

Lemma frame_GetUsernameById id b : keeps I (GetUsernameById id b) anything.
Proof.
  unfold GetUsernameById, getUserNameCache. destruct (negb b && RedisEnabled).
  - eapply keeps_bind; [kapply keeps_attempt; eapply keeps_bind; [by apply frame_GetUserCache|intros; frame]|].
    intros [n|e] _; frame.
  - frame.
Qed.

Lemma keeps_createLog l : keeps I (createLog l) anything.
Proof. unfold createLog. frame. Qed.

Lemma frame_RecordLog id ty f args : keeps I (RecordLog id ty f args) anything.
Proof.
  unfold RecordLog. destruct (_ && _); [by kapply keeps_ret|].
  eapply keeps_bind; [kapply keeps_attempt; by apply frame_GetUsernameById|]. intros.
  eapply keeps_bind; [kapply keeps_GetTimestamp|]. intros. ekapply keeps_ignore. apply keeps_createLog.
Qed.

Lemma keeps_recordManageAuditFor c id action params : keeps I (recordManageAuditFor c id action params) anything.
Proof.
  unfold recordManageAuditFor, RecordOperationAuditLog.
  eapply keeps_bind; [kapply keeps_attempt; by apply frame_GetUsernameById|]. intros.
  eapply keeps_bind; [kapply keeps_GetTimestamp|]. intros. ekapply keeps_ignore. apply keeps_createLog.
Qed.

Lemma keeps_ReloadPolicy : keeps I ReloadPolicy anything.
Proof.
  unfold ReloadPolicy, LoadPolicy, currentEnforcer, set_policy.
  eapply keeps_bind; [by apply (keeps_gets I _ anything)|]. intros. frame.
Qed.

Lemma keeps_ClearUserAuthorizationInTx id : keeps I (ClearUserAuthorizationInTx id) anything.
Proof. unfold ClearUserAuthorizationInTx, ClearUserPermissionsInTx. frame. Qed.

Lemma keeps_SetUserPermissionsInTx id perms : keeps I (SetUserPermissionsInTx id perms) anything.
Proof.
  unfold SetUserPermissionsInTx, currentEnforcer.
  eapply keeps_bind; [by apply (keeps_gets I _ anything)|]. intros [m|] _; [|frame].
  kapply keeps_for_each. intros [resource actions]. frame.
Qed.

Lemma keeps_updateAdminPermissions c id role perms :
  keeps I (updateAdminPermissionsForUserInTx c id role perms) anything.
Proof.
  unfold updateAdminPermissionsForUserInTx.
  repeat case_match; first [kapply keeps_fail | by kapply keeps_ret |
    eapply keeps_bind; [apply keeps_ClearUserAuthorizationInTx || apply keeps_SetUserPermissionsInTx|];
    intros; by kapply keeps_ret].
Qed.

Lemma keeps_UpdateWithTx salt id u b :
  (∀ h, allows I id (nonzero_updates {| u with User_Password := h |})) ->
  keeps I (UpdateWithTx salt id u b) anything.
Proof.
  intros Ha. unfold UpdateWithTx. eapply keeps_bind; [by apply keeps_hash_if|]. intros u' (h & -> & _).
  eapply keeps_bind; [by apply keeps_read_any|intros]. eapply keeps_bind; [by apply keeps_write_user|intros].
  by apply keeps_read_any.
Qed.

Lemma keeps_Update salt id u b :
  (∀ h, allows I id (nonzero_updates {| u with User_Password := h |})) -> keeps I (Update salt id u b) anything.
Proof.
  intros Ha. unfold Update. eapply keeps_bind; [by apply keeps_UpdateWithTx|intros].
  eapply keeps_bind; [apply keeps_updateUserCache|intros]. by kapply keeps_ret.
Qed.

Lemma keeps_EditWithTx salt id u b :
  (∀ f, modest f -> allows I id f) -> keeps I (EditWithTx salt id u b) anything.
Proof.
  intros Ha. unfold EditWithTx. eapply keeps_bind; [by apply keeps_hash_if|]. intros u' (h & -> & _).
  eapply keeps_bind; [by apply keeps_read_any|intros].
  eapply keeps_bind; [apply keeps_write_user, Ha; by intros row|intros]. by apply keeps_read_any.
Qed.
End handlers.

(** ** The handlers, for any invariant that lets the caller touch the rows it manages *)

Definition quota_allowed (I : World -> Prop) (id : Z) : Prop :=
  (∀ v, allows I id (set_User_Quota v)) ∧ (∀ v, allows I id (λ u, set_User_Quota (User_Quota u + v) u)) ∧
  (∀ v, allows I id (λ u, set_User_Quota (User_Quota u - v) u)).

Section managing.
Context {CFG : Config} {ID : Identity} {SITE : Site} {TP : Totp} {CB : Casbin}.
Context (I : World -> Prop) {UO : UsersOnly I} (c : Caller).

Definition manages (P : Z -> Prop) : Prop :=
  ∀ id w u, I w -> user_row id w = Some u ->
    canManageTargetRole (caller_role c) (User_Role u) = true -> P id.

Lemma keeps_managed {A} id (k : User -> GM A) e P Q :
  manages P -> (∀ u, P id -> keeps I (k u) Q) ->
  keeps I (let! u := GetUserById id false in
           do! fail_if (negb (canManageTargetRole (caller_role c) (User_Role u))) e in k u) Q.
Proof.
  intros Hm Hk. eapply keeps_bind; [by apply keeps_GetUserById|]. intros u (w & u0 & Hw & Hr & ->).
  eapply keeps_bind; [kapply keeps_fail_if|]. intros ? Hc%negb_false_iff. by apply Hk, (Hm id w u0).
Qed.

Lemma keeps_UpdateUser salt body :
  manages (λ id, ∀ f, modest f -> allows I id f) -> keeps I (UpdateUser c salt body) anything.
Proof.
  intros Hm. unfold UpdateUser. eapply keeps_bind; [kapply keeps_lift_option|]. intros b _.
  do 3 (eapply keeps_bind; [kapply keeps_fail_if|intros]).
  eapply keeps_bind; [by apply keeps_GetUserById|]. intros u (w & u0 & Hw & Hr & ->).
  eapply keeps_bind; [kapply keeps_fail_if|intros]. eapply keeps_bind; [kapply keeps_fail_if|].
  intros ? Hc%negb_false_iff. pose proof (Hm _ _ _ Hw Hr Hc) as Ha.
  eapply keeps_bind.
  { kapply keeps_transaction. eapply keeps_bind; [by apply keeps_EditWithTx|intros].
    apply keeps_updateAdminPermissions; apply _. }
  intros touched _. eapply keeps_bind; [destruct touched; [by apply keeps_ReloadPolicy|by kapply keeps_ret]|intros].
  eapply keeps_bind; [ekapply keeps_ignore; by apply keeps_invalidateUserCache|intros].
  by apply keeps_recordManageAuditFor.
Qed.

Lemma modest_clear_column t f : clear_column t = Some f -> modest f.
Proof. unfold clear_column. intros H u. repeat case_match; by simplify_eq/=. Qed.

Lemma keeps_AdminClearUserBinding id t :
  manages (λ id, ∀ f, modest f -> allows I id f) -> keeps I (AdminClearUserBinding c id t) anything.
Proof.
  intros Hm. unfold AdminClearUserBinding. eapply keeps_bind; [kapply keeps_fail_if|intros].
  eapply keeps_managed; [exact Hm|]. intros u Ha. unfold ClearBinding. eapply keeps_bind.
  - eapply keeps_bind; [kapply keeps_fail_if|intros]. eapply keeps_bind; [kapply keeps_lift_option|].
    intros f Hf%modest_clear_column. eapply keeps_bind; [by apply keeps_upd_user, Ha|intros].
    eapply keeps_bind; [by apply keeps_read_any|intros]. by apply keeps_updateUserCache.
  - intros. by apply keeps_recordManageAuditFor.
Qed.

Lemma keeps_GetTwoFAByUserId u : keeps I (GetTwoFAByUserId u) anything.
Proof.
  unfold GetTwoFAByUserId. eapply keeps_bind; [kapply keeps_fail_if|intros].
  eapply keeps_bind; [kapply keeps_attempt; by apply keeps_read_any|intros]. frame.
Qed.

Lemma keeps_TwoFA_Delete t : keeps I (TwoFA_Delete t) anything.
Proof.
  unfold TwoFA_Delete. eapply keeps_bind; [kapply keeps_fail_if|intros].
  kapply keeps_transaction. eapply keeps_bind; [by apply keeps_frame_update|intros]. by apply keeps_frame_update.
Qed.

Lemma keeps_AdminDisable2FA id : keeps I (AdminDisable2FA c id) anything.
Proof.
  unfold AdminDisable2FA, DisableTwoFA. eapply (keeps_managed _ _ _ (λ _, True)); [done|]. intros u _.
  eapply keeps_bind; [|intros; by apply keeps_recordManageAuditFor].
  eapply keeps_bind; [by apply keeps_GetTwoFAByUserId|]. intros [t|] _; [by apply keeps_TwoFA_Delete|kapply keeps_fail].
Qed.

Lemma keeps_User_Delete id :
  (∀ w, I w -> I (on_db (soft_delete id) w)) -> keeps I (User_Delete id) anything.
Proof.
  intros Ha. unfold User_Delete. eapply keeps_bind; [kapply keeps_fail_if|intros].
  eapply keeps_bind; [by apply keeps_update; [apply _|]|intros]. by apply keeps_invalidateUserCache.
Qed.

Lemma keeps_HardDeleteUserById id :
  (∀ w, I w -> I (on_db (hard_delete id) w)) -> keeps I (HardDeleteUserById id) anything.
Proof.
  intros Ha. unfold HardDeleteUserById. eapply keeps_bind; [kapply keeps_fail_if|intros].
  kapply keeps_transaction. unfold deleteUserOAuthBindingsByUserId.
  eapply keeps_bind; [by apply keeps_frame_update|intros]. by apply keeps_update; [apply _|].
Qed.

Lemma keeps_DeleteUser id :
  (∀ w u, I w -> user_row id w = Some u -> User_Role u < caller_role c ->
     ∀ w, I w -> I (on_db (hard_delete id) w)) ->
  keeps I (DeleteUser c id) anything.
Proof.
  intros Ha. unfold DeleteUser. eapply keeps_bind; [by apply keeps_GetUserById|]. intros u (w & u0 & Hw & Hr & ->).
  eapply keeps_bind; [kapply keeps_fail_if|]. intros ? Hc.
  eapply keeps_bind; [apply keeps_HardDeleteUserById, (Ha w u0); [done..|simpl in Hc; lia]|intros].
  by apply keeps_recordManageAuditFor.
Qed.

Lemma keeps_add_quota id u req :
  (∀ v, allows I id (set_User_Quota v)) -> (∀ v, allows I id (λ u, set_User_Quota (User_Quota u + v) u)) ->
  (∀ v, allows I id (λ u, set_User_Quota (User_Quota u - v) u)) ->
  keeps I (add_quota c id u req) anything.
Proof.
  intros H1 H2 H3. unfold add_quota, IncreaseUserQuota, DecreaseUserQuota. simpl.
  repeat case_bool_decide; [..|kapply keeps_fail].
  - eapply keeps_bind; [kapply keeps_fail_if|intros]. eapply keeps_bind; [|intros; by apply keeps_recordManageAuditFor].
    eapply keeps_bind; [kapply keeps_fail_if|intros]. eapply keeps_bind; [by apply keeps_go_any|intros].
    by apply keeps_upd_user.
  - eapply keeps_bind; [kapply keeps_fail_if|intros]. eapply keeps_bind; [|intros; by apply keeps_recordManageAuditFor].
    eapply keeps_bind; [kapply keeps_fail_if|intros]. eapply keeps_bind; [by apply keeps_go_any|intros].
    by apply keeps_upd_user.
  - eapply keeps_bind; [by apply keeps_upd_user|intros]. by apply keeps_recordManageAuditFor.
Qed.

(** [ManageUser] once its target is loaded. *)
Lemma keeps_manage_rest req id user :
  (Manage_Action req = "add_quota" -> quota_allowed I id) ->
  keeps I (manage_user (caller_role c) (Manage_Action req) id user)
    (λ u', ∀ h, allows I id (nonzero_updates {| u' with User_Password := h |})) ->
  keeps I (if bool_decide (Manage_Action req = "add_quota") then add_quota c id user req
    else
      let! user := manage_user (caller_role c) (Manage_Action req) id user in
      let! user := (if bool_decide (Manage_Action req = "demote")
                    then let! u := transaction (
                           let! u := UpdateWithTx "" id user false in
                           do! ClearUserAuthorizationInTx id in ret u) in
                         do! ReloadPolicy in ret u
                    else Update "" id user false) in
      do! (if bool_decide (Manage_Action req = "disable") || bool_decide (Manage_Action req = "promote")
              || bool_decide (Manage_Action req = "demote")
           then do! ignore (invalidateUserCache id) in ignore (InvalidateUserTokensCache id)
           else ret tt) in
      recordManageAuditFor c id "user.manage" [AStr (Manage_Action req); AStr (User_Username user); AInt id]) anything.
Proof.
  intros Hq Hm. case_bool_decide as E; [destruct (Hq E) as (H1 & H2 & H3); by apply keeps_add_quota|].
  eapply keeps_bind; [exact Hm|]. intros u' Ha. eapply keeps_bind.
  { case_bool_decide; [|by apply keeps_Update]. eapply keeps_bind.
    - kapply keeps_transaction. eapply keeps_bind; [by apply keeps_UpdateWithTx|intros].
      eapply keeps_bind; [by apply keeps_ClearUserAuthorizationInTx|intros]. apply (keeps_ret I _ anything). done.
    - intros. eapply keeps_bind; [by apply keeps_ReloadPolicy|intros]. apply (keeps_ret I _ anything). done. }
  intros u2 _. eapply (keeps_bind I _ _ anything); [|intros; by apply keeps_recordManageAuditFor].
  destruct (_ || _); [|by kapply keeps_ret].
  eapply keeps_bind; [ekapply keeps_ignore; by apply keeps_invalidateUserCache|intros].
  ekapply keeps_ignore. by apply keeps_InvalidateUserTokensCache.
Qed.
End managing.

(** ** Rank *)

(** The accounts at or above a rank. *)
Definition above (r : Z) (w : World) : gmap Z User :=
  filter (λ p : Z * User, r <= User_Role p.2) (users_of w).

Definition keeps_above (r : Z) (A : gmap Z User) (w : World) : Prop := above r w = A.

#[export] Instance keeps_above_users r A : UsersOnly (keeps_above r A).
Proof. intros w w' H. unfold keeps_above, above. by rewrite H. Qed.

Lemma lookup_above r w id u : above r w !! id = Some u <-> user_row id w = Some u ∧ r <= User_Role u.
Proof. unfold above, users_of. rewrite map_lookup_filter_Some. done. Qed.

Lemma below r A w id u :
  keeps_above r A w -> A !! id = None -> user_row id w = Some u -> User_Role u < r.
Proof.
  intros Hw HA Hu. destruct (decide (r <= User_Role u)) as [Hr|]; [|lia].
  assert (above r w !! id = Some u) as H by (by apply lookup_above). rewrite Hw in H. congruence.
Qed.

(** A change of the table that touches only rows below the rank. *)
Lemma above_ext r A w w' id :
  keeps_above r A w -> A !! id = None ->
  (∀ id', id' ≠ id -> user_row id' w' = user_row id' w) ->
  (∀ u, user_row id w' = Some u -> User_Role u < r) -> keeps_above r A w'.
Proof.
  intros Hw HA Hne Hid. unfold keeps_above. rewrite <- Hw. apply map_eq. intros id'. apply option_eq. intros u.
  rewrite !lookup_above. destruct (decide (id' = id)) as [->|]; [|by rewrite Hne].
  split; intros [Hu Hr]; exfalso.
  - apply Hid in Hu. lia.
  - pose proof (below r A w id u Hw HA Hu). lia.
Qed.

Lemma user_row_upd id id' f w :
  user_row id' (on_db (upd_user id f) w) =
    if decide (id = id') then f <$> user_row id' w else user_row id' w.
Proof.
  unfold user_row. simpl. case_decide as E; [subst; by rewrite lookup_alter_eq|by rewrite lookup_alter_ne].
Qed.

Lemma allows_above r A id f :
  A !! id = None -> (∀ u, User_Role u < r -> User_Role (f u) < r) -> allows (keeps_above r A) id f.
Proof.
  intros HA Hf w Hw. apply (above_ext r A w _ id); [done..| |].
  - intros id' Hne. rewrite user_row_upd, decide_False by congruence. done.
  - intros u. rewrite user_row_upd, decide_True by done. intros (u0 & Hu & ->)%fmap_Some.
    by apply Hf, (below r A w id).
Qed.

Lemma above_hard_delete r A id w :
  A !! id = None -> keeps_above r A w -> keeps_above r A (on_db (hard_delete id) w).
Proof.
  intros HA Hw. apply (above_ext r A w _ id); [done..| |]; unfold user_row; simpl.
  - intros id' Hne. by rewrite lookup_delete_ne.
  - intros u. by rewrite lookup_delete_eq.
Qed.

Lemma above_soft_delete r A id w :
  A !! id = None -> keeps_above r A w -> keeps_above r A (on_db (soft_delete id) w).
Proof.
  intros HA Hw. unfold on_db, soft_delete. destruct (Tables_users (World_db w) !! id) eqn:E.
  - apply (above_ext r A w _ id); [done..| |]; unfold user_row; simpl.
    + intros id' Hne. by rewrite lookup_delete_ne.
    + intros u'. by rewrite lookup_delete_eq.
  - by apply (users_only w).
Qed.

Section rank.
Context {CFG : Config} {ID : Identity} {SITE : Site} {TP : Totp} {CB : Casbin}.
Context (c : Caller) (A : gmap Z User).
Abbreviation r := (caller_role c).
Context (Hadmin : RoleAdminUser <= r) (Hroot : r ≠ RoleRootUser).

Lemma manages_unprotected id w u :
  keeps_above r A w -> user_row id w = Some u -> canManageTargetRole r (User_Role u) = true -> A !! id = None.
Proof.
  intros Hw Hu Hc. destruct (A !! id) as [u'|] eqn:E; [|done]. rewrite <- Hw in E.
  apply lookup_above in E as [Hu' Hr]. unfold canManageTargetRole in Hc. simplify_eq. lia.
Qed.

Lemma manages_modest : manages (keeps_above r A) c (λ id, ∀ f, modest f -> allows (keeps_above r A) id f).
Proof.
  intros id w u Hw Hu Hc f Hf. apply allows_above; [by eapply manages_unprotected|].
  intros u' H. destruct (Hf u') as [-> _]. done.
Qed.

Lemma with_defaults_role u : User_Role u < r -> User_Role (with_defaults u) < r.
Proof. unfold with_defaults. simpl. case_match; unfold RoleCommonUser, RoleAdminUser in *; lia. Qed.

Definition fresh_name (u : User) : Prop := ∀ id' u', A !! id' = Some u' -> User_Username u' ≠ User_Username u.

Lemma keeps_create_user u :
  User_Role u < r ->
  keeps (keeps_above r A) (create_user u) (λ p, p.2 = with_defaults u ∧ fresh_name p.2).
Proof.
  intros Hr. apply keeps_create; [apply _|]. intros w Hw [Hid Hc]%orb_false_iff. simpl.
  apply bool_decide_eq_false in Hid. rewrite <- eq_None_not_Some in Hid.
  apply lookup_union_None in Hid as [Hid _]. set (nid := Tables_next_user (World_db w)) in *.
  assert (A !! nid = None) as HA.
  { rewrite <- Hw. apply eq_None_not_Some. intros [u' [Hu _]%lookup_above]. unfold users_of, user_row in *. congruence. }
  split; [|split; [done|]].
  - apply (above_ext r A w _ nid); [done..| |]; unfold user_row; simpl.
    + intros id' Hne. by rewrite lookup_insert_ne.
    + intros u'. rewrite lookup_insert_eq. intros [= <-]. by apply with_defaults_role.
  - intros id' u' HA'. rewrite <- Hw in HA'. apply lookup_above in HA' as [Hu' _].
    eapply conflict_false; [exact Hc|exact Hu'|]. intros ->. unfold users_of, user_row in *. congruence.
Qed.

Lemma nonzero_updates_role new u : User_Role (nonzero_updates new u) = nz (User_Role new) (User_Role u).
Proof. done. Qed.

Lemma allows_update id u h :
  A !! id = None -> User_Role u < r -> allows (keeps_above r A) id (nonzero_updates {| u with User_Password := h |}).
Proof.
  intros HA Hu. apply allows_above; [done|]. intros u' H'. rewrite nonzero_updates_role. simpl.
  unfold nz. case_match; lia.
Qed.

Lemma role_SetSetting s u : User_Role (SetSetting s u) = User_Role u.
Proof. unfold SetSetting. by case_match. Qed.

Lemma keeps_init_sidebar name :
  (∀ id' u', A !! id' = Some u' -> User_Username u' ≠ name) ->
  keeps (keeps_above r A) (init_sidebar (by_username name)) anything.
Proof.
  intros Hf. unfold init_sidebar. eapply keeps_bind; [apply keeps_attempt, keeps_read; apply _|].
  intros [[cid created]|e] Hc; [|by kapply keeps_ret]. simpl in Hc. destruct Hc as (w & Hw & Hfound).
  apply first_user_found in Hfound as [Hrow Hname]. apply bool_decide_eq_true in Hname.
  assert (A !! cid = None) as HA.
  { apply eq_None_not_Some. intros [u' Hu']. pose proof Hu' as Hu''. rewrite <- Hw in Hu''.
    apply lookup_above in Hu'' as [Hrow' _]. unfold user_row, users_of in *. simplify_eq. by apply (Hf cid created). }
  case_bool_decide; [by kapply keeps_ret|]. ekapply keeps_ignore. apply keeps_Update; [apply _|].
  intros h. apply allows_update; [done|]. rewrite role_SetSetting. by eapply below.
Qed.

Lemma keeps_registration_rewards_zero id : keeps (keeps_above r A) (registration_rewards id 0) anything.
Proof.
  unfold registration_rewards. eapply (keeps_bind _ _ _ anything).
  - destruct (0 <? QuotaForNewUser); [by apply frame_RecordLog; apply _|by kapply keeps_ret].
  - intros. simpl. by kapply keeps_ret.
Qed.

Lemma keeps_new_user salt aff u :
  keeps (keeps_above r A) (new_user salt aff u) (λ u', User_Role u' = User_Role u ∧ User_Username u' = User_Username u).
Proof.
  unfold new_user. eapply keeps_bind; [by apply keeps_hash_if; apply _|]. intros u' (h & -> & _).
  kapply keeps_ret. unfold SetSetting. by repeat case_match.
Qed.

Lemma keeps_CreateUser salt aff body : keeps (keeps_above r A) (CreateUser c salt aff body) anything.
Proof.
  unfold CreateUser. eapply keeps_bind; [kapply keeps_lift_option|]. intros b _. cbn zeta.
  do 2 (eapply keeps_bind; [kapply keeps_fail_if|intros]). eapply keeps_bind; [kapply keeps_fail_if|]. intros ? Hr.
  eapply (keeps_bind _ _ _ (λ p, fresh_name p.1.2)).
  - kapply keeps_transaction. eapply (keeps_bind _ _ _ (λ p, fresh_name p.2)).
    + eapply keeps_bind; [apply keeps_new_user|]. intros u [Hu _]. eapply keeps_mono; [apply keeps_create_user|].
      * simpl in Hr, Hu. rewrite Hu. lia.
      * intros p [_ ?]. done.
    + intros p Hp. eapply keeps_bind; [by apply keeps_updateAdminPermissions; apply _|]. intros. by kapply keeps_ret.
  - intros [[id created] touched] Hf. simpl in Hf.
    eapply (keeps_bind _ _ _ anything); [destruct touched; [by apply keeps_ReloadPolicy; apply _|by kapply keeps_ret]|intros].
    eapply (keeps_bind _ _ _ anything); [|intros; by apply keeps_recordManageAuditFor; apply _].
    unfold finishInsert. eapply keeps_bind; [by apply keeps_init_sidebar|intros].
    apply keeps_registration_rewards_zero.
Qed.
End rank.

(** ** [ManageUser] *)

(** The next statement reaches the database. *)
Definition reads_ok (w : World) : Prop :=
  match World_faults w with Some _ :: _ => False | _ => True end.

Lemma no_faults_reads_ok w : no_faults w -> reads_ok w.
Proof. unfold no_faults, reads_ok. by intros ->. Qed.

(** The target as read, or the bare id when there is no such row. *)
Definition loaded (w : World) (id : Z) (user : User) : Prop :=
  all_users w !! id = Some user ∨ all_users w !! id = None ∧ user = zeroUser.

Lemma first_user_none p m id u : first_user p m = None -> m !! id = Some u -> p id u = false.
Proof.
  intros Hn Hu. unfold first_user in Hn. pose proof (find_none _ _ Hn (id, u)) as H. apply H.
  by apply list_elem_of_In, elem_of_rows_by_id.
Qed.

Lemma wp_load_target id Q w :
  reads_ok w ->
  (∀ fs id' user, loaded w id' user ∨ id' = 0 -> Q (Ok (id', user)) (set_World_faults fs w)) ->
  wp (load_target id) Q w.
Proof.
  intros Hr HQ. unfold load_target.
  set (f := λ w, first_user (λ id' _, (id =? 0) || (id' =? id)) (all_users w)).
  assert (∃ fs, first f w = (match f w with Some a => Ok a | None => Err ERecordNotFound end, set_World_faults fs w))
    as [fs Hf].
  { unfold first, exec. simpl. unfold reads_ok in Hr. destruct (World_faults w) as [|[msg|] fs] eqn:E; [|done|].
    - exists []. rewrite <- E. destruct w; simpl in *. by destruct (f _).
    - exists fs. change (f (set_World_faults fs w)) with (f w). by destruct (f w). }
  unfold wp, bind, attempt. rewrite Hf. simpl. destruct (f w) as [[id' user]|] eqn:E; simpl; apply HQ; subst f.
  - left. left. by apply first_user_found in E as [? _].
  - destruct (decide (id = 0)); [by right|]. left. right. split; [|done].
    destruct (all_users w !! id) as [u|] eqn:Eu; [|done]. apply (first_user_none _ _ _ _ E) in Eu. lia.
Qed.

Lemma wp_ManageUser {CFG : Config} {ID : Identity} {CB : Casbin} (I : World -> Prop) {UO : UsersOnly I} c body w :
  reads_ok w -> I w ->
  (∀ id user, loaded w id user -> canManageTargetRole (caller_role c) (User_Role user) = true ->
     quota_allowed I id ∧
     ∀ action, keeps I (manage_user (caller_role c) action id user)
       (λ u', ∀ h, allows I id (nonzero_updates {| u' with User_Password := h |}))) ->
  wp (ManageUser c body) (λ _ w', I w') w.
Proof.
  intros Hr Hw Hm. unfold ManageUser. apply wp_bind. destruct body as [req|]; [|done].
  apply wp_ret, wp_bind, wp_load_target; [done|]. intros fs id user Hl. cbn match.
  assert (I (set_World_faults fs w)) as Hw1 by (by apply (users_only w)).
  apply wp_bind, wp_fail_if; [done|]. intros Hid%Z.eqb_neq.
  apply wp_bind, wp_fail_if; [done|]. intros Hc%negb_false_iff.
  destruct Hl as [Hl|?]; [|done]. destruct (Hm id user Hl Hc) as [H1 H2].
  eapply wp_mono; [apply (keeps_manage_rest I c req id user (λ _, H1) (H2 _)); exact Hw1|]. by intros ? ? [? _].
Qed.

(** An invariant that bears the actions on every account needs no read to succeed. *)
Lemma keeps_ManageUser {CFG : Config} {ID : Identity} {CB : Casbin} (I : World -> Prop) {UO : UsersOnly I} c body :
  (∀ req, body = Some req -> Manage_Action req = "add_quota" -> ∀ id, quota_allowed I id) ->
  (∀ action id user, keeps I (manage_user (caller_role c) action id user)
     (λ u', ∀ h, allows I id (nonzero_updates {| u' with User_Password := h |}))) ->
  keeps I (ManageUser c body) anything.
Proof.
  intros Hq Hm. unfold ManageUser. eapply keeps_bind; [kapply keeps_lift_option|]. intros req Hb.
  eapply (keeps_bind _ _ _ anything).
  { unfold load_target. eapply keeps_bind; [kapply keeps_attempt; by apply keeps_read_any|intros]. by kapply keeps_ret. }
  intros [id user] _. do 2 (eapply keeps_bind; [kapply keeps_fail_if|intros]).
  apply keeps_manage_rest; [done| |done]. intros E. by apply (Hq req).
Qed.

Section rank_manage.
Context {CFG : Config} {ID : Identity} {SITE : Site} {TP : Totp} {CB : Casbin}.
Context (c : Caller) (A : gmap Z User).
Abbreviation r := (caller_role c).
Context (Hadmin : RoleAdminUser <= r) (Hroot : r ≠ RoleRootUser).

Lemma loaded_unprotected w id user :
  keeps_above r A w -> loaded w id user -> canManageTargetRole r (User_Role user) = true ->
  A !! id = None ∧ User_Role user < r.
Proof.
  intros Hw Hl Hc. assert (User_Role user < r) as Hu by (unfold canManageTargetRole in Hc; lia). split; [|done].
  apply eq_None_not_Some. intros [u' HA]. rewrite <- Hw in HA. apply lookup_above in HA as [Hrow Hr].
  destruct Hl as [Hl|[Hl _]].
  - apply (all_users_live _ _ _ _ Hl) in Hrow. subst. lia.
  - apply lookup_union_None in Hl as [Hl _]. unfold user_row, users_of in *. congruence.
Qed.

Lemma keeps_manage_user action id user :
  A !! id = None -> User_Role user < r ->
  keeps (keeps_above r A) (manage_user r action id user)
    (λ u', ∀ h, allows (keeps_above r A) id (nonzero_updates {| u' with User_Password := h |})).
Proof.
  intros HA Hu. unfold manage_user.
  assert (∀ u', User_Role u' < r -> ∀ h, allows (keeps_above r A) id (nonzero_updates {| u' with User_Password := h |}))
    as Hal by (intros; by apply allows_update).
  repeat case_bool_decide.
  - eapply keeps_bind; [kapply keeps_fail_if|intros]. by kapply keeps_ret; apply Hal.
  - by kapply keeps_ret; apply Hal.
  - eapply keeps_bind; [kapply keeps_fail_if|intros]. eapply keeps_bind.
    { apply keeps_User_Delete; [apply _|]. intros w Hw. by apply above_soft_delete. }
    intros. eapply keeps_bind; [ekapply keeps_ignore; apply keeps_InvalidateUserTokensCache; apply _|intros].
    by kapply keeps_ret; apply Hal.
  - eapply keeps_bind; [kapply keeps_fail_if|]. intros ? Hn%negb_false_iff. apply Z.eqb_eq in Hn. done.
  - do 2 (eapply keeps_bind; [kapply keeps_fail_if|intros]). kapply keeps_ret. apply Hal. simpl.
    unfold RoleCommonUser, RoleAdminUser in *. lia.
  - by kapply keeps_ret; apply Hal.
Qed.

Lemma wp_ManageUser_rank body w :
  reads_ok w -> keeps_above r A w -> wp (ManageUser c body) (λ _ w', keeps_above r A w') w.
Proof.
  intros Hr Hw. apply wp_ManageUser; [apply _|done..|]. intros id user Hl Hc.
  destruct (loaded_unprotected w id user Hw Hl Hc) as [HA Hu].
  split; [split_and!; intros; by apply allows_above|]. intros. by apply keeps_manage_user.
Qed.
End rank_manage.

(** ** Requests *)

(** The handlers behind [AdminAuth] that change accounts. *)
Inductive AdminRequest : Type :=
| RUpdate (salt : string) (body : option UserBody)
| RClearBinding (id : Z) (binding_type : string)
| RDelete (id : Z)
| RCreate (salt affCode : string) (body : option UserBody)
| RManage (body : option ManageRequest)
| RDisable2FA (id : Z).

(** The handlers behind [UserAuth] on the caller's own account, and those anyone reaches. *)
Inductive SelfRequest : Type :=
| SUpdate (c : Caller) (salt : string) (body : option SelfBody)
| SDelete (c : Caller)
| SAccessToken (c : Caller) (key : string)
| SAffCode (c : Caller) (affCode : string)
| SEmail (sessionId : Z) (email code : string)
| SSetting (uri : string -> bool) (c : Caller) (body : option SettingRequest)
| SRegister (d : RegisterDraw) (body : option UserBody)
| SReset (salt password email token : string)
| SLogin (s : WebSession) (ip : string) (body : option (string * string)).

Section requests.
Context {CFG : Config} {ID : Identity} {SITE : Site} {TP : Totp} {CB : Casbin}.

Definition serve_admin (c : Caller) (req : AdminRequest) : GM unit :=
  match req with
  | RUpdate salt body => UpdateUser c salt body
  | RClearBinding id t => AdminClearUserBinding c id t
  | RDelete id => DeleteUser c id
  | RCreate salt aff body => CreateUser c salt aff body
  | RManage body => ManageUser c body
  | RDisable2FA id => AdminDisable2FA c id
  end.

Definition serve_self (req : SelfRequest) : GM unit :=
  match req with
  | SUpdate c salt body => UpdateSelf c salt body
  | SDelete c => DeleteSelf c
  | SAccessToken c key => do! GenerateAccessToken c key in ret tt
  | SAffCode c aff => do! GetAffCode c aff in ret tt
  | SEmail id email code => EmailBind id email code
  | SSetting uri c body => UpdateUserSetting uri c body
  | SRegister d body => Register d body
  | SReset salt password email token => do! ResetPassword salt password email token in ret tt
  | SLogin s ip body => do! Login s ip body in ret tt
  end.

(** C15. Rank is respected by the six handlers of [serve_admin] (update, clear a
    binding, delete, create, manage, disable the second factor): whatever an
    administrator below root asks them for, valid or not, and whatever statement fails
    after the first, the accounts of the administrator's own rank and above are the same
    afterwards: none of them is changed or deleted, none is added, and nobody is raised
    to that rank. When the first statement fails this does not hold
    ([manage_failed_read_disables_root]); other requests of administrators that touch an
    account (binding a subscription, completing a top-up) are not among the six. *)
Theorem rank_respected c req w :
  RoleAdminUser <= caller_role c -> caller_role c ≠ RoleRootUser -> reads_ok w ->
  above (caller_role c) (serve_admin c req w).2 = above (caller_role c) w.
Proof.
  intros Ha Hr Hw. set (A := above (caller_role c) w).
  assert (∀ m : GM unit, keeps (keeps_above (caller_role c) A) m anything -> above (caller_role c) (m w).2 = A) as Hk.
  { intros m Hm. by apply (keeps_run _ m _ w Hm). }
  destruct req; simpl.
  - apply Hk, keeps_UpdateUser; [apply _|]. by apply manages_modest.
  - apply Hk, keeps_AdminClearUserBinding; [apply _|]. by apply manages_modest.
  - apply Hk, keeps_DeleteUser; [apply _|]. intros w1 u Hw1 Hu Hrole w2 Hw2.
    apply above_hard_delete; [|done]. eapply (manages_unprotected c A Hr); [exact Hw1|exact Hu|].
    unfold canManageTargetRole. lia.
  - apply Hk. by apply keeps_CreateUser.
  - by apply wp_ManageUser_rank.
  - apply Hk, keeps_AdminDisable2FA. apply _.
Qed.

End requests.
