(* ===== verification/RootProps.v ===== *)
(** * RootProps: what the handlers on accounts leave alone

    What the handlers on the caller's own account do to its row is one of three things: a
    change of profile columns, a struct without rank written over the row, or a row read
    and written back.  An invariant that bears those ([ProfileInv]) bears every one of the
    handlers.  Two such invariants: the balances stay as they were, and whatever requests
    administrators, users and visitors send, in whatever order, an enabled root account
    stays a live, enabled root account. *)

From S2P Require Export AccountProps.
From S2P Require Import Prelude.

Definition same_rank (new u : User) : Prop := User_Role new = User_Role u ∧ User_Status new = User_Status u.

Class ProfileInv (I : World -> Prop) := {
  pi_users :: UsersOnly I;
  pi_modest : ∀ id f, modest f -> allows I id f;
  pi_zero : ∀ id new, User_Role new = 0 -> User_Status new = 0 -> allows I id (nonzero_updates new);
  pi_read : ∀ id w u new, I w -> user_row id w = Some u -> same_rank new u -> allows I id (nonzero_updates new);
  pi_all : ∀ f, modest f -> ∀ w, I w -> I (on_db (λ t, set_Tables_users (f <$> Tables_users t) t) w);
}.

Section profile.
Context {CFG : Config} {ID : Identity} {SITE : Site} {TP : Totp} {CB : Casbin}.
Context (I : World -> Prop) {PI : ProfileInv I}.

Lemma profile_read_update id w u u' :
  I w -> user_row id w = Some u -> same_rank u' u ->
  ∀ h, allows I id (nonzero_updates {| u' with User_Password := h |}).
Proof. intros Hw Hu Hr h. by apply (pi_read id w u). Qed.

(** ** The caller's own account, and visitors *)

Lemma profile_model_setting id s : keeps I (model_UpdateUserSetting id s) anything.
Proof.
  unfold model_UpdateUserSetting, updateUserSettingCache. eapply keeps_bind; [kapply keeps_fail_if|intros].
  eapply keeps_bind; [kapply keeps_lift_result|intros].
  eapply keeps_bind; [apply keeps_upd_user; [apply _|by apply pi_modest]|intros].
  destruct RedisEnabled; [apply frame_on_user_hash; apply _|by kapply keeps_ret].
Qed.

Lemma profile_UpdateSelf c salt body : keeps I (UpdateSelf c salt body) anything.
Proof.
  unfold UpdateSelf. eapply keeps_bind; [kapply keeps_lift_option|]. intros [v|v|b] _.
  - eapply keeps_bind; [apply keeps_GetUserById; apply _|intros]. kapply keeps_map_err. apply profile_model_setting.
  - eapply keeps_bind; [apply keeps_GetUserById; apply _|intros]. kapply keeps_map_err. apply profile_model_setting.
  - eapply keeps_bind; [kapply keeps_lift_option|]. intros b' _. cbn zeta.
    eapply keeps_bind; [kapply keeps_fail_if|intros]. eapply (keeps_bind _ _ _ anything).
    + unfold checkUpdatePassword. eapply keeps_bind; [apply keeps_GetUserById; apply _|intros].
      eapply keeps_bind; [kapply keeps_fail_if|intros]. by kapply keeps_ret.
    + intros. eapply keeps_bind; [|intros; by kapply keeps_ret]. apply keeps_Update; [apply _|].
      intros h. by apply pi_zero.
Qed.

Lemma profile_GenerateAccessToken c key : keeps I (GenerateAccessToken c key) anything.
Proof.
  unfold GenerateAccessToken. eapply keeps_bind; [apply keeps_GetUserById; apply _|]. intros u (w & u0 & Hw & Hu & ->).
  eapply keeps_bind; [kapply keeps_attempt; apply keeps_read_any; apply _|intros].
  eapply keeps_bind; [kapply keeps_fail_if|intros]. eapply keeps_bind; [|intros; by kapply keeps_ret].
  apply keeps_Update; [apply _|].
  by apply (profile_read_update _ w u0).
Qed.

Lemma profile_GetAffCode c aff : keeps I (GetAffCode c aff) anything.
Proof.
  unfold GetAffCode. eapply keeps_bind; [apply keeps_GetUserById; apply _|]. intros u (w & u0 & Hw & Hu & ->).
  case_bool_decide; [|by kapply keeps_ret]. eapply keeps_bind; [|intros; by kapply keeps_ret].
  apply keeps_Update; [apply _|]. by apply (profile_read_update _ w u0).
Qed.

Lemma profile_EmailBind id email code : keeps I (EmailBind id email code) anything.
Proof.
  unfold EmailBind, VerifyCodeWithKey, FillUserById. eapply keeps_bind; [by apply (keeps_gets _ _ anything)|intros].
  eapply keeps_bind; [kapply keeps_fail_if|intros].
  eapply (keeps_bind _ _ _ (λ u, (∃ w, I w ∧ user_row id w = Some u) ∨ u = zeroUser)).
  - eapply keeps_bind; [kapply keeps_fail_if|intros]. eapply keeps_bind; [apply keeps_attempt, keeps_read; apply _|].
    intros [u|e] Hu; kapply keeps_ret; [by left|by right].
  - intros u Hu. eapply keeps_bind; [|intros; by kapply keeps_ret]. apply keeps_Update; [apply _|].
    destruct Hu as [(w & Hw & Hrow)| ->]; [by apply (profile_read_update _ w u)|].
    intros h. by apply pi_zero.
Qed.

Lemma profile_UpdateUserSetting uri c body : keeps I (UpdateUserSetting uri c body) anything.
Proof.
  unfold UpdateUserSetting. eapply keeps_bind; [kapply keeps_lift_option|]. intros req _.
  eapply (keeps_bind _ _ _ anything).
  - unfold check_setting. cbn zeta. repeat first [by kapply keeps_ret | eapply (keeps_bind _ _ _ anything); [|intros]
      | eapply keeps_any; kapply keeps_fail_if | match goal with |- keeps _ (if _ then _ else _) _ => case_bool_decide end].
  - intros. eapply keeps_bind; [apply keeps_GetUserById; apply _|intros]. kapply keeps_map_err. apply profile_model_setting.
Qed.

Lemma profile_ResetPassword salt password email token : keeps I (ResetPassword salt password email token) anything.
Proof.
  unfold ResetPassword, VerifyCodeWithKey, DeleteKey. eapply keeps_bind; [kapply keeps_fail_if|intros].
  eapply keeps_bind; [by apply (keeps_gets _ _ anything)|intros]. eapply keeps_bind; [kapply keeps_fail_if|intros].
  eapply (keeps_bind _ _ _ anything).
  - unfold ResetUserPasswordByEmail. eapply keeps_bind; [kapply keeps_fail_if|intros].
    eapply keeps_bind; [kapply keeps_lift_result|]. intros h _. apply keeps_update; [apply _|].
    intros w Hw. apply pi_all; [|done]. intros u. by destruct (bool_decide (User_Email u = email)).
  - intros. eapply keeps_bind; [apply keeps_frame_modify; [apply _|done]|intros]. by kapply keeps_ret.
Qed.

Lemma profile_Login s ip body : keeps I (Login s ip body) anything.
Proof.
  unfold Login. eapply keeps_bind; [kapply keeps_fail_if|intros]. eapply keeps_bind; [kapply keeps_lift_option|].
  intros [username password] _. eapply keeps_bind; [kapply keeps_fail_if|intros]. eapply (keeps_bind _ _ _ anything).
  { unfold ValidateAndFill. eapply keeps_bind; [kapply keeps_fail_if|intros].
    eapply keeps_bind; [kapply keeps_attempt; apply keeps_read_any; apply _|].
    intros [[id u]|[]] _; try kapply keeps_fail. clear; case_match; [kapply keeps_fail|by kapply keeps_ret]. }
  intros [id u] _. eapply (keeps_bind _ _ _ anything).
  { unfold IsTwoFAEnabled. eapply keeps_bind; [kapply keeps_attempt; apply keeps_GetTwoFAByUserId; apply _|intros].
    by kapply keeps_ret. }
  assert (∀ e, keeps I (map_err (λ _, e) session_save) anything) as Hsave.
  { intros e. kapply keeps_map_err. by apply keeps_frame_update; [apply _|]. }
  intros [|] _; [eapply keeps_bind; [apply Hsave|intros; by kapply keeps_ret]|].
  unfold setupLogin, UpdateUserLastLoginAt, recordLoginAudit, RecordLoginLog. eapply (keeps_bind _ _ _ anything).
  { eapply keeps_bind; [kapply keeps_GetTimestamp|intros]. ekapply keeps_ignore. apply keeps_upd_user; [apply _|].
    by apply pi_modest. }
  intros. eapply keeps_bind; [apply Hsave|intros]. eapply (keeps_bind _ _ _ anything); [|intros; by kapply keeps_ret].
  eapply keeps_bind; [kapply keeps_GetTimestamp|intros]. ekapply keeps_ignore. apply keeps_createLog; apply _.
Qed.

End profile.

(** ** Balances *)

(** Every account has the balance it is on record with. *)
Definition balances_ok (B : gmap Z (Z * Z * Z)) (w : World) : Prop :=
  ∀ id u, user_row id w = Some u -> B !! id = Some (balance u).

#[export] Instance balances_users B : UsersOnly (balances_ok B).
Proof. intros w w' H Hw id u Hu. apply Hw. unfold user_row, users_of in *. by rewrite H. Qed.

Lemma allows_balance B id f : (∀ u, balance (f u) = balance u) -> allows (balances_ok B) id f.
Proof.
  intros Hf w Hw id' u. rewrite user_row_upd. case_decide; [|by apply Hw].
  intros (u0 & Hu & ->)%fmap_Some. rewrite Hf. by apply Hw.
Qed.

#[export] Instance balances_profile B : ProfileInv (balances_ok B).
Proof.
  split; [apply _|..|].
  - intros id f Hf. apply allows_balance. intros u. by destruct (Hf u) as (_ & _ & ?).
  - intros. by apply allows_balance.
  - intros. by apply allows_balance.
  - intros f Hf w Hw id u. unfold user_row; simpl. rewrite lookup_fmap. intros (u0 & Hu & ->)%fmap_Some.
    destruct (Hf u0) as (_ & _ & ->). by apply Hw.
Qed.

(** Requests that are no grant of quota and create no account. *)
Definition profile_admin (req : AdminRequest) : bool :=
  match req with
  | RCreate _ _ _ => false
  | RManage (Some req) => negb (bool_decide (Manage_Action req = "add_quota"))
  | _ => true
  end.
Definition profile_self (req : SelfRequest) : bool :=
  match req with SRegister _ _ => false | _ => true end.

Section balances.
Context {CFG : Config} {ID : Identity} {SITE : Site} {TP : Totp} {CB : Casbin} (B : gmap Z (Z * Z * Z)).
Abbreviation I := (balances_ok B).

Lemma balances_hard_delete id w : I w -> I (on_db (hard_delete id) w).
Proof. intros Hw id' u. unfold user_row; simpl. intros [_ Hu]%lookup_delete_Some. by apply Hw. Qed.

Lemma balances_soft_delete id w : I w -> I (on_db (soft_delete id) w).
Proof.
  intros Hw. unfold on_db, soft_delete. destruct (Tables_users (World_db w) !! id); [|by apply (users_only w)].
  intros id' u'. unfold user_row; simpl. intros [_ Hu]%lookup_delete_Some. by apply Hw.
Qed.

Lemma balances_manage_user myRole action id user :
  keeps I (manage_user myRole action id user) (λ u', ∀ h, allows I id (nonzero_updates {| u' with User_Password := h |})).
Proof.
  assert (∀ new, allows I id (nonzero_updates new)) as Hal by (intros; by apply allows_balance).
  unfold manage_user. repeat case_bool_decide;
    repeat first [kapply keeps_fail_if | eapply keeps_bind; [kapply keeps_fail_if|intros] | by kapply keeps_ret].
  eapply keeps_bind; [apply keeps_User_Delete; [apply _|apply balances_soft_delete]|intros].
  eapply keeps_bind; [ekapply keeps_ignore; apply keeps_InvalidateUserTokensCache; apply _|intros]. by kapply keeps_ret.
Qed.

Lemma balances_DeleteSelf c : keeps I (DeleteSelf c) anything.
Proof.
  unfold DeleteSelf, DeleteUserById. eapply keeps_bind; [kapply keeps_fail_if|intros].
  eapply keeps_bind; [kapply keeps_attempt; apply keeps_GetUserById; apply _|intros].
  do 2 (eapply keeps_bind; [kapply keeps_fail_if|intros]). apply keeps_User_Delete; [apply _|apply balances_soft_delete].
Qed.

Lemma balances_admin c req : profile_admin req = true -> keeps I (serve_admin c req) anything.
Proof.
  assert (manages I c (λ id, ∀ f, modest f -> allows I id f)) as Hm by (intros id w u _ _ _; apply pi_modest).
  intros Hp. destruct req; simpl; try done.
  - apply keeps_UpdateUser; [apply _|done].
  - apply keeps_AdminClearUserBinding; [apply _|done].
  - apply keeps_DeleteUser; [apply _|]. intros. by apply balances_hard_delete.
  - apply keeps_ManageUser; [apply _| |intros; apply balances_manage_user].
    intros req -> E. simpl in Hp. by rewrite bool_decide_true in Hp.
  - apply keeps_AdminDisable2FA. apply _.
Qed.

Lemma balances_self req : profile_self req = true -> keeps I (serve_self req) anything.
Proof.
  assert (∀ {A} (m : GM A), keeps I m anything -> keeps I (do! m in ret tt) anything) as Hd.
  { intros A m Hm. eapply keeps_bind; [exact Hm|intros]. by kapply keeps_ret. }
  intros Hp. destruct req; simpl; try done.
  - apply profile_UpdateSelf; apply _.
  - apply balances_DeleteSelf.
  - apply Hd, profile_GenerateAccessToken; apply _.
  - apply Hd, profile_GetAffCode; apply _.
  - apply profile_EmailBind; apply _.
  - apply profile_UpdateUserSetting; apply _.
  - apply Hd, profile_ResetPassword; apply _.
  - apply Hd, profile_Login; apply _.
Qed.
End balances.

(** Account management leaves the money alone: whatever an administrator or a user asks
    for, apart from a grant of quota and the creation of an account, and whatever
    statement fails, every account that is there afterwards was there before with the
    same quota, used quota and request count. *)
Theorem profile_requests_keep_balances {CFG : Config} {ID : Identity} {SITE : Site} {TP : Totp} {CB : Casbin}
    (req : (Caller * AdminRequest) + SelfRequest) w id u :
  match req with inl (_, r) => profile_admin r | inr r => profile_self r end = true ->
  user_row id (match req with inl (c, r) => serve_admin c r | inr r => serve_self r end w).2 = Some u ->
  ∃ u0, user_row id w = Some u0 ∧ balance u = balance u0.
Proof.
  intros Hp Hu. set (B := balance <$> users_of w). assert (balances_ok B w) as Hw.
  { intros id' u' H. unfold B. rewrite lookup_fmap. unfold user_row, users_of in *. by rewrite H. }
  assert (B !! id = Some (balance u)) as HB.
  { destruct req as [[c r]|r]; [apply (keeps_run _ _ _ w (balances_admin B c r Hp) Hw)|
      apply (keeps_run _ _ _ w (balances_self B r Hp) Hw)]; exact Hu. }
  unfold B in HB. rewrite lookup_fmap in HB. apply fmap_Some in HB as (u0 & Hu0 & E). by exists u0.
Qed.

(** ** The root account *)

Definition is_root (u : User) : Prop := User_Role u = RoleRootUser ∧ User_Status u = UserStatusEnabled.

(** The accounts with these ids are enabled root accounts. *)
Definition roots_ok (R : gset Z) (w : World) : Prop :=
  ∀ id, id ∈ R -> ∃ u, user_row id w = Some u ∧ is_root u.

#[export] Instance roots_users R : UsersOnly (roots_ok R).
Proof. intros w w' H Hw id Hid. unfold user_row, users_of in *. rewrite <- H. by apply Hw. Qed.

Lemma allows_roots R id f :
  (id ∈ R -> ∀ u, is_root u -> is_root (f u)) -> allows (roots_ok R) id f.
Proof.
  intros Hf w Hw id' Hid. destruct (Hw id' Hid) as (u & Hu & Hr). rewrite user_row_upd.
  case_decide as E; [|by eauto]. subst id'. rewrite Hu. exists (f u). split; [done|]. by apply Hf.
Qed.

Lemma allows_roots_modest R id f : modest f -> allows (roots_ok R) id f.
Proof. intros Hf. apply allows_roots. intros _ u [H1 H2]. destruct (Hf u) as (E1 & E2 & _). split; congruence. Qed.

Lemma nz_same a : nz a a = a.
Proof. unfold nz. by case_match. Qed.

(** Writing a struct that carries no rank, or the rank of the row. *)
Lemma root_update R id new :
  (id ∈ R -> is_root new ∨ User_Role new = 0 ∧ User_Status new = 0) -> allows (roots_ok R) id (nonzero_updates new).
Proof.
  intros H. apply allows_roots. intros Hid u [H1 H2]. unfold is_root. simpl. unfold nz.
  destruct (H Hid) as [[-> ->]|[-> ->]]; done.
Qed.

#[export] Instance roots_profile R : ProfileInv (roots_ok R).
Proof.
  split; [apply _|intros; by apply allows_roots_modest|..].
  - intros id new H1 H2. apply root_update. by right.
  - intros id w u new Hw Hu [H1 H2]. apply root_update. intros Hid. left.
    destruct (Hw id Hid) as (u' & Hu' & [H3 H4]). unfold is_root. simplify_eq. by rewrite H1, H2.
  - intros f Hf w Hw id Hid. destruct (Hw id Hid) as (u & Hu & [H1 H2]). exists (f u). split.
    + unfold user_row in *. simpl. by rewrite lookup_fmap, Hu.
    + destruct (Hf u) as (E1 & E2 & _). split; congruence.
Qed.

Section roots.
Context {CFG : Config} {ID : Identity} {SITE : Site} {TP : Totp} {CB : Casbin} (R : gset Z).
Abbreviation I := (roots_ok R).

Lemma root_row w id u : I w -> id ∈ R -> user_row id w = Some u -> is_root u.
Proof. intros Hw Hid Hu. destruct (Hw id Hid) as (u' & Hu' & ?). congruence. Qed.

Lemma roots_hard_delete id w : id ∉ R -> I w -> I (on_db (hard_delete id) w).
Proof.
  intros Hn Hw id' Hid. destruct (Hw id' Hid) as (u & Hu & ?). exists u. split; [|done].
  unfold user_row in *. simpl. rewrite lookup_delete_ne; [done|]. by intros ->.
Qed.

Lemma roots_soft_delete id w : id ∉ R -> I w -> I (on_db (soft_delete id) w).
Proof.
  intros Hn Hw. unfold on_db, soft_delete. destruct (Tables_users (World_db w) !! id) eqn:E; [|by apply (users_only w)].
  intros id' Hid. destruct (Hw id' Hid) as (u' & Hu & ?). exists u'. split; [|done].
  unfold user_row in *. simpl. rewrite lookup_delete_ne; [done|]. by intros ->.
Qed.

Lemma roots_create u : keeps I (create_user u) anything.
Proof.
  apply keeps_create; [apply _|]. intros w Hw [Hid _]%orb_false_iff. split; [|done].
  apply bool_decide_eq_false in Hid. rewrite <- eq_None_not_Some in Hid. apply lookup_union_None in Hid as [Hid _].
  intros id' Hin. destruct (Hw id' Hin) as (u' & Hu & ?). exists u'. split; [|done].
  unfold user_row, users_of in *. simpl. rewrite lookup_insert_ne; [done|]. intros <-. congruence.
Qed.

Lemma root_SetSetting s u : is_root u -> is_root (SetSetting s u).
Proof. unfold SetSetting. by case_match. Qed.

(** A row that was read is written back with other values in its profile. *)
Lemma roots_read_update id w u f :
  I w -> user_row id w = Some u -> (is_root u -> is_root (f u)) ->
  ∀ h, allows I id (nonzero_updates {| (f u) with User_Password := h |}).
Proof.
  intros Hw Hu Hf h. apply root_update. intros Hid. left. by apply Hf, (root_row w id).
Qed.

Lemma roots_init_sidebar find :
  (∀ w id u, find w = Some (id, u) -> user_row id w = Some u) -> keeps I (init_sidebar find) anything.
Proof.
  intros Hf. unfold init_sidebar. eapply keeps_bind; [apply keeps_attempt, keeps_read; apply _|].
  intros [[cid created]|e] Hc; [|by kapply keeps_ret]. simpl in Hc. destruct Hc as (w & Hw & Hrow%Hf).
  case_bool_decide; [by kapply keeps_ret|]. ekapply keeps_ignore. apply keeps_Update; [apply _|].
  apply (roots_read_update cid w created (SetSetting _)); [done..|]. apply root_SetSetting.
Qed.

Lemma roots_quota id g : allows I id (λ u, set_User_Quota (g u) u).
Proof. by apply allows_roots. Qed.

Lemma roots_inviteUser q id : keeps I (inviteUser q id) anything.
Proof.
  unfold inviteUser, save_user. eapply keeps_bind; [apply keeps_GetUserById; apply _|]. intros u (w & u0 & Hw & Hu & ->).
  apply keeps_upd_user; [apply _|]. apply allows_roots. intros Hid u' _. by apply (root_row w id u0) in Hu.
Qed.

Lemma roots_rewards id inviterId : keeps I (registration_rewards id inviterId) anything.
Proof.
  assert (∀ b i ty f args, keeps I (if b : bool then RecordLog i ty f args else ret tt) anything) as Hlog.
  { intros []; intros; [apply frame_RecordLog; apply _|by kapply keeps_ret]. }
  unfold registration_rewards. eapply keeps_bind; [apply Hlog|intros].
  destruct (_ && _); [|by kapply keeps_ret]. eapply (keeps_bind _ _ _ anything).
  - destruct (0 <? QuotaForInvitee); [|by kapply keeps_ret]. eapply keeps_bind; [|intros; apply frame_RecordLog; apply _].
    ekapply keeps_ignore. unfold IncreaseUserQuota. eapply keeps_bind; [kapply keeps_fail_if|intros].
    eapply keeps_bind; [apply keeps_go_any; apply _|intros]. simpl. apply keeps_upd_user; [apply _|]. apply roots_quota.
  - intros. destruct (0 <? QuotaForInviter); [|by kapply keeps_ret].
    eapply keeps_bind; [apply frame_RecordLog; apply _|intros]. ekapply keeps_ignore. apply roots_inviteUser.
Qed.

Lemma roots_new_user salt aff u : keeps I (new_user salt aff u) anything.
Proof.
  unfold new_user. eapply keeps_bind; [apply keeps_hash_if; apply _|]. intros. by kapply keeps_ret.
Qed.

Lemma by_username_row name w id u : by_username name w = Some (id, u) -> user_row id w = Some u.
Proof. intros [? _]%first_user_found. done. Qed.

Lemma roots_CreateUser c salt aff body : keeps I (CreateUser c salt aff body) anything.
Proof.
  unfold CreateUser. eapply keeps_bind; [kapply keeps_lift_option|]. intros b _. cbn zeta.
  do 3 (eapply keeps_bind; [kapply keeps_fail_if|intros]). eapply (keeps_bind _ _ _ anything).
  - kapply keeps_transaction. eapply (keeps_bind _ _ _ anything).
    + eapply keeps_bind; [apply roots_new_user|intros]. apply roots_create.
    + intros. eapply keeps_bind; [apply keeps_updateAdminPermissions; apply _|]. intros. by kapply keeps_ret.
  - intros [[id created] touched] _.
    eapply (keeps_bind _ _ _ anything); [destruct touched; [apply keeps_ReloadPolicy; apply _|by kapply keeps_ret]|intros].
    eapply (keeps_bind _ _ _ anything); [|intros; apply keeps_recordManageAuditFor; apply _].
    unfold finishInsert. eapply keeps_bind; [apply roots_init_sidebar, by_username_row|intros]. apply roots_rewards.
Qed.

Lemma roots_manage_user w myRole action id user :
  I w -> loaded w id user ->
  keeps I (manage_user myRole action id user) (λ u', ∀ h, allows I id (nonzero_updates {| u' with User_Password := h |})).
Proof.
  intros Hw Hl.
  assert (id ∈ R -> is_root user) as Hroot.
  { intros Hid. destruct (Hw id Hid) as (u0 & Hu0 & Hr0). destruct Hl as [Hl|[Hl _]].
    - by rewrite (all_users_live w id user u0).
    - apply lookup_union_None in Hl as [Hl _]. unfold user_row, users_of in *. congruence. }
  assert (∀ u' : User, (id ∈ R -> is_root u') -> ∀ h, allows I id (nonzero_updates {| u' with User_Password := h |})) as Hal.
  { intros u' H h. apply root_update. intros Hid. left. by apply H. }
  assert ((User_Role user =? RoleRootUser) = false -> id ∉ R) as Hnot.
  { intros Hn Hid. destruct (Hroot Hid) as [H _]. rewrite H in Hn. done. }
  unfold manage_user. repeat case_bool_decide.
  - eapply keeps_bind; [kapply keeps_fail_if|]. intros ? Hn. kapply keeps_ret. apply Hal. intros Hid. by destruct (Hnot Hn).
  - kapply keeps_ret. apply Hal. intros Hid. destruct (Hroot Hid). done.
  - eapply keeps_bind; [kapply keeps_fail_if|]. intros ? Hn. eapply keeps_bind.
    { apply keeps_User_Delete; [apply _|]. intros w' Hw'. apply roots_soft_delete; [by apply Hnot|done]. }
    intros. eapply keeps_bind; [ekapply keeps_ignore; apply keeps_InvalidateUserTokensCache; apply _|intros].
    by kapply keeps_ret; apply Hal.
  - eapply keeps_bind; [kapply keeps_fail_if|intros]. eapply keeps_bind; [kapply keeps_fail_if|]. intros ? Hn.
    kapply keeps_ret. apply Hal. intros Hid. destruct (Hroot Hid) as [Hrr _]. simpl in Hn. by rewrite Hrr in Hn.
  - eapply keeps_bind; [kapply keeps_fail_if|]. intros ? Hn. eapply keeps_bind; [kapply keeps_fail_if|intros].
    kapply keeps_ret. apply Hal. intros Hid. by destruct (Hnot Hn).
  - by kapply keeps_ret; apply Hal.
Qed.

(** ** Visitors *)

Lemma roots_insert_token t : keeps I (insert_token t) anything.
Proof. apply keeps_create; [apply _|]. intros w Hw _. split; [|done]. by apply (users_only w). Qed.

Lemma roots_Register d body : keeps I (Register d body) anything.
Proof.
  unfold Register. do 2 (eapply keeps_bind; [kapply keeps_fail_if|intros]).
  eapply keeps_bind; [kapply keeps_lift_option|]. intros b _. cbn zeta.
  do 2 (eapply keeps_bind; [kapply keeps_fail_if|intros]). eapply (keeps_bind _ _ _ anything).
  { destruct EmailVerificationEnabled; [|by kapply keeps_ret]. eapply keeps_bind; [kapply keeps_fail_if|intros].
    eapply keeps_bind; [by apply (keeps_gets _ _ anything)|intros]. eapply keeps_any. kapply keeps_fail_if. }
  intros. eapply (keeps_bind _ _ _ anything).
  { kapply keeps_map_err. unfold CheckUserExistOrDeleted.
    eapply keeps_bind; [kapply keeps_attempt; apply keeps_read_any; apply _|]. intros [?|[]] _; first [by kapply keeps_ret|kapply keeps_fail]. }
  intros. eapply keeps_bind; [kapply keeps_fail_if|intros]. eapply (keeps_bind _ _ _ anything).
  { eapply keeps_any. kapply keeps_attempt. unfold GetUserIdByAffCode. eapply keeps_bind; [kapply keeps_fail_if|intros].
    eapply keeps_bind; [apply keeps_read_any; apply _|intros]. by apply (keeps_ret _ _ anything). }
  intros. eapply (keeps_bind _ _ _ anything).
  { unfold User_Insert. eapply keeps_bind; [apply roots_new_user|intros]. eapply keeps_bind; [apply roots_create|intros].
    eapply (keeps_bind _ _ _ anything); [|intros; by kapply keeps_ret].
    unfold finishInsert. eapply keeps_bind; [apply roots_init_sidebar, by_username_row|intros]. apply roots_rewards. }
  intros. eapply keeps_bind; [kapply keeps_map_err; apply keeps_read_any; apply _|intros].
  destruct GenerateDefaultToken; [|by kapply keeps_ret].
  eapply keeps_bind; [kapply keeps_map_err; kapply keeps_lift_result|intros].
  eapply keeps_bind; [kapply keeps_GetTimestamp|intros]. kapply keeps_map_err. apply roots_insert_token.
Qed.

(** A query whose statement reaches the database. *)
Lemma wp_first_ok {A} (f : World -> option A) Q w :
  reads_ok w -> (∀ fs, f (set_World_faults fs w) = f w) ->
  (∀ fs, Q (match f w with Some a => Ok a | None => Err ERecordNotFound end) (set_World_faults fs w)) ->
  wp (first f) Q w.
Proof.
  intros Hr Hf HQ. unfold wp, first, exec. simpl. unfold reads_ok in Hr.
  destruct (World_faults w) as [|[msg|] fs] eqn:E; [|done|].
  - specialize (HQ []). rewrite <- E in HQ. destruct w; simpl in *. by destruct (f _).
  - specialize (HQ fs). rewrite Hf. by destruct (f w).
Qed.

Lemma roots_DeleteSelf c w : reads_ok w -> I w -> wp (DeleteSelf c) (λ _ w', I w') w.
Proof.
  intros Hr Hw. unfold DeleteSelf. apply wp_bind, wp_fail_if; [done|]. intros Hz.
  destruct (decide (caller_id c ∈ R)) as [Hid|Hid].
  - destruct (Hw _ Hid) as (u & Hu & [Hrole _]). apply wp_bind, wp_attempt. unfold GetUserById. rewrite Hz.
    apply wp_bind, wp_ret, wp_first_ok; [done|done|]. intros fs. rewrite Hu. cbn. unfold wp, bind, fail_if.
    rewrite Hrole. by apply (users_only w).
  - eapply wp_bind, wp_attempt, wp_mono; [apply (keeps_GetUserById (roots_ok R) (caller_id c) false); exact Hw|].
    intros res w' [Hw' _]. apply wp_bind, wp_fail_if; [done|]. intros _.
    assert (keeps I (DeleteUserById (caller_id c)) anything) as Hk.
    { unfold DeleteUserById. eapply keeps_bind; [kapply keeps_fail_if|intros].
      apply keeps_User_Delete; [apply _|]. intros. by apply roots_soft_delete. }
    eapply wp_mono; [by apply Hk|]. by intros ? ? [? _].
Qed.

(** ** All requests *)

Lemma roots_admin c req w :
  caller_role c <= RoleRootUser -> reads_ok w -> I w -> I (serve_admin c req w).2.
Proof.
  intros Hc Hr Hw. assert (∀ m : GM unit, keeps I m anything -> I (m w).2) as Hk.
  { intros m Hm. by apply (keeps_run _ m _ w Hm). }
  assert (manages I c (λ id, ∀ f, modest f -> allows I id f)) as Hm.
  { intros id w1 u _ _ _ f Hf. by apply allows_roots_modest. }
  destruct req; simpl.
  - apply Hk, keeps_UpdateUser; [apply _|done].
  - apply Hk, keeps_AdminClearUserBinding; [apply _|done].
  - apply Hk, keeps_DeleteUser; [apply _|]. intros w1 u Hw1 Hu Hrole w2 Hw2. apply roots_hard_delete; [|done].
    intros Hid. destruct (root_row w1 id u Hw1 Hid Hu). lia.
  - apply Hk, roots_CreateUser.
  - apply wp_ManageUser; [apply _|done..|]. intros id user Hl _. split; [split_and!; intros; apply roots_quota|].
    intros. by apply (roots_manage_user w).
  - apply Hk, keeps_AdminDisable2FA. apply _.
Qed.

Lemma roots_self req w : reads_ok w -> I w -> I (serve_self req w).2.
Proof.
  intros Hr Hw. assert (∀ m : GM unit, keeps I m anything -> I (m w).2) as Hk.
  { intros m Hm. by apply (keeps_run _ m _ w Hm). }
  assert (∀ {A} (m : GM A), keeps I m anything -> keeps I (do! m in ret tt) anything) as Hd.
  { intros A m Hm. eapply keeps_bind; [exact Hm|intros]. by kapply keeps_ret. }
  destruct req; simpl.
  - apply Hk, profile_UpdateSelf; apply _.
  - by apply roots_DeleteSelf.
  - apply Hk, Hd, profile_GenerateAccessToken; apply _.
  - apply Hk, Hd, profile_GetAffCode; apply _.
  - apply Hk, profile_EmailBind; apply _.
  - apply Hk, profile_UpdateUserSetting; apply _.
  - apply Hk, roots_Register.
  - apply Hk, Hd, profile_ResetPassword; apply _.
  - apply Hk, Hd, profile_Login; apply _.
Qed.

(** A request is served, or time passes and the driver's mood changes. *)
Inductive account_step (w : World) : World -> Prop :=
| step_admin c req :
    RoleAdminUser <= caller_role c -> IsValidateRole (caller_role c) = true -> reads_ok w ->
    account_step w (serve_admin c req w).2
| step_self req : reads_ok w -> account_step w (serve_self req w).2
| step_world now fs : account_step w (set_World_now now (set_World_faults fs w)).

Lemma IsValidateRole_max role : IsValidateRole role = true -> role <= RoleRootUser.
Proof. unfold IsValidateRole, RoleGuestUser, RoleCommonUser, RoleAdminUser, RoleRootUser. lia. Qed.

Lemma roots_step w w' : account_step w w' -> I w -> I w'.
Proof.
  intros [c req _ Hv Hr|req Hr|now fs] Hw.
  - apply roots_admin; [by apply IsValidateRole_max|done..].
  - by apply roots_self.
  - by apply (users_only w).
Qed.

End roots.

(** C16. Root is not lost through the modelled handlers: after any sequence of requests
    to those of [serve_admin] by administrators (root included) and to those of
    [serve_self] by users and visitors, where the first statement of each request
    reaches the database ([reads_ok]), with the clock and the other faults free to
    change, an account that was an enabled root account still exists, is still root and
    is still enabled. A request whose first statement fails can lose it
    ([root_deletes_itself], [manage_failed_read_disables_root]). *)
Theorem root_survives {CFG : Config} {ID : Identity} {SITE : Site} {TP : Totp} {CB : Casbin} w w' id u :
  rtc account_step w w' -> user_row id w = Some u -> is_root u ->
  ∃ u', user_row id w' = Some u' ∧ is_root u'.
Proof.
  intros Hs Hu Hr. assert (roots_ok {[id]} w) as Hw.
  { intros id' ->%elem_of_singleton. by exists u. }
  assert (roots_ok {[id]} w') as H'; [|by apply H', elem_of_singleton].
  clear Hu Hr. induction Hs as [|w w1 w2 H1 _ IH]; [done|]. apply IH. by apply (roots_step _ w).
Qed.
