(* ===== verification/TwoFactorProps.v ===== *)
(** * TwoFactorProps: lockout and backup codes

    Five wrong codes lock the second factor for five minutes, against the right code
    too; every accepted backup code spends exactly one of the codes left; a code that
    was issued is accepted as it was shown, in lower case and without its dash. *)

From Stdlib Require Import Ascii.
From S2P Require Export TwoFactor.
From S2P Require Import Prelude.

(** ** Spending backup codes *)

Section spending.
Context {CFG : Config} {ID : Identity}.

Definition was_accepted (r : result bool) : bool := match r with Ok b => b | Err _ => false end.

Definition unused_of (u : Z) (m : gmap Z TwoFABackupCode) : nat :=
  length (List.filter (λ '(_, c), unused u c) (map_to_list m)).

Lemma filter_perm {A} (p : A -> bool) l l' : l ≡ₚ l' -> List.filter p l ≡ₚ List.filter p l'.
Proof.
  induction 1 as [|x l l' _ IH|x y l|l1 l2 l3 _ IH1 _ IH2]; simpl; [done| | |by etrans].
  - destruct (p x); [by constructor|done].
  - destruct (p x), (p y); try done. constructor.
Qed.

Lemma unused_codes_length u w : length (unused_codes u w) = unused_of u (Tables_backup_codes (World_db w)).
Proof. unfold unused_codes, unused_of. apply Permutation_length, filter_perm, merge_sort_Permutation. Qed.

Lemma elem_of_unused_codes u w id c :
  (id, c) ∈ unused_codes u w ->
  Tables_backup_codes (World_db w) !! id = Some c ∧ unused u c = true.
Proof.
  unfold unused_codes. rewrite list_elem_of_In, filter_In, <- list_elem_of_In, merge_sort_Permutation.
  intros [H1 H2]. split; [by apply elem_of_map_to_list|done].
Qed.

Lemma unused_of_replace u m id c c' :
  m !! id = Some c -> unused u c = true -> unused u c' = false ->
  S (unused_of u (<[id := c']> m)) = unused_of u m.
Proof.
  intros Hm Hc Hc'. unfold unused_of.
  rewrite <- (insert_delete_id m id c Hm) at 2. rewrite <- insert_delete_eq.
  rewrite (Permutation_length (filter_perm _ _ _ (map_to_list_insert (delete id m) id c' (lookup_delete_eq _ _)))).
  rewrite (Permutation_length (filter_perm _ _ _ (map_to_list_insert (delete id m) id c (lookup_delete_eq _ _)))).
  simpl. by rewrite Hc, Hc'.
Qed.

Lemma wp_ValidateBackupCode u code w :
  wp (ValidateBackupCode u code) (λ r w',
    (unused_of u (Tables_backup_codes (World_db w')) + (if was_accepted r then 1 else 0))%nat =
      unused_of u (Tables_backup_codes (World_db w))) w.
Proof.
  unfold ValidateBackupCode. apply wp_bind, wp_fail_if; [by rewrite Nat.add_0_r|]. intros _.
  apply wp_bind, wp_select; [by intros; rewrite Nat.add_0_r|]. intros fs. simpl.
  destruct (List.find _ _) as [[id bc]|] eqn:E; [|by apply wp_ret; rewrite Nat.add_0_r].
  apply find_some in E as [[Hm Hu]%list_elem_of_In%elem_of_unused_codes _]. simpl in Hm.
  apply wp_bind, wp_gets, wp_bind, wp_update; [by intros; rewrite Nat.add_0_r|]. intros fs'. apply wp_ret. simpl.
  rewrite Nat.add_1_r. apply (unused_of_replace _ _ _ bc); [done..|]. unfold unused. simpl. by rewrite andb_false_r.
Qed.

(** Codes presented one after the other: how many were accepted. *)
Fixpoint present (u : Z) (codes : list string) (w : World) : nat * World :=
  match codes with
  | [] => (0%nat, w)
  | code :: codes =>
      let '(r, w1) := ValidateBackupCode u code w in
      let '(n, w2) := present u codes w1 in
      ((if was_accepted r then S n else n), w2)
  end.

(** C30. Backup codes are spent: however many codes are presented, right or wrong, and
    whatever statement fails on the way, the accepted ones and the codes left unused
    add up to the codes there were; a code is good once. *)
Theorem backup_codes_spent u codes w :
  let '(accepted, w') := present u codes w in
  (accepted + length (unused_codes u w'))%nat = length (unused_codes u w).
Proof.
  revert w. induction codes as [|code codes IH]; intros w; simpl; [done|].
  pose proof (wp_ValidateBackupCode u code w) as Hv. unfold wp in Hv.
  destruct (ValidateBackupCode u code w) as [r w1]. simpl in Hv. specialize (IH w1).
  destruct (present u codes w1) as [n w2]. rewrite (unused_codes_length u w), <- Hv, <- unused_codes_length.
  destruct (was_accepted r); lia.
Qed.
End spending.

(** ** Lockout *)

Section lockout.
Context {CFG : Config} {ID : Identity} {TP : Totp}.

(** One answer to the question for the second factor, at a time. *)
Definition answer_at (now u : Z) (code : string) : GM unit := λ w,
  (let! t := enabled_twofa u in verify_code t code) (set_World_now now w).

(** Neither the current one-time password nor an unused backup code. *)
Definition wrong (u : Z) (secret : string) (w : World) (now : Z) (code : string) : Prop :=
  match ValidateNumericCode code with
  | Ok clean =>
      let c := ReplaceAll clean " " "" in
      Nat.eqb (String.length c) 6 && totp_Validate c secret now = false ∧ backup_format code = false
  | Err _ => backup_format code = true ∧
      ∀ id bc, (id, bc) ∈ unused_codes u w ->
        ValidatePasswordAndHash (NormalizeBackupCode code) (TwoFABackupCode_CodeHash bc) = false
  end.

(** The record as long as it takes answers. *)
Definition accepting (u : Z) (t : TwoFA) : Prop :=
  u ≠ 0 ∧ TwoFA_IsEnabled t = true ∧ TwoFA_Id t ≠ 0 ∧ TwoFA_UserId t = u.

Definition locked_at (t : TwoFA) (now : Z) : bool :=
  match TwoFA_LockedUntil t with None => false | Some until => now <? until end.

Definition put_row (t : TwoFA) (w : World) : World := on_db (put_twofa t) w.

Lemma TwoFA_Update_run t w row :
  no_faults w -> twofa_row (TwoFA_UserId t) w = Some row -> TwoFA_Id row = TwoFA_Id t -> TwoFA_Id t ≠ 0 ->
  TwoFA_Update t w = (Ok tt, put_row t w).
Proof.
  intros Hn Hr Hid Hz. unfold TwoFA_Update, bind, fail_if. rewrite (proj2 (Z.eqb_neq _ _) Hz). simpl.
  rewrite exec_no_faults by done. rewrite Hr, Hid, Z.eqb_refl. done.
Qed.

Lemma Increment_run t w row :
  no_faults w -> twofa_row (TwoFA_UserId t) w = Some row -> TwoFA_Id row = TwoFA_Id t -> TwoFA_Id t ≠ 0 ->
  IncrementFailedAttempts t w = (Ok (failed_once (World_now w) t), put_row (failed_once (World_now w) t) w).
Proof.
  intros Hn Hr Hid Hz. unfold IncrementFailedAttempts, ignore, attempt, bind, GetTimestamp, gets.
  by rewrite (TwoFA_Update_run (failed_once (World_now w) t) w row).
Qed.

Lemma enabled_twofa_run u t w :
  no_faults w -> twofa_row u w = Some t -> accepting u t -> enabled_twofa u w = (Ok t, w).
Proof.
  intros Hn Hr (Hu & He & _). unfold enabled_twofa, GetTwoFAByUserId, bind, fail_if, attempt, first.
  rewrite (proj2 (Z.eqb_neq _ _) Hu). simpl. rewrite exec_no_faults by done. rewrite Hr. simpl. by rewrite He.
Qed.

Lemma bind_ok {A B} (m : GM A) (k : A -> GM B) w a w' : m w = (Ok a, w') -> bind m k w = k a w'.
Proof. unfold bind. by intros ->. Qed.

Lemma bind_err {A B} (m : GM A) (k : A -> GM B) w e w' : m w = (Err e, w') -> bind m k w = (Err e, w').
Proof. unfold bind. by intros ->. Qed.

Lemma IsLocked_run t w : IsLocked t w = (Ok (locked_at t (World_now w)), w).
Proof. done. Qed.

Lemma record_wrong t w :
  no_faults w -> twofa_row (TwoFA_UserId t) w = Some t -> TwoFA_Id t ≠ 0 ->
  record_usage t false w = (Ok (false, failed_once (World_now w) t), put_row (failed_once (World_now w) t) w).
Proof. intros. unfold record_usage. by rewrite (bind_ok _ _ _ _ _ (Increment_run t w t ltac:(done) ltac:(done) ltac:(done) ltac:(done))). Qed.

(** A wrong code is refused, counts once, and changes nothing else. *)
Lemma wrong_counts u t w code :
  no_faults w -> twofa_row u w = Some t -> accepting u t -> locked_at t (World_now w) = false ->
  wrong u (TwoFA_Secret t) w (World_now w) code ->
  ∃ e, verify_code t code w = (Err e, put_row (failed_once (World_now w) t) w).
Proof.
  intros Hn Hr (Hu & He & Hid & Huid) Hl Hw. unfold verify_code, wrong in *.
  pose proof (IsLocked_run t w) as Hlock. rewrite Hl in Hlock.
  assert (record_usage t false w = (Ok (false, failed_once (World_now w) t), put_row (failed_once (World_now w) t) w)) as Hrec
    by (apply record_wrong; [done|by rewrite Huid|done]).
  set (t1 := failed_once _ t) in *. set (w1 := put_row t1 w) in *.
  destruct (ValidateNumericCode code) as [clean|e0].
  - destruct Hw as [Htotp Hfmt].
    assert (ValidateTOTPAndUpdateUsage t clean w = (Ok (false, t1), w1)) as Htry.
    { unfold ValidateTOTPAndUpdateUsage. rewrite (bind_ok _ _ _ _ _ Hlock). rewrite (bind_ok _ _ w tt w) by done.
      rewrite (bind_ok _ _ w false w); [exact Hrec|].
      unfold ValidateTOTPCode, bind, GetTimestamp, gets, ret. by rewrite Htotp. }
    rewrite (bind_ok _ _ w (false, t1) w1) by (unfold bind, attempt; by rewrite Htry). cbn [fst snd].
    unfold ValidateBackupCodeAndUpdateUsage.
    assert (∃ e, (let! locked := IsLocked t1 in do! fail_if locked ErrLocked in
        let! valid := ValidateBackupCode (TwoFA_UserId t1) code in record_usage t1 valid) w1 = (Err e, w1)) as [e Hb].
    { rewrite (bind_ok _ _ _ _ _ (IsLocked_run t1 w1)). destruct (locked_at t1 _); [by eexists|].
      rewrite (bind_ok _ _ w1 tt w1) by done. eexists. apply bind_err. unfold ValidateBackupCode. apply bind_err.
      by rewrite Hfmt. }
    exists e. by apply bind_err.
  - destruct Hw as [Hfmt Hno]. rewrite (bind_ok _ _ w (false, t) w) by done. cbn [fst snd].
    assert (ValidateBackupCode (TwoFA_UserId t) code w = (Ok false, w)) as Hv.
    { unfold ValidateBackupCode, bind, fail_if, select. rewrite Hfmt. simpl. rewrite exec_no_faults by done. rewrite Huid.
      destruct (List.find _ _) as [[id bc]|] eqn:E; [|done].
      apply find_some in E as [Hin%list_elem_of_In Hv]. rewrite (Hno id bc Hin) in Hv. done. }
    exists wrong_code. rewrite (bind_ok _ _ w (false, t1) w1); [done|].
    unfold ValidateBackupCodeAndUpdateUsage. rewrite (bind_ok _ _ _ _ _ Hlock). rewrite (bind_ok _ _ w tt w) by done.
    by rewrite (bind_ok _ _ _ _ _ Hv).
Qed.

(** While it is locked no code is looked at. *)
Lemma locked_refuses t w code :
  locked_at t (World_now w) = true -> verify_code t code w = (Err ErrLocked, w).
Proof.
  intros Hl. pose proof (IsLocked_run t w) as Hlock. rewrite Hl in Hlock.
  unfold verify_code. rewrite (bind_ok _ _ w (false, t) w).
  - cbn [fst snd]. apply bind_err. unfold ValidateBackupCodeAndUpdateUsage. by rewrite (bind_ok _ _ _ _ _ Hlock).
  - destruct (ValidateNumericCode code); [|done]. unfold ValidateTOTPAndUpdateUsage.
    assert (∀ k, bind (IsLocked t) (λ locked, bind (fail_if locked ErrLocked) k) w = (Err (A := bool * TwoFA) ErrLocked, w)) as Hk.
    { intros k. by rewrite (bind_ok _ _ _ _ _ Hlock). }
    unfold bind at 1, attempt. by rewrite Hk.
Qed.

Fixpoint answers (u : Z) (tries : list (Z * string)) (w : World) : World :=
  match tries with
  | [] => w
  | (now, code) :: tries => answers u tries (answer_at now u code w).2
  end.

Lemma wrong_put u secret t w now now' code :
  wrong u secret w now code -> wrong u secret (put_row t (set_World_now now' w)) now code.
Proof. done. Qed.

(** The record after [n] more wrong answers, the last of them at [now]. *)
Lemma wrong_answers u t w tries :
  no_faults w -> twofa_row u w = Some t -> accepting u t -> TwoFA_LockedUntil t = None ->
  0 <= TwoFA_FailedAttempts t -> TwoFA_FailedAttempts t + Z.of_nat (length tries) <= MaxFailAttempts ->
  Forall (λ x, wrong u (TwoFA_Secret t) w x.1 x.2) tries ->
  let w' := answers u tries w in
  no_faults w' ∧ ∃ t', twofa_row u w' = Some t' ∧ accepting u t' ∧
    TwoFA_FailedAttempts t' = TwoFA_FailedAttempts t + Z.of_nat (length tries) ∧
    TwoFA_LockedUntil t' =
      (if TwoFA_FailedAttempts t' <? MaxFailAttempts then None
       else (λ x, x.1 + LockoutDuration) <$> last tries).
Proof.
  revert t w. induction tries as [|[now code] tries IH]; intros t w Hn Hr Ha Hl Hf Hmax Hw; simpl in *.
  - split; [done|]. exists t. split_and!; [done..|lia|]. rewrite Hl. by case_match.
  - apply Forall_cons in Hw as [Hw Hws]. simpl in Hw.
    assert ((answer_at now u code w).2 = put_row (failed_once now t) (set_World_now now w)) as ->.
    { unfold answer_at, bind. rewrite (enabled_twofa_run u t) by done.
      destruct (wrong_counts u t (set_World_now now w) code) as [e ->]; [done..| |done|done].
      unfold locked_at. by rewrite Hl. }
    set (t1 := failed_once now t). set (w1 := put_row t1 _).
    assert (accepting u t1) as Ha1 by done.
    assert (twofa_row u w1 = Some t1) as Hr1.
    { unfold w1, put_row, twofa_row. simpl. destruct Ha as (_ & _ & _ & <-). apply lookup_insert_eq. }
    assert (TwoFA_FailedAttempts t1 = TwoFA_FailedAttempts t + 1) as Hf1.
    { unfold t1, failed_once. simpl. rewrite wrap64_id; [done|]. unfold MaxFailAttempts in Hmax. unfold int64_range. lia. }
    assert (TwoFA_LockedUntil t1 =
      if TwoFA_FailedAttempts t1 <? MaxFailAttempts then None else Some (now + LockoutDuration)) as Hl1.
    { rewrite Hf1. unfold t1, failed_once in *. simpl in *. rewrite Hf1, Hl. unfold MaxFailAttempts. repeat case_match; (done || lia). }
    assert (Forall (λ x, wrong u (TwoFA_Secret t1) w1 x.1 x.2) tries) as Hws1 by done.
    assert (no_faults w1) as Hn1 by done. clearbody t1 w1.
    destruct tries as [|x tries].
    + simpl in *. split; [done|]. exists t1. split_and!; [done..|lia|]. rewrite Hl1. by case_match.
    + destruct (IH t1 w1) as (Hn' & t' & Hr' & Ha' & Hf' & Hl'); [done..| |lia|simpl length in *; lia|done|].
      * rewrite Hl1. rewrite (proj2 (Z.ltb_lt _ _)); [done|]. rewrite Hf1. simpl length in *. lia.
      * split; [done|]. exists t'. split_and!; [done..|simpl length in *; lia|]. rewrite Hl'. done.
Qed.

(** C29. The fifth wrong code closes the door. A wrong code is one of the right form, a
    number of six digits or a code in the form of a backup code, that is not valid;
    answers of another form are turned away without being counted. Take an enabled
    record that is not locked and has some earlier failures, fewer than five. When wrong
    codes are answered one after the other, at whatever times and without a failing
    statement, until there are five failures, every answer in the five minutes after the
    last is refused as locked and changes nothing, the right code and an unused backup
    code included. (Concurrent answers can share one count, see
    [parallel_guesses_count_once].) *)
Theorem second_factor_lockout u t w tries now5 code5 now code :
  no_faults w -> twofa_row u w = Some t -> accepting u t ->
  0 <= TwoFA_FailedAttempts t -> TwoFA_LockedUntil t = None ->
  TwoFA_FailedAttempts t + Z.of_nat (length tries) = 5 -> last tries = Some (now5, code5) ->
  Forall (λ x, wrong u (TwoFA_Secret t) w x.1 x.2) tries ->
  now < now5 + LockoutDuration ->
  answer_at now u code (answers u tries w) = (Err ErrLocked, set_World_now now (answers u tries w)).
Proof.
  intros Hn Hr Ha Hf Hl Hlen Hlast Hw Hnow.
  destruct (wrong_answers u t w tries) as (Hn' & t' & Hr' & Ha' & Hf' & Hl'); [done..| |done|].
  { rewrite Hlen. done. }
  rewrite Hlen in Hf'. rewrite Hf', Hlast in Hl'. simpl in Hl'.
  unfold answer_at, bind. rewrite (enabled_twofa_run u t') by done. apply locked_refuses.
  unfold locked_at. rewrite Hl'. simpl. lia.
Qed.
End lockout.

(** ** Issued codes *)

(** A password validates against its hash. *)
Class IdentityLaws (ID : Identity) := {
  hash_validates : ∀ salt p h, Password2Hash salt p = Ok h -> ValidatePasswordAndHash p h = true;
}.

Lemma code_char_ok b : backup_char (code_char b) = true.
Proof.
  assert (∀ n, (n < 36)%nat -> ∃ c, String.get n backup_charset = Some c ∧ backup_char c = true) as H.
  { assert (forallb (λ n, match String.get n backup_charset with Some c => backup_char c | None => false end)
      (List.seq 0 36) = true) as Hall by (vm_compute; reflexivity).
    intros n Hn. rewrite forallb_forall in Hall. specialize (Hall n).
    destruct (String.get n backup_charset) as [c|]; [|discriminate Hall; apply in_seq; lia].
    exists c. split; [done|]. apply Hall, in_seq. lia. }
  unfold code_char. destruct (H (Z.to_nat (b mod 36))) as (c & -> & Hc); [|done].
  assert (0 <= b mod 36 < 36) by (apply Z.mod_pos_bound; lia). lia.
Qed.

Lemma backup_char_lacks c : backup_char c = true -> Ascii.eqb c "-" = false ∧ ∀ s, ToUpper (String c s) = String c (ToUpper s).
Proof. intros H. destruct c as [[] [] [] [] [] [] [] []]; try discriminate H; (split; [reflexivity|intros s; reflexivity]). Qed.

Lemma backup_text s :
  all_chars backup_char s = true -> lacks "-" s = true ∧ ToUpper s = s.
Proof.
  induction s as [|c s IH]; [done|]. intros [Hc Hs]%andb_true_iff. destruct (IH Hs) as [H1 H2].
  destruct (backup_char_lacks c Hc) as [Hd Hu]. split; [|by rewrite Hu, H2]. simpl. by rewrite Hd, H1.
Qed.

Lemma all_chars_app p a b : all_chars p (a +:+ b) = all_chars p a && all_chars p b.
Proof. induction a as [|c a IH]; [done|]. rewrite string_cons_app. simpl. by rewrite IH, andb_assoc. Qed.

Lemma take_drop n s : str_take n s +:+ str_drop n s = s.
Proof. revert s. induction n as [|n IH]; intros [|c s]; try done. simpl. rewrite string_cons_app. by rewrite IH. Qed.

(** The clean form of a generated code is its eight characters. *)
Lemma generated_clean bytes :
  length bytes = 8%nat ->
  String.length (cleanCode (generateRandomBackupCode bytes)) = 8%nat ∧
  all_chars backup_char (cleanCode (generateRandomBackupCode bytes)) = true.
Proof.
  intros Hlen. unfold generateRandomBackupCode. set (code := text_of (map code_char bytes)).
  assert (all_chars backup_char code = true) as Hall.
  { unfold code. clear. induction bytes as [|b l IH]; [done|]. simpl. by rewrite code_char_ok, IH. }
  assert (String.length code = 8%nat) as Hcl.
  { unfold code. rewrite <- Hlen. clear. induction bytes as [|b l IH]; [done|]. simpl. by rewrite IH. }
  rewrite <- (take_drop 4 code) in Hall. rewrite all_chars_app in Hall. apply andb_true_iff in Hall as [Ha Hb].
  assert (cleanCode (str_take 4 code +:+ "-" +:+ str_drop 4 code) = code) as ->.
  { unfold cleanCode, ReplaceAll. destruct (backup_text _ Ha) as [La _], (backup_text _ Hb) as [Lb _].
    change (str_take 4 code +:+ "-" +:+ str_drop 4 code) with (GoString.Join [str_take 4 code; str_drop 4 code] "-").
    rewrite Split_Join by (by repeat constructor).
    change (GoString.Join [str_take 4 code; str_drop 4 code] "") with (str_take 4 code +:+ "" +:+ str_drop 4 code).
    rewrite string_nil_app, take_drop. apply backup_text. rewrite <- (take_drop 4 code), all_chars_app. by rewrite Ha, Hb. }
  split; [done|]. rewrite <- (take_drop 4 code), all_chars_app. by rewrite Ha, Hb.
Qed.

Section issuing.
Context {CFG : Config} {ID : Identity} {IL : IdentityLaws ID}.

(** The code has an unused row. *)
Definition on_file (u : Z) (w : World) (code : string) : Prop :=
  ∃ id c salt, Tables_backup_codes (World_db w) !! id = Some c ∧ id < Tables_next_backup_code (World_db w) ∧
    unused u c = true ∧ Password2Hash salt (NormalizeBackupCode code) = Ok (TwoFABackupCode_CodeHash c).

Lemma on_file_accepted u w code typed :
  no_faults w -> on_file u w code -> backup_format code = true -> cleanCode typed = cleanCode code ->
  (ValidateBackupCode u typed w).1 = Ok true.
Proof.
  intros Hn (id & c & salt & Hm & _ & Hu & Hh) Hf Heq.
  assert (backup_format typed = true) as Hft by (unfold backup_format in *; by rewrite Heq).
  assert (NormalizeBackupCode typed = NormalizeBackupCode code) as Hnorm.
  { unfold NormalizeBackupCode. rewrite Heq. unfold backup_format in Hf. apply andb_true_iff in Hf as [-> _]. done. }
  unfold ValidateBackupCode, bind, fail_if, select. rewrite Hft. simpl. rewrite exec_no_faults by done.
  destruct (List.find _ _) as [[id' c']|] eqn:E.
  - unfold GetTimestamp, gets, update. simpl. by rewrite exec_no_faults.
  - exfalso. pose proof (find_none _ _ E (id, c)) as Hx. simpl in Hx. rewrite Hnorm, (hash_validates _ _ _ Hh) in Hx.
    discriminate Hx. apply list_elem_of_In. unfold unused_codes. apply list_elem_of_In, filter_In. split; [|done].
    apply list_elem_of_In. rewrite merge_sort_Permutation. by apply elem_of_map_to_list.
Qed.

Lemma issue_loop u l w :
  no_faults w ->
  wp (for_each (λ '(salt, code),
      let! hashedCode := lift_result (HashBackupCode salt code) in
      update (on_db (λ db, set_Tables_next_backup_code (Tables_next_backup_code db + 1)
        (set_Tables_backup_codes (<[Tables_next_backup_code db :=
           mkTwoFABackupCode u hashedCode false None false]> (Tables_backup_codes db)) db)))) l)
    (λ r w', match r with
             | Ok _ => no_faults w' ∧ (∀ code, on_file u w code -> on_file u w' code) ∧ ∀ x, x ∈ l -> on_file u w' x.2
             | Err _ => True
             end) w.
Proof.
  revert w. induction l as [|[salt code] l IH]; intros w Hn; simpl.
  - apply wp_ret. split_and!; [done..|]. set_solver.
  - apply wp_bind, wp_bind. destruct (HashBackupCode salt code) as [h|e] eqn:Eh; [|by apply wp_fail].
    apply wp_ret, wp_update_nf; [done|]. set (w1 := on_db _ w).
    assert (∀ code, on_file u w code -> on_file u w1 code) as Hold.
    { intros code' (id & c & s & Hm & Hid & Hu & Hh). exists id, c, s. unfold w1. simpl. split_and!; [|lia|done..].
      rewrite lookup_insert_ne; [done|lia]. }
    assert (on_file u w1 code) as Hnew.
    { eexists _, _, salt. unfold w1. simpl. rewrite lookup_insert_eq. split_and!; [done|lia| |exact Eh].
      unfold unused. simpl. by rewrite Z.eqb_refl. }
    eapply wp_mono; [by apply (IH w1)|]. intros [?|?] w' H; [|done]. destruct H as (Hn' & H1 & H2).
    split_and!; [done|by auto|]. intros x [->|Hx]%elem_of_cons; [by apply H1|by apply H2].
Qed.

(** An issued code works: the codes handed out when the second factor is set up are all
    accepted, typed in any mix of cases and with or without the dash. *)
Theorem issued_codes_accepted u salts codes w w' code typed :
  no_faults w -> length salts = length codes ->
  CreateBackupCodes u salts codes w = (Ok tt, w') ->
  Forall (λ c, ∃ bytes, length bytes = 8%nat ∧ c = generateRandomBackupCode bytes) codes ->
  code ∈ codes -> cleanCode typed = cleanCode code ->
  (ValidateBackupCode u typed w').1 = Ok true.
Proof.
  intros Hn Hlen Hrun Hgen Hin Heq.
  assert (no_faults w' ∧ on_file u w' code) as [Hn' Hfile].
  { apply (wp_run (CreateBackupCodes u salts codes) (λ r w', match r with
      | Ok _ => no_faults w' ∧ on_file u w' code | Err _ => True end) w (Ok tt) w' Hrun).
    unfold CreateBackupCodes. apply wp_transaction_nf; [done|]. apply wp_bind, wp_update_nf; [done|].
    eapply wp_mono; [by apply issue_loop|]. intros [?|?] w1 H; [|done]. destruct H as (Hn1 & _ & H).
    split; [done|]. split; [done|]. apply list_elem_of_lookup in Hin as [i Hi].
    destruct (lookup_lt_is_Some_2 salts i) as [s Hs]; [rewrite Hlen; by eapply lookup_lt_Some|].
    apply (H (s, code)). apply list_elem_of_lookup. exists i. apply lookup_zip_with_Some. eauto. }
  rewrite Forall_forall in Hgen. destruct (Hgen code Hin) as (bytes & Hb & ->).
  destruct (generated_clean bytes Hb) as [H1 H2].
  apply (on_file_accepted u w' (generateRandomBackupCode bytes)); [done..| |done].
  unfold backup_format. by rewrite H1, H2.
Qed.
End issuing.
