(* ===== verification/LoginProps.v ===== *)
(** * LoginProps: what a session and a token prove

    A session that names a user was opened with that user's password and, unless the
    second factor was off at the time, with a right second factor; it carries the rank
    the row had then.  A disabled user's tokens are refused from the moment the
    administrator's request is answered. *)

From S2P Require Export RootProps TwoFactorProps.
From S2P Require Import Prelude.

Section login.
Context {CFG : Config} {ID : Identity} {SITE : Site} {TP : Totp} {CB : Casbin}.

(** ** What a request proves *)

Inductive Event : Type :=
| ELogin (ip : string) (body : option (string * string))
| EVerify (ip code : string)
| ELogout.

Definition respond (s : WebSession) (e : Event) : GM WebSession :=
  match e with
  | ELogin ip body => Login s ip body
  | EVerify ip code => Verify2FALogin s ip code
  | ELogout => Logout s
  end.

(** The password of an enabled account. *)
Definition proves_password (w : World) (e : Event) (id : Z) (u : User) : Prop :=
  ∃ ip name password, e = ELogin ip (Some (name, password)) ∧ user_row id w = Some u ∧
    (User_Username u = TrimSpace name ∨ User_Email u = TrimSpace name) ∧
    ValidatePasswordAndHash password (User_Password u) = true ∧ User_Status u = UserStatusEnabled.

Definition factor_on (w : World) (id : Z) : bool :=
  match twofa_row id w with Some t => TwoFA_IsEnabled t | None => false end.

(** The current one-time password, or an unused backup code. *)
Definition right_code (w : World) (t : TwoFA) (code : string) : Prop :=
  (∃ clean, ValidateNumericCode code = Ok clean ∧
     totp_Validate (ReplaceAll clean " " "") (TwoFA_Secret t) (World_now w) = true) ∨
  (∃ id bc, (id, bc) ∈ unused_codes (TwoFA_UserId t) w ∧
     ValidatePasswordAndHash (NormalizeBackupCode code) (TwoFABackupCode_CodeHash bc) = true).

Definition proves_factor (w : World) (e : Event) (id : Z) : Prop :=
  ∃ ip code t, e = EVerify ip code ∧ twofa_row id w = Some t ∧ TwoFA_IsEnabled t = true ∧ right_code w t code.

(** ** The handlers *)

Lemma wp_ValidateAndFill name password Q w :
  no_faults w -> (∀ e, Q (Err e) w) ->
  (∀ id u, user_row id w = Some u -> (User_Username u = TrimSpace name ∨ User_Email u = TrimSpace name) ->
     ValidatePasswordAndHash password (User_Password u) = true -> User_Status u = UserStatusEnabled ->
     Q (Ok (id, u)) w) ->
  wp (ValidateAndFill name password) Q w.
Proof.
  intros Hn He HQ. unfold ValidateAndFill. apply wp_bind, wp_fail_if; [intros; apply He|]. intros _.
  apply wp_bind, wp_attempt, wp_first_nf; [done|]. destruct (first_user _ _) as [[id u]|] eqn:E; [|apply He].
  apply first_user_found in E as [Hu Hm]. rewrite orb_true_iff, !bool_decide_eq_true in Hm.
  destruct (ValidatePasswordAndHash password (User_Password u)) eqn:Ev; simpl; [|apply He].
  destruct (User_Status u =? UserStatusEnabled) eqn:Es; simpl; [|apply He].
  apply wp_ret, HQ; [done..|]. by apply Z.eqb_eq.
Qed.

Lemma IsTwoFAEnabled_run id w : no_faults w -> id ≠ 0 -> IsTwoFAEnabled id w = (Ok (factor_on w id), w).
Proof.
  intros Hn Hid. unfold IsTwoFAEnabled, GetTwoFAByUserId, attempt, bind, fail_if, first, factor_on.
  rewrite (proj2 (Z.eqb_neq _ _) Hid). simpl. rewrite exec_no_faults by done. by destruct (twofa_row id w).
Qed.

(** The session [setupLogin] makes of a row. *)
Definition opened (s s' : WebSession) (id : Z) (u : User) : Prop :=
  s' = mkWebSession (Some id) (Some (User_Username u)) (Some (User_Role u)) (Some (User_Status u))
         (Some (User_Group u)) (sess_pending_username s) (sess_pending_user_id s).

Lemma wp_setupLogin s path ip id u w :
  wp (setupLogin s path ip id u) (λ r _, match r with Ok s' => opened s s' id u | Err _ => True end) w.
Proof.
  unfold setupLogin, wp, bind. destruct (UpdateUserLastLoginAt id w) as [[?|?] w1]; [|done].
  destruct (map_err _ session_save w1) as [[?|?] w2]; [|done].
  by destruct (recordLoginAudit id (User_Username u) path ip w2) as [[?|?] w3].
Qed.

(** What a login does to the session: opened when there is no second factor, else pending. *)
Lemma Login_session s ip body w s' w' :
  no_faults w -> (∀ u, user_row 0 w ≠ Some u) -> Login s ip body w = (Ok s', w') ->
  ∃ id u, proves_password w (ELogin ip body) id u ∧
    if factor_on w id
    then s' = {| s with sess_pending_username := Some (User_Username u); sess_pending_user_id := Some id |}
    else opened s s' id u.
Proof.
  intros Hn H0 Hrun.
  apply (wp_run (Login s ip body) (λ r _, match r with Ok s' => ∃ id u,
    proves_password w (ELogin ip body) id u ∧
    (if factor_on w id
     then s' = {| s with sess_pending_username := Some (User_Username u); sess_pending_user_id := Some id |}
     else opened s s' id u) | Err _ => True end) w (Ok s') w' Hrun).
  unfold Login. apply wp_bind, wp_fail_if; [done|]. intros _. apply wp_bind. destruct body as [[name password]|]; [|done].
  apply wp_ret, wp_bind, wp_fail_if; [done|]. intros _. apply wp_bind, wp_ValidateAndFill; [done|done|].
  intros id u Hu Hname Hpw Hst. assert (id ≠ 0) as Hid by (intros ->; by apply (H0 u)).
  assert (proves_password w (ELogin ip (Some (name, password))) id u) as Hp by (by exists ip, name, password).
  unfold wp, bind. rewrite IsTwoFAEnabled_run by done. destruct (factor_on w id) eqn:Ef.
  - destruct (map_err _ session_save w) as [[?|?] w1]; [|done]. simpl. exists id, u. by rewrite Ef.
  - pose proof (wp_setupLogin s "/api/user/login" ip id u w) as Hs. unfold wp in Hs.
    destruct (setupLogin s "/api/user/login" ip id u w) as [[s1|?] w1]; [|done]. simpl in *. exists id, u. by rewrite Ef.
Qed.

(** A code that was accepted was right. *)
Lemma wp_ValidateTOTP t code w :
  wp (ValidateTOTPAndUpdateUsage t code) (λ r w', match r with
    | Ok (true, _) => totp_Validate (ReplaceAll code " " "") (TwoFA_Secret t) (World_now w) = true
    | Ok (false, t') => TwoFA_UserId t' = TwoFA_UserId t ∧ Tables_backup_codes (World_db w') = Tables_backup_codes (World_db w)
    | Err _ => Tables_backup_codes (World_db w') = Tables_backup_codes (World_db w)
    end) w.
Proof.
  unfold ValidateTOTPAndUpdateUsage, IsLocked, ValidateTOTPCode. apply wp_bind, wp_bind, wp_gets, wp_ret.
  apply wp_bind, wp_fail_if; [done|]. intros _. apply wp_bind, wp_bind, wp_gets, wp_ret.
  unfold record_usage. destruct (_ && _) eqn:E.
  - apply andb_true_iff in E as [_ E]. apply wp_bind, wp_gets, wp_bind, wp_ignore. unfold wp. apply wp_ret, E.
  - unfold IncrementFailedAttempts. apply wp_bind, wp_bind, wp_gets, wp_bind, wp_ignore.
    unfold TwoFA_Update. apply wp_bind, wp_fail_if; [intros; by apply wp_ret, wp_ret|]. intros _.
    apply wp_exec; [intros; by apply wp_ret, wp_ret|]. intros fs. unfold wp at 1.
    repeat case_match; by apply wp_ret, wp_ret.
Qed.

Lemma wp_ValidateBackup_right u code w :
  wp (ValidateBackupCode u code) (λ r w', match r with
    | Ok true => ∃ id bc, (id, bc) ∈ unused_codes u w ∧
        ValidatePasswordAndHash (NormalizeBackupCode code) (TwoFABackupCode_CodeHash bc) = true
    | _ => True end) w.
Proof.
  unfold ValidateBackupCode. apply wp_bind, wp_fail_if; [done|]. intros _.
  apply wp_bind, wp_select; [done|]. intros fs. destruct (List.find _ _) as [[id bc]|] eqn:E; [|done].
  apply find_some in E as [Hin%list_elem_of_In Hv]. apply wp_bind, wp_gets, wp_bind, wp_update; [done|].
  intros fs'. apply wp_ret. by exists id, bc.
Qed.

Lemma unused_codes_ext u w w' :
  Tables_backup_codes (World_db w') = Tables_backup_codes (World_db w) -> unused_codes u w' = unused_codes u w.
Proof. unfold unused_codes. by intros ->. Qed.

Lemma wp_verify_code t code w :
  wp (verify_code t code) (λ r _, match r with Ok _ => right_code w t code | Err _ => True end) w.
Proof.
  assert (∀ t' w', TwoFA_UserId t' = TwoFA_UserId t ->
    Tables_backup_codes (World_db w') = Tables_backup_codes (World_db w) ->
    wp (let! r := ValidateBackupCodeAndUpdateUsage t' code in fail_if (negb r.1) wrong_code)
      (λ r _, match r with Ok _ => right_code w t code | Err _ => True end) w') as Hb.
  { intros t' w' Ht Hw. unfold ValidateBackupCodeAndUpdateUsage, IsLocked.
    apply wp_bind, wp_bind, wp_bind, wp_gets, wp_ret, wp_bind, wp_fail_if; [done|]. intros _.
    apply wp_bind. eapply wp_mono; [apply wp_ValidateBackup_right|]. intros [[]|] w1 H; [| |done].
    - destruct H as (i & bc & Hin & Hv). rewrite Ht, (unused_codes_ext _ _ _ Hw) in Hin.
      unfold record_usage. apply wp_bind, wp_gets, wp_bind, wp_ignore. unfold wp. cbn.
      right. by exists i, bc.
    - unfold record_usage, IncrementFailedAttempts. apply wp_bind, wp_bind, wp_gets, wp_bind, wp_ignore. by unfold wp. }
  unfold verify_code. apply wp_bind. destruct (ValidateNumericCode code) as [clean|] eqn:Ec.
  - apply wp_bind, wp_attempt. eapply wp_mono; [apply wp_ValidateTOTP|]. intros [[[] t']|] w' H; apply wp_ret.
    + left. by exists clean.
    + destruct H. by apply Hb.
    + by apply Hb.
  - apply wp_ret. by apply Hb.
Qed.

Lemma Verify_session s ip code w s' w' :
  no_faults w -> Verify2FALogin s ip code w = (Ok s', w') ->
  ∃ id u, sess_pending_user_id s = Some id ∧ user_row id w = Some u ∧ proves_factor w (EVerify ip code) id ∧
    opened {| s with sess_pending_username := None; sess_pending_user_id := None |} s' id (omit_secrets u).
Proof.
  intros Hn Hrun. pattern s' in Hrun.
  set (Q := λ (r : result WebSession) (_ : World), match r with Ok s' => ∃ id u, sess_pending_user_id s = Some id ∧
    user_row id w = Some u ∧ proves_factor w (EVerify ip code) id ∧
    opened {| s with sess_pending_username := None; sess_pending_user_id := None |} s' id (omit_secrets u)
    | Err _ => True end).
  apply (wp_run (Verify2FALogin s ip code) Q w (Ok s') w' Hrun). unfold Verify2FALogin. apply wp_bind.
  destruct (sess_pending_user_id s) as [id|]; [|done]. apply wp_ret, wp_bind, wp_map_err, wp_bind, wp_fail_if; [done|].
  intros _. apply wp_first_nf; [done|]. destruct (user_row id w) as [u|] eqn:Hu; [|done]. simpl.
  apply wp_bind. unfold enabled_twofa, GetTwoFAByUserId. apply wp_bind, wp_bind, wp_fail_if; [done|]. intros _.
  apply wp_bind, wp_attempt, wp_first_nf; [done|]. destruct (twofa_row id w) as [t|] eqn:Ht; apply wp_ret; [|done].
  destruct (TwoFA_IsEnabled t) eqn:Ee; [|done]. apply wp_ret, wp_bind.
  eapply wp_mono; [apply wp_verify_code|]. intros [?|] w1 Hc; [|done].
  apply wp_bind, wp_ignore. unfold wp at 1. set (w2 := (session_save w1).2). destruct (session_save w1) as [r1 w2'].
  eapply wp_mono; [apply wp_setupLogin|]. intros [s1|] w3 Ho; [|done]. exists id, u. split_and!; [done|done| |done].
  by exists ip, code, t.
Qed.

(** ** Traces of one browser *)

(** The requests of one browser, the last one first, each with the world it met: between
    them anything may have happened.  A request that fails leaves the cookie as it was. *)
Inductive session_run : WebSession -> list (World * Event) -> Prop :=
| run_start : session_run emptyWebSession []
| run_step s tr w e s' w' :
    session_run s tr -> no_faults w -> user_row 0 w = None -> respond s e w = (Ok s', w') ->
    session_run s' ((w, e) :: tr).

(** Somewhere in the trace the password of the enabled account was given, with the second
    factor off or on. *)
Definition password_given (on : bool) (id : Z) (tr : list (World * Event)) : Prop :=
  ∃ w e u, (w, e) ∈ tr ∧ proves_password w e id u ∧ factor_on w id = on.

(** A request of the trace that opened the session for the row [u]. *)
Definition opened_for (s : WebSession) (id : Z) (tr : list (World * Event)) : Prop :=
  ∃ w e u, (w, e) ∈ tr ∧ user_row id w = Some u ∧ sess_role s = Some (User_Role u) ∧
    sess_username s = Some (User_Username u) ∧ sess_status s = Some (User_Status u) ∧
    ((proves_password w e id u ∧ factor_on w id = false) ∨
     (proves_factor w e id ∧ password_given true id tr)).

Lemma password_given_cons on id x tr : password_given on id tr -> password_given on id (x :: tr).
Proof. intros (w & e & u & ? & ?). exists w, e, u. split; [set_solver|done]. Qed.

Lemma opened_for_cons s id x tr : opened_for s id tr -> opened_for s id (x :: tr).
Proof.
  intros (w & e & u & ? & ? & ? & ? & ? & H). exists w, e, u. split_and!; [set_solver|done..|].
  destruct H as [?|[? ?]]; [by left|right]. split; [done|by apply password_given_cons].
Qed.

(** C14. What a cookie proves, where it is made by passwords. Take any browser and any
    sequence of its log-ins by password, second-factor checks and log-outs, each of
    which meets a database that answers and has no account with id 0, with anything at
    all happening to the database between them. If the session then names a user, one of
    the requests opened it while the row had the rank, name and status the session
    carries, and that request either gave the right password of the enabled account when
    no second factor was on, or gave a right one-time or unused backup code after
    another request of the same browser had given the right password. Log-ins by OAuth,
    passkey, WeChat and Telegram are not covered, and a failing statement can let the
    password alone suffice ([second_factor_fails_open]). *)
Theorem session_authentic s tr id :
  session_run s tr -> sess_id s = Some id -> opened_for s id tr.
Proof.
  intros Hr. cut ((∀ i, sess_pending_user_id s = Some i -> password_given true i tr) ∧
                  (∀ i, sess_id s = Some i -> opened_for s i tr)); [intros [_ H]; apply H|].
  induction Hr as [|s tr w e s' w' _ [IHp IHo] Hn H0 Hrun]; [done|].
  destruct e as [ip body|ip code|].
  - apply Login_session in Hrun as (i & u & Hp & Hrun); [|done|by rewrite H0].
    assert (user_row i w = Some u) as Hu by (by destruct Hp as (? & ? & ? & _ & ? & _)).
    destruct (factor_on w i) eqn:Ef.
    + subst s'. split; simpl.
      * intros j [= <-]. exists w, (ELogin ip body), u. split_and!; [set_solver|done|done].
      * intros j Hj. by apply opened_for_cons, IHo.
    + rewrite Hrun. split; simpl.
      * intros j Hj. by apply password_given_cons, IHp.
      * intros j [= <-]. exists w, (ELogin ip body), u. split_and!; [set_solver|done..|]. by left.
  - apply Verify_session in Hrun as (i & u & Hpend & Hu & Hf & ->); [|done]. split; simpl; [done|].
    intros j [= <-]. exists w, (EVerify ip code), u. split_and!; [set_solver|done..|]. right. split; [done|].
    by apply password_given_cons, IHp.
  - apply (wp_run (Logout s) (λ r _, match r with Ok s' => s' = emptyWebSession | Err _ => True end) w (Ok s') w')
      in Hrun; [subst s'; by split|]. unfold Logout. apply wp_bind. unfold wp. by destruct (session_save w) as [[]].
Qed.

End login.

(** ** A disabled user *)

Section shut.
Context {CFG : Config} {ID : Identity} {SITE : Site} {TP : Totp} {CB : Casbin} {GW : Gateway}.

(** The row is disabled and the cache has no copy of it. *)
Definition shut (id : Z) (w : World) : Prop :=
  (∃ u, user_row id w = Some u ∧ User_Status u = UserStatusDisabled) ∧
  (RedisEnabled = true -> World_redis_users w !! id = None).

Lemma shut_ext id w w' :
  users_of w' = users_of w -> World_redis_users w' = World_redis_users w -> shut id w -> shut id w'.
Proof. unfold shut, user_row, users_of. by intros -> ->. Qed.

#[export] Instance shut_stable id : Stable (shut id).
Proof. split; [by intros ? ?; apply shut_ext|]. intros w w1 Hw Hw1. unfold st_rollback. simpl.
  destruct Hw as [Hw _], Hw1 as [_ Hw1]. by split. Qed.

Ltac shut_step :=
  first [ progress intros
        | keeps_step
        | kapply (keeps_select _ _ anything); done
        | kapply (keeps_gets _ _ anything); done
        | kapply (keeps_first _ _ anything); done
        | kapply keeps_update; intros ? ?; by eapply shut_ext
        | kapply keeps_modify; intros ? ?; by eapply shut_ext
        | kapply (keeps_go _ _); intros ? ? ?; by eapply shut_ext
        | progress case_match
        | exact Logic.I
        | done ].
Ltac shut_walk := repeat shut_step.

(** Past a program that keeps the account shut. *)
Ltac keep_on Hw :=
  lazymatch type of Hw with shut ?id ?w =>
    lazymatch goal with |- wp ?m _ _ =>
      eapply (wp_mono m (λ r w', shut id w' ∧ match r with Ok _ => True | Err _ => True end));
      [refine ((_ : keeps (shut id) m anything) w Hw)|]
    end
  end.

Lemma shut_GetTokenByKey id key b : keeps (shut id) (GetTokenByKey key b) anything.
Proof. unfold GetTokenByKey, cacheGetTokenByKey. shut_walk. Qed.

Lemma shut_ValidateUserToken id key : keeps (shut id) (ValidateUserToken key) anything.
Proof.
  unfold ValidateUserToken, SelectUpdate. case_bool_decide; [shut_walk|].
  eapply keeps_bind; [kapply keeps_attempt; apply shut_GetTokenByKey|]. intros. shut_walk.
Qed.

(** The gateway sees the row's status, whatever fails. *)
Lemma shut_GetUserCache id w : shut id w ->
  wp (GetUserCache id) (λ r _, match r with Ok b => UserBase_Status b = UserStatusDisabled | Err _ => True end) w.
Proof.
  intros [(u & Hu & Hs) Hc]. unfold GetUserCache. apply wp_bind, wp_attempt.
  assert (∀ w', users_of w' = users_of w -> wp (let! u := GetUserById id false in
      do! (if RedisEnabled then go (JPopulateUserCache id u) else ret tt) in ret (ToBaseUser u))
    (λ r _, match r with Ok b => UserBase_Status b = UserStatusDisabled | Err _ => True end) w') as Hdb.
  { intros w' Hw'. apply wp_bind. unfold GetUserById. apply wp_bind, wp_fail_if; [done|]. intros _.
    apply wp_first; [done..|]. intros u' fs' Hu'. unfold user_row in *. cbn in Hu'.
    change (Tables_users (World_db w')) with (users_of w') in Hu'. rewrite Hw' in Hu'. unfold users_of in Hu'.
    rewrite Hu in Hu'. injection Hu' as <-. apply wp_bind. by destruct RedisEnabled; [apply wp_go|apply wp_ret]; apply wp_ret. }
  unfold cacheGetUserBase. destruct RedisEnabled; [|by apply Hdb].
  apply wp_bind, wp_map_err, wp_select; [intros; by apply Hdb|]. intros fs. simpl. rewrite Hc by done. by apply Hdb.
Qed.

Lemma SetupContextForToken_token t u g parts w :
  wp (SetupContextForToken t u g parts) (λ r _, match r with Ok tc => tc_token tc = t | Err _ => True end) w.
Proof.
  unfold SetupContextForToken, wp, bind. repeat case_match; simplify_eq/=; try done.
  all: repeat case_match; simplify_eq/=; done.
Qed.

Lemma wp_after {A B} (m : GM A) (k : A -> GM B) (P : B -> Prop) w :
  (∀ a w', wp (k a) (λ r _, match r with Ok b => P b | Err _ => True end) w') ->
  wp (bind m k) (λ r _, match r with Ok b => P b | Err _ => True end) w.
Proof. intros H. apply wp_bind. unfold wp at 1. by destruct (m w) as [[a|e] w']; [apply H|]. Qed.

(** No token of the user is let through. *)
Lemma shut_TokenAuth id r w : shut id w ->
  wp (TokenAuth r) (λ res _, match res with Ok tc => Token_UserId (tc_token tc) ≠ id | Err _ => True end) w.
Proof.
  intros Hw. unfold TokenAuth. apply wp_bind. eapply wp_mono; [by apply (shut_ValidateUserToken id)|].
  intros [[[t|] [e|]]|e] w1 [Hw1 _]; [done| |done..].
  destruct (decide (Token_UserId t = id)) as [<-|Hne].
  - apply wp_bind. keep_on Hw1; [shut_walk|]. intros [?|] w2 [Hw2 _]; [|done].
    apply wp_bind, wp_map_err. eapply wp_mono; [by apply shut_GetUserCache|]. intros [b|] w3 Hb; [|done].
    apply wp_bind, wp_fail_if; [done|]. by rewrite Hb.
  - do 4 (apply (wp_after _ _ (λ tc, Token_UserId (tc_token tc) ≠ id)); intros).
    eapply wp_mono; [apply SetupContextForToken_token|]. by intros [tc|] ? H; [rewrite H|].
Qed.

(** ** Disabling *)

Lemma wp_on_user_hash_nf id f Q w :
  no_faults w -> (∀ w', no_faults w' -> World_db w' = World_db w -> Q (Ok tt) w') -> wp (on_user_hash id f) Q w.
Proof.
  intros Hn HQ. unfold on_user_hash. apply wp_bind, wp_map_err, wp_select_nf; [done|].
  destruct (World_redis_users w !! id); [apply wp_update_nf; [done|]|apply wp_ret]; by apply HQ.
Qed.

Lemma wp_updateUserCache_nf id u Q w :
  no_faults w -> (∀ w', no_faults w' -> World_db w' = World_db w -> Q (Ok tt) w') -> wp (updateUserCache id u) Q w.
Proof.
  intros Hn HQ. unfold updateUserCache, updateUserGroupCache, updateUserEmailCache, updateUserStatusCache,
    updateUserNameCache, updateUserSettingCache.
  destruct RedisEnabled; [|by apply wp_ret, HQ].
  do 4 (apply wp_bind, wp_on_user_hash_nf; [done|]; intros ? ? ?).
  apply wp_on_user_hash_nf; [done|]. intros. apply HQ; [done|]. congruence.
Qed.

(** The write, and what the cache is left with. *)
Lemma wp_Update_status salt id user w :
  no_faults w -> User_Status user = UserStatusDisabled ->
  wp (Update salt id user false) (λ r w', match r with
    | Ok _ => no_faults w' ∧ ∃ u, user_row id w' = Some u ∧ User_Status u = UserStatusDisabled
    | Err _ => True end) w.
Proof.
  intros Hn Hs. unfold Update, UpdateWithTx, hash_if. apply wp_bind, wp_bind, wp_ret, wp_bind, wp_first_nf; [done|].
  destruct (user_row id w) as [u|] eqn:Hu; [|done]. apply wp_bind, wp_exec_nf; [done|]. unfold wp. rewrite Hu.
  destruct (conflict _ _ _); [done|]. cbn [fst snd]. set (w1 := on_db _ w).
  assert (user_row id w1 = Some (nonzero_updates user u)) as Hu1.
  { unfold user_row in *. subst w1. cbn. by rewrite lookup_alter_eq, Hu. }
  apply wp_first_nf; [done|]. rewrite Hu1. apply wp_bind, wp_updateUserCache_nf; [done|]. intros w' Hn' Hdb.
  apply wp_ret. split; [done|]. exists (nonzero_updates user u). split.
  - unfold user_row in *. by rewrite Hdb.
  - simpl. by rewrite Hs.
Qed.

Lemma shut_GetUserCache_keeps id i : keeps (shut id) (GetUserCache i) anything.
Proof. unfold GetUserCache, cacheGetUserBase, GetUserById. shut_walk. Qed.

Lemma shut_recordManageAuditFor id c i a ps : keeps (shut id) (recordManageAuditFor c i a ps) anything.
Proof.
  unfold recordManageAuditFor, RecordOperationAuditLog, GetUsernameById, getUserNameCache, createLog.
  eapply keeps_bind.
  { kapply keeps_attempt. destruct (_ && _); [|shut_walk]. eapply keeps_bind; [kapply keeps_attempt|intros [?|?]; shut_walk].
    eapply keeps_bind; [apply shut_GetUserCache_keeps|shut_walk]. }
  shut_walk.
Qed.

Lemma shut_delete_tokens_cache id ts e : keeps (shut id) (delete_tokens_cache ts e) anything.
Proof.
  revert e. induction ts as [|t ts IH]; intros e; simpl; [shut_walk|]. case_bool_decide; [apply IH|].
  eapply keeps_bind; [kapply keeps_attempt; unfold cacheDeleteToken; shut_walk|]. intros. apply IH.
Qed.

Lemma shut_InvalidateUserTokensCache id i : keeps (shut id) (InvalidateUserTokensCache i) anything.
Proof.
  unfold InvalidateUserTokensCache. destruct (negb RedisEnabled); [shut_walk|].
  eapply keeps_bind; [shut_walk|intros]. eapply keeps_bind; [kapply (keeps_select _ _ anything); done|intros].
  apply shut_delete_tokens_cache.
Qed.

Lemma wp_disable c req w :
  no_faults w -> Manage_Id req ≠ 0 -> Manage_Action req = "disable" ->
  wp (ManageUser c (Some req)) (λ r w', match r with Ok _ => shut (Manage_Id req) w' | Err _ => True end) w.
Proof.
  intros Hn Hid Ha. unfold ManageUser, load_target. apply wp_bind, wp_ret, wp_bind, wp_bind, wp_attempt, wp_first_nf; [done|].
  rewrite (proj2 (Z.eqb_neq _ _) Hid). cbn [orb].
  assert (∀ id' user w', no_faults w' -> id' = Manage_Id req ->
    wp (let! user := manage_user (caller_role c) "disable" id' user in
        let! user := Update "" id' user false in
        do! (do! ignore (invalidateUserCache id') in ignore (InvalidateUserTokensCache id')) in
        recordManageAuditFor c id' "user.manage" [AStr "disable"; AStr (User_Username user); AInt id'])
      (λ r w', match r with Ok _ => shut (Manage_Id req) w' | Err _ => True end) w') as Hgo.
  { intros id' user w' Hn' ->. apply wp_bind. cbn. apply wp_bind, wp_fail_if; [done|]. intros _. apply wp_ret, wp_bind.
    eapply wp_mono; [by apply wp_Update_status|]. intros [u|] w1 H; [|done]. destruct H as (Hn1 & Hu).
    apply wp_bind, wp_bind, wp_ignore.
    assert (wp (invalidateUserCache (Manage_Id req)) (λ _ w2, shut (Manage_Id req) w2) w1) as Hi.
    { unfold invalidateUserCache. destruct RedisEnabled eqn:Er.
      - apply wp_update_nf; [done|]. split; [exact Hu|]. intros _. cbn. apply lookup_delete_eq.
      - apply wp_ret. split; [exact Hu|]. by rewrite Er. }
    eapply wp_mono; [apply Hi|]. intros ? w2 Hw2. cbn beta in *. apply wp_ignore.
    keep_on Hw2; [apply shut_InvalidateUserTokensCache|]. intros ? w3 [Hw3 _].
    cbn beta. eapply wp_mono; [by apply shut_recordManageAuditFor|]. by intros [] ? []. }
  destruct (first_user _ _) as [[id' user]|] eqn:E; apply wp_ret; cbn match.
  - apply first_user_found in E as [_ ->%Z.eqb_eq]. apply wp_bind, wp_fail_if; [done|]. intros _.
    apply wp_bind, wp_fail_if; [done|]. intros _. rewrite Ha. cbn. by apply Hgo.
  - apply wp_bind, wp_fail_if; [done|]. intros _.
    apply wp_bind, wp_fail_if; [done|]. intros _. rewrite Ha. cbn. by apply Hgo.
Qed.

(** The request itself leaves the account shut. *)
Lemma shut_TokenAuth_keeps id r : keeps (shut id) (TokenAuth r) anything.
Proof.
  unfold TokenAuth. eapply keeps_bind; [apply shut_ValidateUserToken|]. intros [[t|] [e|]] _; [shut_walk| |shut_walk..].
  eapply keeps_bind; [shut_walk|intros].
  eapply keeps_bind; [kapply keeps_map_err; apply shut_GetUserCache_keeps|intros].
  unfold SetupContextForToken, IsAdmin. shut_walk.
Qed.

(** The gateway's further life: requests with tokens, one after the other, while the clock
    and the faults to come change.  Started goroutines do not run: a cache fill begun before
    the disabling may undo it, see [stale_populate_reenables]. *)
Inductive token_traffic (w : World) : World -> Prop :=
| traffic_outside now faults : token_traffic w (set_World_now now (set_World_faults faults w))
| traffic_request r : token_traffic w (TokenAuth r w).2.

Lemma shut_traffic id w w' : rtc token_traffic w w' -> shut id w -> shut id w'.
Proof.
  intros H Hw. induction H as [w|w w1 w2 [now faults|r] _ IH]; [done|..]; apply IH; [exact Hw|].
  by apply (shut_TokenAuth_keeps id r w).
Qed.

(** C17. Disabling an account takes effect at once.  When an administrator's request to disable
    user [id] is answered with success and no statement of it failed, then, after any number
    of requests with tokens, with any statements failing and the clock moving, no request
    that carries a token of that user passes [TokenAuth], whatever the key, address and
    path, with Redis or without, and whatever the caches held before the disabling.  No
    goroutine runs meanwhile: one that had read the user before and fills the cache
    afterwards lets the tokens in again. *)
Theorem disabled_user_locked_out c req w w' w1 r tc w2 :
  no_faults w -> Manage_Id req ≠ 0 -> Manage_Action req = "disable" ->
  ManageUser c (Some req) w = (Ok tt, w') -> rtc token_traffic w' w1 ->
  TokenAuth r w1 = (Ok tc, w2) -> Token_UserId (tc_token tc) ≠ Manage_Id req.
Proof.
  intros Hn Hid Ha Hm Hlife Ht. pose proof (wp_disable c req w Hn Hid Ha) as H. unfold wp in H. rewrite Hm in H. cbn in H.
  apply (shut_traffic _ _ _ Hlife), (shut_TokenAuth _ r) in H. unfold wp in H. by rewrite Ht in H.
Qed.

End shut.
