(* ===== verification/Override.v ===== *)
(** * Override: changing a request's body and headers by rules

    Models [relay/common/override.go]: the rules a channel carries ([param_override])
    are applied to the JSON body of a request before it is sent, and to the headers.

    A value of type [interface{}] is a [json] as [encoding/json] decodes it; a Go map is
    the list of its entries in the order of the keys.  The body is a [Text], which the
    libraries [gjson] and [sjson] read and write by path and [encoding/json] decodes:
    they are the interface [JsonText].  [regexp] on patterns of the administrator, the
    shortest form of a float64 and the case mapping of Unicode are in [Formatting]; the
    order in which a [range] visits a map is its [range_map]. *)

From Stdlib Require Import Ascii.
From S2P Require Export Json.
From S2P Require Import Prelude.

(** ** Libraries *)

(** [gjson.Result] of a path that exists: [Value()], [String()] and [Raw]. *)
Record gjson_Result (T : Type) : Type := mkResult { r_Value : json; r_String : string; r_Raw : T }.
Arguments mkResult {T}.
Arguments r_Value {T}.
Arguments r_String {T}.
Arguments r_Raw {T}.

Class JsonText : Type := {
  Text : Type;
  Unmarshal : Text -> result json;
  Marshal : json -> result Text;
  (** [common.UnmarshalJsonStr] of a text inside a value. *)
  UnmarshalJsonStr : string -> result json;
  (** [gjson.GetBytes] ([None] when the path does not exist) and [gjson.ParseBytes]. *)
  gjson_Get : Text -> string -> option (gjson_Result Text);
  gjson_Parse : Text -> gjson_Result Text;
  (** [sjson.SetBytes], [sjson.SetRawBytes], [sjson.DeleteBytes] *)
  sjson_Set : Text -> string -> json -> result Text;
  sjson_SetRaw : Text -> string -> Text -> result Text;
  sjson_Delete : Text -> string -> result Text;
}.

Class Formatting : Type := {
  DebugEnabled : bool;
  (** [strconv.FormatFloat] as [%v] uses it. *)
  FormatFloat : float64 -> string;
  (** [common.GetJsonString] *)
  GetJsonString : json -> string;
  (** [regexp.Compile] with [ReplaceAllString] of the compiled pattern. *)
  regexp_Compile : string -> result (string -> string -> string);
  (** [strings.EqualFold], [strings.ToLower] and [strings.ToUpper] on any text. *)
  EqualFold : string -> string -> bool;
  unicode_ToLower : string -> string;
  unicode_ToUpper : string -> string;
  range_map : list (string * json) -> list (string * json);
}.

(** ** Go maps and slices *)

Fixpoint lookup_field (key : string) (m : list (string * json)) : option json :=
  match m with
  | [] => None
  | (k, v) :: m => if String.eqb k key then Some v else lookup_field key m
  end.

(** [m[key] = v] *)
Fixpoint put_field (key : string) (v : json) (m : list (string * json)) : list (string * json) :=
  match m with
  | [] => [(key, v)]
  | (k, w) :: m =>
      match String.compare key k with
      | Eq => (k, v) :: m
      | Lt => (key, v) :: (k, w) :: m
      | Gt => (k, w) :: put_field key v m
      end
  end.

Definition del_field (key : string) (m : list (string * json)) : list (string * json) :=
  List.filter (λ kv, negb (String.eqb kv.1 key)) m.

(** [lo.Uniq] *)
Fixpoint uniq_from (seen : list string) (l : list string) : list string :=
  match l with
  | [] => []
  | x :: l => if bool_decide (x ∈ seen) then uniq_from seen l else x :: uniq_from (x :: seen) l
  end.
Definition Uniq (l : list string) : list string := uniq_from [] l.

Definition sort_keys (l : list string) : list string := merge_sort (λ a b, Is_true (String.leb a b)) l.

Definition as_bool (v : option json) : option bool := match v with Some (JBool b) => Some b | _ => None end.
Definition as_str (v : option json) : option string := match v with Some (JString s) => Some s | _ => None end.

(** [strings.ToLower] where the result is compared with words of ASCII: besides the
    capitals, the dotted I and the Kelvin sign have a lower case in ASCII. *)
Definition word_ToLower (s : string) : string := ToLower (ReplaceAll (ReplaceAll s "İ" "i") "K" "k").

(** ** Types ([ConditionOperation], [ParamOperation], [ParamOverrideReturnError]) *)

Record ConditionOperation : Type := mkCondition {
  cond_Path : string;
  cond_Mode : string;
  cond_Value : json;
  cond_Invert : bool;
  cond_PassMissingKey : bool;
}.
Record ParamOperation : Type := mkOperation {
  op_Path : string;
  op_Mode : string;
  op_Value : json;
  op_KeepOrigin : bool;
  op_From : string;
  op_To : string;
  op_Conditions : list ConditionOperation;
  op_Logic : string;
}.
Record ParamOverrideReturnError : Type := mkReturnError {
  re_Message : string;
  re_StatusCode : Z;
  re_Code : string;
  re_Type : string;
  re_SkipRetry : bool;
}.

(** The errors of [ApplyParamOverride]. *)
Inductive override_error : Type :=
| OFail (e : error)
| OReturn (r : ParamOverrideReturnError).

Definition ReturnError_Error (e : ParamOverrideReturnError) : string :=
  if bool_decide (re_Message e = "") then "param override return error" else re_Message e.

Definition AsParamOverrideReturnError (e : override_error) : option ParamOverrideReturnError :=
  match e with OReturn r => Some r | OFail _ => None end.

(** The fields of [types.NewAPIError] that [WithOpenAIError] fills. *)
Record BlockedError : Type := mkBlocked {
  be_Message : string; be_Type : string; be_Code : string; be_StatusCode : Z; be_SkipRetry : bool }.

Definition StatusContinue : Z := 100.
Definition StatusNetworkAuthenticationRequired : Z := 511.
Definition StatusBadRequest : Z := 400.
Definition status_in_range (n : Z) : bool := (StatusContinue <=? n) && (n <=? StatusNetworkAuthenticationRequired).

Definition NewAPIErrorFromParamOverride (err : ParamOverrideReturnError) : BlockedError :=
  let or s d := if bool_decide (TrimSpace s = "") then d else s in
  let message := TrimSpace (re_Message err) in
  mkBlocked (if bool_decide (message = "") then "request blocked by param override" else message)
    (or (re_Type err) "invalid_request_error")
    (or (re_Code err) ErrorCodeInvalidRequest)
    (if status_in_range (re_StatusCode err) then re_StatusCode err else StatusBadRequest)
    (re_SkipRetry err).

Section formatting.
Context {FM : Formatting}.

(** [fmt.Sprintf("%v", value)] *)
Fixpoint Sprint (v : json) : string :=
  match v with
  | JNull => "<nil>"
  | JBool b => if b then "true" else "false"
  | JNumber f => FormatFloat f
  | JString s => s
  | JArray l => "[" +:+ GoString.Join (map Sprint l) " " +:+ "]"
  | JObject m => "map[" +:+ GoString.Join (map (λ kv, kv.1 +:+ ":" +:+ Sprint kv.2) m) " " +:+ "]"
  end.

(** ** Audit lines *)

Definition paramOverrideSensitivePathPrefixes : list string :=
  ["model"; "original_model"; "upstream_model"; "service_tier"; "inference_geo"; "speed"; "messages"; "input";
   "instructions"; "system"; "contents"; "systemInstruction"; "system_instruction"].

Definition shouldAuditParamPath (path : string) : bool :=
  let path := TrimSpace path in
  if bool_decide (path = "") then false
  else DebugEnabled || existsb (λ p, String.eqb path p || HasPrefix path (p +:+ ".")) paramOverrideSensitivePathPrefixes.

Definition shouldAuditOperation (path from to : string) : bool :=
  DebugEnabled || existsb shouldAuditParamPath [path; from; to].

Definition formatParamOverrideAuditValue (value : json) : string :=
  match value with JNull => "<empty>" | JString s => s | v => GetJsonString v end.

Definition buildParamOverrideAuditLine (mode path from to : string) (value : json) : string :=
  let mode := TrimSpace mode in
  let path := TrimSpace path in
  let from := TrimSpace from in
  let to := TrimSpace to in
  let v := formatParamOverrideAuditValue value in
  let at_path line := if bool_decide (path = "") then "" else line in
  let between line := if bool_decide (from = "") || bool_decide (to = "") then "" else line in
  if negb (shouldAuditOperation path from to) then ""
  else if bool_decide (mode = "set") then at_path ("set " +:+ path +:+ " = " +:+ v)
  else if bool_decide (mode = "delete") then at_path ("delete " +:+ path)
  else if bool_decide (mode ∈ ["copy"; "move"]) then between (mode +:+ " " +:+ from +:+ " -> " +:+ to)
  else if bool_decide (mode ∈ ["prepend"; "append"; "trim_prefix"; "trim_suffix"; "ensure_prefix"; "ensure_suffix"])
       then at_path (mode +:+ " " +:+ path +:+ " with " +:+ v)
  else if bool_decide (mode ∈ ["trim_space"; "to_lower"; "to_upper"]) then at_path (mode +:+ " " +:+ path)
  else if bool_decide (mode ∈ ["replace"; "regex_replace"])
       then at_path (mode +:+ " " +:+ path +:+ " from " +:+ from +:+ " to " +:+ to)
  else if bool_decide (mode = "set_header") then at_path ("set_header " +:+ path +:+ " = " +:+ v)
  else if bool_decide (mode = "delete_header") then at_path ("delete_header " +:+ path)
  else if bool_decide (mode ∈ ["copy_header"; "move_header"; "sync_fields"])
       then between (mode +:+ " " +:+ from +:+ " -> " +:+ to)
  else if bool_decide (mode = "pass_headers") then "pass_headers " +:+ v
  else if bool_decide (mode = "return_error") then "return_error " +:+ v
  else if bool_decide (path = "") then mode else mode +:+ " " +:+ path.

(** The recorder, when there is one. *)
Definition recordOperation (mode path from to : string) (value : json) (r : option (list string)) : option (list string) :=
  lines ← r;
  let line := buildParamOverrideAuditLine mode path from to value in
  Some (if bool_decide (line = "") || bool_decide (line ∈ lines) then lines else lines ++ [line]).

End formatting.

(** ** Paths *)

(** The matches of [\.(-\d+)]: the numbers with their sign, from left to right. *)
Definition is_digit (c : ascii) : bool := match ascii_digit c with Some _ => true | None => false end.
Fixpoint span_digits (s : string) : string * string :=
  match s with
  | String c r => if is_digit c then let '(a, b) := span_digits r in (String c a, b) else ("", s)
  | EmptyString => ("", "")
  end.
Fixpoint negative_indices (fuel : nat) (s : string) : list string :=
  match fuel, s with
  | S fuel, String "." (String "-" r) =>
      match span_digits r with
      | (EmptyString, _) => negative_indices fuel (String "-" r)
      | (digits, rest) => ("-" +:+ digits) :: negative_indices fuel rest
      end
  | S fuel, String _ r => negative_indices fuel r
  | _, _ => []
  end.

Section body.
Context {JT : JsonText} {FM : Formatting}.

Definition array_length (data : Text) (path : string) : option Z :=
  match gjson_Get data path with
  | Some r => match r_Value r with JArray l => Some (Z.of_nat (length l)) | _ => None end
  | None => None
  end.

(** One match; the path before the number is taken from the path as it was given. *)
Definition resolve_negative (data : Text) (path result negIndex : string) : string :=
  let index := default (- 2 ^ 63) (Atoi negIndex) in
  let arrayPath := TrimSuffix (hd "" (Split path negIndex)) "." in
  match array_length data arrayPath with
  | Some length =>
      let actualIndex := length + index in
      if (0 <=? actualIndex) && (actualIndex <? length)
      then ReplaceFirst result ("." +:+ negIndex) ("." +:+ pretty actualIndex) else result
  | None => result
  end.

Definition processNegativeIndex (data : Text) (path : string) : string :=
  foldl (resolve_negative data path) path (negative_indices (String.length path) path).

(** ** Conditions *)

(** [gjson.Type] and its name *)
Inductive GType : Type := GNull | GFalse | GNumber | GTrue | GString | GJSON.
#[global] Instance GType_eq_dec : EqDecision GType.
Proof. solve_decision. Defined.
Definition gtype (v : json) : GType :=
  match v with
  | JNull => GNull
  | JBool b => if b then GTrue else GFalse
  | JNumber _ => GNumber
  | JString _ => GString
  | JArray _ | JObject _ => GJSON
  end.
Definition type_name (t : GType) : string :=
  match t with
  | GNull => "Null" | GFalse => "False" | GNumber => "Number"
  | GTrue => "True" | GString => "String" | GJSON => "JSON"
  end.
Definition is_boolean (v : json) : bool := match v with JBool _ => true | _ => false end.

Definition compareEqual (jsonValue targetValue : gjson_Result Text) : result bool :=
  let a := r_Value jsonValue in
  let b := r_Value targetValue in
  if bool_decide (gtype a = GNull) || bool_decide (gtype b = GNull)
  then Ok (bool_decide (gtype a = GNull) && bool_decide (gtype b = GNull))
  else if is_boolean a && is_boolean b then Ok (bool_decide (gtype a = gtype b))
  else if negb (bool_decide (gtype a = gtype b))
  then Err (EText ("compare for different types, got " +:+ type_name (gtype a) +:+ " and " +:+ type_name (gtype b)))
  else match a, b with
       | JNumber x, JNumber y => Ok (feqb x y)
       | _, _ => Ok (String.eqb (r_String jsonValue) (r_String targetValue))
       end.

Definition compareNumeric (jsonValue targetValue : gjson_Result Text) (operator : string) : result bool :=
  match r_Value jsonValue, r_Value targetValue with
  | JNumber x, JNumber y =>
      if bool_decide (operator = "gt") then Ok (fltb y x)
      else if bool_decide (operator = "gte") then Ok (fleb y x)
      else if bool_decide (operator = "lt") then Ok (fltb x y)
      else if bool_decide (operator = "lte") then Ok (fleb x y)
      else Err (EText ("unsupported numeric operator: " +:+ operator))
  | a, b => Err (EText ("numeric comparison requires both values to be numbers, got "
                        +:+ type_name (gtype a) +:+ " and " +:+ type_name (gtype b)))
  end.

Definition compareGjsonValues (jsonValue targetValue : gjson_Result Text) (mode : string) : result bool :=
  if bool_decide (mode = "full") then compareEqual jsonValue targetValue
  else if bool_decide (mode = "prefix") then Ok (HasPrefix (r_String jsonValue) (r_String targetValue))
  else if bool_decide (mode = "suffix") then Ok (HasSuffix (r_String jsonValue) (r_String targetValue))
  else if bool_decide (mode = "contains") then Ok (Contains (r_String jsonValue) (r_String targetValue))
  else if bool_decide (mode ∈ ["gt"; "gte"; "lt"; "lte"]) then compareNumeric jsonValue targetValue mode
  else Err (EText ("unsupported comparison mode: " +:+ mode)).

(** The body's value, else the context's. *)
Definition condition_value (data : Text) (contextJSON : option Text) (path : string) : option (gjson_Result Text) :=
  match gjson_Get data (processNegativeIndex data path) with
  | Some r => Some r
  | None => c ← contextJSON; gjson_Get c path
  end.

Definition checkSingleCondition (data : Text) (contextJSON : option Text) (condition : ConditionOperation) : result bool :=
  match condition_value data contextJSON (cond_Path condition) with
  | None => Ok (cond_PassMissingKey condition)
  | Some value =>
      match Marshal (cond_Value condition) with
      | Err e => Err (EWrap "failed to marshal condition value: " e)
      | Ok targetBytes =>
          match compareGjsonValues value (gjson_Parse targetBytes) (word_ToLower (cond_Mode condition)) with
          | Err e => Err (EWrap ("comparison failed for path " +:+ cond_Path condition +:+ ": ") e)
          | Ok b => Ok (if cond_Invert condition then negb b else b)
          end
      end
  end.

Fixpoint check_all (data : Text) (contextJSON : option Text) (conditions : list ConditionOperation) : result (list bool) :=
  match conditions with
  | [] => Ok []
  | c :: cs =>
      match checkSingleCondition data contextJSON c with
      | Err e => Err e
      | Ok b => match check_all data contextJSON cs with Err e => Err e | Ok bs => Ok (b :: bs) end
      end
  end.

Definition checkConditions (data : Text) (contextJSON : option Text) (conditions : list ConditionOperation)
    (logic : string) : result bool :=
  match conditions with
  | [] => Ok true
  | _ =>
      match check_all data contextJSON conditions with
      | Err e => Err e
      | Ok results =>
          Ok (if bool_decide (ToUpper logic = "AND") then forallb id results else existsb id results)
      end
  end.

(** ** Parsing the rules *)

Definition parse_condition (item : json) : result ConditionOperation :=
  match item with
  | JObject m =>
      let path := default "" (as_str (lookup_field "path" m)) in
      let mode := default "" (as_str (lookup_field "mode" m)) in
      if bool_decide (TrimSpace path = "") || bool_decide (TrimSpace mode = "")
      then Err (EText "condition path/mode is required")
      else Ok (mkCondition path mode (default JNull (lookup_field "value" m))
                 (default false (as_bool (lookup_field "invert" m)))
                 (default false (as_bool (lookup_field "pass_missing_key" m))))
  | _ => Err (EText "condition must be object")
  end.

Fixpoint parse_each {A} (f : json -> result A) (l : list json) : result (list A) :=
  match l with
  | [] => Ok []
  | x :: l => match f x with
              | Err e => Err e
              | Ok a => match parse_each f l with Err e => Err e | Ok r => Ok (a :: r) end
              end
  end.

(** An entry of a map of conditions: the trimmed key must equal the value. *)
Definition full_condition (kv : string * json) : option ConditionOperation :=
  if bool_decide (TrimSpace kv.1 = "") then None
  else Some (mkCondition (TrimSpace kv.1) "full" kv.2 false false).

Definition parseConditionOperations (raw : json) : result (list ConditionOperation) :=
  match raw with
  | JObject m =>
      match omap full_condition (range_map m) with
      | [] => Err (EText "conditions object must contain at least one key")
      | conditions => Ok conditions
      end
  | JArray items => parse_each parse_condition items
  | _ => Err (EText "conditions must be an array or object")
  end.

Definition parse_operation (op : json) : result ParamOperation :=
  match op with
  | JObject m =>
      match as_str (lookup_field "mode" m) with
      | None => Err (EText "mode")
      | Some mode =>
          match (match lookup_field "conditions" m with
                 | None => Ok []
                 | Some c => parseConditionOperations c
                 end) with
          | Err e => Err e
          | Ok conditions =>
              Ok (mkOperation (default "" (as_str (lookup_field "path" m))) mode
                    (default JNull (lookup_field "value" m))
                    (default false (as_bool (lookup_field "keep_origin" m)))
                    (default "" (as_str (lookup_field "from" m)))
                    (default "" (as_str (lookup_field "to" m)))
                    conditions (default "OR" (as_str (lookup_field "logic" m))))
          end
      end
  | _ => Err (EText "operation")
  end.

Definition tryParseOperations (paramOverride : list (string * json)) : option (list ParamOperation) :=
  match lookup_field "operations" paramOverride with
  | Some (JArray ops) => match parse_each parse_operation ops with Ok l => Some l | Err _ => None end
  | _ => None
  end.

(** [strings.EqualFold(key, "operations")]: besides the case, the long s is an s. *)
Definition is_operations_key (key : string) : bool := String.eqb (ToLower (ReplaceAll key "ſ" "s")) "operations".
Definition buildLegacyParamOverride (paramOverride : list (string * json)) : list (string * json) :=
  List.filter (λ kv, negb (is_operations_key (TrimSpace kv.1))) paramOverride.

(** ** The old form: top-level keys *)

Definition escaped_char (c : ascii) : bool := bool_decide (c ∈ ["."; "*"; "?"; "\"]%char).
Fixpoint escapeSjsonLiteralKey (key : string) : string :=
  match key with
  | EmptyString => ""
  | String c key => if escaped_char c then String "\" (String c (escapeSjsonLiteralKey key))
                    else String c (escapeSjsonLiteralKey key)
  end.

Fixpoint legacy_loop (entries : list (string * json)) (data : Text) (audit : option (list string))
    : result (Text * option (list string)) :=
  match entries with
  | [] => Ok (data, audit)
  | (key, value) :: entries =>
      match sjson_Set data (escapeSjsonLiteralKey key) value with
      | Err e => Err e
      | Ok next => legacy_loop entries next (recordOperation "set" key "" "" value audit)
      end
  end.

Definition applyOperationsLegacy (jsonData : Text) (paramOverride : list (string * json)) (audit : option (list string)) :=
  legacy_loop (range_map paramOverride) jsonData audit.

(** ** Changing a value *)

Definition no_source (path : string) : error := EText ("source path does not exist: " +:+ path).

Definition moveValue (data : Text) (fromPath toPath : string) : result Text :=
  match gjson_Get data fromPath with
  | None => Err (no_source fromPath)
  | Some source =>
      match sjson_Set data toPath (r_Value source) with
      | Err e => Err e
      | Ok result => sjson_Delete result fromPath
      end
  end.

Definition copyValue (data : Text) (fromPath toPath : string) : result Text :=
  match gjson_Get data fromPath with
  | None => Err (no_source fromPath)
  | Some source => sjson_Set data toPath (r_Value source)
  end.

Definition deleteValue (data : Text) (path : string) : result Text :=
  if bool_decide (TrimSpace path = "") then Ok data else sjson_Delete data path.

(** [Type] of a result; an absent value has type [Null]. *)
Definition current_type (r : option (gjson_Result Text)) : GType :=
  match r with Some r => gtype (r_Value r) | None => GNull end.
Definition unsupported (t : GType) : error := EText ("operation not supported for type: " +:+ type_name t).

(** A slice that nothing was appended to is [nil], which is written as null. *)
Definition slice (l : list json) : json := match l with [] => JNull | _ => JArray l end.

Definition modifyArray (data : Text) (path : string) (current : list json) (value : json) (isPrepend : bool) : result Text :=
  let added := match value with JArray arr => arr | v => [v] end in
  sjson_Set data path (slice (if isPrepend then added ++ current else current ++ added)).

Definition modifyString (data : Text) (path current : string) (value : json) (isPrepend : bool) : result Text :=
  let valueStr := Sprint value in
  sjson_Set data path (JString (if isPrepend then valueStr +:+ current else current +:+ valueStr)).

(** The value as a map: null is the empty one, other values are refused. *)
Definition as_map (v : json) : result (list (string * json)) :=
  match v with
  | JObject m => Ok m
  | JNull => Ok []
  | _ => Err (EText "json: cannot unmarshal into Go value of type map[string]interface {}")
  end.

Definition is_nil (v : option json) : bool := match v with None | Some JNull => true | _ => false end.

Definition merge_maps (keepOrigin : bool) (current new : list (string * json)) : list (string * json) :=
  foldl (λ m kv, if negb keepOrigin || is_nil (lookup_field kv.1 m) then put_field kv.1 kv.2 m else m) current new.

Definition mergeObjects (data : Text) (path : string) (current : gjson_Result Text) (value : json) (keepOrigin : bool) : result Text :=
  match Unmarshal (r_Raw current) with
  | Err e => Err e
  | Ok v =>
      match as_map v with
      | Err e => Err e
      | Ok currentMap =>
          match as_map value with
          | Err e => Err e
          | Ok newMap => sjson_Set data path (JObject (merge_maps keepOrigin currentMap newMap))
          end
      end
  end.

Definition modifyValue (data : Text) (path : string) (value : json) (keepOrigin isPrepend : bool) : result Text :=
  match gjson_Get data path with
  | None => Err (unsupported GNull)
  | Some r =>
      match r_Value r with
      | JArray l => modifyArray data path l value isPrepend
      | JString _ => modifyString data path (r_String r) value isPrepend
      | JObject _ => mergeObjects data path r value keepOrigin
      | v => Err (unsupported (gtype v))
      end
  end.

(** The operations on a string value. *)
Definition on_string (data : Text) (path : string) (f : string -> result (option string)) : result Text :=
  match gjson_Get data path with
  | Some r =>
      match r_Value r with
      | JString _ =>
          match f (r_String r) with
          | Err e => Err e
          | Ok None => Ok data
          | Ok (Some s) => sjson_Set data path (JString s)
          end
      | v => Err (unsupported (gtype v))
      end
  | None => Err (unsupported GNull)
  end.

Definition trim_string (value : json) (isPrefix : bool) (s : string) : result (option string) :=
  match value with
  | JNull => Err (EText "trim value is required")
  | _ => Ok (Some (if isPrefix then TrimPrefix s (Sprint value) else TrimSuffix s (Sprint value)))
  end.
Definition trimStringValue (data : Text) (path : string) (value : json) (isPrefix : bool) : result Text :=
  on_string data path (trim_string value isPrefix).

Definition ensure_affix (value : json) (isPrefix : bool) (s : string) : result (option string) :=
  let valueStr := Sprint value in
  if is_nil (Some value) || bool_decide (valueStr = "") then Err (EText "ensure value is required")
  else if isPrefix
  then Ok (if HasPrefix s valueStr then None else Some (valueStr +:+ s))
  else Ok (if HasSuffix s valueStr then None else Some (s +:+ valueStr)).
Definition ensureStringAffix (data : Text) (path : string) (value : json) (isPrefix : bool) : result Text :=
  on_string data path (ensure_affix value isPrefix).

Definition transformStringValue (data : Text) (path : string) (transform : string -> string) : result Text :=
  on_string data path (λ s, Ok (Some (transform s))).

Definition replace_string (from to s : string) : result (option string) :=
  if bool_decide (from = "") then Err (EText "replace from is required") else Ok (Some (ReplaceAll s from to)).
Definition replaceStringValue (data : Text) (path from to : string) : result Text :=
  on_string data path (replace_string from to).

Definition regexReplaceStringValue (data : Text) (path pattern replacement : string) : result Text :=
  on_string data path (λ s,
    if bool_decide (pattern = "") then Err (EText "regex pattern is required")
    else match regexp_Compile pattern with Err e => Err e | Ok re => Ok (Some (re s replacement)) end).

(** ** Wildcards *)

Definition isPathBasedOperation (mode : string) : bool :=
  bool_decide (mode ∈ ["delete"; "set"; "prepend"; "append"; "trim_prefix"; "trim_suffix"; "ensure_prefix"; "ensure_suffix";
                       "trim_space"; "to_lower"; "to_upper"; "replace"; "regex_replace"; "prune_objects"]).

Definition element (l : list json) (segment : string) : option json :=
  index ← Atoi segment;
  if (0 <=? index) && (index <? Z.of_nat (length l)) then l !! Z.to_nat index else None.

Fixpoint collectWildcardPaths (node : json) (segments : list string) (prefix : list string) : list string :=
  match segments with
  | [] => [GoString.Join prefix "."]
  | s :: rest =>
      let segment := TrimSpace s in
      let isLast := match rest with [] => true | _ => false end in
      if bool_decide (segment = "") then []
      else if bool_decide (segment = "*") then
        match node with
        | JObject m =>
            flat_map (λ key, collectWildcardPaths (default JNull (lookup_field key m)) rest (prefix ++ [key]))
              (sort_keys (map fst (range_map m)))
        | JArray l =>
            flat_map (λ '(i, v), collectWildcardPaths v rest (prefix ++ [pretty (Z.of_nat i)])) (imap pair l)
        | _ => []
        end
      else
        match node with
        | JObject m =>
            if isLast then [GoString.Join (prefix ++ [segment]) "."]
            else match lookup_field segment m with
                 | None => []
                 | Some next => collectWildcardPaths next rest (prefix ++ [segment])
                 end
        | JArray l =>
            match element l segment with
            | None => []
            | Some next =>
                if isLast then [GoString.Join (prefix ++ [segment]) "."]
                else collectWildcardPaths next rest (prefix ++ [segment])
            end
        | _ => []
        end
  end.

Definition expandWildcardPaths (data : Text) (path : string) : result (list string) :=
  match Unmarshal data with
  | Err e => Err e
  | Ok root => Ok (Uniq (collectWildcardPaths root (Split path ".") []))
  end.

Definition resolveOperationPaths (data : Text) (path : string) : result (list string) :=
  if Contains path "*" then expandWildcardPaths data path else Ok [path].

(** ** Removing objects *)

Record pruneObjectsOptions : Type := mkPruneOptions {
  prune_conditions : list ConditionOperation;
  prune_logic : string;
  prune_recursive : bool;
}.

Definition type_condition (v : json) : ConditionOperation := mkCondition "type" "full" v false false.

(** The conditions a map of options names: [conditions], [where], [type]. *)
Definition prune_map_conditions (raw : list (string * json)) : result (list ConditionOperation) :=
  match (match lookup_field "conditions" raw with None => Ok [] | Some c => parseConditionOperations c end) with
  | Err e => Err e
  | Ok conditions =>
      match (match lookup_field "where" raw with
             | None => Ok []
             | Some (JObject m) => Ok (omap full_condition (range_map m))
             | Some _ => Err (EText "prune_objects where must be object")
             end) with
      | Err e => Err e
      | Ok wheres =>
          Ok (conditions ++ wheres
              ++ match lookup_field "type" raw with None => [] | Some t => [type_condition t] end)
      end
  end.

Definition parsePruneObjectsOptions (value : json) : result pruneObjectsOptions :=
  match value with
  | JNull => Err (EText "prune_objects value is required")
  | JString raw =>
      if bool_decide (TrimSpace raw = "") then Err (EText "prune_objects value is required")
      else Ok (mkPruneOptions [type_condition (JString (TrimSpace raw))] "AND" true)
  | JObject raw =>
      let logic := match as_str (lookup_field "logic" raw) with
                   | Some l => if bool_decide (TrimSpace l = "") then "AND" else l
                   | None => "AND"
                   end in
      match prune_map_conditions raw with
      | Err e => Err e
      | Ok [] => Err (EText "prune_objects conditions are required")
      | Ok conditions => Ok (mkPruneOptions conditions logic (default true (as_bool (lookup_field "recursive" raw))))
      end
  | _ => Err (EText "prune_objects value must be string or object")
  end.

Definition shouldPruneObject (contextJSON : option Text) (options : pruneObjectsOptions) (node : list (string * json)) : result bool :=
  match Marshal (JObject node) with
  | Err e => Err e
  | Ok nodeBytes => checkConditions nodeBytes contextJSON (prune_conditions options) (prune_logic options)
  end.

(** [None] is a dropped node.  The entries of a map are visited in the order of the keys;
    the order only decides which of several errors is reported. *)
Fixpoint pruneObjectsNode (should : list (string * json) -> result bool) (recursive : bool) (node : json) (isRoot : bool)
    : result (option json) :=
  match node with
  | JArray items =>
      let fix prune_items (items : list json) : result (list json) :=
        match items with
        | [] => Ok []
        | item :: items =>
            match pruneObjectsNode should recursive item false with
            | Err e => Err e
            | Ok next =>
                match prune_items items with
                | Err e => Err e
                | Ok rest => Ok (match next with Some v => v :: rest | None => rest end)
                end
            end
        end in
      match prune_items items with Err e => Err e | Ok l => Ok (Some (JArray l)) end
  | JObject m =>
      let fix prune_entries (m : list (string * json)) : result (list (string * json)) :=
        match m with
        | [] => Ok []
        | (key, child) :: m =>
            match pruneObjectsNode should recursive child false with
            | Err e => Err e
            | Ok next =>
                match prune_entries m with
                | Err e => Err e
                | Ok rest => Ok (match next with Some v => (key, v) :: rest | None => rest end)
                end
            end
        end in
      match should m with
      | Err e => Err e
      | Ok shouldDrop =>
          if shouldDrop && negb isRoot then Ok None
          else if negb recursive then Ok (Some (JObject m))
          else match prune_entries m with Err e => Err e | Ok l => Ok (Some (JObject l)) end
      end
  | v => Ok (Some v)
  end.

Definition prune_root (contextJSON : option Text) (options : pruneObjectsOptions) (root : json) : result json :=
  match pruneObjectsNode (shouldPruneObject contextJSON options) (prune_recursive options) root true with
  | Err e => Err e
  | Ok v => Ok (default JNull v)
  end.

Definition pruneObjects (data : Text) (path : string) (contextJSON : option Text) (value : json) : result Text :=
  match parsePruneObjectsOptions value with
  | Err e => Err e
  | Ok options =>
      if bool_decide (path = "") then
        match Unmarshal data with
        | Err e => Err e
        | Ok root =>
            match prune_root contextJSON options root with Err e => Err e | Ok cleaned => Marshal cleaned end
        end
      else
        match gjson_Get data path with
        | None => Ok data
        | Some target =>
            match (match gtype (r_Value target) with GJSON => Unmarshal (r_Raw target) | _ => Ok (r_Value target) end) with
            | Err e => Err e
            | Ok targetNode =>
                match prune_root contextJSON options targetNode with
                | Err e => Err e
                | Ok cleaned =>
                    match Marshal cleaned with
                    | Err e => Err e
                    | Ok cleanedBytes => sjson_SetRaw data path cleanedBytes
                    end
                end
            end
        end
  end.

(** ** Returning an error *)

Definition parseOverrideInt (v : json) : option Z :=
  match v with
  | JNumber f => if feqb f (float_of_int (int_of_float f)) then Some (int_of_float f) else None
  | _ => None
  end.

Definition nonblank (s : string) : option string := if bool_decide (TrimSpace s = "") then None else Some (TrimSpace s).

Definition return_status (raw : list (string * json)) : result Z :=
  match lookup_field "status_code" raw, lookup_field "status" raw with
  | Some v, _ => match parseOverrideInt v with Some n => Ok n | None => Err (EText "return_error status_code must be an integer") end
  | None, Some v => match parseOverrideInt v with Some n => Ok n | None => Err (EText "return_error status must be an integer") end
  | None, None => Ok StatusBadRequest
  end.

Definition return_fields (value : json) : result ParamOverrideReturnError :=
  let base message := mkReturnError message StatusBadRequest ErrorCodeInvalidRequest "invalid_request_error" true in
  match value with
  | JNull => Err (EText "return_error value is required")
  | JString raw => Ok (base (TrimSpace raw))
  | JObject raw =>
      let text key := default "" (as_str (lookup_field key raw) ≫= nonblank) in
      let message := if bool_decide (text "message" = "") then text "msg" else text "message" in
      let code := default ErrorCodeInvalidRequest (v ← lookup_field "code" raw; nonblank (Sprint v)) in
      let errType := default "invalid_request_error" (as_str (lookup_field "type" raw) ≫= nonblank) in
      match return_status raw with
      | Err e => Err e
      | Ok status => Ok (mkReturnError message status code errType (default true (as_bool (lookup_field "skip_retry" raw))))
      end
  | _ => Err (EText "return_error value must be string or object")
  end.

Definition parseParamOverrideReturnError (value : json) : result ParamOverrideReturnError :=
  match return_fields value with
  | Err e => Err e
  | Ok r =>
      if bool_decide (re_Message r = "") then Err (EText "return_error message is required")
      else if negb (status_in_range (re_StatusCode r))
      then Err (EText ("return_error status code out of range: " +:+ pretty (re_StatusCode r)))
      else Ok r
  end.

End body.
