(* ===== verification/OverrideHeaders.v ===== *)
(** * OverrideHeaders: header rules, and the rules as a whole

    The second half of [relay/common/override.go]: the context the rules see and change
    ([request_headers], [header_override]), the header and synchronisation operations,
    the loop over the rules and [ApplyParamOverrideWithRelayInfo].  The maps inside the
    context are shared in Go: a function that changes [header_override] changes the
    context, which is passed and returned here. *)

From S2P Require Export Override.
From S2P Require Import Prelude.

Abbreviation Context := (list (string * json)).

Definition paramOverrideContextRequestHeaders : string := "request_headers".
Definition paramOverrideContextHeaderOverride : string := "header_override".
Definition paramOverrideContextAuditRecorder : string := "__param_override_audit_recorder".

(** [fmt.Errorf("%w: %s", errSourceHeaderNotFound, name)] *)
Definition errSourceHeaderNotFound (name : string) : error := EWrap "source header does not exist: " (EText name).
Definition is_source_not_found (e : error) : bool :=
  match e with EWrap p _ => String.eqb p "source header does not exist: " | _ => false end.

(** The inner map and the context that holds it. *)
Definition ensureMapKeyInContext (context : Context) (key : string) : list (string * json) * Context :=
  match lookup_field key context with
  | Some (JObject m) => (m, context)
  | _ => ([], put_field key (JObject []) context)
  end.
Definition put_header_override (context : Context) (m : list (string * json)) : Context :=
  put_field paramOverrideContextHeaderOverride (JObject m) context.

Section headers.
Context {JT : JsonText} {FM : Formatting}.

Definition normalizeHeaderContextKey (key : string) : string := TrimSpace (unicode_ToLower key).

(** The context with the recorder, a struct without exported fields. *)
Definition context_entries (context : Context) (audit : option (list string)) : Context :=
  match audit with
  | Some _ => put_field paramOverrideContextAuditRecorder (JObject []) context
  | None => context
  end.

Definition marshalContextJSON (context : Context) (audit : option (list string)) : result (option Text) :=
  match context_entries context audit with
  | [] => Ok None
  | entries => match Marshal (JObject entries) with Err e => Err e | Ok t => Ok (Some t) end
  end.

(** ** Reading a header: the override, then the request *)

Definition header_in (m : list (string * json)) (name : string) : option string :=
  raw ← lookup_field name m;
  if bool_decide (TrimSpace (Sprint raw) = "") then None else Some (TrimSpace (Sprint raw)).

Definition getHeaderValueFromContext (context : Context) (headerName : string) : option string * Context :=
  let name := normalizeHeaderContextKey headerName in
  if bool_decide (name = "") then (None, context)
  else
    let '(overrides, context) := ensureMapKeyInContext context paramOverrideContextHeaderOverride in
    match header_in overrides name with
    | Some v => (Some v, context)
    | None =>
        let '(requests, context) := ensureMapKeyInContext context paramOverrideContextRequestHeaders in
        (header_in requests name, context)
    end.

(** ** The value of a header rule *)

Definition splitHeaderListValue (raw : string) : list string :=
  omap (λ item, if bool_decide (TrimSpace item = "") then None else Some (TrimSpace item)) (Split raw ",").

Fixpoint parseHeaderReplacementTokens (value : json) : result (list string) :=
  match value with
  | JNull => Ok []
  | JString raw => Ok (splitHeaderListValue raw)
  | JArray raw =>
      let fix tokens (l : list json) : result (list string) :=
        match l with
        | [] => Ok []
        | item :: l =>
            match parseHeaderReplacementTokens item with
            | Err e => Err e
            | Ok a => match tokens l with Err e => Err e | Ok b => Ok (a ++ b) end
            end
        end in
      match tokens raw with Err e => Err e | Ok l => Ok (Uniq l) end
  | JObject _ => Err (EText "header replacement value must be string, array or null")
  | v => let token := TrimSpace (Sprint v) in Ok (if bool_decide (token = "") then [] else [token])
  end.

Definition parseHeaderAppendTokens (mapping : list (string * json)) : result (list string) :=
  match lookup_field "$append" mapping with None => Ok [] | Some raw => parseHeaderReplacementTokens raw end.

Definition parseHeaderKeepOnlyDeclared (mapping : list (string * json)) : bool :=
  default false (as_bool (lookup_field "$keep_only_declared" mapping)).

(** What becomes of one token of the header. *)
Definition replacement (mapping : list (string * json)) (keepOnlyDeclared : bool) (token : string) : result (list string) :=
  match lookup_field token mapping with
  | Some raw => parseHeaderReplacementTokens raw
  | None =>
      match lookup_field "*" mapping with
      | Some raw => if keepOnlyDeclared then Ok [] else parseHeaderReplacementTokens raw
      | None => Ok (if keepOnlyDeclared then [] else [token])
      end
  end.

Fixpoint replace_tokens (mapping : list (string * json)) (keepOnlyDeclared : bool) (tokens : list string) : result (list string) :=
  match tokens with
  | [] => Ok []
  | token :: tokens =>
      match replacement mapping keepOnlyDeclared token with
      | Err e => Err e
      | Ok a => match replace_tokens mapping keepOnlyDeclared tokens with Err e => Err e | Ok b => Ok (a ++ b) end
      end
  end.

Definition resolveHeaderOverrideValueByMapping (context : Context) (headerName : string) (mapping : list (string * json))
    : result (option string * Context) :=
  match mapping with
  | [] => Err (EText "header value mapping cannot be empty")
  | _ =>
      match parseHeaderAppendTokens mapping with
      | Err e => Err e
      | Ok appendTokens =>
          let '(sourceValue, context) := getHeaderValueFromContext context headerName in
          let sourceTokens := match sourceValue with Some v => splitHeaderListValue v | None => [] end in
          match replace_tokens mapping (parseHeaderKeepOnlyDeclared mapping) sourceTokens with
          | Err e => Err e
          | Ok tokens =>
              match Uniq (tokens ++ appendTokens) with
              | [] => Ok (None, context)
              | result => Ok (Some (GoString.Join result ","), context)
              end
          end
      end
  end.

Definition resolveHeaderOverrideValue (context : Context) (headerName : string) (value : json)
    : result (option string * Context) :=
  match value with
  | JNull => Err (EText "header value is required")
  | JObject mapping => resolveHeaderOverrideValueByMapping context headerName mapping
  | v => let headerValue := TrimSpace (Sprint v) in
         Ok (if bool_decide (headerValue = "") then None else Some headerValue, context)
  end.

(** ** Header operations *)

Definition setHeaderOverrideInContext (context : Context) (headerName : string) (value : json) (keepOrigin : bool) : result Context :=
  let name := normalizeHeaderContextKey headerName in
  if bool_decide (name = "") then Err (EText "header name is required")
  else
    let '(rawHeaders, context) := ensureMapKeyInContext context paramOverrideContextHeaderOverride in
    if keepOrigin && bool_decide (is_Some (header_in rawHeaders name)) then Ok context
    else
      match resolveHeaderOverrideValue context name value with
      | Err e => Err e
      | Ok (None, context) => Ok (put_header_override context (del_field name rawHeaders))
      | Ok (Some headerValue, context) => Ok (put_header_override context (put_field name (JString headerValue) rawHeaders))
      end.

Definition deleteHeaderOverrideInContext (context : Context) (headerName : string) : result Context :=
  let name := normalizeHeaderContextKey headerName in
  if bool_decide (name = "") then Err (EText "header name is required")
  else
    let '(rawHeaders, context) := ensureMapKeyInContext context paramOverrideContextHeaderOverride in
    Ok (put_header_override context (del_field name rawHeaders)).

(** The error, if any, and the context; looking for a header may add the empty maps. *)
Definition copyHeaderInContext (context : Context) (fromHeader toHeader : string) (keepOrigin : bool) : option error * Context :=
  let from := normalizeHeaderContextKey fromHeader in
  let to := normalizeHeaderContextKey toHeader in
  if bool_decide (from = "") || bool_decide (to = "") then (Some (EText "copy_header from/to is required"), context)
  else
    let '(value, context) := getHeaderValueFromContext context from in
    match value with
    | None => (Some (errSourceHeaderNotFound from), context)
    | Some v =>
        match setHeaderOverrideInContext context to (JString v) keepOrigin with
        | Err e => (Some e, context)
        | Ok context => (None, context)
        end
    end.

Definition moveHeaderInContext (context : Context) (fromHeader toHeader : string) (keepOrigin : bool) : option error * Context :=
  let from := normalizeHeaderContextKey fromHeader in
  let to := normalizeHeaderContextKey toHeader in
  if bool_decide (from = "") || bool_decide (to = "") then (Some (EText "move_header from/to is required"), context)
  else
    match copyHeaderInContext context from to keepOrigin with
    | (Some e, context) => (Some e, context)
    | (None, context) =>
        if EqualFold from to then (None, context)
        else match deleteHeaderOverrideInContext context from with
             | Err e => (Some e, context)
             | Ok context => (None, context)
             end
    end.

(** A source that does not exist is no error of a rule. *)
Definition forgive_missing (r : option error * Context) : result Context :=
  match r with
  | (None, context) => Ok context
  | (Some e, context) => if is_source_not_found e then Ok context else Err e
  end.

(** ** [pass_headers] *)

Definition header_names (l : list string) : list string :=
  Uniq (omap (λ item, let n := normalizeHeaderContextKey item in if bool_decide (n = "") then None else Some n) l).
Definition names_or_error (l : list string) : result (list string) :=
  match header_names l with [] => Err (EText "pass_headers value is invalid") | names => Ok names end.

(** A string may hold the JSON text of a list or an object, whose strings may again: the
    number of levels is bounded by [fuel]. *)
Fixpoint parseHeaderPassThroughNames (fuel : nat) (value : json) : result (list string) :=
  match fuel with
  | O => Err (EText "pass_headers value is nested too deeply")
  | S fuel =>
      match value with
      | JNull => Err (EText "pass_headers value is required")
      | JString raw =>
          let trimmed := TrimSpace raw in
          let plain := names_or_error (Split trimmed ",") in
          if bool_decide (trimmed = "") then Err (EText "pass_headers value is required")
          else if HasPrefix trimmed "[" || HasPrefix trimmed "{"
          then match UnmarshalJsonStr trimmed with
               | Ok parsed => parseHeaderPassThroughNames fuel parsed
               | Err _ => plain
               end
          else plain
      | JArray raw => names_or_error (map Sprint raw)
      | JObject raw =>
          let names key := match lookup_field key raw with
                           | None => []
                           | Some v => match parseHeaderPassThroughNames fuel v with Ok l => l | Err _ => [] end
                           end in
          names_or_error (names "headers" ++ names "names" ++ names "header")
      | _ => Err (EText "pass_headers value must be string, array or object")
      end
  end.

(** The size of a value, which bounds the levels; in a text it counts the bytes of ASCII,
    since those that are no UTF-8 are replaced by longer ones when it is decoded. *)
Definition ascii_len (s : string) : nat := length (List.filter (λ b, b <? 128) (bytes_of s)).
Fixpoint json_size (v : json) : nat :=
  match v with
  | JString s => S (ascii_len s)
  | JArray l => S (list_sum (map json_size l))
  | JObject m => S (list_sum (map (λ kv, json_size kv.2) m))
  | _ => 1
  end.

Fixpoint pass_each (context : Context) (names : list string) (keepOrigin : bool) : result Context :=
  match names with
  | [] => Ok context
  | n :: names =>
      match forgive_missing (copyHeaderInContext context n n keepOrigin) with
      | Ok context => pass_each context names keepOrigin
      | Err e => Err e
      end
  end.

(** ** [sync_fields] *)

Inductive syncTarget : Type := SyncJson (key : string) | SyncHeader (key : string).

Definition parseSyncTarget (spec : string) : result syncTarget :=
  let raw := TrimSpace spec in
  if bool_decide (raw = "") then Err (EText "sync_fields target is required")
  else match Cut raw ":" with
       | None => Ok (SyncJson raw)
       | Some (k, rest) =>
           let kind := unicode_ToLower (TrimSpace k) in
           let key := TrimSpace rest in
           if bool_decide (key = "") then Err (EText ("sync_fields target key is required: " +:+ raw))
           else if bool_decide (kind ∈ ["json"; "body"]) then Ok (SyncJson key)
           else if bool_decide (kind = "header") then Ok (SyncHeader key)
           else Err (EText ("sync_fields target prefix is invalid: " +:+ raw))
       end.

Definition readSyncTargetValue (data : Text) (context : Context) (target : syncTarget) : option json * Context :=
  match target with
  | SyncJson key =>
      (match gjson_Get data (processNegativeIndex data key) with
       | None => None
       | Some r =>
           match r_Value r with
           | JNull => None
           | JString _ => if bool_decide (TrimSpace (r_String r) = "") then None else Some (r_Value r)
           | v => Some v
           end
       end, context)
  | SyncHeader key =>
      let '(value, context) := getHeaderValueFromContext context key in
      (match value with
       | Some v => if bool_decide (TrimSpace v = "") then None else Some (JString v)
       | None => None
       end, context)
  end.

Definition writeSyncTargetValue (data : Text) (context : Context) (target : syncTarget) (value : json) : result (Text * Context) :=
  match target with
  | SyncJson key =>
      match sjson_Set data (processNegativeIndex data key) value with Err e => Err e | Ok next => Ok (next, context) end
  | SyncHeader key =>
      match setHeaderOverrideInContext context key value false with Err e => Err e | Ok context => Ok (data, context) end
  end.

Definition syncFieldsBetweenTargets (data : Text) (context : Context) (fromSpec toSpec : string) : result (Text * Context) :=
  match parseSyncTarget fromSpec with
  | Err e => Err e
  | Ok fromTarget =>
      match parseSyncTarget toSpec with
      | Err e => Err e
      | Ok toTarget =>
          let '(fromValue, context) := readSyncTargetValue data context fromTarget in
          let '(toValue, context) := readSyncTargetValue data context toTarget in
          match fromValue, toValue with
          | Some v, None => writeSyncTargetValue data context toTarget v
          | None, Some v => writeSyncTargetValue data context fromTarget v
          | _, _ => Ok (data, context)
          end
      end
  end.

(** ** The loop over the rules *)

Record OverrideState : Type := mkOverrideState {
  os_data : Text;
  os_context : Context;
  os_contextJSON : option Text;
  os_audit : option (list string);
}.

Definition failed (mode : string) (e : error) : override_error := OFail (EWrap ("operation " +:+ mode +:+ " failed: ") e).

(** A change of the body at each path, recorded one by one. *)
Fixpoint at_paths (f : Text -> string -> result Text) (record : string -> option (list string) -> option (list string))
    (paths : list string) (st : OverrideState) : result OverrideState :=
  match paths with
  | [] => Ok st
  | path :: paths =>
      match f (os_data st) path with
      | Err e => Err e
      | Ok data => at_paths f record paths {| st with os_data := data; os_audit := record path (os_audit st) |}
      end
  end.

(** [set] with [keep_origin] passes over the paths that exist, without a record. *)
Fixpoint set_paths (value : json) (keepOrigin : bool) (paths : list string) (st : OverrideState) : result OverrideState :=
  match paths with
  | [] => Ok st
  | path :: paths =>
      if keepOrigin && bool_decide (is_Some (gjson_Get (os_data st) path)) then set_paths value keepOrigin paths st
      else match sjson_Set (os_data st) path value with
           | Err e => Err e
           | Ok data => set_paths value keepOrigin paths
                          {| st with os_data := data; os_audit := recordOperation "set" path "" "" value (os_audit st) |}
           end
  end.

(** After a header operation: the record, and the context written anew. *)
Definition with_context (context : Context) (record : option (list string) -> option (list string)) (st : OverrideState)
    : result OverrideState :=
  match marshalContextJSON context (os_audit st) with
  | Err e => Err e
  | Ok j => Ok {| st with os_context := context; os_contextJSON := j; os_audit := record (os_audit st) |}
  end.

Definition path_operation (op : ParamOperation) (paths : list string) (st : OverrideState) : result OverrideState :=
  let mode := op_Mode op in
  let value := op_Value op in
  let recorded f := at_paths f (λ path, recordOperation mode path "" "" value) paths st in
  let recorded_bare f := at_paths f (λ path, recordOperation mode path "" "" JNull) paths st in
  let recorded_pair f := at_paths f (λ path, recordOperation mode path (op_From op) (op_To op) JNull) paths st in
  if bool_decide (mode = "delete") then recorded_bare deleteValue
  else if bool_decide (mode = "set") then set_paths value (op_KeepOrigin op) paths st
  else if bool_decide (mode = "prepend") then recorded (λ d p, modifyValue d p value (op_KeepOrigin op) true)
  else if bool_decide (mode = "append") then recorded (λ d p, modifyValue d p value (op_KeepOrigin op) false)
  else if bool_decide (mode = "trim_prefix") then recorded (λ d p, trimStringValue d p value true)
  else if bool_decide (mode = "trim_suffix") then recorded (λ d p, trimStringValue d p value false)
  else if bool_decide (mode = "ensure_prefix") then recorded (λ d p, ensureStringAffix d p value true)
  else if bool_decide (mode = "ensure_suffix") then recorded (λ d p, ensureStringAffix d p value false)
  else if bool_decide (mode = "trim_space") then recorded_bare (λ d p, transformStringValue d p TrimSpace)
  else if bool_decide (mode = "to_lower") then recorded_bare (λ d p, transformStringValue d p unicode_ToLower)
  else if bool_decide (mode = "to_upper") then recorded_bare (λ d p, transformStringValue d p unicode_ToUpper)
  else if bool_decide (mode = "replace") then recorded_pair (λ d p, replaceStringValue d p (op_From op) (op_To op))
  else if bool_decide (mode = "regex_replace") then recorded_pair (λ d p, regexReplaceStringValue d p (op_From op) (op_To op))
  else at_paths (λ d p, pruneObjects d p (os_contextJSON st) value) (λ _ a, a) paths st.

(** [copy_header] and [move_header]: a side that is not named is the path. *)
Definition header_pair (op : ParamOperation) : string * string :=
  let or s := if bool_decide (TrimSpace s = "") then TrimSpace (op_Path op) else TrimSpace s in
  (or (op_From op), or (op_To op)).

(** The operations that do not work on paths of the body. *)
Definition other_operation (op : ParamOperation) (st : OverrideState) : override_error + OverrideState :=
  let mode := op_Mode op in
  let context := os_context st in
  let wrap (r : result OverrideState) : override_error + OverrideState :=
    match r with Ok st => inr st | Err e => inl (failed mode e) end in
  let resolve p := processNegativeIndex (os_data st) p in
  let between (f : Text -> string -> string -> result Text) :=
    wrap (match f (os_data st) (resolve (op_From op)) (resolve (op_To op)) with
          | Err e => Err e
          | Ok data => Ok {| st with os_data := data;
                os_audit := recordOperation mode "" (resolve (op_From op)) (resolve (op_To op)) JNull (os_audit st) |}
          end) in
  let headers (r : result Context) record :=
    wrap (match r with Err e => Err e | Ok context => with_context context record st end) in
  let '(source, target) := header_pair op in
  if bool_decide (mode = "move") then between moveValue
  else if bool_decide (mode = "copy") then
    if bool_decide (op_From op = "") || bool_decide (op_To op = "") then inl (OFail (EText "copy from/to is required"))
    else between copyValue
  else if bool_decide (mode = "return_error") then
    match parseParamOverrideReturnError (op_Value op) with Err e => inl (OFail e) | Ok r => inl (OReturn r) end
  else if bool_decide (mode = "set_header") then
    headers (setHeaderOverrideInContext context (op_Path op) (op_Value op) (op_KeepOrigin op))
      (recordOperation mode (op_Path op) "" "" (op_Value op))
  else if bool_decide (mode = "delete_header") then
    headers (deleteHeaderOverrideInContext context (op_Path op)) (recordOperation mode (op_Path op) "" "" JNull)
  else if bool_decide (mode = "copy_header") then
    headers (forgive_missing (copyHeaderInContext context source target (op_KeepOrigin op)))
      (recordOperation mode "" source target JNull)
  else if bool_decide (mode = "move_header") then
    headers (forgive_missing (moveHeaderInContext context source target (op_KeepOrigin op)))
      (recordOperation mode "" source target JNull)
  else if bool_decide (mode = "pass_headers") then
    match parseHeaderPassThroughNames (json_size (op_Value op)) (op_Value op) with
    | Err e => inl (OFail e)
    | Ok names =>
        headers (pass_each context names (op_KeepOrigin op))
          (recordOperation mode "" "" "" (JArray (map JString names)))
    end
  else if bool_decide (mode = "sync_fields") then
    wrap (match syncFieldsBetweenTargets (os_data st) context (op_From op) (op_To op) with
          | Err e => Err e
          | Ok (data, context) =>
              with_context context (recordOperation mode "" (op_From op) (op_To op) JNull) {| st with os_data := data |}
          end)
  else inl (OFail (EText ("unknown operation: " +:+ mode))).

Definition apply_operation (op : ParamOperation) (st : OverrideState) : override_error + OverrideState :=
  match checkConditions (os_data st) (os_contextJSON st) (op_Conditions op) (op_Logic op) with
  | Err e => inl (OFail e)
  | Ok false => inr st
  | Ok true =>
      if isPathBasedOperation (op_Mode op) then
        match resolveOperationPaths (os_data st) (processNegativeIndex (os_data st) (op_Path op)) with
        | Err e => inl (OFail e)
        | Ok paths =>
            match path_operation op paths st with Ok st => inr st | Err e => inl (failed (op_Mode op) e) end
        end
      else other_operation op st
  end.

Fixpoint apply_each (operations : list ParamOperation) (st : OverrideState) : override_error + OverrideState :=
  match operations with
  | [] => inr st
  | op :: operations =>
      match apply_operation op st with inl e => inl e | inr st => apply_each operations st end
  end.

Definition applyOperations (jsonData : Text) (operations : list ParamOperation) (context : Context)
    (audit : option (list string)) : override_error + OverrideState :=
  match marshalContextJSON context audit with
  | Err e => inl (OFail (EWrap "failed to marshal condition context: " e))
  | Ok j => apply_each operations (mkOverrideState jsonData context j audit)
  end.

(** The body, the context and the audit lines. *)
Definition ApplyParamOverride (jsonData : Text) (paramOverride : list (string * json)) (context : Context)
    (audit : option (list string)) : override_error + (Text * Context * option (list string)) :=
  match paramOverride with
  | [] => inr (jsonData, context, audit)
  | _ =>
      match tryParseOperations paramOverride with
      | Some operations =>
          match applyOperationsLegacy jsonData (buildLegacyParamOverride paramOverride) audit with
          | Err e => inl (OFail e)
          | Ok (workingJSON, audit) =>
              match applyOperations workingJSON operations context audit with
              | inl e => inl e
              | inr st => inr (os_data st, os_context st, os_audit st)
              end
          end
      | None =>
          match applyOperationsLegacy jsonData paramOverride audit with
          | Err e => inl (OFail e)
          | Ok (data, audit) => inr (data, context, audit)
          end
      end
  end.

(** ** The request *)

Record LastError : Type := mkLastError {
  le_StatusCode : Z; le_Message : string; le_Code : string; le_Type : string; le_SkipRetry : bool }.

(** The fields of [RelayInfo] and its [ChannelMeta] that the rules see or change. *)
Record OverrideInfo : Type := mkOverrideInfo {
  oi_UpstreamModelName : string;
  oi_OriginModelName : string;
  oi_RequestURLPath : string;
  oi_RequestHeaders : list (string * string);
  oi_ParamOverride : list (string * json);
  oi_HeadersOverride : list (string * json);
  oi_UseRuntimeHeadersOverride : bool;
  oi_RuntimeHeadersOverride : list (string * json);
  oi_ParamOverrideAudit : option (list string);
  oi_RetryIndex : Z;
  oi_LastError : option LastError;
  oi_IsChannelTest : bool;
}.

Definition isHeaderPassthroughRuleKeyForOverride (key : string) : bool :=
  let key := TrimSpace (unicode_ToLower key) in
  String.eqb key "*" || HasPrefix key "re:" || HasPrefix key "regex:".

Definition sanitize_entry (kv : string * json) (target : list (string * json)) : list (string * json) :=
  let key := normalizeHeaderContextKey kv.1 in
  let value := TrimSpace (Sprint kv.2) in
  if bool_decide (key = "") then target
  else if bool_decide (value = "")
  then if isHeaderPassthroughRuleKeyForOverride key then put_field key (JString "") target else target
  else put_field key (JString value) target.

Definition sanitizeHeaderOverrideMap (source : list (string * json)) : list (string * json) :=
  foldl (λ target kv, sanitize_entry kv target) [] (range_map source).

Definition GetEffectiveHeaderOverride (info : OverrideInfo) : list (string * json) :=
  sanitizeHeaderOverrideMap
    (if oi_UseRuntimeHeadersOverride info then oi_RuntimeHeadersOverride info else oi_HeadersOverride info).

Definition buildRequestHeadersContext (headers : list (string * string)) : list (string * json) :=
  foldl (λ m '(k, v), if bool_decide (normalizeHeaderContextKey k = "") || bool_decide (TrimSpace v = "") then m
                      else put_field (normalizeHeaderContextKey k) (JString (TrimSpace v)) m) [] headers.

Definition put_unless_empty (key value : string) (ctx : Context) : Context :=
  if bool_decide (value = "") then ctx else put_field key (JString value) ctx.

Definition last_error_entries (e : LastError) (ctx : Context) : Context :=
  let status := JNumber (float_of_int (le_StatusCode e)) in
  let code := JString (le_Code e) in
  let ty := JString (le_Type e) in
  let message := JString (le_Message e) in
  let lastError := foldr (λ kv m, put_field kv.1 kv.2 m) []
    [("status_code", status); ("message", message); ("code", code); ("error_code", code); ("type", ty);
     ("error_type", ty); ("skip_retry", JBool (le_SkipRetry e))] in
  foldr (λ kv m, put_field kv.1 kv.2 m) ctx
    [("last_error", JObject lastError); ("last_error_status_code", status); ("last_error_message", message);
     ("last_error_code", code); ("last_error_type", ty)].

Definition BuildParamOverrideContext (info : OverrideInfo) : Context :=
  let model := oi_UpstreamModelName info in
  let origin := oi_OriginModelName info in
  let ctx := put_unless_empty "upstream_model" model (put_unless_empty "model" model []) in
  let ctx := put_unless_empty "original_model" origin ctx in
  let ctx := match lookup_field "model" ctx with Some _ => ctx | None => put_unless_empty "model" origin ctx end in
  let ctx := put_unless_empty "request_path" (oi_RequestURLPath info) ctx in
  let ctx := put_field paramOverrideContextRequestHeaders (JObject (buildRequestHeadersContext (oi_RequestHeaders info))) ctx in
  let ctx := put_field paramOverrideContextHeaderOverride
               (JObject (sanitizeHeaderOverrideMap (GetEffectiveHeaderOverride info))) ctx in
  let index := JNumber (float_of_int (oi_RetryIndex info)) in
  let is_retry := JBool (0 <? oi_RetryIndex info) in
  let ctx := put_field "retry" (JObject [("index", index); ("is_retry", is_retry)])
               (put_field "is_retry" is_retry (put_field "retry_index" index ctx)) in
  let ctx := match oi_LastError info with Some e => last_error_entries e ctx | None => ctx end in
  put_field "is_channel_test" (JBool (oi_IsChannelTest info)) ctx.

Definition shouldEnableParamOverrideAudit (paramOverride : list (string * json)) : bool :=
  let keys m := existsb (λ kv, shouldAuditParamPath (TrimSpace kv.1)) m in
  DebugEnabled ||
  match tryParseOperations paramOverride with
  | Some operations =>
      existsb (λ op, shouldAuditParamPath (TrimSpace (op_Path op)) || shouldAuditParamPath (TrimSpace (op_From op))
                     || shouldAuditParamPath (TrimSpace (op_To op))) operations
      || keys (buildLegacyParamOverride paramOverride)
  | None => keys paramOverride
  end.

Definition syncRuntimeHeaderOverrideFromContext (info : OverrideInfo) (context : Context) : OverrideInfo :=
  match lookup_field paramOverrideContextHeaderOverride context with
  | Some (JObject m) => {| info with oi_RuntimeHeadersOverride := sanitizeHeaderOverrideMap m; oi_UseRuntimeHeadersOverride := true |}
  | _ => info
  end.

Definition ApplyParamOverrideWithRelayInfo (jsonData : Text) (info : OverrideInfo) : override_error + (Text * OverrideInfo) :=
  match oi_ParamOverride info with
  | [] => inr (jsonData, info)
  | paramOverride =>
      let recorder := if shouldEnableParamOverrideAudit paramOverride then Some [] else None in
      match ApplyParamOverride jsonData paramOverride (BuildParamOverrideContext info) recorder with
      | inl e => inl e
      | inr (result, context, lines) =>
          let info := syncRuntimeHeaderOverrideFromContext info context in
          inr (result, {| info with oi_ParamOverrideAudit := lines |})
      end
  end.

End headers.
