(* ===== verification/OverrideProps.v ===== *)
(** * OverrideProps: what the rules do to a body

    [json_get], [json_set] and [json_del] give the meaning of a path on the tree a body
    encodes; [JsonTextLaws] says that the libraries do to the text what these do to the
    tree.  The rules on a body are then proved to implement a reference on trees
    ([ref_run]), the old form to set exactly its keys, wildcards to stand for exactly
    the paths they match, pruning to remove exactly the matching objects, and a header
    list with declared tokens to let nothing else through. *)

From Stdlib Require Import Ascii Sorting.Sorted.
From S2P Require Export OverrideHeaders.
From S2P Require Import Prelude.

(** ** Maps *)

Notation "a <s b" := (String.compare a b = Lt) (at level 70, only parsing).

Lemma compare_refl s : String.compare s s = Eq.
Proof.
  induction s as [|c s IH]; [done|]. simpl. unfold Ascii.compare. by rewrite N.compare_refl.
Qed.

Lemma compare_lt_trans a b c : a <s b -> b <s c -> a <s c.
Proof.
  revert b c. induction a as [|x a IH]; intros [|y b] [|z c]; simpl; try done.
  unfold Ascii.compare. destruct (N.compare_spec (N_of_ascii x) (N_of_ascii y)) as [E1|L1|]; [| |done].
  - destruct (N.compare_spec (N_of_ascii y) (N_of_ascii z)) as [E2|L2|]; [| |done].
    + rewrite E1, E2, N.compare_refl. apply IH.
    + intros _ _. rewrite E1. by rewrite (proj2 (N.compare_lt_iff _ _) L2).
  - intros _. destruct (N.compare_spec (N_of_ascii y) (N_of_ascii z)) as [E2|L2|]; [| |done]; intros _.
    + rewrite <- E2. by rewrite (proj2 (N.compare_lt_iff _ _) L1).
    + by rewrite (proj2 (N.compare_lt_iff _ _) (N.lt_trans _ _ _ L1 L2)).
Qed.

Lemma compare_gt a b : String.compare a b = Gt -> b <s a.
Proof. intros H. rewrite String.compare_antisym, H. done. Qed.

Lemma eqb_lt a b : a <s b -> String.eqb a b = false.
Proof. intros H. destruct (String.eqb_spec a b) as [->|]; [|done]. by rewrite compare_refl in H. Qed.

Lemma lookup_put k v m k' : lookup_field k' (put_field k v m) = if String.eqb k k' then Some v else lookup_field k' m.
Proof.
  induction m as [|[k0 v0] m IH]; [done|]. simpl. destruct (String.compare k k0) eqn:E; simpl.
  - apply String.compare_eq_iff in E as ->. by destruct (String.eqb k0 k').
  - done.
  - rewrite IH. destruct (String.eqb_spec k0 k') as [->|]; [|done].
    apply compare_gt, eqb_lt in E. by rewrite String.eqb_sym, E.
Qed.

Lemma lookup_del k m k' : lookup_field k' (del_field k m) = if String.eqb k k' then None else lookup_field k' m.
Proof.
  induction m as [|[k0 v0] m IH]; [by destruct (String.eqb k k')|]. unfold del_field in *. simpl.
  destruct (String.eqb_spec k0 k) as [->|Hne]; simpl.
  - rewrite IH. by destruct (String.eqb k k').
  - rewrite IH. destruct (String.eqb_spec k0 k') as [->|]; [|done]. by destruct (String.eqb_spec k k'); [congruence|].
Qed.

(** ** Trees *)

(** A segment that stands for itself in the syntax of [gjson] and [sjson]. *)
Definition plain_byte (c : ascii) : bool :=
  let n := nat_of_ascii c in
  (Nat.leb 48 n && Nat.leb n 57) || (Nat.leb 65 n && Nat.leb n 90) || (Nat.leb 97 n && Nat.leb n 122)
  || Nat.eqb n 45 || Nat.eqb n 95.
Fixpoint all_bytes (p : ascii -> bool) (s : string) : bool :=
  match s with EmptyString => true | String c s => p c && all_bytes p s end.

(** An array's index in its usual spelling. *)
Definition index_of (s : string) : option nat :=
  n ← Atoi s; if (0 <=? n) && String.eqb (pretty n) s then Some (Z.to_nat n) else None.

Definition plain_seg (s : string) : bool :=
  negb (String.eqb s "") && negb (HasPrefix s "-") && all_bytes plain_byte s
  && (negb (all_bytes is_digit s) || bool_decide (is_Some (index_of s))).
Definition plain_path (p : list string) : bool := negb (bool_decide (p = [])) && forallb plain_seg p.

Fixpoint json_get (v : json) (p : list string) : option json :=
  match p with
  | [] => Some v
  | k :: p =>
      match v with
      | JObject m => w ← lookup_field k m; json_get w p
      | JArray l => i ← index_of k; w ← l !! i; json_get w p
      | _ => None
      end
  end.

(** New objects for the rest of a path; digits would make an array. *)
Fixpoint json_new (p : list string) (x : json) : option json :=
  match p with
  | [] => Some x
  | k :: p => if all_bytes is_digit k then None else w ← json_new p x; Some (JObject [(k, w)])
  end.

Fixpoint json_set (v : json) (p : list string) (x : json) : option json :=
  match p with
  | [] => Some x
  | k :: p =>
      match v with
      | JObject m =>
          w ← match lookup_field k m with Some w => json_set w p x | None => json_new p x end;
          Some (JObject (put_field k w m))
      | JArray l => i ← index_of k; w ← l !! i; w' ← json_set w p x; Some (JArray (<[i := w']> l))
      | _ => None
      end
  end.

Fixpoint json_del (v : json) (p : list string) : json :=
  match p with
  | [] => v
  | k :: p =>
      match v with
      | JObject m =>
          match p, lookup_field k m with
          | [], _ => JObject (del_field k m)
          | _, Some w => JObject (put_field k (json_del w p) m)
          | _, None => v
          end
      | JArray l =>
          match index_of k with
          | Some i =>
              match p, l !! i with
              | [], Some _ => JArray (delete i l)
              | _, Some w => JArray (<[i := json_del w p]> l)
              | _, None => v
              end
          | None => v
          end
      | _ => v
      end
  end.

(** ** Values of Go *)

Fixpoint keys_ordered (m : list (string * json)) : bool :=
  match m with
  | (k, _) :: ((k', _) :: _) as m' => (match String.compare k k' with Lt => true | _ => false end) && keys_ordered m'
  | _ => true
  end.

(** Valid UTF-8: the bytes that may follow a first byte. *)
Definition utf8_follow (b : Z) : option (list (Z * Z)) :=
  let tail := (128, 191) in
  if b <? 128 then Some []
  else if (194 <=? b) && (b <=? 223) then Some [tail]
  else if b =? 224 then Some [(160, 191); tail]
  else if b =? 237 then Some [(128, 159); tail]
  else if (225 <=? b) && (b <=? 239) then Some [tail; tail]
  else if b =? 240 then Some [(144, 191); tail; tail]
  else if (241 <=? b) && (b <=? 243) then Some [tail; tail; tail]
  else if b =? 244 then Some [(128, 143); tail; tail]
  else None.
Fixpoint utf8_bytes (pending : list (Z * Z)) (l : list Z) : bool :=
  match l, pending with
  | [], [] => true
  | b :: l, (lo, hi) :: pending => (lo <=? b) && (b <=? hi) && utf8_bytes pending l
  | b :: l, [] => match utf8_follow b with Some pending => utf8_bytes pending l | None => false end
  | [], _ => false
  end.
Definition valid_text (s : string) : bool := utf8_bytes [] (bytes_of s).

(** Decoded values: maps in the order of their keys, finite numbers, valid text. *)
Fixpoint canonical (v : json) : bool :=
  match v with
  | JNumber f => is_finite f
  | JString s => valid_text s
  | JArray l => forallb canonical l
  | JObject m => keys_ordered m && forallb (λ kv, valid_text kv.1 && canonical kv.2) m
  | _ => true
  end.

(** ** The libraries *)

(** What a result shows of a value. *)
Definition shows {T} (den : T -> json -> Prop) (r : gjson_Result T) (v : json) : Prop :=
  r_Value r = v ∧ (∀ s, v = JString s -> r_String r = s) ∧ den (r_Raw r) v.

(** The key a path of one segment names: a backslash takes the next byte as it is, the
    other signs of the path syntax must not occur. *)
Definition path_sign (c : ascii) : bool := bool_decide (c ∈ ["."; "*"; "?"; "|"; "#"; "@"]%char).
Fixpoint path_key (s : string) : option string :=
  match s with
  | EmptyString => Some ""
  | String c r =>
      if Ascii.eqb c "\" then match r with String d r => String d <$> path_key r | EmptyString => None end
      else if path_sign c then None else String c <$> path_key r
  end.
(** Keys that need no more than the four escapes. *)
Definition literal_key (k : string) : bool :=
  valid_text k && negb (String.eqb k "") && negb (HasPrefix k ":") && lacks "|" k && lacks "#" k && lacks "@" k.

Class JsonTextLaws (JT : JsonText) := {
  (** The text encodes the value, no object with a key twice. *)
  denotes : Text -> json -> Prop;
  denotes_decode : ∀ t v, denotes t v -> Unmarshal t = Ok v;
  denotes_canonical : ∀ t v, denotes t v -> canonical v = true;
  Marshal_denotes : ∀ v, canonical v = true -> ∃ t, Marshal v = Ok t ∧ denotes t v;
  Parse_shows : ∀ t v, denotes t v -> shows denotes (gjson_Parse t) v;
  Get_path : ∀ t v p, denotes t v -> plain_path p = true ->
    match json_get v p with
    | Some w => ∃ r, gjson_Get t (GoString.Join p ".") = Some r ∧ shows denotes r w
    | None => gjson_Get t (GoString.Join p ".") = None
    end;
  Set_path : ∀ t v p x v', denotes t v -> plain_path p = true -> canonical x = true ->
    json_set v p x = Some v' -> ∃ t', sjson_Set t (GoString.Join p ".") x = Ok t' ∧ denotes t' v';
  SetRaw_path : ∀ t v p raw x v', denotes t v -> plain_path p = true -> denotes raw x ->
    json_set v p x = Some v' -> ∃ t', sjson_SetRaw t (GoString.Join p ".") raw = Ok t' ∧ denotes t' v';
  Delete_path : ∀ t v p, denotes t v -> plain_path p = true ->
    ∃ t', sjson_Delete t (GoString.Join p ".") = Ok t' ∧ denotes t' (json_del v p);
  Set_key : ∀ t m s k x, denotes t (JObject m) -> path_key s = Some k -> literal_key k = true -> canonical x = true ->
    ∃ t', sjson_Set t s x = Ok t' ∧ denotes t' (JObject (put_field k x m));
  (** A text has at least one byte of ASCII for every value it encodes and every byte of
      ASCII in their strings. *)
  UnmarshalJsonStr_size : ∀ s v, UnmarshalJsonStr s = Ok v -> (json_size v <= ascii_len s)%nat;
}.

(** A [range] visits every entry once. *)
Class FormattingLaws (FM : Formatting) := {
  range_map_perm : ∀ m, range_map m ≡ₚ m;
}.

(** ** Plain paths *)

Definition path_byte (c : ascii) : bool := plain_byte c || Ascii.eqb c ".".

Lemma all_bytes_app p a b : all_bytes p (a +:+ b) = all_bytes p a && all_bytes p b.
Proof. induction a as [|c a IH]; [done|]. rewrite string_cons_app. simpl. by rewrite IH, andb_assoc. Qed.

Lemma all_bytes_impl (p q : ascii -> bool) s :
  (∀ c, p c = true -> q c = true) -> all_bytes p s = true -> all_bytes q s = true.
Proof.
  intros H. induction s as [|c s IH]; [done|]. simpl. rewrite !andb_true_iff. intros [? ?]. split; auto.
Qed.

Lemma bytes_lacks c p s : p c = false -> all_bytes p s = true -> lacks c s = true.
Proof.
  intros Hc. induction s as [|x s IH]; [done|]. simpl. rewrite !andb_true_iff. intros [Hx ?].
  split; [|auto]. destruct (Ascii.eqb_spec x c) as [->|]; [congruence|done].
Qed.

Lemma plain_seg_bytes s : plain_seg s = true -> all_bytes plain_byte s = true ∧ s ≠ "" ∧ HasPrefix s "-" = false.
Proof.
  unfold plain_seg. rewrite !andb_true_iff, !negb_true_iff. intros (((Hs & Hm) & Hb) & _).
  split_and!; [done| |done]. by intros ->.
Qed.

Lemma join_cons k k' (p : list string) : GoString.Join (k :: k' :: p) "." = k +:+ String "." (GoString.Join (k' :: p) ".").
Proof. change (GoString.Join (k :: k' :: p) ".") with (k +:+ "." +:+ GoString.Join (k' :: p) "."). by rewrite string_cons_app, string_nil_app. Qed.

Lemma plain_path_forall p : plain_path p = true -> p ≠ [] ∧ Forall (λ s, plain_seg s = true) p.
Proof.
  unfold plain_path. rewrite andb_true_iff, negb_true_iff. intros [H%bool_decide_eq_false Hf]. split; [done|].
  by apply Forall_forall; intros x Hx; rewrite forallb_forall in Hf; apply Hf, list_elem_of_In.
Qed.

Lemma plain_lacks c s : plain_byte c = false -> plain_seg s = true -> lacks c s = true.
Proof. intros Hc [Hs _]%plain_seg_bytes. by apply (bytes_lacks c plain_byte). Qed.

Lemma split_plain p : plain_path p = true -> Split (GoString.Join p ".") "." = p.
Proof.
  intros [Hp Hf]%plain_path_forall. apply Split_Join; [done|]. eapply Forall_impl; [exact Hf|].
  intros s Hs. by apply plain_lacks.
Qed.

Lemma join_bytes p : Forall (λ s, plain_seg s = true) p -> all_bytes path_byte (GoString.Join p ".") = true.
Proof.
  induction 1 as [|k p Hk Hp IH]; [done|]. apply plain_seg_bytes in Hk as (Hk & _).
  assert (all_bytes path_byte k = true) as Hk'.
  { eapply all_bytes_impl; [|exact Hk]. intros c Hc. unfold path_byte. by rewrite Hc. }
  destruct p as [|k' p]; [done|]. rewrite join_cons, all_bytes_app, Hk'.
  change (true && (path_byte "." && all_bytes path_byte (GoString.Join (k' :: p) ".")) = true). by rewrite IH.
Qed.

(** The byte sequence [".-"] does not occur. *)
Fixpoint no_dot_minus (s : string) : bool :=
  match s with
  | String a (String b _ as r) => negb (Ascii.eqb a "." && Ascii.eqb b "-") && no_dot_minus r
  | _ => true
  end.

Lemma negative_indices_none n s : no_dot_minus s = true -> negative_indices n s = [].
Proof.
  revert s. induction n as [|n IH]; intros [|a [|b r]]; [done..| |].
  - intros _. simpl. destruct a as [[] [] [] [] [] [] [] []]; simpl; by destruct n.
  - intros H. assert (no_dot_minus (String b r) = true) as Hr by (simpl in H; by apply andb_true_iff in H as [_ H]).
    simpl in H. apply andb_true_iff in H as [H _]. simpl.
    destruct (Ascii.eqb_spec a ".") as [->|Ha].
    + destruct (Ascii.eqb_spec b "-") as [->|Hb]; [done|]. 
      destruct b as [[] [] [] [] [] [] [] []]; try (by apply IH); congruence.
    + destruct a as [[] [] [] [] [] [] [] []]; try (by apply IH); congruence.
Qed.

Lemma no_dot_minus_app k s : lacks "." k = true -> no_dot_minus s = true -> no_dot_minus (k +:+ s) = true.
Proof.
  induction k as [|c k IH]; [done|]. simpl lacks. rewrite andb_true_iff, negb_true_iff. intros [Hc Hk] Hs.
  rewrite string_cons_app. specialize (IH Hk Hs). simpl. destruct (k +:+ s); [done|]. by rewrite Hc, IH.
Qed.

Lemma join_no_dot_minus p : Forall (λ s, plain_seg s = true) p -> no_dot_minus (GoString.Join p ".") = true.
Proof.
  induction 1 as [|k p Hk Hp IH]; [done|]. assert (lacks "." k = true) as Hl by (by apply plain_lacks).
  destruct p as [|k' p].
  - simpl. rewrite <- (append_nil_r k). by apply no_dot_minus_app.
  - rewrite join_cons. apply no_dot_minus_app; [done|].
    inversion Hp as [|? ? Hk' _]; subst. apply plain_seg_bytes in Hk' as (_ & Hne & Hm).
    assert (∃ c r, GoString.Join (k' :: p) "." = String c r ∧ Ascii.eqb c "-" = false) as (c & r & E & Hc).
    { destruct k' as [|c k']; [done|]. rewrite HasPrefix_head in Hm. exists c.
      assert (Ascii.eqb c "-" = false) as Hc by (by destruct (Ascii.eqb c "-"), k').
      destruct p as [|k2 p]; [by exists k'|]. rewrite join_cons, string_cons_app. by eexists. }
    rewrite E in *. simpl. rewrite Hc. simpl. exact IH.
Qed.

Lemma lacks_Contains c s : lacks c s = true -> Contains s (String c "") = false.
Proof.
  induction s as [|x s IH]; [done|]. simpl lacks. rewrite andb_true_iff, negb_true_iff. intros [Hx Hs].
  change (Contains (String x s) (String c "")) with (HasPrefix (String x s) (String c "") || Contains s (String c "")).
  by rewrite HasPrefix_head, Hx, IH.
Qed.

Lemma visible_bytes s : all_bytes path_byte s = true -> Forall (λ z, 33 <= z < 128) (bytes_of s).
Proof.
  induction s as [|c s IH]; [constructor|]. simpl. rewrite andb_true_iff. intros [Hc Hs].
  change (bytes_of (String c s)) with (Z.of_N (Ascii.N_of_ascii c) :: bytes_of s). constructor; [|auto].
  assert (∀ c, path_byte c = true -> (33 <=? Z.of_N (Ascii.N_of_ascii c)) && (Z.of_N (Ascii.N_of_ascii c) <? 128) = true) as H.
  { clear. intros [[] [] [] [] [] [] [] []]; vm_compute; congruence. }
  apply H in Hc. lia.
Qed.

Lemma TrimSpace_visible s : all_bytes path_byte s = true -> TrimSpace s = s.
Proof.
  intros H%visible_bytes.
  assert (∀ l, Forall (λ z, 33 <= z < 128) l -> no_edge_space l = true) as He.
  { intros l [|z l' Hz _]; [done|]. by apply bool_decide_eq_true. }
  apply TrimSpace_id; apply He; [done|]. by apply Forall_rev.
Qed.

Lemma join_nonempty p : plain_path p = true -> GoString.Join p "." ≠ "".
Proof.
  intros [Hp Hf]%plain_path_forall. destruct Hf as [|k p Hk Hf]; [done|].
  apply plain_seg_bytes in Hk as (_ & Hne & _). destruct p as [|k' p]; [done|].
  rewrite join_cons. destruct k; [done|]. by rewrite string_cons_app.
Qed.

(** ** The reference on trees *)

Definition path_of (s : string) : option (list string) :=
  let p := Split s "." in if plain_path p && String.eqb (GoString.Join p ".") s then Some p else None.

Definition ref_equal (a b : json) : option bool :=
  match a, b with
  | JNull, JNull => Some true
  | JNull, _ | _, JNull => Some false
  | JBool x, JBool y => Some (Bool.eqb x y)
  | JNumber x, JNumber y => Some (feqb x y)
  | JString x, JString y => Some (String.eqb x y)
  | _, _ => None
  end.

Definition ref_compare (mode : string) (a b : json) : option bool :=
  if bool_decide (mode = "full") then ref_equal a b
  else match a, b with
       | JString x, JString y =>
           if bool_decide (mode = "prefix") then Some (HasPrefix x y)
           else if bool_decide (mode = "suffix") then Some (HasSuffix x y)
           else if bool_decide (mode = "contains") then Some (Contains x y)
           else None
       | JNumber x, JNumber y =>
           if bool_decide (mode = "gt") then Some (fltb y x)
           else if bool_decide (mode = "gte") then Some (fleb y x)
           else if bool_decide (mode = "lt") then Some (fltb x y)
           else if bool_decide (mode = "lte") then Some (fleb x y)
           else None
       | _, _ => None
       end.

(** A condition looks in the body [v] first and then in the context [c]. *)
Definition ref_condition (v c : json) (cond : ConditionOperation) : option bool :=
  p ← path_of (cond_Path cond);
  match (match json_get v p with Some w => Some w | None => json_get c p end) with
  | None => Some (cond_PassMissingKey cond)
  | Some w =>
      if canonical (cond_Value cond)
      then xorb (cond_Invert cond) <$> ref_compare (word_ToLower (cond_Mode cond)) w (cond_Value cond) else None
  end.

Definition ref_conditions (v c : json) (conds : list ConditionOperation) (logic : string) : option bool :=
  bs ← mapM (ref_condition v c) conds;
  Some (match bs with
        | [] => true
        | _ => if String.eqb (ToUpper logic) "AND" then forallb id bs else existsb id bs
        end).

Section reference.
Context {FM : Formatting}.

(** The edits of a string. *)
Definition ref_edit (op : ParamOperation) (s : string) : option string :=
  let mode := op_Mode op in
  let a := Sprint (op_Value op) in
  let given := negb (is_nil (Some (op_Value op))) in
  let nonempty := given && negb (String.eqb a "") in
  if bool_decide (mode = "trim_prefix") then if given then Some (TrimPrefix s a) else None
  else if bool_decide (mode = "trim_suffix") then if given then Some (TrimSuffix s a) else None
  else if bool_decide (mode = "ensure_prefix") then if nonempty then Some (if HasPrefix s a then s else a +:+ s) else None
  else if bool_decide (mode = "ensure_suffix") then if nonempty then Some (if HasSuffix s a then s else s +:+ a) else None
  else if bool_decide (mode = "trim_space") then Some (TrimSpace s)
  else if bool_decide (mode = "to_lower") then Some (unicode_ToLower s)
  else if bool_decide (mode = "to_upper") then Some (unicode_ToUpper s)
  else if bool_decide (mode = "replace") then if String.eqb (op_From op) "" then None else Some (ReplaceAll s (op_From op) (op_To op))
  else None.

(** Adding to an array, a string or an object. *)
Definition ref_add (front keep : bool) (value w : json) : option json :=
  match w with
  | JArray l => let new := match value with JArray a => a | x => [x] end in
                Some (slice (if front then new ++ l else l ++ new))
  | JString s => Some (JString (if front then Sprint value +:+ s else s +:+ Sprint value))
  | JObject m => match value with
                 | JObject m' => Some (JObject (merge_maps keep m m'))
                 | JNull => Some (JObject m)
                 | _ => None
                 end
  | _ => None
  end.

Definition ref_put (v : json) (p : list string) (x : json) : option json := if canonical x then json_set v p x else None.

Definition ref_body (op : ParamOperation) (v : json) : option json :=
  let mode := op_Mode op in
  let at_path (f : json -> option json) := p ← path_of (op_Path op); w ← json_get v p; x ← f w; ref_put v p x in
  if bool_decide (mode = "set") then
    p ← path_of (op_Path op);
    if op_KeepOrigin op && bool_decide (is_Some (json_get v p)) then Some v else ref_put v p (op_Value op)
  else if bool_decide (mode = "delete") then p ← path_of (op_Path op); Some (json_del v p)
  else if bool_decide (mode = "prepend") then at_path (ref_add true (op_KeepOrigin op) (op_Value op))
  else if bool_decide (mode = "append") then at_path (ref_add false (op_KeepOrigin op) (op_Value op))
  else if bool_decide (mode = "copy") then
    from ← path_of (op_From op); to ← path_of (op_To op); w ← json_get v from; ref_put v to w
  else if bool_decide (mode = "move") then
    from ← path_of (op_From op); to ← path_of (op_To op); w ← json_get v from; v' ← ref_put v to w; Some (json_del v' from)
  else at_path (λ w, match w with JString s => JString <$> ref_edit op s | _ => None end).

Definition ref_operation (c : json) (op : ParamOperation) (v : json) : option json :=
  b ← ref_conditions v c (op_Conditions op) (op_Logic op);
  if (b : bool) then ref_body op v else Some v.

Definition ref_run (c : json) (ops : list ParamOperation) (v : json) : option json :=
  foldl (λ acc op, acc ≫= ref_operation c op) (Some v) ops.

End reference.

(** ** Paths of a tree *)

Lemma path_of_plain s p : path_of s = Some p -> s = GoString.Join p "." ∧ plain_path p = true.
Proof.
  unfold path_of. intros H. case_match eqn:E; simplify_eq. apply andb_true_iff in E as [E1 E2].
  by apply String.eqb_eq in E2.
Qed.

Lemma path_of_join p : plain_path p = true -> path_of (GoString.Join p ".") = Some p.
Proof. intros H. unfold path_of. by rewrite split_plain, H, String.eqb_refl. Qed.

Lemma put_same k w m : keys_ordered m = true -> lookup_field k m = Some w -> put_field k w m = m.
Proof.
  induction m as [|[k0 v0] m IH]; [done|]. intros Ho. simpl. destruct (String.eqb_spec k0 k) as [->|Hne].
  - intros [= ->]. by rewrite compare_refl.
  - intros Hl. assert (keys_ordered m = true ∧ ∀ k' w', lookup_field k' m = Some w' -> k0 <s k') as [Ho' Hlt].
    { clear IH Hne Hl. revert k0 v0 Ho. induction m as [|[k1 v1] m IH]; intros k0 v0 Ho; [done|].
      simpl in Ho. destruct (String.compare k0 k1) eqn:E; [done| |done]. split; [exact Ho|]. intros k' w'. simpl.
      destruct (String.eqb_spec k1 k') as [->|]; [done|]. intros Hl.
      eapply compare_lt_trans; [exact E|]. by eapply (IH k1 v1 Ho). }
    specialize (Hlt _ _ Hl). rewrite String.compare_antisym, Hlt. simpl. by rewrite IH.
Qed.

Lemma canonical_field k w m : forallb (λ kv, valid_text kv.1 && canonical kv.2) m = true -> lookup_field k m = Some w -> canonical w = true.
Proof.
  induction m as [|[k0 v0] m IH]; [done|]. simpl. rewrite !andb_true_iff. intros [[_ Hc] Hm].
  destruct (String.eqb k0 k); [|auto]. by intros [= <-].
Qed.

Lemma canonical_item i w l : forallb canonical l = true -> l !! i = Some w -> canonical w = true.
Proof. intros Hl Hi. rewrite forallb_forall in Hl. apply Hl, list_elem_of_In. by eapply list_elem_of_lookup_2. Qed.

Lemma json_get_canonical v p w : canonical v = true -> json_get v p = Some w -> canonical w = true.
Proof.
  revert v. induction p as [|k p IH]; intros v Hv; simpl; [congruence|]. destruct v as [| | | |l|m]; try done.
  - intros (i & _ & (x & Hx & Hg)%bind_Some)%bind_Some. eapply IH; [|exact Hg]. by eapply canonical_item.
  - intros (x & Hx & Hg)%bind_Some. simpl in Hv. apply andb_true_iff in Hv as [_ Hv].
    eapply IH; [|exact Hg]. by eapply canonical_field.
Qed.

(** Writing what is there changes nothing. *)
Lemma json_set_same v p w : canonical v = true -> json_get v p = Some w -> json_set v p w = Some v.
Proof.
  revert v. induction p as [|k p IH]; intros v Hv; simpl; [congruence|]. destruct v as [| | | |l|m]; try done.
  - intros (i & Hi & (x & Hx & Hg)%bind_Some)%bind_Some. rewrite Hi. simpl. rewrite Hx. simpl.
    rewrite (IH x) by (try done; by eapply canonical_item). simpl. by rewrite list_insert_id.
  - intros (x & Hx & Hg)%bind_Some. simpl in Hv. apply andb_true_iff in Hv as [Ho Hv]. rewrite Hx. simpl.
    rewrite (IH x) by (try done; by eapply canonical_field). simpl. by rewrite put_same.
Qed.

(** What was written is read. *)
Lemma json_get_new p x w : json_new p x = Some w -> json_get w p = Some x.
Proof.
  revert w. induction p as [|k p IH]; intros w; simpl; [congruence|]. case_match; [done|].
  intros (y & Hy & [= <-])%bind_Some. simpl. rewrite String.eqb_refl. simpl. by apply IH.
Qed.

Lemma json_get_set v p x v' : json_set v p x = Some v' -> json_get v' p = Some x.
Proof.
  revert v v'. induction p as [|k p IH]; intros v v'; simpl; [congruence|]. destruct v as [| | | |l|m]; try done.
  - intros (i & Hi & (y & Hy & (w & Hw & [= <-])%bind_Some)%bind_Some)%bind_Some. rewrite Hi. simpl.
    rewrite list_lookup_insert_eq by (by eapply lookup_lt_Some). simpl. by eapply IH.
  - intros (w & Hw & [= <-])%bind_Some. rewrite lookup_put, String.eqb_refl. simpl.
    destruct (lookup_field k m); [by eapply IH|]. by apply json_get_new.
Qed.

(** Paths that part at some segment. *)
Fixpoint apart (p q : list string) : bool :=
  match p, q with
  | a :: p, b :: q => if String.eqb a b then apart p q else true
  | _, _ => false
  end.

Lemma json_get_new_apart p q x w : json_new p x = Some w -> apart p q = true -> json_get w q = None.
Proof.
  revert q w. induction p as [|k p IH]; intros [|k' q] w; simpl; try done. case_match; [done|].
  intros (y & Hy & [= <-])%bind_Some. simpl. destruct (String.eqb k k'); [|done]. simpl. by apply IH.
Qed.

Lemma index_of_inj a b i : index_of a = Some i -> index_of b = Some i -> a = b.
Proof.
  unfold index_of. intros (n & _ & Hn)%bind_Some (n' & _ & Hn')%bind_Some.
  repeat case_match; simplify_eq. rewrite andb_true_iff in *. destruct_and!.
  repeat match goal with H : String.eqb _ _ = true |- _ => apply String.eqb_eq in H end.
  assert (n = n') by lia. congruence.
Qed.

(** What lies apart is not touched. *)
Lemma json_get_set_apart v p q x v' : json_set v p x = Some v' -> apart p q = true -> json_get v' q = json_get v q.
Proof.
  revert v v' q. induction p as [|k p IH]; intros v v' [|k' q]; [done..|]. simpl.
  destruct v as [| | | |l|m]; try done.
  - intros (i & Hi & (y & Hy & (w & Hw & [= <-])%bind_Some)%bind_Some)%bind_Some.
    destruct (String.eqb_spec k k') as [<-|Hne].
    + intros Ha. simpl. rewrite Hi. simpl. rewrite Hy, list_lookup_insert_eq by (by eapply lookup_lt_Some).
      simpl. by eapply IH.
    + intros _. simpl. destruct (index_of k') as [j|] eqn:Hj; [|done]. simpl.
      rewrite list_lookup_insert_ne; [done|]. intros ->. by eapply Hne, index_of_inj.
  - intros (w & Hw & [= <-])%bind_Some Ha. simpl. rewrite lookup_put.
    destruct (String.eqb_spec k k') as [<-|Hne]; [|done]. simpl.
    destruct (lookup_field k m); simpl; [by eapply IH|]. by eapply json_get_new_apart.
Qed.

(** ** The code implements the reference *)

(** Decides comparisons of constants. *)
Ltac closed_bools :=
  repeat match goal with
  | |- context [bool_decide (@eq string ?x ?y)] =>
      let b := eval vm_compute in (bool_decide (x = y)) in
      match b with true => idtac | false => idtac end; change (bool_decide (x = y)) with b
  end; cbv beta iota.

Section simulation.
Context {JT : JsonText} {FM : Formatting} {JL : JsonTextLaws JT}.

Definition context_denotes (j : option Text) (c : json) : Prop :=
  match j with None => c = JObject [] | Some t => denotes t c end.

Lemma marshal_context context audit :
  canonical (JObject (context_entries context audit)) = true ->
  ∃ j, marshalContextJSON context audit = Ok j ∧ context_denotes j (JObject (context_entries context audit)).
Proof.
  unfold marshalContextJSON. destruct (context_entries context audit) as [|kv m]; [by exists None|].
  intros H. destruct (Marshal_denotes _ H) as (t & -> & Ht). by exists (Some t).
Qed.

Lemma negative_plain t p : plain_path p = true -> processNegativeIndex t (GoString.Join p ".") = GoString.Join p ".".
Proof.
  intros [_ Hf]%plain_path_forall. unfold processNegativeIndex.
  by rewrite negative_indices_none by (by apply join_no_dot_minus).
Qed.

Lemma resolve_plain t p : plain_path p = true -> resolveOperationPaths t (GoString.Join p ".") = Ok [GoString.Join p "."].
Proof.
  intros [_ Hf]%plain_path_forall. unfold resolveOperationPaths.
  rewrite lacks_Contains; [done|]. eapply (bytes_lacks _ path_byte); [done|]. by apply join_bytes.
Qed.

Lemma get_some t v p w : denotes t v -> plain_path p = true -> json_get v p = Some w ->
  ∃ r, gjson_Get t (GoString.Join p ".") = Some r ∧ shows denotes r w.
Proof. intros Ht Hp Hw. pose proof (Get_path t v p Ht Hp) as H. by rewrite Hw in H. Qed.

Lemma get_none t v p : denotes t v -> plain_path p = true -> json_get v p = None ->
  gjson_Get t (GoString.Join p ".") = None.
Proof. intros Ht Hp Hw. pose proof (Get_path t v p Ht Hp) as H. by rewrite Hw in H. Qed.

Lemma put_path t v p x v' : denotes t v -> plain_path p = true -> ref_put v p x = Some v' ->
  ∃ t', sjson_Set t (GoString.Join p ".") x = Ok t' ∧ denotes t' v'.
Proof. unfold ref_put. intros Ht Hp H. case_match; [|done]. by eapply Set_path. Qed.

(** *** Conditions *)

Lemma compare_sim a b r s mode x :
  shows denotes r a -> shows denotes s b -> ref_compare mode a b = Some x -> compareGjsonValues r s mode = Ok x.
Proof.
  intros (<- & Hr & _) (<- & Hs & _). unfold ref_compare, compareGjsonValues.
  case_bool_decide as E1; [unfold ref_equal, compareEqual|unfold compareNumeric];
    destruct (r_Value r) eqn:Er, (r_Value s) eqn:Es; try done;
    try (rewrite (Hr _ eq_refl)); try (rewrite (Hs _ eq_refl)); simpl.
  all: try (repeat case_bool_decide; simplify_eq; set_solver).
  all: try (repeat case_match; simplify_eq; done).
  all: intros [= <-]; repeat match goal with b : bool |- _ => destruct b end; reflexivity.
Qed.

Lemma condition_sim t v j c cond b :
  denotes t v -> context_denotes j c -> ref_condition v c cond = Some b -> checkSingleCondition t j cond = Ok b.
Proof.
  intros Ht Hj (p & [Hp Hpl]%path_of_plain & H)%bind_Some. unfold checkSingleCondition, condition_value.
  rewrite Hp, (negative_plain _ _ Hpl).
  assert (∀ w r, shows denotes r w ->
            (if canonical (cond_Value cond)
             then xorb (cond_Invert cond) <$> ref_compare (word_ToLower (cond_Mode cond)) w (cond_Value cond) else None) = Some b ->
            match Marshal (cond_Value cond) with
            | Err e => Err (EWrap "failed to marshal condition value: " e)
            | Ok targetBytes =>
                match compareGjsonValues r (gjson_Parse targetBytes) (word_ToLower (cond_Mode cond)) with
                | Err e => Err (EWrap ("comparison failed for path " +:+ GoString.Join p "." +:+ ": ") e)
                | Ok b => Ok (if cond_Invert cond then negb b else b)
                end
            end = Ok b) as Hcmp.
  { intros w r Hr Hb. case_match eqn:Hc; [|done]. apply fmap_Some in Hb as (x & Hx & ->).
    destruct (Marshal_denotes _ Hc) as (tb & -> & Htb).
    erewrite compare_sim; [|exact Hr|apply Parse_shows, Htb|exact Hx]. by destruct (cond_Invert cond), x. }
  destruct (json_get v p) as [w|] eqn:Ew.
  - destruct (get_some _ _ _ _ Ht Hpl Ew) as (r & -> & Hr). by eapply Hcmp.
  - rewrite (get_none _ _ _ Ht Hpl Ew). destruct j as [tc|]; simpl in Hj |- *.
    + destruct (json_get c p) as [w|] eqn:Ec.
      * destruct (get_some _ _ _ _ Hj Hpl Ec) as (r & -> & Hr). by eapply Hcmp.
      * rewrite (get_none _ _ _ Hj Hpl Ec). congruence.
    + subst c. destruct p as [|k p]; [done|]. simpl in H. congruence.
Qed.

Lemma conditions_sim t v j c conds logic b :
  denotes t v -> context_denotes j c -> ref_conditions v c conds logic = Some b -> checkConditions t j conds logic = Ok b.
Proof.
  intros Ht Hj (bs & Hbs & [= <-])%bind_Some.
  assert (check_all t j conds = Ok bs) as Hall.
  { apply mapM_Some in Hbs. induction Hbs as [|cond x conds bs Hx _ IH]; [done|]. simpl.
    by rewrite (condition_sim _ _ _ _ _ _ Ht Hj Hx), IH. }
  unfold checkConditions. destruct conds as [|cond conds]; [apply mapM_Some in Hbs; by inversion Hbs|].
  rewrite Hall. apply mapM_Some in Hbs. inversion Hbs; subst. f_equal.
  by case_bool_decide as E; [rewrite E|apply String.eqb_neq in E; rewrite E].
Qed.

(** *** Operations *)

Lemma on_string_sim t v p s f s' v' :
  denotes t v -> plain_path p = true -> json_get v p = Some (JString s) ->
  f s = Ok (Some s') ∨ (f s = Ok None ∧ s' = s) -> ref_put v p (JString s') = Some v' ->
  ∃ t', on_string t (GoString.Join p ".") f = Ok t' ∧ denotes t' v'.
Proof.
  intros Ht Hp Hs Hf Hput. unfold on_string. destruct (get_some _ _ _ _ Ht Hp Hs) as (r & -> & Hr & Hrs & _).
  rewrite Hr, (Hrs s eq_refl). destruct Hf as [->|[-> ->]]; [by apply (put_path t v)|].
  unfold ref_put in Hput. case_match; [|done]. rewrite (json_set_same v p (JString s)) in Hput by (try done; by eapply denotes_canonical).
  simplify_eq. by exists t.
Qed.

Lemma modify_sim t v p w x front keep value v' :
  denotes t v -> plain_path p = true -> json_get v p = Some w -> ref_add front keep value w = Some x ->
  ref_put v p x = Some v' -> ∃ t', modifyValue t (GoString.Join p ".") value keep front = Ok t' ∧ denotes t' v'.
Proof.
  intros Ht Hp Hw Hx Hput. unfold modifyValue. destruct (get_some _ _ _ _ Ht Hp Hw) as (r & -> & Hr & Hrs & Hraw).
  rewrite Hr. destruct w as [| | |s|l|m]; try done; simpl in Hx.
  - simplify_eq. unfold modifyString. rewrite (Hrs s eq_refl). by apply (put_path t v).
  - simplify_eq. by apply (put_path t v).
  - unfold mergeObjects. rewrite (denotes_decode _ _ Hraw). simpl.
    destruct value; simplify_eq; simpl; by apply (put_path t v).
Qed.

(** The state after an operation on the body. *)
Definition body_moved (st st' : OverrideState) (v' : json) : Prop :=
  denotes (os_data st') v' ∧ os_context st' = os_context st ∧ os_contextJSON st' = os_contextJSON st.

Lemma at_path_sim f record path st v' :
  (∃ t', f (os_data st) path = Ok t' ∧ denotes t' v') -> ∃ st', at_paths f record [path] st = Ok st' ∧ body_moved st st' v'.
Proof. intros (t' & Hf & Ht'). simpl. rewrite Hf. by eexists. Qed.

Lemma edit_sim op p s s' v v' st :
  denotes (os_data st) v -> plain_path p = true -> json_get v p = Some (JString s) -> ref_edit op s = Some s' ->
  ref_put v p (JString s') = Some v' -> isPathBasedOperation (op_Mode op) = true ∧
  ∃ st', path_operation op [GoString.Join p "."] st = Ok st' ∧ body_moved st st' v'.
Proof.
  intros Ht Hp Hs He Hput. unfold ref_edit in He. unfold path_operation.
  repeat match type of He with
  | context [bool_decide (op_Mode op = ?m)] => destruct (bool_decide_reflect (op_Mode op = m)) as [->|_]
  end; [..|done]; (split; [done|]); closed_bools; apply at_path_sim;
    apply (on_string_sim _ v p s _ s'); try done.
  - left. unfold trim_string. destruct (op_Value op); by simplify_eq/=.
  - left. unfold trim_string. destruct (op_Value op); by simplify_eq/=.
  - unfold ensure_affix. destruct (is_nil _); [done|]. simpl in *. destruct (String.eqb_spec (Sprint (op_Value op)) ""); [done|].
    rewrite bool_decide_eq_false_2 by done. destruct (HasPrefix s _); simplify_eq/=; auto.
  - unfold ensure_affix. destruct (is_nil _); [done|]. simpl in *. destruct (String.eqb_spec (Sprint (op_Value op)) ""); [done|].
    rewrite bool_decide_eq_false_2 by done. destruct (HasSuffix s _); simplify_eq/=; auto.
  - left. by simplify_eq.
  - left. by simplify_eq.
  - left. by simplify_eq.
  - left. unfold replace_string. destruct (String.eqb_spec (op_From op) ""); [done|]. rewrite bool_decide_eq_false_2 by done. by simplify_eq.
Qed.

Lemma set_sim op p v v' st :
  denotes (os_data st) v -> plain_path p = true ->
  (if op_KeepOrigin op && bool_decide (is_Some (json_get v p)) then Some v else ref_put v p (op_Value op)) = Some v' ->
  ∃ st', set_paths (op_Value op) (op_KeepOrigin op) [GoString.Join p "."] st = Ok st' ∧ body_moved st st' v'.
Proof.
  intros Ht Hp H. simpl.
  assert (bool_decide (is_Some (gjson_Get (os_data st) (GoString.Join p "."))) = bool_decide (is_Some (json_get v p))) as ->.
  { destruct (json_get v p) as [w|] eqn:Ew.
    - destruct (get_some _ _ _ _ Ht Hp Ew) as (r & -> & _). by rewrite !bool_decide_eq_true_2.
    - by rewrite (get_none _ _ _ Ht Hp Ew). }
  destruct (_ && _); [simplify_eq; by eexists|]. destruct (put_path _ _ _ _ _ Ht Hp H) as (t' & -> & Ht'). by eexists.
Qed.

(** An operation whose mode is among those on paths, and one that is not. *)
Lemma path_mode_sim op p v' j st :
  checkConditions (os_data st) j (op_Conditions op) (op_Logic op) = Ok true -> os_contextJSON st = j ->
  isPathBasedOperation (op_Mode op) = true -> op_Path op = GoString.Join p "." -> plain_path p = true ->
  (∃ st', path_operation op [GoString.Join p "."] st = Ok st' ∧ body_moved st st' v') ->
  ∃ st', apply_operation op st = inr st' ∧ body_moved st st' v'.
Proof.
  intros Hc <- Hm Hpath Hp (st' & Hst & Hb). unfold apply_operation.
  rewrite Hc, Hm, Hpath, negative_plain, resolve_plain, Hst by done. by eexists.
Qed.

Lemma between_sim op from to v v' w st :
  denotes (os_data st) v -> op_From op = GoString.Join from "." -> op_To op = GoString.Join to "." ->
  plain_path from = true -> plain_path to = true -> json_get v from = Some w -> ref_put v to w = Some v' ->
  (op_Mode op = "copy" -> ∃ st', other_operation op st = inr st' ∧ body_moved st st' v') ∧
  (op_Mode op = "move" -> ∃ st', other_operation op st = inr st' ∧ body_moved st st' (json_del v' from)).
Proof.
  intros Ht Hf Hto Hpf Hpt Hw Hput. destruct (get_some _ _ _ _ Ht Hpf Hw) as (r & Hg & Hr & _).
  destruct (put_path _ _ _ _ _ Ht Hpt Hput) as (t1 & H1 & Ht1).
  destruct (Delete_path t1 v' from Ht1 Hpf) as (t2 & H2 & Ht2).
  split; intros Hm; unfold other_operation; rewrite Hm, Hf, Hto, !negative_plain by done;
    destruct (header_pair op); closed_bools.
  - rewrite !bool_decide_eq_false_2 by (by apply join_nonempty). simpl. unfold copyValue. rewrite Hg, Hr, H1. by eexists.
  - unfold moveValue. rewrite Hg, Hr, H1, H2. by eexists.
Qed.

Lemma body_sim op v v' j st :
  denotes (os_data st) v -> os_contextJSON st = j ->
  checkConditions (os_data st) j (op_Conditions op) (op_Logic op) = Ok true ->
  ref_body op v = Some v' -> ∃ st', apply_operation op st = inr st' ∧ body_moved st st' v'.
Proof.
  intros Ht Hj Hc Hb. unfold ref_body in Hb.
  assert (∀ front : bool, op_Mode op = (if front then "prepend" else "append") ->
    (p ← path_of (op_Path op); w ← json_get v p; x ← ref_add front (op_KeepOrigin op) (op_Value op) w; ref_put v p x) = Some v' ->
    ∃ st', apply_operation op st = inr st' ∧ body_moved st st' v') as Hadd.
  { intros front Hm (p & [Hp Hpl]%path_of_plain & (w & Hw & (x & Hx & Hput)%bind_Some)%bind_Some)%bind_Some.
    apply (path_mode_sim op p v' j); try done; [rewrite Hm; by destruct front|].
    unfold path_operation. rewrite Hm. destruct front; closed_bools; apply at_path_sim; by apply (modify_sim _ v p w x). }
  repeat match type of Hb with
  | context [bool_decide (op_Mode op = ?m)] => destruct (bool_decide_reflect (op_Mode op = m)) as [Hm|_]
  end.
  - apply bind_Some in Hb as (p & [Hp Hpl]%path_of_plain & Hb). apply (path_mode_sim op p v' j); try done; [by rewrite Hm|].
    unfold path_operation. rewrite Hm. closed_bools. by apply (set_sim op p v).
  - apply bind_Some in Hb as (p & [Hp Hpl]%path_of_plain & [= <-]). apply (path_mode_sim op p _ j); try done; [by rewrite Hm|].
    unfold path_operation. rewrite Hm. closed_bools. apply at_path_sim. unfold deleteValue.
    pose proof (plain_path_forall _ Hpl) as [_ Hall].
    rewrite TrimSpace_visible by (by apply join_bytes). rewrite bool_decide_eq_false_2 by (by apply join_nonempty).
    by apply Delete_path.
  - by apply (Hadd true).
  - by apply (Hadd false).
  - apply bind_Some in Hb as (from & [Hf Hpf]%path_of_plain & (to & [Hto Hpt]%path_of_plain & (w & Hw & Hput)%bind_Some)%bind_Some).
    unfold apply_operation. rewrite Hj, Hc, Hm. change (isPathBasedOperation "copy") with false. cbv iota.
    by eapply (between_sim op from to v v' w).
  - apply bind_Some in Hb as (from & [Hf Hpf]%path_of_plain & (to & [Hto Hpt]%path_of_plain & (w & Hw & (x & Hput & [= <-])%bind_Some)%bind_Some)%bind_Some).
    unfold apply_operation. rewrite Hj, Hc, Hm. change (isPathBasedOperation "move") with false. cbv iota.
    by eapply (between_sim op from to v x w).
  - apply bind_Some in Hb as (p & [Hp Hpl]%path_of_plain & (w & Hw & (x & Hx & Hput)%bind_Some)%bind_Some).
    destruct w as [| | |s| |]; try done. apply fmap_Some in Hx as (s' & Hs' & ->).
    destruct (edit_sim op p s s' v v' st Ht Hpl Hw Hs' Hput) as [Hm H]. by apply (path_mode_sim op p v' j).
Qed.

Lemma operation_sim c op v v' st :
  denotes (os_data st) v -> context_denotes (os_contextJSON st) c -> ref_operation c op v = Some v' ->
  ∃ st', apply_operation op st = inr st' ∧ body_moved st st' v'.
Proof.
  intros Ht Hj (b & Hb & H)%bind_Some. pose proof (conditions_sim _ _ _ _ _ _ _ Ht Hj Hb) as Hc.
  destruct b; [by eapply body_sim|]. simplify_eq. unfold apply_operation. rewrite Hc. by eexists.
Qed.

Lemma ref_run_none {FM' : Formatting} c ops : foldl (λ acc op, acc ≫= ref_operation c op) None ops = None.
Proof. by induction ops. Qed.

Lemma run_sim c ops v v' st :
  denotes (os_data st) v -> context_denotes (os_contextJSON st) c -> ref_run c ops v = Some v' ->
  ∃ st', apply_each ops st = inr st' ∧ body_moved st st' v'.
Proof.
  revert v st. induction ops as [|op ops IH]; intros v st Ht Hj Hr.
  - unfold ref_run in Hr. simplify_eq/=. by exists st.
  - unfold ref_run in Hr. simpl in Hr. destruct (ref_operation c op v) as [v1|] eqn:E1; [|by rewrite ref_run_none in Hr].
    destruct (operation_sim _ _ _ _ _ Ht Hj E1) as (st1 & H1 & Ht1 & Hc1 & Hj1). simpl. rewrite H1.
    destruct (IH v1 st1 Ht1) as (st2 & H2 & Ht2 & Hc2 & Hj2); [by rewrite Hj1|done|].
    exists st2. split_and!; [done..|]. split_and!; congruence.
Qed.

(** C20. Rules on the body whose paths are plain do to the JSON text what the reference
    does to the tree it encodes: whenever the reference, which evaluates the conditions
    on the body and then on the context and applies the operations one after the other,
    gives a tree, the code succeeds, its text encodes that tree and the context is left
    alone, with or without a recorder. *)
Theorem override_refines t v ops context audit v' :
  denotes t v -> canonical (JObject (context_entries context audit)) = true ->
  ref_run (JObject (context_entries context audit)) ops v = Some v' ->
  ∃ st, applyOperations t ops context audit = inr st ∧ denotes (os_data st) v' ∧ os_context st = context.
Proof.
  intros Ht Hc Hr. unfold applyOperations. destruct (marshal_context _ _ Hc) as (j & -> & Hj).
  destruct (run_sim _ ops v v' (mkOverrideState t context j audit) Ht Hj Hr) as (st & -> & Hd & Hctx & _). by exists st.
Qed.

(** A [set] rule puts its value at its path and changes nothing that lies apart from
    it; with [keep_origin] a value that is there stays, and the whole body with it. *)
Theorem set_rule_exact t v p op context audit v' :
  denotes t v -> canonical (JObject (context_entries context audit)) = true -> canonical (op_Value op) = true ->
  op_Mode op = "set" -> op_Conditions op = [] -> op_Path op = GoString.Join p "." -> plain_path p = true ->
  json_set v p (op_Value op) = Some v' ->
  ∃ st, applyOperations t [op] context audit = inr st ∧
    let kept := op_KeepOrigin op && bool_decide (is_Some (json_get v p)) in
    denotes (os_data st) (if kept then v else v') ∧
    json_get v' p = Some (op_Value op) ∧ ∀ q, apart p q = true -> json_get v' q = json_get v q.
Proof.
  intros Ht Hc Hv Hm Hcond Hpath Hp Hset.
  set (v1 := if op_KeepOrigin op && bool_decide (is_Some (json_get v p)) then v else v').
  assert (ref_run (JObject (context_entries context audit)) [op] v = Some v1) as Hrun.
  { unfold ref_run, ref_operation. simpl. rewrite Hcond. simpl. unfold ref_body. rewrite Hm, Hpath, path_of_join by done.
    simpl. closed_bools. unfold ref_put. rewrite Hv, Hset. subst v1. by destruct (_ && _). }
  unfold applyOperations. destruct (marshal_context _ _ Hc) as (j & -> & Hj).
  destruct (run_sim _ [op] v v1 (mkOverrideState t context j audit) Ht Hj Hrun) as (st & -> & Hd & _).
  exists st. split_and!; [done..| |]; [by eapply json_get_set|]. intros q Hq. by eapply json_get_set_apart.
Qed.

End simulation.
