(* ===== verification/OverrideExact.v ===== *)
(** * OverrideExact: exact effects of the old form, wildcards, pruning and header lists

    The old form sets exactly its keys, a wildcard stands for exactly the paths it
    matches, pruning by type removes exactly the objects of that type below the root,
    and a header list restricted to declared tokens lets nothing else through. *)

From Stdlib Require Import Ascii.
From S2P Require Export OverrideProps.
From S2P Require Import Prelude.

(** ** The old form *)

Lemma lookup_field_none k m : k ∉ m.*1 -> lookup_field k m = None.
Proof.
  induction m as [|[k0 x] m IH]; [done|]. simpl. intros H. destruct (String.eqb_spec k0 k) as [->|]; [set_solver|].
  apply IH. set_solver.
Qed.

Lemma lookup_field_elem k x m : NoDup m.*1 -> lookup_field k m = Some x <-> (k, x) ∈ m.
Proof.
  induction m as [|[k0 y] m IH]; simpl; [intros _; split; [done|by intros ?%elem_of_nil]|].
  rewrite NoDup_cons. intros [Hk Hm]. destruct (String.eqb_spec k0 k) as [->|Hne].
  - split; [intros [= ->]; left|]. intros [[= ->]|H]%elem_of_cons; [done|].
    destruct Hk. apply list_elem_of_fmap. by exists (k, x).
  - rewrite IH by done. rewrite elem_of_cons. naive_solver.
Qed.

Lemma lookup_field_perm k (m m' : list (string * json)) : m ≡ₚ m' -> NoDup m.*1 -> lookup_field k m = lookup_field k m'.
Proof.
  intros Hp Hm. assert (NoDup m'.*1) as Hm' by (by rewrite <- Hp).
  apply option_eq. intros x. rewrite !lookup_field_elem by done. by rewrite Hp.
Qed.

(** The escaped key names the key. *)
Lemma path_key_escape k : literal_key k = true -> path_key (escapeSjsonLiteralKey k) = Some k.
Proof.
  unfold literal_key. rewrite !andb_true_iff. intros (((_ & H1) & H2) & H3).
  induction k as [|c k IH]; [done|]. simpl in H1, H2, H3 |- *. rewrite !andb_true_iff, !negb_true_iff in *.
  destruct H1 as [H1 K1], H2 as [H2 K2], H3 as [H3 K3]. specialize (IH K1 K2 K3).
  destruct (escaped_char c) eqn:E; [simpl; by rewrite IH|]. simpl. rewrite IH.
  destruct c as [[] [] [] [] [] [] [] []]; done.
Qed.

Section legacy.
Context {JT : JsonText} {FM : Formatting} {JL : JsonTextLaws JT} {FL : FormattingLaws FM}.

Definition overlay (new old : list (string * json)) (k : string) : option json :=
  match lookup_field k new with Some x => Some x | None => lookup_field k old end.

Lemma legacy_loop_sets entries t m audit :
  denotes t (JObject m) -> NoDup entries.*1 -> Forall (λ kv, literal_key kv.1 = true ∧ canonical kv.2 = true) entries ->
  ∃ t' m' lines, legacy_loop entries t audit = Ok (t', lines) ∧ denotes t' (JObject m') ∧
    ∀ k, lookup_field k m' = overlay entries m k.
Proof.
  revert t m audit. induction entries as [|[key x] entries IH]; intros t m audit Ht Hd Hf; [by exists t, m, audit|].
  apply NoDup_cons in Hd as [Hk Hd]. apply Forall_cons in Hf as [[Hl Hx] Hf]. simpl in *.
  destruct (Set_key t m _ key x Ht (path_key_escape _ Hl) Hl Hx) as (t1 & -> & Ht1).
  destruct (IH t1 _ (recordOperation "set" key "" "" x audit) Ht1 Hd Hf) as (t' & m' & lines & -> & Ht' & H).
  exists t', m', lines. split_and!; [done..|]. intros k. rewrite H. unfold overlay. simpl. rewrite lookup_put.
  destruct (String.eqb_spec key k) as [->|]; [|done]. by rewrite lookup_field_none.
Qed.

(** The old form of an override, a map without operations, sets exactly its keys at the
    top of the body, keys with dots and wildcards included, and keeps every other key,
    whatever the order in which Go visits the map. *)
Theorem legacy_override_exact t m override context audit :
  denotes t (JObject m) -> NoDup override.*1 -> tryParseOperations override = None ->
  Forall (λ kv, literal_key kv.1 = true ∧ canonical kv.2 = true) override ->
  ∃ t' m' lines, ApplyParamOverride t override context audit = inr (t', context, lines) ∧ denotes t' (JObject m') ∧
    ∀ k, lookup_field k m' = overlay override m k.
Proof.
  intros Ht Hd Hp Hf. pose proof (range_map_perm override) as Hr.
  destruct (legacy_loop_sets (range_map override) t m audit Ht) as (t' & m' & lines & Hl & Ht' & H);
    [by rewrite Hr..|].
  destruct override as [|kv override]; [by exists t, m, audit|].
  exists t', m', lines. unfold ApplyParamOverride. rewrite Hp. unfold applyOperationsLegacy. rewrite Hl.
  split_and!; [done..|]. intros k. rewrite H. unfold overlay.
  by rewrite (lookup_field_perm k (range_map (kv :: override)) (kv :: override)) by (try done; by rewrite Hr).
Qed.

End legacy.

(** ** Wildcards *)

(** The value under one key of an object or at one index of an array. *)
Definition child (v : json) (k : string) (w : json) : Prop :=
  match v with
  | JObject m => lookup_field k m = Some w
  | JArray l => ∃ i : nat, k = pretty (Z.of_nat i) ∧ l !! i = Some w
  | _ => False
  end.
Fixpoint reaches (v : json) (q : list string) (w : json) : Prop :=
  match q with [] => v = w | k :: q => ∃ c, child v k c ∧ reaches c q w end.

(** A segment of a pattern, and the key it matches. *)
Definition pattern_seg (s : string) : bool := String.eqb s "*" || plain_seg s.
Definition fits (s k : string) : Prop := s = "*" ∨ s = k.

(** The paths a pattern stands for: those that exist, and new keys of objects when the
    last segment is not a wildcard. *)
Definition wild_target (v : json) (segs q : list string) : Prop :=
  Forall2 fits segs q ∧
  ((∃ w, reaches v q w) ∨ ∃ q0 k m, q = q0 ++ [k] ∧ last segs = Some k ∧ k ≠ "*" ∧ reaches v q0 (JObject m)).

Lemma wild_nil v q : wild_target v [] q <-> q = [].
Proof.
  split; [by intros [->%Forall2_nil_inv_l _]|]. intros ->. split; [constructor|]. left. by exists v.
Qed.

Lemma last_rest (s : string) rest k : rest ≠ [] -> last (s :: rest) = Some k <-> last rest = Some k.
Proof. destruct rest; [done|]. intros _. by rewrite last_cons_cons. Qed.

Lemma wild_cons v s rest q :
  wild_target v (s :: rest) q <->
  ∃ k q', q = k :: q' ∧ fits s k ∧
    ((∃ c, child v k c ∧ wild_target c rest q') ∨ (rest = [] ∧ q' = [] ∧ s = k ∧ k ≠ "*" ∧ ∃ m, v = JObject m)).
Proof.
  split.
  - intros [(k & q' & Hf & Hr & ->)%Forall2_cons_inv_l H]. exists k, q'. split_and!; [done..|].
    destruct H as [(w & c & Hc & Hw)|(q0 & k' & m & Hq & Hl & Hk & Hm)]; [left; exists c; split; [done|]; split; eauto|].
    destruct q0 as [|k0 q0]; simplify_eq/=.
    + apply Forall2_nil_inv_r in Hr as ->. simplify_eq/=. right. eauto 10.
    + destruct Hm as (c & Hc & Hm). left. exists c. split; [done|]. split; [done|]. right. exists q0, k', m.
      split_and!; try done. destruct rest; [|by rewrite last_cons_cons in Hl].
      by apply Forall2_length in Hr; rewrite length_app in Hr; simpl in Hr; lia.
  - intros (k & q' & -> & Hf & [(c & Hc & Hr & H)|(-> & -> & -> & Hk & m & ->)]).
    + split; [by constructor|]. destruct H as [(w & Hw)|(q0 & k' & m & -> & Hl & Hk & Hm)].
      * left. exists w, c. done.
      * right. exists (k :: q0), k', m. split_and!; [done| |done|by exists c].
        rewrite last_rest; [done|]. by intros ->.
    + split; [by repeat constructor|]. right. by exists [], k, m.
Qed.

(** *** Indices *)

Lemma digits_go x s : all_bytes is_digit s = true -> all_bytes is_digit (pretty_N_go x s) = true.
Proof.
  revert s. induction (N.lt_wf_0 x) as [x _ IH]. intros s Hs. destruct (decide (x = 0)%N) as [->|Hx]; [by rewrite pretty_N_go_0|].
  rewrite pretty_N_go_step by lia. apply IH; [apply N.div_lt; lia|]. simpl. rewrite Hs, andb_true_r.
  unfold pretty_N_char. by repeat case_match.
Qed.

Lemma pretty_digits (i : nat) : all_bytes is_digit (pretty (Z.of_nat i)) = true.
Proof.
  destruct i as [|i]; [done|]. change (pretty (Z.of_nat (S i))) with (pretty (Npos (Pos.of_succ_nat i))).
  unfold pretty, pretty_N. rewrite decide_False by done. by apply digits_go.
Qed.

Lemma decimal_digits acc s n : GoString.decimal acc s = Some n -> all_bytes is_digit s = true.
Proof.
  revert acc. induction s as [|c s IH]; intros acc; [done|]. simpl. intros (d & Hd & H)%bind_Some.
  unfold is_digit. rewrite Hd. simpl. by eapply IH.
Qed.

Lemma element_plain l s w : plain_seg s = true -> element l s = Some w <-> ∃ i : nat, s = pretty (Z.of_nat i) ∧ l !! i = Some w.
Proof.
  intros Hp. pose proof (plain_seg_bytes _ Hp) as (Hb & Hne & Hm).
  assert (all_bytes is_digit s = true -> is_Some (index_of s)) as Hi.
  { intros Hd. unfold plain_seg in Hp. rewrite Hd, !andb_true_iff in Hp. destruct Hp as [_ Hp]. by apply bool_decide_eq_true in Hp. }
  unfold element. split.
  - intros (n & Hn & H)%bind_Some. case_match eqn:Hr; [|done].
    assert (all_bytes is_digit s = true) as Hd.
    { apply bind_Some in Hn as (n' & Hn' & _). destruct s as [|c s]; [done|].
      rewrite HasPrefix_head in Hm. simpl in Hb. apply andb_true_iff in Hb as [Hb _].
      destruct c as [[] [] [] [] [] [] [] []]; try done; first [by eapply decimal_digits|by destruct s]. }
    destruct (Hi Hd) as [i Hi']. unfold index_of in Hi'. rewrite Hn in Hi'. simpl in Hi'. case_match eqn:E; [|done].
    apply andb_true_iff in E as [E1 E2%String.eqb_eq]. exists (Z.to_nat n). split; [|done]. rewrite Z2Nat.id by lia. done.
  - intros (i & -> & Hw). destruct (Hi (pretty_digits i)) as [j Hj]. unfold index_of in Hj.
    apply bind_Some in Hj as (n & Hn & Hj). rewrite Hn. simpl. case_match eqn:E; [|done].
    apply andb_true_iff in E as [E1 E2%String.eqb_eq]. apply (inj pretty) in E2 as ->.
    rewrite Nat2Z.id. apply lookup_lt_Some in Hw as Hlt. by rewrite (proj2 (andb_true_iff _ _)) by lia.
Qed.

(** *** What is collected *)

Lemma elem_of_sort_keys k l : k ∈ sort_keys l <-> k ∈ l.
Proof. unfold sort_keys. by rewrite merge_sort_Permutation. Qed.

Lemma elem_of_flat_map {A} (f : A -> list string) l s : s ∈ flat_map f l <-> ∃ x, x ∈ l ∧ s ∈ f x.
Proof. rewrite list_elem_of_In, in_flat_map. by setoid_rewrite list_elem_of_In. Qed.

Lemma elem_of_keys k (m : list (string * json)) : k ∈ m.*1 <-> ∃ x, lookup_field k m = Some x.
Proof.
  induction m as [|[k0 x] m IH]; simpl; [split; [by intros ?%elem_of_nil|by intros [? ?]]|].
  rewrite elem_of_cons. destruct (String.eqb_spec k0 k) as [->|]; [naive_solver|]. rewrite IH. naive_solver.
Qed.

Lemma elem_of_uniq_from seen l x : x ∈ uniq_from seen l <-> x ∈ l ∧ x ∉ seen.
Proof.
  revert seen. induction l as [|y l IH]; intros seen; simpl; [set_solver|].
  case_bool_decide; [|rewrite elem_of_cons]; rewrite IH; destruct (decide (x = y)); set_solver.
Qed.
Lemma NoDup_uniq_from seen l : NoDup (uniq_from seen l).
Proof.
  revert seen. induction l as [|y l IH]; intros seen; simpl; [constructor|].
  case_bool_decide; [apply IH|]. constructor; [|apply IH]. rewrite elem_of_uniq_from. set_solver.
Qed.
Lemma elem_of_Uniq l x : x ∈ Uniq l <-> x ∈ l.
Proof. unfold Uniq. rewrite elem_of_uniq_from. set_solver. Qed.
Lemma NoDup_Uniq l : NoDup (Uniq l).
Proof. apply NoDup_uniq_from. Qed.

Lemma pattern_trim s : pattern_seg s = true -> TrimSpace s = s ∧ s ≠ "".
Proof.
  unfold pattern_seg. rewrite orb_true_iff. intros [->%String.eqb_eq|H]; [done|].
  apply plain_seg_bytes in H as (Hb & Hne & _). split; [|done]. apply TrimSpace_visible.
  eapply all_bytes_impl; [|exact Hb]. intros c Hc. unfold path_byte. by rewrite Hc.
Qed.

Section wildcards.
Context {JT : JsonText} {FM : Formatting} {JL : JsonTextLaws JT} {FL : FormattingLaws FM}.

#[local] Abbreviation joined prefix q := (GoString.Join (prefix ++ q) ".").

(** The children a segment selects. *)
Lemma star_children v rest prefix s :
  (s ∈ match v with
       | JObject m => flat_map (λ key, collectWildcardPaths (default JNull (lookup_field key m)) rest (prefix ++ [key])) (sort_keys (map fst (range_map m)))
       | JArray l => flat_map (λ '(i, c), collectWildcardPaths c rest (prefix ++ [pretty (Z.of_nat i)])) (imap pair l)
       | _ => []
       end) <-> ∃ k c, child v k c ∧ s ∈ collectWildcardPaths c rest (prefix ++ [k]).
Proof.
  destruct v as [| | | |l|m]; simpl; try (split; [by intros ?%elem_of_nil|by intros (? & ? & [] & _)]).
  - rewrite elem_of_flat_map. split.
    + intros ([i c] & (i' & c' & [= -> ->] & Hi)%elem_of_lookup_imap & Hs). eauto 10.
    + intros (k & c & (i & -> & Hi) & Hs). exists (i, c). split; [|done]. apply elem_of_lookup_imap. eauto.
  - rewrite elem_of_flat_map. setoid_rewrite elem_of_sort_keys. split.
    + intros (k & Hk & Hs). assert (k ∈ m.*1) as Hk' by (by rewrite <- (range_map_perm m)).
      apply elem_of_keys in Hk' as [x Hx]. rewrite Hx in Hs. eauto.
    + intros (k & c & Hc & Hs). exists k. rewrite Hc. split; [|done]. change (k ∈ (range_map m).*1).
      rewrite (range_map_perm m). apply elem_of_keys. eauto.
Qed.

Lemma collect_exact v segs prefix s :
  Forall (λ x, pattern_seg x = true) segs ->
  s ∈ collectWildcardPaths v segs prefix <-> ∃ q, wild_target v segs q ∧ s = joined prefix q.
Proof.
  intros Hf. revert v prefix s. induction Hf as [|seg rest Hseg Hrest IH]; intros v prefix s.
  { simpl. rewrite list_elem_of_singleton. setoid_rewrite wild_nil. rewrite <- (app_nil_r prefix) at 1. naive_solver. }
  destruct (pattern_trim _ Hseg) as [Htrim Hne]. simpl. rewrite Htrim, bool_decide_eq_false_2 by done.
  setoid_rewrite wild_cons.
  assert (∀ k, (∃ c, child v k c ∧ s ∈ collectWildcardPaths c rest (prefix ++ [k])) <->
               ∃ q', (∃ c, child v k c ∧ wild_target c rest q') ∧ s = joined prefix (k :: q')) as Hchild.
  { intros k. setoid_rewrite IH. setoid_rewrite <- (app_assoc prefix [k]). simpl. naive_solver. }
  case_bool_decide as Hstar.
  - subst seg. rewrite star_children. setoid_rewrite Hchild. split.
    + intros (k & q' & Hc & ->). exists (k :: q'). split; [|done]. exists k, q'. split_and!; [done|by left|by left].
    + intros (q & (k & q' & -> & _ & [Hc|(_ & _ & <- & ? & _)]) & ->); [|done]. eauto.
  - assert (plain_seg seg = true) as Hp.
    { unfold pattern_seg in Hseg. apply orb_true_iff in Hseg as [->%String.eqb_eq|]; done. }
    transitivity ((∃ c, child v seg c ∧ s ∈ collectWildcardPaths c rest (prefix ++ [seg])) ∨
                  (rest = [] ∧ s = joined prefix [seg] ∧ ∃ m, v = JObject m)).
    + destruct v as [| | | |l|m]; simpl; try (split; [by intros ?%elem_of_nil|by intros [(? & [] & _)|(_ & _ & ? & [=])]]).
      * setoid_rewrite <- (element_plain l seg _ Hp). destruct (element l seg) as [c|].
        -- assert ((match rest with [] => true | _ => false end) = true -> rest = []) as Hlast by (by destruct rest).
           destruct (match rest with [] => true | _ => false end).
           ++ rewrite (Hlast eq_refl). simpl. split; [by left; exists c|]. by intros [(? & _ & ?)|(_ & _ & ? & [=])].
           ++ split; [by left; exists c|]. by intros [(? & [= <-] & ?)|(_ & _ & ? & [=])].
        -- split; [by intros ?%elem_of_nil|]. by intros [(? & [=] & _)|(_ & _ & ? & [=])].
      * destruct rest as [|s' rest]; simpl.
        -- rewrite list_elem_of_singleton. split; [intros ->; right; eauto|].
           by intros [(? & _ & ->%list_elem_of_singleton)|(_ & -> & _)].
        -- destruct (lookup_field seg m) as [c|].
           ++ split; [by left; exists c|]. by intros [(? & [= <-] & ?)|(? & _)].
           ++ split; [by intros ?%elem_of_nil|]. by intros [(? & [=] & _)|(? & _)].
    + rewrite Hchild. split.
      * intros [(q' & Hc & ->)|(-> & -> & Hm)]; eexists; (split; [|done]); exists seg; eexists; (split; [done|]);
          (split; [by right|]); [by left|by right].
      * intros (q & (k & q' & -> & [->|<-] & H) & ->); [done|]. destruct H as [H|(-> & -> & _ & _ & Hm)]; eauto.
Qed.

(** C32. A path with wildcards, whose other segments are plain, is expanded to exactly the
    paths it stands for, each once: the paths of values the body has that match it
    segment by segment and, when its last segment is a key, the keys that could be added
    to the objects the rest of it matches. *)
Theorem wildcard_paths_exact t v path :
  denotes t v -> Forall (λ s, pattern_seg s = true) (Split path ".") ->
  ∃ paths, expandWildcardPaths t path = Ok paths ∧ NoDup paths ∧
    ∀ s, s ∈ paths <-> ∃ q, wild_target v (Split path ".") q ∧ s = GoString.Join q ".".
Proof.
  intros Ht Hf. unfold expandWildcardPaths. rewrite (denotes_decode _ _ Ht). eexists. split; [done|].
  split; [apply NoDup_Uniq|]. intros s. rewrite elem_of_Uniq. by apply collect_exact.
Qed.

End wildcards.

(** ** Pruning *)

Section json_induction.
Variable P : json -> Prop.
Hypothesis P_null : P JNull.
Hypothesis P_bool : ∀ b, P (JBool b).
Hypothesis P_number : ∀ f, P (JNumber f).
Hypothesis P_string : ∀ s, P (JString s).
Hypothesis P_array : ∀ l, Forall P l -> P (JArray l).
Hypothesis P_object : ∀ m, Forall (λ kv, P kv.2) m -> P (JObject m).

Fixpoint json_nested_ind (v : json) : P v :=
  match v with
  | JNull => P_null
  | JBool b => P_bool b
  | JNumber f => P_number f
  | JString s => P_string s
  | JArray l => P_array l ((fix go l := match l return Forall P l with
                             | [] => Forall_nil_2 P
                             | x :: l => Forall_cons_2 P x l (json_nested_ind x) (go l)
                             end) l)
  | JObject m => P_object m ((fix go m := match m return Forall (λ kv : string * json, P kv.2) m with
                               | [] => Forall_nil_2 _
                               | kv :: m => Forall_cons_2 (λ kv : string * json, P kv.2) kv m (json_nested_ind kv.2) (go m)
                               end) m)
  end.
End json_induction.

(** An object of the type, and what is left when those below the root are gone. *)
Definition has_type (ty : string) (v : json) : bool :=
  match v with
  | JObject m => match lookup_field "type" m with Some (JString s) => String.eqb s ty | _ => false end
  | _ => false
  end.
Fixpoint strip (ty : string) (v : json) : json :=
  match v with
  | JArray l => JArray (omap (λ c, if has_type ty c then None else Some (strip ty c)) l)
  | JObject m => JObject (omap (λ kv, if has_type ty kv.2 then None else Some (kv.1, strip ty kv.2)) m)
  | v => v
  end.

(** No object of the type below the root. *)
Fixpoint clean (ty : string) (v : json) : bool :=
  match v with
  | JArray l => forallb (λ c, negb (has_type ty c) && clean ty c) l
  | JObject m => forallb (λ kv, negb (has_type ty kv.2) && clean ty kv.2) m
  | _ => true
  end.

(** Where [type] is given it is a string or null; comparing others is an error. *)
Fixpoint typed_by_string (v : json) : bool :=
  match v with
  | JArray l => forallb typed_by_string l
  | JObject m =>
      match lookup_field "type" m with None | Some JNull | Some (JString _) => true | _ => false end
      && forallb (λ kv, typed_by_string kv.2) m
  | _ => true
  end.

#[local] Arguments omap : simpl never.
Lemma omap_step {A B} (f : A -> option B) x l : omap f (x :: l) = match f x with Some y => y :: omap f l | None => omap f l end.
Proof. done. Qed.

#[local] Abbreviation keep_entry ty := (λ kv, if has_type ty kv.2 then None else Some (kv.1, strip ty kv.2)).

Lemma lookup_type_strip ty m :
  typed_by_string (JObject m) = true -> lookup_field "type" (omap (keep_entry ty) m) = lookup_field "type" m.
Proof.
  simpl. rewrite andb_true_iff. intros [H _]. induction m as [|[k x] m IH]; [done|]. rewrite omap_step. simpl in *.
  destruct (String.eqb_spec k "type") as [->|Hk]; [by destruct x|].
  destruct (has_type ty x); simpl; [by apply IH|]. rewrite (proj2 (String.eqb_neq k "type")) by done. by apply IH.
Qed.

Lemma strip_has_type ty v : typed_by_string v = true -> has_type ty (strip ty v) = has_type ty v.
Proof.
  destruct v as [| | | | |m]; try done. intros H. change (strip ty (JObject m)) with (JObject (omap (keep_entry ty) m)).
  unfold has_type at 1. by rewrite lookup_type_strip.
Qed.

Lemma typed_children_object m : typed_by_string (JObject m) = true -> Forall (λ kv, typed_by_string kv.2 = true) m.
Proof. simpl. rewrite andb_true_iff, forallb_forall. intros [_ H]. apply Forall_forall. intros x Hx. by apply H, list_elem_of_In. Qed.
Lemma typed_children_array l : typed_by_string (JArray l) = true -> Forall (λ c, typed_by_string c = true) l.
Proof. simpl. rewrite forallb_forall. intros H. apply Forall_forall. intros x Hx. by apply H, list_elem_of_In. Qed.

Lemma strip_clean ty v : typed_by_string v = true -> clean ty (strip ty v) = true.
Proof.
  induction v as [| | | |l IH|m IH] using json_nested_ind; intros Ht; try done; simpl.
  - apply typed_children_array in Ht. induction IH as [|c l Hc _ IHl]; [done|].
    apply Forall_cons in Ht as [Htc Ht]. rewrite omap_step. simpl. destruct (has_type ty c) eqn:E; [by apply IHl|]. simpl.
    by rewrite strip_has_type, E, Hc, IHl.
  - apply typed_children_object in Ht. induction IH as [|[k c] m Hc _ IHm]; [done|].
    apply Forall_cons in Ht as [Htc Ht]. rewrite omap_step. simpl in *. destruct (has_type ty c) eqn:E; [by apply IHm|]. simpl.
    by rewrite strip_has_type, E, Hc, IHm.
Qed.

Lemma strip_of_clean ty v : clean ty v = true -> strip ty v = v.
Proof.
  induction v as [| | | |l IH|m IH] using json_nested_ind; intros Hv; try done; simpl in *; f_equal.
  - induction IH as [|c l Hc _ IHl]; [done|]. rewrite omap_step. simpl in *. rewrite !andb_true_iff, negb_true_iff in Hv.
    destruct Hv as [[-> Hcl] Hv]. by rewrite Hc, IHl.
  - induction IH as [|[k c] m Hc _ IHm]; [done|]. rewrite omap_step. simpl in *. rewrite !andb_true_iff, negb_true_iff in Hv.
    destruct Hv as [[-> Hcl] Hv]. by rewrite Hc, IHm.
Qed.

(** *** Values stay canonical *)

Lemma ordered_cons k x m : keys_ordered ((k, x) :: m) = true <-> keys_ordered m = true ∧ Forall (λ kv, k <s kv.1) m.
Proof.
  revert k x. induction m as [|[k1 x1] m IH]; intros k x; [simpl; by split; [repeat constructor|]|].
  change (keys_ordered ((k, x) :: (k1, x1) :: m)) with ((match String.compare k k1 with Lt => true | _ => false end) && keys_ordered ((k1, x1) :: m)).
  rewrite andb_true_iff, Forall_cons. simpl fst. split.
  - intros [H1 H2]. destruct (String.compare k k1) eqn:E; try done. split_and!; [done..|].
    apply IH in H2 as [_ H2]. eapply Forall_impl; [exact H2|]. intros kv Hkv. by eapply compare_lt_trans.
  - intros (H1 & H2 & _). by rewrite H2.
Qed.

Lemma canonical_strip ty v : canonical v = true -> canonical (strip ty v) = true.
Proof.
  induction v as [| | | |l IH|m IH] using json_nested_ind; intros Hv; try done; simpl in *.
  - induction IH as [|c l Hc _ IHl]; [done|]. rewrite omap_step. simpl in *. apply andb_true_iff in Hv as [Hcc Hv].
    destruct (has_type ty c); [by apply IHl|]. simpl. by rewrite Hc, IHl.
  - apply andb_true_iff in Hv as [Ho Hv]. apply andb_true_iff.
    enough (keys_ordered (omap (keep_entry ty) m) = true ∧ forallb (λ kv, valid_text kv.1 && canonical kv.2) (omap (keep_entry ty) m) = true
            ∧ ∀ k, Forall (λ kv, k <s kv.1) m -> Forall (λ kv, k <s kv.1) (omap (keep_entry ty) m)) by tauto.
    induction IH as [|[k c] m Hc _ IHm]; [done|]. apply ordered_cons in Ho as [Ho Hlt]. simpl in Hv.
    rewrite !andb_true_iff in Hv. destruct Hv as [[Hk Hcc] Hv]. destruct (IHm Ho Hv) as (H1 & H2 & H3). rewrite omap_step. simpl in Hc, Hk, Hcc |- *.
    destruct (has_type ty c).
    + split_and!; [done..|]. intros k' [_ Hk']%Forall_cons. by apply H3.
    + split_and!; [by apply ordered_cons; auto|simpl; by rewrite Hk, Hc, H2|].
      intros k' [Hkk Hk']%Forall_cons. constructor; [done|by apply H3].
Qed.

Lemma typed_get v p w : typed_by_string v = true -> json_get v p = Some w -> typed_by_string w = true.
Proof.
  revert v. induction p as [|k p IH]; intros v Hv; simpl; [congruence|]. destruct v as [| | | |l|m]; try done.
  - intros (i & _ & (x & Hx & Hg)%bind_Some)%bind_Some. eapply IH; [|exact Hg].
    apply typed_children_array in Hv. exact (Forall_lookup_1 _ _ _ _ Hv Hx).
  - intros (x & Hx & Hg)%bind_Some. eapply IH; [|exact Hg]. apply typed_children_object in Hv. clear Hg.
    induction Hv as [|[k0 y] m Hy _ IHm]; [done|]. simpl in Hx. destruct (String.eqb k0 k); [by simplify_eq|auto].
Qed.

Section prune.
Context {JT : JsonText} {FM : Formatting} {JL : JsonTextLaws JT}.
Context (ty : string) (j : option Text) (c : json).
Hypothesis Hj : context_denotes j c.
Hypothesis Hctx : json_get c ["type"] = None.
Hypothesis Hty : valid_text ty = true.

#[local] Abbreviation options := (mkPruneOptions [type_condition (JString ty)] "AND" true).

Lemma should_prune m :
  canonical (JObject m) = true -> typed_by_string (JObject m) = true ->
  shouldPruneObject j options m = Ok (has_type ty (JObject m)).
Proof.
  intros Hm Ht. unfold shouldPruneObject. destruct (Marshal_denotes _ Hm) as (t & -> & Hd).
  eapply conditions_sim; [exact Hd|exact Hj|]. simpl in Ht. apply andb_true_iff in Ht as [Ht _].
  assert (ref_condition (JObject m) c (type_condition (JString ty)) = Some (has_type ty (JObject m))) as E.
  { unfold ref_condition. change (path_of (cond_Path (type_condition (JString ty)))) with (Some ["type"]).
    cbn [mbind option_bind]. rewrite Hctx. simpl. destruct (lookup_field "type" m) as [[| | |s| |]|]; try done; simpl; by rewrite Hty. }
  unfold ref_conditions. cbn [mapM prune_conditions]. rewrite E. simpl. by rewrite andb_true_r.
Qed.

Lemma prune_node v root :
  canonical v = true -> typed_by_string v = true ->
  pruneObjectsNode (shouldPruneObject j options) true v root
  = Ok (if has_type ty v && negb root then None else Some (strip ty v)).
Proof.
  revert root. induction v as [| | | |l IH|m IH] using json_nested_ind; intros root Hv Ht; try done.
  - simpl. apply typed_children_array in Ht. simpl in Hv.
    induction IH as [|x l Hx _ IHl]; [done|]. simpl in Hv. apply andb_true_iff in Hv as [Hxc Hv].
    apply Forall_cons in Ht as [Hxt Ht]. specialize (IHl Hv Ht). rewrite (Hx false Hxc Hxt), omap_step, andb_true_r.
    case_match; case_match; simplify_eq; by case_match.
  - cbn [pruneObjectsNode]. rewrite should_prune by done. destruct (has_type ty (JObject m) && negb root); [done|]. cbn [negb strip].
    apply typed_children_object in Ht. simpl in Hv. apply andb_true_iff in Hv as [_ Hv].
    induction IH as [|[k x] m Hx _ IHm]; [done|]. simpl in Hv. rewrite !andb_true_iff in Hv. destruct Hv as [[_ Hxc] Hv].
    apply Forall_cons in Ht as [Hxt Ht]. specialize (IHm Hv Ht). simpl in Hx, Hxt. rewrite (Hx false Hxc Hxt), omap_step, andb_true_r.
    simpl. case_match; [|done]. simplify_eq. by destruct (has_type ty x).
Qed.

Lemma prune_root_strip v :
  canonical v = true -> typed_by_string v = true ->
  prune_root j options v = Ok (strip ty v) ∧ canonical (strip ty v) = true.
Proof.
  intros Hv Ht. unfold prune_root. cbn [prune_recursive]. rewrite prune_node by done. rewrite andb_false_r.
  split; [done|]. by apply canonical_strip.
Qed.

Lemma decoded_target r w : shows denotes r w -> 
  (match gtype (r_Value r) with GJSON => Unmarshal (r_Raw r) | _ => Ok (r_Value r) end) = Ok w.
Proof. intros (-> & _ & Hr). rewrite (denotes_decode _ _ Hr). destruct w as [|[]| | | |]; done. Qed.

End prune.

(** C33. [prune_objects] with the name of a type removes from the body, or from the value at
    a plain path, exactly the objects of that type below the root of what it is given:
    none is left, everything else is kept in its order, and a body without such objects is
    unchanged.  The types must be strings or null, and the context must not name one. *)
Theorem prune_by_type_exact {JT : JsonText} {FM : Formatting} {JL : JsonTextLaws JT} t v ty j c :
  denotes t v -> context_denotes j c -> json_get c ["type"] = None ->
  valid_text ty = true -> TrimSpace ty = ty -> ty ≠ "" -> typed_by_string v = true ->
  (∃ t', pruneObjects t "" j (JString ty) = Ok t' ∧ denotes t' (strip ty v)) ∧
  (∀ p w v', plain_path p = true -> json_get v p = Some w -> json_set v p (strip ty w) = Some v' ->
     ∃ t', pruneObjects t (GoString.Join p ".") j (JString ty) = Ok t' ∧ denotes t' v') ∧
  clean ty (strip ty v) = true ∧ (clean ty v = true -> strip ty v = v).
Proof.
  intros Ht Hj Hc Hty Htrim Hne Hv. pose proof (denotes_canonical _ _ Ht) as Hcan.
  assert (parsePruneObjectsOptions (JString ty) = Ok (mkPruneOptions [type_condition (JString ty)] "AND" true)) as Hopt
    by (simpl; by rewrite Htrim, bool_decide_eq_false_2).
  split_and!; [| |by apply strip_clean|by apply strip_of_clean].
  - unfold pruneObjects. rewrite Hopt, bool_decide_eq_true_2, (denotes_decode _ _ Ht) by done.
    destruct (prune_root_strip ty j c Hj Hc Hty v Hcan Hv) as [-> Hs]. by apply Marshal_denotes.
  - intros p w v' Hp Hw Hset. unfold pruneObjects. rewrite Hopt, bool_decide_eq_false_2 by (by apply join_nonempty).
    destruct (get_some _ _ _ _ Ht Hp Hw) as (r & -> & Hr). rewrite (decoded_target _ _ Hr).
    destruct (prune_root_strip ty j c Hj Hc Hty w) as [-> Hs]; [by eapply json_get_canonical|by eapply typed_get|].
    destruct (Marshal_denotes _ Hs) as (raw & -> & Hraw). by eapply SetRaw_path.
Qed.

(** ** Header lists *)

Section header_lists.
Context {JT : JsonText} {FM : Formatting}.

(** The tokens of the header as the rules see it: the override's value, else the client's. *)
Definition current_tokens (context : Context) (name : string) : list string :=
  match (getHeaderValueFromContext context name).1 with Some v => splitHeaderListValue v | None => [] end.

(** The token is one of those a key of the mapping gives. *)
Definition gives (mapping : list (string * json)) (k x : string) : Prop :=
  ∃ raw l, lookup_field k mapping = Some raw ∧ parseHeaderReplacementTokens raw = Ok l ∧ x ∈ l.

Lemma replace_declared mapping tokens l x :
  replace_tokens mapping true tokens = Ok l -> x ∈ l -> ∃ token, token ∈ tokens ∧ gives mapping token x.
Proof.
  revert l. induction tokens as [|token tokens IH]; intros l; simpl; [intros [= <-]; by intros ?%elem_of_nil|].
  destruct (replacement mapping true token) as [a|] eqn:Ea; [|done]. destruct (replace_tokens _ _ _) as [b|]; [|done].
  intros [= <-] [Hx|Hx]%elem_of_app.
  - exists token. split; [left|]. unfold replacement in Ea. destruct (lookup_field token mapping) as [raw|] eqn:El.
    + by exists raw, a.
    + by destruct (lookup_field "*" mapping); simplify_eq; apply elem_of_nil in Hx.
  - destruct (IH b eq_refl Hx) as (token' & ? & ?). exists token'. split; [by right|done].
Qed.

Lemma ensure_put context m key :
  (ensureMapKeyInContext (put_field key (JObject m) context) key).1 = m.
Proof. unfold ensureMapKeyInContext. by rewrite lookup_put, String.eqb_refl. Qed.

Lemma ensure_again context key :
  ensureMapKeyInContext (ensureMapKeyInContext context key).2 key
  = ((ensureMapKeyInContext context key).1, (ensureMapKeyInContext context key).2).
Proof.
  unfold ensureMapKeyInContext at 2 3 4. destruct (lookup_field key context) as [[]|] eqn:E;
    unfold ensureMapKeyInContext; simpl; by rewrite ?E, ?lookup_put, ?String.eqb_refl.
Qed.

(** The header names as [ensureMapKeyInContext] leaves them change nothing for a reader. *)
Lemma tokens_ensured context name :
  current_tokens (ensureMapKeyInContext context paramOverrideContextHeaderOverride).2 name = current_tokens context name.
Proof.
  unfold current_tokens, getHeaderValueFromContext. case_bool_decide; [done|].
  destruct (ensureMapKeyInContext context paramOverrideContextHeaderOverride) as [m ctx] eqn:E. simpl.
  pose proof (ensure_again context paramOverrideContextHeaderOverride) as Ha. rewrite E in Ha. simpl in Ha. rewrite Ha.
  done.
Qed.

(** C21. When a [set_header] rule whose mapping asks to keep only declared tokens succeeds,
    then either the rule keeps the original ([keep_origin]), the header was overridden
    with some text already and the overrides are as they were, or the header is afterwards
    not overridden, or it is overridden with a list, without repetition and separated by
    commas, of tokens that [$append] gives or that the mapping gives for a token the
    header had. *)
Theorem header_whitelist context header mapping keepOrigin context' :
  parseHeaderKeepOnlyDeclared mapping = true ->
  setHeaderOverrideInContext context header (JObject mapping) keepOrigin = Ok context' ->
  let name := normalizeHeaderContextKey header in
  let before := (ensureMapKeyInContext context paramOverrideContextHeaderOverride).1 in
  let headers := (ensureMapKeyInContext context' paramOverrideContextHeaderOverride).1 in
  (keepOrigin = true ∧ is_Some (header_in before name) ∧ headers = before) ∨
  lookup_field name headers = None ∨
  ∃ tokens, lookup_field name headers = Some (JString (GoString.Join tokens ",")) ∧ tokens ≠ [] ∧ NoDup tokens ∧
    ∀ x, x ∈ tokens -> gives mapping "$append" x ∨ ∃ token, token ∈ current_tokens context name ∧ gives mapping token x.
Proof.
  intros Hkeep H. unfold setHeaderOverrideInContext in H. case_bool_decide as Hname; [done|].
  pose proof (tokens_ensured context (normalizeHeaderContextKey header)) as Htok.
  pose proof (ensure_again context paramOverrideContextHeaderOverride) as Hag.
  destruct (ensureMapKeyInContext context paramOverrideContextHeaderOverride) as [raw ctx] eqn:E.
  simpl in Htok, Hag, H. destruct (keepOrigin && _) eqn:Ek.
  { simplify_eq. apply andb_true_iff in Ek as [-> Ek%bool_decide_eq_true]. left. by rewrite Hag. }
  right. clear Hag Ek.
  unfold resolveHeaderOverrideValueByMapping in H. destruct mapping as [|kv mapping]; [done|].
  set (mp := kv :: mapping) in *. destruct (parseHeaderAppendTokens mp) as [app|] eqn:Ha; [|done].
  rewrite Hkeep in H. unfold current_tokens in Htok.
  destruct (getHeaderValueFromContext ctx (normalizeHeaderContextKey header)) as [src ctx1]. simpl in Htok.
  rewrite Htok in H. destruct (replace_tokens mp true _) as [l|] eqn:Hl; [|done].
  destruct (Uniq (l ++ app)) as [|y ys] eqn:Hu; simplify_eq; cbn zeta; unfold put_header_override; rewrite ensure_put.
  - left. by rewrite lookup_del, String.eqb_refl.
  - right. exists (y :: ys). rewrite lookup_put, String.eqb_refl. split_and!; [done..|rewrite <- Hu; apply NoDup_Uniq|].
    intros x Hx. rewrite <- Hu, elem_of_Uniq in Hx. apply elem_of_app in Hx as [Hx|Hx].
    + right. by eapply replace_declared.
    + left. unfold parseHeaderAppendTokens in Ha. destruct (lookup_field "$append" mp) as [raw'|] eqn:Er; simplify_eq.
      * by exists raw', app.
      * by apply elem_of_nil in Hx.
Qed.

End header_lists.

(** ** The fuel of [pass_headers] *)

Lemma filter_drop_le (p : Z -> bool) n l : (length (List.filter p (drop n l)) <= length (List.filter p l))%nat.
Proof. rewrite <- (take_drop n l) at 2. rewrite List.filter_app, length_app. lia. Qed.

Lemma filter_strip_le p fuel seqs l : (length (List.filter p (strip_all fuel seqs l)) <= length (List.filter p l))%nat.
Proof.
  revert l. induction fuel as [|fuel IH]; intros l; simpl; [done|]. destruct (strip_one seqs l) as [l'|] eqn:E; [|done].
  etrans; [apply IH|]. clear IH. induction seqs as [|q qs IHq]; simpl in E; [done|]. case_decide; [|auto].
  simplify_eq. apply filter_drop_le.
Qed.

Lemma ascii_len_TrimSpace s : (ascii_len (TrimSpace s) <= ascii_len s)%nat.
Proof.
  unfold ascii_len, TrimSpace. set (l := bytes_of s). set (l1 := strip_all _ _ l).
  assert (Forall (λ z, 0 <= z < 256) l1) as Hl1 by apply strip_all_forall, bytes_small.
  rewrite bytes_string_small by (by apply Forall_rev, strip_all_forall, Forall_rev).
  rewrite List.filter_rev, length_rev. etrans; [apply filter_strip_le|]. rewrite List.filter_rev, length_rev. apply filter_strip_le.
Qed.

Lemma field_size k x m : lookup_field k m = Some x -> (json_size x < json_size (JObject m))%nat.
Proof.
  induction m as [|[k0 y] m IH]; [done|]. simpl in *. destruct (String.eqb k0 k); [intros [= <-]; lia|].
  intros H. specialize (IH H). lia.
Qed.

(** The size of the value is enough fuel: more of it never changes the names. *)
Lemma passthrough_fuel {JT : JsonText} {FM : Formatting} {JL : JsonTextLaws JT} n v :
  (json_size v <= n)%nat -> parseHeaderPassThroughNames n v = parseHeaderPassThroughNames (json_size v) v.
Proof.
  enough (∀ n m, (json_size v <= n)%nat -> (json_size v <= m)%nat ->
            parseHeaderPassThroughNames n v = parseHeaderPassThroughNames m v) by auto.
  clear n. remember (json_size v) as k eqn:Hk. revert v Hk. induction (lt_wf k) as [k _ IH]. intros v -> n m Hn Hm.
  assert (0 < json_size v)%nat by (destruct v; simpl; lia). destruct n as [|n]; [lia|]. destruct m as [|m]; [lia|]. destruct v as [| | |s|l|fields]; try done; simpl.
  - repeat case_match; try done. simpl in *. pose proof (ascii_len_TrimSpace s).
    match goal with E : UnmarshalJsonStr _ = Ok ?p |- _ => pose proof (UnmarshalJsonStr_size _ _ E); apply (IH (json_size p)); simpl; lia end.
  - assert (∀ key, match lookup_field key fields with
                   | None => []
                   | Some v => match parseHeaderPassThroughNames n v with Ok l => l | Err _ => [] end
                   end = match lookup_field key fields with
                         | None => []
                         | Some v => match parseHeaderPassThroughNames m v with Ok l => l | Err _ => [] end
                         end) as E.
    { intros key. destruct (lookup_field key fields) as [x|] eqn:Ex; [|done]. pose proof (field_size _ _ _ Ex).
      rewrite (IH (json_size x) ltac:(lia) x eq_refl n m); [done|lia..]. }
    by rewrite !E.
Qed.
