(* ===== verification/HybridCache.v ===== *)
(** * HybridCache: a cache in Redis or, without it, in memory

    Models [pkg/cachex]: namespaces of keys, value codecs and the cache on top of Redis
    or of the [hot] library.  Redis is its table of strings with their expiry times; a
    command is a statement of [Effects], which may fail.  What [SCAN] answers, the
    patterns it takes and the in-memory cache are interfaces.  Times are nanoseconds. *)

From Stdlib Require Import Ascii.
From S2P Require Export GoString.
From S2P Require Export Effects.
From S2P Require Import Prelude.

(** ** Namespaces ([namespace.go]) *)

Definition ns_prefix (n : string) : string :=
  let ns := TrimRight (TrimSpace n) ":"%char in
  if bool_decide (ns = "") then "" else ns +:+ ":".

Definition FullKey (n key : string) : string :=
  let key := TrimSpace key in
  if bool_decide (key = "") then ""
  else
    let p := ns_prefix n in
    if bool_decide (p = "") then TrimLeft key ":"%char
    else if HasPrefix key p then key
    else p +:+ TrimLeft key ":"%char.

Definition MatchPattern (n : string) : string := ns_prefix n +:+ "*".

(** ** Codecs ([codec.go]) *)

Class ValueCodec (V : Type) := { Encode : V -> result string; Decode : string -> result V }.

Definition Itoa (z : Z) : string := pretty z.
#[export] Instance IntCodec : ValueCodec Z := {|
  Encode v := Ok (Itoa v);
  Decode s :=
    let s := TrimSpace s in
    if bool_decide (s = "") then Err (EText "empty int value")
    else match Atoi s with Some v => Ok v | None => Err (EText ("strconv.Atoi: parsing " +:+ s)) end;
|}.

(** ** The libraries *)

(** [hot.HotCache[string, V]] at a time; without a loader [Get] has no error. *)
Class HotCache (V : Type) := {
  Hot : Type;
  hot_Get : Z -> string -> Hot -> option V * Hot;
  hot_SetWithTTL : Z -> string -> V -> Z -> Hot -> Hot;
  hot_Keys : Z -> Hot -> list string;
  hot_DeleteMany : Z -> list string -> Hot -> gmap string bool * Hot;
  hot_Purge : Hot -> Hot;
  hot_Capacity : Z;
  hot_Algorithm : string;
}.
Arguments Hot V {_}.

(** The answers of [SCAN] with [MATCH pattern], one list per call until the cursor is
    back at 0, on the keys there are. *)
Class RedisScan := {
  scan_batches : string -> list string -> list (list string);
}.

(** ** The state *)

Record HybridState (V : Type) `{HotCache V} : Type := mkHybrid {
  hc_redis : gmap string (string * option Z);
  hc_mem : Hot V;
  hc_now : Z;
  hc_faults : list (option string);
}.
Arguments mkHybrid {V _}.
Arguments hc_redis {V _}.
Arguments hc_mem {V _}.
Arguments hc_now {V _}.
Arguments hc_faults {V _}.

Section cache.
Context {V : Type} `{HotCache V} `{ValueCodec V} `{RedisScan}.

Definition set_redis (r : gmap string (string * option Z)) (s : HybridState V) : HybridState V :=
  mkHybrid r (hc_mem s) (hc_now s) (hc_faults s).
Definition set_mem (m : Hot V) (s : HybridState V) : HybridState V :=
  mkHybrid (hc_redis s) m (hc_now s) (hc_faults s).

(** Nothing here runs in a transaction. *)
#[export] Instance hybrid_store : Store (HybridState V) := {|
  st_faults := hc_faults;
  st_set_faults v s := mkHybrid (hc_redis s) (hc_mem s) (hc_now s) v;
  st_rollback _ after := after;
|}.
#[export] Instance hybrid_store_laws : StoreLaws (HybridState V).
Proof. split. by intros []. Qed.

(** ** Redis commands *)

Definition expired_at (now : Z) (deadline : option Z) : bool :=
  match deadline with Some e => e <=? now | None => false end.

(** [GET] *)
Definition redis_live (now : Z) (r : gmap string (string * option Z)) (key : string) : option string :=
  match r !! key with
  | Some (raw, deadline) => if expired_at now deadline then None else Some raw
  | None => None
  end.

Definition redis_keys (now : Z) (r : gmap string (string * option Z)) : list string :=
  (map_to_list (filter (λ kv, expired_at now kv.2.2 = false) r)).*1.

(** [SET] with an expiration; without one the key stays. *)
Definition redis_set (now : Z) (key raw : string) (ttl : Z) (r : gmap string (string * option Z)) :=
  <[key := (raw, if 0 <? ttl then Some (now + ttl) else None)]> r.

(** [UNLINK] of one key: whether there was one. *)
Definition unlink (key : string) : M (HybridState V) bool :=
  exec (λ s, (Ok (bool_decide (is_Some (redis_live (hc_now s) (hc_redis s) key))),
              set_redis (delete key (hc_redis s)) s)).

(** [Exec] of a pipeline of [UNLINK]: the server takes the commands one by one, and one
    that fails does not stop the others; the first error is the answer.  Reading the
    replies may fail too, when the commands have been carried out. *)
Fixpoint unlink_each (keys : list string) (err : option error) (res : gmap string bool)
    : M (HybridState V) (option error * gmap string bool) :=
  match keys with
  | [] => ret (err, res)
  | key :: keys =>
      let! r := attempt (unlink key) in
      match r with
      | Ok found => unlink_each keys err (<[key := found]> res)
      | Err e => unlink_each keys (match err with Some _ => err | None => Some e end) res
      end
  end.
Definition pipeline_unlink (keys : list string) : M (HybridState V) (gmap string bool) :=
  let! (err, res) := unlink_each keys None ∅ in
  do! select (λ _, tt) in
  match err with Some e => fail e | None => ret res end.

(** ** The cache ([hybrid_cache.go]) *)

(** The namespace and [redisOn()]. *)
Record HybridCache : Type := mkHybridCache { ns : string; redisOn : bool }.

Definition Get (c : HybridCache) (key : string) : M (HybridState V) (option V) :=
  let full := FullKey (ns c) key in
  if bool_decide (full = "") then ret None
  else if redisOn c then
    let! raw := select (λ s, redis_live (hc_now s) (hc_redis s) full) in
    match raw with
    | Some raw => let! v := lift_result (Decode raw) in ret (Some v)
    | None => ret None
    end
  else λ s, let '(v, m) := hot_Get (hc_now s) full (hc_mem s) in (Ok v, set_mem m s).

Definition SetWithTTL (c : HybridCache) (key : string) (v : V) (ttl : Z) : M (HybridState V) unit :=
  let full := FullKey (ns c) key in
  if bool_decide (full = "") then ret tt
  else if redisOn c then
    let! raw := lift_result (Encode v) in
    update (λ s, set_redis (redis_set (hc_now s) full raw ttl (hc_redis s)) s)
  else modify (λ s, set_mem (hot_SetWithTTL (hc_now s) full v ttl (hc_mem s)) s).

(** One command per batch. *)
Fixpoint scan_loop (batches : list (list string)) : M (HybridState V) (list string) :=
  match batches with
  | [] => ret []
  | k :: batches => let! k := select (λ _, k) in let! rest := scan_loop batches in ret (k ++ rest)
  end.
Definition scanKeys (pattern : string) : M (HybridState V) (list string) :=
  let! keys := gets (λ s, redis_keys (hc_now s) (hc_redis s)) in
  scan_loop (scan_batches pattern keys).

Definition Keys (c : HybridCache) : M (HybridState V) (list string) :=
  if redisOn c then scanKeys (MatchPattern (ns c)) else gets (λ s, hot_Keys (hc_now s) (hc_mem s)).

Definition full_keys (c : HybridCache) (keys : list string) : list string :=
  List.filter (λ k, negb (String.eqb k "")) (map (FullKey (ns c)) keys).

Definition DeleteMany (c : HybridCache) (keys : list string) : M (HybridState V) (gmap string bool) :=
  match full_keys c keys with
  | [] => ret ∅
  | full =>
      if redisOn c then pipeline_unlink full
      else λ s, let '(res, m) := hot_DeleteMany (hc_now s) full (hc_mem s) in (Ok res, set_mem m s)
  end.

Definition Purge (c : HybridCache) : M (HybridState V) unit :=
  if redisOn c then
    let! keys := scanKeys (MatchPattern (ns c)) in
    match keys with [] => ret tt | _ => do! DeleteMany c keys in ret tt end
  else modify (λ s, set_mem (hot_Purge (hc_mem s)) s).

Definition count_true (res : gmap string bool) : Z := Z.of_nat (length (List.filter snd (map_to_list res))).

Definition full_prefix (c : HybridCache) (prefix : string) : string :=
  let p := FullKey (ns c) prefix in if HasSuffix p ":" then p else p +:+ ":".

Definition DeleteByPrefix (c : HybridCache) (prefix : string) : M (HybridState V) Z :=
  if bool_decide (FullKey (ns c) prefix = "") then ret 0
  else
    let fullPrefix := full_prefix c prefix in
    let! keys :=
      (if redisOn c then scanKeys (fullPrefix +:+ "*")
       else let! all := gets (λ s, hot_Keys (hc_now s) (hc_mem s)) in
            ret (List.filter (λ k, HasPrefix k fullPrefix) all)) in
    match keys with
    | [] => ret 0
    | _ => let! res := DeleteMany c keys in ret (count_true res)
    end.

Definition Capacity (c : HybridCache) : Z := if redisOn c then 0 else hot_Capacity.
Definition Algorithm (c : HybridCache) : string := if redisOn c then "redis" else hot_Algorithm.

End cache.
