(* ===== verification/HybridProps.v ===== *)
(** * HybridProps: the hybrid cache implements a table with expiry times

    The laws of the libraries, and that under any sequence of calls, with any commands
    failing and any time passing, a hit is the last value written to the key that has
    neither expired nor been deleted; with Redis a miss is as exact. *)

From Stdlib Require Import Ascii.
From S2P Require Export HybridCache.
From S2P Require Import Prelude.

(** ** Full keys *)

Lemma TrimLeft_suffix s c : ∃ a, s = a +:+ TrimLeft s c.
Proof.
  induction s as [|x s [a IH]]; [by exists ""|]. simpl. destruct (Ascii.eqb x c); [|by exists ""].
  exists (String x a). rewrite string_cons_app. by rewrite <- IH.
Qed.

Lemma HasPrefix_app p s : HasPrefix (p +:+ s) p = true.
Proof. apply prefix_app. Qed.

(** A namespace whose first byte is visible ASCII. *)
Definition proper_ns (n : string) : bool :=
  match ns_prefix n with String c _ => (33 <=? Z.of_N (N_of_ascii c)) && (Z.of_N (N_of_ascii c) <? 128) | EmptyString => false end.

Lemma ns_prefix_colon n : ns_prefix n ≠ "" -> ∃ a, ns_prefix n = a +:+ ":".
Proof. unfold ns_prefix. case_bool_decide; [done|]. eauto. Qed.

Lemma space_seqs_no_colon : Forall (λ q, 58 ∉ q) (map (@rev Z) space_seqs).
Proof. repeat constructor; apply (bool_decide_unpack _); vm_compute; exact I. Qed.

(** A colon in front of a text never makes its end a space. *)
Lemma strip_after_colon seqs u a :
  Forall (λ q, 58 ∉ q) seqs -> strip_one seqs u = None -> strip_one seqs (u ++ 58 :: a) = None.
Proof.
  intros Hc. rewrite !strip_one_none. intros H. rewrite Forall_forall in *. intros q Hq Ht.
  destruct (decide (length q <= length u)%nat) as [Hle|Hgt].
  - rewrite take_app_le in Ht by done. by apply (H q Hq).
  - apply (Hc q Hq). rewrite <- Ht. rewrite take_app_ge by lia.
    apply elem_of_app. right. destruct (length q - length u)%nat eqn:E; [lia|]. left.
Qed.

Lemma rev_suffix_trimmed (a b : list Z) seqs : strip_one seqs (rev (a ++ b)) = None -> strip_one seqs (rev b) = None.
Proof. rewrite rev_app_distr. apply strip_one_prefix. Qed.

Lemma full_key_cases n key : ns_prefix n ≠ "" -> FullKey n key ≠ "" ->
  FullKey n key = TrimSpace key ∧ HasPrefix (TrimSpace key) (ns_prefix n) = true ∨
  FullKey n key = ns_prefix n +:+ TrimLeft (TrimSpace key) ":"%char.
Proof.
  intros Hn Hk. unfold FullKey in *. case_bool_decide; [done|]. rewrite (bool_decide_eq_false_2 _ Hn) in *.
  destruct (HasPrefix (TrimSpace key) (ns_prefix n)); auto.
Qed.

Lemma full_key_prefixed n key : ns_prefix n ≠ "" -> FullKey n key ≠ "" -> HasPrefix (FullKey n key) (ns_prefix n) = true.
Proof. intros Hn Hk. destruct (full_key_cases n key Hn Hk) as [[-> H]| ->]; [done|]. apply HasPrefix_app. Qed.

Lemma proper_ns_nonempty n : proper_ns n = true -> ns_prefix n ≠ "".
Proof. unfold proper_ns. by destruct (ns_prefix n). Qed.

(** A full key is its own full key: the functions that delete take both. *)
Lemma full_key_idem n key : proper_ns n = true -> FullKey n (FullKey n key) = FullKey n key.
Proof.
  intros Hp. pose proof (proper_ns_nonempty _ Hp) as Hn.
  destruct (decide (FullKey n key = "")) as [->|Hk]; [done|].
  pose proof (full_key_prefixed n key Hn Hk) as Hpre.
  assert (TrimSpace (FullKey n key) = FullKey n key) as Ht.
  { destruct (full_key_cases n key Hn Hk) as [[-> _]| ->]; [apply TrimSpace_idem|].
    destruct (ns_prefix_colon n Hn) as [a Ha]. destruct (TrimLeft_suffix (TrimSpace key) ":") as [b Hb].
    apply trimmed_TrimSpace. destruct (TrimSpace_trimmed key) as [_ H2]. rewrite Hb, bytes_app in H2.
    apply rev_suffix_trimmed in H2. split.
    - unfold proper_ns in Hp. destruct (ns_prefix n) as [|c p] eqn:En; [done|]. rewrite string_cons_app.
      change (bytes_of (String c (p +:+ TrimLeft (TrimSpace key) ":"))) with (Z.of_N (N_of_ascii c) :: bytes_of (p +:+ TrimLeft (TrimSpace key) ":")).
      apply strip_one_ascii; [lia|]. unfold space_seqs.
      repeat (apply Forall_cons; split; [eexists _, _; split; [done|lia]|]). by apply Forall_nil.
    - rewrite Ha, !bytes_app, rev_app_distr, rev_app_distr. change (rev (bytes_of ":")) with [58]. 
      apply strip_after_colon; [apply space_seqs_no_colon|done]. }
  unfold FullKey at 1. rewrite Ht, bool_decide_eq_false_2, bool_decide_eq_false_2, Hpre by done. done.
Qed.

(** ** The libraries *)

Class CodecLaws (V : Type) `{ValueCodec V} := {
  encodable : V -> Prop;
  Encode_Decode : ∀ v, encodable v -> ∃ raw, Encode v = Ok raw ∧ Decode raw = Ok v;
}.

(** *** Integers *)

Lemma digit_char x : ascii_digit (pretty_N_char (x mod 10)) = Some (Z.of_N (x mod 10)).
Proof.
  assert (x mod 10 < 10)%N as H by (by apply N.mod_lt). revert H. generalize (x mod 10)%N. intros [|p] Hd; [done|].
  do 4 (destruct p as [p|p|]; try done); lia.
Qed.

Lemma decimal_go x s : GoString.decimal 0 (pretty_N_go x s) = GoString.decimal (Z.of_N x) s.
Proof.
  revert s. induction (N.lt_wf_0 x) as [x _ IH]. intros s. destruct (decide (x = 0)%N) as [->|Hx]; [by rewrite pretty_N_go_0|].
  rewrite pretty_N_go_step by lia. rewrite IH by (apply N.div_lt; lia). cbn [GoString.decimal]. rewrite digit_char. cbn [mbind option_bind].
  f_equal. pose proof (N.div_mod x 10). lia.
Qed.

Lemma decimal_pretty (x : N) : GoString.decimal 0 (pretty x) = Some (Z.of_N x).
Proof. unfold pretty, pretty_N. case_decide as H; [by subst|]. by rewrite decimal_go. Qed.

(** Digits are visible and no sign. *)
Lemma pretty_N_edge (x : N) : ∃ c r, pretty x = String c r ∧ Ascii.eqb c "-" = false ∧ Ascii.eqb c "+" = false ∧ Forall (λ z, 33 <= z < 128) (bytes_of (pretty x)).
Proof.
  assert (∀ x s, Forall (λ z, 33 <= z < 128) (bytes_of s) -> Forall (λ z, 33 <= z < 128) (bytes_of (pretty_N_go x s))) as Hv.
  { clear. intros x. induction (N.lt_wf_0 x) as [x _ IH]. intros s Hs. destruct (decide (x = 0)%N) as [->|Hx]; [by rewrite pretty_N_go_0|].
    rewrite pretty_N_go_step by lia. apply IH; [apply N.div_lt; lia|].
    change (bytes_of (String (pretty_N_char (x mod 10)) s)) with (Z.of_N (N_of_ascii (pretty_N_char (x mod 10))) :: bytes_of s).
    constructor; [|done]. unfold pretty_N_char. by repeat case_match. }
  pose proof (decimal_pretty x) as Hd.
  assert (Forall (λ z, 33 <= z < 128) (bytes_of (pretty x))) as Hb.
  { unfold pretty, pretty_N. case_decide; [by repeat constructor|]. apply Hv. constructor. }
  destruct (pretty x) as [|c r] eqn:E.
  { exfalso. unfold pretty, pretty_N in E. case_decide as Hx; [done|]. rewrite pretty_N_go_step in E by lia.
    assert (∀ x c s, pretty_N_go x (String c s) ≠ "") as Hne; [|by eapply Hne].
    clear. intros x. induction (N.lt_wf_0 x) as [x _ IH]. intros c s. destruct (decide (x = 0)%N) as [->|Hx]; [by rewrite pretty_N_go_0|].
    rewrite pretty_N_go_step by lia. apply IH. apply N.div_lt; lia. }
  exists c, r. split_and!; [done| | |done]; destruct (Ascii.eqb_spec c "-"); try destruct (Ascii.eqb_spec c "+"); subst; done.
Qed.

Definition in_int64 (n : Z) : option Z := if (- 2 ^ 63 <=? n) && (n <? 2 ^ 63) then Some n else None.

Lemma Atoi_unsigned c r : Ascii.eqb c "-" = false -> Ascii.eqb c "+" = false ->
  Atoi (String c r) = GoString.decimal 0 (String c r) ≫= in_int64.
Proof. intros H1 H2. destruct c as [[] [] [] [] [] [] [] []]; done. Qed.

Lemma Atoi_Itoa z : - 2 ^ 63 <= z < 2 ^ 63 -> Atoi (Itoa z) = Some z.
Proof.
  intros Hz. assert (in_int64 z = Some z) as Hi.
  { unfold in_int64. by rewrite (proj2 (andb_true_iff _ _)) by lia. }
  unfold Itoa. destruct z as [|p|p]; [done| |]; destruct (pretty_N_edge (N.pos p)) as (c & r & E & H1 & H2 & _);
    pose proof (decimal_pretty (N.pos p)) as Hd.
  - change (pretty (Z.pos p)) with (pretty (N.pos p)). rewrite E in *. by rewrite Atoi_unsigned, Hd.
  - change (pretty (Z.neg p)) with ("-" +:+ pretty (N.pos p)). rewrite string_cons_app, string_nil_app, E in *.
    change (Atoi (String "-" (String c r))) with ((Z.opp <$> GoString.decimal 0 (String c r)) ≫= in_int64). by rewrite Hd.
Qed.

Lemma TrimSpace_Itoa z : TrimSpace (Itoa z) = Itoa z ∧ Itoa z ≠ "".
Proof.
  assert (∀ s, Forall (λ z, 33 <= z < 128) (bytes_of s) -> TrimSpace s = s) as H.
  { intros s Hs. assert (∀ l, Forall (λ z, 33 <= z < 128) l -> no_edge_space l = true) as He.
    { intros l [|x l' Hx _]; [done|]. by apply bool_decide_eq_true. }
    apply TrimSpace_id; apply He; [done|]. by apply Forall_rev. }
  unfold Itoa. destruct z as [|p|p]; [done| |].
  - change (pretty (Z.pos p)) with (pretty (N.pos p)). destruct (pretty_N_edge (N.pos p)) as (c & r & E & _ & _ & Hb).
    split; [by apply H|]. by rewrite E.
  - change (pretty (Z.neg p)) with ("-" +:+ pretty (N.pos p)). destruct (pretty_N_edge (N.pos p)) as (c & r & E & _ & _ & Hb).
    split; [|done]. apply H. rewrite bytes_app. by repeat constructor.
Qed.

#[export, refine] Instance IntCodec_laws : CodecLaws Z := {| encodable z := - 2 ^ 63 <= z < 2 ^ 63 |}.
Proof.
  intros z Hz. exists (Itoa z). split; [done|]. simpl. destruct (TrimSpace_Itoa z) as [-> Hne].
  rewrite bool_decide_eq_false_2 by done. by rewrite Atoi_Itoa.
Defined.

(** A table of values with their expiry times, and the entry that counts at a time. *)
Abbreviation table V := (gmap string (V * option Z)).
Definition current {A} (now : Z) (t : gmap string (A * option Z)) (k : string) : option (A * option Z) :=
  match t !! k with Some x => if expired_at now x.2 then None else Some x | None => None end.
Definition live {V} (now : Z) (t : table V) (k : string) : option V := fst <$> current now t k.

(** [hot] may drop entries at any call; it never invents one. *)
Class HotLaws (V : Type) `{HotCache V} := {
  content : Hot V -> table V;
  hot_Get_live : ∀ now k m, (hot_Get now k m).1 = live now (content m) k ∧ content (hot_Get now k m).2 ⊆ content m;
  hot_Set_content : ∀ now k v ttl m, 0 < ttl ->
    content (hot_SetWithTTL now k v ttl m) ⊆ <[k := (v, Some (now + ttl))]> (content m);
  hot_Keys_live : ∀ now m k, k ∈ hot_Keys now m <-> is_Some (live now (content m) k);
  hot_Delete_content : ∀ now ks m k,
    content (hot_DeleteMany now ks m).2 !! k = if bool_decide (k ∈ ks) then None else content m !! k;
  hot_Purge_content : ∀ m, content (hot_Purge m) = ∅;
}.

(** Texts without the signs of Redis patterns. *)
Definition glob_literal (s : string) : bool :=
  lacks "*" s && lacks "?" s && lacks "[" s && lacks "]" s && lacks "^" s && lacks "\" s.

(** [SCAN] answers every key that matches, perhaps more than once. *)
Class ScanLaws `{RedisScan} := {
  glob : string -> string -> bool;
  glob_prefix : ∀ p k, glob_literal p = true -> glob (p +:+ "*") k = HasPrefix k p;
  scan_complete : ∀ pattern keys k, k ∈ concat (scan_batches pattern keys) <-> k ∈ keys ∧ glob pattern k = true;
}.

Section refinement.
Context {V : Type} {HC : HotCache V} {VC : ValueCodec V} {RS : RedisScan}.
Context {CL : CodecLaws V} {HL : HotLaws V} {SL : ScanLaws}.
Context (c : HybridCache).
Hypothesis Hns : proper_ns (ns c) = true.
Hypothesis Hglob : glob_literal (ns_prefix (ns c)) = true.

(** ** The specification *)

Inductive cache_op : Type :=
| OpGet (key : string)
| OpSet (key : string) (v : V) (ttl : Z)
| OpDelete (keys : list string)
| OpDeletePrefix (prefix : string)
| OpPurge
| OpWait (time : Z).

(** What the calls of the clients have to respect. *)
Definition proper_op (o : cache_op) : Prop :=
  match o with
  | OpSet _ v ttl => 0 < ttl ∧ encodable v
  | OpDeletePrefix prefix => glob_literal (full_prefix c prefix) = true
  | OpWait time => 0 <= time
  | _ => True
  end.

(** The answer of a [Get], [None] for the other calls. *)
Definition run_op (o : cache_op) (s : HybridState V) : result (option (option V)) * HybridState V :=
  match o with
  | OpGet key => bind (Get c key) (λ v, ret (Some v)) s
  | OpSet key v ttl => bind (SetWithTTL c key v ttl) (λ _, ret None) s
  | OpDelete keys => bind (DeleteMany c keys) (λ _, ret None) s
  | OpDeletePrefix prefix => bind (DeleteByPrefix c prefix) (λ _, ret None) s
  | OpPurge => bind (Purge c) (λ _, ret None) s
  | OpWait time => (Ok None, mkHybrid (hc_redis s) (hc_mem s) (hc_now s + time) (hc_faults s))
  end.

Definition without (p : string -> bool) (t : table V) : table V := filter (λ kv, p kv.1 = false) t.

(** The table after a call that succeeded. *)
Definition spec_op (o : cache_op) (now : Z) (t : table V) : table V :=
  match o with
  | OpSet key v ttl => if bool_decide (FullKey (ns c) key = "") then t else <[FullKey (ns c) key := (v, Some (now + ttl))]> t
  | OpDelete keys => without (λ k, bool_decide (k ∈ full_keys c keys)) t
  | OpDeletePrefix prefix =>
      if bool_decide (FullKey (ns c) prefix = "") then t else without (λ k, HasPrefix k (full_prefix c prefix)) t
  | OpPurge => without (λ k, HasPrefix k (ns_prefix (ns c))) t
  | OpGet _ | OpWait _ => t
  end.

(** The tables a call may leave: one that failed may have deleted some of the keys that it
    would have deleted, and has written nothing. *)
Definition spec_after (r : result (option (option V))) (o : cache_op) (now : Z) (t t' : table V) : Prop :=
  match r with
  | Ok _ => t' = spec_op o now t
  | Err _ => ∃ p, (∀ k, p k = true -> spec_op o now t !! k = None) ∧ t' = without p t
  end.

(** ** The relation *)

Definition same_entry (x : string * option Z) (y : V * option Z) : Prop := Decode x.1 = Ok y.1 ∧ x.2 = y.2.

(** Keys of the table are full keys of the namespace.  In Redis the entries of the
    namespace are those of the table, in memory they are among them; entries that have
    expired do not count. *)
Definition represents (s : HybridState V) (t : table V) : Prop :=
  (∀ k, is_Some (t !! k) -> FullKey (ns c) k = k ∧ HasPrefix k (ns_prefix (ns c)) = true) ∧
  if redisOn c
  then ∀ k, HasPrefix k (ns_prefix (ns c)) = true ->
         option_Forall2 same_entry (current (hc_now s) (hc_redis s) k) (current (hc_now s) t k)
  else ∀ k x, current (hc_now s) (content (hc_mem s)) k = Some x -> current (hc_now s) t k = Some x.

(** What a [Get] may answer. *)
Definition sound_answer (o : cache_op) (r : result (option (option V))) (now : Z) (t : table V) : Prop :=
  match o, r with
  | OpGet key, Ok (Some (Some v)) => live now t (FullKey (ns c) key) = Some v
  | OpGet key, Ok (Some None) => redisOn c = true -> live now t (FullKey (ns c) key) = None
  | _, _ => True
  end.

(** ** Lemmas on the parts *)

Lemma current_without now p t k : current now (without p t) k = if p k then None else current now t k.
Proof.
  unfold current, without. destruct (p k) eqn:E.
  - rewrite map_lookup_filter_None_2; [done|]. right. intros x _. simpl. congruence.
  - rewrite map_lookup_filter. destruct (t !! k) as [x|]; simpl; [|done]. by rewrite option_guard_True.
Qed.

Lemma current_insert {A} now (t : gmap string (A * option Z)) k x k' :
  current now (<[k := x]> t) k' = if bool_decide (k = k') then (if expired_at now x.2 then None else Some x) else current now t k'.
Proof. unfold current. case_bool_decide; [subst; by rewrite lookup_insert_eq|by rewrite lookup_insert_ne]. Qed.

Lemma current_later {A} now d (t : gmap string (A * option Z)) k : 0 <= d ->
  current (now + d) t k = match current now t k with Some x => if expired_at (now + d) x.2 then None else Some x | None => None end.
Proof.
  intros Hd. unfold current. destruct (t !! k) as [[v [e|]]|]; simpl; try done.
  destruct (Z.leb_spec e now); [|done]. by rewrite (proj2 (Z.leb_le e (now + d))) by lia.
Qed.

Lemma expired_fresh now ttl : 0 < ttl -> expired_at now (Some (now + ttl)) = false.
Proof. simpl. lia. Qed.

Lemma exec_cases {A} (f : HybridState V -> result A * HybridState V) s :
  ∃ fs, exec f s = f (mkHybrid (hc_redis s) (hc_mem s) (hc_now s) fs) ∨
        ∃ e, exec f s = (Err e, mkHybrid (hc_redis s) (hc_mem s) (hc_now s) fs).
Proof.
  destruct s as [r m now [|[msg|] fs]]; unfold exec; simpl; [exists []|exists fs|exists fs]; eauto.
Qed.

Lemma scan_loop_cases batches s :
  ∃ fs, scan_loop batches s = (Ok (concat batches), mkHybrid (hc_redis s) (hc_mem s) (hc_now s) fs) ∨
        ∃ e, scan_loop batches s = (Err e, mkHybrid (hc_redis s) (hc_mem s) (hc_now s) fs).
Proof.
  revert s. induction batches as [|b batches IH]; intros s; simpl; [exists (hc_faults s); left; by destruct s|].
  unfold bind, select, ret. destruct (exec_cases (λ s, (Ok b, s)) s) as (fs & [E|(e & E)]); rewrite E; [|exists fs; right; by exists e].
  destruct (IH (mkHybrid (hc_redis s) (hc_mem s) (hc_now s) fs)) as (fs' & [E'|(e & E')]); rewrite E'; exists fs';
    [by left|right; by exists e].
Qed.

Lemma elem_of_redis_keys now r k : k ∈ redis_keys now r <-> is_Some (current now r k).
Proof.
  unfold redis_keys, current. rewrite list_elem_of_fmap. split.
  - intros ([k' x] & -> & [H1 H2]%elem_of_map_to_list%map_lookup_filter_Some). simpl in *. rewrite H1, H2. eauto.
  - intros [x H]. destruct (r !! k) as [y|] eqn:E; [|done]. destruct (expired_at now y.2) eqn:Ex; [done|].
    exists (k, y). split; [done|]. by apply elem_of_map_to_list, map_lookup_filter_Some.
Qed.

Lemma redis_live_current now r k : redis_live now r k = fst <$> current now r k.
Proof. unfold redis_live, current. destruct (r !! k) as [[raw d]|]; [|done]. simpl. by destruct (expired_at now d). Qed.

(** The pipeline has deleted some of its keys, and all of them when it reports no error. *)
Lemma unlink_each_cases keys err res s :
  ∃ (gone : list string) err' res' r fs, unlink_each keys err res s = (Ok (err', res'), mkHybrid r (hc_mem s) (hc_now s) fs) ∧
    (∀ k, r !! k = if bool_decide (k ∈ gone) then None else hc_redis s !! k) ∧
    (∀ k, k ∈ gone -> k ∈ keys) ∧ (err' = None -> err = None ∧ ∀ k, k ∈ keys -> k ∈ gone).
Proof.
  revert err res s. induction keys as [|k0 keys IH]; intros err res s; simpl.
  { exists [], err, res, (hc_redis s), (hc_faults s). split_and!; [by destruct s|done|set_solver|naive_solver]. }
  unfold bind at 1, attempt, unlink.
  destruct (exec_cases (λ s, (Ok (bool_decide (is_Some (redis_live (hc_now s) (hc_redis s) k0))),
    set_redis (delete k0 (hc_redis s)) s)) s) as (fs & [E|(e & E)]); rewrite E; unfold set_redis; cbn [hc_redis hc_mem hc_now hc_faults].
  - destruct (IH err (<[k0 := bool_decide (is_Some (redis_live (hc_now s) (hc_redis s) k0))]> res)
      (mkHybrid (delete k0 (hc_redis s)) (hc_mem s) (hc_now s) fs)) as (l & err' & res' & r & fs' & -> & Hr & Hl & He).
    exists (k0 :: l), err', res', r, fs'. split_and!; [done| |set_solver|set_solver]. intros k. rewrite Hr. simpl.
    destruct (decide (k = k0)) as [->|Hne].
    + rewrite lookup_delete_eq, (bool_decide_eq_true_2 (k0 ∈ k0 :: l)) by left. by destruct (bool_decide (k0 ∈ l)).
    + rewrite lookup_delete_ne by done. repeat case_bool_decide; set_solver.
  - destruct (IH (match err with Some _ => err | None => Some e end) res (mkHybrid (hc_redis s) (hc_mem s) (hc_now s) fs))
      as (l & err' & res' & r & fs' & -> & Hr & Hl & He).
    exists l, err', res', r, fs'. split_and!; [done|done|set_solver|]. intros Hn. destruct (He Hn) as [? _]. by destruct err.
Qed.

Lemma pipeline_unlink_cases keys s :
  ∃ (gone : list string) r fs, (∀ k, r !! k = if bool_decide (k ∈ gone) then None else hc_redis s !! k) ∧ (∀ k, k ∈ gone -> k ∈ keys) ∧
    ((∃ e, pipeline_unlink keys s = (Err e, mkHybrid r (hc_mem s) (hc_now s) fs)) ∨
     (∃ res, pipeline_unlink keys s = (Ok res, mkHybrid r (hc_mem s) (hc_now s) fs)) ∧ ∀ k, k ∈ keys -> k ∈ gone).
Proof.
  unfold pipeline_unlink, bind, select. destruct (unlink_each_cases keys None ∅ s) as (l & err & res & r & fs & -> & Hr & Hl & He).
  set (s1 := mkHybrid r (hc_mem s) (hc_now s) fs).
  destruct (exec_cases (λ s : HybridState V, (Ok tt, s)) s1) as (fs' & [E|(e & E)]); rewrite E; exists l, r, fs';
    (split; [done|]); (split; [done|]); [|left; by exists e].
  destruct err as [e|]; [left; by exists e|]. right. split; [by exists res|]. by apply He.
Qed.

Lemma HasPrefix_iff k p : HasPrefix k p = true <-> ∃ r, k = p +:+ r.
Proof.
  split; [|intros [r ->]; apply HasPrefix_app]. revert k. induction p as [|a p IH]; intros k; [by exists k|].
  destruct k as [|b k]; [done|]. rewrite HasPrefix_head, andb_true_iff. intros [->%Ascii.eqb_eq [r ->]%IH].
  exists r. by rewrite string_cons_app.
Qed.

Lemma HasPrefix_trans k q p : HasPrefix k q = true -> HasPrefix q p = true -> HasPrefix k p = true.
Proof. rewrite !HasPrefix_iff. intros [r ->] [r' ->]. exists (r' +:+ r). by rewrite append_assoc. Qed.

Lemma full_prefix_prefixed prefix : FullKey (ns c) prefix ≠ "" -> HasPrefix (full_prefix c prefix) (ns_prefix (ns c)) = true.
Proof.
  intros Hk. pose proof (full_key_prefixed _ _ (proper_ns_nonempty _ Hns) Hk) as H. unfold full_prefix.
  destruct (HasSuffix _ _); [done|]. eapply HasPrefix_trans; [apply HasPrefix_app|done].
Qed.

Lemma elem_full_keys keys k : k ∈ full_keys c keys <-> k ≠ "" ∧ ∃ k', k' ∈ keys ∧ FullKey (ns c) k' = k.
Proof.
  unfold full_keys. rewrite list_elem_of_In, filter_In, <- list_elem_of_In, negb_true_iff, String.eqb_neq.
  change (map (FullKey (ns c)) keys) with (FullKey (ns c) <$> keys). rewrite list_elem_of_fmap. naive_solver.
Qed.

(** *** Deleting *)

Definition present (s : HybridState V) (k : string) : Prop :=
  if redisOn c then is_Some (current (hc_now s) (hc_redis s) k) else is_Some (current (hc_now s) (content (hc_mem s)) k).

(** The state without the given keys. *)
Definition deleted (full : list string) (s s' : HybridState V) : Prop :=
  hc_now s' = hc_now s ∧
  if redisOn c
  then ∀ k, hc_redis s' !! k = if bool_decide (k ∈ full) then None else hc_redis s !! k
  else ∀ k, content (hc_mem s') !! k = if bool_decide (k ∈ full) then None else content (hc_mem s) !! k.

(** Only the faults to come differ. *)
Definition same_store (s s' : HybridState V) : Prop :=
  hc_redis s' = hc_redis s ∧ hc_mem s' = hc_mem s ∧ hc_now s' = hc_now s.

Lemma delete_many_cases keys s :
  (∃ e s' gone, DeleteMany c keys s = (Err e, s') ∧ deleted gone s s' ∧ ∀ k, k ∈ gone -> k ∈ full_keys c keys) ∨
  (∃ res s', DeleteMany c keys s = (Ok res, s') ∧ deleted (full_keys c keys) s s').
Proof.
  unfold DeleteMany. destruct (full_keys c keys) as [|k0 full] eqn:Ef.
  { right. exists ∅, s. split; [done|]. split; [done|]. by destruct (redisOn c); intros k; rewrite bool_decide_eq_false_2 by set_solver. }
  rewrite <- Ef. clear Ef. unfold deleted. destruct (redisOn c).
  - destruct (pipeline_unlink_cases (full_keys c keys) s) as (l & r & fs & Hr & Hl & [(e & E)|((res & E) & Hall)]); rewrite E.
    + left. by eexists e, _, l.
    + right. eexists res, _. split; [done|]. split; [done|]. intros k. rewrite Hr. simpl.
      by rewrite (bool_decide_ext (k ∈ l) (k ∈ full_keys c keys)) by (split; auto).
  - right. pose proof (hot_Delete_content (hc_now s) (full_keys c keys) (hc_mem s)) as Hd.
    destruct (hot_DeleteMany _ _ _) as [res m]. exists res. by eexists.
Qed.

Lemma represents_same s s' t : same_store s s' -> represents s t -> represents s' t.
Proof. unfold represents. by intros (-> & -> & ->). Qed.

Lemma present_table s t k : represents s t -> present s k -> HasPrefix k (ns_prefix (ns c)) = true ∨ redisOn c = false ->
  is_Some (current (hc_now s) t k).
Proof.
  unfold represents, present. intros [_ Hr] Hp Hk. destruct (redisOn c).
  - destruct Hk as [Hk|]; [|done]. specialize (Hr k Hk). destruct Hp as [x Hx]. rewrite Hx in Hr. inversion Hr; eauto.
  - destruct Hp as [x Hx]. apply Hr in Hx. eauto.
Qed.

Lemma current_full s t k : represents s t -> is_Some (current (hc_now s) t k) ->
  FullKey (ns c) k = k ∧ HasPrefix k (ns_prefix (ns c)) = true.
Proof. intros [Hk _] [x Hx]. apply Hk. unfold current in Hx. destruct (t !! k); [eauto|done]. Qed.

Lemma represents_deleted s s' t p full :
  represents s t -> deleted full s s' ->
  (∀ k, HasPrefix k (ns_prefix (ns c)) = true -> present s k -> p k = bool_decide (k ∈ full)) ->
  represents s' (without p t).
Proof.
  intros Hrep [Hnow Hd] Hp. pose proof Hrep as [Hkeys Hr]. split.
  { intros k [x Hx]. apply Hkeys. unfold without in Hx. apply map_lookup_filter_Some in Hx as [Hx _]. eauto. }
  unfold present in Hp. rewrite Hnow. destruct (redisOn c) eqn:Ec.
  - intros k Hk. specialize (Hr k Hk). specialize (Hp k Hk). rewrite current_without.
    unfold current at 1. rewrite Hd.
    destruct (current (hc_now s) (hc_redis s) k) as [x|] eqn:Ex.
    + rewrite Hp by eauto. case_bool_decide; [constructor|]. unfold current in Ex. by rewrite Ex.
    + inversion Hr as [|Hn]; subst. destruct (p k); (case_bool_decide; [constructor|]); unfold current in Ex; rewrite Ex; constructor.
  - intros k x Hx. unfold current in Hx. rewrite Hd in Hx. case_bool_decide as Hk; [done|].
    assert (current (hc_now s) (content (hc_mem s)) k = Some x) as Hx' by exact Hx.
    rewrite current_without. pose proof (Hr _ _ Hx') as Ht.
    destruct (current_full s t k Hrep) as [_ Hpre]; [eauto|].
    rewrite (Hp k Hpre) by eauto. by rewrite bool_decide_eq_false_2.
Qed.

(** The keys a client finds under a prefix are the ones it deletes. *)
Lemma found_keys s t keys q k :
  represents s t -> HasPrefix q (ns_prefix (ns c)) = true ->
  (∀ k, k ∈ keys <-> present s k ∧ HasPrefix k q = true) ->
  HasPrefix k (ns_prefix (ns c)) = true -> present s k -> HasPrefix k q = bool_decide (k ∈ full_keys c keys).
Proof.
  intros Hrep Hq Hkeys Hk Hpr. apply Bool.eq_iff_eq_true. rewrite bool_decide_eq_true, elem_full_keys.
  assert (FullKey (ns c) k = k) as Hf by (by eapply current_full, present_table; eauto).
  split.
  - intros H. split; [|exists k; by rewrite Hkeys]. intros ->.
    apply HasPrefix_iff in Hk as [r Hr]. pose proof (proper_ns_nonempty _ Hns). by destruct (ns_prefix (ns c)).
  - intros (_ & k' & [Hp' Hq']%Hkeys & <-).
    destruct (current_full s t k' Hrep) as [-> _]; [|done]. eapply present_table; [done..|]. left. by eapply HasPrefix_trans.
Qed.

(** *** Single calls *)

Lemma get_refines key s t :
  represents s t ->
  match Get c key s with
  | (Ok v, s') => represents s' t ∧ hc_now s' = hc_now s ∧
      (∀ x, v = Some x -> live (hc_now s) t (FullKey (ns c) key) = Some x) ∧
      (v = None -> redisOn c = true -> live (hc_now s) t (FullKey (ns c) key) = None)
  | (Err _, s') => represents s' t ∧ hc_now s' = hc_now s
  end.
Proof.
  intros Hrep. unfold Get. case_bool_decide as Hf.
  { rewrite Hf. simpl. split_and!; [done..|]. intros _ _. unfold live, current.
    destruct (t !! "") as [x|] eqn:E; [|done]. destruct Hrep as [Hk _]. destruct (Hk "") as [_ Hp]; [eauto|].
    apply HasPrefix_iff in Hp as [r Hr]. pose proof (proper_ns_nonempty _ Hns). by destruct (ns_prefix (ns c)). }
  pose proof (full_key_prefixed _ _ (proper_ns_nonempty _ Hns) Hf) as Hpre.
  pose proof Hrep as [_ Hr]. destruct (redisOn c) eqn:Ec.
  - specialize (Hr _ Hpre). unfold select, bind.
    destruct (exec_cases (λ s, (Ok (redis_live (hc_now s) (hc_redis s) (FullKey (ns c) key)), s)) s) as (fs & [E|(e & E)]); rewrite E;
      [|split; [|done]; by eapply represents_same]. rewrite redis_live_current. simpl. unfold live.
    inversion Hr as [[raw d] [v d'] [Hd Hdd] Hx Ht|Hx Ht]; simpl in *; subst; simpl.
    + rewrite Hd. simpl. split_and!; [by eapply represents_same|done|congruence|done].
    + split_and!; [by eapply represents_same|done..].
  - destruct (hot_Get_live (hc_now s) (FullKey (ns c) key) (hc_mem s)) as [Hg Hsub].
    destruct (hot_Get _ _ _) as [v m]. simpl in *. subst v.
    split_and!; [|done| |done].
    + split; [apply Hrep|]. rewrite Ec. simpl. intros k x Hx. apply Hr. unfold current in Hx |- *.
      destruct (content m !! k) as [y|] eqn:Ey; [|done]. by rewrite (lookup_weaken _ _ _ _ Ey Hsub).
    + unfold live. intros x Hx. apply fmap_Some in Hx as (y & Hy & ->). by rewrite (Hr _ _ Hy).
Qed.

Lemma set_refines key v ttl s t :
  represents s t -> 0 < ttl -> encodable v ->
  match SetWithTTL c key v ttl s with
  | (Ok _, s') => represents s' (spec_op (OpSet key v ttl) (hc_now s) t) ∧ hc_now s' = hc_now s
  | (Err _, s') => represents s' t ∧ hc_now s' = hc_now s
  end.
Proof.
  intros Hrep Httl Hv. unfold SetWithTTL. simpl. case_bool_decide as Hf; [done|].
  pose proof (full_key_prefixed _ _ (proper_ns_nonempty _ Hns) Hf) as Hpre.
  set (full := FullKey (ns c) key) in *. pose proof Hrep as [Hkeys Hr].
  assert (∀ k, is_Some (<[full := (v, Some (hc_now s + ttl))]> t !! k) ->
            FullKey (ns c) k = k ∧ HasPrefix k (ns_prefix (ns c)) = true) as Hkeys'.
  { intros k. destruct (decide (k = full)) as [->|Hne]; [intros _; split; [by apply full_key_idem|done]|].
    rewrite lookup_insert_ne by done. apply Hkeys. }
  destruct (redisOn c) eqn:Ec.
  - destruct (Encode_Decode v Hv) as (raw & He & Hd). unfold bind. rewrite He. simpl. unfold update.
    destruct (exec_cases (λ s, (Ok tt, set_redis (redis_set (hc_now s) full raw ttl (hc_redis s)) s)) s) as (fs & [E|(e & E)]); rewrite E;
      [|split; [|done]; by eapply represents_same].
    split; [|done]. split; [done|]. rewrite Ec. simpl. intros k Hk. unfold redis_set. rewrite (proj2 (Z.ltb_lt 0 ttl)) by done.
    rewrite !current_insert. simpl. case_bool_decide; [|by apply Hr].
    rewrite (proj2 (Z.leb_gt (hc_now s + ttl) (hc_now s))) by lia. by constructor.
  - split; [|done]. split; [done|]. rewrite Ec. simpl. intros k x Hx.
    pose proof (hot_Set_content (hc_now s) full v ttl (hc_mem s) Httl) as Hsub.
    assert (current (hc_now s) (<[full := (v, Some (hc_now s + ttl))]> (content (hc_mem s))) k = Some x) as Hx'.
    { unfold current in Hx |- *. destruct (content (hot_SetWithTTL _ _ _ _ _) !! k) as [y|] eqn:Ey; [|done].
      by rewrite (lookup_weaken _ _ _ _ Ey Hsub). }
    rewrite current_insert in Hx' |- *. case_bool_decide; [done|]. by apply Hr.
Qed.

(** Without faults Redis answers. *)
Lemma get_answers key s t :
  represents s t -> redisOn c = true -> hc_faults s = [] -> (Get c key s).1 = Ok (live (hc_now s) t (FullKey (ns c) key)).
Proof.
  intros Hrep Ec Hf. pose proof (get_refines key s t Hrep) as H. destruct (Get c key s) as [[v|e] s'] eqn:Eg; simpl.
  - destruct H as (_ & _ & H1 & H2). destruct v as [x|]; [by rewrite (H1 x eq_refl)|by rewrite (H2 eq_refl Ec)].
  - exfalso. unfold Get in Eg. case_bool_decide as Hk; [done|]. rewrite Ec in Eg. unfold bind, select, exec in Eg.
    cbn [st_faults hybrid_store] in Eg. rewrite Hf, redis_live_current in Eg.
    destruct Hrep as [_ Hr]. rewrite Ec in Hr. specialize (Hr _ (full_key_prefixed _ _ (proper_ns_nonempty _ Hns) Hk)).
    destruct Hr as [x y [Hd _]|]; [|done]. cbn [fmap option_fmap option_map] in Eg. by rewrite Hd in Eg.
Qed.

Lemma set_succeeds key v ttl s :
  redisOn c = true -> hc_faults s = [] -> encodable v -> (SetWithTTL c key v ttl s).1 = Ok tt.
Proof.
  intros Ec Hf Hv. unfold SetWithTTL. case_bool_decide; [done|]. rewrite Ec. destruct (Encode_Decode v Hv) as (raw & -> & _).
  unfold bind, update, exec. simpl. by rewrite Hf.
Qed.

(** A call that deletes the keys of [p] has deleted them, or failed and deleted some. *)
Definition after_delete {A} (p : string -> bool) (out : result A * HybridState V) (s : HybridState V) (t : table V) : Prop :=
  match out with
  | (Ok _, s') => represents s' (without p t) ∧ hc_now s' = hc_now s
  | (Err _, s') => (∃ q, (∀ k, q k = true -> p k = true) ∧ represents s' (without q t)) ∧ hc_now s' = hc_now s
  end.

Lemma without_none t : without (λ _, false) t = t.
Proof. unfold without. by apply map_filter_id. Qed.

Lemma failed_early {A} p (e : error) s s' t : represents s t -> same_store s s' -> after_delete p (@Err A e, s') s t.
Proof.
  intros Hrep Hs. split; [|apply Hs]. exists (λ _, false). split; [done|]. rewrite without_none. by eapply represents_same.
Qed.

Lemma delete_refines keys s t p :
  represents s t ->
  (∀ k, HasPrefix k (ns_prefix (ns c)) = true -> present s k -> p k = bool_decide (k ∈ full_keys c keys)) ->
  after_delete p (DeleteMany c keys s) s t.
Proof.
  intros Hrep Hp. destruct (delete_many_cases keys s) as [(e & s' & gone & -> & Hd & Hg)|(res & s' & -> & Hd)].
  - split; [|apply Hd]. exists (λ k, p k && bool_decide (k ∈ gone)).
    split; [by intros k [? _]%andb_true_iff|]. eapply represents_deleted; [done..|]. intros k Hk Hpr.
    rewrite (Hp k Hk Hpr). case_bool_decide; [done|]. by rewrite bool_decide_eq_false_2 by auto.
  - split; [by eapply represents_deleted|apply Hd].
Qed.

(** Scanning a literal prefix finds the keys that are there. *)
Lemma scan_cases q s : redisOn c = true -> glob_literal q = true ->
  (∃ e s', scanKeys (q +:+ "*") s = (Err e, s') ∧ same_store s s') ∨
  (∃ keys s', scanKeys (q +:+ "*") s = (Ok keys, s') ∧ same_store s s' ∧ ∀ k, k ∈ keys <-> present s k ∧ HasPrefix k q = true).
Proof.
  intros Ec Hq. unfold scanKeys, bind, gets.
  destruct (scan_loop_cases (scan_batches (q +:+ "*") (redis_keys (hc_now s) (hc_redis s))) s) as (fs & [E|(e & E)]); rewrite E.
  - right. eexists _, _. split; [done|]. split; [done|]. intros k. rewrite scan_complete, elem_of_redis_keys, glob_prefix by done.
    unfold present. by rewrite Ec.
  - left. by eexists _, _.
Qed.

Lemma present_same s s' k : same_store s s' -> present s k -> present s' k.
Proof. unfold present. by intros (-> & -> & ->). Qed.
Lemma same_sym s s' : same_store s s' -> same_store s' s.
Proof. by intros (? & ? & ?). Qed.

Lemma delete_prefix_refines prefix s t :
  represents s t -> glob_literal (full_prefix c prefix) = true -> FullKey (ns c) prefix ≠ "" ->
  after_delete (λ k, HasPrefix k (full_prefix c prefix)) (DeleteByPrefix c prefix s) s t.
Proof.
  intros Hrep Hg Hf. unfold DeleteByPrefix. rewrite bool_decide_eq_false_2 by done. cbv zeta.
  pose proof (full_prefix_prefixed prefix Hf) as Hpre. set (q := full_prefix c prefix) in *.
  assert (∀ keys s1, same_store s s1 -> (∀ k, k ∈ keys <-> present s k ∧ HasPrefix k q = true) ->
    after_delete (λ k, HasPrefix k q)
      ((match keys with [] => ret 0 | _ :: _ => let! res := DeleteMany c keys in ret (count_true res) end) s1) s t) as Hdel.
  { intros keys s1 Hs Hkeys. pose proof (represents_same _ _ _ Hs Hrep) as Hrep1. pose proof Hs as (_ & _ & Hnow).
    assert (∀ k, HasPrefix k (ns_prefix (ns c)) = true -> present s1 k -> HasPrefix k q = bool_decide (k ∈ full_keys c keys)) as Hp.
    { intros k Hk Hpr. eapply (found_keys s t); try done. by eapply present_same; [apply same_sym|]. }
    destruct keys as [|k0 keys].
    - simpl. rewrite <- Hnow. split; [|done]. apply (represents_deleted s1 s1 t _ [] Hrep1); [|exact Hp].
      split; [done|]. by destruct (redisOn c); intros k; rewrite bool_decide_eq_false_2 by set_solver.
    - pose proof (delete_refines (k0 :: keys) s1 t _ Hrep1 Hp) as H. unfold bind.
      destruct (DeleteMany c (k0 :: keys) s1) as [[res|e] s2]; unfold after_delete in *; simpl; by rewrite <- Hnow. }
  destruct (redisOn c) eqn:Ec.
  - unfold bind at 1. destruct (scan_cases q s Ec Hg) as [(e & s1 & -> & Hs)|(keys & s1 & -> & Hs & Hkeys)].
    + by apply failed_early.
    + by apply Hdel.
  - apply (Hdel _ s); [done|]. intros k. unfold present. rewrite Ec.
    rewrite list_elem_of_In, filter_In, <- list_elem_of_In, hot_Keys_live. unfold live. by rewrite fmap_is_Some.
Qed.

Lemma purge_refines s t :
  represents s t -> after_delete (λ k, HasPrefix k (ns_prefix (ns c))) (Purge c s) s t.
Proof.
  intros Hrep. unfold Purge. destruct (redisOn c) eqn:Ec.
  - unfold bind at 1. unfold MatchPattern. destruct (scan_cases (ns_prefix (ns c)) s Ec Hglob) as [(e & s1 & -> & Hs)|(keys & s1 & -> & Hs & Hkeys)].
    { by apply failed_early. }
    pose proof (represents_same _ _ _ Hs Hrep) as Hrep1. pose proof Hs as (_ & _ & Hnow).
    assert (∀ k, HasPrefix k (ns_prefix (ns c)) = true -> present s1 k -> HasPrefix k (ns_prefix (ns c)) = bool_decide (k ∈ full_keys c keys)) as Hp.
    { intros k Hk Hpr. eapply (found_keys s t); try done; [by apply HasPrefix_iff; exists ""; rewrite append_nil_r|].
      by eapply present_same; [apply same_sym|]. }
    destruct keys as [|k0 keys].
    + simpl. rewrite <- Hnow. split; [|done]. apply (represents_deleted s1 s1 t _ [] Hrep1); [|exact Hp].
      split; [done|]. by rewrite Ec; intros k; rewrite bool_decide_eq_false_2 by set_solver.
    + pose proof (delete_refines (k0 :: keys) s1 t _ Hrep1 Hp) as H. unfold bind.
      destruct (DeleteMany c (k0 :: keys) s1) as [[res|e] s2]; unfold after_delete in *; simpl; by rewrite <- Hnow.
  - split; [|done]. split.
    + intros k [x Hx]. unfold without in Hx. apply map_lookup_filter_Some in Hx as [Hx _]. apply Hrep. eauto.
    + rewrite Ec. simpl. rewrite hot_Purge_content. intros k x. unfold current. by rewrite lookup_empty.
Qed.

(** *** Sequences of calls *)

Definition later (o : cache_op) (now : Z) : Z := match o with OpWait time => now + time | _ => now end.

(** A call that failed and did nothing. *)
Lemma spec_after_failed e o now t : spec_after (Err e) o now t t.
Proof. exists (λ _, false). split; [done|]. by rewrite without_none. Qed.

Lemma without_lookup p t k : p k = true -> without p t !! k = None.
Proof. intros Hk. apply map_lookup_filter_None_2. right. intros x _. simpl. congruence. Qed.

Lemma step_deletes {A} (m : M (HybridState V) A) p o s t :
  after_delete p (m s) s t -> spec_op o (hc_now s) t = without p t ->
  (∀ key, o ≠ OpGet key) -> later o (hc_now s) = hc_now s ->
  let '(r, s') := bind m (λ _, ret None) s in
  ∃ t', spec_after r o (hc_now s) t t' ∧ represents s' t' ∧ hc_now s' = later o (hc_now s) ∧ sound_answer o r (hc_now s) t.
Proof.
  unfold after_delete, bind. intros Hd Ho Hg ->.
  assert (∀ r, sound_answer o r (hc_now s) t) as Ha by (destruct o as [key| | | | |]; [by destruct (Hg key)|done..]).
  destruct (m s) as [[x|e] s']; simpl.
  - destruct Hd as [Hr Hn]. exists (without p t). by rewrite Ho.
  - destruct Hd as [(q & Hq & Hr) Hn]. exists (without q t). split_and!; try done. exists q. split; [|done].
    intros k Hk. rewrite Ho. by apply without_lookup, Hq.
Qed.

Lemma step_refines o s t : represents s t -> proper_op o ->
  let '(r, s') := run_op o s in
  ∃ t', spec_after r o (hc_now s) t t' ∧ represents s' t' ∧ hc_now s' = later o (hc_now s) ∧ sound_answer o r (hc_now s) t.
Proof.
  intros Hrep Ho. destruct o as [key|key v ttl|keys|prefix| |time]; cbn [run_op].
  - pose proof (get_refines key s t Hrep) as H. unfold bind. destruct (Get c key s) as [[v|e] s']; exists t.
    + destruct H as (H1 & H2 & H3 & H4). split_and!; [done..|]. destruct v; simpl; auto.
    + destruct H. split_and!; try done. apply spec_after_failed.
  - destruct Ho as [Httl Hv]. pose proof (set_refines key v ttl s t Hrep Httl Hv) as H. unfold bind.
    destruct (SetWithTTL c key v ttl s) as [[?|?] ?]; destruct H as [H1 H2]; [by eexists|].
    exists t. split_and!; try done. apply spec_after_failed.
  - apply (step_deletes (DeleteMany c keys) (λ k, bool_decide (k ∈ full_keys c keys)) (OpDelete keys)); try done.
    by apply delete_refines.
  - destruct (decide (FullKey (ns c) prefix = "")) as [Hf|Hf].
    + unfold bind, DeleteByPrefix. rewrite bool_decide_eq_true_2 by done. simpl. rewrite bool_decide_eq_true_2 by done. by exists t.
    + apply (step_deletes (DeleteByPrefix c prefix) (λ k, HasPrefix k (full_prefix c prefix)) (OpDeletePrefix prefix)); try done.
      * by apply delete_prefix_refines.
      * simpl. by rewrite bool_decide_eq_false_2.
  - apply (step_deletes (Purge c) (λ k, HasPrefix k (ns_prefix (ns c))) OpPurge); try done. by apply purge_refines.
  - simpl in *. exists t. split_and!; [done| |done..]. destruct Hrep as [Hk Hr]. split; [done|]. simpl. destruct (redisOn c).
    + intros k Hpre. rewrite !current_later by done. specialize (Hr k Hpre).
      inversion Hr as [x y [? Hd]|]; [|constructor]. rewrite Hd. by destruct (expired_at _ y.2); constructor.
    + intros k x. rewrite !current_later by done. destruct (current (hc_now s) (content (hc_mem s)) k) as [y|] eqn:Ey; [|done].
      by rewrite (Hr _ _ Ey).
Qed.

Fixpoint run_ops (ops : list cache_op) (s : HybridState V) : list (result (option (option V))) :=
  match ops with
  | [] => []
  | o :: ops => let '(r, s') := run_op o s in r :: run_ops ops s'
  end.

(** Every answer against a table that the calls before it may have left. *)
Fixpoint sound_run (ops : list cache_op) (rs : list (result (option (option V)))) (now : Z) (t : table V) : Prop :=
  match ops, rs with
  | o :: ops, r :: rs => sound_answer o r now t ∧ ∃ t', spec_after r o now t t' ∧ sound_run ops rs (later o now) t'
  | _, _ => True
  end.

(** C22. For a namespace that begins with a visible character of ASCII and has no pattern
    signs ([proper_ns], [glob_literal]), and for proper calls (a value is written with a
    positive lifetime and can be encoded and decoded, a prefix to delete by has no pattern
    signs), one after the other, whichever Redis commands fail and however much time passes
    between them: a value the cache answers is the last one a successful call wrote under
    the key, not expired and not deleted since; with Redis a missing value is really
    absent from that table, in memory it may have been evicted.  A successful deletion by
    keys, by prefix or of the whole cache deletes exactly the keys, those of the prefix, or
    those of the namespace; one that fails half-way, as the pipeline is no transaction, has
    deleted some of these and nothing else. *)
Theorem hybrid_refines ops s t :
  represents s t -> Forall proper_op ops -> sound_run ops (run_ops ops s) (hc_now s) t.
Proof.
  intros Hrep Hf. revert s t Hrep. induction Hf as [|o ops Ho _ IH]; intros s t Hrep; [done|]. simpl.
  pose proof (step_refines o s t Hrep Ho) as H. destruct (run_op o s) as [r s'].
  destruct H as (t' & H0 & H1 & H2 & H3). split; [done|]. exists t'. split; [done|]. rewrite <- H2. by apply IH.
Qed.

End refinement.
