(* ===== verification/Affinity.v ===== *)
(** * Affinity: sending a client's requests to the channel that served it before

    Models [service/channel_affinity.go], its settings
    ([setting/operation_setting/channel_affinity_setting.go]) and the handlers of
    [controller/channel_affinity_cache.go].  A rule derives a key from a request; the
    hybrid cache keeps the channel of the last success under it.  Matching of regular
    expressions, SHA-1 and the text of a raw JSON value are the interface
    [AffinityLibs]. *)

From Stdlib Require Import Ascii.
From S2P Require Export Override.
From S2P Require Export HybridCache.
From S2P Require Export TextQuota.
From S2P Require Export RelayRetry.
From S2P Require Import Prelude.

Class AffinityLibs {JT : JsonText} := {
  (** [regexp.Compile] and [MatchString] *)
  regexp_MatchString : string -> option (string -> bool);
  (** [common.Sha1], in hexadecimal *)
  Sha1 : string -> string;
  RawString : Text -> string;
}.

(** ** Settings *)

Record ChannelAffinityKeySource : Type := mkKeySource { src_Type : string; src_Key : string; src_Path : string }.

Record ChannelAffinityRule : Type := mkRule {
  Name : string;
  ModelRegex : list string;
  PathRegex : list string;
  UserAgentInclude : list string;
  KeySources : list ChannelAffinityKeySource;
  ValueRegex : string;
  TTLSeconds : Z;
  ParamOverrideTemplate : list (string * json);
  SkipRetryOnFailure : bool;
  IncludeUsingGroup : bool;
  IncludeModelName : bool;
  IncludeRuleName : bool;
}.

Record ChannelAffinitySetting : Type := mkAffinitySetting {
  Enabled : bool;
  SwitchOnSuccess : bool;
  KeepOnChannelDisabled : bool;
  MaxEntries : Z;
  DefaultTTLSeconds : Z;
  Rules : list ChannelAffinityRule;
}.

Definition codexCliPassThroughHeaders : list string :=
  ["Originator"; "Session_id"; "User-Agent"; "X-Codex-Beta-Features"; "X-Codex-Turn-Metadata"].
Definition claudeCliPassThroughHeaders : list string :=
  ["X-Stainless-Arch"; "X-Stainless-Lang"; "X-Stainless-Os"; "X-Stainless-Package-Version"; "X-Stainless-Retry-Count";
   "X-Stainless-Runtime"; "X-Stainless-Runtime-Version"; "X-Stainless-Timeout"; "User-Agent"; "X-App"; "Anthropic-Beta";
   "Anthropic-Dangerous-Direct-Browser-Access"; "Anthropic-Version"].

Definition buildPassHeaderTemplate (headers : list string) : list (string * json) :=
  [("operations", JArray [JObject [("keep_origin", JBool true); ("mode", JString "pass_headers");
                                   ("value", JArray (map JString headers))]])].

Definition cli_rule (name model path key : string) (headers : list string) : ChannelAffinityRule :=
  mkRule name [model] [path] [] [mkKeySource "gjson" "" key] "" 0 (buildPassHeaderTemplate headers) true true false true.
Definition channelAffinitySetting : ChannelAffinitySetting :=
  mkAffinitySetting true true false 100000 3600
    [cli_rule "codex cli trace" "^gpt-.*$" "/v1/responses" "prompt_cache_key" codexCliPassThroughHeaders;
     cli_rule "claude cli trace" "^claude-.*$" "/v1/messages" "metadata.user_id" claudeCliPassThroughHeaders].

(** ** The request *)

Record channelAffinityMeta : Type := mkMeta {
  CacheKey : string;
  meta_TTLSeconds : Z;
  RuleName : string;
  SkipRetry : bool;
  ParamTemplate : list (string * json);
  KeySourceType : string;
  KeySourceKey : string;
  KeySourcePath : string;
  KeyHint : string;
  KeyFingerprint : string;
  UsingGroup : string;
  ModelName : string;
  RequestPath : string;
}.

(** What the functions read of the request, and the values they keep in its context:
    [setChannelAffinityContext] sets the cache key, the TTL and the meta data at once. *)
Record AffinityCtx {JT : JsonText} : Type := mkAffinityCtx {
  ctx_path : string;
  ctx_userAgent : string;
  ctx_header : string -> string;
  ctx_int : string -> Z;
  ctx_string : string -> string;
  ctx_body : option Text;
  ctx_meta : option channelAffinityMeta;
  ctx_skipRetry : option bool;
  ctx_logInfo : option (list (string * json));
}.

Definition channelAffinityCacheNamespace : string := "new-api:channel_affinity:v1".
Definition channelAffinityUsageCacheStatsNamespace : string := "new-api:channel_affinity_usage_cache_stats:v1".
Definition Second : Z := 1000000000.

Section affinity.
Context {JT : JsonText} {FM : Formatting} {AL : AffinityLibs}.
Context {HZ : HotCache Z} {RS : RedisScan}.
Context (redis : bool) (setting : ChannelAffinitySetting).

Definition getChannelAffinityCache : HybridCache := mkHybridCache channelAffinityCacheNamespace redis.

(** ** Matching *)

(** A pattern that does not compile matches nothing; compiled ones are remembered. *)
Definition matches (pattern s : string) : bool :=
  negb (bool_decide (pattern = "")) && match regexp_MatchString pattern with Some f => f s | None => false end.
Definition matchAnyRegexCached (patterns : list string) (s : string) : bool :=
  negb (bool_decide (s = "")) && existsb (λ p, matches p s) patterns.

Definition matchAnyIncludeFold (patterns : list string) (s : string) : bool :=
  negb (bool_decide (s = "")) &&
  existsb (λ p, negb (bool_decide (TrimSpace p = "")) && Contains (unicode_ToLower s) (unicode_ToLower (TrimSpace p))) patterns.

Definition extractChannelAffinityValue (ctx : AffinityCtx) (src : ChannelAffinityKeySource) : string :=
  let key := src_Key src in
  if bool_decide (src_Type src = "context_int") then
    if bool_decide (key = "") || (ctx_int ctx key <=? 0) then "" else Itoa (ctx_int ctx key)
  else if bool_decide (src_Type src = "context_string") then
    if bool_decide (key = "") then "" else TrimSpace (ctx_string ctx key)
  else if bool_decide (src_Type src = "request_header") then
    if bool_decide (key = "") then "" else TrimSpace (ctx_header ctx key)
  else if bool_decide (src_Type src = "gjson") then
    match (if bool_decide (src_Path src = "") then None else body ← ctx_body ctx; gjson_Get body (src_Path src)) with
    | None => ""
    | Some res =>
        match gtype (r_Value res) with
        | GString | GNumber | GTrue | GFalse => TrimSpace (r_String res)
        | _ => TrimSpace (RawString (r_Raw res))
        end
    end
  else "".

(** The first source that gives a value. *)
Fixpoint first_value (ctx : AffinityCtx) (sources : list ChannelAffinityKeySource)
    : option (ChannelAffinityKeySource * string) :=
  match sources with
  | [] => None
  | src :: sources =>
      let v := extractChannelAffinityValue ctx src in
      if bool_decide (v = "") then first_value ctx sources else Some (src, v)
  end.

Definition buildChannelAffinityCacheKeySuffix (rule : ChannelAffinityRule) (modelName usingGroup affinityValue : string) : string :=
  let part (b : bool) s := if b && negb (bool_decide (s = "")) then [s] else [] in
  GoString.Join (part (IncludeRuleName rule) (Name rule) ++ part (IncludeModelName rule) modelName
                 ++ part (IncludeUsingGroup rule) usingGroup ++ [affinityValue]) ":".

Definition affinityFingerprint (s : string) : string :=
  if bool_decide (s = "") then "" else str_take 8 (Sha1 s).

Definition buildChannelAffinityKeyHint (s : string) : string :=
  let s := ReplaceAll (ReplaceAll (TrimSpace s) (String "010"%char "") " ") (String "013"%char "") " " in
  if Nat.leb (String.length s) 12 then s
  else str_take 4 s +:+ "..." +:+ str_drop (String.length s - 4) s.

(** The rule that applies and the value of its key. *)
Definition rule_value (ctx : AffinityCtx) (modelName : string) (rule : ChannelAffinityRule)
    : option (ChannelAffinityKeySource * string) :=
  let applies patterns matched := bool_decide (patterns = []) || matched in
  if negb (matchAnyRegexCached (ModelRegex rule) modelName) then None
  else if negb (applies (PathRegex rule) (matchAnyRegexCached (PathRegex rule) (ctx_path ctx))) then None
  else if negb (applies (UserAgentInclude rule) (matchAnyIncludeFold (UserAgentInclude rule) (ctx_userAgent ctx))) then None
  else
    match first_value ctx (KeySources rule) with
    | None => None
    | Some (src, v) =>
        if negb (bool_decide (ValueRegex rule = "")) && negb (matchAnyRegexCached [ValueRegex rule] v) then None
        else Some (src, v)
    end.
Fixpoint first_rule (ctx : AffinityCtx) (modelName : string) (rules : list ChannelAffinityRule)
    : option (ChannelAffinityRule * ChannelAffinityKeySource * string) :=
  match rules with
  | [] => None
  | rule :: rules =>
      match rule_value ctx modelName rule with
      | Some (src, v) => Some (rule, src, v)
      | None => first_rule ctx modelName rules
      end
  end.

Definition meta_of (ctx : AffinityCtx) (modelName usingGroup : string) (rule : ChannelAffinityRule)
    (src : ChannelAffinityKeySource) (value : string) : channelAffinityMeta :=
  mkMeta (channelAffinityCacheNamespace +:+ ":" +:+ buildChannelAffinityCacheKeySuffix rule modelName usingGroup value)
    (if TTLSeconds rule <=? 0 then DefaultTTLSeconds setting else TTLSeconds rule)
    (Name rule) (SkipRetryOnFailure rule) (ParamOverrideTemplate rule)
    (TrimSpace (src_Type src)) (TrimSpace (src_Key src)) (TrimSpace (src_Path src))
    (buildChannelAffinityKeyHint value) (affinityFingerprint value) usingGroup modelName (ctx_path ctx).

Definition setChannelAffinityContext (meta : channelAffinityMeta) (ctx : AffinityCtx) : AffinityCtx :=
  {| ctx with ctx_meta := Some meta |}.

(** The channel, if one is kept, and the context; an error of the cache is logged. *)
Definition GetPreferredChannelByAffinity (ctx : AffinityCtx) (modelName usingGroup : string)
    : M (HybridState Z) (option Z * AffinityCtx) :=
  if negb (Enabled setting) then ret (None, ctx)
  else
    match first_rule ctx modelName (Rules setting) with
    | None => ret (None, ctx)
    | Some (rule, src, v) =>
        let ctx := setChannelAffinityContext (meta_of ctx modelName usingGroup rule src v) ctx in
        let! found := attempt (Get getChannelAffinityCache (buildChannelAffinityCacheKeySuffix rule modelName usingGroup v)) in
        ret (match found with Ok id => id | Err _ => None end, ctx)
    end.

(** ** During the request *)

Definition ShouldSkipRetryAfterChannelAffinityFailure (ctx : AffinityCtx) : bool :=
  match ctx_skipRetry ctx with
  | Some b => b
  | None => match ctx_meta ctx with Some meta => SkipRetry meta | None => false end
  end.

(** [getChannelAffinityContext]: the key, when there is one that is not empty. *)
Definition getChannelAffinityContext (ctx : AffinityCtx) : option (string * Z) :=
  meta ← ctx_meta ctx; if bool_decide (CacheKey meta = "") then None else Some (CacheKey meta, meta_TTLSeconds meta).

Definition ClearCurrentChannelAffinityCache (ctx : AffinityCtx) : M (HybridState Z) (bool * AffinityCtx) :=
  match getChannelAffinityContext ctx with
  | None => ret (false, ctx)
  | Some (cacheKey, _) =>
      let! deleted := attempt (DeleteMany getChannelAffinityCache [cacheKey]) in
      match deleted with
      | Err _ => ret (false, ctx)
      | Ok res => ret (existsb snd (map_to_list res), {| ctx with ctx_skipRetry := Some false |})
      end
  end.

Definition ShouldKeepChannelAffinityOnChannelDisabled : bool := KeepOnChannelDisabled setting.

Definition source_entries (meta : channelAffinityMeta) : list (string * json) :=
  [("reason", JString (RuleName meta)); ("rule_name", JString (RuleName meta)); ("using_group", JString (UsingGroup meta));
   ("model", JString (ModelName meta)); ("request_path", JString (RequestPath meta));
   ("key_source", JString (KeySourceType meta)); ("key_key", JString (KeySourceKey meta));
   ("key_path", JString (KeySourcePath meta)); ("key_hint", JString (KeyHint meta)); ("key_fp", JString (KeyFingerprint meta))].
Definition map_of (l : list (string * json)) : list (string * json) := foldr (λ kv m, put_field kv.1 kv.2 m) [] l.

Definition MarkChannelAffinityUsed (ctx : AffinityCtx) (selectedGroup : string) (channelID : Z) : AffinityCtx :=
  match ctx_meta ctx with
  | Some meta =>
      if channelID <=? 0 then ctx
      else {| ctx with ctx_skipRetry := Some (SkipRetry meta);
              ctx_logInfo := Some (map_of (("selected_group", JString selectedGroup)
                               :: ("channel_id", JNumber (float_of_int channelID)) :: source_entries meta)) |}
  | None => ctx
  end.

Definition AppendChannelAffinityAdminInfo (ctx : AffinityCtx) (adminInfo : list (string * json)) : list (string * json) :=
  match ctx_logInfo ctx with Some info => put_field "channel_affinity" (JObject info) adminInfo | None => adminInfo end.

Definition RecordChannelAffinity (ctx : AffinityCtx) (channelID : Z) : M (HybridState Z) unit :=
  if (channelID <=? 0) || negb (Enabled setting) then ret tt
  else
    let channelID := if SwitchOnSuccess setting && (0 <? ctx_int ctx "channel_id") then ctx_int ctx "channel_id" else channelID in
    match getChannelAffinityContext ctx with
    | None => ret tt
    | Some (cacheKey, ttl) =>
        let ttl := if ttl <=? 0 then DefaultTTLSeconds setting else ttl in
        let ttl := if ttl <=? 0 then 3600 else ttl in
        do! attempt (SetWithTTL getChannelAffinityCache cacheKey channelID (wrap64 (ttl * Second))) in ret tt
    end.

(** ** Templates *)

Definition extractParamOperations (value : option json) : option (list json) :=
  match value with Some (JArray ops) => Some ops | _ => None end.

Definition merge_entry (out : list (string * json)) (kv : string * json) : list (string * json) :=
  let rest := match lookup_field kv.1 out with Some _ => out | None => put_field kv.1 kv.2 out end in
  if is_operations_key (TrimSpace kv.1) then
    match extractParamOperations (Some kv.2) with
    | Some tplOps => put_field kv.1 (JArray (tplOps ++ default [] (extractParamOperations (lookup_field kv.1 out)))) out
    | None => rest
    end
  else rest.

Definition mergeChannelOverride (base tpl : list (string * json)) : list (string * json) :=
  match tpl with [] => base | _ => foldl merge_entry base (range_map tpl) end.

Definition appendChannelAffinityTemplateAdminInfo (ctx : AffinityCtx) (meta : channelAffinityMeta) : AffinityCtx :=
  match ParamTemplate meta with
  | [] => ctx
  | tpl =>
      let templateInfo := JObject (map_of [("applied", JBool true); ("rule_name", JString (RuleName meta));
                                   ("param_override_keys", JNumber (float_of_int (Z.of_nat (length tpl))))]) in
      let info := match ctx_logInfo ctx with Some info => info | None => map_of (source_entries meta) end in
      {| ctx with ctx_logInfo := Some (put_field "override_template" templateInfo info) |}
  end.

Definition ApplyChannelAffinityOverrideTemplate (ctx : AffinityCtx) (paramOverride : list (string * json))
    : list (string * json) * AffinityCtx :=
  match ctx_meta ctx with
  | None => (paramOverride, ctx)
  | Some meta =>
      match ParamTemplate meta with
      | [] => (paramOverride, ctx)
      | tpl => (mergeChannelOverride paramOverride tpl, appendChannelAffinityTemplateAdminInfo ctx meta)
      end
  end.

(** ** Administration *)

Record ChannelAffinityCacheStats : Type := mkCacheStats {
  cs_Enabled : bool; cs_Total : Z; cs_Unknown : Z; cs_ByRuleName : gmap string Z; cs_CacheCapacity : Z; cs_CacheAlgo : string }.

(** The rules that can be told from a key; of two with one name the later counts. *)
Definition rule_by_name (rules : list ChannelAffinityRule) : gmap string ChannelAffinityRule :=
  foldl (λ m r, if bool_decide (TrimSpace (Name r) = "") || negb (IncludeRuleName r) then m else <[TrimSpace (Name r) := r]> m) ∅ rules.

(** The rule a key of the cache counts for. *)
Definition key_rule (byName : gmap string ChannelAffinityRule) (k : string) : option string :=
  let prefix := channelAffinityCacheNamespace +:+ ":" in
  if negb (HasPrefix k prefix) then None
  else
    match Split (TrimPrefix k prefix) ":" with
    | ruleName :: ((_ :: _) as parts) =>
        rule ← byName !! ruleName;
        let n := S (length parts) in
        if IncludeModelName rule && Nat.ltb n 3 then None
        else if IncludeUsingGroup rule && Nat.ltb n (if IncludeModelName rule then 4 else 3) then None
        else Some ruleName
    | _ => None
    end.

Definition listed_keys : M (HybridState Z) (list string) :=
  let! keys := attempt (HybridCache.Keys getChannelAffinityCache) in
  ret (match keys with Ok keys => keys | Err _ => [] end).

Definition GetChannelAffinityCacheStats : M (HybridState Z) ChannelAffinityCacheStats :=
  let! keys := listed_keys in
  let byName := rule_by_name (Rules setting) in
  let counted := omap (key_rule byName) keys in
  ret (mkCacheStats (Enabled setting) (Z.of_nat (length keys)) (Z.of_nat (length keys) - Z.of_nat (length counted))
         (foldl (λ m name, alter (λ n, n + 1) name m) ((λ _, 0) <$> byName) counted)
         (Capacity getChannelAffinityCache) (Algorithm getChannelAffinityCache)).

Definition ClearChannelAffinityCacheAll : M (HybridState Z) Z :=
  let! keys := listed_keys in
  match keys with
  | [] => ret 0
  | _ => do! attempt (DeleteMany getChannelAffinityCache keys) in ret (Z.of_nat (length keys))
  end.

Definition ClearChannelAffinityCacheByRuleName (name : string) : M (HybridState Z) Z :=
  let ruleName := TrimSpace name in
  if bool_decide (ruleName = "") then fail (EText "rule_name 不能为空")
  else
    match List.find (λ r, String.eqb (TrimSpace (Name r)) ruleName) (Rules setting) with
    | None => fail (EText "未知规则名称")
    | Some r =>
        if negb (IncludeRuleName r) then fail (EText "该规则未启用 include_rule_name，无法按规则清空缓存")
        else DeleteByPrefix getChannelAffinityCache ruleName
    end.

(** [controller.ClearChannelAffinityCache]: the number deleted, or the message. *)
Definition ClearChannelAffinityCache (all ruleName : string) : M (HybridState Z) Z :=
  if bool_decide (TrimSpace all = "true") then ClearChannelAffinityCacheAll
  else if bool_decide (TrimSpace ruleName = "") then fail (EText "缺少参数：rule_name，或使用 all=true 清空全部")
  else ClearChannelAffinityCacheByRuleName (TrimSpace ruleName).

End affinity.

(** ** Statistics of cached tokens *)

Definition cacheTokenRateModeCachedOverPrompt : string := "cached_over_prompt".
Definition cacheTokenRateModeCachedOverPromptPlusCached : string := "cached_over_prompt_plus_cached".
Definition cacheTokenRateModeMixed : string := "mixed".

Record ChannelAffinityUsageCacheCounters : Type := mkCounters {
  CachedTokenRateMode : string;
  Hit : Z;
  Total : Z;
  WindowSeconds : Z;
  uc_PromptTokens : Z;
  uc_CompletionTokens : Z;
  uc_TotalTokens : Z;
  uc_CachedTokens : Z;
  uc_PromptCacheHitTokens : Z;
  LastSeenAt : Z;
}.
Definition zeroCounters : ChannelAffinityUsageCacheCounters := mkCounters "" 0 0 0 0 0 0 0 0 0.

Record ChannelAffinityStatsContext : Type := mkStatsContext {
  sc_RuleName : string; sc_UsingGroup : string; sc_KeyFingerprint : string; sc_TTLSeconds : Z }.

Definition GetChannelAffinityStatsContext {JT : JsonText} (ctx : AffinityCtx) : option ChannelAffinityStatsContext :=
  meta ← ctx_meta ctx;
  let ruleName := TrimSpace (RuleName meta) in
  let keyFp := TrimSpace (KeyFingerprint meta) in
  if bool_decide (ruleName = "") || bool_decide (keyFp = "") || (meta_TTLSeconds meta <=? 0) then None
  else Some (mkStatsContext ruleName (TrimSpace (UsingGroup meta)) keyFp (meta_TTLSeconds meta)).

Definition normalizeCachedTokenRateMode (mode : string) : string :=
  if bool_decide (mode ∈ [cacheTokenRateModeCachedOverPrompt; cacheTokenRateModeCachedOverPromptPlusCached; cacheTokenRateModeMixed])
  then mode else "".

(** The formats by their names. *)
Definition cachedTokenRateModeByRelayFormat (relayFormat : string) : string :=
  if bool_decide (relayFormat ∈ ["openai"; "openai_responses"; "openai_responses_compaction"]) then cacheTokenRateModeCachedOverPrompt
  else if bool_decide (relayFormat = "claude") then cacheTokenRateModeCachedOverPromptPlusCached
  else "".

Definition channelAffinityUsageCacheEntryKey (ruleName usingGroup keyFp : string) : string :=
  let newline := String "010"%char "" in
  if bool_decide (TrimSpace ruleName = "") || bool_decide (TrimSpace keyFp = "") then ""
  else TrimSpace ruleName +:+ newline +:+ TrimSpace usingGroup +:+ newline +:+ TrimSpace keyFp.

(** Whether there was a hit, the cached tokens and those the upstream says it hit. *)
Definition usageCacheSignals (usage : option Usage) : bool * Z * Z :=
  match usage with
  | None => (false, 0, 0)
  | Some u =>
      let cached :=
        if 0 <? CachedTokens (PromptTokensDetails u) then CachedTokens (PromptTokensDetails u)
        else match InputTokensDetails u with
             | Some d => if 0 <? CachedTokens d then CachedTokens d else 0
             | None => 0
             end in
      let pcht := if 0 <? PromptCacheHitTokens u then PromptCacheHitTokens u else 0 in
      ((0 <? cached) || (0 <? pcht), cached, pcht)
  end.

Definition usagePromptTokens (usage : option Usage) : Z :=
  match usage with None => 0 | Some u => if 0 <? PromptTokens u then PromptTokens u else InputTokens u end.
Definition usageCompletionTokens (usage : option Usage) : Z :=
  match usage with None => 0 | Some u => if 0 <? CompletionTokens u then CompletionTokens u else OutputTokens u end.
Definition usageTotalTokens (usage : option Usage) : Z :=
  match usage with
  | None => 0
  | Some u =>
      if 0 <? TotalTokens u then TotalTokens u
      else
        let pt := usagePromptTokens usage in
        let ct := usageCompletionTokens usage in
        if (0 <? pt) || (0 <? ct) then wrap64 (pt + ct) else 0
  end.

(** One observation added to the counters, at second [now]. *)
Definition observe (usage : option Usage) (mode : string) (windowSeconds now : Z) (prev : ChannelAffinityUsageCacheCounters)
    : ChannelAffinityUsageCacheCounters :=
  let currentMode := normalizeCachedTokenRateMode mode in
  let old := CachedTokenRateMode prev in
  let '(hit, cachedTokens, promptCacheHitTokens) := usageCacheSignals usage in
  mkCounters
    (if bool_decide (currentMode = "") then old
     else if bool_decide (old = "") then currentMode
     else if negb (String.eqb old currentMode) && negb (String.eqb old cacheTokenRateModeMixed) then cacheTokenRateModeMixed
     else old)
    (if hit then wrap64 (Hit prev + 1) else Hit prev)
    (wrap64 (Total prev + 1))
    windowSeconds
    (wrap64 (uc_PromptTokens prev + usagePromptTokens usage))
    (wrap64 (uc_CompletionTokens prev + usageCompletionTokens usage))
    (wrap64 (uc_TotalTokens prev + usageTotalTokens usage))
    (wrap64 (uc_CachedTokens prev + cachedTokens))
    (wrap64 (uc_PromptCacheHitTokens prev + promptCacheHitTokens))
    now.

Section statistics.
Context {JT : JsonText} {HC : HotCache ChannelAffinityUsageCacheCounters} {RS : RedisScan}.
(** [JSONCodec] of the counters. *)
Context {VC : ValueCodec ChannelAffinityUsageCacheCounters}.
Context (redis : bool).

Definition getChannelAffinityUsageCacheStatsCache : HybridCache := mkHybridCache channelAffinityUsageCacheStatsNamespace redis.

(** The lock of the entry is held from the read to the write. *)
Definition observeChannelAffinityUsageCache (statsCtx : ChannelAffinityStatsContext) (usage : option Usage) (mode : string)
    : M (HybridState ChannelAffinityUsageCacheCounters) unit :=
  let entryKey := channelAffinityUsageCacheEntryKey (sc_RuleName statsCtx) (sc_UsingGroup statsCtx) (sc_KeyFingerprint statsCtx) in
  let window := sc_TTLSeconds statsCtx in
  if bool_decide (entryKey = "") || (window <=? 0) then ret tt
  else
    let! prev := attempt (Get getChannelAffinityUsageCacheStatsCache entryKey) in
    match prev with
    | Err _ => ret tt
    | Ok prev =>
        let! now := gets (λ s, hc_now s / Second) in
        do! attempt (SetWithTTL getChannelAffinityUsageCacheStatsCache entryKey
                       (observe usage mode window now (default zeroCounters prev)) (wrap64 (window * Second))) in
        ret tt
    end.

Definition ObserveChannelAffinityUsageCacheFromContext (ctx : AffinityCtx) (usage : option Usage) (mode : string)
    : M (HybridState ChannelAffinityUsageCacheCounters) unit :=
  match GetChannelAffinityStatsContext ctx with
  | None => ret tt
  | Some statsCtx => observeChannelAffinityUsageCache statsCtx usage mode
  end.

Definition ObserveChannelAffinityUsageCacheByRelayFormat (ctx : AffinityCtx) (usage : option Usage) (relayFormat : string) :=
  ObserveChannelAffinityUsageCacheFromContext ctx usage (cachedTokenRateModeByRelayFormat relayFormat).

(** The counters of the entry, zero when there is none or the cache fails. *)
Definition GetChannelAffinityUsageCacheStats (ruleName usingGroup keyFp : string)
    : M (HybridState ChannelAffinityUsageCacheCounters) ChannelAffinityUsageCacheCounters :=
  let entryKey := channelAffinityUsageCacheEntryKey ruleName usingGroup keyFp in
  if bool_decide (entryKey = "") then ret zeroCounters
  else
    let! v := attempt (Get getChannelAffinityUsageCacheStatsCache entryKey) in
    ret (match v with Ok (Some v) => v | _ => zeroCounters end).

End statistics.
