(* ===== verification/Distributor.v ===== *)
(** * Distributor: the model a request asks for, and the channel that serves it

    Models [middleware/distributor.go] with [relay/constant/relay_mode.go] and the model
    names of [service/midjourney.go] and [service/task.go]: reading the model from the
    path or the body, the checks of the token, the choice of a channel through the
    affinity cache or by lot, what of the channel is put into the context of the request,
    and the record of a success.  Decoding bodies is the interface [BodyDecoder]; reading
    past the end of a slice is the error of Go's panic. *)

From Stdlib Require Import Ascii.
From stdpp Require Import sorting.
From S2P Require Export Affinity.
From S2P Require Export ChannelKeys.
From S2P Require MediaTask Pricing.
From S2P Require Import Prelude.

(** ** Relay modes ([relay_mode.go]) *)

Inductive relay_mode : Type :=
| RelayModeUnknown | RelayModeChatCompletions | RelayModeCompletions | RelayModeEmbeddings | RelayModeModerations
| RelayModeImagesGenerations | RelayModeImagesEdits | RelayModeEdits
| RelayModeMidjourneyImagine | RelayModeMidjourneyDescribe | RelayModeMidjourneyBlend | RelayModeMidjourneyChange
| RelayModeMidjourneySimpleChange | RelayModeMidjourneyNotify | RelayModeMidjourneyTaskFetch
| RelayModeMidjourneyTaskImageSeed | RelayModeMidjourneyTaskFetchByCondition | RelayModeMidjourneyAction
| RelayModeMidjourneyModal | RelayModeMidjourneyShorten | RelayModeSwapFace | RelayModeMidjourneyUpload
| RelayModeMidjourneyVideo | RelayModeMidjourneyEdits
| RelayModeAudioSpeech | RelayModeAudioTranscription | RelayModeAudioTranslation
| RelayModeSunoFetch | RelayModeSunoFetchByID | RelayModeSunoSubmit
| RelayModeVideoFetchByID | RelayModeVideoSubmit
| RelayModeRerank | RelayModeResponses | RelayModeRealtime | RelayModeGemini | RelayModeResponsesCompact.

#[export] Instance relay_mode_eq_dec : EqDecision relay_mode.
Proof. solve_decision. Defined.

(** A chain of conditions. *)
Fixpoint first_true (l : list (bool * relay_mode)) : relay_mode :=
  match l with [] => RelayModeUnknown | (b, mode) :: l => if b then mode else first_true l end.

Definition Path2RelayModeMidjourney (path : string) : relay_mode :=
  first_true
    [(HasSuffix path "/mj/submit/action", RelayModeMidjourneyAction);
     (HasSuffix path "/mj/submit/modal", RelayModeMidjourneyModal);
     (HasSuffix path "/mj/submit/shorten", RelayModeMidjourneyShorten);
     (HasSuffix path "/mj/insight-face/swap", RelayModeSwapFace);
     (HasSuffix path "/submit/upload-discord-images", RelayModeMidjourneyUpload);
     (HasSuffix path "/mj/submit/imagine", RelayModeMidjourneyImagine);
     (HasSuffix path "/mj/submit/video", RelayModeMidjourneyVideo);
     (HasSuffix path "/mj/submit/edits", RelayModeMidjourneyEdits);
     (HasSuffix path "/mj/submit/blend", RelayModeMidjourneyBlend);
     (HasSuffix path "/mj/submit/describe", RelayModeMidjourneyDescribe);
     (HasSuffix path "/mj/notify", RelayModeMidjourneyNotify);
     (HasSuffix path "/mj/submit/change", RelayModeMidjourneyChange);
     (HasSuffix path "/mj/submit/simple-change", RelayModeMidjourneyChange);
     (HasSuffix path "/fetch", RelayModeMidjourneyTaskFetch);
     (HasSuffix path "/image-seed", RelayModeMidjourneyTaskImageSeed);
     (HasSuffix path "/list-by-condition", RelayModeMidjourneyTaskFetchByCondition)].

Definition Path2RelayMode (path : string) : relay_mode :=
  first_true
    [(HasPrefix path "/v1/chat/completions" || HasPrefix path "/pg/chat/completions", RelayModeChatCompletions);
     (HasPrefix path "/v1/completions", RelayModeCompletions);
     (HasPrefix path "/v1/embeddings", RelayModeEmbeddings);
     (HasSuffix path "embeddings", RelayModeEmbeddings);
     (HasPrefix path "/v1/moderations", RelayModeModerations);
     (HasPrefix path "/v1/images/generations", RelayModeImagesGenerations);
     (HasPrefix path "/v1/images/edits", RelayModeImagesEdits);
     (HasPrefix path "/v1/edits", RelayModeEdits);
     (HasPrefix path "/v1/responses/compact", RelayModeResponsesCompact);
     (HasPrefix path "/v1/responses", RelayModeResponses);
     (HasPrefix path "/v1/audio/speech", RelayModeAudioSpeech);
     (HasPrefix path "/v1/audio/transcriptions", RelayModeAudioTranscription);
     (HasPrefix path "/v1/audio/translations", RelayModeAudioTranslation);
     (HasPrefix path "/v1/rerank", RelayModeRerank);
     (HasPrefix path "/v1/realtime", RelayModeRealtime);
     (HasPrefix path "/v1beta/models" || HasPrefix path "/v1/models", RelayModeGemini);
     (HasPrefix path "/mj", Path2RelayModeMidjourney path)].

Definition Path2RelaySuno (method path : string) : relay_mode :=
  first_true
    [(bool_decide (method = "POST") && HasSuffix path "/fetch", RelayModeSunoFetch);
     (bool_decide (method = "GET") && Contains path "/fetch/", RelayModeSunoFetchByID);
     (Contains path "/submit/", RelayModeSunoSubmit)].

(** ** Midjourney ([service/midjourney.go]) *)

Record MidjourneyRequest : Type := mkMidjourney {
  mj_Prompt : string;
  CustomId : string;
  BotType : string;
  NotifyHook : string;
  mj_Action : string;
  Index : Z;
  State : string;
  mj_TaskId : string;
  Base64Array : list string;
  mj_Content : string;
  MaskBase64 : string;
}.
Definition zeroMidjourney : MidjourneyRequest := mkMidjourney "" "" "" "" "" 0 "" "" [] "" "".

Definition panic_slice : error := EText "runtime error: slice bounds out of range".

Section midjourney.
Context {FM : Formatting}.

Definition CovertMjpActionToModelName (mjAction : string) : string :=
  if bool_decide (mjAction = "SWAP_FACE") then "swap_face" else "mj_" +:+ unicode_ToLower mjAction.

(** The action a button of the Plus interface stands for; an error is the description of
    the answer. *)
Definition CoverPlusActionToNormalAction (r : MidjourneyRequest) : result MidjourneyRequest :=
  let splits := Split (CustomId r) "::" in
  let set action index := Ok {| r with mj_Action := action; Index := index |} in
  let numbered action :=
    match splits !! 3%nat with
    | None => Err panic_range
    | Some n => match Atoi n with Some index => set action index | None => Err (EText "index_parse_failed") end
    end in
  if bool_decide (CustomId r = "") then Err (EText "custom_id_is_required")
  else
    match (s ← splits !! 1%nat; if bool_decide (s = "JOB") then splits !! 2%nat else Some s) with
    | None => Err panic_range
    | Some action =>
        if bool_decide (action = "") then Err (EText "unknown_action")
        else if Contains action "upsample" then numbered "UPSCALE"
        else if Contains action "variation" then
          if bool_decide (action = "variation") then numbered "VARIATION"
          else if bool_decide (action = "low_variation") then set "LOW_VARIATION" 1
          else if bool_decide (action = "high_variation") then set "HIGH_VARIATION" 1
          else set (mj_Action r) 1
        else if Contains action "pan" then set "PAN" 1
        else if Contains action "reroll" then set "REROLL" 1
        else if bool_decide (action = "Outpaint") then set "ZOOM" 1
        else if bool_decide (action = "CustomZoom") then set "CUSTOM_ZOOM" 1
        else if bool_decide (action = "Inpaint") then set "INPAINT" 1
        else Err (EText ("unknown_action:" +:+ CustomId r))
    end.

(** "taskId u1", "taskId v2" or "taskId r". *)
Definition ConvertSimpleChangeParams (content : string) : result (option MidjourneyRequest) :=
  match Split content " " with
  | [taskId; change] =>
      let action := unicode_ToLower change in
      let params name index := Ok (Some {| zeroMidjourney with mj_TaskId := taskId; mj_Action := name; Index := index |}) in
      let numbered name digits :=
        match digits with
        | EmptyString => Err panic_slice
        | String d _ =>
            match Atoi (String d "") with
            | Some index => if (index <? 1) || (4 <? index) then Ok None else params name index
            | None => Ok None
            end
        end in
      match action with
      | EmptyString => Err panic_range
      | String c digits =>
          if Ascii.eqb c "u" then numbered "UPSCALE" digits
          else if Ascii.eqb c "v" then numbered "VARIATION" digits
          else if bool_decide (action = "r") then params "REROLL" 0
          else Ok None
      end
  | _ => Ok None
  end.

(** The model; empty for requests that need none. *)
Definition GetMjRequestModel (mode : relay_mode) (r : MidjourneyRequest) : result string :=
  let named action := Ok (CovertMjpActionToModelName action) in
  match mode with
  | RelayModeMidjourneyAction =>
      match CoverPlusActionToNormalAction r with Ok r => named (mj_Action r) | Err e => Err e end
  | RelayModeMidjourneyImagine => named "IMAGINE"
  | RelayModeMidjourneyVideo => named "VIDEO"
  | RelayModeMidjourneyEdits => named "EDITS"
  | RelayModeMidjourneyDescribe => named "DESCRIBE"
  | RelayModeMidjourneyBlend => named "BLEND"
  | RelayModeMidjourneyShorten => named "SHORTEN"
  | RelayModeMidjourneyChange => named (mj_Action r)
  | RelayModeMidjourneyModal => named "MODAL"
  | RelayModeSwapFace => named "SWAP_FACE"
  | RelayModeMidjourneyUpload => named "UPLOAD"
  | RelayModeMidjourneySimpleChange =>
      match ConvertSimpleChangeParams (mj_Content r) with
      | Ok (Some params) => named (mj_Action params)
      | Ok None => Err (EText "invalid_request")
      | Err e => Err e
      end
  | RelayModeMidjourneyTaskFetch | RelayModeMidjourneyTaskFetchByCondition | RelayModeMidjourneyNotify => Ok ""
  | _ => Err (EText "unknown_relay_action")
  end.

Definition CoverTaskActionToModelName (platform action : string) : string :=
  unicode_ToLower platform +:+ "_" +:+ unicode_ToLower action.

End midjourney.

(** ** The request *)

Record ModelRequest : Type := mkModelRequest { Model : string; req_Group : string }.
(** [dto.PlayGroundRequest], the part read here. *)
Record PlayGroundRequest : Type := mkPlayGround { pg_Group : string }.

Class BodyDecoder {JT : JsonText} (A : Type) := {
  zero_value : A;
  from_json : Text -> result A;
  from_form : Text -> result A;
  from_multipart : Text -> result A;
}.

(** What is read of the request besides [AffinityCtx]: its method, the media type
    [c.ContentType()], the parameters of query and route and the body; and what the checks
    of the token have put into the context: the channel it is bound to, the models it is
    limited to ([None]: not limited) and the group in use. *)
Record Incoming {JT : JsonText} : Type := mkIncoming {
  in_method : string;
  in_mime : string;
  in_query : string -> string;
  in_param : string -> string;
  in_body : result Text;
  in_specificChannel : option string;
  in_modelLimit : option (option (list string));
  in_usingGroup : string;
}.

(** Values of the context of a request. *)
Inductive ctx_value : Type :=
| CString (s : string)
| CInt (z : Z)
| CBool (b : bool)
| CMode (mode : relay_mode)
| CMap (m : list (string * json)).
Abbreviation GinCtx := (gmap string ctx_value).

(** [c.Set] in the order of the code. *)
Definition set_keys (l : list (string * ctx_value)) (keys : GinCtx) : GinCtx := foldl (λ m kv, <[kv.1 := kv.2]> m) keys l.

Definition abort {S A} (status : Z) (message : string) : M S A := fail (EApi (EText message) "" status true true).

(** The tables and the index of channels, the affinity cache and the table of tasks. *)
Record DW {HZ : HotCache Z} : Type := mkDW { dw_cw : CW; dw_hc : HybridState Z; dw_tasks : gmap Z MediaTask.Task }.

Section distribute.
Context {JT : JsonText} {FM : Formatting} {AL : AffinityLibs}.
Context {BM : BodyDecoder ModelRequest} {BJ : BodyDecoder MidjourneyRequest} {BP : BodyDecoder PlayGroundRequest}.
Context {HZ : HotCache Z} {RS : RedisScan} {CC : ChannelConfig}.
(** [gjson.ValidBytes] *)
Context (gjson_Valid : Text -> bool).
Context (redis : bool) (setting : ChannelAffinitySetting).
Context (RetryTimes : Z) (crossGroupRetry : bool) (autoGroups userAutoGroups : list string).
Context (usableGroups : string -> gmap string string).

Definition on_cw {A} (m : M CW A) : M DW A := λ s, let '(r, w) := m (dw_cw s) in (r, mkDW _ w (dw_hc s) (dw_tasks s)).
Definition on_hc {A} (m : M (HybridState Z) A) : M DW A := λ s, let '(r, h) := m (dw_hc s) in (r, mkDW _ (dw_cw s) h (dw_tasks s)).

(** One database: the statements on tasks share the faults of those on channels. *)
#[export] Instance dw_store : Store DW := {|
  st_faults s := st_faults (dw_cw s);
  st_set_faults v s := mkDW _ (st_set_faults v (dw_cw s)) (dw_hc s) (dw_tasks s);
  st_rollback _ after := after;
|}.

(** ** Reading the model *)

Definition content_type (ctx : AffinityCtx) : string := ctx_header ctx "Content-Type".

(** [common.UnmarshalBodyReusable] of a body kept in memory. *)
Definition UnmarshalBodyReusable {A} {BD : BodyDecoder A} (inc : Incoming) (ctx : AffinityCtx) : result A :=
  match in_body inc with
  | Err e => Err e
  | Ok body =>
      if HasPrefix (content_type ctx) "application/json" then from_json body
      else if Contains (content_type ctx) "application/x-www-form-urlencoded" then from_form body
      else if Contains (content_type ctx) "multipart/form-data" then from_multipart body
      else Ok zero_value
  end.

Definition getJSONStringValue (res : option (gjson_Result Text)) (field : string) : result string :=
  match res with
  | None => Ok ""
  | Some r =>
      match gtype (r_Value r) with
      | GNull => Ok ""
      | GString => Ok (r_String r)
      | _ => Err (EText ("field " +:+ field +:+ " must be a string"))
      end
  end.

Definition getModelFromJSONBody (inc : Incoming) : result ModelRequest :=
  match in_body inc with
  | Err e => Err e
  | Ok body =>
      if negb (gjson_Valid body) then Err (EText "invalid JSON request body")
      else
        match getJSONStringValue (gjson_Get body "model") "model", getJSONStringValue (gjson_Get body "group") "group" with
        | Err e, _ => Err e
        | Ok _, Err e => Err e
        | Ok model, Ok group => Ok (mkModelRequest model group)
        end
  end.

Definition getModelFromRequest (inc : Incoming) (ctx : AffinityCtx) : result ModelRequest :=
  match (if HasPrefix (content_type ctx) "application/json" then getModelFromJSONBody inc else UnmarshalBodyReusable inc ctx) with
  | Ok r => Ok r
  | Err e => Err (EWrap "distributor.invalid_request" e)
  end.

(** The model named in the body, if it can be read. *)
Definition named_in_body (inc : Incoming) (ctx : AffinityCtx) (model : string) : string :=
  match getModelFromRequest inc ctx with
  | Ok r => if bool_decide (Model r = "") then model else Model r
  | Err _ => model
  end.

Definition GetStringIfEmpty (str defaultValue : string) : string := if bool_decide (str = "") then defaultValue else str.

Definition extractModelNameFromGeminiPath (path : string) : string :=
  match Cut path "/models/" with
  | None => ""
  | Some (_, rest) => match Cut rest ":" with Some (model, _) => model | None => rest end
  end.

(** [model.GetByTaskId]: the row with the smallest id. *)
Definition GetByTaskId (userId : Z) (taskId : string) : M DW (option MediaTask.Task) :=
  if bool_decide (taskId = "") then ret None
  else select (λ s, head (merge_sort MediaTask.id_below
         (List.filter (λ t, (MediaTask.UserId t =? userId) && String.eqb (MediaTask.TaskID t) taskId) (map_to_list (dw_tasks s)).*2))).

Definition getTaskOriginModelName (inc : Incoming) (ctx : AffinityCtx) : M DW string :=
  match in_modelLimit inc with
  | None => ret ""
  | Some _ =>
      let taskId := GetStringIfEmpty (in_param inc "task_id") (ctx_string ctx "task_id") in
      if bool_decide (taskId = "") then ret ""
      else
        let! task := attempt (GetByTaskId (ctx_int ctx "id") taskId) in
        ret (match task with Ok (Some t) => MediaTask.OriginModelName (MediaTask.Props t) | _ => "" end)
  end.

(** The model by the kind of the path, whether a channel is needed, and the context. *)
Definition model_by_path (inc : Incoming) (ctx : AffinityCtx) (keys : GinCtx) : M DW (string * bool * GinCtx) :=
  let path := ctx_path ctx in
  let method := in_method inc in
  if Contains path "/mj/" then
    let mode := Path2RelayModeMidjourney path in
    let keys' := set_keys [("relay_mode", CMode mode)] keys in
    if bool_decide (mode ∈ [RelayModeMidjourneyTaskFetch; RelayModeMidjourneyTaskFetchByCondition;
                            RelayModeMidjourneyNotify; RelayModeMidjourneyTaskImageSeed]) then ret ("", false, keys')
    else
      let! r := map_err (EWrap "distributor.invalid_midjourney") (lift_result (UnmarshalBodyReusable inc ctx)) in
      let! model := lift_result (GetMjRequestModel mode r) in
      ret (model, negb (bool_decide (model = "")), keys')
  else if Contains path "/suno/" then
    let mode := Path2RelaySuno method path in
    let keys' := set_keys [("platform", CString "suno"); ("relay_mode", CMode mode)] keys in
    if bool_decide (mode = RelayModeSunoFetch) || bool_decide (mode = RelayModeSunoFetchByID) then ret ("", false, keys')
    else ret (CoverTaskActionToModelName "suno" (in_param inc "action"), true, keys')
  else if Contains path "/v1/videos/" && HasSuffix path "/remix" then
    ret ("", false, set_keys [("relay_mode", CMode RelayModeVideoSubmit)] keys)
  else if Contains path "/v1/videos" || Contains path "/v1/video/generations" then
    let videos := Contains path "/v1/videos" in
    let set mode := if videos || bool_decide (keys !! "relay_mode" = None) then set_keys [("relay_mode", CMode mode)] keys else keys in
    if bool_decide (method = "POST") then
      let! r := lift_result (getModelFromRequest inc ctx) in ret (Model r, true, set RelayModeVideoSubmit)
    else if bool_decide (method = "GET") then
      let! model := getTaskOriginModelName inc ctx in ret (model, false, set RelayModeVideoFetchByID)
    else ret ("", true, set RelayModeUnknown)
  else if HasPrefix path "/v1beta/models/" || HasPrefix path "/v1/models/" then
    ret (extractModelNameFromGeminiPath path, true, set_keys [("relay_mode", CMode RelayModeGemini)] keys)
  else if negb (HasPrefix path "/v1/audio/transcriptions") && negb (Contains (content_type ctx) "multipart/form-data") then
    let! r := lift_result (getModelFromRequest inc ctx) in ret (Model r, true, keys)
  else ret ("", true, keys).

(** The names that paths imply. *)
Definition model_defaults (inc : Incoming) (ctx : AffinityCtx) (model : string) : string :=
  let path := ctx_path ctx in
  let model := if HasPrefix path "/v1/realtime" then in_query inc "model" else model in
  let model := if HasPrefix path "/v1/moderations" then GetStringIfEmpty model "text-moderation-stable" else model in
  let model := if HasSuffix path "embeddings" then GetStringIfEmpty model (in_param inc "model") else model in
  if HasPrefix path "/v1/images/generations" then GetStringIfEmpty model "dall-e"
  else if HasPrefix path "/v1/images/edits"
          && bool_decide (in_mime inc ∈ ["application/x-www-form-urlencoded"; "multipart/form-data"])
  then named_in_body inc ctx model
  else model.

Definition audio_model (inc : Incoming) (ctx : AffinityCtx) (model : string) (keys : GinCtx) : string * GinCtx :=
  let path := ctx_path ctx in
  let set mode := set_keys [("relay_mode", CMode mode)] keys in
  if negb (HasPrefix path "/v1/audio") then (model, keys)
  else if HasPrefix path "/v1/audio/speech" then (GetStringIfEmpty model "tts-1", set RelayModeAudioSpeech)
  else if HasPrefix path "/v1/audio/translations" then
    (GetStringIfEmpty (named_in_body inc ctx model) "whisper-1", set RelayModeAudioTranslation)
  else if HasPrefix path "/v1/audio/transcriptions" then
    (GetStringIfEmpty (named_in_body inc ctx model) "whisper-1", set RelayModeAudioTranscription)
  else (model, set RelayModeAudioSpeech).

Definition getModelRequest (inc : Incoming) (ctx : AffinityCtx) (keys : GinCtx) : M DW (string * bool * GinCtx) :=
  let path := ctx_path ctx in
  let! r := model_by_path inc ctx keys in
  let '(model, shouldSelectChannel, keys) := r in
  let '(model, keys) := audio_model inc ctx (model_defaults inc ctx model) keys in
  let! r :=
    (if HasPrefix path "/pg/chat/completions" then
       let! r := lift_result (getModelFromRequest inc ctx) in
       ret (Model r, set_keys [("token_group", CString (req_Group r))] keys)
     else ret (model, keys)) in
  let '(model, keys) := r in
  ret (if HasPrefix path "/v1/responses/compact" && negb (bool_decide (model = ""))
       then Pricing.WithCompactModelSuffix model else model, shouldSelectChannel, keys).

(** ** The choice of a channel *)

Definition channelSupportsRequestPath (channel : Channel) (requestPath : string) : bool :=
  if negb (Type_ channel =? ChannelTypeAdvancedCustom) then true
  else match AdvancedCustom channel with Some config => SupportsPath config requestPath | None => false end.

(** The first group in which the channel serves the model. *)
Fixpoint first_enabled (groups : list string) (model : string) (id : Z) : M CW (option string) :=
  match groups with
  | [] => ret None
  | g :: groups =>
      let! ok := IsChannelEnabledForGroupModel g model id in
      if (ok : bool) then ret (Some g) else first_enabled groups model id
  end.

(** The preferred channel and the group it serves in, when it can be used. *)
Definition usable_preferred (ctx : AffinityCtx) (model usingGroup : string) (id : Z) : M CW (option (Channel * string)) :=
  let! preferred := attempt (CacheGetChannel id) in
  match preferred with
  | Ok c =>
      if (Status c =? ChannelStatusEnabled) && channelSupportsRequestPath c (ctx_path ctx) then
        let! g := first_enabled (if bool_decide (usingGroup = "auto") then userAutoGroups else [usingGroup]) model (Id c) in
        ret (option_map (pair c) g)
      else ret None
  | Err _ => ret None
  end.

Definition preferred_channel (ctx : AffinityCtx) (model usingGroup : string) : M DW (option (Channel * string) * AffinityCtx) :=
  let! r := on_hc (GetPreferredChannelByAffinity redis setting ctx model usingGroup) in
  let '(found, ctx) := r in
  match found with
  | None => ret (None, ctx)
  | Some id =>
      let! usable := on_cw (usable_preferred ctx model usingGroup id) in
      match usable with
      | Some (c, g) => ret (Some (c, g), MarkChannelAffinityUsed ctx g (Id c))
      | None =>
          if ShouldKeepChannelAffinityOnChannelDisabled setting then ret (None, ctx)
          else let! cleared := on_hc (ClearCurrentChannelAffinityCache redis ctx) in ret (None, cleared.2)
      end
  end.

(** The group of a playground request, if the user may use it. *)
Definition playground_group (inc : Incoming) (ctx : AffinityCtx) : M DW string :=
  if negb (HasPrefix (ctx_path ctx) "/pg/chat/completions") then ret (in_usingGroup inc)
  else
    match UnmarshalBodyReusable inc ctx with
    | Err e => abort 400 (Error e)
    | Ok r =>
        let g := pg_Group r in
        if bool_decide (g = "") then ret (in_usingGroup inc)
        else if negb (bool_decide (is_Some (usableGroups (in_usingGroup inc) !! g))) && negb (bool_decide (g = in_usingGroup inc))
        then abort 403 "distributor.group_access_denied"
        else ret g
    end.

(** [sel] is [GetRandomSatisfiedChannel] for the model and the request's path. *)
Definition select_channel (sel : string -> string -> Z -> found) (model : string) (inc : Incoming) (ctx : AffinityCtx)
    : M DW (Channel * string * AffinityCtx) :=
  do! fail_if (bool_decide (model = "")) (EApi (EText "distributor.model_name_required") "" 400 true true) in
  let! usingGroup := playground_group inc ctx in
  let! r := preferred_channel ctx model usingGroup in
  match r with
  | (Some (c, g), ctx) => ret (c, g, ctx)
  | (None, ctx) =>
      match CacheGetRandomSatisfiedChannel RetryTimes crossGroupRetry autoGroups userAutoGroups (sel model)
              (mkRetryParam usingGroup (Some 0) false) (mkAutoCtx None None None) with
      | (_, _, Some e, _, _) => abort 503 (Error e)
      | (None, _, None, _, _) => abort 503 "distributor.no_available_channel"
      | (Some c, g, None, _, _) => ret (c, g, ctx)
      end
  end.

(** The models a token is limited to. *)
Definition check_model_limit (model : string) (inc : Incoming) : M DW unit :=
  match in_modelLimit inc with
  | None => ret tt
  | Some None => abort 403 "distributor.token_no_model_access"
  | Some (Some models) =>
      if bool_decide (FormatMatchingModelName model ∈ models) then ret tt else abort 403 "distributor.token_model_forbidden"
  end.

(** The channel is [None] when the request needs none; the group is empty when the token is
    bound to a channel. *)
Definition chosen_channel (sel : string -> string -> Z -> found) (inc : Incoming) (ctx : AffinityCtx) (keys : GinCtx)
    : M DW (option Channel * string * string * AffinityCtx * GinCtx) :=
  let! read := attempt (getModelRequest inc ctx keys) in
  match read with
  | Err e => if is_panic e then fail e else abort 400 (Error e)
  | Ok (model, shouldSelectChannel, keys) =>
      match in_specificChannel inc with
      | Some channelId =>
          match Atoi channelId with
          | None => abort 400 "distributor.invalid_channel_id"
          | Some id =>
              let! channel := on_cw (attempt (GetChannelById id)) in
              match channel with
              | Err _ => abort 400 "distributor.invalid_channel_id"
              | Ok c =>
                  if negb (Status c =? ChannelStatusEnabled) then abort 403 "distributor.channel_disabled"
                  else ret (Some c, "", model, ctx, keys)
              end
          end
      | None =>
          do! check_model_limit model inc in
          if negb shouldSelectChannel then ret (None, "", model, ctx, keys)
          else let! r := select_channel sel model inc ctx in let '(c, g, ctx) := r in ret (Some c, g, model, ctx, keys)
      end
  end.

(** After the handlers, when the answer's status is below 400. *)
Definition after_success (ctx : AffinityCtx) (channel : Channel) (status : Z) : M DW unit :=
  if status <? 400 then on_hc (RecordChannelAffinity redis setting ctx (Id channel)) else ret tt.

(** ** The channel in the context *)

Definition ChannelBaseURLs : list string :=
  [""; "https://api.openai.com"; "https://oa.api2d.net"; "";
   "http://localhost:11434"; "https://api.openai-sb.com"; "https://api.openaimax.com"; "https://api.ohmygpt.com";
   ""; "https://api.caipacity.com"; "https://api.aiproxy.io"; "";
   "https://api.api2gpt.com"; "https://api.aigc2d.com"; "https://api.anthropic.com"; "https://aip.baidubce.com";
   "https://open.bigmodel.cn"; "https://dashscope.aliyuncs.com"; ""; "https://api.360.cn";
   "https://openrouter.ai/api"; "https://api.aiproxy.io"; "https://fastgpt.run/api/openapi"; "https://hunyuan.tencentcloudapi.com";
   "https://generativelanguage.googleapis.com"; "https://api.moonshot.cn"; "https://open.bigmodel.cn"; "https://api.perplexity.ai";
   ""; ""; ""; "https://api.lingyiwanwu.com";
   ""; ""; "https://api.cohere.ai"; "https://api.minimax.chat";
   ""; "https://api.dify.ai"; "https://api.jina.ai"; "https://api.cloudflare.com";
   "https://api.siliconflow.cn"; ""; "https://api.mistral.ai"; "https://api.deepseek.com";
   "https://api.moka.ai"; "https://ark.cn-beijing.volces.com"; "https://qianfan.baidubce.com"; "";
   "https://api.x.ai"; "https://api.coze.cn"; "https://api.klingai.com"; "https://visual.volcengineapi.com";
   "https://api.vidu.cn"; "https://llm.submodel.ai"; "https://ark.cn-beijing.volces.com"; "https://api.openai.com";
   "https://api.replicate.com"; "https://chatgpt.com"; ""].

(** The columns of a channel that selection does not need; the JSON columns are decoded,
    and the two with settings, which are only handed on, are left as text. *)
Record ChannelColumns : Type := mkColumns {
  OpenAIOrganization : option string;
  CreatedTime : Z;
  BaseURL : option string;
  Other : string;
  ModelMapping : option string;
  StatusCodeMapping : option string;
  Setting : string;
  OtherSettings : string;
  ParamOverride : list (string * json);
  HeaderOverride : list (string * json);
}.

(** A type outside the table panics. *)
Definition GetBaseURL (c : Channel) (cols : ChannelColumns) : result string :=
  match BaseURL cols with
  | None => Ok ""
  | Some url =>
      if negb (bool_decide (url = "")) then Ok url
      else if Type_ c <? 0 then Err panic_range
      else match ChannelBaseURLs !! Z.to_nat (Type_ c) with Some url => Ok url | None => Err panic_range end
  end.

(** The key under which [Other] is kept, by the type of the channel. *)
Definition other_key (type : Z) : option string :=
  if bool_decide (type ∈ [3; 18; 24; 39; 44]) then Some "api_version"
  else if type =? 41 then Some "region"
  else if type =? 17 then Some "plugin"
  else if type =? 49 then Some "bot_id"
  else None.

(** What is set before a key is chosen. *)
Definition channel_keys (c : Channel) (cols : ChannelColumns) (paramOverride : list (string * json)) : list (string * ctx_value) :=
  [("channel_id", CInt (Id c)); ("channel_name", CString (Name c)); ("channel_type", CInt (Type_ c));
   ("channel_create_time", CInt (CreatedTime cols)); ("channel_setting", CString (Setting cols));
   ("channel_other_setting", CString (OtherSettings cols));
   ("param_override", CMap paramOverride); ("header_override", CMap (HeaderOverride cols))]
  ++ match OpenAIOrganization cols with
     | Some org => if bool_decide (org = "") then [] else [("channel_organization", CString org)]
     | None => []
     end
  ++ [("auto_ban", CBool (GetAutoBan c)); ("model_mapping", CString (default "" (ModelMapping cols)));
      ("status_code_mapping", CString (default "" (StatusCodeMapping cols)))].

(** What is set after. *)
Definition key_keys (c : Channel) (cols : ChannelColumns) (key : string) (index : Z) (url : string) : list (string * ctx_value) :=
  (if IsMultiKey (Info c) then [("channel_is_multi_key", CBool true); ("channel_multi_key_index", CInt index)]
   else [("channel_is_multi_key", CBool false)])
  ++ [("channel_key", CString key); ("base_url", CString url); ("system_prompt_override", CBool false)]
  ++ match other_key (Type_ c) with Some k => [(k, CString (Other cols))] | None => [] end.

(** The error it returns, and the context it leaves. *)
Definition SetupContextForSelectedChannel (Intn : Z -> Z) (columns : Z -> ChannelColumns) (channel : option Channel)
    (modelName : string) (ctx : AffinityCtx) (keys : GinCtx) : M CW (option error * AffinityCtx * GinCtx) :=
  let keys := set_keys [("original_model", CString modelName)] keys in
  match channel with
  | None => ret (Some (NewError_skipRetry (EText "channel is nil") ErrorCodeGetChannelFailed), ctx, keys)
  | Some c =>
      let cols := columns (Id c) in
      let '(paramOverride, ctx) := ApplyChannelAffinityOverrideTemplate ctx (ParamOverride cols) in
      let keys := set_keys (channel_keys c cols paramOverride) keys in
      let! next := attempt (GetNextEnabledKey Intn c) in
      match next with
      | Err e => ret (Some e, ctx, keys)
      | Ok (key, index) =>
          let! url := lift_result (GetBaseURL c cols) in
          ret (None, ctx, set_keys (key_keys c cols key index url) keys)
      end
  end.

(** [c.GetInt] and [c.GetString] see the context. *)
Definition see_keys (keys : GinCtx) (ctx : AffinityCtx) : AffinityCtx :=
  {| ctx with ctx_int := λ k, match keys !! k with Some (CInt z) => z | _ => ctx_int ctx k end;
              ctx_string := λ k, match keys !! k with Some (CString s) => s | _ => ctx_string ctx k end |}.

(** [next] is [c.Next()]: the status of the answer and the context the handlers leave. *)
Definition Distribute (sel : string -> string -> Z -> found) (Intn : Z -> Z) (columns : Z -> ChannelColumns)
    (next : AffinityCtx -> GinCtx -> M DW (Z * AffinityCtx)) (inc : Incoming) (ctx : AffinityCtx) (keys : GinCtx) : M DW unit :=
  let! chosen := chosen_channel sel inc ctx keys in
  let '(channel, _, model, ctx, keys) := chosen in
  let! prepared := on_cw (SetupContextForSelectedChannel Intn columns channel model ctx keys) in
  let '(_, ctx, keys) := prepared in
  let! answer := next (see_keys keys ctx) keys in
  let '(status, ctx) := answer in
  match channel with Some c => after_success ctx c status | None => ret tt end.

End distribute.
