(* ===== verification/AffinityProps.v ===== *)
(** * AffinityProps: clients come back to their channel, and only to one they may use

    What a success records is found by the next request with the same key; keys of
    different rules and clients differ; clearing a rule forgets its keys; a template's
    rules run before the channel's own; and whatever the cache holds, a chosen channel
    serves the group, the model and the path of the request. *)

From Stdlib Require Import Ascii.
From S2P Require Import SelectProps.
From S2P Require Import OverrideExact.
From S2P Require Export Distributor.
From S2P Require Export HybridProps.
From S2P Require Import Prelude.

(** ** Keys *)

Lemma affinity_ns : proper_ns channelAffinityCacheNamespace = true ∧ glob_literal (ns_prefix channelAffinityCacheNamespace) = true.
Proof. by vm_compute. Qed.

(** A key without space or a colon at its start, which is no full key itself. *)
Definition tidy_key (suffix : string) : bool :=
  String.eqb (TrimSpace suffix) suffix && negb (String.eqb suffix "") && negb (HasPrefix suffix ":")
  && negb (HasPrefix suffix (channelAffinityCacheNamespace +:+ ":")).

Lemma TrimLeft_none s : HasPrefix s ":" = false -> TrimLeft s ":"%char = s.
Proof. destruct s as [|c s]; [done|]. rewrite HasPrefix_head. simpl. destruct (Ascii.eqb c ":"); [by destruct s|done]. Qed.

Lemma full_key_tidy suffix : tidy_key suffix = true ->
  FullKey channelAffinityCacheNamespace suffix = channelAffinityCacheNamespace +:+ ":" +:+ suffix.
Proof.
  unfold tidy_key. rewrite !andb_true_iff, !negb_true_iff. intros (((Ht%String.eqb_eq & Hne%String.eqb_neq) & Hc) & Hp).
  unfold FullKey. change (ns_prefix channelAffinityCacheNamespace) with (channelAffinityCacheNamespace +:+ ":").
  rewrite Ht, bool_decide_eq_false_2 by done. rewrite bool_decide_eq_false_2 by done. rewrite Hp, TrimLeft_none by done.
  by rewrite append_assoc.
Qed.

(** The key a success is recorded under is the one the next request looks up. *)
Lemma full_key_recorded suffix : tidy_key suffix = true ->
  FullKey channelAffinityCacheNamespace (channelAffinityCacheNamespace +:+ ":" +:+ suffix) = channelAffinityCacheNamespace +:+ ":" +:+ suffix.
Proof. intros H. rewrite <- (full_key_tidy suffix H). apply full_key_idem, affinity_ns. Qed.

(** *** Parts of keys *)

Lemma join_snoc_inj ps qs v w :
  length ps = length qs -> Forall (λ s, lacks ":" s = true) ps -> Forall (λ s, lacks ":" s = true) qs ->
  GoString.Join (ps ++ [v]) ":" = GoString.Join (qs ++ [w]) ":" -> ps = qs ∧ v = w.
Proof.
  revert qs. induction ps as [|p ps IH]; intros [|q qs] Hl Hp Hq; try done.
  apply Forall_cons in Hp as [Hp Hps]. apply Forall_cons in Hq as [Hq Hqs]. simpl app.
  assert (∀ a l x, GoString.Join (a :: l ++ [x]) ":" = a +:+ String ":" (GoString.Join (l ++ [x]) ":")) as Hj.
  { intros a [|b l] x; simpl; by rewrite string_cons_app, string_nil_app. }
  rewrite !Hj. intros E. apply (f_equal (λ s, Cut s ":")) in E. rewrite !Cut_app in E by done. injection E as -> E.
  injection Hl as Hl. by destruct (IH qs Hl Hps Hqs E) as [-> ->].
Qed.

Definition affinity_parts (rule : ChannelAffinityRule) (model group : string) : list string :=
  let part (b : bool) s := if b && negb (bool_decide (s = "")) then [s] else [] in
  part (IncludeRuleName rule) (Affinity.Name rule) ++ part (IncludeModelName rule) model ++ part (IncludeUsingGroup rule) group.

Lemma key_of_parts rule model group v :
  buildChannelAffinityCacheKeySuffix rule model group v = GoString.Join (affinity_parts rule model group ++ [v]) ":".
Proof. unfold buildChannelAffinityCacheKeySuffix, affinity_parts. by rewrite !app_assoc. Qed.

(** Names that can be parts of a key. *)
Definition key_name (s : string) : bool := negb (String.eqb s "") && lacks ":" s.

(** Requests under one rule, or under rules that put their names into the key, have the
    same key only if all that the key includes is the same. *)
Lemma affinity_keys_apart r1 r2 m1 m2 g1 g2 v1 v2 :
  IncludeRuleName r1 = IncludeRuleName r2 -> IncludeModelName r1 = IncludeModelName r2 -> IncludeUsingGroup r1 = IncludeUsingGroup r2 ->
  forallb key_name [Affinity.Name r1; Affinity.Name r2; m1; m2; g1; g2] = true ->
  buildChannelAffinityCacheKeySuffix r1 m1 g1 v1 = buildChannelAffinityCacheKeySuffix r2 m2 g2 v2 ->
  (IncludeRuleName r1 = true -> Affinity.Name r1 = Affinity.Name r2) ∧ (IncludeModelName r1 = true -> m1 = m2) ∧
  (IncludeUsingGroup r1 = true -> g1 = g2) ∧ v1 = v2.
Proof.
  intros E1 E2 E3 Hn. rewrite !key_of_parts. unfold affinity_parts. rewrite <- E1, <- E2, <- E3.
  simpl in Hn. unfold key_name in Hn. rewrite !andb_true_iff, !negb_true_iff, !String.eqb_neq in Hn. destruct_and!.
  rewrite !(bool_decide_eq_false_2 (_ = "")) by done. rewrite !andb_true_r.
  intros [Hp ->]%join_snoc_inj.
  - destruct (IncludeRuleName r1), (IncludeModelName r1), (IncludeUsingGroup r1); simplify_eq/=; done.
  - by destruct (IncludeRuleName r1), (IncludeModelName r1), (IncludeUsingGroup r1).
  - destruct (IncludeRuleName r1), (IncludeModelName r1), (IncludeUsingGroup r1); by repeat constructor.
  - destruct (IncludeRuleName r1), (IncludeModelName r1), (IncludeUsingGroup r1); by repeat constructor.
Qed.

(** ** Coming back *)

Section sticky.
Context {JT : JsonText} {FM : Formatting} {AL : AffinityLibs}.
Context {HZ : HotCache Z} {RS : RedisScan} {HL : HotLaws Z} {SL : ScanLaws}.
Context (setting : ChannelAffinitySetting).

(** What other requests do to the cache meanwhile, leaving a key alone. *)
Fixpoint run_state (c : HybridCache) (ops : list cache_op) (s : HybridState Z) : HybridState Z :=
  match ops with [] => s | o :: ops => run_state c ops (run_op c o s).2 end.
Definition untouched (c : HybridCache) (key : string) (o : cache_op (V := Z)) : Prop :=
  match o with
  | OpSet k _ _ => FullKey (ns c) k ≠ key
  | OpDelete keys => key ∉ full_keys c keys
  | OpDeletePrefix prefix => HasPrefix key (full_prefix c prefix) = false
  | OpPurge => False
  | OpGet _ | OpWait _ => True
  end.
Definition waited (o : cache_op (V := Z)) : Z := match o with OpWait d => d | _ => 0 end.
Definition total_wait (ops : list (cache_op (V := Z))) : Z := foldr (λ o n, waited o + n) 0 ops.

Lemma without_keeps (p : string -> bool) (t : table Z) key : p key = false -> without p t !! key = t !! key.
Proof. intros Hp. unfold without. rewrite map_lookup_filter. destruct (t !! key); [|done]. simpl. by rewrite option_guard_True. Qed.

Lemma spec_untouched c key r o now (t t' : table Z) x :
  untouched c key o -> spec_after c r o now t t' -> t !! key = Some x -> t' !! key = Some x.
Proof.
  intros Ho Hspec Hx. assert (spec_op c o now t !! key = t !! key) as Hop.
  2: { destruct r as [r|]; [by rewrite Hspec, Hop|]. destruct Hspec as (p & Hp & ->). rewrite without_keeps; [done|].
       destruct (p key) eqn:E; [|done]. apply Hp in E. congruence. }
  clear Hspec Hx. pose proof (λ p, without_keeps p t key) as Hw.
  destruct o as [k|k v ttl|keys|prefix| |d]; simpl in *; try done.
  - case_bool_decide; [done|]. by rewrite lookup_insert_ne.
  - apply Hw. by apply bool_decide_eq_false.
  - case_bool_decide; [done|]. by apply Hw.
Qed.

Lemma run_keeps c ops s t key x :
  proper_ns (ns c) = true -> glob_literal (ns_prefix (ns c)) = true ->
  represents c s t -> Forall (proper_op c) ops -> Forall (untouched c key) ops -> t !! key = Some x ->
  ∃ t', represents c (run_state c ops s) t' ∧ t' !! key = Some x ∧ hc_now (run_state c ops s) = hc_now s + total_wait ops.
Proof.
  intros Hns Hg. revert s t. induction ops as [|o ops IH]; intros s t Hrep Hp Hu Hx.
  { exists t. simpl. split_and!; [done..|lia]. }
  apply Forall_cons in Hp as [Ho Hp]. apply Forall_cons in Hu as [Huo Hu]. simpl.
  pose proof (step_refines c Hns Hg o s t Hrep Ho) as Hs. destruct (run_op c o s) as [r s1]. destruct Hs as (t1 & H0 & H1 & H2 & _). simpl.
  destruct (IH s1 _ H1 Hp Hu) as (t' & Ht' & Hx' & Hn); [by eapply spec_untouched|].
  exists t'. split_and!; [done..|]. rewrite Hn, H2. destruct o; simpl; lia.
Qed.

Lemma total_wait_nonneg c ops : Forall (proper_op c) ops -> 0 <= total_wait ops.
Proof. induction 1 as [|o ops Ho _ IH]; simpl; [done|]. destruct o; simpl in *; lia. Qed.

(** The time a success is remembered. *)
Definition kept_seconds (rule : ChannelAffinityRule) : Z :=
  let ttl := if TTLSeconds rule <=? 0 then DefaultTTLSeconds setting else TTLSeconds rule in
  if ttl <=? 0 then 3600 else ttl.

Lemma kept_twice rule : 
  (let ttl := if TTLSeconds rule <=? 0 then DefaultTTLSeconds setting else TTLSeconds rule in
   let ttl := if ttl <=? 0 then DefaultTTLSeconds setting else ttl in if ttl <=? 0 then 3600 else ttl) = kept_seconds rule.
Proof. unfold kept_seconds. repeat case_match; lia. Qed.

Lemma kept_positive rule : 0 < kept_seconds rule.
Proof. unfold kept_seconds. cbn zeta. destruct (Z.leb_spec (if TTLSeconds rule <=? 0 then DefaultTTLSeconds setting else TTLSeconds rule) 0); lia. Qed.

(** *** Clearing a rule *)

Lemma suffix_starts rule m g v : IncludeRuleName rule = true -> Affinity.Name rule ≠ "" ->
  ∃ r, buildChannelAffinityCacheKeySuffix rule m g v = Affinity.Name rule +:+ String ":" r.
Proof.
  intros Hi Hn. rewrite key_of_parts. unfold affinity_parts. rewrite Hi, bool_decide_eq_false_2 by done. cbn [andb negb app].
  destruct (((if IncludeModelName rule && _ then [m] else []) ++ (if IncludeUsingGroup rule && _ then [g] else [])) ++ [v]) as [|a l] eqn:E.
  - by apply app_eq_nil in E as [_ ?].
  - exists (GoString.Join (a :: l) ":"). change (GoString.Join (Affinity.Name rule :: a :: l) ":") with (Affinity.Name rule +:+ ":" +:+ GoString.Join (a :: l) ":").
    by rewrite string_cons_app, string_nil_app.
Qed.

Lemma glob_literal_app a b : glob_literal (a +:+ b) = glob_literal a && glob_literal b.
Proof. apply Bool.eq_iff_eq_true. unfold glob_literal. rewrite !lacks_app, !andb_true_iff. tauto. Qed.

Lemma suffix_under_rule redis rule m g v :
  IncludeRuleName rule = true -> tidy_key (Affinity.Name rule) = true -> tidy_key (buildChannelAffinityCacheKeySuffix rule m g v) = true ->
  HasPrefix (FullKey channelAffinityCacheNamespace (buildChannelAffinityCacheKeySuffix rule m g v))
    (full_prefix (getChannelAffinityCache redis) (Affinity.Name rule)) = true.
Proof.
  intros Hi Hn Hs. rewrite full_key_tidy by done. unfold full_prefix. cbn [ns getChannelAffinityCache]. rewrite full_key_tidy by done.
  destruct (suffix_starts rule m g v Hi) as [r ->].
  { intros E. by rewrite E in Hn. }
  assert (∀ p, HasPrefix (channelAffinityCacheNamespace +:+ ":" +:+ Affinity.Name rule +:+ String ":" r) p = true <->
               ∃ q, channelAffinityCacheNamespace +:+ ":" +:+ Affinity.Name rule +:+ String ":" r = p +:+ q) as Hp by apply HasPrefix_iff.
  apply Hp. destruct (HasSuffix _ _); [exists (String ":" r)|exists r]; rewrite !append_assoc; [done|].
  by rewrite (string_cons_app ":" "" r), string_nil_app.
Qed.

(** C31. Clearing a rule forgets it, for a rule that has its name in its keys and whose name
    is tidy (not empty, without outer spaces, beginning neither with a colon nor with the
    namespace) and has no pattern signs: after the request of an administrator to clear the entries of the rule
    has succeeded, a request under that rule whose key is tidy as well is offered no channel
    on the cache as it is left, with Redis or without. *)
Theorem rule_cleared redis rule name n ctx m g src v s s' t :
  let c := getChannelAffinityCache redis in
  represents c s t -> TrimSpace name = Affinity.Name rule -> IncludeRuleName rule = true ->
  tidy_key (Affinity.Name rule) = true -> glob_literal (Affinity.Name rule) = true ->
  ClearChannelAffinityCacheByRuleName redis setting name s = (Ok n, s') ->
  first_rule ctx m (Rules setting) = Some (rule, src, v) -> tidy_key (buildChannelAffinityCacheKeySuffix rule m g v) = true ->
  ∃ ctx', (GetPreferredChannelByAffinity redis setting ctx m g s').1 = Ok (None, ctx').
Proof.
  intros c Hrep Hname Hi Htn Hgl Hclear Hrule Htidy. destruct affinity_ns as [Hns Hg].
  unfold ClearChannelAffinityCacheByRuleName in Hclear. case_bool_decide; [discriminate|]. rewrite Hname in Hclear.
  destruct (List.find _ _) as [r|]; [|discriminate]. destruct (negb (IncludeRuleName r)); [discriminate|].
  assert (glob_literal (full_prefix c (Affinity.Name rule)) = true) as Hgp.
  { unfold full_prefix. cbn [ns c getChannelAffinityCache]. rewrite full_key_tidy by done.
    by destruct (HasSuffix _ _); rewrite !glob_literal_app, Hgl. }
  pose proof (delete_prefix_refines c Hns Hg (Affinity.Name rule) s t Hrep Hgp) as Hd. subst c. rewrite Hclear in Hd.
  destruct Hd as [Hrep' _]. { cbn [ns getChannelAffinityCache]. by rewrite full_key_tidy. }
  unfold GetPreferredChannelByAffinity. destruct (negb (Enabled setting)); [by eexists|]. rewrite Hrule.
  pose proof (get_refines (getChannelAffinityCache redis) Hns Hg (buildChannelAffinityCacheKeySuffix rule m g v) s' _ Hrep') as Hget.
  unfold bind, attempt. destruct (Get _ _ s') as [[[x|]|e] s2]; [|by eexists..]. exfalso.
  destruct Hget as (_ & _ & Hx & _). specialize (Hx x eq_refl). cbn [ns getChannelAffinityCache] in Hx.
  unfold live in Hx. rewrite current_without, suffix_under_rule in Hx by done. done.
Qed.

#[local] Abbreviation cache := (getChannelAffinityCache true).
#[local] Abbreviation suffix rule m g v := (buildChannelAffinityCacheKeySuffix rule m g v).

Lemma record_runs ctx m g rule src v ch s :
  hc_faults s = [] -> Enabled setting = true -> 0 < ch < 2 ^ 63 ->
  (SwitchOnSuccess setting = true -> ctx_int ctx "channel_id" <= 0 ∨ ctx_int ctx "channel_id" = ch) ->
  kept_seconds rule <= 1000000000 ->
  RecordChannelAffinity true setting (setChannelAffinityContext (meta_of setting ctx m g rule src v) ctx) ch s
  = (Ok tt, (run_op cache (OpSet (channelAffinityCacheNamespace +:+ ":" +:+ suffix rule m g v) ch (kept_seconds rule * Second)) s).2).
Proof.
  intros Hf He Hch Hsw Hk. unfold RecordChannelAffinity. rewrite He, (proj2 (Z.leb_gt ch 0)) by lia. cbn [orb negb].
  set (ctx1 := setChannelAffinityContext _ ctx).
  assert ((if SwitchOnSuccess setting && (0 <? ctx_int ctx1 "channel_id") then ctx_int ctx1 "channel_id" else ch) = ch) as ->.
  { subst ctx1. simpl. destruct (SwitchOnSuccess setting); [|done]. simpl. destruct (Z.ltb_spec 0 (ctx_int ctx "channel_id")); [|done].
    destruct (Hsw eq_refl); lia. }
  assert (getChannelAffinityContext ctx1 = Some (CacheKey (meta_of setting ctx m g rule src v), meta_TTLSeconds (meta_of setting ctx m g rule src v))) as ->.
  { done. }
  cbn [meta_of CacheKey meta_TTLSeconds]. cbn zeta. pose proof (kept_twice rule) as Hkt. cbn zeta in Hkt. rewrite Hkt.
  assert (0 < kept_seconds rule) as H0 by apply kept_positive.
  rewrite wrap64_id by (unfold int64_range, Second; lia).
  cbn [run_op]. unfold bind, attempt.
  pose proof (set_succeeds cache (channelAffinityCacheNamespace +:+ ":" +:+ suffix rule m g v) ch (kept_seconds rule * Second) s eq_refl Hf) as E.
  destruct (SetWithTTL cache _ ch _ s) as [[[]|e] s']; [done|]. discriminate E. simpl. lia.
Qed.

(** C24. A client comes back to its channel when the cache is Redis: once a request under a
    rule has succeeded on a channel (the one the request was sent to, if successes are to
    switch it), the next request for which the same rule gives the same tidy key is offered
    that channel, provided that the Redis commands of the two requests do not fail, that
    the rule's time (at most 10^9 seconds) has not passed, and that the calls in between
    are proper and leave this key alone, whatever they do to other keys and whichever of
    their commands fail. *)
Theorem affinity_sticks ctx ctx2 m g rule src src2 v ch ops s t :
  let key := channelAffinityCacheNamespace +:+ ":" +:+ suffix rule m g v in
  let ctx1 := setChannelAffinityContext (meta_of setting ctx m g rule src v) ctx in
  let s1 := (RecordChannelAffinity true setting ctx1 ch s).2 in
  represents cache s t -> hc_faults s = [] -> Enabled setting = true ->
  first_rule ctx2 m (Rules setting) = Some (rule, src2, v) -> tidy_key (suffix rule m g v) = true ->
  0 < ch < 2 ^ 63 -> (SwitchOnSuccess setting = true -> ctx_int ctx "channel_id" <= 0 ∨ ctx_int ctx "channel_id" = ch) ->
  kept_seconds rule <= 1000000000 ->
  Forall (proper_op cache) ops -> Forall (untouched cache key) ops -> total_wait ops < kept_seconds rule * Second ->
  hc_faults (run_state cache ops s1) = [] ->
  (GetPreferredChannelByAffinity true setting ctx2 m g (run_state cache ops s1)).1
  = Ok (Some ch, setChannelAffinityContext (meta_of setting ctx2 m g rule src2 v) ctx2).
Proof.
  intros key ctx1 s1 Hrep Hf He Hrule Htidy Hch Hsw Hk Hp Hu Hw Hf2. destruct affinity_ns as [Hns Hg].
  assert (0 < kept_seconds rule) as H0 by apply kept_positive.
  assert (s1 = (run_op cache (OpSet key ch (kept_seconds rule * Second)) s).2) as Hs1.
  { subst s1 ctx1 key. by rewrite record_runs by (done || lia). }
  assert (proper_op cache (OpSet key ch (kept_seconds rule * Second))) as Hop by (split; [unfold Second; lia|simpl; lia]).
  assert (Hrun : run_op cache (OpSet key ch (kept_seconds rule * Second)) s = (Ok None, s1)).
  { rewrite Hs1. cbn [run_op]. unfold bind. pose proof (set_succeeds cache key ch (kept_seconds rule * Second) s eq_refl Hf (proj2 Hop)) as E.
    by destruct (SetWithTTL cache key ch _ s) as [[[]|e] s']. }
  pose proof (step_refines cache Hns Hg _ s t Hrep Hop) as Hstep. rewrite Hrun in Hstep. destruct Hstep as (t1 & Ht1 & Hrep1 & Hnow1 & _).
  cbn [spec_after] in Ht1. subst t1. cbn [ spec_op later] in Hrep1, Hnow1. change (ns cache) with channelAffinityCacheNamespace in Hrep1. subst key. rewrite full_key_recorded in Hrep1 by done. rewrite bool_decide_eq_false_2 in Hrep1 by done.
  destruct (run_keeps cache ops s1 _ (channelAffinityCacheNamespace +:+ ":" +:+ suffix rule m g v) (ch, Some (hc_now s + kept_seconds rule * Second)) Hns Hg Hrep1 Hp Hu)
    as (t' & Hrep' & Ht' & Hnow'); [by rewrite lookup_insert_eq|].
  set (s2 := run_state cache ops s1) in *. unfold GetPreferredChannelByAffinity. rewrite He, Hrule. cbn [negb].
  pose proof (get_answers cache Hns Hg (suffix rule m g v) s2 t' Hrep' eq_refl Hf2) as Hget.
  assert (live (hc_now s2) t' (FullKey (ns cache) (suffix rule m g v)) = Some ch) as Hlive.
  { change (ns cache) with channelAffinityCacheNamespace. rewrite full_key_tidy by done. unfold live, current. rewrite Ht'. simpl.
    rewrite (proj2 (Z.leb_gt _ _)) by (rewrite Hnow', Hnow1; lia). done. }
  rewrite Hlive in Hget. unfold bind, attempt. destruct (Get cache (suffix rule m g v) s2) as [r s3]. simpl in Hget. by subst r.
Qed.

End sticky.

(** ** The chosen channel *)

(** The index knows channels by their ids and the routes of those of type 58. *)
Definition wf_index (cache : ChannelCache) : Prop :=
  ∀ id c, channelsIDM cache !! id = Some c ->
    Id c = id ∧ (Type_ c = ChannelTypeAdvancedCustom -> channel2advancedCustomConfig cache !! id = AdvancedCustom c).

(** The channel serves the model, or the name it is normalised to, in the group and on the
    path. *)
Definition serves_request (cache : ChannelCache) (group model path : string) (c : Channel) : Prop :=
  channelsIDM cache !! Id c = Some c ∧
  (Id c ∈ ids_at cache group model ∨ Id c ∈ ids_at cache group (FormatMatchingModelName model)) ∧
  (path = "" ∨ path_allows cache path (Id c) = true).

Section choice.
Context {JT : JsonText} {FM : Formatting} {AL : AffinityLibs}.
Context {BM : BodyDecoder ModelRequest} {BJ : BodyDecoder MidjourneyRequest} {BP : BodyDecoder PlayGroundRequest}.
Context {HZ : HotCache Z} {RS : RedisScan} {CC : ChannelConfig}.
Context (gjson_Valid : Text -> bool).
Context (redis : bool) (setting : ChannelAffinitySetting).
Context (RetryTimes : Z) (crossGroupRetry : bool) (autoGroups userAutoGroups : list string).
Context (usableGroups : string -> gmap string string).
Hypothesis Hmem : MemoryCacheEnabled = true.

(** [GetRandomSatisfiedChannel] on the index. *)
Definition index_sel (Intn : Z -> Z) (w : CW) (model path group : string) (retry : Z) : found :=
  match (GetRandomSatisfiedChannel Intn group model retry path w).1 with Ok f => f | Err e => (None, Some e) end.

Lemma index_sel_sound Intn w model path group retry c :
  wf_index (cw_cache w) -> 0 <= retry -> (index_sel Intn w model path group retry).1 = Some c ->
  serves_request (cw_cache w) group model path c.
Proof.
  intros Hwf Hr. unfold index_sel, GetRandomSatisfiedChannel. rewrite Hmem. cbn [negb]. unfold bind, gets, fail, ret. simpl.
  destruct (choose_cached _ _ _ _ _ _) as [o|e] eqn:E; [|by destruct (is_panic e)]. simpl. intros ->.
  destruct (selection_sound _ _ _ _ _ _ _ E Hr) as (id & l & Hid & Hin & Hpath & _).
  destruct (Hwf id c Hid) as [<- _]. done.
Qed.

Lemma first_enabled_sound groups model id w g w' :
  first_enabled groups model id w = (Ok (Some g), w') ->
  w' = w ∧ g ∈ groups ∧ (id ∈ ids_at (cw_cache w) g model ∨ id ∈ ids_at (cw_cache w) g (FormatMatchingModelName model)).
Proof.
  induction groups as [|g0 groups IH]; simpl; [done|]. unfold bind at 1, IsChannelEnabledForGroupModel. rewrite Hmem. cbn [negb].
  destruct (_ || _ || _); simpl; [intros H; destruct (IH H) as (? & ? & ?); split_and!; [done|by right|done]|].
  case_bool_decide as H1; simpl; [intros [= <- <-]; split_and!; [done|left|by left]|].
  destruct (_ || _); simpl; [intros H; destruct (IH H) as (? & ? & ?); split_and!; [done|by right|done]|].
  case_bool_decide as H2; simpl; [intros [= <- <-]; split_and!; [done|left|by right]|].
  intros H; destruct (IH H) as (? & ? & ?); split_and!; [done|by right|done].
Qed.

Lemma first_enabled_keeps groups model id w : (first_enabled groups model id w).2 = w.
Proof.
  induction groups as [|g0 groups IH]; simpl; [done|]. unfold bind at 1, IsChannelEnabledForGroupModel. rewrite Hmem. cbn [negb].
  destruct (_ || _ || _); simpl; [done|]. case_bool_decide; simpl; [done|]. destruct (_ || _); simpl; [done|]. by case_bool_decide.
Qed.

Lemma path_supported cache c path : wf_index cache -> channelsIDM cache !! Id c = Some c ->
  channelSupportsRequestPath c path = true -> path_allows cache path (Id c) = true.
Proof.
  intros Hwf Hc. unfold channelSupportsRequestPath, path_allows. rewrite Hc. destruct (Z.eqb_spec (Type_ c) ChannelTypeAdvancedCustom) as [E|]; [|done].
  destruct (Hwf _ _ Hc) as [_ Ha]. by rewrite (Ha E).
Qed.

Lemma usable_sound ctx model group id w :
  wf_index (cw_cache w) ->
  (usable_preferred userAutoGroups ctx model group id w).2 = w ∧
  ∀ c g, (usable_preferred userAutoGroups ctx model group id w).1 = Ok (Some (c, g)) ->
    serves_request (cw_cache w) g model (ctx_path ctx) c ∧ Status c = ChannelStatusEnabled ∧
    (if bool_decide (group = "auto") then g ∈ userAutoGroups else g = group).
Proof.
  intros Hwf. unfold usable_preferred.
  assert (attempt (CacheGetChannel id) w = (Ok match channelsIDM (cw_cache w) !! id with Some c => Ok c | None => Err (gone id) end, w)) as E.
  { unfold attempt, CacheGetChannel. rewrite Hmem. cbn [negb]. unfold bind, gets, lift_option. by destruct (_ !! id). }
  unfold bind at 1 3. rewrite E. destruct (channelsIDM (cw_cache w) !! id) as [c0|] eqn:Ec; [|done].
  destruct ((Status c0 =? ChannelStatusEnabled) && channelSupportsRequestPath c0 (ctx_path ctx)) eqn:Es; [|done].
  apply andb_true_iff in Es as [Hst%Z.eqb_eq Hpath]. destruct (Hwf id c0 Ec) as [<- _].
  set (groups := if bool_decide (group = "auto") then userAutoGroups else [group]).
  pose proof (first_enabled_keeps groups model (Id c0) w) as Hk.
  unfold bind. destruct (first_enabled groups model (Id c0) w) as [[[g|]|e] w'] eqn:Ef; simpl in *; subst w'; (split; [done|]); intros c g'; try done.
  intros [= -> ->]. destruct (first_enabled_sound _ _ _ _ _ _ Ef) as (_ & Hg & Hin).
  split; [split_and!; [done|done|right; by apply path_supported]|]. split; [done|].
  subst groups. case_bool_decide; [done|]. by apply list_elem_of_singleton in Hg.
Qed.

Lemma preferred_sound ctx model group s :
  wf_index (cw_cache (dw_cw s)) ->
  let '(r, s') := preferred_channel redis setting userAutoGroups ctx model group s in
  dw_cw s' = dw_cw s ∧
  ∀ c g ctx', r = Ok (Some (c, g), ctx') ->
    serves_request (cw_cache (dw_cw s)) g model (ctx_path ctx) c ∧
    (if bool_decide (group = "auto") then g ∈ userAutoGroups else g = group).
Proof.
  intros Hwf. unfold preferred_channel, bind at 1, on_hc at 1.
  assert (∀ f ctx1 h', GetPreferredChannelByAffinity redis setting ctx model group (dw_hc s) = (Ok (f, ctx1), h') -> ctx_path ctx1 = ctx_path ctx) as Hp.
  { intros f ctx1 h'. unfold GetPreferredChannelByAffinity. destruct (negb _); [by intros [= _ <- _]|].
    destruct (first_rule _ _ _) as [[[rule src] v]|]; [|by intros [= _ <- _]]. unfold bind, attempt.
    destruct (Get _ _ _) as [x h1]. by intros [= _ <- _]. }
  destruct (GetPreferredChannelByAffinity _ _ _ _ _ _) as [[[f ctx1]|e] h1]; [|done]. specialize (Hp f ctx1 h1 eq_refl).
  destruct f as [id|]; [|done]. unfold bind at 1, on_cw. simpl. destruct (usable_sound ctx1 model group id (dw_cw s) Hwf) as [Hk Hu].
  destruct (usable_preferred _ _ _ _ _ _) as [[[[c g]|]|e] w']; simpl in *; subst w'; [| |done].
  - split; [done|]. intros c' g' ctx' [= -> -> _]. destruct (Hu _ _ eq_refl) as (H1 & _ & H2). rewrite <- Hp. done.
  - destruct (ShouldKeepChannelAffinityOnChannelDisabled setting); [done|]. unfold bind, on_hc. simpl.
    destruct (ClearCurrentChannelAffinityCache _ _ _) as [[[b ctx2]|e] h2]; done.
Qed.

Lemma auto_loop_sound (sel : string -> Z -> found) start i groups p actx c g p' actx' :
  0 <= GetRetry p -> auto_loop RetryTimes crossGroupRetry sel start i groups p actx = (Some c, g, p', actx') ->
  g ∈ groups ∧ ∃ r, 0 <= r ∧ (sel g r).1 = Some c.
Proof.
  revert i p actx. induction groups as [|g0 groups IH]; intros i p actx Hr; simpl; [done|].
  set (r := if start <? i then 0 else GetRetry p). assert (0 <= r) as Hr0 by (subst r; case_match; lia).
  destruct (sel g0 r).1 as [c0|] eqn:E.
  - destruct (_ && _); intros [= -> <- _ _]; (split; [left|]); by exists r.
  - intros H. apply IH in H as [Hg Hx]; [|done]. split; [by right|done].
Qed.

Lemma random_sound (sel : string -> Z -> found) group c g p actx :
  CacheGetRandomSatisfiedChannel RetryTimes crossGroupRetry autoGroups userAutoGroups sel (mkRetryParam group (Some 0) false)
    (mkAutoCtx None None None) = (Some c, g, None, p, actx) ->
  (if bool_decide (group = "auto") then g ∈ userAutoGroups else g = group) ∧ ∃ r, 0 <= r ∧ (sel g r).1 = Some c.
Proof.
  unfold CacheGetRandomSatisfiedChannel. simpl. destruct (decide (group = "auto")) as [->|Hne].
  - rewrite bool_decide_eq_true_2 by done. destruct autoGroups; [done|].
    destruct (auto_loop _ _ _ _ _ _ _ _) as [[[c' g'] p'] actx'] eqn:E. intros [= -> -> _ _].
    apply auto_loop_sound in E as [Hg Hx]; [|done]. by rewrite drop_0 in Hg.
  - rewrite bool_decide_eq_false_2 by done. destruct (sel group (GetRetry _)) as [c' [e|]] eqn:E; [done|]. intros [= -> <- _ _].
    split; [done|]. exists 0. split; [done|]. unfold GetRetry in E. simpl in E. by rewrite E.
Qed.

Lemma limit_respected model inc (s s1 : DW) : check_model_limit model inc s = (Ok tt, s1) ->
  s1 = s ∧ ∀ limit, in_modelLimit inc = Some limit -> ∃ models, limit = Some models ∧ FormatMatchingModelName model ∈ models.
Proof.
  unfold check_model_limit. destruct (in_modelLimit inc) as [[models|]|]; simpl; [|done|by intros [= ->]].
  case_bool_decide; [|done]. intros [= ->]. split; [done|]. intros limit [= <-]. eauto.
Qed.

Lemma playground_sound inc ctx (s s1 : DW) used : playground_group usableGroups inc ctx s = (Ok used, s1) ->
  s1 = s ∧ (used = in_usingGroup inc ∨ is_Some (usableGroups (in_usingGroup inc) !! used)).
Proof.
  unfold playground_group. destruct (negb (HasPrefix _ _)); [intros [= <- ->]; auto|]. destruct (UnmarshalBodyReusable inc ctx) as [pg|]; [|done].
  case_bool_decide; [intros [= <- ->]; auto|]. destruct (negb _ && negb _) eqn:En; [done|]. intros [= <- ->]. split; [done|].
  apply andb_false_iff in En as [En|En]; apply negb_false_iff, bool_decide_eq_true in En; auto.
Qed.

(** Reading the request leaves the index alone. *)
Lemma read_keeps_cache inc ctx keys (s : DW) : cw_cache (dw_cw (getModelRequest gjson_Valid inc ctx keys s).2) = cw_cache (dw_cw s).
Proof.
  assert (∀ A B (m : M DW A) (k : A -> M DW B) (s : DW),
    (∀ s, cw_cache (dw_cw (m s).2) = cw_cache (dw_cw s)) -> (∀ a s, cw_cache (dw_cw (k a s).2) = cw_cache (dw_cw s)) ->
    cw_cache (dw_cw (bind m k s).2) = cw_cache (dw_cw s)) as Hb.
  { intros A B m k s0 Hm Hk. unfold bind. specialize (Hm s0). destruct (m s0) as [[a|e] s1]; simpl in *; [|done]. by rewrite Hk. }
  assert (∀ A (r : result A) (s : DW), cw_cache (dw_cw (lift_result r s).2) = cw_cache (dw_cw s)) as Hl by (by intros A []).
  unfold getModelRequest. apply Hb; [clear s; intros s|].
  - assert (∀ s : DW, cw_cache (dw_cw (getTaskOriginModelName inc ctx s).2) = cw_cache (dw_cw s)) as Ho.
    { clear s. intros s. unfold getTaskOriginModelName. destruct (in_modelLimit inc); [|done]. case_bool_decide; [done|]. apply Hb; [|done].
      clear s. intros s. unfold attempt, GetByTaskId. case_bool_decide; [done|]. unfold select, exec. by destruct (st_faults s) as [|[]]. }
    unfold model_by_path. repeat case_match; try done; apply Hb; try done; intros.
    + unfold map_err. by destruct (UnmarshalBodyReusable _ _).
    + by apply Hb.
  - clear s. intros [[model b] keys'] s. destruct (audio_model _ _ _ _) as [m1 k1]. apply Hb; [|by intros []].
    clear s. intros s. case_match; [|done]. by apply Hb.
Qed.

(** C23. Whatever the affinity cache holds, and whether its commands fail or not, a
    request without a bound channel on a node that draws from its memory index is given
    only a channel that the index lists, in the group and on the path of the request,
    for the model read from it or for the name that model is normalised to; the group is
    the one in use, or one of the user's groups when that is automatic, a playground
    request may only change it to a group the user may use, and a token limited to
    models gets no channel for another model. *)
Theorem distribute_sound Intn inc ctx keys s c g model ctx' keys' s' :
  wf_index (cw_cache (dw_cw s)) -> in_specificChannel inc = None ->
  chosen_channel gjson_Valid redis setting RetryTimes crossGroupRetry autoGroups userAutoGroups usableGroups
    (λ model, index_sel Intn (dw_cw s) model (ctx_path ctx)) inc ctx keys s = (Ok (Some c, g, model, ctx', keys'), s') ->
  (getModelRequest gjson_Valid inc ctx keys s).1 = Ok (model, true, keys') ∧
  serves_request (cw_cache (dw_cw s)) g model (ctx_path ctx) c ∧
  (∃ used, (used = in_usingGroup inc ∨ is_Some (usableGroups (in_usingGroup inc) !! used)) ∧
     (if bool_decide (used = "auto") then g ∈ userAutoGroups else g = used)) ∧
  (∀ limit, in_modelLimit inc = Some limit -> ∃ models, limit = Some models ∧ FormatMatchingModelName model ∈ models).
Proof.
  intros Hwf Hsp. unfold chosen_channel. unfold bind at 1, attempt. pose proof (read_keeps_cache inc ctx keys s) as Hcache.
  destruct (getModelRequest gjson_Valid inc ctx keys s) as [[[[m b] k1]|e] s0]; [|by destruct (is_panic e)]. simpl in Hcache. rewrite Hsp.
  unfold bind at 1. destruct (check_model_limit m inc s0) as [[[]|e] s1] eqn:El; [|done]. apply limit_respected in El as [-> Hmodels].
  destruct b; [|done]. cbn [negb].
  unfold bind at 1, select_channel, fail_if. destruct (bool_decide (m = "")); [done|]. unfold bind at 1, ret at 1. simpl.
  unfold bind at 1. destruct (playground_group usableGroups inc ctx s0) as [[used|e] s1] eqn:Eg; [|done].
  apply playground_sound in Eg as [-> Hused]. rewrite <- Hcache in Hwf |- *.
  unfold bind at 1. pose proof (preferred_sound ctx m used s0 Hwf) as Hp.
  destruct (preferred_channel _ _ _ _ _ _ _) as [[[[[c0 g0]|] ctx1]|e] s1]; [| |done]; destruct Hp as [Hcw Hp]; simpl.
  - intros [= <- <- <- _ <- _]. destruct (Hp _ _ _ eq_refl) as [Hs Hg]. eauto 10.
  - destruct (CacheGetRandomSatisfiedChannel _ _ _ _ _ _ _) as [[[[[c0|] g0] [e|]] p] actx] eqn:Er; try done. simpl. intros [= <- <- <- _ <- _].
    apply random_sound in Er as [Hg (r & Hr & Hsel)].
    apply index_sel_sound in Hsel; [|by rewrite <- Hcache|done]. rewrite <- Hcache in Hsel. eauto 10.
Qed.

End choice.

(** ** Reading the model and setting up the context *)

(** The model of a Gemini path is what stands before the colon. *)
Lemma gemini_model_read model action :
  lacks ":" model = true -> extractModelNameFromGeminiPath ("/v1beta/models/" +:+ model +:+ ":" +:+ action) = model.
Proof.
  intros Hm. unfold extractModelNameFromGeminiPath.
  assert (Cut ("/v1beta/models/" +:+ model +:+ ":" +:+ action) "/models/" = Some ("/v1beta", model +:+ String ":" action)) as ->.
  { rewrite !string_cons_app, !string_nil_app. generalize (model +:+ String ":" action). intros r. by destruct r; vm_compute. }
  by rewrite Cut_app.
Qed.

Lemma set_keys_agree l k (m1 m2 : GinCtx) : k ∈ l.*1 ∨ m1 !! k = m2 !! k -> set_keys l m1 !! k = set_keys l m2 !! k.
Proof.
  unfold set_keys. revert m1 m2. induction l as [|[k0 v] l IH]; intros m1 m2; simpl.
  - intros [H|H]; [by apply elem_of_nil in H|done].
  - rewrite elem_of_cons. intros H. apply IH. destruct (decide (k = k0)) as [->|Hne].
    + right. by rewrite !lookup_insert_eq.
    + rewrite !lookup_insert_ne by done. naive_solver.
Qed.

(** What the handlers read of the channel and of its key. *)
Definition channel_part : list string :=
  ["channel_id"; "channel_name"; "channel_type"; "channel_create_time"; "channel_setting"; "channel_other_setting";
   "param_override"; "header_override"; "auto_ban"; "model_mapping"; "status_code_mapping"].
Definition key_part : list string := ["channel_is_multi_key"; "channel_key"; "base_url"; "system_prompt_override"].

Lemma channel_part_set c cols param : channel_part ⊆ (channel_keys c cols param).*1.
Proof. unfold channel_keys. rewrite !fmap_app. destruct (OpenAIOrganization cols); [case_bool_decide|]; simpl; set_solver. Qed.
Lemma key_part_set c cols key index url : key_part ⊆ (key_keys c cols key index url).*1.
Proof. unfold key_keys. rewrite !fmap_app. destruct (IsMultiKey (Info c)); simpl; set_solver. Qed.

Section setup.
Context {JT : JsonText} {FM : Formatting} {CC : ChannelConfig}.

(** A retry starts afresh: what a successful set-up leaves in the context does not depend on
    what an earlier attempt on another channel left there, apart from the organization. *)
Lemma setup_replaces Intn columns c model ctx keys1 keys2 w ctx1 ctx2 k1 k2 w1 w2 :
  SetupContextForSelectedChannel Intn columns (Some c) model ctx keys1 w = (Ok (None, ctx1, k1), w1) ->
  SetupContextForSelectedChannel Intn columns (Some c) model ctx keys2 w = (Ok (None, ctx2, k2), w2) ->
  ctx1 = ctx2 ∧ w1 = w2 ∧ ∀ k, k = "original_model" ∨ k ∈ channel_part ∨ k ∈ key_part -> k1 !! k = k2 !! k.
Proof.
  unfold SetupContextForSelectedChannel. destruct (ApplyChannelAffinityOverrideTemplate _ _) as [param ctx'].
  unfold bind, attempt. destruct (GetNextEnabledKey Intn c w) as [[[key index]|e] w']; [|done].
  destruct (GetBaseURL c (columns (Id c))) as [url|]; [|done]. unfold lift_result, ret. intros [= <- <- <-] [= <- <- <-].
  split_and!; [done..|]. intros k Hk.
  apply (set_keys_agree (key_keys c (columns (Id c)) key index url)). destruct Hk as [->|[Hk|Hk]]; [right..|left].
  - apply (set_keys_agree (channel_keys c (columns (Id c)) param)). right.
    apply (set_keys_agree [("original_model", CString model)]). left. by left.
  - apply (set_keys_agree (channel_keys c (columns (Id c)) param)). left. by apply channel_part_set.
  - by apply key_part_set.
Qed.

End setup.

(** ** Templates *)

Section templates.
Context {JT : JsonText} {FM : Formatting} {FL : FormattingLaws FM}.

(** What a key of the merged override is. *)
Definition merged_field (base tpl : list (string * json)) (k : string) : option json :=
  match lookup_field k tpl with
  | None => lookup_field k base
  | Some v =>
      match extractParamOperations (Some v) with
      | Some ops =>
          if is_operations_key (TrimSpace k) then Some (JArray (ops ++ default [] (extractParamOperations (lookup_field k base))))
          else match lookup_field k base with Some w => Some w | None => Some v end
      | None => match lookup_field k base with Some w => Some w | None => Some v end
      end
  end.

Lemma merge_entry_lookup out kv k :
  lookup_field k (merge_entry out kv) = if String.eqb kv.1 k then merged_field out [kv] k else lookup_field k out.
Proof.
  destruct kv as [k0 v]. unfold merge_entry, merged_field. cbn [fst snd lookup_field].
  destruct (String.eqb_spec k0 k) as [->|Hne]; rewrite ?String.eqb_refl.
  - destruct (is_operations_key (TrimSpace k)), (extractParamOperations (Some v)), (lookup_field k out) eqn:E;
      rewrite ?lookup_put, ?String.eqb_refl, ?E; done.
  - apply String.eqb_neq in Hne.
    destruct (is_operations_key (TrimSpace k0)), (extractParamOperations (Some v)), (lookup_field k0 out);
      rewrite ?lookup_put, ?Hne; done.
Qed.

Lemma merge_fold_lookup tpl out k : NoDup tpl.*1 -> lookup_field k (foldl merge_entry out tpl) = merged_field out tpl k.
Proof.
  revert out. induction tpl as [|[k0 v] tpl IH]; intros out; [done|]. cbn [fmap list_fmap]. rewrite NoDup_cons. intros [Hk Hd].
  simpl foldl. rewrite IH by done. unfold merged_field. cbn [lookup_field fst]. destruct (String.eqb_spec k0 k) as [->|Hne].
  - rewrite lookup_field_none by done. rewrite merge_entry_lookup. unfold merged_field. cbn [fst lookup_field]. by rewrite String.eqb_refl.
  - rewrite merge_entry_lookup. cbn [fst]. by rewrite (proj2 (String.eqb_neq k0 k)).
Qed.

Lemma merge_lookup base tpl k : NoDup tpl.*1 -> lookup_field k (mergeChannelOverride base tpl) = merged_field base tpl k.
Proof.
  intros Hd. pose proof (range_map_perm tpl) as Hp. unfold mergeChannelOverride. destruct tpl as [|kv tpl]; [done|].
  rewrite merge_fold_lookup by (by rewrite Hp). unfold merged_field.
  by rewrite (lookup_field_perm k (range_map (kv :: tpl)) (kv :: tpl)) by (try done; by rewrite Hp).
Qed.

Lemma parse_each_app {A} (f : json -> result A) a b x y :
  parse_each f a = Ok x -> parse_each f b = Ok y -> parse_each f (a ++ b) = Ok (x ++ y).
Proof.
  revert x. induction a as [|j a IH]; intros x; simpl; [by intros [= <-]|].
  destruct (f j) as [r|]; [|done]. destruct (parse_each f a) as [l|]; [|done]. intros [= <-] Hb. by rewrite (IH l).
Qed.

(** The rules of a template run before the channel's own; of other keys the channel's
    count, whatever the order in which Go visits the map. *)
Lemma template_runs_first base tpl ops1 ops2 :
  NoDup tpl.*1 -> tryParseOperations tpl = Some ops1 -> tryParseOperations base = Some ops2 ->
  tryParseOperations (mergeChannelOverride base tpl) = Some (ops1 ++ ops2) ∧
  ∀ k, is_operations_key (TrimSpace k) = false ->
    lookup_field k (mergeChannelOverride base tpl) = match lookup_field k base with Some w => Some w | None => lookup_field k tpl end.
Proof.
  intros Hd H1 H2. split.
  - unfold tryParseOperations in *. rewrite merge_lookup by done. unfold merged_field.
    destruct (lookup_field "operations" tpl) as [[| | | |l1|]|]; try done.
    destruct (lookup_field "operations" base) as [[| | | |l2|]|]; try done. cbn [extractParamOperations].
    change (is_operations_key (TrimSpace "operations")) with true. simpl.
    destruct (parse_each parse_operation l1) eqn:E1; [|done]. destruct (parse_each parse_operation l2) eqn:E2; [|done].
    simplify_eq. by rewrite (parse_each_app _ _ _ _ _ E1 E2).
  - intros k Hk. rewrite merge_lookup by done. unfold merged_field. rewrite Hk.
    destruct (lookup_field k tpl) as [v|]; [by destruct v|by destruct (lookup_field k base)].
Qed.

End templates.
