(* ===== verification/Witnesses.v ===== *)
(** * Witnesses: the theorems at concrete inputs

    For every property with hypotheses, one instance on the sample deployment in
    which they hold. *)

From S2P Require Import Samples Ledger SubInv SubProps OrderProps BillingProps SessionProps.
From S2P Require Import TopUpProps CleanupProps.

#[local] Instance cfg : Config := sample_config false true.
#[local] Instance cfg_laws : ConfigLaws cfg := sample_config_laws false true.
#[local] Instance utc : Location := fixed_zone 0.
#[local] Instance node : Node := {| GetIp := "10.0.0.1"; NodeName := "a"; Version := "v1" |}.

Definition busy_ops : list Op :=
  [OUser 1 (-700); OTokenDecrease 5 "key" 700; OUsed 1 700; OChannel 9 700; OFlush; OUser 1 50].

Lemma busy_ok : Forall op_ok busy_ops.
Proof. repeat constructor; simpl; lia. Qed.

Lemma ledger_refines_witness :
  ∃ w', run_ops busy_ops sample_world = (Ok tt, w') ∧
        effective w' = ledger_run busy_ops (effective sample_world).
Proof. apply (ledger_refines busy_ops sample_world); [done|done|exact busy_ok|done]. Defined.

Lemma flushed_database_is_ledger_witness :
  ∃ w', run_ops (busy_ops ++ [OFlush]) sample_world = (Ok tt, w') ∧
        db_ledger (World_db w') = ledger_run busy_ops (db_ledger (World_db sample_world)).
Proof.
  apply (flushed_database_is_ledger busy_ops sample_world); [done|done|exact busy_ok|done].
Defined.

(** Weekly resets from Tuesday 2023-11-14: the next is Monday 2023-11-20. *)
Lemma next_reset_is_first_witness :
  NormalizeResetPeriod " weekly " = SubscriptionResetCustom ∧
    1700438400 = 1700000000 + 0 ∧ 1700000000 < 1700438400 ∨
  NormalizeResetPeriod " weekly " ≠ SubscriptionResetCustom ∧
    first_reset 0 (NormalizeResetPeriod " weekly ") 1700000000 1700438400.
Proof. by apply (next_reset_is_first 0 1700000000 sample_plan 1700438400). Defined.

Lemma advance_resets_terminates_witness :
  ∃ base' next advanced,
    advance_resets sample_plan 1710000000 1703000000 1700000000 = inr (base', next, advanced) ∧
    next = calcNextResetTime base' sample_plan 1710000000 ∧ (next <= 0 ∨ 1703000000 < next) ∧
    (if advanced then 1700000000 < base' <= 1703000000 else base' = 1700000000).
Proof. by apply (advance_resets_terminates 0 sample_plan 1710000000 1703000000 1700000000). Defined.

Lemma plan_ends_after_start_witness :
  1700000000 < 1702592000 ∧ 1702592000 = 1700000000 + 30 * 86400.
Proof.
  destruct (plan_ends_after_start 0 1700000000 (days_plan 30) 1702592000) as (H1 & H2 & _);
    [done|by repeat split|reflexivity|].
  split; [exact H1|by apply H2].
Defined.

Lemma reset_loop_diverges_witness :
  ∃ s, iter_until 1000000 (reset_round (custom_plan (2 ^ 55)) 0 1700000100)
         (1700000000, calcNextResetTime 1700000000 (custom_plan (2 ^ 55)) 0, false) = inl s.
Proof. apply (reset_loop_diverges utc 1700000100 1700000000 0 1000000); [lia|left; lia]. Defined.

Lemma sample_metered : metered sample_world.
Proof.
  split_and!; [| |done]; simpl.
  - apply map_Forall_insert_2; [done|]. by apply map_Forall_singleton.
  - by apply map_Forall_singleton.
Qed.

Definition after_preconsume : World := (run_sub (SPreConsume "new" 1 100) sample_world).2.

Lemma subscriptions_never_overspent_witness :
  ∃ s, sub_row 1 after_preconsume = Some s ∧
  0 <= UserSubscription_AmountUsed s <= UserSubscription_AmountTotal s.
Proof.
  eexists. split; [vm_compute; reflexivity|].
  apply (subscriptions_never_overspent sample_world after_preconsume sample_metered
    (rtc_once _ _ (sub_op (SPreConsume "new" 1 100) sample_world)) 1);
    [vm_compute; reflexivity|done].
Defined.

(** Subscription 2 ends first but has 50 left: a request of 100 goes to 1. *)
Definition first_answer : PreConsumeResult := mkPreConsumeResult 1 100 1000 400 500.
Definition charged_world : World := (PreConsumeUserSubscription "new" 1 100 sample_world).2.

Lemma first_answer_eq :
  PreConsumeUserSubscription "new" 1 100 sample_world = (Ok first_answer, charged_world).
Proof. apply run_ok. vm_compute. reflexivity. Qed.

Lemma PreConsume_idempotent_witness :
  wp (PreConsumeUserSubscription "new" 1 999) (λ r w3, World_db w3 = World_db charged_world ∧
    match r with Ok res' => Res_PreConsumed res' = 100 | Err _ => True end) charged_world.
Proof.
  exact (PreConsume_idempotent "new" 1 100 sample_world first_answer charged_world 1 999
    charged_world first_answer_eq eq_refl).
Defined.

Lemma PreConsume_earliest_ending_witness :
  ∃ now s0, is_active 1 now s0 = true ∧ (∃ k, sub_row k sample_world = Some s0) ∧
    1 = UserSubscription_Id s0 ∧
    ∀ k s1, sub_row k sample_world = Some s1 -> is_active 1 now s1 = true ->
      UserSubscription_Id s1 ≠ UserSubscription_Id s0 -> ends_first s1 s0 = true ->
      exhausted 100 now s1.
Proof.
  exact (PreConsume_earliest_ending "new" 1 100 sample_world first_answer charged_world
    first_answer_eq eq_refl).
Defined.

Lemma Refund_restores_once_witness :
  ∃ w1, RefundSubscriptionPreConsume "req" sample_world = (Ok tt, w1) ∧
    (∃ s1, sub_row 1 w1 = Some s1 ∧ UserSubscription_AmountUsed s1 = 300) ∧
    ∃ w2, RefundSubscriptionPreConsume "req" w1 = (Ok tt, w2) ∧ World_db w2 = World_db w1.
Proof.
  apply (Refund_restores_once "req" (sample_record 100) (sample_sub 1 400 1710000000) sample_world);
    [done|]. by repeat split.
Defined.

Lemma PreConsume_Refund_roundtrip_witness :
  ∃ w2 s2, RefundSubscriptionPreConsume "new" charged_world = (Ok tt, w2) ∧
    sub_row 1 w2 = Some s2 ∧ UserSubscription_AmountUsed s2 = 400.
Proof.
  apply (PreConsume_Refund_roundtrip "new" 1 100 sample_world first_answer charged_world);
    [exact sample_metered|done|exact first_answer_eq|vm_compute; reflexivity|done..].
Defined.

Definition order_done : World := (CompleteSubscriptionOrder "T1" "{}" "stripe" "" sample_world).2.

Lemma CompleteSubscriptionOrder_once_witness :
  wp (CompleteSubscriptionOrder "T1" "again" "" "card") (λ _ w2, World_db w2 = World_db order_done)
    order_done.
Proof.
  apply (CompleteSubscriptionOrder_once "T1" "{}" "stripe" "" "again" "" "card" sample_world).
  - intros o H. vm_compute in H. by simplify_eq.
  - unfold order_done. apply run_ok. vm_compute. reflexivity.
Defined.

Lemma purchase_limit_respected_witness :
  let w' := (CreateUserSubscriptionFromPlanTx 2 monthly_plan "order" sample_world).2 in
  count_subs (of_plan 2 7) w' = count_subs (of_plan 2 7) sample_world + 1 ∧
  count_subs (of_plan 2 7) w' <= 1.
Proof.
  eapply (purchase_limit_respected 2 monthly_plan "order" sample_world);
    [done|apply run_ok; vm_compute; reflexivity|done].
Defined.

Definition sample_info (preference : string) : RelayInfo :=
  mkRelayInfo 1 5 "key" false false false "r1" "gpt" preference (float_of_int 0)
    0 0 "" 0 0 0 0 0 0 "".
Definition sample_request (preference : string) : BState :=
  mkBState sample_world (sample_info preference)
    (new_session (Wallet (mkWalletFunding 1 0))) false 1000.

Lemma paid_request_costs_actual_witness :
  wp (paid_request 300 [400; 350] 380) (λ r b',
    match r with
    | Ok _ => effective (b_world b') = charge false 1 5 380 (effective sample_world)
    | Err _ => effective (b_world b') = effective sample_world
    end) (sample_request "wallet_only").
Proof.
  apply (paid_request_costs_actual 300 [400; 350] 380 (sample_request "wallet_only")).
  - split_and!; [done|done|by unfold amount_ok| |simpl; lia]. repeat constructor; lia.
  - by unfold amount_ok.
Defined.

Lemma failed_request_costs_nothing_witness :
  wp (failed_request 300 [400]) (λ r b',
    match r with
    | Ok _ => effective (b_world b') = effective sample_world ∨
        ∃ j js, World_jobs (b_world b') = js ++ [JRefund j] ∧
          wp (run_job (JRefund j)) (λ r' w', r' = Ok tt ∧
            effective w' = effective sample_world) (b_world b')
    | Err _ => effective (b_world b') = effective sample_world
    end) (sample_request "wallet_only").
Proof.
  apply (failed_request_costs_nothing 300 [400] (sample_request "wallet_only")).
  split_and!; [done|done|by unfold amount_ok| |simpl; lia]. repeat constructor; lia.
Defined.

Lemma sample_keyed_subs : keyed_subs sample_world.
Proof. apply map_Forall_insert_2; [done|]. by apply map_Forall_singleton. Qed.

Lemma subscription_only_keeps_wallet_witness :
  wp (NewBillingSession 100) (λ _ b', wallets_kept (sample_request "subscription_only") b')
    (sample_request "subscription_only").
Proof.
  apply (subscription_only_keeps_wallet 100 (sample_request "subscription_only"));
    [exact sample_keyed_subs|reflexivity].
Defined.

(** A request of a user whose only subscription forbids falling back to the wallet. *)
Definition strict_sub : UserSubscription :=
  mkUserSubscription 1 1 7 1000 990 1700000000 1710000000 "active" "order" 0 0 "" "" "" false
    1700000000 1700000000.
Definition strict_request : BState :=
  mkBState (on_db (set_Tables_subs {[1 := strict_sub]}) sample_world)
    (sample_info "subscription_first") (new_session (Wallet (mkWalletFunding 1 0))) false 1000.

Lemma strict_subscription_keeps_wallet_witness :
  wp (NewBillingSession 100) (λ _ b', wallets_kept strict_request b') strict_request.
Proof.
  apply (strict_subscription_keeps_wallet 100 strict_request 1 strict_sub);
    [by apply map_Forall_singleton|reflexivity|reflexivity|reflexivity|reflexivity].
Defined.

Definition settled_request : BState :=
  mkBState sample_world (sample_info "wallet_only")
    (mkSession (Wallet (mkWalletFunding 1 300)) 300 300 0 false true true false) true 1000.
Definition late_calls : list (SessionOp * World) :=
  [(MRefund, sample_world); (MSettle 5, sample_world); (MRefund, sample_world)].

Lemma session_refunds_at_most_once_witness : refunds_started late_calls settled_request = 0%nat.
Proof. apply (session_refunds_at_most_once late_calls settled_request). reflexivity. Defined.

(** ** Payments *)

Lemma sample_keyed : keyed sample_world.
Proof. by apply map_Forall_singleton. Qed.

Lemma order_paid_at_most_once_witness :
  let ops := [PCallback (CStripe "T2" "cus" "ip"); PCallback (CManual "T2" "ip");
              PCallback (CStripe "T2" "cus" "ip"); PSetStatus "T2" "" "failed"] in
  (times_paid "T2" ops sample_world <= 1)%nat ∧ times_paid "T2" ops sample_world = 1%nat.
Proof.
  split; [|vm_compute; reflexivity].
  apply (order_paid_at_most_once "T2" [PCallback (CStripe "T2" "cus" "ip");
    PCallback (CManual "T2" "ip"); PCallback (CStripe "T2" "cus" "ip");
    PSetStatus "T2" "" "failed"] sample_world sample_keyed).
Defined.

(** An order of [amount] with the given provider, in the sample world. *)
Definition order_of (provider : string) (amount : Z) : TopUp :=
  mkTopUp 1 amount (float_of_int 5) "T3" provider provider 1700000000 0 "pending".
Definition order_world (provider : string) (amount : Z) : World :=
  on_db (put_topup (order_of provider amount)) sample_world.

(** The Epay notification saves the order as paid before it credits it, outside
    a transaction: when the credit fails the money is lost, and neither the next
    notification nor the administrator's completion credits it any more. *)
Theorem epay_order_lost :
  let w := set_World_faults [None; None; Some "connection lost"] (order_world "epay" 2) in
  let w1 := (EpayNotify true true "T3" "alipay" "ip" w).2 in
  let w2 := (EpayNotify true true "T3" "alipay" "ip" w1).2 in
  let w3 := (ManualCompleteTopUp "T3" "ip" w2).2 in
  TopUp_Status <$> topup_row "T3" w1 = Some TopUpStatusSuccess ∧
  User_Quota <$> user_row 1 w3 = User_Quota <$> user_row 1 w ∧
  User_Quota <$> user_row 1 (EpayNotify true true "T3" "alipay" "ip" (order_world "epay" 2)).2
    ≠ User_Quota <$> user_row 1 w.
Proof. vm_compute. split_and!; done. Qed.


Lemma unit_is_int : float_is_int QuotaPerUnit 500000.
Proof. by repeat split. Qed.

Lemma waffo_worth_its_amount_witness :
  quota_after (RechargeWaffo "T3" "ip") 1 (order_world "waffo" 5) = Some 8500000 ∧
  quota_after (ManualCompleteTopUp "T3" "ip") 1 (order_world "waffo" 5) = Some 8500000.
Proof.
  apply (waffo_worth_its_amount (CWaffo "T3" "ip") (order_of "waffo" 5) (sample_user 6000000)
    (order_world "waffo" 5) 500000 "ip"); [done| |exact unit_is_int|done].
  by split.
Defined.

Lemma creem_manual_overpays_witness :
  quota_after (RechargeCreem "T3" "" "" "ip") 1 (order_world "creem" 500000) = Some 6500000 ∧
  quota_after (ManualCompleteTopUp "T3" "ip") 1 (order_world "creem" 500000) = Some 250006000000.
Proof.
  apply (creem_manual_overpays "T3" "" "" "ip" "ip" (order_of "creem" 500000)
    (sample_user 6000000) (order_world "creem" 500000) 500000); [|exact unit_is_int|done].
  by split.
Defined.

Definition gift : Redemption := mkRedemption 4 "GIFT" 1 250 0 0 0.
Definition gift_world : World := on_db (put_redemption gift) sample_world.

Lemma Redeem_once_witness :
  wp (Redeem "GIFT" 2) (λ r w',
    match r with
    | Err _ => World_db w' = World_db gift_world
    | Ok q =>
        (∃ c, redemption_row "GIFT" gift_world = Some c ∧
          Redemption_Status c = RedemptionCodeStatusEnabled ∧
          (Redemption_ExpiredTime c = 0 ∨ World_now gift_world <= Redemption_ExpiredTime c) ∧
          q = Redemption_Quota c ∧
          users_of w' = alter (λ u, set_User_Quota (User_Quota u + q) u) 2 (users_of gift_world)) ∧
        (∀ userId' w2, World_db w2 = World_db w' ->
          wp (Redeem "GIFT" userId') (λ r2 w3, is_ok r2 = false ∧ World_db w3 = World_db w2) w2)
    end) gift_world.
Proof. apply Redeem_once. intros c H. vm_compute in H. by simplify_eq. Defined.

Definition checkin_setting : CheckinSetting := mkCheckinSetting true 1000 10000.

Lemma UserCheckin_once_witness :
  wp (UserCheckin checkin_setting true (λ n, n - 1) 2) (λ r w',
    match r with
    | Ok c => checkin_row 2 (format_date (World_now sample_world)) sample_world = None ∧
        checkin_row 2 (format_date (World_now sample_world)) w' = Some c ∧
        1000 <= Checkin_QuotaAwarded c <= 10000 ∧
        users_of w' = alter (λ u, set_User_Quota (User_Quota u + Checkin_QuotaAwarded c) u)
          2 (users_of sample_world)
    | Err _ => users_of w' = users_of sample_world ∧
        (true = false -> World_db w' = World_db sample_world)
    end) sample_world.
Proof.
  apply (UserCheckin_once checkin_setting true (λ n, n - 1) 2 sample_world);
    [intros; lia|simpl; lia|done].
Defined.

Definition inviter_world : World :=
  on_db (upd_user 1 (set_User_AffQuota 900000)) sample_world.

Lemma TransferAff_conserves_witness :
  wp (TransferAffQuotaToQuota 1 600000) (λ r w',
    match r with
    | Err _ => World_db w' = World_db inviter_world
    | Ok _ => ∃ u u', user_row 1 inviter_world = Some u ∧
        users_of w' = <[1 := u']> (users_of inviter_world) ∧
        600000 <= User_AffQuota u ∧
        User_Quota u' = User_Quota u + 600000 ∧ User_AffQuota u' = User_AffQuota u - 600000 ∧
        User_Quota u' + User_AffQuota u' = User_Quota u + User_AffQuota u
    end) inviter_world.
Proof.
  apply (TransferAff_conserves 1 600000 inviter_world).
  intros u H. vm_compute in H. simplify_eq. by repeat split.
Defined.

(** ** Background tasks *)

#[local] Instance postgres : RowCount := {| counts_matched := true |}.

Lemma cleanup_db_ok : tasks_ok (cleanup_db 5000).
Proof.
  split; simpl.
  - intros i t [<- <-]%lookup_singleton_Some. done.
  - intros i j t u [<- <-]%lookup_singleton_Some [<- <-]%lookup_singleton_Some. done.
  - intros i t [<- <-]%lookup_singleton_Some. done.
  - intros i j t u k [<- <-]%lookup_singleton_Some [<- <-]%lookup_singleton_Some. done.
  - intros ty l [<- <-]%lookup_singleton_Some. split; [done|].
    exists 3, (cleanup_task 5000). split; [by apply lookup_singleton_Some|done].
Qed.

(** The runner finishes the task: its program starts, reads the clock, writes. *)
Definition finish_op : TaskOp := TFinish "systask_a" true (Ok (JObject [("n", 1)])) "".
Definition finish_stmt : TDB -> result Z * TDB :=
  update_tasks (holds_task "systask_a" "node-1" 5001) (λ t,
    mkTask (task_ID t) (task_TaskID t) (task_Type t) SystemTaskStatusSucceeded None
      (task_Payload t) (task_State t) (JObject [("n", 1)]) "" (task_LockedBy t)
      (task_CreatedAt t) 5001).
Definition finish_rest (x : result Z) : Prog unit :=
  pbind (Return x) (λ n, if n =? 0 then pfail ErrSystemTaskLockLost
                         else ReleaseSystemTaskLock "systask_a" "node-1").

Definition sys0 : Sys := mkSys (cleanup_db 5000) [].
Definition sys2 : Sys := mkSys (cleanup_db 5000) [("node-1", Stmt finish_stmt finish_rest)].
Definition sys3 : Sys :=
  mkSys (finish_stmt (cleanup_db 5000)).2
    [("node-1", finish_rest (finish_stmt (cleanup_db 5000)).1)].

Lemma sys2_reachable : reachable sys2.
Proof.
  exists sys0. split; [by split; [apply cleanup_db_ok|]|].
  eapply rtc_l; [apply (step_spawn "node-1" finish_op)|].
  eapply rtc_l; [eapply (step_now "node-1" _ 0 5001); reflexivity|]. apply rtc_refl.
Qed.

Lemma sys2_step : step sys2 sys3.
Proof. apply (step_stmt "node-1" Z finish_stmt finish_rest 0). reflexivity. Qed.

Lemma at_most_one_active_task_witness :
  ∃ i, i = 3 ∧ tasks (sys_db sys2) !! i = Some (cleanup_task 5000).
Proof.
  exists 3. split; [|reflexivity].
  apply (at_most_one_active_task sys2 3 3 (cleanup_task 5000) (cleanup_task 5000) sys2_reachable);
    reflexivity.
Defined.

Lemma task_moves_forward_witness :
  ∃ t', tasks (sys_db sys3) !! 3 = Some t' ∧ later (cleanup_task 5000) t'.
Proof.
  apply (task_moves_forward sys2 sys3 3 (cleanup_task 5000) sys2_reachable
    (rtc_once _ _ sys2_step)). reflexivity.
Defined.

Lemma only_holder_writes_witness :
  ∃ j r, stepped_by j r sys2 sys3 ∧ holds r (cleanup_db 5000) (cleanup_task 5000).
Proof.
  eapply (only_holder_writes sys2 sys3 3 (cleanup_task 5000) _ sys2_reachable sys2_step);
    [reflexivity|vm_compute; reflexivity|]. right; left. done.
Defined.

Lemma cleanup_completes_witness :
  run 5000 (runLogCleanupTask 4 true (cleanup_task 5000) "node-1") (cleanup_db 5000) =
    (Ok tt, mkTDB {[3 := cleaned 5000 2 (cleanup_task 5000)]} 4 ∅ [1500]).
Proof.
  refine (eq_trans (cleanup_completes 5000 "node-1" 3 (cleanup_task 5000) (cleanup_db 5000) 1000
    100 [("total", 0); ("processed", 0); ("progress", 0); ("remaining", 0)] true 4 _ _ _ _ _ _ _ _) _);
    [done| |done|done|done|done|done|vm_compute; lia|vm_compute; reflexivity].
  split; [exact cleanup_db_ok|reflexivity..].
Defined.
