(* ===== verification/ChannelWitnesses.v ===== *)
(** * ChannelWitnesses: channels and retries at concrete inputs

    Concrete runs on which the parts of the channel component disagree: an edit that
    reaches only one of the two tables, an index that keeps a disabled channel, a
    draw that is not uniform, a flow of retries unlike the documented one; then the
    theorems on channels and retries at concrete inputs. *)

From Stdlib Require Import Ascii.
From S2P Require Export ChannelKeys.
From S2P Require Export RelayRetry.
From S2P Require Import SelectProps.
From S2P Require Import KeyProps.
From S2P Require Import RelayRetry.
From S2P Require Import Prelude.

#[local] Definition plain : ChannelInfo := mkInfo false 0 ∅ ∅ ∅ 0 "".
#[local] Definition sample (id : Z) (models group : string) (status : Z) (weight : option Z)
    (tag : option string) : Channel :=
  mkChannel id 1 "sk" status "c" weight models group (Some 0) (Some 1) ∅ tag plain None [].
#[local] Definition nothing : CW := mkCW ∅ 1 ∅ (mkCache ∅ ∅ ∅) 0 [].
#[local] Definition with_cache : ChannelConfig := {| MemoryCacheEnabled := true; decode_array _ := None |}.
#[local] Definition without_cache : ChannelConfig := {| MemoryCacheEnabled := false; decode_array _ := None |}.

(** The state after a successful run. *)
#[local] Definition after {A} (m : M CW A) (s : CW) : CW := (m s).2.
#[local] Definition inserted (cs : list Channel) : CW := after (BatchInsertChannels cs) nothing.

#[local] Definition weights (s : CW) : list (Z * Z) :=
  (λ a, (ab_ChannelId a, ab_Weight a)) <$> (map_to_list (cw_abilities s)).*2.
#[local] Definition enabled_rows (s : CW) : list Z :=
  ab_ChannelId <$> ability_rows ab_Enabled s.

(** Setting the weight of a tag to 0 writes 0 to the channels and leaves the
    abilities, which the choice goes by, at the old weight. *)
Theorem zero_weight_not_written :
  let s := inserted [sample 1 "gpt-4" "default" 1 (Some 7) (Some "t")] in
  let s' := after (EditChannelByTag "t" None None None None (Some 0)) s in
  (Weight <$> cw_channels s' !! 1, weights s') = (Some (Some 0), [(1, 7)]).
Proof. vm_compute. reflexivity. Qed.

(** Deleting the disabled channels leaves their abilities, and enabling their tag
    puts the abilities of the deleted channel back into service: a node that chooses
    in the database then returns an empty channel together with an error. *)
Theorem deleted_channel_revived :
  let _ := without_cache in
  let s := inserted [sample 1 "gpt-4" "default" 2 None (Some "t")] in
  let s := after DeleteDisabledChannel s in
  let s' := after (EnableChannelByTag "t") s in
  (enabled_rows s, (map_to_list (cw_channels s')).*1, enabled_rows s') = ([], [], [1]) ∧
  (GetRandomSatisfiedChannel (λ _, 0) "default" "gpt-4" 0 "" s').1
    = Ok (Some (empty_channel 1), Some ERecordNotFound).
Proof. vm_compute. split; reflexivity. Qed.

(** Giving channels a tag rewrites their abilities from the rows as they were before
    the transaction, so the abilities keep the old tag. *)
Theorem batch_tag_not_mirrored :
  let s := inserted [sample 1 "gpt-4" "default" 1 None (Some "old")] in
  let s' := after (BatchSetChannelTag [1] (Some "new")) s in
  (Tag <$> cw_channels s' !! 1, ab_Tag <$> (map_to_list (cw_abilities s')).*2)
  = (Some (Some "new"), [Some "old"]).
Proof. vm_compute. reflexivity. Qed.

(** A channel that names a model twice stands in the index twice, and disabling it
    removes one of the two: it is still chosen. *)
Theorem disabled_channel_still_chosen :
  let _ := with_cache in
  let s := inserted [sample 1 "gpt-4,gpt-4" "default" 1 None None] in
  let s := after InitChannelCache s in
  let s' := after (UpdateChannelStatus 1 "" ChannelStatusAutoDisabled "broken") s in
  match (GetRandomSatisfiedChannel (λ _, 0) "default" "gpt-4" 0 "" s').1 with
  | Ok (Some c, None) => (Id c, Status c) = (1, ChannelStatusAutoDisabled)
  | _ => False
  end.
Proof. vm_compute. reflexivity. Qed.

(** The draw among abilities of weight 0 favours the first: of the 20 values of the
    random number it takes 11. *)
Theorem database_draw_uneven :
  let _ := without_cache in
  let s := inserted [sample 1 "gpt-4" "default" 1 None None; sample 2 "gpt-4" "default" 1 None None] in
  let draw r := match (GetRandomSatisfiedChannel (λ _, r) "default" "gpt-4" 0 "" s).1 with
                | Ok (Some c, _) => Id c
                | _ => 0
                end in
  let draws := draw ∘ Z.of_nat <$> seq 0 20 in
  (count_occ Z.eq_dec draws 1, count_occ Z.eq_dec draws 2) = (11, 9)%nat ∨
  (count_occ Z.eq_dec draws 2, count_occ Z.eq_dec draws 1) = (11, 9)%nat.
Proof. vm_compute. tauto. Qed.

(** An enabled channel whose group no ability names makes the refresh of the index
    panic. *)
Theorem index_refresh_panics :
  let _ := with_cache in
  let s := inserted [sample 1 "gpt-4" "default" 1 None None] in
  let s := after (update (set_abilities ∅)) s in
  (InitChannelCache s).1 = Err panic_nil_map.
Proof. vm_compute. reflexivity. Qed.

#[local] Definition two_keys (status : Z) (disabled : gmap Z Z) : Channel :=
  mkChannel 1 1 ("a" +:+ String "010" "b") status "c" None "gpt-4" "default" (Some 0) (Some 1) ∅ None
    (mkInfo true 2 disabled ∅ ∅ 0 MultiKeyModeRandom) None [].

(** Enabling a multi-key channel without naming a key makes it enabled while all its
    keys stay disabled. *)
Theorem enabled_without_a_key :
  let _ := without_cache in
  let s := inserted [two_keys 3 {[0 := 3; 1 := 3]}] in
  let '(r, s') := EnableChannel 1 "" s in
  r = Ok true ∧
  match cw_channels s' !! 1 with
  | Some c => Status c = ChannelStatusEnabled ∧ is_ok (GetNextEnabledKey (λ _, 0) c s').1 = false
  | None => False
  end.
Proof. vm_compute. repeat split; reflexivity. Qed.

(** Enabling one key of a channel that is enabled already does not reach the
    database: the status is compared with the channel's, not with the key's. *)
Theorem enabling_a_key_not_saved :
  let _ := without_cache in
  let s := inserted [two_keys 1 {[0 := 3]}] in
  let '(r, s') := EnableChannel 1 "a" s in
  r = Ok false ∧ (MultiKeyStatusList ∘ Info <$> cw_channels s' !! 1) = Some {[0 := 3]}.
Proof. vm_compute. split; reflexivity. Qed.

(** ** The documented flow of retries *)

#[local] Definition member (id : Z) (group : string) (priority : Z) : Channel :=
  mkChannel id 1 "sk" 1 "c" None "gpt-4" group (Some priority) (Some 1) ∅ None plain None [].
#[local] Definition two_by_two : CW :=
  let _ := with_cache in
  after InitChannelCache
    (inserted [member 1 "A" 9; member 2 "A" 5; member 3 "B" 9; member 4 "B" 5]).

(** Every upstream answers 500; the group and retry number decide the channel. *)
#[local] Definition failing : Env := {|
  env_select _ group retry :=
    match (GetRandomSatisfiedChannel (CC := with_cache) (λ _, 0) group "gpt-4" retry "" two_by_two).1 with
    | Ok f => f
    | Err e => (None, Some e)
    end;
  env_setup _ _ := None;
  env_body _ := None;
  env_relay _ _ := Some (EApi (EText "upstream") "bad_response" 500 false true);
|}.

(** Two groups of two priorities and [RetryTimes = 3]: the comment of
    [CacheGetRandomSatisfiedChannel] announces the attempts A0, A1, B0, B1.  The code
    stays in a group for [RetryTimes + 1] attempts, repeating its lowest priority,
    so the request makes eight attempts and ends with the error of a missing
    channel in place of the upstream's. *)
Theorem retry_flow_not_as_documented :
  match relay 3 true ["A"; "B"] ["A"; "B"] AutomaticRetryStatusCodeRanges false false
          20 failing (member 1 "A" 9) "auto" (mkAutoCtx (Some 0) None (Some "A")) with
  | Some (used, Some e) => used = [1; 2; 2; 2; 3; 4; 4; 4] ∧ GetErrorCode e = "get_channel_failed"
  | _ => False
  end.
Proof. vm_compute. split; reflexivity. Qed.

#[local] Instance cached : ChannelConfig := {| MemoryCacheEnabled := true; decode_array _ := None |}.

Definition key_text : string := "k0" +:+ String "010" ("k1" +:+ String "010" "k2").

(** A channel with three keys, the second disabled, polled from the last. *)
Definition rotating : Channel :=
  mkChannel 1 1 key_text 1 "rotating" (Some 3) "gpt-4,gpt-4o" "default,vip" (Some 5) (Some 1) ∅
    (Some "t") (mkInfo true 3 {[1 := 3]} ∅ ∅ 2 MultiKeyModePolling) None [].
Definition single (id weight priority : Z) : Channel :=
  mkChannel id 1 "sk" 1 "single" (Some weight) "gpt-4" "default" (Some priority) (Some 1) ∅ (Some "t")
    (mkInfo false 0 ∅ ∅ ∅ 0 "") None [].

(** Two channels inserted, the second disabled and enabled again, the index built. *)
Definition ops : list channel_op :=
  [OpInsert rotating; OpBatchInsert [single 2 7 5]; OpStatus 2 "" 3 "broken"; OpInitCache;
   OpStatus 2 "" 1 ""; OpInitCache].
Definition start : CW := mkCW ∅ 1 ∅ (mkCache ∅ ∅ ∅) 0 [].
Definition built : CW := foldl (λ s op, run_op op s) start ops.

Lemma built_reach : channel_reach built.
Proof.
  unfold built, ops. cbn [foldl].
  repeat (apply reach_op; [|first [exact I|repeat (apply Forall_cons; split); simpl; lia || constructor]]).
  apply reach_empty.
Qed.

Lemma abilities_mirror_channels_witness :
  cw_abilities built !! ("vip", "gpt-4o", 1) = expected (cw_channels built) ("vip", "gpt-4o", 1).
Proof. apply (abilities_mirror_channels built), built_reach. Defined.

Lemma built_groups i c : cw_channels built !! i = Some c -> plain_groups c.
Proof.
  assert (map_Forall (λ _ c, Forall (λ g, lacks "|"%char g = true) (Split (Group c) ",")) (cw_channels built)) as H.
  { vm_compute cw_channels. apply map_Forall_to_list. vm_compute. repeat constructor. }
  intros Hc g Hg. specialize (H i c Hc). rewrite Forall_forall in H. by apply H.
Qed.

Lemma cache_index_is_abilities_witness :
  ∃ s', InitChannelCache built = (Ok tt, s') ∧
    ∀ g m i, i ∈ ids_at (cw_cache s') g m <->
      ∃ a, cw_abilities built !! (g, m, i) = Some a ∧ ab_Enabled a = true.
Proof. apply (cache_index_is_abilities built); [done|apply built_reach|apply built_groups]. Defined.

Lemma selection_is_proportional_witness :
  length (filter (λ r, picks [single 1 30 5; single 2 70 5] (single 2 70 5) r = true)
    (seqZ 0 (draws [single 1 30 5; single 2 70 5]))) = 70%nat.
Proof.
  destruct (selection_is_proportional [single 1 30 5; single 2 70 5] (single 2 70 5)) as [_ H].
  - by repeat constructor; set_solver.
  - split; [repeat (apply Forall_cons; split; [by vm_compute|]); constructor|reflexivity].
  - right. left.
  - exact H.
Defined.

(** The second of two candidates, asked for at the first retry. *)
Definition two : ChannelCache :=
  mkCache {["default" := {["gpt-4" := [1; 2]]}]} {[1 := single 1 3 9; 2 := single 2 3 5]} ∅.

Lemma selection_sound_witness :
  ∃ id l, channelsIDM two !! id = Some (single 2 3 5) ∧
    (id ∈ ids_at two "default" "gpt-4" ∨ id ∈ ids_at two "default" (FormatMatchingModelName "gpt-4")) ∧
    ("/v1/chat/completions" = "" ∨ path_allows two "/v1/chat/completions" id = true) ∧
    resolve two (candidates two "default" "gpt-4" "/v1/chat/completions") = Ok l ∧
    Z.of_nat (length (filter (λ q, GetPriority (single 2 3 5) < q) (distinct_of l)))
      = Z.min 1 (Z.of_nat (length (distinct_of l)) - 1).
Proof.
  apply (selection_sound (λ _, 0) two "default" "gpt-4" "/v1/chat/completions" 1 (single 2 3 5));
    [vm_compute; reflexivity|lia].
Defined.

Definition polled : CW := mkCW ∅ 2 ∅ (mkCache ∅ {[1 := rotating]} ∅) 0 [].

Lemma polling_is_fair_witness :
  ∃ idxs, idxs ≡ₚ [0; 2] ∧
    next_keys (λ _, 0) (length idxs) 1 polled = (λ i, Ok (key_at (GetKeys rotating) i, i)) <$> idxs.
Proof.
  apply (polling_is_fair (λ _, 0) rotating polled); [done|vm_compute; reflexivity|done|done|].
  vm_compute. discriminate.
Defined.

Lemma multi_key_update_keeps_service_witness :
  has_key (handlerMultiKeyUpdate rotating "k0" 3 "expired" 7).
Proof.
  destruct (multi_key_update_keeps_service rotating "k0" 3 "expired" 7) as [H _].
  - intros _ _. vm_compute. reflexivity.
  - discriminate.
  - exact H.
Defined.

Definition always_failing : Env := {|
  env_select _ _ _ := (Some (single 2 1 1), None);
  env_setup _ _ := None;
  env_body _ := None;
  env_relay _ _ := Some (EApi (EText "upstream") "bad_response" 500 false true);
|}.

Lemma relay_makes_bounded_attempts_witness :
  ∃ used err, relay 3 true ["A"; "B"] ["A"; "B"] AutomaticRetryStatusCodeRanges false false
      (Z.to_nat 13) always_failing (single 1 1 1) "auto" (mkAutoCtx None None None) = Some (used, err) ∧
    Z.of_nat (length used) <= 12.
Proof.
  apply (relay_makes_bounded_attempts 3 true ["A"; "B"] ["A"; "B"] AutomaticRetryStatusCodeRanges false false
    ltac:(lia) always_failing (single 1 1 1) "auto" (mkAutoCtx None None None)). unfold sound_ctx. simpl. lia.
Defined.
