(* ===== verification/MediaWitnesses.v ===== *)
(** * MediaWitnesses: media tasks at concrete inputs

    Concrete runs of the modelled functions: ends of a task that never reach the
    billing, refunds that no conditional update guards, answers that are not saved;
    then the theorems on media tasks at concrete inputs. *)

From S2P Require Export MediaTask.
From S2P Require Export Samples.
From S2P Require Import MediaProps.
From S2P Require Import Prelude.

#[local] Definition cfg : Config := sample_config false false.
#[export] Existing Instance cfg.
#[local] Definition ratios : TaskRatios := {|
  GetModelRatio _ := (float_of_int 1, true);
  GetGroupRatio _ := float_of_int 1;
  GetGroupGroupRatio _ _ := None;
|}.
#[export] Existing Instance ratios.

(** A task of 100 quota that user 1 pays from the wallet with token 5. *)
Definition sample_task (id : Z) (platform upstreamID : string) : Task :=
  mkTask id "task_x" platform 1 "default" 9 100 "generate" TaskStatusInProgress "" 1750000000 1750000001 0
    "30%" (mkProperties "" "" "veo") (mkPrivate "" upstreamID "" "wallet" 0 5 "" None) "".

Definition media_state (tasks : list Task) (faults : list (option string)) : MT :=
  mkMT (list_to_map ((λ t, (ID t, t)) <$> tasks)) 100 (set_World_faults faults sample_world) [] [].

(** An upstream whose every answer reads as [r]. *)
Definition answering (r : TaskInfo) : Upstream :=
  mkUpstream (λ _, false) (λ _ _, Ok (Ok "{}")) (λ _, None) (λ _, Ok r) (λ _, None) id (λ _ _, 0).

Definition balance (s : MT) : option Z := User_Quota <$> user_row 1 (mt_world s).
Definition statuses (s : MT) : list string := Status <$> (map_to_list (mt_tasks s)).*2.

Definition video_pass (r : TaskInfo) : PassEnv := {|
  pass_cancelled _ := false;
  platform_order l := remove_dups (Platform <$> l);
  channel_order m := map_to_list m;
  env_channel _ := Ok tt;
  env_video _ _ := Some (answering r);
  env_suno _ := None;
|}.

(** A client that asks for its failed task before the poller does moves the row to
    its final status; the poller no longer finds it, and the quota is not given
    back. *)
Theorem realtime_fetch_loses_refund :
  let t := sample_task 1 "41" "up1" in
  let s := media_state [t] [] in
  let s1 := (run 0 (tryRealtimeFetch "" (Some (FailTaskInfo "blocked")) t) s).2 in
  let s2 := (run 0 (RunTaskPollingOnce "" 1440 1000 (video_pass (FailTaskInfo "blocked"))) s1).2 in
  (balance s, statuses s2, balance s2, mt_billed s2)
  = (Some 6000000, [TaskStatusFailure], Some 6000000, []).
Proof. vm_compute. reflexivity. Qed.

(** Without that request the same pass gives the quota back. *)
Example poll_alone_refunds :
  let s := media_state [sample_task 1 "41" "up1"] [] in
  let s' := (run 0 (RunTaskPollingOnce "" 1440 1000 (video_pass (FailTaskInfo "blocked"))) s).2 in
  (statuses s', balance s', mt_billed s') = ([TaskStatusFailure], Some 6000100, [(1, Refunded)]).
Proof. vm_compute. reflexivity. Qed.

(** The tasks of a channel that no longer exists are marked failed by the bulk
    update, whose comment forbids that use, and never refunded. *)
Theorem deleted_channel_loses_refund :
  let s := media_state [sample_task 1 "41" "up1"] [] in
  let gone := mkPassEnv (λ _, false) (λ l, remove_dups (Platform <$> l)) map_to_list
    (λ _, Err (EText "gone")) (λ _ _, Some (answering (FailTaskInfo ""))) (λ _, None) in
  let s' := (run 0 (RunTaskPollingOnce "" 1440 1000 gone) s).2 in
  (statuses s', balance s', mt_billed s') = ([TaskStatusFailure], Some 6000000, []).
Proof. vm_compute. reflexivity. Qed.

(** Two rows with the same upstream id share one task object; the second round finds
    it failed already, skips the conditional update and refunds it once more. *)
Theorem shared_upstream_id_refunds_twice :
  let s := media_state [sample_task 1 "41" "up1"; sample_task 2 "41" "up1"] [] in
  let s' := (run 0 (RunTaskPollingOnce "" 1440 1000 (video_pass (FailTaskInfo "blocked"))) s).2 in
  (balance s', mt_billed s') = (Some 6000200, [(2, Refunded); (2, Refunded)]) ∧
  (Status <$> mt_tasks s' !! 1) = Some TaskStatusInProgress.
Proof. vm_compute. split; reflexivity. Qed.

#[local] Definition suno_failed : SunoUpstream :=
  mkSunoUpstream (λ _, false)
    (λ ids, Ok (Some ((λ id, mkSuno id "FAILURE" "blocked" 0 0 0 "") <$> ids))) id.
Definition suno_pass : PassEnv :=
  mkPassEnv (λ _, false) (λ l, remove_dups (Platform <$> l)) map_to_list (λ _, Ok tt)
    (λ _ _, None) (λ _, Some suno_failed).

(** A Suno task is refunded before its row is saved: when the save fails, the next
    pass refunds it again.  The ninth statement of the pass is the save. *)
Theorem suno_failed_save_refunds_twice :
  let save_fails := [None; None; None; None; None; None; None; None; Some "lost connection"] in
  let s := media_state [sample_task 1 "suno" "up1"] save_fails in
  let pass := RunTaskPollingOnce "" 1440 1000 suno_pass in
  let s1 := (run 0 pass s).2 in
  let s2 := (run 0 pass s1).2 in
  (statuses s1, balance s1, balance s2) = ([TaskStatusInProgress], Some 6000100, Some 6000200).
Proof. vm_compute. reflexivity. Qed.

(** Whether the data of a Suno task changed is decided on its sorted bytes: data that
    only permutes them is taken for unchanged. *)
Theorem suno_permuted_data_not_saved :
  let t := with_data "12" (with_times 5 6 7 (sample_task 1 "suno" "up1")) in
  taskNeedsUpdate suno_failed t (mkSuno "up1" TaskStatusInProgress "" 5 6 7 "21") = false.
Proof. vm_compute. reflexivity. Qed.

(** What a finished task really cost is not saved: the row keeps the quota that was
    paid on submission. *)
Theorem settled_quota_not_saved :
  let s := media_state [sample_task 1 "41" "up1"] [] in
  let r := mkTaskInfo TaskStatusSuccess "" "https://v" "" 250 in
  let s' := (run 0 (RunTaskPollingOnce "" 1440 1000 (video_pass r)) s).2 in
  (statuses s', balance s', Quota <$> mt_tasks s' !! 1) = ([TaskStatusSuccess], Some 5999850, Some 100).
Proof. vm_compute. reflexivity. Qed.

(** The tasks that are not refunded on a timeout are those from before 2025-02-22;
    the comment says 2026. *)
Theorem legacy_cutoff_is_2025 :
  civil (loc := fixed_zone 0) legacyTaskCutoff = (2025, 2, 22).
Proof. vm_compute. reflexivity. Qed.

#[local] Instance media_laws : ConfigLaws cfg := sample_config_laws false false.

(** A sweep, a poller that learns of a failure, and a client that asks meanwhile, in
    an interleaving where the poller wins. *)
Definition task1 : Task := sample_task 1 "41" "up1".
Definition state1 : MT := media_state [task1] [].
Definition failing : Upstream := answering (FailTaskInfo "blocked").
Definition threads : list (prog MT unit) :=
  [sweepTimedOutTasks 1440;
   updateVideoTasks "" (Some failing) (Ok tt) 9 ["up1"] {["up1" := task1]};
   tryRealtimeFetch "" (Some (FailTaskInfo "blocked")) task1].
Definition turns : list (nat * Z) := (λ i, (i, 0)) <$> [0; 1; 1; 2; 0; 1; 0]%nat.

Lemma task_billed_at_most_once_witness :
  (bills 1 (sched turns threads state1).2 <= 1)%nat ∧
  (bills 1 (sched turns threads state1).2 = 1%nat -> final_row 1 (sched turns threads state1).2 = true).
Proof.
  apply (task_billed_at_most_once "" turns threads state1 1); [|done].
  repeat (apply Forall_cons; split); [apply thread_sweep|apply thread_video|apply thread_realtime|constructor].
  - apply NoDup_singleton.
  - intros id t [_ <-]%lookup_singleton_Some. reflexivity.
  - done.
Defined.

Lemma task1_wallet : wallet_task task1 (mt_world state1).
Proof. split; [done|done|]. exists sample_token. done. Qed.

Lemma state1_good : good 0 (mt_world state1).
Proof. by apply good_start. Qed.

Lemma failed_task_refunded_witness :
  ∃ t' s', run 0 (updateVideoSingleTask "" failing 0 "up1" task1) state1 = (Ok (t', None), s') ∧
    Status t' = TaskStatusFailure ∧ Progress t' = "100%" ∧ FailReason t' = "blocked" ∧
    mt_tasks s' = <[1 := t']> (mt_tasks state1) ∧ mt_billed s' = [(1, Refunded)] ∧
    effective (mt_world s') = charge false 1 5 (-100) (effective (mt_world state1)).
Proof.
  apply (failed_task_refunded "" failing 0 0 "up1" task1 state1 0 "{}" (FailTaskInfo "blocked"));
    [done|done|done|apply task1_wallet|apply state1_good|done|done|done|done].
Defined.

(** An upstream whose adaptor reports a cost of 250. *)
Definition succeeding : Upstream :=
  mkUpstream (λ _, false) (λ _ _, Ok (Ok "{}")) (λ _, None)
    (λ _, Ok (mkTaskInfo TaskStatusSuccess "" "https://v" "" 0)) (λ _, None) id (λ _ _, 250).

Lemma finished_task_costs_actual_witness :
  ∃ t' s', run 0 (updateVideoSingleTask "" succeeding 0 "up1" task1) state1 = (Ok (t', None), s') ∧
    Quota t' = 250 ∧ Status t' = TaskStatusSuccess ∧
    (Status <$> mt_tasks s' !! 1) = Some TaskStatusSuccess ∧
    mt_billed s' = [(1, Settled)] ∧
    effective (mt_world s') = usage 1 9 150 (charge false 1 5 150 (effective (mt_world state1))).
Proof.
  apply (finished_task_costs_actual "" succeeding 0 0 "up1" task1 state1 0 "{}"
    (mkTaskInfo TaskStatusSuccess "" "https://v" "" 0) 250);
    [done|done|done|done|apply task1_wallet|apply state1_good|done|done|done|done|done|done].
Defined.
