(* ===== verification/TextWitnesses.v ===== *)
(** * TextWitnesses: concrete text requests and prices

    The theorems of [TextProps] and [PricingProps] at concrete requests, and what the
    definitions show of the code on concrete reports, of the price tables and of
    realtime connections. *)

From Stdlib Require Import QArith.
From S2P Require Export Samples.
From S2P Require Export TextProps.
From S2P Require Export Witnesses.
From S2P Require Export PricingProps.
From S2P Require Import Prelude.

#[local] Open Scope Z_scope.

#[local] Instance text_config : Config := sample_config true true.
#[local] Instance text_settings : TextSettings := {|
  toolPrices := ∅;
  GetDefaultModelRatioMap m := if decide (m = "claude-3-5-haiku") then Some (lit 1 2) else None;
|}.

(** Ratio 1.25, completion 4, cache reads at half the price. *)
Definition sample_price : PriceData :=
  mkPriceData false fzero (lit 5 4) (lit 4 1) (lit 1 2) (lit 5 4) (lit 5 4) (lit 2 1) (lit 1 1) (lit 1 1) (lit 1 1)
    [] false 0 (lit 1 1).

Definition sample_text (tools : option (option Z * option Z)) : TextInfo :=
  mkTextInfo "gpt-4o" sample_price "openai" (Some 1) 30 tools 0 None.

Definition sample_usage (completion : Z) : Usage :=
  {| emptyUsage with PromptTokens := 1000; CompletionTokens := completion; TotalTokens := 1000 + completion;
    PromptTokensDetails := mkInputDetails 400 0 600 0 0; CompletionTokenDetails := mkOutputDetails completion 0 0 0 |}.

(** 600 tokens, 400 at half the price and 50 at four times the price, times 1.25; and
    two web searches at 25 dollars a thousand. *)
Lemma text_quota_is_reference_witness :
  sm_Quota (calculateTextQuotaSummary (sample_text (Some (Some 2, None))) (Some (sample_usage 50))) = 26250 ∧
  reference_quota sample_price 1050 (text_price (sample_text (Some (Some 2, None))) (Some (sample_usage 50))) = 26250.
Proof.
  destruct (text_quota_is_reference (sample_text (Some (Some 2, None))) (Some (sample_usage 50))) as [H _];
    [done|vm_compute; intuition congruence|vm_compute; intuition congruence|].
  split; [rewrite H|]; by vm_compute.
Defined.

Lemma text_quota_monotone_witness :
  let quota c := sm_Quota (calculateTextQuotaSummary (sample_text None) (Some (with_completion c (sample_usage 0)))) in
  quota 50 <= quota 51 ∧ (~ (group_price sample_price == 0)%Q -> 1 <= quota 50).
Proof.
  apply (text_quota_monotone (sample_text None) (sample_usage 0) 50 51);
    [done|done|repeat constructor; by vm_compute|intros c; vm_compute; intuition congruence|done|done|..];
    vm_compute; intuition congruence.
Defined.

(** ** A request from start to end *)

#[local] Instance text_laws : ConfigLaws text_config := sample_config_laws true true.
#[local] Instance text_zone : Location := fixed_zone 0.

(** No expression is used. *)
Definition no_expr (_ : string) (_ : TokenParams) : result (float64 * string) := Err (EText "compile").

(** ** What the definitions show *)

(** Where an expression gives the price, a report without tokens is still charged,
    though its usage is not counted and the log says that it could not be charged. *)
Definition flat_expr (_ : string) (_ : TokenParams) : result (float64 * string) := Ok (float_of_int 2000, "base").
Definition flat_snapshot : BillingSnapshot := mkBillingSnapshot "tiered_expr" "2000" (lit 1 1) 0 "base" QuotaPerUnit.

Lemma tiered_charges_without_tokens :
  let r := text_quota flat_expr (λ _ _, false) (sample_text None) (Some flat_snapshot) 0 (Some emptyUsage) in
  sm_TotalTokens r.1 = 0 ∧ sm_Quota r.1 = 0 ∧ r.2 = 1000.
Proof. by vm_compute. Qed.

(** A report with more cached tokens than prompt tokens costs the smallest quota
    instead of its completion tokens' price. *)
Lemma cached_over_prompt_is_cheap :
  let u := {| emptyUsage with PromptTokens := 100; CompletionTokens := 50; TotalTokens := 150;
    PromptTokensDetails := mkInputDetails 1000 0 0 0 0 |} in
  sm_Quota (calculateTextQuotaSummary (sample_text None) (Some u)) = 1.
Proof. by vm_compute. Qed.

#[local] Open Scope Z_scope.
#[local] Instance price_config : Config := sample_config true true.
#[local] Instance price_laws : ConfigLaws price_config := sample_config_laws true true.
#[local] Instance price_zone : Location := fixed_zone 0.
#[local] Instance price_tools : TextSettings := {| toolPrices := ∅; GetDefaultModelRatioMap _ := None |}.

(** Two models, one by ratio and one by the call; no group has a ratio of its own. *)
#[local] Instance price_tables : RatioSettings := {|
  modelPriceMap := {["tts-1" := lit 1 100]};
  modelRatioMap := {["gpt-4o" := lit 5 4]};
  completionRatioMap := ∅;
  cacheRatioMap := {["gpt-4o" := lit 1 2]};
  createCacheRatioMap := ∅;
  imageRatioMap := ∅;
  audioRatioMap := ∅;
  audioCompletionRatioMap := ∅;
  groupRatioMap := {["default" := lit 1 1]};
  groupGroupRatioMap := ∅;
  defaultModelPrice := ∅;
  billing_BillingMode := ∅;
  billing_BillingExpr := ∅;
  SelfUseModeEnabled := false;
  EnableFreeModelPreConsume := false;
  common_PreConsumedQuota := 500;
|}.

Definition sample_price_request (model : string) : PriceRequest :=
  mkPriceRequest model "default" "default" None false false.

Definition text_info_of (p : PriceData) : TextInfo := mkTextInfo "gpt-4o" p "openai" (Some 1) 30 None 0 None.

Lemma relayed_text_costs_price_witness :
  wp (relayed_text no_expr (λ _ _, false) (Ok tt) (sample_price_request "gpt-4o") 30 0 fzero text_info_of 9
        (Some (sample_usage 50)))
    (λ res b', match res with
     | Ok quota => quota = 1250 ∧ settled (sample_request "wallet_only") 1050 9 1250 (effective (b_world b'))
     | Err _ => effective (b_world b') = effective sample_world
     end) (sample_request "wallet_only").
Proof.
  assert (∀ p snap, ModelPriceHelper no_expr (Ok tt) (sample_price_request "gpt-4o") 30 0 fzero = Ok (p, snap) ->
    QuotaToPreConsume p = 625 ∧ snap = None ∧
    sm_TotalTokens (calculateTextQuotaSummary (text_info_of p) (Some (sample_usage 50))) = 1050 ∧
    sm_Quota (calculateTextQuotaSummary (text_info_of p) (Some (sample_usage 50))) = 1250) as Hp.
  { intros p snap H. injection H as <- <-. by vm_compute. }
  eapply wp_mono; [apply (relayed_text_costs_price no_expr (λ _ _, false) (Ok tt) (sample_price_request "gpt-4o") 30 0
    fzero text_info_of 9 (Some (sample_usage 50)) (sample_request "wallet_only"))|].
  - split_and!; done.
  - intros p snap H. destruct (Hp p snap H) as (-> & -> & _ & Hq). split; [by unfold amount_ok|].
    intros pre _. rewrite text_quota_plain, Hq. by unfold amount_ok.
  - intros [quota|e] b' H; [|exact H]. destruct H as (p & snap & pre & H & _ & Hq & Hs).
    destruct (Hp p snap H) as (_ & -> & Ht & Hx). rewrite text_quota_plain, Hx in Hq.
    subst quota. rewrite Ht in Hs. done.
Defined.

(** ** What the definitions show *)

(** The completion ratios of the GPT-3.5 models are never used: every name that starts
    like them is taken by the branch of the GPT models before. *)
Lemma gpt35_ratios_unreachable :
  Forall (λ name, getHardcodedCompletionModelRatio name = (lit 2 1, false) ∧
                  gpt35_completion name ≠ (lit 2 1, false))
    ["gpt-3.5-turbo"; "gpt-3.5-turbo-0125"; "gpt-3.5-turbo-1106"; "gpt-3.5-turbo-16k"].
Proof. repeat constructor; by vm_compute. Qed.

(** A realtime connection of one event: the event is charged when it is done, and again
    when the connection is settled by the sum of its events. *)
Definition realtime_event : RealtimeUsage :=
  mkRealtimeUsage 50 40 10 (mkInputDetails 0 0 40 0 0) (mkOutputDetails 10 0 0 0).
Definition no_realtime : RealtimeUsage := mkRealtimeUsage 0 0 0 (mkInputDetails 0 0 0 0 0) (mkOutputDetails 0 0 0 0).

Definition realtime_connection : BM Z :=
  let! priced := price_and_preconsume no_expr (Ok tt) (sample_price_request "gpt-4o") 30 0 fzero in
  let! x := preConsumeUsage false (sample_price_request "gpt-4o") realtime_event no_realtime in
  PostWssConsumeQuota no_expr priced.1 "gpt-4o" priced.2 9 x.1.

Lemma realtime_charged_twice :
  let '(r, b) := realtime_connection (sample_request "wallet_only") in
  r = Ok 100 ∧ Ledger_users (effective (b_world b)) !! 1 = Some (6000000 - 2 * 100, 100, 1) ∧
  Ledger_tokens (effective (b_world b)) !! 5 = Some (1000 - 2 * 100, 2 * 100).
Proof. by vm_compute. Qed.

(** A realtime model with a price by the call is charged by the ratio of its tokens
    while the connection is open, and nothing at its end. *)
Lemma realtime_by_call_charged_by_ratio :
  let p := price_data false (lit 1 100) fzero true 5000 (lit 1 1) fzero fzero fzero fzero fzero fzero fzero in
  let '(r, b) := preConsumeUsage false (sample_price_request "gpt-4o") realtime_event no_realtime
                   (sample_request "wallet_only") in
  (∃ u, r = Ok (u, Ok tt) ∧ realtime_price no_expr p "gpt-4o" None 0 u = 0) ∧
  Ledger_users (effective (b_world b)) !! 1 = Some (6000000 - 100, 0, 0).
Proof. vm_compute. split; [eexists; split; reflexivity|reflexivity]. Qed.
