(* ===== verification/StreamWitnesses.v ===== *)
(** * StreamWitnesses: streams on concrete inputs

    A decoder for a handful of chunks, the theorems on streams applied to them, and the
    streams on which the conversion does not do what it means to. *)

From S2P Require Export ClaudeUpstreamProps.
From S2P Require Import Prelude.

(** ** Samples *)

#[local] Instance ascii_letters : Unicode := {|
  IsSpace r := (r =? 32) || within 9 13 r;
  IsLetter r := within 65 90 r || within 97 122 r;
  IsNumber r := within 48 57 r;
  IsHan _ := false |}.

Definition chunk (c : StreamChoice) : StreamResponse :=
  {| emptyStreamResponse with sr_Id := "id"; sr_Model := "gpt"; sr_Choices := [c] |}.
Definition says (d : Delta) : StreamResponse := chunk {| emptyChoice with sc_Delta := d |}.
Definition text_chunk (s : string) : StreamResponse := says (SetContentString emptyDelta s).
Definition thought_chunk (s : string) : StreamResponse := says (SetReasoningContent emptyDelta s).
Definition calls_chunk (l : list ToolCallResponse) : StreamResponse := says {| emptyDelta with d_ToolCalls := Some l |}.
Definition new_call (i : Z) (id name : string) : ToolCallResponse :=
  {| emptyToolCall with tc_Index := Some i; tc_ID := id; tc_Function := {| emptyFunction with fn_Name := name |} |}.
Definition more_args (i : Z) (s : string) : ToolCallResponse :=
  {| emptyToolCall with tc_Index := Some i; tc_Function := {| emptyFunction with fn_Arguments := s |} |}.
Definition finish_chunk (reason : string) : StreamResponse := chunk {| emptyChoice with sc_FinishReason := Some reason |}.
Definition sample_report : Usage := {| emptyUsage with PromptTokens := 10; CompletionTokens := 5; TotalTokens := 15 |}.
Definition usage_chunk : StreamResponse := {| emptyStreamResponse with sr_Usage := Some sample_report |}.

Definition sample_chunks : list (string * StreamResponse) :=
  [("role", text_chunk ""); ("hm", thought_chunk "hm"); ("hi", text_chunk "hi"); (" you", text_chunk " you");
   ("call", calls_chunk [new_call 0 "c1" "f"]); ("args", calls_chunk [more_args 0 "{}"; new_call 1 "c2" "g"]);
   ("stop", finish_chunk "tool_calls"); ("usage", usage_chunk);
   ("two", calls_chunk [new_call 0 "c1" "f"; new_call 1 "c2" "g"]);
   ("both", says {| emptyDelta with d_Content := Some "hi"; d_ReasoningContent := Some "hm" |});
   ("end", {| (finish_chunk "stop") with sr_Usage := Some sample_report |})].

#[local] Instance sample_decoder : Decoder := {|
  UnmarshalMap s := Some (JObject []);
  UnmarshalChunk s := snd <$> List.find (λ kv, String.eqb kv.1 s) sample_chunks;
  UnmarshalCompletion _ := None;
  UnmarshalUsage _ := None;
  UnmarshalCached _ := None;
  UnmarshalMoonshot _ := None;
  UnmarshalLlama _ := None |}.

Definition sample_config (format : RelayFormat) : StreamConfig :=
  mkStreamConfig format RelayModeChatCompletions ChannelTypeOpenAI "gpt-4o" 10 false false true.

Definition sample_names : list string := ["role"; "hm"; "hi"; " you"; "call"; "args"; "stop"; "usage"].
Definition sample_stream : list string := ((λ s, "data:" +:+ s) <$> ["role"; "hm"; "hi"; "call"; "args"; "stop"; "usage"]) ++ ["data: [DONE]"].

(** The events for the chunks of some names, as the client reads them. *)
Definition read (names : list string) : option Client :=
  client_run initClient (claude_events (ss_Sent (OaiStreamHandler (sample_config RelayFormatClaude) names).2)).

(** ** Witnesses *)


Lemma stream_bill_independent_of_format_witness :
  (OaiStreamHandler (sample_config RelayFormatClaude) sample_names).1 = (OaiStreamHandler (sample_config RelayFormatGemini) sample_names).1.
Proof. apply stream_bill_independent_of_format. by split_and!. Defined.

Lemma stream_bill_witness :
  PromptTokens (OaiStreamHandler (sample_config RelayFormatOpenAI) sample_names).1 = 10 ∧
  CompletionTokens (OaiStreamHandler (sample_config RelayFormatOpenAI) sample_names).1 = 5.
Proof.
  apply (stream_bill (sample_config RelayFormatOpenAI) sample_names
    [text_chunk ""; thought_chunk "hm"; text_chunk "hi"; text_chunk " you"; calls_chunk [new_call 0 "c1" "f"];
     calls_chunk [more_args 0 "{}"; new_call 1 "c2" "g"]; finish_chunk "tool_calls"] usage_chunk); [done|done|].
  repeat constructor; done.
Defined.

Lemma thinking_is_tagged_witness :
  shown (ss_Sent (OaiStreamHandler (sample_config RelayFormatOpenAI) ["hm"; "hi"; " you"; "usage"]).2)
  = open_tag +:+ "hm" +:+ close_tag +:+ "hi you".
Proof.
  refine (thinking_is_tagged (sample_config RelayFormatOpenAI) eq_refl eq_refl _
           [thought_chunk "hm"] [text_chunk "hi"; text_chunk " you"] usage_chunk _ _ _ _ _); [done|..];
    repeat constructor; done.
Defined.

Lemma stream_in_order_witness :
  ∃ y : System HandlerState, y_Handled y `prefix_of` ["role"; "hm"; "hi"; "call"; "args"; "stop"; "usage"] ∧ y_Caller y = Returned true.
Proof.
  destruct (stream_completes (oai_data_handler (sample_config RelayFormatClaude)) (λ d h, ex_intro _ _ eq_refl)
              sample_stream initHandler) as (y & Hr & Hc & He).
  exists y. split; [|done]. exact (proj1 (stream_in_order _ sample_stream false false initHandler y Hr)).
Defined.

Lemma stream_delivered_witness :
  ∃ y : System HandlerState, y_Handled y = ["role"; "hm"; "hi"; "call"; "args"; "stop"; "usage"].
Proof.
  destruct (stream_completes (oai_data_handler (sample_config RelayFormatClaude)) (λ d h, ex_intro _ _ eq_refl)
              sample_stream initHandler) as (y & Hr & Hc & He).
  exists y.
  exact (proj1 (stream_delivered (oai_data_handler (sample_config RelayFormatClaude)) (λ d h, ex_intro _ _ eq_refl) sample_stream false false initHandler y Hr Hc He)).
Defined.

(** A Claude stream: text, then a tool call; the last event leaves out the input. *)
Definition start_event : ClaudeResponse :=
  {| emptyClaude with cr_Type := "message_start"; cr_Message := Some {| emptyMedia with cm_Id := "m"; cm_Model := "claude";
     cm_Usage := Some {| emptyClaudeUsage with cu_InputTokens := 20; cu_CacheReadInputTokens := 7; cu_OutputTokens := 1 |} |} |}.
Definition end_event : ClaudeResponse :=
  {| emptyClaude with cr_Type := "message_delta"; cr_Usage := Some {| emptyClaudeUsage with cu_OutputTokens := 9 |};
     cr_Delta := Some {| emptyMedia with cm_StopReason := Some "tool_use" |} |}.
Definition block_events : list ClaudeResponse :=
  [blockStart 0 textBlock; blockDelta 0 (textDelta "hi"); generateStopBlock 0;
   blockStart 1 (toolBlock (new_call 0 "c1" "f")); blockDelta 1 (jsonDelta "{"); blockDelta 1 (jsonDelta "}");
   generateStopBlock 1].
Definition sample_events : list ClaudeResponse := start_event :: block_events ++ [end_event; messageStop].

Definition pinged_events : list ClaudeResponse :=
  start_event :: {| emptyClaude with cr_Type := "ping" |} :: block_events ++ [end_event; messageStop].

Lemma claude_chunks_faithful_witness :
  let calls := (pinged_events ≫= converted) ≫= chunk_calls in
  args_at 1 calls = "{}" ∧ starts_at 1 calls = [("c1", "f")].
Proof.
  assert (client_run initClient (without_pings pinged_events) =
    Some (mkClient Stopped "m" "claude" [(KText, "hi"); (KTool "c1" "f", "{}")] ∅ "tool_use"
            (Some {| emptyClaudeUsage with cu_OutputTokens := 9 |}))) as Hrun by reflexivity.
  destruct (claude_chunks_faithful pinged_events _ Hrun) as (_ & Ht & _).
  destruct (Ht 1%nat "c1" "f" "{}" eq_refl) as [Ha Hs]. split; [exact Ha|exact (Hs ltac:(done))].
Defined.

#[local] Instance no_paths : JsonPath := {| gjson_Int _ _ := None; sjson_Set _ _ _ := None |}.
Definition decode_event (s : string) : option ClaudeResponse :=
  if decide (s = "start") then Some start_event
  else if decide (s = "text") then Some (blockDelta 0 (textDelta "hi"))
  else if decide (s = "end") then Some end_event else None.

Lemma claude_stream_bill_witness :
  ∃ u, (ClaudeStreamHandler decode_event (mkUpConfig RelayFormatOpenAI false false 30 true) "r" 0 "claude"
          ["start"; "text"; "end"]).1 = Ok u ∧
  PromptTokens u = 20 ∧ CompletionTokens u = 9 ∧ CachedTokens (PromptTokensDetails u) = 7.
Proof.
  destruct (claude_stream_bill decode_event (mkUpConfig RelayFormatOpenAI false false 30 true) (or_intror eq_refl)
              "r" 0 "claude" ["start"; "text"; "end"] start_event [blockDelta 0 (textDelta "hi"); end_event] _ _
              ltac:(repeat constructor; done) eq_refl eq_refl eq_refl ltac:(repeat constructor; done))
    as (u & Hu & Hr & _ & _ & _ & Hp & Hc & _).
  exists u. split; [exact Hu|]. split; [exact Hp|]. split; [exact (Hc eq_refl)|exact Hr].
Defined.

(** ** Streams that are not converted as meant *)

(** The answer of two chunks starts twice: the last chunk is converted with the count of
    the first. *)
Theorem two_chunk_stream_restarts : read ["hi"; "usage"] = None.
Proof. reflexivity. Qed.

(** The answer of one chunk never starts. *)
Theorem one_chunk_stream_never_starts : read ["end"] = None.
Proof. reflexivity. Qed.

(** A stream that ends with a finish reason, and no usage of its own, is never stopped:
    the text block stays open, though the usage has been estimated by then. *)
Theorem finish_without_usage_never_stops :
  read ["role"; "hi"; "stop"] = Some (mkClient Body "id" "gpt" [(KText, "hi")] {[0]} "" None) ∧
  ci_Usage (ss_Claude (OaiStreamHandler (sample_config RelayFormatClaude) ["role"; "hi"; "stop"]).2) ≠ None.
Proof. by vm_compute. Qed.

(** Text that comes with reasoning in one chunk is lost. *)
Theorem text_beside_reasoning_lost :
  cl_Blocks <$> read ["role"; "both"; "stop"; "usage"] = Some [(KThinking, "hm")].
Proof. by vm_compute. Qed.

(** Of several tool calls in the first chunk only one is started; a fragment of the
    second is then refused. *)
Theorem first_chunk_starts_one_call :
  cl_Blocks <$> read ["two"; "stop"; "usage"] = Some [(KTool "c1" "f", "")].
Proof. by vm_compute. Qed.

(** A line [DONE] without [data:] is let through by the scanner and handed on as data. *)
Theorem bare_done_is_data : scan_line "[DONE]" = LData "]".
Proof. by vm_compute. Qed.

(** Text beside an empty list of tool calls does not reach a Gemini client. *)
Theorem gemini_text_beside_empty_calls_lost :
  let r := says {| (SetContentString emptyDelta "hi") with d_ToolCalls := Some [] |} in
  ∃ g, StreamResponseOpenAI2Gemini UnmarshalMap 0 r = Some g ∧ (Candidates g ≫= λ c, gc_Parts (ga_Content c)) = [].
Proof. eexists. split; reflexivity. Qed.

(** A last chunk that reports usage and finishes the answer is not sent to an OpenAI
    client that did not ask for the usage: it sees no finish reason. *)
Theorem finish_with_usage_not_sent :
  ss_Sent (OaiStreamHandler {| (sample_config RelayFormatOpenAI) with cf_ThinkingToContent := false |} ["hi"; "end"]).2
  = [StringData "hi"; DoneData].
Proof. by vm_compute. Qed.

(** The first tool call after a text has index 1 in the OpenAI stream. *)
Theorem claude_call_after_text_has_index_one :
  let calls := (sample_events ≫= converted) ≫= chunk_calls in calls_ok 0 0 (take 1 calls) = false ∧ tc_Index <$> head calls = Some (Some 1).
Proof. by vm_compute. Qed.

(** An [input_json_delta] without its text stops the stream with a panic. *)
Theorem json_delta_without_text_panics :
  StreamResponseClaude2OpenAI (blockDelta 0 {| emptyMedia with cm_Type := "input_json_delta" |}) = Err panic_nil.
Proof. reflexivity. Qed.

(** A tool call of index [n] is closed by [n + 1] events, whatever was opened. *)
Theorem large_index_floods call n ci :
  LastMessagesType ci = LastMessageTypeTools -> ToolCallMaxIndexOffset ci = 0 -> tc_Index call = Some n -> 0 <= n ->
  length (stopOpenBlocks (tool_response [call] ci).2) = S (Z.to_nat n).
Proof.
  intros Hl Hm Hi Hn. unfold tool_response. rewrite Hl, decide_True, Hm by done. cbn [tool_events]. rewrite Hi. cbn.
  rewrite length_fmap, length_seqZ. destruct (Z.ltb_spec 0 n); lia.
Qed.

(** Digits set as sub- or superscripts are numbers to Unicode: the weight meant for
    mathematical symbols is not used for them. *)
Theorem script_digits_cost_as_numbers {uc : Unicode} m r :
  IsSpace r = false -> isCJK r = false -> isEmoji r = false -> IsNumber r = true ->
  rune_cost m WNone r = (Some (m_Number m), WNumber).
Proof. intros H1 H2 H3 H4. unfold rune_cost, isLatinOrNumber. by rewrite H1, H2, H3, H4, orb_true_r. Qed.

(** The signal of a handler that stops can be taken by the goroutine that pings.  When
    the queue is full by then, nothing but the timeout or the client's departure ends
    the wait. *)
Definition stops_at_once (data : string) (h : unit) : StreamResult * unit := (SStop None, h).

(** After the signal is taken, with [k] lines queued. *)
Definition filling (k : nat) (scanner : Scanner) : System unit :=
  mkSystem (replicate (11 - k) "data:x") false scanner (replicate k "x") (HandEnd true) tt ["x"] 0 Waiting
    false false false (SetEndReason StreamEndReasonHandlerStop NewStreamStatus) (Z.of_nat k + 1).

Lemma fill_scan k : (k <= 10)%nat ->
  stream_step stops_at_once (filling k Scanning) {| (filling (S k) (Sending "x")) with y_Chan := replicate k "x" |}.
Proof.
  intros Hk.
  pose proof (scan_step stops_at_once (filling k Scanning) "data:x" (replicate (10 - k) "data:x") eq_refl) as Hs.
  replace {| (filling (S k) (Sending "x")) with y_Chan := replicate k "x" |}
    with (scan_next "data:x" (replicate (10 - k) "data:x") (filling k Scanning)).
  - apply Hs; try done. simpl y_Lines. by replace (11 - k)%nat with (S (10 - k)) by lia.
  - assert (scan_line "data:x" = LData "x") as El by reflexivity.
    unfold scan_next. rewrite El. unfold filling. cbn -[Z.of_nat Nat.sub].
    replace (11 - S k)%nat with (10 - k)%nat by lia. f_equal. lia.
Qed.

Lemma fill_send k : (k < 10)%nat ->
  stream_step stops_at_once {| (filling (S k) (Sending "x")) with y_Chan := replicate k "x" |} (filling (S k) Scanning).
Proof.
  intros Hk.
  pose proof (send_data stops_at_once {| (filling (S k) (Sending "x")) with y_Chan := replicate k "x" |} "x" eq_refl) as Hs.
  cbn -[Z.of_nat Nat.sub replicate] in Hs. rewrite <- replicate_S_end in Hs. apply Hs.
  rewrite length_replicate. unfold chanSize. lia.
Qed.

Lemma fill_all k : (k <= 10)%nat -> reachable stops_at_once (filling 0 Scanning) (filling k Scanning).
Proof.
  induction k as [|k IH]; intros Hk; [constructor|].
  eapply reach_step; [eapply reach_step; [apply IH; lia|apply fill_scan; lia]|apply fill_send; lia].
Qed.

Theorem stolen_stop_waits_for_timeout :
  ∃ y, reachable stops_at_once (stream_start (replicate 12 "data:x") false true tt) y ∧ y_Handler y = HandEnd true ∧
  ∀ y', stream_step stops_at_once y y' ->
    y' = caller_leaves (set_end StreamEndReasonTimeout y) ∨ y' = {| y with y_ClientGone := true |}.
Proof.
  exists {| (filling 11 (Sending "x")) with y_Chan := replicate 10 "x" |}. split.
  - eapply reachable_trans; [|eapply reach_step; [apply (fill_all 10); lia|by apply fill_scan]].
    eapply reachable_one; [by apply (scan_step _ _ "data:x" (replicate 11 "data:x"))|].
    eapply reachable_one; [apply send_data; [reflexivity|apply Nat.ltb_lt; reflexivity]|].
    eapply reachable_one; [by apply (handle _ _ "x" [])|].
    eapply reachable_one; [apply ping_stop; [reflexivity|apply Nat.ltb_lt; reflexivity]|]. constructor.
  - split; [reflexivity|]. intros y' Hstep. inversion Hstep; cbn in *; try done; try lia; auto.
    unfold chanSize in *. lia.
Qed.
