(* ===== verification/AccountWitnesses.v ===== *)
(** * AccountWitnesses: accounts on concrete worlds

    A casbin model, a password hash and one-time passwords that satisfy the documented
    laws, the theorems on accounts applied to a small site, and runs that show where
    the handlers differ from what they mean to do. *)

From Stdlib Require Import Ascii.
From S2P Require Export LoginProps.
From S2P Require Export AuthzProps.
From S2P Require Export Samples.
From S2P Require Import Prelude.

(** ** Concrete libraries *)

(** Fields separated by commas, blanks after a comma dropped. *)
Fixpoint csv_fields (acc : string) (s : string) : list string :=
  match s with
  | EmptyString => [acc]
  | String c s =>
      if Nat.eqb (nat_of_ascii c) 44 then acc :: csv_fields "" s
      else if Nat.eqb (nat_of_ascii c) 32 then csv_fields acc s
      else csv_fields (acc +:+ String c "") s
  end.

Lemma csv_plain x acc s : plain_text x = true -> csv_fields acc (x +:+ s) = csv_fields (acc +:+ x) s.
Proof.
  revert acc. induction x as [|c x IH]; intros acc Hx; simpl.
  - f_equal. induction acc as [|d acc IHa]; [done|]. by rewrite string_cons_app, <- IHa.
  - simpl in Hx. apply andb_true_iff in Hx as [Hc Hx].
    assert (Nat.eqb (nat_of_ascii c) 44 = false ∧ Nat.eqb (nat_of_ascii c) 32 = false) as [-> ->].
    { unfold plain_char in Hc. split; apply Nat.eqb_neq; intros E; by rewrite E in Hc. }
    rewrite IH by done. f_equal. clear. induction acc as [|d acc IHa]; [done|]. by rewrite !string_cons_app, IHa.
Qed.

Definition sample_casbin : Casbin := {|
  LoadPolicyLine line m :=
    match csv_fields "" line with
    | "p" :: fields => Ok (if bool_decide (fields ∈ m) then m else m ++ [fields])
    | _ => Err (EText "invalid policy rule")
    end;
  policy_add m rule := if bool_decide (rule ∈ m) then None else Some (m ++ [rule]);
  policy_remove_filtered m i vals := List.filter (λ p, negb (matches_filter i vals p)) m;
  GetFilteredPolicy m i vals := Ok (List.filter (matches_filter i vals) m);
|}.

Lemma csv_field x s : plain_text x = true -> csv_fields "" (x +:+ ", " +:+ s) = x :: csv_fields "" s.
Proof. intros H. by rewrite csv_plain. Qed.

Lemma csv_last x : plain_text x = true -> csv_fields "" x = [x].
Proof.
  intros H. change [x] with (csv_fields ("" +:+ x) ""). rewrite <- csv_plain by done. f_equal.
  clear. induction x as [|c x IH]; [done|]. by rewrite string_cons_app, <- IH.
Qed.

Lemma csv_join a b c d : forallb plain [a; b; c; d] = true ->
  csv_fields "" (GoString.Join ["p"; a; b; c; d] ", ") = ["p"; a; b; c; d].
Proof.
  simpl forallb. unfold plain. rewrite !andb_true_iff. intros ([_ Ha] & [_ Hb] & [_ Hc] & [_ Hd] & _).
  change (GoString.Join _ _) with ("p" +:+ ", " +:+ a +:+ ", " +:+ b +:+ ", " +:+ c +:+ ", " +:+ d).
  by rewrite !csv_field, csv_last.
Qed.

Lemma sample_casbin_laws : CasbinLaws sample_casbin.
Proof. split; try done. intros a b c d m H. cbn [LoadPolicyLine sample_casbin]. by rewrite csv_join. Qed.

Definition sample_identity : Identity := {|
  Password2Hash _ p := if Nat.ltb 72 (String.length p) then Err (EText "bcrypt: password length exceeds 72 bytes")
                       else Ok ("hash of " +:+ p);
  ValidatePasswordAndHash p h := bool_decide (h = "hash of " +:+ p);
  UnmarshalSetting _ := emptySetting;
  MarshalSetting s := Ok (SidebarModules s +:+ "{}");
  MarshalSidebar _ := Ok "[]";
|}.

Lemma sample_identity_laws : IdentityLaws sample_identity.
Proof.
  split. intros salt p h. cbn [Password2Hash ValidatePasswordAndHash sample_identity].
  destruct (Nat.ltb 72 (String.length p)); [done|]. intros [= <-]. by apply bool_decide_eq_true.
Qed.

(** A one-time password that is right in even half minutes. *)
Definition sample_totp : Totp := {|
  totp_Validate code secret now := bool_decide (code = "123456") && Z.even (now / 30) |}.

Definition sample_site : Site := {|
  QuotaForNewUser := 100; QuotaForInvitee := 0; QuotaForInviter := 0; IsPaymentComplianceConfirmed := true;
  PasswordLoginEnabled := true; RegisterEnabled := true; PasswordRegisterEnabled := true;
  EmailVerificationEnabled := true; GenerateDefaultToken := false; DefaultUseAutoGroup := false |}.

Definition sample_gateway : Gateway := {|
  IP := string;
  ParseIP s := if bool_decide (s = "") then None else Some s;
  ip_equal a b := bool_decide (a = b);
  ParseCIDR _ := None;
  GetUserUsableGroups _ := ["default"];
  ContainsGroupRatio _ := true;
|}.

(** ** A site with a root, an administrator and two users *)

Definition account (name : string) (role : Z) (email : string) : User := {| zeroUser with
  User_Username := name; User_Password := "hash of password1"; User_Role := role; User_Status := 1;
  User_Group := "default"; User_Email := email; User_AffCode := name; User_Quota := 500 |}.

Definition site_token (id user : Z) (key : string) : Token :=
  mkToken id user key 1 0 (-1) 1000 false 0 "mine" 0 false "" None "" false.

Definition the_twofa : TwoFA := mkTwoFA 1 3 "secret" true 0 None None.

Definition site_tables : Tables := {| sample_tables with
  Tables_users := {[1 := account "root" 100 "r@x"; 2 := account "bob" 10 "b@x"; 3 := account "carol" 1 "c@x";
                    4 := account "dave" 1 "d@x"]};
  Tables_tokens := {[5 := site_token 5 3 "key3"; 6 := site_token 6 4 "key4"]};
  Tables_twofas := {[3 := the_twofa]} |}.

Definition site_world : World := {| sample_world with World_db := site_tables |}.

Definition bob : Caller := mkCaller 2 "bob" 10 false "10.0.0.1".
Definition root_caller : Caller := mkCaller 1 "root" 100 false "10.0.0.1".
Definition manage (id : Z) (action : string) : ManageRequest := mkManage id action 0 "".

Definition bearer (key : string) : Request := mkRequest ("Bearer sk-" +:+ key) "" "/v1/chat/completions" "" "" "" "" "10.0.0.2".

#[local] Existing Instances sample_casbin sample_casbin_laws sample_identity sample_identity_laws sample_totp
  sample_site sample_gateway.
#[local] Instance site_config : Config := sample_config true false.

(** ** The theorems applied *)

Lemma rank_respected_witness :
  (ManageUser bob (Some (manage 1 "disable")) site_world).1 = Err (EText "user.no_permission_higher_level") ∧
  above 10 (serve_admin bob (RManage (Some (manage 3 "disable"))) site_world).2 = above 10 site_world.
Proof.
  split; [vm_compute; reflexivity|].
  apply (rank_respected bob (RManage (Some (manage 3 "disable"))) site_world); [vm_compute; congruence|done|done].
Defined.

Lemma profile_requests_keep_balances_witness :
  ∃ u, user_row 3 site_world = Some u ∧ balance (account "carol" 1 "c@x") = balance u.
Proof.
  apply (profile_requests_keep_balances (inl (bob, RManage (Some (manage 4 "disable")))) site_world 3
    (account "carol" 1 "c@x")); vm_compute; reflexivity.
Defined.

Lemma root_survives_witness :
  ∃ u, user_row 1 (serve_self (SDelete root_caller) site_world).2 = Some u ∧ is_root u.
Proof.
  apply (root_survives site_world (serve_self (SDelete root_caller) site_world).2 1 (account "root" 100 "r@x")).
  - apply rtc_once. by apply step_self.
  - reflexivity.
  - by split.
Defined.

(** The channel rules of a running site: administrators may read channels. *)
Definition read_rule : CasbinRule := mkCasbinRule "p" "role:admin" "channel" "read" "allow" "" "".
Definition policy_world : World := {| site_world with
  World_db := {| site_tables with Tables_rules := [read_rule] |};
  World_enforcer := Some [policy_of read_rule] |}.

Lemma policy_enforced : enforced policy_world.
Proof.
  split; [done|]. split; [by repeat constructor|]. exists [policy_of read_rule]. split; [done|].
  intros x. split.
  - intros ->%list_elem_of_singleton. exists read_rule. split; [by apply list_elem_of_singleton|done].
  - intros (r & ->%list_elem_of_singleton & ->). by apply list_elem_of_singleton.
Qed.

(** Bob is denied reading and granted writing; another administrator is not. *)
Lemma permissions_roundtrip_witness :
  let w' := ((do! SetUserPermissionsInTx 2 [("channel", {["read" := false; "write" := true]})] in ReloadPolicy) policy_world).2 in
  Can (World_enforcer w') 2 RoleAdminUser (mkPermission "channel" "read") = false ∧
  Can (World_enforcer w') 2 RoleAdminUser (mkPermission "channel" "write") = true ∧
  Can (World_enforcer w') 7 RoleAdminUser (mkPermission "channel" "read") = true.
Proof.
  pose proof (permissions_roundtrip policy_world 2 [("channel", {["read" := false; "write" := true]})]
    policy_enforced ltac:(repeat constructor; set_solver)) as H.
  destruct (bind _ _ policy_world) as [r w'] eqn:E. destruct H as (_ & _ & H). cbn [snd].
  split_and!; (rewrite H; [vm_compute; reflexivity|vm_compute; reflexivity]).
Defined.

Lemma Init_restores_baseline_witness :
  let w := {| site_world with World_db := {| site_tables with
      Tables_rules := [mkCasbinRule "p" "role:admin" "channel" "read" "deny" "" ""] |} |} in
  (Init true w).1 = Ok tt ∧ enforced (Init true w).2.
Proof.
  intros w. pose proof (Init_restores_baseline w eq_refl ltac:(repeat constructor)) as H.
  destruct (Init true w) as [r w']. destruct H as (Hr & He & _). by split.
Defined.

(** ** The second factor *)

Definition guesses : list (Z * string) :=
  [(1701000000, "000000"); (1701000001, "000001"); (1701000002, "AAAA-BBBB"); (1701000003, "111111"); (1701000300, "222222")].

Lemma second_factor_lockout_witness :
  answer_at 1701000420 3 "123456" (answers 3 guesses site_world) =
    (Err ErrLocked, set_World_now 1701000420 (answers 3 guesses site_world)) ∧
  (answer_at 1701000420 3 "123456" site_world).1 = Ok tt.
Proof.
  split; [|vm_compute; reflexivity].
  apply (second_factor_lockout 3 the_twofa site_world guesses 1701000300 "222222" 1701000420 "123456"); try done.
  unfold guesses. repeat constructor; vm_compute; try done; intros ? ? H; inversion H.
Defined.

Definition drawn : list Z := [1; 2; 3; 30; 200; 35; 77; 9].

Lemma issued_codes_accepted_witness :
  (ValidateBackupCode 3 "bcd4u9fj" (CreateBackupCodes 3 ["s"] [generateRandomBackupCode drawn] site_world).2).1 = Ok true.
Proof.
  apply (issued_codes_accepted 3 ["s"] [generateRandomBackupCode drawn] site_world _ (generateRandomBackupCode drawn)); try done.
  - repeat constructor. by exists drawn.
  - by apply list_elem_of_singleton.
Defined.

(** ** Sessions and tokens *)

Definition carol_login : Event := ELogin "10.0.0.3" (Some ("carol", "password1")).
Definition carol_code : Event := EVerify "10.0.0.3" "123456".

Definition carol_pending : WebSession :=
  {| emptyWebSession with sess_pending_username := Some "carol"; sess_pending_user_id := Some 3 |}.
Definition carol_session : WebSession :=
  mkWebSession (Some 3) (Some "carol") (Some 1) (Some 1) (Some "default") None None.

Lemma carol_run : session_run carol_session [(site_world, carol_code); (site_world, carol_login)].
Proof.
  apply (run_step carol_pending _ _ _ _ (respond carol_pending carol_code site_world).2); [|done|done|vm_compute; reflexivity].
  apply (run_step emptyWebSession _ _ _ _ (respond emptyWebSession carol_login site_world).2); [constructor|done|done|].
  vm_compute; reflexivity.
Qed.

Lemma session_authentic_witness :
  opened_for carol_session 3 [(site_world, carol_code); (site_world, carol_login)].
Proof. apply (session_authentic carol_session _ 3); [exact carol_run|reflexivity]. Defined.

Lemma disabled_user_locked_out_witness :
  let w0 := (ManageUser bob (Some (manage 3 "disable")) site_world).2 in
  let w' := (TokenAuth (bearer "key3") w0).2 in
  (TokenAuth (bearer "key3") w').1 = Err banned ∧
  ∃ tc, (TokenAuth (bearer "key4") w').1 = Ok tc ∧ Token_UserId (tc_token tc) ≠ 3.
Proof.
  intros w0 w'. split; [vm_compute; reflexivity|].
  destruct (TokenAuth (bearer "key4") w') as [[tc|e] w''] eqn:E; [|vm_compute in E; discriminate].
  exists tc. split; [reflexivity|].
  apply (disabled_user_locked_out bob (manage 3 "disable") site_world w0 w' (bearer "key4") tc w'');
    [done|done|reflexivity|vm_compute; reflexivity|by apply rtc_once, traffic_request|exact E].
Defined.

(** ** What the handlers do not mean to do *)

(** The first statement fails. *)
Definition failing (fs : list (option string)) (w : World) : World := set_World_faults fs w.

(** [ManageUser] "delete": the account is deleted, and then the update that follows does
    not find it, so the administrator is told of a failure and no audit entry is made. *)
Theorem manage_delete_reports_failure :
  let '(r, w') := ManageUser bob (Some (manage 3 "delete")) site_world in
  r = Err ERecordNotFound ∧ user_row 3 w' = None ∧ Tables_logs (World_db w') = [].
Proof. vm_compute. repeat split. Qed.

(** A failed read leaves an empty struct whose rank is below everyone's: an
    administrator's request then disables root. *)
Theorem manage_failed_read_disables_root :
  let '(r, w') := ManageUser bob (Some (manage 1 "disable")) (failing [Some "timeout"] site_world) in
  r = Ok tt ∧ User_Status <$> user_row 1 w' = Some UserStatusDisabled.
Proof. vm_compute. split; reflexivity. Qed.

(** Without an id the request acts on the first account; a missing account passes the
    check for existence and a grant to it is reported as done. *)
Theorem manage_wrong_target :
  (let '(r, w') := ManageUser root_caller (Some (mkManage 0 "add_quota" 5 "add")) site_world in
   r = Ok tt ∧ User_Quota <$> user_row 1 w' = Some 505) ∧
  (let '(r, w') := ManageUser bob (Some (mkManage 99 "add_quota" 5 "add")) site_world in
   r = Ok tt ∧ user_row 99 w' = None).
Proof. vm_compute. repeat split. Qed.

(** [DeleteSelf] drops the error of its read: root deletes itself when the read fails. *)
Theorem root_deletes_itself :
  let '(r, w') := DeleteSelf root_caller (failing [Some "timeout"] site_world) in
  r = Ok tt ∧ user_row 1 w' = None.
Proof. vm_compute. split; reflexivity. Qed.

(** [IsTwoFAEnabled] answers no when its query fails: the password alone opens the session. *)
Theorem second_factor_fails_open :
  (Login emptyWebSession "ip" (Some ("carol", "password1")) (failing [None; Some "timeout"] site_world)).1 =
    Ok carol_session.
Proof. vm_compute. reflexivity. Qed.

(** [UpdateUserSetting] builds the settings anew and drops the sidebar, the billing
    preference and the language. *)
Theorem setting_update_drops r notify :
  let s := build_setting r notify in
  SidebarModules s = "" ∧ BillingPreference s = "" ∧ Language s = "".
Proof. done. Qed.

(** The code sent to an address is not spent by [EmailBind]: two accounts take the same
    address, which then counts as free, and a password reset changes both. *)
Definition bind_both : GM unit :=
  do! RegisterVerificationCodeWithKey "new@x" "c1" EmailVerificationPurpose in
  do! EmailBind 3 "new@x" "c1" in EmailBind 4 "new@x" "c1".

Theorem email_shared :
  let '(r, w) := bind_both site_world in
  r = Ok tt ∧ User_Email <$> user_row 3 w = Some "new@x" ∧ User_Email <$> user_row 4 w = Some "new@x" ∧
  (IsEmailAlreadyTaken "new@x" w).1 = Ok false ∧
  let '(r, w) := (do! RegisterVerificationCodeWithKey "new@x" "c2" PasswordResetPurpose in
                  ResetPassword "salt" "password2" "new@x" "c2") w in
  r = Ok "password2" ∧ User_Password <$> user_row 3 w = Some "hash of password2" ∧
  User_Password <$> user_row 4 w = Some "hash of password2".
Proof. vm_compute. repeat split. Qed.

(** A cached token and user. *)
Definition cached_world : World := {| site_world with
  World_redis_users := {[3 := ToBaseUser (account "carol" 1 "c@x")]};
  World_redis_tokens := {["key3" := set_Token_Key "" (site_token 5 3 "key3")]} |}.

(** [DeleteUser] removes the rows and leaves the caches: the deleted user's token goes on
    working. *)
Theorem deleted_user_still_served :
  let '(r, w') := DeleteUser bob 3 cached_world in
  r = Ok tt ∧ user_row 3 w' = None ∧ is_ok (TokenAuth (bearer "key3") w').1 = true.
Proof. vm_compute. repeat split. Qed.

(** A request in flight has read the row before the account was disabled; its background
    write puts the old status into the cache and the token works again. *)
Theorem stale_populate_reenables :
  let w := (GetUserCache 3 site_world).2 in
  let w := (ManageUser bob (Some (manage 3 "disable")) w).2 in
  (TokenAuth (bearer "key3") w).1 = Err banned ∧
  match World_jobs w with
  | j :: _ => is_ok (TokenAuth (bearer "key3") (run_cache_job j w).2).1 = true
  | [] => False
  end.
Proof. vm_compute. split; reflexivity. Qed.

(** The session keeps the status and rank it was opened with: a disabled user's session
    goes on being accepted. *)
Theorem session_outlives_disable :
  let w := (ManageUser bob (Some (manage 3 "disable")) site_world).2 in
  is_ok (UserAuth carol_session "" "3" "ip" w).1 = true.
Proof. vm_compute. reflexivity. Qed.

(** The stand-in for an absent password is accepted as a new password and ignored. *)
Theorem placeholder_password_ignored :
  let b := mkUserBody 0 {| zeroUser with User_Username := "carol"; User_Password := placeholder |} "password1" "" None in
  let '(r, w') := UpdateSelf (mkCaller 3 "carol" 1 false "ip") "salt" (Some (SelfFields (Some b))) site_world in
  r = Ok tt ∧ User_Password <$> user_row 3 w' = Some "hash of password1".
Proof. vm_compute. split; reflexivity. Qed.

(** Two wrong answers that loaded the record before either was written count as one. *)
Theorem parallel_guesses_count_once :
  let w := (do! attempt (verify_code the_twofa "000000") in attempt (verify_code the_twofa "000001")) site_world in
  TwoFA_FailedAttempts <$> twofa_row 3 w.2 = Some 1.
Proof. vm_compute. reflexivity. Qed.

(** A sign counts as a digit. *)
Theorem numeric_code_sign : ValidateNumericCode "+12345" = Ok "+12345" ∧ ValidateNumericCode "-00001" = Ok "-00001".
Proof. split; reflexivity. Qed.

(** Another account's access token passes the check for duplicates; only the column's
    unique index stops it. *)
Theorem access_token_duplicate_unseen :
  let w := on_db (upd_user 4 (λ u, {| u with User_AccessToken := Some "k" |})) site_world in
  (GenerateAccessToken (mkCaller 3 "carol" 1 false "ip") "k" w).1 = Err (EDriver "UNIQUE constraint failed").
Proof. vm_compute. reflexivity. Qed.
