(* ===== verification/OverrideWitnesses.v ===== *)
(** * OverrideWitnesses: the override theorems at concrete requests

    [tree_text] reads and writes trees in place of their texts and satisfies the laws of
    [gjson], [sjson] and [encoding/json] that the theorems use; a map is visited from its
    last key to its first.  The corner cases at the end are computed with it. *)

From Stdlib Require Import Ascii.
From S2P Require Import OverrideExact.
From S2P Require Import Prelude.

(** ** A concrete library *)

Definition tree_result (v : json) : gjson_Result json :=
  mkResult v (match v with JString s => s | _ => "" end) v.
Definition bad_path : error := EText "path".
Definition tree_set (t : json) (s : string) (x : json) : result json :=
  match path_of s, t with
  | Some p, _ => match json_set t p x with Some t' => Ok t' | None => Err bad_path end
  | None, JObject m => match path_key s with Some k => Ok (JObject (put_field k x m)) | None => Err bad_path end
  | None, _ => Err bad_path
  end.

#[global] Instance tree_text : JsonText := {|
  Text := json;
  Unmarshal t := Ok t;
  Marshal v := Ok v;
  UnmarshalJsonStr _ := Err (EText "json");
  gjson_Get t s := p ← path_of s; tree_result <$> json_get t p;
  gjson_Parse := tree_result;
  sjson_Set := tree_set;
  sjson_SetRaw := tree_set;
  sjson_Delete t s := match path_of s with Some p => Ok (json_del t p) | None => Err bad_path end;
|}.

#[global] Instance plain_formatting : Formatting := {|
  DebugEnabled := false;
  FormatFloat _ := "0";
  GetJsonString _ := "{}";
  regexp_Compile _ := Err (EText "regexp");
  EqualFold s t := String.eqb (ToLower s) (ToLower t);
  unicode_ToLower := ToLower;
  unicode_ToUpper := ToUpper;
  range_map := @rev _;
|}.

#[global] Instance plain_formatting_laws : FormattingLaws plain_formatting.
Proof. split. intros m. simpl. symmetry. apply Permutation_rev. Qed.

(** *** Trees stay canonical *)

Lemma plain_valid k : plain_seg k = true -> valid_text k = true.
Proof.
  intros (Hb & _)%plain_seg_bytes. unfold valid_text.
  assert (all_bytes path_byte k = true) as Hp%visible_bytes.
  { eapply all_bytes_impl; [|exact Hb]. intros c Hc. unfold path_byte. by rewrite Hc. }
  induction Hp as [|z l Hz _ IH]; [done|]. simpl. unfold utf8_follow. by rewrite (proj2 (Z.ltb_lt z 128)) by lia.
Qed.

Definition entries_ok (m : list (string * json)) : Prop :=
  keys_ordered m = true ∧ Forall (λ kv, valid_text kv.1 = true ∧ canonical kv.2 = true) m.

Lemma canonical_object m : canonical (JObject m) = true <-> entries_ok m.
Proof.
  unfold entries_ok. simpl. rewrite andb_true_iff, forallb_forall, Forall_forall.
  setoid_rewrite list_elem_of_In. setoid_rewrite andb_true_iff. done.
Qed.

Lemma canonical_array l : canonical (JArray l) = true <-> Forall (λ v, canonical v = true) l.
Proof. simpl. rewrite forallb_forall, Forall_forall. by setoid_rewrite list_elem_of_In. Qed.

Lemma put_keys k x m (P : string * json -> Prop) : P (k, x) -> Forall P m -> Forall P (put_field k x m).
Proof.
  intros Hk. induction 1 as [|[k0 y] m Hy Hm IH]; simpl; [by repeat constructor|].
  destruct (String.compare k k0) eqn:E; [|by repeat constructor|by constructor].
  apply String.compare_eq_iff in E as ->. by constructor.
Qed.

Lemma put_ordered k x m : keys_ordered m = true -> keys_ordered (put_field k x m) = true.
Proof.
  induction m as [|[k0 y] m IH]; [done|]. intros [Ho Hlt]%ordered_cons. simpl. destruct (String.compare k k0) eqn:E.
  - apply ordered_cons. done.
  - apply ordered_cons. split; [by apply ordered_cons|]. constructor; [done|]. eapply Forall_impl; [exact Hlt|].
    intros kv Hkv. by eapply compare_lt_trans.
  - apply ordered_cons. split; [auto|]. apply put_keys; [by apply compare_gt|done].
Qed.

Lemma put_ok k x m : entries_ok m -> valid_text k = true -> canonical x = true -> entries_ok (put_field k x m).
Proof. intros [Ho Hf] Hk Hx. split; [by apply put_ordered|by apply put_keys]. Qed.

Lemma del_ok k m : entries_ok m -> entries_ok (del_field k m).
Proof.
  unfold del_field. intros [Ho Hf].
  enough (entries_ok (List.filter (λ kv, negb (String.eqb kv.1 k)) m)
          ∧ ∀ k', Forall (λ kv, k' <s kv.1) m -> Forall (λ kv, k' <s kv.1) (List.filter (λ kv, negb (String.eqb kv.1 k)) m)) by tauto.
  induction Hf as [|[k0 y] m Hy Hf IH]; [by repeat constructor|]. apply ordered_cons in Ho as [Ho Hlt].
  destruct (IH Ho) as [[H1 H2] H3]. simpl. destruct (negb _).
  - split; [split; [apply ordered_cons; auto|by constructor]|]. intros k' [? ?]%Forall_cons. constructor; auto.
  - split; [done|]. intros k' [? ?]%Forall_cons. auto.
Qed.

Lemma canonical_new p x w :
  Forall (λ s, plain_seg s = true) p -> canonical x = true -> json_new p x = Some w -> canonical w = true.
Proof.
  intros Hp Hx. revert w. induction Hp as [|k p Hk _ IH]; intros w; simpl; [congruence|]. case_match; [done|].
  intros (y & Hy & [= <-])%bind_Some. apply canonical_object. split; [done|]. constructor; [|constructor]. split; [by apply plain_valid|by apply IH].
Qed.

Lemma canonical_set v p x w :
  Forall (λ s, plain_seg s = true) p -> canonical v = true -> canonical x = true -> json_set v p x = Some w -> canonical w = true.
Proof.
  intros Hp Hv Hx. revert v w Hv. induction Hp as [|k p Hk Hp IH]; intros v w Hv; simpl; [congruence|].
  destruct v as [| | | |l|m]; try done.
  - intros (i & _ & (y & Hy & (w' & Hw' & [= <-])%bind_Some)%bind_Some)%bind_Some. apply canonical_array.
    apply canonical_array in Hv. apply Forall_insert; [done|]. eapply IH; [|exact Hw']. exact (Forall_lookup_1 _ _ _ _ Hv Hy).
  - intros (w' & Hw' & [= <-])%bind_Some. apply canonical_object.
    apply put_ok; [by apply canonical_object|by apply plain_valid|].
    destruct (lookup_field k m) as [y|] eqn:Ey; [|by apply (canonical_new p x)]. eapply IH; [|exact Hw'].
    simpl in Hv. apply andb_true_iff in Hv as [_ Hv]. by eapply canonical_field.
Qed.

Lemma canonical_del v p : Forall (λ s, plain_seg s = true) p -> canonical v = true -> canonical (json_del v p) = true.
Proof.
  intros Hp. revert v. induction Hp as [|k p Hk Hp IH]; intros v Hv; [done|].
  destruct v as [| | | |l|m]; try done.
  - cbn [json_del]. destruct (index_of k) as [i|]; [|done]. apply canonical_array in Hv as Hl.
    destruct (l !! i) as [y|] eqn:Ey; [|by destruct p]. destruct p as [|k' p].
    + apply canonical_array. by apply Forall_delete.
    + apply canonical_array, Forall_insert; [done|]. apply IH. exact (Forall_lookup_1 _ _ _ _ Hl Ey).
  - cbn [json_del]. apply canonical_object in Hv as Hm. destruct p as [|k' p]; [by apply canonical_object, del_ok|].
    destruct (lookup_field k m) as [y|] eqn:Ey; [|done]. apply canonical_object, put_ok; [done|by apply plain_valid|].
    apply IH. simpl in Hv. apply andb_true_iff in Hv as [_ Hv]. by eapply canonical_field.
Qed.

(** *** Keys *)

Lemma path_key_plain s k : all_bytes path_byte s = true -> path_key s = Some k -> k = s ∧ lacks "." s = true.
Proof.
  revert k. induction s as [|c s IH]; intros k; [by intros _ [= <-]|]. simpl. rewrite andb_true_iff. intros [Hc Hs].
  destruct (Ascii.eqb_spec c "\") as [->|_]; [done|]. destruct (path_sign c) eqn:E; [done|].
  intros (k' & Hk & ->)%fmap_Some. destruct (IH k' Hs Hk) as [-> ->]. split; [done|]. rewrite andb_true_r.
  destruct (Ascii.eqb_spec c "."%char) as [->|]; done.
Qed.

Lemma path_of_key s k p : path_key s = Some k -> path_of s = Some p -> p = [k].
Proof.
  intros Hk H. pose proof (path_of_plain _ _ H) as [E Hp]. pose proof (plain_path_forall _ Hp) as [_ Hf].
  apply join_bytes in Hf. rewrite <- E in Hf. destruct (path_key_plain _ _ Hf Hk) as [-> Hl].
  unfold path_of in H. rewrite (Split_none "." "" s) in H by done. by case_match; simplify_eq.
Qed.

Lemma literal_valid k : literal_key k = true -> valid_text k = true.
Proof. unfold literal_key. rewrite !andb_true_iff. tauto. Qed.

#[global, refine] Instance tree_text_laws : JsonTextLaws tree_text := {| denotes t v := t = v ∧ canonical v = true |}.
Proof.
  - by intros t v [-> _].
  - by intros t v [_ H].
  - intros v Hv. by exists v.
  - intros t v [-> Hv]. split_and!; [done| |done|done]. by intros s ->.
  - intros t v p [-> Hv] Hp. simpl. rewrite path_of_join by done. simpl. destruct (json_get v p) as [w|] eqn:E; [|done].
    exists (tree_result w). split; [done|]. split_and!; [done| |done|by eapply json_get_canonical]. by intros s ->.
  - intros t v p x v' [-> Hv] Hp Hx Hs. simpl. unfold tree_set. rewrite path_of_join, Hs by done.
    exists v'. split_and!; [done..|]. apply plain_path_forall in Hp as [_ Hp]. by apply (canonical_set v p x).
  - intros t v p raw x v' [-> Hv] Hp [-> Hx] Hs. simpl. unfold tree_set. rewrite path_of_join, Hs by done.
    exists v'. split_and!; [done..|]. apply plain_path_forall in Hp as [_ Hp]. by apply (canonical_set v p x).
  - intros t v p [-> Hv] Hp. simpl. rewrite path_of_join by done. eexists. split_and!; [done..|].
    apply plain_path_forall in Hp as [_ Hp]. by apply canonical_del.
  - intros t m s k x [-> Hm] Hkey Hk Hx.
    assert (canonical (JObject (put_field k x m)) = true) as Hc.
    { apply canonical_object, put_ok; [by apply canonical_object|by apply literal_valid|done]. }
    exists (JObject (put_field k x m)). split; [|done]. simpl. unfold tree_set.
    destruct (path_of s) as [p|] eqn:E; [|by rewrite Hkey].
    apply (path_of_key _ _ _ Hkey) in E as ->. simpl. by destruct (lookup_field k m).
  - done.
Defined.

(** ** The theorems *)

Definition message (role content : string) : json := JObject [("content", JString content); ("role", JString role)].
Definition block (ty text : string) : json := JObject [("text", JString text); ("type", JString ty)].
Definition sample_body : json :=
  JObject [("messages", JArray [message "system" "be brief"; message "user" "hi"]); ("model", JString "openai/gpt-4o")].
Definition body_text : @Text tree_text := sample_body.
Definition sample_context : Context := [("is_retry", JBool true)].

Definition on_retry : ConditionOperation := mkCondition "is_retry" "full" (JBool true) false false.
Definition rule (path mode : string) (value : json) (conditions : list ConditionOperation) : ParamOperation :=
  mkOperation path mode value false "" "" conditions "OR".
Definition sample_rules : list ParamOperation :=
  [rule "model" "trim_prefix" (JString "openai/") [on_retry];
   rule "messages" "append" (message "user" "go on") [];
   rule "messages.0" "delete" JNull [mkCondition "messages.0.role" "full" (JString "system") false false];
   mkOperation "" "copy" JNull false "messages.0.content" "metadata.first" [] "OR"].
Definition sample_result : json :=
  JObject [("messages", JArray [message "user" "hi"; message "user" "go on"]);
           ("metadata", JObject [("first", JString "hi")]); ("model", JString "gpt-4o")].

Lemma override_refines_witness :
  ∃ st, applyOperations body_text sample_rules sample_context (Some []) = inr st ∧
        denotes (os_data st) sample_result ∧ os_context st = sample_context.
Proof.
  apply (override_refines body_text sample_body sample_rules sample_context (Some []) sample_result).
  - split; vm_compute; reflexivity.
  - vm_compute; reflexivity.
  - vm_compute; reflexivity.
Defined.

Lemma set_rule_exact_witness :
  ∃ st, applyOperations body_text [rule "metadata.tier" "set" (JString "fast") []] [] None = inr st ∧
    denotes (os_data st) (JObject [("messages", JArray [message "system" "be brief"; message "user" "hi"]);
       ("metadata", JObject [("tier", JString "fast")]); ("model", JString "openai/gpt-4o")]).
Proof.
  destruct (set_rule_exact body_text sample_body ["metadata"; "tier"] (rule "metadata.tier" "set" (JString "fast") []) [] None
    (JObject [("messages", JArray [message "system" "be brief"; message "user" "hi"]);
       ("metadata", JObject [("tier", JString "fast")]); ("model", JString "openai/gpt-4o")])) as (st & H & Hd & _).
  - split; vm_compute; reflexivity.
  - reflexivity.
  - reflexivity.
  - reflexivity.
  - reflexivity.
  - reflexivity.
  - vm_compute; reflexivity.
  - vm_compute; reflexivity.
  - exists st. split; [exact H|exact Hd].
Defined.

Lemma legacy_override_exact_witness :
  ∃ t' m' lines, ApplyParamOverride body_text [("model", JString "o3"); ("vendor.option", JBool true)] [] None
                 = inr (t', [], lines) ∧ denotes t' (JObject m') ∧
    ∀ k, lookup_field k m' = overlay [("model", JString "o3"); ("vendor.option", JBool true)]
           [("messages", JArray [message "system" "be brief"; message "user" "hi"]); ("model", JString "openai/gpt-4o")] k.
Proof.
  apply legacy_override_exact.
  - split; vm_compute; reflexivity.
  - apply (bool_decide_unpack _). vm_compute. exact I.
  - vm_compute; reflexivity.
  - repeat constructor.
Defined.

Lemma wildcard_paths_exact_witness :
  ∃ paths, expandWildcardPaths body_text "messages.*.name" = Ok paths ∧ NoDup paths ∧
    ∀ s, s ∈ paths <-> ∃ q, wild_target sample_body ["messages"; "*"; "name"] q ∧ s = GoString.Join q ".".
Proof.
  apply (wildcard_paths_exact body_text sample_body "messages.*.name").
  - split; vm_compute; reflexivity.
  - change (Split "messages.*.name" ".") with ["messages"; "*"; "name"]. repeat constructor.
Defined.

Definition nested_body : json :=
  JObject [("content", JArray [block "thinking" "hm"; block "text" "hi"]); ("type", JString "thinking")].

Definition nested_text : @Text tree_text := nested_body.

Lemma prune_by_type_exact_witness :
  ∃ t', pruneObjects nested_text "" None (JString "thinking") = Ok t' ∧
        denotes t' (JObject [("content", JArray [block "text" "hi"]); ("type", JString "thinking")]).
Proof.
  refine (proj1 (prune_by_type_exact nested_text nested_body "thinking" None (JObject []) _ _ _ _ _ _ _)).
  - split; vm_compute; reflexivity.
  - vm_compute; reflexivity.
  - vm_compute; reflexivity.
  - vm_compute; reflexivity.
  - vm_compute; reflexivity.
  - discriminate.
  - vm_compute; reflexivity.
Defined.

Definition beta_mapping : list (string * json) :=
  [("$append", JString "fast-mode"); ("$keep_only_declared", JBool true); ("tools-v1", JString "tools-v2")].
Definition beta_context : Context :=
  [("header_override", JObject []); ("request_headers", JObject [("anthropic-beta", JString "tools-v1, debug")])].

Definition beta_result : Context :=
  [("header_override", JObject [("anthropic-beta", JString "tools-v2,fast-mode")]);
   ("request_headers", JObject [("anthropic-beta", JString "tools-v1, debug")])].

Lemma header_whitelist_witness :
  let name := normalizeHeaderContextKey "Anthropic-Beta" in
  name = "anthropic-beta" ∧
  ∃ context', setHeaderOverrideInContext beta_context "Anthropic-Beta" (JObject beta_mapping) false = Ok context' ∧
    lookup_field "header_override" context' = Some (JObject [("anthropic-beta", JString "tools-v2,fast-mode")]) ∧
    (false = true ∧ is_Some (header_in (ensureMapKeyInContext beta_context paramOverrideContextHeaderOverride).1 name) ∧
       (ensureMapKeyInContext context' paramOverrideContextHeaderOverride).1 = (ensureMapKeyInContext beta_context paramOverrideContextHeaderOverride).1 ∨
     lookup_field name (ensureMapKeyInContext context' paramOverrideContextHeaderOverride).1 = None ∨
     ∃ tokens, lookup_field name (ensureMapKeyInContext context' paramOverrideContextHeaderOverride).1
                 = Some (JString (GoString.Join tokens ",")) ∧ tokens ≠ [] ∧ NoDup tokens ∧
       ∀ x, x ∈ tokens -> gives beta_mapping "$append" x ∨
         ∃ token, token ∈ current_tokens beta_context name ∧ gives beta_mapping token x).
Proof.
  split; [vm_compute; reflexivity|].
  exists beta_result. split; [vm_compute; reflexivity|]. split; [reflexivity|].
  apply (header_whitelist beta_context "Anthropic-Beta" beta_mapping false beta_result); vm_compute; reflexivity.
Defined.

(** ** Corner cases *)

Definition num (z : Z) : json := JNumber (float_of_int z).

(** The second negative index of a path is resolved with the length of the first array. *)
Example nested_negative_index :
  let t : @Text tree_text := JObject [("a", JArray [JObject [("b", JArray [num 1; num 2; num 3])]])] in
  processNegativeIndex t "a.-1.b.-1" = "a.0.b.0".
Proof. vm_compute. reflexivity. Qed.

(** Moving a value to where it is deletes it. *)
Example move_to_itself :
  moveValue body_text "model" "model"
  = Ok (JObject [("messages", JArray [message "system" "be brief"; message "user" "hi"])]).
Proof. vm_compute. reflexivity. Qed.

(** Appending nothing to an empty array writes null. *)
Example append_nothing :
  let t : @Text tree_text := JObject [("stop", JArray [])] in
  modifyValue t "stop" (JArray []) false false = Ok (JObject [("stop", JNull)]).
Proof. vm_compute. reflexivity. Qed.

(** An object without the key is compared with the request's own context. *)
Example prune_falls_back :
  let context : option (@Text tree_text) := Some (JObject [("model", JString "gpt-4o")]) in
  pruneObjects body_text "messages" context (JObject [("where", JObject [("model", JString "gpt-4o")])])
  = Ok (JObject [("messages", JArray []); ("model", JString "openai/gpt-4o")]).
Proof. vm_compute. reflexivity. Qed.

(** A key with a dot that a wildcard matches is taken for two segments. *)
Example wildcard_key_with_dot :
  let t : @Text tree_text := JObject [("a.b", JObject [("x", num 1)])] in
  expandWildcardPaths t "*.x" = Ok ["a.b.x"].
Proof. vm_compute. reflexivity. Qed.

(** A wildcard path into audited fields does not turn the recorder on. *)
Example wildcard_unaudited :
  shouldEnableParamOverrideAudit [("operations", JArray [JObject [("mode", JString "set"); ("path", JString "*.content")]])] = false
  ∧ shouldAuditParamPath "messages.content" = true.
Proof. vm_compute. split; reflexivity. Qed.

(** A client may name the control keys of a header mapping as tokens. *)
Example control_key_as_token :
  replacement beta_mapping true "$keep_only_declared" = Ok ["true"].
Proof. vm_compute. reflexivity. Qed.
