(* ===== verification/AffinityWitnesses.v ===== *)
(** * AffinityWitnesses: the cache and affinity theorems at concrete requests

    [plain_hot] is an in-memory cache that forgets nothing before its time, [plain_scan]
    answers a [SCAN] in one batch; both satisfy the laws the theorems use.  The corner
    cases at the end are computed with them. *)

From Stdlib Require Import Ascii.
From S2P Require Import AffinityProps.
From S2P Require Import OverrideWitnesses.
From S2P Require Import Prelude.

(** ** Concrete libraries *)

#[global] Instance plain_hot {V} : HotCache V := {|
  Hot := gmap string (V * option Z);
  hot_Get now k m := (live now m k, m);
  hot_SetWithTTL now k v ttl m := <[k := (v, Some (now + ttl))]> m;
  hot_Keys now m := (map_to_list (filter (λ kv, expired_at now kv.2.2 = false) m)).*1;
  hot_DeleteMany now ks m :=
    (list_to_map (map (λ k, (k, bool_decide (is_Some (live now m k)))) ks), filter (λ kv, kv.1 ∉ ks) m);
  hot_Purge _ := ∅;
  hot_Capacity := 100;
  hot_Algorithm := "lru";
|}.

Lemma elem_of_unexpired {V} now (m : table V) k :
  k ∈ (map_to_list (filter (λ kv, expired_at now kv.2.2 = false) m)).*1 <-> is_Some (current now m k).
Proof.
  unfold current. rewrite list_elem_of_fmap. split.
  - intros ([k' x] & -> & [H1 H2]%elem_of_map_to_list%map_lookup_filter_Some). simpl in *. rewrite H1, H2. eauto.
  - intros [x H]. destruct (m !! k) as [y|] eqn:E; [|done]. destruct (expired_at now y.2) eqn:Ex; [done|].
    exists (k, y). split; [done|]. by apply elem_of_map_to_list, map_lookup_filter_Some.
Qed.

#[global, refine] Instance plain_hot_laws {V} : HotLaws V := {| content m := m |}.
Proof.
  - done.
  - done.
  - intros now m k. unfold live. rewrite fmap_is_Some. apply elem_of_unexpired.
  - intros now ks m k. simpl. case_bool_decide as H.
    + apply map_lookup_filter_None_2. right. simpl. tauto.
    + change (Hot V) with (table V) in m. destruct (m !! k) as [x|] eqn:E; [by apply map_lookup_filter_Some_2|].
      apply map_lookup_filter_None_2. by left.
  - done.
Defined.

(** Patterns of literal texts and stars at their end. *)
Fixpoint plain_glob (p k : string) : bool :=
  match p with
  | EmptyString => String.eqb k ""
  | String "*" EmptyString => true
  | String c p => match k with String d k => Ascii.eqb c d && plain_glob p k | EmptyString => false end
  end.

Lemma plain_glob_cons c p k : Ascii.eqb c "*" = false ->
  plain_glob (String c p) k = match k with String d k => Ascii.eqb c d && plain_glob p k | EmptyString => false end.
Proof. by destruct c as [[] [] [] [] [] [] [] []]. Qed.

Lemma plain_glob_prefix p k : lacks "*" p = true -> plain_glob (p +:+ "*") k = HasPrefix k p.
Proof.
  revert k. induction p as [|c p IH]; intros k Hp; [by destruct k|].
  simpl in Hp. apply andb_true_iff in Hp as [Hc Hp]. rewrite string_cons_app, plain_glob_cons.
  - destruct k as [|d k]; [done|]. rewrite IH by done. unfold HasPrefix. simpl.
    destruct (Ascii.eqb_spec c d), (ascii_dec c d); try done.
  - destruct (Ascii.eqb_spec c "*"); [by subst|done].
Qed.

#[global] Instance plain_scan : RedisScan := {| scan_batches p keys := [List.filter (plain_glob p) keys] |}.
#[global, refine] Instance plain_scan_laws : ScanLaws := {| glob := plain_glob |}.
Proof.
  - intros p k Hp. apply plain_glob_prefix. unfold glob_literal in Hp. rewrite !andb_true_iff in Hp. tauto.
  - intros p keys k. simpl. by rewrite app_nil_r, list_elem_of_In, filter_In, <- list_elem_of_In.
Defined.

(** Patterns are prefixes; the digest is the text itself. *)
#[global] Instance plain_libs : AffinityLibs := {|
  regexp_MatchString p := Some (λ s, HasPrefix s p);
  Sha1 s := s;
  RawString t := match t with JNull => "null" | _ => "{}" end;
|}.

(** ** Requests of two clients *)

(** The rule of the default settings for Claude's client. *)
Definition claude_rule : ChannelAffinityRule :=
  mkRule "claude cli trace" ["claude-"] ["/v1/messages"] [] [mkKeySource "gjson" "" "user"] "" 0
    (buildPassHeaderTemplate ["X-App"]) true true false true.
Definition sample_setting : ChannelAffinitySetting := mkAffinitySetting true true false 100000 3600 [claude_rule].

Definition request (body : json) : AffinityCtx :=
  mkAffinityCtx _ "/v1/messages" "cli" (λ _, "") (λ _, 0) (λ _, "") (Some body) None None None.
Definition user_body (user : json) : Text := JObject [("user", user)].
Definition alice : AffinityCtx := request (user_body (JString "alice")).
Definition bob : AffinityCtx := request (user_body (JString "bob")).

Definition empty_cache : HybridState Z := mkHybrid ∅ ∅ 1700000000000000000 [].
Definition cache : HybridCache := getChannelAffinityCache true.
Definition source : ChannelAffinityKeySource := mkKeySource "gjson" "" "user".

Lemma empty_represents redis : represents (getChannelAffinityCache redis) empty_cache ∅.
Proof.
  split; [intros k; rewrite lookup_empty; by intros []|]. destruct redis; simpl; intros k; unfold current; rewrite !lookup_empty; [constructor|done].
Qed.

(** Bob's success, a failed command and half an hour between Alice's requests. *)
Definition meanwhile : list (cache_op (V := Z)) :=
  [OpSet "claude cli trace:default:bob" 9 3600; OpDelete ["claude cli trace:default:bob"]; OpWait (1800 * Second);
   OpDeletePrefix "codex cli trace"; OpGet "claude cli trace:default:bob"].

Lemma meanwhile_proper c : ns c = channelAffinityCacheNamespace -> Forall (proper_op c) meanwhile.
Proof.
  intros E. unfold meanwhile. repeat (apply Forall_cons; split); try done; simpl; try (unfold Second; lia).
  unfold full_prefix. rewrite E. by vm_compute.
Qed.

Lemma hybrid_refines_witness :
  sound_run cache meanwhile (run_ops cache meanwhile (mkHybrid ∅ ∅ 0 [None; Some "down"])) 0 ∅.
Proof.
  apply (hybrid_refines cache (proj1 affinity_ns) (proj2 affinity_ns) meanwhile (mkHybrid ∅ ∅ 0 [None; Some "down"]) ∅).
  - split; [intros k; rewrite lookup_empty; by intros []|]. simpl. intros k. unfold current. rewrite !lookup_empty. constructor.
  - by apply meanwhile_proper.
Defined.

(** A pipeline that breaks off: the first key is gone, the second still there, and the
    caller sees an error. *)
Example pipeline_breaks_off :
  let s : HybridState Z := mkHybrid {["new-api:channel_affinity:v1:a" := ("4", None); "new-api:channel_affinity:v1:b" := ("5", None)]} ∅ 0
             [None; Some "down"] in
  let '(r, s') := DeleteMany cache ["a"; "b"] s in
  is_ok r = false ∧ map_to_list (hc_redis s') = [("new-api:channel_affinity:v1:b", ("5", None))].
Proof. vm_compute. done. Qed.

Lemma affinity_sticks_witness :
  let ctx1 := setChannelAffinityContext (meta_of sample_setting alice "claude-3" "default" claude_rule source "alice") alice in
  let s1 := (RecordChannelAffinity true sample_setting ctx1 4 empty_cache).2 in
  (GetPreferredChannelByAffinity true sample_setting alice "claude-3" "default" (run_state cache meanwhile s1)).1
  = Ok (Some 4, ctx1).
Proof.
  apply (affinity_sticks sample_setting alice alice "claude-3" "default" claude_rule source source "alice" 4 meanwhile empty_cache ∅).
  - apply (empty_represents true).
  - done.
  - done.
  - by vm_compute.
  - by vm_compute.
  - lia.
  - intros _. left. simpl. lia.
  - by vm_compute.
  - by apply meanwhile_proper.
  - unfold meanwhile. repeat (apply Forall_cons; split); first [exact I|apply (bool_decide_unpack _); vm_compute; exact I|constructor].
  - by vm_compute.
  - by vm_compute.
Defined.

(** Alice's channel is recorded, then an administrator clears the rule. *)
Definition recording : cache_op :=
  OpSet "new-api:channel_affinity:v1:claude cli trace:default:alice" 4 (3600 * Second).
Definition recorded : HybridState Z := (run_op cache recording empty_cache).2.
Definition cleared : result Z * HybridState Z :=
  ClearChannelAffinityCacheByRuleName true sample_setting " claude cli trace" recorded.

Lemma recorded_represents : represents cache recorded (spec_op cache recording (hc_now empty_cache) ∅).
Proof.
  pose proof (step_refines cache (proj1 affinity_ns) (proj2 affinity_ns) recording empty_cache ∅ (empty_represents true)) as H.
  assert ((run_op cache recording empty_cache).1 = Ok None) as E by (vm_compute; reflexivity).
  unfold recorded. destruct (run_op cache recording empty_cache) as [r s]. cbn [fst snd] in E |- *. subst r.
  destruct H as (t' & Ht' & H & _); [split; [unfold Second; lia|simpl; lia]|]. by rewrite <- Ht'.
Qed.

Lemma rule_cleared_witness :
  ∃ ctx', (GetPreferredChannelByAffinity true sample_setting alice "claude-3" "default" cleared.2).1 = Ok (None, ctx').
Proof.
  apply (rule_cleared sample_setting true claude_rule " claude cli trace" 1 alice "claude-3" "default" source "alice" recorded cleared.2
    _ recorded_represents).
  5: { assert (cleared.1 = Ok 1) as E by (vm_compute; reflexivity).
       fold cleared. rewrite (surjective_pairing cleared), E. reflexivity. }
  all: vm_compute; reflexivity.
Defined.

(** ** A choice *)

#[global] Instance memory_cache : ChannelConfig := {| MemoryCacheEnabled := true; decode_array _ := None |}.
Definition channel (id status : Z) : Channel :=
  mkChannel id 14 "sk" status "c" (Some 1) "claude-3" "default" (Some 0) (Some 1) ∅ None (mkInfo false 0 ∅ ∅ ∅ 0 "") None [].
Definition index : CW :=
  mkCW ∅ 1 ∅ (mkCache {["default" := {["claude-3" := [4; 5]]}]} {[4 := channel 4 1; 5 := channel 5 1]} ∅) 0 [].
(** Models are named in bodies of trees; forms are not decoded. *)
#[local] Instance model_decoder : BodyDecoder ModelRequest :=
  {| zero_value := mkModelRequest "" ""; from_json _ := Err (EText "json"); from_form _ := Err (EText "form");
     from_multipart _ := Err (EText "multipart") |}.
#[local] Instance midjourney_decoder : BodyDecoder MidjourneyRequest :=
  {| zero_value := zeroMidjourney;
     from_json t := match t with
                    | JObject m => Ok {| zeroMidjourney with
                        CustomId := match lookup_field "customId" m with Some (JString s) => s | _ => "" end;
                        mj_Content := match lookup_field "content" m with Some (JString s) => s | _ => "" end |}
                    | _ => Err (EText "json")
                    end;
     from_form _ := Err (EText "form"); from_multipart _ := Err (EText "multipart") |}.
#[local] Instance playground_decoder : BodyDecoder PlayGroundRequest :=
  {| zero_value := mkPlayGround ""; from_json _ := Ok (mkPlayGround ""); from_form _ := Err (EText "form");
     from_multipart _ := Err (EText "multipart") |}.

Definition json_request (path : string) (body : json) : AffinityCtx :=
  mkAffinityCtx _ path "cli" (λ h, if bool_decide (h = "Content-Type") then "application/json" else "") (λ _, 0) (λ _, "")
    (Some body) None None None.
Definition asking (method : string) (body : json) (limit : option (option (list string))) : Incoming :=
  mkIncoming _ method "application/json" (λ _, "") (λ _, "") (Ok body) None limit "default".

Definition claude_body : Text := JObject [("model", JString "claude-3"); ("user", JString "alice")].
Definition incoming : Incoming := asking "POST" claude_body (Some (Some ["claude-3"])).
Definition claude_request : AffinityCtx := json_request "/v1/messages" claude_body.
Definition first_draw (model : string) : string -> Z -> found := index_sel (λ _, 0) index model "/v1/messages".
Definition distribute (redis : bool) (s : HybridState Z) :=
  chosen_channel (λ _, true) redis sample_setting 3 false [] [] (λ _, ∅) first_draw incoming claude_request ∅ (mkDW _ index s ∅).

Definition chosen (r : result (option Channel * string * string * AffinityCtx * GinCtx)) : option (Channel * string * string) :=
  match r with Ok (Some c, g, model, _, _) => Some (c, g, model) | _ => None end.

(** Channel 5 is kept for Alice, the draw would give channel 4. *)
Definition kept : HybridState Z :=
  mkHybrid {["new-api:channel_affinity:v1:claude cli trace:default:alice" := ("5", None)]} ∅ 0 [].

Lemma index_wf : wf_index (cw_cache index).
Proof.
  intros id c. simpl. rewrite lookup_insert_Some. intros [[<- <-]|[_ [<- <-]%lookup_singleton_Some]]; done.
Qed.

Lemma distribute_sound_witness :
  (∃ keys, (getModelRequest (λ _, true) incoming claude_request ∅ (mkDW _ index kept ∅)).1 = Ok ("claude-3", true, keys)) ∧
  serves_request (cw_cache index) "default" "claude-3" "/v1/messages" (channel 5 1) ∧
  (∃ used, (used = "default" ∨ is_Some ((∅ : gmap string string) !! used)) ∧
     (if bool_decide (used = "auto") then "default" ∈ [] else "default" = used)) ∧
  (∀ limit, Some (Some ["claude-3"]) = Some limit -> ∃ models, limit = Some models ∧ FormatMatchingModelName "claude-3" ∈ models).
Proof.
  assert (chosen (distribute true kept).1 = Some (channel 5 1, "default", "claude-3")) as H by (vm_compute; reflexivity).
  destruct (distribute true kept) as [[[[[[[c|] g] model] ctx'] keys']|e] s'] eqn:E; [|discriminate H..]. injection H as -> -> ->.
  destruct (distribute_sound (CC := memory_cache) (λ _, true) true sample_setting 3 false [] [] (λ _, ∅) eq_refl (λ _, 0)
    incoming claude_request ∅ (mkDW _ index kept ∅) _ _ _ ctx' keys' s' index_wf eq_refl E) as (H1 & H2).
  split; [by exists keys'|exact H2].
Defined.

(** ** A template *)

(** Claude's template in front of a channel's own rules. *)
Definition own_rules : list (string * json) :=
  [("operations", JArray [JObject [("mode", JString "delete"); ("path", JString "metadata")]]); ("top_p", JNull)].

Lemma template_first_example :
  option_map (map op_Mode)
    (tryParseOperations (ApplyChannelAffinityOverrideTemplate
       (setChannelAffinityContext (meta_of sample_setting alice "claude-3" "default" claude_rule source "alice") alice) own_rules).1)
  = Some ["pass_headers"; "delete"].
Proof. vm_compute. reflexivity. Qed.

(** ** Corner cases *)

(** A rule with nothing but the value in its key. *)
Definition bare_rule : ChannelAffinityRule :=
  mkRule "bare" ["claude-"] [] [] [source] "" 0 [] false false false false.
Definition with_rules (rules : list ChannelAffinityRule) : ChannelAffinitySetting := mkAffinitySetting true true false 100000 3600 rules.

(** The channel the next request with the same body is offered after a success on channel 4. *)
Definition offered_again (setting : ChannelAffinitySetting) (ctx : AffinityCtx) (model : string) : option Z :=
  match GetPreferredChannelByAffinity true setting ctx model "default" empty_cache with
  | (Ok (_, ctx1), s) =>
      match (GetPreferredChannelByAffinity true setting ctx model "default" (RecordChannelAffinity true setting ctx1 4 s).2).1 with
      | Ok (found, _) => found
      | Err _ => None
      end
  | _ => None
  end.

Lemma ordinary_value_offered : offered_again (with_rules [bare_rule]) alice "claude-3" = Some 4.
Proof. vm_compute. reflexivity. Qed.

(** A value that starts with a colon is recorded under another key than it is looked up. *)
Lemma colon_value_never_offered : offered_again (with_rules [bare_rule]) (request (user_body (JString ":alice"))) "claude-3" = None.
Proof. vm_compute. reflexivity. Qed.

(** Clients that send an explicit null share one key. *)
Lemma null_is_a_value :
  extractChannelAffinityValue (request (user_body JNull)) source = "null" ∧
  offered_again (with_rules [bare_rule]) (request (user_body JNull)) "claude-3" = Some 4.
Proof. split; vm_compute; reflexivity. Qed.

(** The parts of a key may hold the colon that separates them. *)
Definition by_model : ChannelAffinityRule := mkRule "r" ["claude-"] [] [] [source] "" 0 [] false false true false.
Lemma keys_collide :
  buildChannelAffinityCacheKeySuffix by_model "claude:free" "default" "alice"
  = buildChannelAffinityCacheKeySuffix by_model "claude" "default" "free:alice".
Proof. reflexivity. Qed.

(** A rule whose name ends in a space is cleared under the trimmed name, which deletes none
    of its keys; the statistics do not know them either. *)
Definition spaced_rule : ChannelAffinityRule := mkRule "trace " ["claude-"] [] [] [source] "" 0 [] false true false true.
Definition spaced_entry : HybridState Z :=
  mkHybrid {["new-api:channel_affinity:v1:trace :default:alice" := ("4", None)]} ∅ 0 [].

Lemma spaced_rule_not_cleared :
  (ClearChannelAffinityCacheByRuleName true (with_rules [spaced_rule]) "trace " spaced_entry).1 = Ok 0 ∧
  match (GetPreferredChannelByAffinity true (with_rules [spaced_rule]) alice "claude-3" "default"
           (ClearChannelAffinityCacheByRuleName true (with_rules [spaced_rule]) "trace " spaced_entry).2).1 with
  | Ok (found, _) => found = Some 4
  | Err _ => False
  end ∧
  match (GetChannelAffinityCacheStats true (with_rules [spaced_rule]) spaced_entry).1 with
  | Ok stats => (cs_Total stats, cs_Unknown stats) = (1, 1)
  | Err _ => False
  end.
Proof. split_and!; vm_compute; reflexivity. Qed.

(** Clearing everything reports the keys it listed as deleted, also when Redis refused. *)
Lemma failed_clear_reported :
  (ClearChannelAffinityCache true (with_rules []) "true" "" (mkHybrid (hc_redis kept) ∅ 0 [None; Some "READONLY"])).1 = Ok 1 ∧
  match (Get (V := Z) cache "claude cli trace:default:alice"
           (ClearChannelAffinityCache true (with_rules []) "true" "" (mkHybrid (hc_redis kept) ∅ 0 [None; Some "READONLY"])).2).1 with
  | Ok found => found = Some 5
  | Err _ => False
  end.
Proof. split; vm_compute; reflexivity. Qed.

(** *** Requests *)

(** A token limited to models cannot fetch the tasks it has submitted: the request names no
    model. *)
Definition refusal {A} (r : result A) : option error := match r with Err e => Some e | Ok _ => None end.

Lemma suno_fetch_refused :
  refusal (chosen_channel (λ _, true) true sample_setting 3 false [] [] (λ _, ∅) first_draw
     (asking "POST" (JObject []) (Some (Some ["suno_music"]))) (json_request "/suno/fetch" (JObject [])) ∅ (mkDW _ index kept ∅)).1
  = Some (EApi (EText "distributor.token_model_forbidden") "" 403 true true).
Proof. vm_compute. reflexivity. Qed.

(** The path of a simple change gives the mode of a change, whose action such a request does
    not have. *)
Lemma simple_change_misread :
  Path2RelayModeMidjourney "/mj/submit/simple-change" = RelayModeMidjourneyChange ∧
  GetMjRequestModel RelayModeMidjourneyChange {| zeroMidjourney with mj_Content := "1712 u2" |} = Ok "mj_" ∧
  GetMjRequestModel RelayModeMidjourneySimpleChange {| zeroMidjourney with mj_Content := "1712 u2" |} = Ok "mj_upscale".
Proof. split_and!; vm_compute; reflexivity. Qed.

(** A custom id without its separators, a simple change without its number. *)
Lemma midjourney_panics :
  match CoverPlusActionToNormalAction {| zeroMidjourney with CustomId := "upsample" |} with Err e => is_panic e = true | Ok _ => False end ∧
  match CoverPlusActionToNormalAction {| zeroMidjourney with CustomId := "MJ::JOB::upsample" |} with Err e => is_panic e = true | Ok _ => False end ∧
  match ConvertSimpleChangeParams "1712 u" with Err e => is_panic e = true | Ok _ => False end.
Proof. split_and!; vm_compute; reflexivity. Qed.

(** A first attempt on a channel of an organization, a second on one without. *)
Definition organization_of (id : Z) : ChannelColumns :=
  mkColumns (if bool_decide (id = 4) then Some "org-a" else None) 0 None "" None None "" "" [] [].
Definition set_up (id : Z) (keys : GinCtx) : GinCtx :=
  match (SetupContextForSelectedChannel (λ _, 0) organization_of (Some (channel id 1)) "claude-3" alice keys index).1 with
  | Ok (_, _, keys) => keys
  | Err _ => ∅
  end.

Lemma organization_survives_retry :
  set_up 5 (set_up 4 ∅) !! "channel_id" = Some (CInt 5) ∧ set_up 5 (set_up 4 ∅) !! "channel_organization" = Some (CString "org-a").
Proof. split; vm_compute; reflexivity. Qed.

(** A channel all of whose keys are disabled: the request goes on without a key. *)
Definition no_keys : Channel :=
  mkChannel 4 14 "k0" 1 "c" (Some 1) "claude-3" "default" (Some 0) (Some 1) ∅ None (mkInfo true 1 {[0 := 3]} ∅ ∅ 0 MultiKeyModeRandom) None [].
Definition keyless_index : CW :=
  mkCW ∅ 1 ∅ (mkCache {["default" := {["claude-3" := [4]]}]} {[4 := no_keys]} ∅) 0 [].

Lemma served_without_key :
  (Distribute (λ _, true) true sample_setting 3 false [] [] (λ _, ∅)
     (λ model, index_sel (λ _, 0) keyless_index model "/v1/messages") (λ _, 0) organization_of
     (λ ctx keys, match keys !! "channel_id", keys !! "channel_key" with
                  | Some (CInt 4), None => ret (200, ctx)
                  | _, _ => fail (EText "key")
                  end)
     incoming claude_request ∅ (mkDW _ keyless_index empty_cache ∅)).1 = Ok tt.
Proof. vm_compute. reflexivity. Qed.
